(* ===== verification/_CoqProject ===== *)
-Q . S2P
Prelude.v
Bytes.v
ListHead.v
Buddy.v
PageIface.v
Slab.v
Kmalloc.v
PageTable.v
Memory.v
Keyboard.v
Vga.v
Vsprintf.v
Sched.v
Ipc.v
Fork.v
ForkProofs.v
Irq.v
Smp.v
CString.v
Words.v
BootInfo.v
UserMem.v
KernelMsg.v
MsgFormat.v
Syscalls.v
Exec.v
ExecProofs.v
Modules.v
SrvArgs.v
Malloc.v
Disk.v
Ext2.v
Ext2Format.v
Ext2Proofs.v
Vfs.v
VfsProofs.v
FileCalls.v
Shell.v
ShellProofs.v
Programs.v
ProgramsProofs.v
