(* ===== verification/Prelude.v ===== *)
(** * Feng OS: a verification of its core

    Feng OS is a microkernel for x86-64.  The kernel ([src/src/mm], [src/src/core],
    [src/src/boot]) manages pages, address spaces and processes and passes messages;
    servers ([src/src/srv]) run as processes and answer requests: the disk driver, the
    ext2 file system, the virtual file system, the keyboard and the screen.  User
    programs reach them through the C library ([src/src/libc]).  A call of [read] is a
    message to the virtual file system, which sends one to ext2, which sends one to the
    disk driver, which waits for interrupts.

    ** The files

    Shared:
    - [Prelude]: machine integers as [Z] with their wrap-around written out, the shared
      tactics and hints, and the monad [SO] of programs with a state.  [Bytes] and [Words]:
      numbers as bytes in lists and in memory.
    - [ListHead]: [include/kernel/list.h].  The pointer code of the circular lists, which
      the other files use as Rocq lists on the strength of its refinement theorem.

    The kernel:
    - [Buddy]: [mm/buddy.c], pages in blocks of powers of two.  [PageIface] is the class
      [PageAllocator] of what it promises; [Slab] ([mm/slab.c]), [Kmalloc]
      ([mm/kmalloc.c]) and [PageTable] ([mm/page.c]) are proved against the class.
    - [Memory]: [mm/memory.c], the initialisation that composes them.  [UserMem]: the
      address space that the page tables and the processor make of words.
    - [Sched]: [core/sched.c] and the process records.  [Ipc]: [core/ipc.c],
      [boot/syscall.c] and the interrupts of [boot/irq.c], as a machine whose steps are the
      code between two calls of [schedule].  [KernelMsg]: the requests the kernel answers.
    - [Fork] and [ForkProofs]: [core/fork.c], [core/sys.c] and [boot/process.c].  [Exec] and
      [ExecProofs]: [core/exec.c].  [Modules] and [SrvArgs]: the start of the servers in
      [core/sched.c], and how [srv/vfs/vfs.c] reads its arguments.
    - [Irq]: [boot/irq.c] and [boot/apic.c] on interrupt controllers given by a class with
      laws.  [Smp]: [boot/smp.c] and [boot/cpu.c].  [BootInfo]: [core/multiboot.c] and
      [boot/mptable.c].

    The servers:
    - [Keyboard] and [Vga]: the two console servers ([srv/keyboard], [srv/video]) and
      [boot/console.c].
    - [Disk]: [srv/disk/disk.c] on an ATA device given by the class [AtaDevice] and its
      laws [AtaLaws]; its instance of the class [BlockDevice] is what the file system
      relies on.
    - [Ext2]: [srv/ext2/main.c], [srv/ext2/cache.c] and the dispatcher of [libc/fs.c] on a
      [BlockDevice]; [Ext2Format] has the formats on the disk, [Ext2Proofs] the theorems.
    - [Vfs]: [srv/vfs/vfs.c] on file servers that answer [fs_request]s; [VfsProofs] has the
      theorems.

    The library and the programs:
    - [Vsprintf]: [libc/vsprintf.c] and [core/printk.c].  [CString]: the string and
      character functions and [atoi].  [Malloc]: [libc/malloc.c].
    - [MsgFormat]: the bytes of a message.  [Syscalls]: [libc/syscall.c] on them.
      [FileCalls]: the calls on files from a program through the kernel to [Vfs] and back.
    - [Shell] and [ShellProofs]: [shell].  [Programs] and [ProgramsProofs]: [libc/stdio.c],
      [libc/assert.c], [libc/dirent.c], [bin] and [srv/init].

    A pointer is an address or the index of the object, as the file says; a C function is
    a function from the state to a result and a state; [None] is a run that the language
    leaves undefined or that does not end.  The assertions of this kernel and library
    print and go on, so the models go on too.

    ** What is proved

    - Refinement: the lists implement lists (C1), the keyboard ring a queue (C18), the
      screen code a terminal (C20), page tables an address space (C24), message passing
      mailboxes (C29), the tables of open files a map from descriptors to positions that
      only their owner changes (C40), and a call on files the request that the file server
      answers (C5); [Sched.proc_hash_refines]: the hash table of processes a finite map.
    - Allocation: invariants and the exact effect of the operations of the buddy system
      (C3, C4), the slabs (C8), [kmalloc] (C12), the user heap (C33) and the bitmaps of
      ext2 (C37): blocks handed out are disjoint and nothing is lost.
    - Address spaces: the pages left free after start-up (C17); mapping, translation,
      construction and release in [PageTable], among them
      [PageTable.setup_page_table_correct] and [PageTable.free_proc_mm_correct].
    - Processes: fork (C6, C21), end and wait (C25), exec (C10, C13, C22), the servers
      started from modules (C19) with their arguments
      ([SrvArgs.boot_partition_roundtrip]), round robin (C27), [ForkProofs.do_brk_correct].
    - Communication: the layout of messages (C16), the wrappers of the library (C9), the
      requests to the kernel (C11), no lost wake-up (C30).
    - Machine: ownership of interrupts (C2), the start of the other processors (C15), the
      tables of the BIOS (C7) and of the boot loader (C14).
    - Text: formats (C23), strings (C31), [CString.atoi_sprintf_roundtrip]; the line of
      the shell (C28), a turn of the shell (C32), [ShellProofs.do_exec_correct], the
      listing of directories (C26).
    - Storage: the disk driver moves exactly the requested bytes (C34); reading a file,
      inodes, directories and writes of the ext2 server (C35, C36, C38, C39).
    - Behaviour of the code that differs from what it means: parts of C2, C5, C7, C8, C10,
      C13, C14, C15, C21, C25, C26 and C28, and [Ext2Proofs.double_indirect_off_by_one].

    ** Bounds and fuel

    Loops that are not structural take fuel.  It is either computed from the data so that
    it is enough (bytes of memory for string loops, the size of a request for transfers,
    the length of a path, the bytes of a table of the BIOS or the boot loader), or a
    parameter that the theorems ask to be larger than the number of blocks of a directory,
    the depth of a path, the keys of a line, the children waited for or the records of a
    directory.  Theorems that a call returns are proved as such: the result exists.

    ** Not modelled

    The assembly of [boot] (apart from the table of system calls and the return path,
    which [Ipc] uses, and what [Smp] needs of the start of a processor), the order of the
    calls in [core/main.c], the handlers that only print ([core/bugs.c], exceptions,
    [sys_debug]), and the instructions that load a root table or enable interrupts.
    [fs/fat32] and [fs/tools] are not modelled: nothing builds them, and the declarations
    they were written against are no longer in the repository.  Requests to the hardware,
    the memory [malloc] returns and the answers of other processes are parameters. *)

From Stdlib Require Import ZArith Lia Bool.
From stdpp Require Export base numbers list gmap.

Open Scope Z_scope.

(** ** Machine integers

    A [w]-bit unsigned C value is a [Z] reduced modulo [2^w]; a signed one is
    the representative in [-2^(w-1), 2^(w-1)). *)

Definition uwrap (w z : Z) : Z := z mod 2 ^ w.
Definition swrap (w z : Z) : Z := (z + 2 ^ (w - 1)) mod 2 ^ w - 2 ^ (w - 1).

Definition u8 (z : Z) : Z := uwrap 8 z.
Definition u16 (z : Z) : Z := uwrap 16 z.
Definition u32 (z : Z) : Z := uwrap 32 z.
Definition u64 (z : Z) : Z := uwrap 64 z.
Definition i8 (z : Z) : Z := swrap 8 z.
Definition i32 (z : Z) : Z := swrap 32 z.
Definition i64 (z : Z) : Z := swrap 64 z.

(** [NULL] of [include/kernel/types.h]. *)
Definition NULL : Z := 0.

(** [upper_div] and [lower_div] of [include/kernel/types.h]. *)
Definition upper_div (dividend divisor : Z) : Z :=
  dividend / divisor + (if 0 <? dividend mod divisor then 1 else 0).
Definition lower_div (dividend divisor : Z) : Z := dividend / divisor.

(** [include/kernel/page.h]. *)
Definition PAGE_SIZE : Z := 0x1000.
Definition PRE_PAGE_ENTRY : Z := 512.
Definition PAGE_UPPER_ALIGN (address : Z) : Z :=
  u64 (upper_div address PAGE_SIZE * PAGE_SIZE).
Definition PAGE_LOWER_ALIGN (address : Z) : Z :=
  u64 (lower_div address PAGE_SIZE * PAGE_SIZE).

(** [include/boot/boot.h] and [include/kernel/mm.h]: the kernel's linear map. *)
Definition KERNEL_OFFSET : Z := 0xffff800000000000.
Definition to_phy (address : Z) : Z := u64 (address - KERNEL_OFFSET).
Definition to_vir (address : Z) : Z := u64 (address + KERNEL_OFFSET).

(** ** Shared tactics *)

(** Turn boolean comparisons of the context and of the goal into propositions. *)
Ltac zbool :=
  repeat
    match goal with
    | H : andb _ _ = true |- _ => apply andb_true_iff in H; destruct H
    | H : andb _ _ = false |- _ => apply andb_false_iff in H
    | H : orb _ _ = false |- _ => apply orb_false_iff in H; destruct H
    | H : orb _ _ = true |- _ => apply orb_true_iff in H
    | H : negb _ = true |- _ => apply negb_true_iff in H
    | H : negb _ = false |- _ => apply negb_false_iff in H
    | H : (_ =? _) = true |- _ => apply Z.eqb_eq in H
    | H : (_ =? _) = false |- _ => apply Z.eqb_neq in H
    | H : (_ <? _) = true |- _ => apply Z.ltb_lt in H
    | H : (_ <? _) = false |- _ => apply Z.ltb_ge in H
    | H : (_ <=? _) = true |- _ => apply Z.leb_le in H
    | H : (_ <=? _) = false |- _ => apply Z.leb_gt in H
    | H : (_ >=? _) = true |- _ => rewrite Z.geb_leb in H
    | H : (_ >=? _) = false |- _ => rewrite Z.geb_leb in H
    | H : (_ >? _) = true |- _ => rewrite Z.gtb_ltb in H
    | H : (_ >? _) = false |- _ => rewrite Z.gtb_ltb in H
    end.

(** Case analysis on the first [if] of the goal, with [zbool] on the result. *)
Ltac case_if :=
  match goal with
  | |- context [if ?b then _ else _] =>
      let E := fresh "E" in destruct b eqn:E; zbool
  end.

(** Case analysis on a [match] in a hypothesis. *)
Ltac case_in H :=
  match type of H with
  | context [match ?x with _ => _ end] =>
      let E := fresh "E" in destruct x eqn:E; zbool
  end.

(** Run a bind of the option monad whose first computation has succeeded. *)
Ltac some_bind :=
  repeat
    match goal with
    | |- context [@mbind option ?i ?A ?B ?f (Some ?x)] =>
        change (@mbind option i A B f (Some x)) with (f x); cbv beta
    end.

(** The same, also reducing the patterns that bind the results. *)
Ltac run_bind := repeat (progress (some_bind; cbv beta iota)).

Create HintDb feng discriminated.

(** ** Arithmetic shared by the components *)

Lemma uwrap_range (w z : Z) : 0 <= w -> 0 <= uwrap w z < 2 ^ w.
Proof. intros. apply Z.mod_pos_bound. apply Z.pow_pos_nonneg; lia. Qed.

Lemma uwrap_small (w z : Z) : 0 <= z < 2 ^ w -> uwrap w z = z.
Proof. intros. by apply Z.mod_small. Qed.

Lemma uwrap_idem (w z : Z) : 0 <= w -> uwrap w (uwrap w z) = uwrap w z.
Proof. intros. apply uwrap_small, uwrap_range; lia. Qed.

Lemma swrap_small (w z : Z) :
  0 < w -> - 2 ^ (w - 1) <= z < 2 ^ (w - 1) -> swrap w z = z.
Proof.
  intros Hw Hz. unfold swrap. replace (2 ^ w) with (2 * 2 ^ (w - 1)).
  - rewrite Z.mod_small; lia.
  - rewrite <- Z.pow_succ_r by lia. f_equal; lia.
Qed.

Lemma u64_small (z : Z) : 0 <= z < 2 ^ 64 -> u64 z = z.
Proof. apply uwrap_small. Qed.

Lemma u32_small (z : Z) : 0 <= z < 2 ^ 32 -> u32 z = z.
Proof. apply uwrap_small. Qed.

Lemma u16_small (z : Z) : 0 <= z < 2 ^ 16 -> u16 z = z.
Proof. apply uwrap_small. Qed.

Lemma u8_small (z : Z) : 0 <= z < 2 ^ 8 -> u8 z = z.
Proof. apply uwrap_small. Qed.

Lemma i32_small (z : Z) : - 2 ^ 31 <= z < 2 ^ 31 -> i32 z = z.
Proof. intros. apply swrap_small; lia. Qed.

Lemma i64_small (z : Z) : - 2 ^ 63 <= z < 2 ^ 63 -> i64 z = z.
Proof. intros. apply swrap_small; lia. Qed.

Lemma to_vir_low (p : Z) : 0 <= p < 2 ^ 47 -> to_vir p = p + KERNEL_OFFSET.
Proof. intros. unfold to_vir. apply u64_small. unfold KERNEL_OFFSET. lia. Qed.

Lemma to_phy_high (v : Z) :
  KERNEL_OFFSET <= v < 2 ^ 64 -> to_phy v = v - KERNEL_OFFSET.
Proof. intros. unfold to_phy. apply u64_small. unfold KERNEL_OFFSET in *. lia. Qed.

Lemma to_phy_to_vir (p : Z) : 0 <= p < 2 ^ 47 -> to_phy (to_vir p) = p.
Proof.
  intros. rewrite to_vir_low by lia.
  rewrite to_phy_high; unfold KERNEL_OFFSET in *; lia.
Qed.

Lemma to_vir_to_phy (v : Z) : 0 <= v < 2 ^ 64 -> to_vir (to_phy v) = v.
Proof.
  intros. unfold to_vir, to_phy, u64, uwrap.
  rewrite Zplus_mod_idemp_l. replace (v - KERNEL_OFFSET + KERNEL_OFFSET) with v by lia.
  by apply Z.mod_small.
Qed.

Lemma upper_div_spec (a d : Z) :
  0 < d -> 0 <= a -> a <= upper_div a d * d < a + d.
Proof.
  intros. unfold upper_div.
  pose proof (Z.mod_pos_bound a d ltac:(lia)).
  pose proof (Z_div_mod_eq_full a d). case_if; nia.
Qed.

Lemma pow2_pos (n : Z) : 0 <= n -> 0 < 2 ^ n.
Proof. intros. apply Z.pow_pos_nonneg; lia. Qed.

Lemma pow2_S (n : Z) : 0 <= n -> 2 ^ (n + 1) = 2 * 2 ^ n.
Proof. intros. rewrite Z.pow_add_r by lia. lia. Qed.

Lemma land_mask_zero (x i : Z) :
  0 <= i -> Z.land x (Z.shiftl 1 i - 1) = x mod 2 ^ i.
Proof.
  intros. rewrite Z.shiftl_mul_pow2, Z.mul_1_l by lia.
  replace (2 ^ i - 1) with (Z.ones i) by (rewrite Z.ones_equiv; lia).
  by apply Z.land_ones.
Qed.

Lemma mod_pow2_weaken (x i j : Z) :
  0 <= i <= j -> x mod 2 ^ j = 0 -> x mod 2 ^ i = 0.
Proof.
  intros Hij Hx.
  apply Z.mod_divide in Hx; [|pose proof (pow2_pos j); lia].
  apply Z.mod_divide; [pose proof (pow2_pos i); lia|].
  etransitivity; [|exact Hx].
  exists (2 ^ (j - i)). rewrite <- Z.pow_add_r by lia. f_equal; lia.
Qed.

Lemma mod_pow2_mod u i j : 0 <= i <= j -> (u mod 2 ^ j) mod 2 ^ i = u mod 2 ^ i.
Proof.
  intros Hij. apply Z.mod_mod_divide. exists (2 ^ (j - i)). rewrite <- Z.pow_add_r by lia. f_equal. lia.
Qed.

(** [|] of numbers with no common bit is [+]. *)
Lemma land_low_high (p a k : Z) : 0 <= k -> p mod 2 ^ k = 0 -> 0 <= a < 2 ^ k -> Z.land p a = 0.
Proof.
  intros Hk Hp Ha. apply Z.bits_inj'. intros i Hi. rewrite Z.land_spec, Z.bits_0.
  destruct (Z_lt_le_dec i k) as [Hlt|Hge].
  - rewrite <- (Z.mod_pow2_bits_low p k i), Hp, Z.bits_0 by lia. done.
  - rewrite <- (Z.mod_small a (2 ^ k)) by lia. rewrite Z.mod_pow2_bits_high by lia. apply andb_false_r.
Qed.

Lemma lor_add (p a k : Z) : 0 <= k -> p mod 2 ^ k = 0 -> 0 <= a < 2 ^ k -> Z.lor p a = p + a.
Proof.
  intros. pose proof (land_low_high p a k) as E. rewrite <- Z.lxor_lor, <- Z.add_nocarry_lxor; auto.
Qed.

(** [&] with a mask of the bits [k] to [w] drops the low bits. *)
Lemma land_high_mask (e k w : Z) :
  0 <= k <= w -> 0 <= e < 2 ^ w -> Z.land e (2 ^ w - 2 ^ k) = e - e mod 2 ^ k.
Proof.
  intros Hk He. replace (2 ^ w - 2 ^ k) with (Z.shiftl (Z.ones (w - k)) k).
  2: { rewrite Z.shiftl_mul_pow2, Z.ones_equiv by lia. rewrite Z.mul_pred_l, <- Z.pow_add_r by lia.
       do 2 f_equal. lia. }
  replace (e - e mod 2 ^ k) with (Z.shiftl (Z.shiftr e k) k).
  2: { rewrite Z.shiftl_mul_pow2, Z.shiftr_div_pow2 by lia.
       pose proof (Z.div_mod e (2 ^ k) ltac:(pose proof (pow2_pos k); lia)). lia. }
  apply Z.bits_inj'. intros i Hi. rewrite Z.land_spec.
  destruct (Z_lt_le_dec i k) as [Hlt|Hge].
  - rewrite !Z.shiftl_spec_low by lia. apply andb_false_r.
  - rewrite !Z.shiftl_spec by lia. rewrite Z.shiftr_spec by lia. replace (i - k + k) with i by lia.
    destruct (Z_lt_le_dec i w) as [Hw|Hw].
    + rewrite Z.ones_spec_low by lia. apply andb_true_r.
    + rewrite <- (Z.mod_small e (2 ^ w)) by lia. by rewrite Z.mod_pow2_bits_high by lia.
Qed.

#[export] Hint Resolve uwrap_range pow2_pos : feng.

Lemma shiftl_1 o : 0 <= o -> Z.shiftl 1 o = 2 ^ o.
Proof. intros. rewrite Z.shiftl_mul_pow2; lia. Qed.

Lemma land_bit c k : 0 <= k -> negb (Z.land c (Z.shiftl 1 k) =? 0) = Z.testbit c k.
Proof.
  intros Hk. rewrite shiftl_1 by lia.
  assert (Hl : Z.land c (2 ^ k) = if Z.testbit c k then 2 ^ k else 0).
  { apply Z.bits_inj'. intros i Hi. rewrite Z.land_spec.
    destruct (decide (i = k)) as [->|Hne].
    - rewrite Z.pow2_bits_true by lia. rewrite andb_true_r.
      destruct (Z.testbit c k); [by rewrite Z.pow2_bits_true by lia|by rewrite Z.bits_0].
    - rewrite Z.pow2_bits_false by lia. rewrite andb_false_r.
      destruct (Z.testbit c k); [by rewrite Z.pow2_bits_false by lia|by rewrite Z.bits_0]. }
  rewrite Hl. pose proof (pow2_pos k Hk). destruct (Z.testbit c k); [apply negb_true_iff, Z.eqb_neq; lia|done].
Qed.

Lemma lor_bound a b n : 0 <= n -> 0 <= a < 2 ^ n -> 0 <= b < 2 ^ n -> 0 <= Z.lor a b < 2 ^ n.
Proof.
  intros Hn Ha Hb. rewrite <- (Z.mod_small a (2 ^ n)), <- (Z.mod_small b (2 ^ n)) by done. rewrite <- !Z.land_ones by done.
  rewrite <- Z.land_lor_distr_l, Z.land_ones by done. apply Z.mod_pos_bound. by apply pow2_pos.
Qed.

(** ** A monad of programs with a state

    [None] is a program that does not end or whose behaviour the language leaves
    undefined. *)

Definition SO (S A : Type) : Type := S -> option (A * S).
#[global] Instance SO_ret S : MRet (SO S) := fun A a s => Some (a, s).
#[global] Instance SO_bind S : MBind (SO S) := fun A B k m s => match m s with Some (a, s) => k a s | None => None end.

Definition lift {S A} (o : option A) : SO S A := fun s => match o with Some a => Some (a, s) | None => None end.
Definition gets {S A} (f : S -> A) : SO S A := fun s => Some (f s, s).
Definition modify {S} (f : S -> S) : SO S unit := fun s => Some (tt, f s).

(** [a / b] and [a % b], which trap on zero. *)
Definition cdiv {S} (a b : Z) : SO S Z := if b =? 0 then lift None else mret (Z.quot a b).
Definition cmod {S} (a b : Z) : SO S Z := if b =? 0 then lift None else mret (Z.rem a b).

Lemma bind_Some {S A B} (m : SO S A) (k : A -> SO S B) s a s' : m s = Some (a, s') -> (m ≫= k) s = k a s'.
Proof. intros E. unfold mbind, SO_bind. by rewrite E. Qed.

Lemma bind_inv {S A B} (m : SO S A) (k : A -> SO S B) s b s' : (m ≫= k) s = Some (b, s') -> exists a s1, m s = Some (a, s1) /\ k a s1 = Some (b, s').
Proof. unfold mbind, SO_bind. destruct (m s) as [[a s1]|]; [|done]. intros E. by exists a, s1. Qed.

Lemma bind_total {S A B} (m : SO S A) (k : A -> SO S B) s : is_Some (m s) -> (forall a s', m s = Some (a, s') -> is_Some (k a s')) -> is_Some ((m ≫= k) s).
Proof. intros [[a s'] E] Hk. rewrite (bind_Some _ _ _ _ _ E). by apply Hk. Qed.

Lemma mret_eq {S A} (a : A) (s : S) : (mret a : SO S A) s = Some (a, s).
Proof. done. Qed.

Lemma lift_Some {S A} (o : option A) a (s : S) : o = Some a -> lift o s = Some (a, s).
Proof. by intros ->. Qed.

Lemma cdiv_ok {S} a b (s : S) : 0 <= a -> 0 < b -> cdiv a b s = Some (a / b, s).
Proof. intros. unfold cdiv. rewrite (proj2 (Z.eqb_neq b 0)) by lia. by rewrite Z.quot_div_nonneg by lia. Qed.

Lemma cmod_ok {S} a b (s : S) : 0 <= a -> 0 < b -> cmod a b s = Some (a mod b, s).
Proof. intros. unfold cmod. rewrite (proj2 (Z.eqb_neq b 0)) by lia. by rewrite Z.rem_mod_nonneg by lia. Qed.

(** One division of a computation, and one step with a known result. *)
Ltac mdiv := erewrite bind_Some by (first [apply cdiv_ok | apply cmod_ok]; lia); cbv beta.
Ltac mnext E := rewrite (bind_Some _ _ _ _ _ E); cbv beta iota.
