(* ===== verification/Bytes.v ===== *)
(** * Bytes: fields of structures and little-endian numbers

    A structure in memory or on a disk is its list of bytes; a field of it is the number
    that a range of bytes holds, the least significant byte first. *)

From S2P Require Import Prelude.

(** [n] bytes from [off] on. *)
Definition slice (off n : Z) (l : list Z) : list Z := take (Z.to_nat n) (drop (Z.to_nat off) l).

(** A little-endian field of [n] bytes at [off]. *)
Definition le_val (l : list Z) : Z := foldr (fun b a => b + 256 * a) 0 l.
Definition le (n off : Z) (l : list Z) : Z := le_val (slice off n l).

(** The [n] bytes of a number, the least significant first. *)
Fixpoint enc (n : nat) (v : Z) : list Z :=
  match n with
  | O => []
  | S n => v mod 256 :: enc n (v / 256)
  end.

Lemma slice_length off n l : 0 <= off -> 0 <= n -> off + n <= Z.of_nat (length l) -> length (slice off n l) = Z.to_nat n.
Proof. intros. unfold slice. rewrite length_take, length_drop. lia. Qed.

Lemma slice_lookup off n (l : list Z) i : 0 <= off -> (i < Z.to_nat n)%nat -> slice off n l !! i = l !! (Z.to_nat off + i)%nat.
Proof. intros. unfold slice. rewrite lookup_take_lt by done. apply lookup_drop. Qed.

Lemma slice_slice p k off n (l : list Z) : 0 <= p -> 0 <= off -> 0 <= n -> off + n <= k -> slice off n (slice p k l) = slice (p + off) n l.
Proof.
  intros Hp Ho Hn Hk. apply list_eq. intros i. destruct (decide (i < Z.to_nat n)%nat) as [Hi|Hi].
  - rewrite !slice_lookup by lia. f_equal. lia.
  - unfold slice at 1 3. by rewrite !lookup_take_ge by lia.
Qed.

Lemma le_slice p k off n (l : list Z) : 0 <= p -> 0 <= off -> 0 <= n -> off + n <= k -> le n off (slice p k l) = le n (p + off) l.
Proof. intros. unfold le. by rewrite slice_slice. Qed.

Lemma enc_length n v : length (enc n v) = n.
Proof. revert v. induction n as [|n IH]; intros v; cbn [enc length]; [done|]. by rewrite IH. Qed.

Lemma enc_bytes n v : Forall (fun b => 0 <= b < 256) (enc n v).
Proof. revert v. induction n as [|n IH]; intros v; cbn [enc]; constructor; [apply Z.mod_pos_bound; lia|apply IH]. Qed.

Lemma le_val_enc n v : le_val (enc n v) = v mod 256 ^ Z.of_nat n.
Proof.
  revert v. induction n as [|n IH]; intros v; cbn [enc le_val foldr].
  - by rewrite Z.mod_1_r.
  - change (foldr _ 0 (enc n (v / 256))) with (le_val (enc n (v / 256))). rewrite IH, Nat2Z.inj_succ, Z.pow_succ_r by lia.
    rewrite Z.rem_mul_r by (try apply Z.pow_pos_nonneg; lia). done.
Qed.

Lemma le_val_bounds l : Forall (fun b => 0 <= b < 256) l -> 0 <= le_val l < 256 ^ Z.of_nat (length l).
Proof.
  induction 1 as [|b l Hb Hl IH]; cbn [le_val foldr length]; [lia|]. change (foldr _ 0 l) with (le_val l).
  rewrite Nat2Z.inj_succ, Z.pow_succ_r by lia. lia.
Qed.

Lemma le_bounds n off l : Forall (fun b => 0 <= b < 256) l -> 0 <= n -> 0 <= le n off l < 256 ^ n.
Proof.
  intros Hl Hn. unfold le, slice. set (k := take _ _). pose proof (le_val_bounds k ltac:(by apply Forall_take, Forall_drop)) as [H1 H2]. split; [done|].
  eapply Z.lt_le_trans; [exact H2|]. apply Z.pow_le_mono_r; [lia|]. unfold k. rewrite length_take. lia.
Qed.

Lemma enc_le_val l : Forall (fun b => 0 <= b < 256) l -> enc (length l) (le_val l) = l.
Proof.
  induction 1 as [|b l Hb Hl IH]; cbn [le_val foldr length enc]; [done|]. change (foldr _ 0 l) with (le_val l).
  rewrite (Z.mul_comm 256), Z.mod_add, Z.mod_small, Z.div_add, Z.div_small, Z.add_0_l by lia. by rewrite IH.
Qed.

(** A field of [n] bytes that follows [k] bytes. *)
Lemma le_app_r n off k (l1 l2 : list Z) : length l1 = k -> Z.of_nat k <= off -> le n off (l1 ++ l2) = le n (off - Z.of_nat k) l2.
Proof. intros Hk Ho. unfold le, slice. rewrite drop_app_ge by lia. do 2 f_equal. f_equal. lia. Qed.

Lemma le_enc n (v : Z) l : 0 <= v < 256 ^ n -> 0 <= n -> le n 0 (enc (Z.to_nat n) v ++ l) = v.
Proof.
  intros Hv Hn. unfold le, slice. rewrite drop_0. rewrite <- (enc_length (Z.to_nat n) v) at 1. rewrite take_app_length, le_val_enc.
  rewrite Z2Nat.id by lia. by apply Z.mod_small.
Qed.

(** ** Stores *)

(** Bytes stored at an offset. *)
Definition splice (off : Z) (b buf : list Z) : list Z := take (Z.to_nat off) buf ++ b ++ drop (Z.to_nat off + length b) buf.

Lemma splice_lookup off b (buf : list Z) k : 0 <= off -> off + Z.of_nat (length b) <= Z.of_nat (length buf) ->
  splice off b buf !! k = if (off <=? Z.of_nat k) && (Z.of_nat k <? off + Z.of_nat (length b)) then b !! Z.to_nat (Z.of_nat k - off) else buf !! k.
Proof.
  intros Ho Hle. unfold splice. destruct (Z.leb_spec off (Z.of_nat k)), (Z.ltb_spec (Z.of_nat k) (off + Z.of_nat (length b))); cbn [andb].
  - rewrite lookup_app_r by (rewrite length_take; lia). rewrite length_take, lookup_app_l by lia. f_equal. lia.
  - rewrite lookup_app_r by (rewrite length_take; lia). rewrite length_take, lookup_app_r by lia. rewrite lookup_drop. f_equal. lia.
  - rewrite lookup_app_l by (rewrite length_take; lia). by rewrite lookup_take_lt by lia.
  - lia.
Qed.

Lemma splice_length off b (buf : list Z) : 0 <= off -> off + Z.of_nat (length b) <= Z.of_nat (length buf) -> length (splice off b buf) = length buf.
Proof. intros. unfold splice. rewrite !length_app, length_take, length_drop. lia. Qed.

Lemma splice_bytes off b (buf : list Z) : Forall (fun v => 0 <= v < 256) b -> Forall (fun v => 0 <= v < 256) buf -> Forall (fun v => 0 <= v < 256) (splice off b buf).
Proof. intros. unfold splice. apply Forall_app_2; [by apply Forall_take|]. apply Forall_app_2; [done|by apply Forall_drop]. Qed.

(** A number stored at [off] is read back, and a store outside a field leaves it alone. *)
Lemma le_splice n off v (l : list Z) : 0 <= off -> 0 <= n -> off + n <= Z.of_nat (length l) -> le n off (splice off (enc (Z.to_nat n) v) l) = v mod 256 ^ n.
Proof.
  intros Ho Hn Hl. assert (E : 256 ^ n = 256 ^ Z.of_nat (Z.to_nat n)) by (f_equal; lia). rewrite E, <- le_val_enc. unfold le. f_equal.
  apply list_eq. intros i. destruct (decide (i < Z.to_nat n)%nat) as [Hi|Hi].
  - rewrite slice_lookup by lia. rewrite splice_lookup by (rewrite ?enc_length; lia). rewrite enc_length.
    destruct ((off <=? Z.of_nat (Z.to_nat off + i)) && (Z.of_nat (Z.to_nat off + i) <? off + Z.of_nat (Z.to_nat n))) eqn:Eb; [f_equal; lia|zbool; destruct_or?; zbool; lia].
  - rewrite !lookup_ge_None_2; [done|rewrite enc_length; lia|]. rewrite slice_length; rewrite ?splice_length; rewrite ?enc_length; lia.
Qed.

Lemma slice_splice_other n off o b (l : list Z) : 0 <= off -> 0 <= n -> 0 <= o -> o + Z.of_nat (length b) <= Z.of_nat (length l) -> off + n <= o \/ o + Z.of_nat (length b) <= off ->
  slice off n (splice o b l) = slice off n l.
Proof.
  intros Ho Hn Hb Hl Hd. apply list_eq. intros i. destruct (decide (i < Z.to_nat n)%nat) as [Hi|Hi].
  - rewrite !slice_lookup, splice_lookup by lia. destruct ((o <=? Z.of_nat (Z.to_nat off + i)) && (Z.of_nat (Z.to_nat off + i) <? o + Z.of_nat (length b))) eqn:E; [zbool; lia|done].
  - unfold slice. by rewrite !lookup_take_ge by lia.
Qed.

Lemma le_splice_other n off o b (l : list Z) : 0 <= off -> 0 <= n -> 0 <= o -> o + Z.of_nat (length b) <= Z.of_nat (length l) -> off + n <= o \/ o + Z.of_nat (length b) <= off ->
  le n off (splice o b l) = le n off l.
Proof. intros. unfold le. by rewrite slice_splice_other. Qed.
