(* ===== verification/ListHead.v ===== *)
(** * Intrusive doubly linked lists ([include/kernel/list.h])

    The heap maps the address of each [struct list_head] to its two links.
    Every operation is a sequence of link writes, in the order of the C code;
    [None] is an access to an address that holds no [list_head].  The header of
    user space, [include/libc/sys/list.h], is the same text.

    [is_list] relates a circular list to the Rocq list of its nodes, and
    [step_refines] shows that on a whole family of disjoint lists the pointer
    operations implement the operations on Rocq lists.  The other components
    keep their lists as Rocq lists on the strength of that theorem. *)

From S2P Require Import Prelude.

Record list_head := mk_lh { prev : Z; next : Z }.

Definition heap := gmap Z list_head.

(** ** Operations *)

(** [p->next = v] and [p->prev = v]. *)
Definition set_next (h : gmap Z list_head) (p v : Z) : option (gmap Z list_head) :=
  n ← h !! p; Some (<[p := mk_lh (prev n) v]> h).
Definition set_prev (h : gmap Z list_head) (p v : Z) : option (gmap Z list_head) :=
  n ← h !! p; Some (<[p := mk_lh v (next n)]> h).

(** [head->prev = head->next = head]; the node may be uninitialised memory. *)
Definition list_head_init (h : gmap Z list_head) (head : Z) : gmap Z list_head :=
  <[head := mk_lh head head]> h.

Definition list_is_null (h : gmap Z list_head) (head : Z) : option bool :=
  n ← h !! head; Some ((next n =? head) || (prev n =? head)).

Definition __list_add (h : gmap Z list_head) (new prv nxt : Z) : option (gmap Z list_head) :=
  h ← set_next h new nxt;
  h ← set_prev h new prv;
  h ← set_next h prv new;
  set_prev h nxt new.

Definition list_add (h : gmap Z list_head) (new head : Z) : option (gmap Z list_head) :=
  n ← h !! head; __list_add h new head (next n).

Definition list_add_tail (h : gmap Z list_head) (new head : Z) : option (gmap Z list_head) :=
  n ← h !! head; __list_add h new (prev n) head.

Definition __list_del (h : gmap Z list_head) (prv nxt : Z) : option (gmap Z list_head) :=
  h ← set_next h prv nxt;
  set_prev h nxt prv.

Definition __list_del_entry_valid (n : list_head) : bool :=
  negb (prev n =? NULL) && negb (next n =? NULL).

Definition __list__del_entry (h : gmap Z list_head) (entry : Z) : option (gmap Z list_head) :=
  n ← h !! entry;
  if negb (__list_del_entry_valid n) then Some h
  else __list_del h (prev n) (next n).

Definition list_del (h : gmap Z list_head) (entry : Z) : option (gmap Z list_head) :=
  h ← __list__del_entry h entry;
  h ← set_next h entry NULL;
  set_prev h entry NULL.

(** [list_for_each]: the nodes the cursor visits from [pos], [None] when the
    fuel runs out before the head is met again. *)
Fixpoint list_for_each_from (fuel : nat) (h : gmap Z list_head) (head pos : Z) : option (list Z) :=
  match fuel with
  | O => None
  | S fuel =>
      if pos =? head then Some []
      else n ← h !! pos;
           l ← list_for_each_from fuel h head (next n);
           Some (pos :: l)
  end.

Definition list_for_each (fuel : nat) (h : gmap Z list_head) (head : Z) : option (list Z) :=
  n ← h !! head; list_for_each_from fuel h head (next n).

(** [list_for_each_prev]: the same, following the [prev] links. *)
Fixpoint list_for_each_prev_from (fuel : nat) (h : gmap Z list_head) (head pos : Z) : option (list Z) :=
  match fuel with
  | O => None
  | S fuel =>
      if pos =? head then Some []
      else n ← h !! pos;
           l ← list_for_each_prev_from fuel h head (prev n);
           Some (pos :: l)
  end.

Definition list_for_each_prev (fuel : nat) (h : gmap Z list_head) (head : Z) : option (list Z) :=
  n ← h !! head; list_for_each_prev_from fuel h head (prev n).

(** [list_for_each_safe] with a body that unlinks the node under the cursor:
    the next cursor [n] is read before the body runs. *)
Fixpoint list_drain_from (fuel : nat) (h : gmap Z list_head) (head pos n : Z) : option (gmap Z list_head * list Z) :=
  match fuel with
  | O => None
  | S fuel =>
      if pos =? head then Some (h, [])
      else h ← list_del h pos;
           nn ← h !! n;
           r ← list_drain_from fuel h head n (next nn);
           Some (r.1, pos :: r.2)
  end.

Definition list_drain (fuel : nat) (h : gmap Z list_head) (head : Z) : option (gmap Z list_head * list Z) :=
  n ← h !! head;
  nn ← h !! (next n);
  list_drain_from fuel h head (next n) (next nn).

(** ** Representation *)

Definition nx (h : gmap Z list_head) (a : Z) : option Z := next <$> h !! a.
Definition pv (h : gmap Z list_head) (a : Z) : option Z := prev <$> h !! a.

Definition linked (h : gmap Z list_head) (a b : Z) : Prop :=
  nx h a = Some b /\ pv h b = Some a.

(** Adjacent nodes of a path are linked both ways. *)
Fixpoint path (h : gmap Z list_head) (l : list Z) : Prop :=
  match l with
  | a :: ((b :: _) as t) => linked h a b /\ path h t
  | _ => True
  end.

Definition is_list (h : gmap Z list_head) (head : Z) (xs : list Z) : Prop :=
  NoDup (head :: xs) /\ (NULL ∉ head :: xs) /\ path h (head :: xs ++ [head]).

(** A family of lists, by head, and the nodes that are in none of them. *)
Record family := mk_family { lists : gmap Z (list Z); unlinked : gset Z }.

Definition rep (h : gmap Z list_head) (f : family) : Prop :=
  (forall hd xs, lists f !! hd = Some xs -> is_list h hd xs) /\
  (forall hd1 xs1 hd2 xs2 x,
     lists f !! hd1 = Some xs1 -> lists f !! hd2 = Some xs2 ->
     x ∈ hd1 :: xs1 -> x ∈ hd2 :: xs2 -> hd1 = hd2) /\
  (forall x, x ∈ unlinked f ->
     is_Some (h !! x) /\ x <> NULL /\
     forall hd xs, lists f !! hd = Some xs -> x ∉ hd :: xs).

(** The calls of the API, their pointer semantics and their meaning on the family. *)
Inductive cmd :=
| Init (head : Z)
| Add (new head : Z)
| AddTail (new head : Z)
| Del (entry : Z).

Definition run_cmd (c : cmd) (h : gmap Z list_head) : option (gmap Z list_head) :=
  match c with
  | Init head => Some (list_head_init h head)
  | Add new head => list_add h new head
  | AddTail new head => list_add_tail h new head
  | Del entry => list_del h entry
  end.

Inductive family_step : cmd -> family -> family -> Prop :=
| fs_init head f :
    head ∈ unlinked f ->
    family_step (Init head) f
      (mk_family (<[head := []]> (lists f)) (unlinked f ∖ {[head]}))
| fs_add new head xs f :
    new ∈ unlinked f -> lists f !! head = Some xs ->
    family_step (Add new head) f
      (mk_family (<[head := new :: xs]> (lists f)) (unlinked f ∖ {[new]}))
| fs_add_tail new head xs f :
    new ∈ unlinked f -> lists f !! head = Some xs ->
    family_step (AddTail new head) f
      (mk_family (<[head := xs ++ [new]]> (lists f)) (unlinked f ∖ {[new]}))
| fs_del entry head xs ys f :
    lists f !! head = Some (xs ++ entry :: ys) ->
    family_step (Del entry) f
      (mk_family (<[head := xs ++ ys]> (lists f)) (unlinked f ∪ {[entry]})).

(** ** Link writes *)

Lemma set_next_spec h p v :
  is_Some (h !! p) ->
  exists h', set_next h p v = Some h' /\
    (forall a, nx h' a = if decide (a = p) then Some v else nx h a) /\
    (forall a, pv h' a = pv h a) /\ (forall a, is_Some (h' !! a) <-> is_Some (h !! a)).
Proof.
  intros [n Hn]. unfold set_next. rewrite Hn. simpl. eexists. split; [done|].
  unfold nx, pv. split_and!; intros a; rewrite lookup_insert;
    repeat case_decide; subst; try done; rewrite ?Hn; naive_solver.
Qed.

Lemma set_prev_spec h p v :
  is_Some (h !! p) ->
  exists h', set_prev h p v = Some h' /\
    (forall a, pv h' a = if decide (a = p) then Some v else pv h a) /\
    (forall a, nx h' a = nx h a) /\ (forall a, is_Some (h' !! a) <-> is_Some (h !! a)).
Proof.
  intros [n Hn]. unfold set_prev. rewrite Hn. simpl. eexists. split; [done|].
  unfold nx, pv. split_and!; intros a; rewrite lookup_insert;
    repeat case_decide; subst; try done; rewrite ?Hn; naive_solver.
Qed.

Lemma list_add_between h new p n :
  new <> p -> new <> n ->
  is_Some (h !! new) -> is_Some (h !! p) -> is_Some (h !! n) ->
  exists h', __list_add h new p n = Some h' /\
    (forall a, nx h' a = if decide (a = p) then Some new else
                         if decide (a = new) then Some n else nx h a) /\
    (forall a, pv h' a = if decide (a = n) then Some new else
                         if decide (a = new) then Some p else pv h a) /\
    (forall a, is_Some (h' !! a) <-> is_Some (h !! a)).
Proof.
  intros Hp Hn H1 H2 H3. unfold __list_add.
  destruct (set_next_spec h new n H1) as (h1 & -> & Hn1 & Hp1 & Hd1). simpl.
  destruct (set_prev_spec h1 new p) as (h2 & -> & Hp2 & Hn2 & Hd2); [by apply Hd1|]. simpl.
  destruct (set_next_spec h2 p new) as (h3 & -> & Hn3 & Hp3 & Hd3); [by apply Hd2, Hd1|]. simpl.
  destruct (set_prev_spec h3 n new) as (h4 & -> & Hp4 & Hn4 & Hd4); [by apply Hd3, Hd2, Hd1|].
  eexists. split; [done|]. split_and!; intros a.
  - by rewrite Hn4, Hn3, Hn2, Hn1.
  - by rewrite Hp4, Hp3, Hp2, Hp1.
  - by rewrite Hd4, Hd3, Hd2, Hd1.
Qed.

Lemma list_del_spec h x p n :
  linked h p x -> linked h x n -> p <> x -> n <> x -> p <> NULL -> n <> NULL ->
  exists h', list_del h x = Some h' /\
    (forall a, nx h' a = if decide (a = x) then Some NULL else
                         if decide (a = p) then Some n else nx h a) /\
    (forall a, pv h' a = if decide (a = x) then Some NULL else
                         if decide (a = n) then Some p else pv h a) /\
    (forall a, is_Some (h' !! a) <-> is_Some (h !! a)).
Proof.
  intros [Hpx Hxp] [Hxn Hnx] Hnp Hnn Hp0 Hn0.
  unfold nx, pv in Hpx, Hxp, Hxn, Hnx.
  destruct (h !! x) as [cx|] eqn:Ex; simplify_eq/=.
  assert (Sp : is_Some (h !! prev cx)) by (destruct (h !! prev cx); done).
  assert (Sn : is_Some (h !! next cx)) by (destruct (h !! next cx); done).
  unfold list_del, __list__del_entry. rewrite Ex. simpl.
  unfold __list_del_entry_valid.
  rewrite (proj2 (Z.eqb_neq _ _) Hp0), (proj2 (Z.eqb_neq _ _) Hn0). simpl.
  unfold __list_del.
  destruct (set_next_spec h (prev cx) (next cx) Sp) as (h1 & -> & Hn1 & Hp1 & Hd1). simpl.
  destruct (set_prev_spec h1 (next cx) (prev cx)) as (h2 & -> & Hp2 & Hn2 & Hd2);
    [by apply Hd1|]. simpl.
  destruct (set_next_spec h2 x NULL) as (h3 & -> & Hn3 & Hp3 & Hd3);
    [by apply Hd2, Hd1; rewrite Ex|]. simpl.
  destruct (set_prev_spec h3 x NULL) as (h4 & -> & Hp4 & Hn4 & Hd4);
    [by apply Hd3, Hd2, Hd1; rewrite Ex|].
  eexists. split; [done|]. split_and!; intros a.
  - by rewrite Hn4, Hn3, Hn2, Hn1.
  - by rewrite Hp4, Hp3, Hp2, Hp1.
  - by rewrite Hd4, Hd3, Hd2, Hd1.
Qed.

(** ** Paths *)

Lemma path_app h l1 p l2 :
  path h (l1 ++ p :: l2) <-> path h (l1 ++ [p]) /\ path h (p :: l2).
Proof.
  induction l1 as [|a l1 IH]; simpl; [tauto|].
  destruct l1 as [|b l1]; simpl in *; tauto.
Qed.

Lemma path_cons2 h a b l : path h (a :: b :: l) <-> linked h a b /\ path h (b :: l).
Proof. done. Qed.

Lemma path_frame h h' l :
  (forall a, a ∈ removelast l -> nx h' a = nx h a) ->
  (forall b, b ∈ tail l -> pv h' b = pv h b) ->
  path h l -> path h' l.
Proof.
  induction l as [|a l IH]; [done|]. destruct l as [|b l]; [done|].
  intros Hn Hp [[H1 H2] H3]. split.
  - split; [rewrite Hn|rewrite Hp]; [done|simpl; set_solver|done|simpl; set_solver].
  - apply IH; [| |done].
    + intros x Hx. apply Hn. simpl in *. set_solver.
    + intros x Hx. apply Hp. simpl in *. set_solver.
Qed.

Lemma path_linked_some h l :
  (2 <= length l)%nat -> path h l -> forall x, x ∈ l -> is_Some (h !! x).
Proof.
  assert (Hl : forall a b, linked h a b -> is_Some (h !! a) /\ is_Some (h !! b)).
  { intros a b [H1 H2]. unfold nx, pv in *.
    destruct (h !! a), (h !! b); naive_solver. }
  induction l as [|a l IH]; simpl; [lia|]. destruct l as [|b l]; simpl; [lia|].
  intros _ [H1 H2] x Hx. apply Hl in H1 as [??].
  destruct l as [|c l]; [set_solver|].
  apply elem_of_cons in Hx as [->|Hx]; [done|].
  apply IH; [simpl; lia|done|done].
Qed.

Lemma removelast_snoc {A} (l : list A) x : removelast (l ++ [x]) = l.
Proof. rewrite removelast_app; [by rewrite app_nil_r|done]. Qed.

Lemma removelast_sub {A} (l : list A) x : x ∈ removelast l -> x ∈ l.
Proof.
  destruct l as [|y l _] using rev_ind; [done|].
  rewrite removelast_snoc. set_solver.
Qed.

Lemma path_insert h h' l1 p n l2 new :
  path h (l1 ++ p :: n :: l2) ->
  NoDup (removelast (l1 ++ p :: n :: l2)) -> NoDup (tail (l1 ++ p :: n :: l2)) ->
  new ∉ l1 ++ p :: n :: l2 ->
  (forall a, nx h' a = if decide (a = p) then Some new else
                       if decide (a = new) then Some n else nx h a) ->
  (forall a, pv h' a = if decide (a = n) then Some new else
                       if decide (a = new) then Some p else pv h a) ->
  path h' (l1 ++ p :: new :: n :: l2).
Proof.
  intros Hp Hd1 Hd2 Hnew Hn Hv.
  apply path_app in Hp as [Ha Hb]. apply path_cons2 in Hb as [_ Hb].
  rewrite (removelast_app l1) in Hd1 by done. simpl in Hd1.
  apply path_app. rewrite !path_cons2. split; [|split; [|split]].
  - apply path_frame with h; [| |done].
    + rewrite removelast_snoc. intros a Hx. rewrite Hn.
      rewrite !decide_False; [done|set_solver|].
      intros ->. apply NoDup_app in Hd1 as (_&H&_). destruct (H p); set_solver.
    + intros a Hx. rewrite Hv. rewrite !decide_False; [done|destruct l1; set_solver|].
      intros ->. destruct l1 as [|y l1]; simpl in *; [set_solver|].
      replace (l1 ++ p :: n :: l2) with ((l1 ++ [p]) ++ n :: l2) in Hd2 by (by rewrite <- app_assoc).
      apply NoDup_app in Hd2 as (_&H&_). destruct (H n Hx). set_solver.
  - split; [rewrite Hn; by rewrite decide_True|].
    rewrite Hv. rewrite decide_False by set_solver. by rewrite decide_True.
  - split; [|rewrite Hv; by rewrite decide_True].
    rewrite Hn. rewrite decide_False by set_solver. by rewrite decide_True.
  - apply path_frame with h; [| |done].
    + intros a Hx. rewrite Hn. rewrite !decide_False; [done| |].
      * intros ->. apply removelast_sub in Hx. set_solver.
      * intros ->. apply NoDup_app in Hd1 as (_&_&H).
        apply NoDup_cons in H as [H _]. done.
    + intros a Hx. simpl in Hx. rewrite Hv. rewrite !decide_False; [done|set_solver|].
      intros ->. destruct l1 as [|y l1]; simpl in *.
      * by apply NoDup_cons in Hd2 as [? _].
      * apply NoDup_app in Hd2 as (_&_&H). apply NoDup_cons in H as [_ H].
        by apply NoDup_cons in H as [? _].
Qed.

Lemma path_delete h h' l1 p x n l2 :
  path h (l1 ++ p :: x :: n :: l2) ->
  NoDup (removelast (l1 ++ p :: x :: n :: l2)) -> NoDup (tail (l1 ++ p :: x :: n :: l2)) ->
  (forall a, nx h' a = if decide (a = x) then Some NULL else
                       if decide (a = p) then Some n else nx h a) ->
  (forall a, pv h' a = if decide (a = x) then Some NULL else
                       if decide (a = n) then Some p else pv h a) ->
  p <> x -> n <> x -> x ∉ l1 -> x ∉ l2 ->
  path h' (l1 ++ p :: n :: l2).
Proof.
  intros Hp Hd1 Hd2 Hn Hv Hpx Hnx Hx1 Hx2.
  apply path_app in Hp as [Ha Hb]. rewrite !path_cons2 in Hb. destruct Hb as [_ [_ Hb]].
  rewrite (removelast_app l1) in Hd1 by done. simpl in Hd1.
  apply path_app. rewrite path_cons2. split; [|split].
  - apply path_frame with h; [| |done].
    + rewrite removelast_snoc. intros a Hx. rewrite Hn. rewrite !decide_False; [done| |set_solver].
      intros ->. apply NoDup_app in Hd1 as (_&H&_). destruct (H p); set_solver.
    + intros a Hx. rewrite Hv. rewrite !decide_False; [done| |destruct l1; set_solver].
      intros ->. destruct l1 as [|y l1]; simpl in *; [set_solver|].
      replace (l1 ++ p :: x :: n :: l2) with ((l1 ++ [p]) ++ x :: n :: l2) in Hd2
        by (by rewrite <- app_assoc).
      apply NoDup_app in Hd2 as (_&H&_). destruct (H n Hx). set_solver.
  - split; [rewrite Hn|rewrite Hv]; rewrite decide_False by done; by rewrite decide_True.
  - apply path_frame with h; [| |done].
    + intros a Hx. rewrite Hn. rewrite !decide_False; [done| |].
      * intros ->. apply NoDup_app in Hd1 as (_&_&H). apply NoDup_cons in H as [H _].
        apply H. set_solver.
      * intros ->. apply removelast_sub in Hx. set_solver.
    + intros a Hx. simpl in Hx. rewrite Hv. rewrite !decide_False; [done| |set_solver].
      intros ->. destruct l1 as [|y l1]; simpl in *.
      * apply NoDup_cons in Hd2 as [_ H]. by apply NoDup_cons in H as [? _].
      * apply NoDup_app in Hd2 as (_&_&H). apply NoDup_cons in H as [_ H].
        apply NoDup_cons in H as [_ H]. by apply NoDup_cons in H as [? _].
Qed.

(** ** Operations on one list, with their frame *)

(** Nodes outside [l] keep their links, and no node appears or disappears. *)
Definition untouched (h h' : gmap Z list_head) (l : list Z) : Prop :=
  (forall a, a ∉ l -> nx h' a = nx h a /\ pv h' a = pv h a) /\
  (forall a, is_Some (h' !! a) <-> is_Some (h !! a)).

Lemma is_list_frame h h' hd xs l :
  is_list h hd xs -> untouched h h' l -> (forall x, x ∈ hd :: xs -> x ∉ l) ->
  is_list h' hd xs.
Proof.
  intros (H1 & H2 & H3) [Hu _] Hd. split_and!; [done..|].
  apply path_frame with h; [| |done]; intros x Hx; apply Hu, Hd.
  - rewrite app_comm_cons, removelast_snoc in Hx. done.
  - simpl in Hx. set_solver.
Qed.

Lemma is_list_nodup h hd xs :
  is_list h hd xs ->
  NoDup (removelast (hd :: xs ++ [hd])) /\ NoDup (tail (hd :: xs ++ [hd])).
Proof.
  intros (H1 & _). rewrite app_comm_cons, removelast_snoc. simpl. split; [done|].
  apply NoDup_app. apply NoDup_cons in H1 as [H1 H2].
  split_and!; [done|set_solver|apply NoDup_singleton].
Qed.

Lemma is_list_some h hd xs x :
  is_list h hd xs -> x ∈ hd :: xs -> is_Some (h !! x).
Proof.
  intros (_ & _ & H) Hx. eapply path_linked_some; [|exact H|].
  - simpl. rewrite length_app. simpl. lia.
  - set_solver.
Qed.

Lemma is_list_insert h hd l1 p n l2 xs xs' new :
  is_list h hd xs -> hd :: xs ++ [hd] = l1 ++ p :: n :: l2 ->
  hd :: xs' ++ [hd] = l1 ++ p :: new :: n :: l2 ->
  new ∉ hd :: xs -> new <> NULL -> is_Some (h !! new) ->
  exists h', __list_add h new p n = Some h' /\ is_list h' hd xs' /\
    untouched h h' (new :: hd :: xs).
Proof.
  intros Hl Hsplit Hsplit' Hnew Hnz Hs.
  pose proof (is_list_nodup _ _ _ Hl) as [Hd1 Hd2].
  assert (Hin : forall x, x ∈ l1 ++ p :: n :: l2 <-> x ∈ hd :: xs).
  { intros x. rewrite <- Hsplit. set_solver. }
  assert (Hin' : forall x, x ∈ hd :: xs' <-> x ∈ new :: hd :: xs).
  { intros x. transitivity (x ∈ hd :: xs' ++ [hd]); [set_solver|].
    rewrite Hsplit'. rewrite elem_of_cons, <- (Hin x). set_solver. }
  destruct (list_add_between h new p n) as (h' & -> & Hn & Hp & Hd).
  - intros ->. apply Hnew, Hin. set_solver.
  - intros ->. apply Hnew, Hin. set_solver.
  - done.
  - apply (is_list_some _ _ _ _ Hl), Hin. set_solver.
  - apply (is_list_some _ _ _ _ Hl), Hin. set_solver.
  - exists h'. split; [done|]. rewrite Hsplit in Hd1, Hd2. split.
    + destruct Hl as (Hl1 & Hl2 & Hl3). rewrite Hsplit in Hl3. split_and!.
      * assert (Hperm : hd :: xs' ≡ₚ new :: hd :: xs).
        { apply (inj (hd ::.)). transitivity (hd :: xs' ++ [hd]); [solve_Permutation|].
          rewrite Hsplit'. transitivity (new :: hd :: xs ++ [hd]); [|solve_Permutation].
          rewrite Hsplit. solve_Permutation. }
        rewrite Hperm. by apply NoDup_cons.
      * rewrite Hin'. set_solver.
      * rewrite Hsplit'. apply path_insert with h; try done. by rewrite Hin.
    + split; [|done]. intros a Ha. rewrite Hn, Hp.
      rewrite !decide_False; [done|set_solver| |set_solver|];
        intros ->; apply Ha, elem_of_cons; right; apply Hin; set_solver.
Qed.

Lemma is_list_add h hd xs new :
  is_list h hd xs -> new ∉ hd :: xs -> new <> NULL -> is_Some (h !! new) ->
  exists h', list_add h new hd = Some h' /\ is_list h' hd (new :: xs) /\
    untouched h h' (new :: hd :: xs).
Proof.
  intros Hl H1 H2 H3.
  destruct (xs ++ [hd]) as [|n l2] eqn:E; [by destruct xs|].
  assert (Hn : nx h hd = Some n) by (destruct Hl as (_&_&H); rewrite E in H; apply H).
  unfold list_add. unfold nx in Hn. destruct (h !! hd); simplify_eq/=.
  apply is_list_insert with [] l2; [done|by rewrite E|simpl; by rewrite E|done..].
Qed.

Lemma is_list_add_tail h hd xs new :
  is_list h hd xs -> new ∉ hd :: xs -> new <> NULL -> is_Some (h !! new) ->
  exists h', list_add_tail h new hd = Some h' /\ is_list h' hd (xs ++ [new]) /\
    untouched h h' (new :: hd :: xs).
Proof.
  intros Hl H1 H2 H3.
  destruct (exists_last (l := hd :: xs)) as (l1 & p & E); [done|].
  assert (E1 : hd :: xs ++ [hd] = l1 ++ p :: [hd]).
  { change (hd :: xs ++ [hd]) with ((hd :: xs) ++ [hd]). by rewrite E, <- app_assoc. }
  assert (Hn : pv h hd = Some p).
  { destruct Hl as (_&_&H). rewrite E1 in H. apply path_app in H. apply H. }
  unfold list_add_tail. unfold pv in Hn. destruct (h !! hd); simplify_eq/=.
  apply is_list_insert with l1 []; try done.
  change (hd :: (xs ++ [new]) ++ [hd]) with ((hd :: xs ++ [new]) ++ [hd]).
  rewrite app_comm_cons, E. by rewrite <- !app_assoc.
Qed.

Lemma is_list_del h hd xs x ys :
  is_list h hd (xs ++ x :: ys) ->
  exists h', list_del h x = Some h' /\ is_list h' hd (xs ++ ys) /\
    h' !! x = Some (mk_lh NULL NULL) /\ untouched h h' (hd :: xs ++ x :: ys).
Proof.
  intros Hl. pose proof (is_list_nodup _ _ _ Hl) as [Hd1 Hd2].
  pose proof Hl as (Hl1 & Hl2 & Hl3).
  destruct (exists_last (l := hd :: xs)) as (l1 & p & E); [done|].
  destruct (ys ++ [hd]) as [|n l2] eqn:E2; [by destruct ys|].
  assert (E1 : hd :: (xs ++ x :: ys) ++ [hd] = l1 ++ p :: x :: n :: l2).
  { rewrite <- app_assoc. simpl. rewrite app_comm_cons, E, E2. by rewrite <- app_assoc. }
  assert (E3 : hd :: (xs ++ ys) ++ [hd] = l1 ++ p :: n :: l2).
  { rewrite <- app_assoc. rewrite app_comm_cons, E, E2. by rewrite <- app_assoc. }
  assert (Hnd : NoDup ((hd :: xs) ++ x :: ys)) by done.
  rewrite E in Hnd. apply NoDup_app in Hnd as (_ & Hx1 & Hx2).
  apply NoDup_cons in Hx2 as [Hx2 _].
  assert (Hxh : x <> hd) by (intros ->; apply NoDup_cons in Hl1 as [? _]; set_solver).
  assert (Hsub1 : forall a, a ∈ l1 ++ [p] -> a ∈ hd :: xs) by (intros a; by rewrite E).
  assert (Hsub2 : forall a, a ∈ n :: l2 -> a ∈ ys ++ [hd]) by (intros a; by rewrite E2).
  assert (Hpx : p <> x) by (intros ->; apply (Hx1 x); set_solver).
  assert (Hnx : n <> x) by (intros ->; specialize (Hsub2 x); set_solver).
  rewrite E1 in Hd1, Hd2, Hl3.
  pose proof Hl3 as Hl4. apply path_app in Hl4 as [_ Hl4].
  rewrite !path_cons2 in Hl4. destruct Hl4 as (Hk1 & Hk2 & _).
  destruct (list_del_spec h x p n) as (h' & Hrun & Hn & Hp & Hd); try done.
  { intros ->. apply Hl2. specialize (Hsub1 NULL). set_solver. }
  { intros ->. apply Hl2. specialize (Hsub2 NULL). set_solver. }
  exists h'. split_and!; [done| | |].
  - split_and!.
    + apply NoDup_cons in Hl1 as [Ha Hb]. apply NoDup_app in Hb as (Hb1 & Hb2 & Hb3).
      apply NoDup_cons in Hb3 as [_ Hb3]. apply NoDup_cons. split; [set_solver|].
      apply NoDup_app. split_and!; [done|set_solver|done].
    + set_solver.
    + rewrite E3. eapply path_delete; try done.
      * intros Hx. apply (Hx1 x); set_solver.
      * specialize (Hsub2 x). set_solver.
  - specialize (Hn x). specialize (Hp x). rewrite decide_True in Hn, Hp by done.
    unfold nx, pv in Hn, Hp. destruct (h' !! x) as [[a b]|]; by simplify_eq/=.
  - split; [|done]. intros a Ha. rewrite Hn, Hp.
    specialize (Hsub1 p). specialize (Hsub2 n).
    rewrite !decide_False; [done|set_solver..].
Qed.

(** ** Traversals *)

Lemma list_for_each_from_spec h hd xs p fuel :
  path h (p :: xs ++ [hd]) -> hd ∉ xs -> (length xs < fuel)%nat ->
  forall n, nx h p = Some n -> list_for_each_from fuel h hd n = Some xs.
Proof.
  revert p fuel. induction xs as [|x xs IH]; intros p fuel Hp Hhd Hf n Hn;
    (destruct fuel as [|fuel]; [simpl in Hf; lia|]); simpl in Hp, Hf |- *.
  - destruct Hp as [[H _] _]. rewrite H in Hn. simplify_eq. by rewrite Z.eqb_refl.
  - destruct Hp as [[H _] Hp]. rewrite H in Hn. simplify_eq.
    rewrite (proj2 (Z.eqb_neq n hd)) by set_solver.
    assert (Hs : is_Some (nx h n)).
    { destruct (xs ++ [hd]) as [|y l] eqn:E; [by destruct xs|].
      destruct Hp as [[Hy _] _]. by rewrite Hy. }
    destruct Hs as [y Hy]. pose proof Hy as Hy'. unfold nx in Hy'.
    destruct (h !! n); simplify_eq/=.
    rewrite (IH n fuel); [done|done|set_solver|lia|done].
Qed.

Lemma list_for_each_prev_from_spec h hd xs n fuel :
  path h (hd :: xs ++ [n]) -> hd ∉ xs -> (length xs < fuel)%nat ->
  forall p, pv h n = Some p -> list_for_each_prev_from fuel h hd p = Some (rev xs).
Proof.
  revert n fuel. induction xs as [|x xs IH] using rev_ind; intros n fuel Hp Hhd Hf p Hn;
    (destruct fuel as [|fuel]; [rewrite ?length_app in Hf; simpl in Hf; lia|]); simpl.
  - destruct Hp as [[_ H] _]. rewrite H in Hn. simplify_eq. by rewrite Z.eqb_refl.
  - rewrite <- app_assoc in Hp. change (path h ((hd :: xs) ++ x :: [n])) in Hp.
    apply path_app in Hp as [Hp Hx]. destruct Hx as [[_ H] _].
    rewrite H in Hn. simplify_eq.
    rewrite (proj2 (Z.eqb_neq p hd)) by set_solver.
    assert (Hs : is_Some (pv h p)).
    { destruct (exists_last (l := hd :: xs)) as (l1 & y & E); [done|].
      rewrite E, <- app_assoc in Hp. apply path_app in Hp as [_ [[_ Hy] _]].
      by rewrite Hy. }
    destruct Hs as [y Hy]. pose proof Hy as Hy'. unfold pv in Hy'.
    destruct (h !! p); simplify_eq/=.
    rewrite (IH p fuel); [by rewrite rev_app_distr|done|set_solver|rewrite length_app in Hf; simpl in Hf; lia|done].
Qed.

Lemma list_drain_from_spec h hd xs fuel :
  is_list h hd xs -> (length xs < fuel)%nat ->
  forall n nn, nx h hd = Some n -> nx h n = Some nn ->
  exists h', list_drain_from fuel h hd n nn = Some (h', xs) /\ is_list h' hd [] /\
    (forall x, x ∈ xs -> h' !! x = Some (mk_lh NULL NULL)) /\ untouched h h' (hd :: xs).
Proof.
  revert h fuel. induction xs as [|x xs IH]; intros h fuel Hl Hf n nn Hn Hnn;
    (destruct fuel as [|fuel]; [simpl in Hf; lia|]); simpl in Hf |- *.
  - assert (n = hd) as ->.
    { destruct Hl as (_&_&[[H _] _]). congruence. }
    rewrite Z.eqb_refl. exists h. split_and!; [done|done|set_solver|done].
  - assert (n = x) as ->.
    { destruct Hl as (_&_&[[H _] _]). congruence. }
    rewrite (proj2 (Z.eqb_neq x hd)).
    2: { destruct Hl as (H&_). apply NoDup_cons in H as [H _]. set_solver. }
    pose proof Hl as Hl0.
    destruct (is_list_del h hd [] x xs Hl) as (h1 & -> & Hl1 & Hx & Hu). simpl in Hl1 |- *.
    assert (Hnn1 : nx h1 hd = Some nn).
    { destruct Hl0 as (_&_&H0). destruct Hl1 as (_&_&H1).
      simpl in H0. destruct H0 as [_ H0].
      destruct (xs ++ [hd]) as [|y l] eqn:E; [by destruct xs|].
      destruct H0 as [[H0 _] _]. destruct H1 as [[H1 _] _]. congruence. }
    assert (Hin : nn ∈ hd :: xs).
    { destruct Hl1 as (_&_&H1). destruct (xs ++ [hd]) as [|y l] eqn:E; [by destruct xs|].
      destruct H1 as [[H1 _] _]. assert (nn = y) as -> by congruence.
      assert (y ∈ xs ++ [hd]) by (rewrite E; set_solver). set_solver. }
    destruct (is_list_some _ _ _ _ Hl1 Hin) as [c Hc]. rewrite Hc. simpl.
    destruct (IH h1 fuel Hl1 ltac:(lia) nn (next c) Hnn1) as (h' & -> & He & Hz & Hu').
    { unfold nx. by rewrite Hc. }
    assert (Hnx : x ∉ hd :: xs).
    { destruct Hl0 as (H&_). apply NoDup_cons in H as [H1 H2].
      apply NoDup_cons in H2 as [H2 _]. set_solver. }
    exists h'. simpl. split_and!; [done|done| |].
    + intros y [->|Hy]%elem_of_cons; [|by apply Hz].
      destruct (proj1 Hu' x Hnx) as [H1 H2]. unfold nx, pv in H1, H2. rewrite Hx in H1, H2.
      destruct (h' !! x) as [[a b]|]; by simplify_eq/=.
    + split.
      * intros a Ha. destruct (proj1 Hu' a) as [H1 H2]; [set_solver|].
        rewrite H1, H2. apply (proj1 Hu). done.
      * intros a. rewrite (proj2 Hu' a). apply (proj2 Hu).
Qed.

(** ** The refinement *)

Lemma rep_update h h' f hd xs' l u :
  rep h f -> is_list h' hd xs' -> untouched h h' l ->
  (forall x, x ∈ l -> x ∈ unlinked f \/ exists xs, lists f !! hd = Some xs /\ x ∈ hd :: xs) ->
  (forall x, x ∈ hd :: xs' -> x ∈ unlinked f \/ exists xs, lists f !! hd = Some xs /\ x ∈ hd :: xs) ->
  (forall x, x ∈ u -> x ∈ unlinked f \/ exists xs, lists f !! hd = Some xs /\ x ∈ xs) ->
  (forall x, x ∈ u -> x ∉ hd :: xs') ->
  rep h' (mk_family (<[hd := xs']> (lists f)) u).
Proof.
  intros (R1 & R2 & R3) Hl Hu Hl' Hxs' Hu' Hdis.
  assert (Hout : forall hd2 xs2 x, hd2 <> hd -> lists f !! hd2 = Some xs2 -> x ∈ hd2 :: xs2 ->
    ~ (x ∈ unlinked f \/ exists xs, lists f !! hd = Some xs /\ x ∈ hd :: xs)).
  { intros hd2 xs2 x Hne Hlk Hx [H|(xs & H & Hxx)].
    - by apply (proj2 (proj2 (R3 x H)) hd2 xs2).
    - apply Hne. eapply R2; eauto. }
  split_and!; simpl.
  - intros hd2 xs2 [[<- <-]|[Hne Hlk]]%lookup_insert_Some; [done|].
    apply is_list_frame with h l; [by apply R1|done|].
    intros x Hx Hxl. eapply Hout; eauto.
  - intros hd1 xs1 hd2 xs2 x H1 H2 Hx1 Hx2.
    apply lookup_insert_Some in H1 as [[<- <-]|[Hn1 H1]];
    apply lookup_insert_Some in H2 as [[<- <-]|[Hn2 H2]]; [done| | |by eapply R2].
    + exfalso. eapply Hout; eauto.
    + exfalso. eapply (Hout hd1); eauto.
  - intros x Hx. split_and!.
    + apply (proj2 Hu). destruct (Hu' x Hx) as [H|(xs & H & Hxx)]; [by apply R3|].
      eapply is_list_some; [by apply R1|set_solver].
    + destruct (Hu' x Hx) as [H|(xs & H & Hxx)]; [by apply R3|].
      destruct (R1 _ _ H) as (_ & Hz & _). intros ->. apply Hz. set_solver.
    + intros hd2 xs2 [[<- <-]|[Hne Hlk]]%lookup_insert_Some; [by apply Hdis|].
      intros Hx2. apply (Hout hd2 xs2 x); [done..|].
      destruct (Hu' x Hx) as [H|(xs & H & Hxx)]; [by left|].
      right. exists xs. split; [done|set_solver].
Qed.

(** C1: on any family of disjoint circular lists, the pointer code of
    [list_head_init], [list_add], [list_add_tail] and [list_del] runs without
    touching foreign memory and implements the corresponding operation on the
    abstract lists: every other list is kept, and a removed node is unlinked. *)
Theorem step_refines h f c f' :
  rep h f -> family_step c f f' ->
  exists h', run_cmd c h = Some h' /\ rep h' f'.
Proof.
  intros Hr Hs. pose proof Hr as (R1 & R2 & R3).
  destruct Hs as [hd f Hu|new hd xs f Hu Hlk|new hd xs f Hu Hlk|x hd xs ys f Hlk]; simpl.
  - destruct (R3 _ Hu) as (H1 & H2 & H3).
    eexists. split; [done|]. apply (rep_update h _ f hd [] [hd]); [done| | |set_solver..].
    + split_and!; [apply NoDup_singleton|set_solver|].
      split; [|done]. unfold linked, nx, pv, list_head_init. by rewrite lookup_insert_eq.
    + unfold untouched, nx, pv, list_head_init. split; intros a; rewrite lookup_insert; case_decide; subst; set_solver.
  - destruct (R3 _ Hu) as (H1 & H2 & H3).
    destruct (is_list_add h hd xs new) as (h' & -> & Hl & Hut); eauto.
    eexists. split; [done|]. eapply rep_update; eauto; set_solver.
  - destruct (R3 _ Hu) as (H1 & H2 & H3).
    destruct (is_list_add_tail h hd xs new) as (h' & -> & Hl & Hut); eauto.
    eexists. split; [done|]. eapply rep_update; eauto; set_solver.
  - pose proof (R1 _ _ Hlk) as Hl0.
    destruct (is_list_del h hd xs x ys Hl0) as (h' & -> & Hl & Hx & Hut).
    eexists. split; [done|]. pose proof Hl0 as (Hnd & _).
    apply NoDup_cons in Hnd as [Hnd1 Hnd2]. apply NoDup_app in Hnd2 as (_ & Hnd2 & Hnd3).
    apply NoDup_cons in Hnd3 as [Hnd3 _].
    assert (x ∉ hd :: xs ++ ys) by set_solver.
    apply (rep_update h _ f hd _ (hd :: xs ++ x :: ys)); try done.
    + intros y Hy. right. exists (xs ++ x :: ys). split; [done|set_solver].
    + intros y Hy. right. exists (xs ++ x :: ys). split; [done|set_solver].
    + intros y [Hy|Hy]%elem_of_union; [by left|]. right. exists (xs ++ x :: ys). split; [done|set_solver].
    + intros y [Hy|Hy]%elem_of_union; [|set_solver].
      intros [->|Hy']%elem_of_cons; [by eapply R3; eauto; set_solver|].
      apply (proj2 (proj2 (R3 y Hy)) _ _ Hlk). set_solver.
Qed.

(** The observers agree with the abstract list: [list_is_null] tells
    emptiness, the two traversals visit exactly the nodes, forwards and
    backwards, and the deletion-safe traversal unlinks every node; the fuel
    needed is one more than the length of the list. *)
Theorem traversals_correct h hd xs fuel :
  is_list h hd xs -> (length xs < fuel)%nat ->
  list_is_null h hd = Some (bool_decide (xs = [])) /\
  list_for_each fuel h hd = Some xs /\
  list_for_each_prev fuel h hd = Some (rev xs) /\
  exists h', list_drain fuel h hd = Some (h', xs) /\ is_list h' hd [] /\
    forall x, x ∈ xs -> h' !! x = Some (mk_lh NULL NULL).
Proof.
  intros Hl Hf. pose proof Hl as (Hnd & Hz & Hp).
  apply NoDup_cons in Hnd as [Hhd Hnd].
  destruct (is_list_some _ _ _ hd Hl) as [c Hc]; [set_solver|].
  assert (Hn : nx h hd = Some (next c)) by (unfold nx; by rewrite Hc).
  assert (Hv : pv h hd = Some (prev c)) by (unfold pv; by rewrite Hc).
  unfold list_is_null, list_for_each, list_for_each_prev, list_drain. rewrite Hc. simpl.
  split_and!.
  - f_equal. destruct xs as [|x xs].
    + destruct Hp as [[H _] _]. rewrite Hn in H. injection H as H. by rewrite H, Z.eqb_refl.
    + rewrite bool_decide_false by done. apply orb_false_iff. rewrite !Z.eqb_neq.
      split.
      * destruct Hp as [[H _] _]. intros E. rewrite Hn in H. injection H as H. set_solver.
      * destruct (exists_last (l := x :: xs)) as (l1 & y & E); [done|].
        rewrite E, <- app_assoc in Hp. simpl in Hp.
        change (path h ((hd :: l1) ++ y :: [hd])) in Hp.
        apply path_app in Hp as [_ [[_ H] _]]. intros E'. rewrite Hv, E' in H.
        injection H as H. apply Hhd. rewrite E, H. set_solver.
  - eapply list_for_each_from_spec; eauto.
  - eapply list_for_each_prev_from_spec; eauto.
  - assert (Hin : next c ∈ hd :: xs).
    { destruct xs as [|x xs]; destruct Hp as [[H _] _]; rewrite Hn in H; injection H as H; set_solver. }
    destruct (is_list_some _ _ _ _ Hl Hin) as [c2 Hc2]. rewrite Hc2. simpl.
    destruct (list_drain_from_spec h hd xs fuel Hl Hf (next c) (next c2) Hn) as (h' & H1 & H2 & H3 & _).
    { unfold nx. by rewrite Hc2. }
    eauto.
Qed.

(** ** Witnesses: a list of one node at 104 with head 100, and a free node 108 *)

Definition heap0 : gmap Z list_head :=
  <[100 := mk_lh 104 104]> (<[104 := mk_lh 100 100]> {[108 := mk_lh NULL NULL]}).
Definition family0 : family := mk_family {[100 := [104]]} {[108]}.

Lemma is_list_heap0 : is_list heap0 100 [104].
Proof.
  split_and!.
  - apply NoDup_cons. split; [set_solver|apply NoDup_singleton].
  - set_solver.
  - split; [by vm_compute|]. split; [by vm_compute|done].
Defined.

Lemma rep_heap0 : rep heap0 family0.
Proof.
  split_and!; simpl.
  - intros hd xs [<- <-]%lookup_singleton_Some. apply is_list_heap0.
  - intros hd1 xs1 hd2 xs2 x [<- <-]%lookup_singleton_Some [<- <-]%lookup_singleton_Some; done.
  - intros x ->%elem_of_singleton. split_and!; [by eexists|done|].
    intros hd xs [<- <-]%lookup_singleton_Some. set_solver.
Defined.

Lemma step_refines_witness :
  exists h', run_cmd (Add 108 100) heap0 = Some h' /\
    rep h' (mk_family (<[100 := [108; 104]]> {[100 := [104]]}) ({[108]} ∖ {[108]})).
Proof.
  apply (step_refines heap0 family0 (Add 108 100)); [apply rep_heap0|].
  apply (fs_add 108 100 [104] family0); [simpl; set_solver|reflexivity].
Defined.

Lemma traversals_correct_witness :
  list_is_null heap0 100 = Some false /\ list_for_each 2 heap0 100 = Some [104].
Proof.
  destruct (traversals_correct heap0 100 [104] 2 is_list_heap0) as (H1 & H2 & _).
  - simpl. lia.
  - split; [exact H1|exact H2].
Defined.
