(* ===== verification/Buddy.v ===== *)
(** * The buddy page allocator ([mm/buddy.c], [include/kernel/gfp.h])

    A [struct page *] is its index in [mem_map]; [buddy.block[i]] and
    [buddy.activate] are the Rocq lists of the pages linked in them, as
    [ListHead] licenses.  [None] stands for a run that cannot go on: a null or
    uninitialised cursor, or a spin lock that is never released.

    The invariant [wf] says that the free blocks are aligned, sorted, disjoint,
    inside the memory and maximally coalesced; [free_in] is the set of pages
    they cover.  The theorems give initialisation, allocation and release their
    meaning on that set. *)

From Stdlib Require Import Sorting.Sorted.
From S2P Require Import Prelude.

(** ** State *)

Definition MAX_ORDER : Z := 8.
Definition PF_RESERVE : Z := Z.shiftl 1 0.
Definition PF_BUSY : Z := Z.shiftl 1 1.

(** [struct page]; the [list] links are kept by the lists of [buddy_struct]. *)
Record page := mk_page { flags : Z; _count : Z; slab : Z; virtual : Z }.

Record buddy_struct := mk_buddy { block : list (list Z); activate : list Z; lock : Z }.

Record mm_state := mk_mm { mem_map : list page; buddy : buddy_struct }.

Definition blk (b : buddy_struct) (i : Z) : list Z := default [] (block b !! Z.to_nat i).
Definition set_blk (b : buddy_struct) (i : Z) (l : list Z) : buddy_struct :=
  mk_buddy (<[Z.to_nat i := l]> (block b)) (activate b) (lock b).
Definition set_activate (b : buddy_struct) (l : list Z) : buddy_struct :=
  mk_buddy (block b) l (lock b).
Definition set_lock (b : buddy_struct) (v : Z) : buddy_struct :=
  mk_buddy (block b) (activate b) v.
Definition set_buddy (s : mm_state) (b : buddy_struct) : mm_state := mk_mm (mem_map s) b.

Definition page_at (s : mm_state) (p : Z) : option page := mem_map s !! Z.to_nat p.
Definition set_page (s : mm_state) (p : Z) (pg : page) : mm_state :=
  mk_mm (<[Z.to_nat p := pg]> (mem_map s)) (buddy s).

(** ** Spin locks ([include/boot/spinlock.h])

    [lock decb] then [jns]: the lock is taken when the decremented signed byte
    is not negative; otherwise the code spins until another CPU stores 1. *)

Definition spin_init (b : buddy_struct) : buddy_struct := set_lock b 1.
Definition spin_lock (b : buddy_struct) : option buddy_struct :=
  if 0 <=? i8 (lock b - 1) then Some (set_lock b (i8 (lock b - 1))) else None.
Definition spin_unlock (b : buddy_struct) : buddy_struct := set_lock b 1.

(** ** Operations *)

Fixpoint check_order_from (n : nat) (offset : Z) : Z :=
  let i := Z.of_nat n in
  if Z.land offset (Z.shiftl 1 i - 1) =? 0 then i
  else match n with O => 0 | S n => check_order_from n offset end.

Definition check_order (p : Z) : Z := check_order_from (Z.to_nat (MAX_ORDER - 1)) (u32 p).

(** The body of the [list_for_each_entry] of [block_insert]: either a buddy is
    found and unlinked, or the cursor stops at the first block not below
    [page], [post] being empty when the cursor has come back to the list head. *)
Inductive scan_result :=
| Merged (l : list Z) (page order : Z)
| Stopped (pre post : list Z).

Fixpoint scan (i order page : Z) (pre l : list Z) : scan_result :=
  match l with
  | [] => Stopped pre []
  | p :: rest =>
      if (i <? MAX_ORDER - 1) && ((p + Z.shiftl 1 order =? page) && (order + 1 <=? check_order p))
      then Merged (pre ++ rest) p (order + 1)
      else if (i <? MAX_ORDER - 1) && ((page + Z.shiftl 1 order =? p) && (order + 1 <=? check_order page))
      then Merged (pre ++ rest) page (order + 1)
      else if p <? page then scan i order page (pre ++ [p]) rest
      else Stopped pre (p :: rest)
  end.

(** The outer [for] of [block_insert].  [cur] is the cursor [p] left by the last
    inner loop: unusable before the first one, and after a merge, whose
    [list_del] has set the links of [p] to [NULL]. *)
Fixpoint block_insert_loop (fuel : nat) (b : buddy_struct) (cur : option (Z * list Z * list Z))
    (page order i : Z) : option buddy_struct :=
  match fuel with
  | O => None
  | S fuel =>
      if (i =? order) && (i <? MAX_ORDER) then
        match scan i order page [] (blk b i) with
        | Merged l page' order' => block_insert_loop fuel (set_blk b i l) None page' order' (i + 1)
        | Stopped pre post => block_insert_loop fuel b (Some (i, pre, post)) page order (i + 1)
        end
      else
        match cur with
        | None => None
        | Some (k, pre, post) => Some (set_blk b k (pre ++ page :: post))
        end
  end.

Definition block_insert (b : buddy_struct) (page order : Z) : option buddy_struct :=
  block_insert_loop (S (S (Z.to_nat MAX_ORDER))) b None page order order.

(** [for (next = order + 1; next < MAX_ORDER; next++)]: the first non-empty
    list, or [MAX_ORDER]. *)
Fixpoint find_next (fuel : nat) (b : buddy_struct) (next : Z) : Z :=
  match fuel with
  | O => next
  | S fuel =>
      if next <? MAX_ORDER then
        match blk b next with
        | [] => find_next fuel b (next + 1)
        | _ :: _ => next
        end
      else next
  end.

(** [while (next > order) { next = next - 1; block_insert(page + (1 << next), next); }] *)
Fixpoint split_down (fuel : nat) (b : buddy_struct) (page next order : Z) : option buddy_struct :=
  match fuel with
  | O => None
  | S fuel =>
      if order <? next then
        b ← block_insert b (page + Z.shiftl 1 (next - 1)) (next - 1);
        split_down fuel b page (next - 1) order
      else Some b
  end.

Definition __alloc_pages (b : buddy_struct) (order : Z) : option (option Z * buddy_struct) :=
  if MAX_ORDER <=? order then Some (None, b)
  else
    b ← spin_lock b;
    match blk b order with
    | [] =>
        let next := find_next (Z.to_nat MAX_ORDER) b (order + 1) in
        match (if next <? MAX_ORDER then blk b next else []) with
        | [] => Some (None, spin_unlock b)
        | page :: rest =>
            b ← split_down (S (Z.to_nat MAX_ORDER)) (set_blk b next rest) page next order;
            Some (Some page, spin_unlock (set_activate b (page :: activate b)))
        end
    | page :: rest =>
        let b := set_blk b order rest in
        Some (Some page, spin_unlock (set_activate b (page :: activate b)))
    end.

(** The three cases of the [switch] on [gfp_mask] run the same statements. *)
Definition alloc_pages (s : mm_state) (gfp_mask order : Z) : option (option Z * mm_state) :=
  r ← __alloc_pages (buddy s) order;
  match r with
  | (None, b) => Some (None, set_buddy s b)
  | (Some ret, b) =>
      let s := set_buddy s b in
      pg ← page_at s ret;
      Some (Some ret, set_page s ret (mk_page (Z.lor (flags pg) PF_BUSY) (_count pg) (slab pg) (virtual pg)))
  end.

Definition alloc_page (s : mm_state) (gfp_mask : Z) : option (option Z * mm_state) :=
  alloc_pages s gfp_mask 0.

(** The address of the allocated block, 0 when there is none. *)
Definition __get_free_pages (s : mm_state) (gfp_mask order : Z) : option (Z * mm_state) :=
  r ← alloc_pages s gfp_mask order;
  match r with
  | (None, s) => Some (0, s)
  | (Some ret, s) => pg ← page_at s ret; Some (virtual pg, s)
  end.

Definition __get_free_page (s : mm_state) (gfp_mask : Z) : option (Z * mm_state) :=
  r ← alloc_page s gfp_mask;
  match r with
  | (None, s) => Some (0, s)
  | (Some ret, s) => pg ← page_at s ret; Some (virtual pg, s)
  end.

Definition __free_pages (b : buddy_struct) (page order : Z) : option buddy_struct :=
  b ← spin_lock b;
  b ← block_insert b page order;
  Some (spin_unlock b).

(** The search of [free_pages] in [buddy.activate]: the page whose kernel
    address is [addr], and the list without it. *)
Fixpoint find_active (s : mm_state) (addr : Z) (l : list Z) : option (option Z * list Z) :=
  match l with
  | [] => Some (None, [])
  | pos :: rest =>
      pg ← page_at s pos;
      if virtual pg =? addr then Some (Some pos, rest)
      else r ← find_active s addr rest; Some (r.1, pos :: r.2)
  end.

Definition free_pages (s : mm_state) (addr order : Z) : option mm_state :=
  if addr =? 0 then Some s
  else
    let addr := PAGE_LOWER_ALIGN addr in
    b ← spin_lock (buddy s);
    r ← find_active s addr (activate b);
    let b := spin_unlock (set_activate b r.2) in
    match r.1 with
    | None => Some (set_buddy s b)
    | Some page => b ← __free_pages b page order; Some (set_buddy s b)
    end.

Definition free_page (s : mm_state) (addr : Z) : option mm_state := free_pages s addr 0.

(** ** Initialisation *)

(** [right->flags & PF_RESERVE].  The inner loop of [buddy_system_init] tests it
    before [right != tail], so it also reads the word behind the array: 0 here,
    and of no influence, since the next test ends the loop. *)
Definition reserved (s : mm_state) (p : Z) : bool :=
  match page_at s p with
  | Some pg => negb (Z.land (flags pg) PF_RESERVE =? 0)
  | None => false
  end.

Definition list_add_tail_blk (b : buddy_struct) (i p : Z) : buddy_struct :=
  set_blk b i (blk b i ++ [p]).

(** The [while] that extends the run from [right]; [fuel] bounds [1 << order]. *)
Fixpoint run_length (fuel : nat) (s : mm_state) (tail rgt count limit : Z) : Z * Z :=
  match fuel with
  | O => (count, rgt)
  | S fuel =>
      if negb (reserved s rgt) && (negb (rgt =? tail) && (count <? limit))
      then run_length fuel s tail (rgt + 1) (count + 1) limit
      else (count, rgt)
  end.

(** [for (; order >= 0; order--) if (count & (1 << order)) ...] *)
Fixpoint add_pieces (n : nat) (b : buddy_struct) (count lft : Z) : buddy_struct :=
  let order := Z.of_nat n in
  let '(b, lft) :=
    if negb (Z.land count (Z.shiftl 1 order) =? 0)
    then (list_add_tail_blk b order lft, lft + Z.shiftl 1 order) else (b, lft) in
  match n with O => b | S n => add_pieces n b count lft end.

(** The outer [while]; [left] equals [right] whenever its condition is tested. *)
Fixpoint init_loop (fuel : nat) (s : mm_state) (b : buddy_struct) (tail lft rgt : Z) : option buddy_struct :=
  match fuel with
  | O => None
  | S fuel =>
      if rgt =? tail then Some b
      else if reserved s rgt then init_loop fuel s b tail (rgt + 1) (rgt + 1)
      else
        let order := check_order lft in
        let '(count, rgt) := run_length (Z.to_nat (Z.shiftl 1 order)) s tail rgt 0 (Z.shiftl 1 order) in
        let b := if count =? Z.shiftl 1 order then list_add_tail_blk b order lft
                 else add_pieces (Z.to_nat order) b count lft in
        init_loop fuel s b tail rgt rgt
  end.

Definition buddy_system_init (s : mm_state) (nr_pages : Z) : option mm_state :=
  let b := mk_buddy (replicate (Z.to_nat MAX_ORDER) []) [] (lock (buddy s)) in
  b ← init_loop (S (Z.to_nat nr_pages)) s (spin_init b) nr_pages 0 0;
  Some (set_buddy s b).

(** ** Specification *)

(** Page [x] belongs to a free block. *)
Definition free_in (b : buddy_struct) (x : Z) : Prop :=
  exists o p, 0 <= o < MAX_ORDER /\ p ∈ blk b o /\ p <= x < p + 2 ^ o.

Record wf (nr : Z) (b : buddy_struct) : Prop := {
  wf_len : length (block b) = Z.to_nat MAX_ORDER;
  wf_nr : nr <= 2 ^ 32;
  wf_sorted : forall o, 0 <= o < MAX_ORDER -> StronglySorted Z.lt (blk b o);
  wf_block : forall o p, 0 <= o < MAX_ORDER -> p ∈ blk b o ->
    0 <= p /\ p mod 2 ^ o = 0 /\ p + 2 ^ o <= nr;
  wf_disjoint : forall o p o' p' x,
    0 <= o < MAX_ORDER -> p ∈ blk b o -> p <= x < p + 2 ^ o ->
    0 <= o' < MAX_ORDER -> p' ∈ blk b o' -> p' <= x < p' + 2 ^ o' -> o = o' /\ p = p';
  wf_coalesced : forall o p, 0 <= o < MAX_ORDER - 1 -> p ∈ blk b o ->
    p mod 2 ^ (o + 1) = 0 -> p + 2 ^ o ∉ blk b o }.

(** The block of order [o] at [p] is aligned, inside the memory and not free. *)
Definition outside (nr : Z) (b : buddy_struct) (p o : Z) : Prop :=
  0 <= o < MAX_ORDER /\ 0 <= p /\ p mod 2 ^ o = 0 /\ p + 2 ^ o <= nr /\
  forall x, p <= x < p + 2 ^ o -> ~ free_in b x.

(** ** Alignment arithmetic *)

Lemma check_order_from_spec n p k :
  0 <= k <= Z.of_nat n -> (k <=? check_order_from n p) = (p mod 2 ^ k =? 0).
Proof.
  revert k. induction n as [|n IH]; intros k Hk.
  - assert (k = 0) as -> by lia. cbn -[Z.land Z.shiftl Z.modulo].
    rewrite Z.mod_1_r. by case_if.
  - cbn [check_order_from]. rewrite land_mask_zero by lia. case_if.
    + assert (Hp : p mod 2 ^ k = 0) by (apply mod_pow2_weaken with (Z.of_nat (S n)); lia).
      rewrite Hp. apply Z.leb_le. lia.
    + destruct (decide (k = Z.of_nat (S n))) as [->|Hne].
      * rewrite (proj2 (Z.eqb_neq _ _) E). apply Z.leb_gt.
        enough (forall m q, check_order_from m q <= Z.of_nat m) as H.
        { specialize (H n p). lia. }
        clear. induction m as [|m IHm]; intros q; cbn [check_order_from]; case_if; try lia.
        specialize (IHm q). lia.
      * apply IH. lia.
Qed.

Lemma check_order_spec p k :
  0 <= p < 2 ^ 32 -> 0 <= k < MAX_ORDER -> (k <=? check_order p) = (p mod 2 ^ k =? 0).
Proof.
  intros Hp Hk. unfold check_order. rewrite u32_small by lia.
  apply check_order_from_spec. unfold MAX_ORDER in *. lia.
Qed.

Lemma check_order_range p : 0 <= check_order p < MAX_ORDER.
Proof.
  unfold check_order. generalize (u32 p).
  assert (H : forall n q, 0 <= check_order_from n q <= Z.of_nat n).
  { induction n as [|n IH]; intros q; cbn [check_order_from]; case_if; try lia.
    specialize (IH q). lia. }
  intros q. specialize (H (Z.to_nat (MAX_ORDER - 1)) q). unfold MAX_ORDER in *. lia.
Qed.

(** Two multiples of [2^o] less than [2^o] apart are equal. *)
Lemma aligned_close o p q :
  0 <= o -> p mod 2 ^ o = 0 -> q mod 2 ^ o = 0 -> p - 2 ^ o < q < p + 2 ^ o -> p = q.
Proof.
  intros Ho Hp Hq H. pose proof (pow2_pos o Ho).
  apply Z.mod_divide in Hp as [a ->]; [|lia]. apply Z.mod_divide in Hq as [c ->]; [|lia].
  assert (a - 1 < c) by (apply (Z.mul_lt_mono_pos_r (2 ^ o)); lia).
  assert (c < a + 1) by (apply (Z.mul_lt_mono_pos_r (2 ^ o)); lia). f_equal. lia.
Qed.

Lemma aligned_add o p : 0 <= o -> p mod 2 ^ (o + 1) = 0 -> (p + 2 ^ o) mod 2 ^ o = 0.
Proof.
  intros. pose proof (pow2_pos o ltac:(lia)).
  rewrite <- (Z.mul_1_l (2 ^ o)) at 1. rewrite Z.mod_add by lia.
  apply mod_pow2_weaken with (o + 1); lia.
Qed.

(** ** The lists of blocks *)

Lemma blk_set b i l j :
  length (block b) = Z.to_nat MAX_ORDER -> 0 <= i < MAX_ORDER -> 0 <= j ->
  blk (set_blk b i l) j = if decide (i = j) then l else blk b j.
Proof.
  intros Hlen Hi Hj. unfold blk, set_blk. simpl. case_decide.
  - subst. rewrite list_lookup_insert_eq; [done|]. unfold MAX_ORDER in *. lia.
  - rewrite list_lookup_insert_ne; [done|]. intros ?%Z2Nat.inj; lia.
Qed.

Lemma sorted_app_remove (a c : list Z) p :
  StronglySorted Z.lt (a ++ p :: c) -> StronglySorted Z.lt (a ++ c) /\
  (forall q, q ∈ a -> q < p) /\ (forall q, q ∈ c -> p < q).
Proof.
  induction a as [|x a IH]; simpl; intros H; inversion H as [|? ? H1 H2]; subst.
  - split_and!; [done|set_solver|]. by rewrite Forall_forall in H2.
  - destruct (IH H1) as (I1 & I2 & I3). rewrite Forall_forall in H2. split_and!; [|set_solver|done].
    constructor; [done|]. apply Forall_forall. set_solver.
Qed.

Lemma sorted_app_insert (a c : list Z) p :
  StronglySorted Z.lt (a ++ c) -> (forall q, q ∈ a -> q < p) -> (forall q, q ∈ c -> p < q) ->
  StronglySorted Z.lt (a ++ p :: c).
Proof.
  induction a as [|x a IH]; simpl; intros H Ha Hc.
  - constructor; [done|]. by apply Forall_forall.
  - inversion H as [|? ? H1 H2]; subst. rewrite Forall_forall in H2.
    constructor; [apply IH; [done|set_solver|done]|].
    apply Forall_forall. intros y Hy.
    apply elem_of_app in Hy as [Hy|Hy]; [apply H2; set_solver|].
    apply elem_of_cons in Hy as [->|Hy]; [apply Ha; set_solver|apply H2; set_solver].
Qed.

Lemma wf_remove nr b o a p c :
  wf nr b -> 0 <= o < MAX_ORDER -> blk b o = a ++ p :: c ->
  wf nr (set_blk b o (a ++ c)) /\
  forall x, free_in (set_blk b o (a ++ c)) x <-> free_in b x /\ ~ (p <= x < p + 2 ^ o).
Proof.
  intros Hwf Ho Hblk.
  destruct (sorted_app_remove a c p) as (Hs & Ha & Hc).
  { rewrite <- Hblk. by apply Hwf. }
  assert (Hin : forall j q, 0 <= j < MAX_ORDER ->
    q ∈ blk (set_blk b o (a ++ c)) j <-> q ∈ blk b j /\ ~ (j = o /\ q = p)).
  { intros j q Hj. rewrite blk_set; [|by destruct Hwf|done|lia]. case_decide; [subst|naive_solver].
    rewrite Hblk. split; [|set_solver]. intros Hq. split; [set_solver|].
    intros [_ ->]. apply elem_of_app in Hq as [Hq|Hq]; [apply Ha in Hq|apply Hc in Hq]; lia. }
  split.
  - destruct Hwf as [W1 W2 W3 W4 W5 W6]. split; simpl.
    + by rewrite length_insert.
    + done.
    + intros j Hj. rewrite blk_set by (done || lia). case_decide; [done|by apply W3].
    + intros j q Hj Hq. apply Hin in Hq as [Hq _]; [|done]. by apply W4.
    + intros j q j' q' x Hj Hq Hx Hj' Hq' Hx'.
      apply Hin in Hq as [Hq _]; [|done]. apply Hin in Hq' as [Hq' _]; [|done].
      by apply (W5 j q j' q' x).
    + intros j q Hj Hq Hal. pose proof (proj1 (Hin j q ltac:(lia)) Hq) as [Hq1 _].
      rewrite Hin by lia. intros [Hq2 _]. by apply (W6 j q Hj Hq1 Hal).
  - intros x. split.
    + intros (j & q & Hj & Hq & Hx). apply Hin in Hq as [Hq Hne]; [|done]. split; [by exists j, q|].
      intros Hp. apply Hne. eapply (wf_disjoint _ _ Hwf j q o p x); try done. rewrite Hblk. set_solver.
    + intros [(j & q & Hj & Hq & Hx) Hp]. exists j, q. split_and!; try done; try lia.
      apply Hin; [done|]. split; [done|]. intros [-> ->]. done.
Qed.

Lemma wf_insert nr b o pre post p :
  wf nr b -> blk b o = pre ++ post -> outside nr b p o ->
  (forall q, q ∈ pre -> q < p) -> (forall q, q ∈ post -> p < q) ->
  (o < MAX_ORDER - 1 -> p mod 2 ^ (o + 1) = 0 -> p + 2 ^ o ∉ blk b o) ->
  (o < MAX_ORDER - 1 -> p - 2 ^ o ∈ blk b o -> (p - 2 ^ o) mod 2 ^ (o + 1) <> 0) ->
  wf nr (set_blk b o (pre ++ p :: post)) /\
  forall x, free_in (set_blk b o (pre ++ p :: post)) x <-> free_in b x \/ p <= x < p + 2 ^ o.
Proof.
  intros Hwf Hblk (Ho & Hp0 & Hal & Hnr & Hout) Hpre Hpost Hb1 Hb2.
  pose proof (pow2_pos o ltac:(lia)) as H2o.
  assert (Hin : forall j q, 0 <= j < MAX_ORDER ->
    q ∈ blk (set_blk b o (pre ++ p :: post)) j <-> q ∈ blk b j \/ (j = o /\ q = p)).
  { intros j q Hj. rewrite blk_set; [|by destruct Hwf|done|lia]. case_decide; [subst|naive_solver].
    rewrite Hblk. set_solver. }
  split.
  - pose proof Hwf as [W1 W2 W3 W4 W5 W6]. split; simpl.
    + by rewrite length_insert.
    + done.
    + intros j Hj. rewrite blk_set by (done || lia). case_decide; [|by apply W3]. subst.
      apply sorted_app_insert; [rewrite <- Hblk; by apply W3|done|done].
    + intros j q Hj Hq. apply Hin in Hq as [Hq|[-> ->]]; [by apply W4|done|done].
    + intros j q j' q' x Hj Hq Hx Hj' Hq' Hx'.
      apply Hin in Hq as [Hq|[-> ->]]; [| |done]; (apply Hin in Hq' as [Hq'|[-> ->]]; [| |done]).
      * by apply (W5 j q j' q' x).
      * exfalso. apply (Hout x); [done|]. by exists j, q.
      * exfalso. apply (Hout x); [done|]. by exists j', q'.
      * done.
    + intros j q Hj Hq Hq2. rewrite Hin by lia. intros Hq'.
      apply Hin in Hq as [Hq|[-> ->]]; [| |lia]; destruct Hq' as [Hq'|[Ej Eq]].
      * by apply (W6 j q).
      * subst j. apply (Hb2 ltac:(lia)); replace (p - 2 ^ o) with q by lia; done.
      * by apply (Hb1 ltac:(lia)).
      * lia.
  - intros x. split.
    + intros (j & q & Hj & Hq & Hx). apply Hin in Hq as [Hq|[-> ->]]; [left; by exists j, q|by right|done].
    + intros [(j & q & Hj & Hq & Hx)|Hx].
      * exists j, q. split_and!; try done; try lia. apply Hin; naive_solver.
      * exists o, p. split_and!; try done; try lia. apply Hin; naive_solver.
Qed.

(** ** [block_insert] *)

Definition no_merge (o page q : Z) : Prop :=
  o < MAX_ORDER - 1 ->
  ~ (q + 2 ^ o = page /\ q mod 2 ^ (o + 1) = 0) /\
  ~ (page + 2 ^ o = q /\ page mod 2 ^ (o + 1) = 0).

Lemma scan_spec o page pre l :
  0 <= o < MAX_ORDER -> 0 <= page < 2 ^ 32 -> (forall q, q ∈ l -> 0 <= q < 2 ^ 32) ->
  match scan o o page pre l with
  | Merged l' page' o' =>
      o' = o + 1 /\ o < MAX_ORDER - 1 /\
      exists a p c, l = a ++ p :: c /\ l' = pre ++ a ++ c /\
        ((p + 2 ^ o = page /\ page' = p /\ p mod 2 ^ (o + 1) = 0) \/
         (page + 2 ^ o = p /\ page' = page /\ page mod 2 ^ (o + 1) = 0))
  | Stopped pre' post =>
      exists a, pre' = pre ++ a /\ l = a ++ post /\
        (forall q, q ∈ a -> q < page /\ no_merge o page q) /\
        (forall q rest, post = q :: rest -> page <= q /\ no_merge o page q)
  end.
Proof.
  intros Ho Hpage. revert pre. induction l as [|p rest IH]; intros pre Hl; simpl.
  { exists []. rewrite app_nil_r. split_and!; [done|done|set_solver|done]. }
  assert (Hp : 0 <= p < 2 ^ 32) by (apply Hl; set_solver).
  rewrite shiftl_1 by lia.
  destruct (o <? MAX_ORDER - 1) eqn:E7; simpl; zbool.
  - assert (Hk : 0 <= o + 1 < MAX_ORDER) by lia.
    rewrite !check_order_spec by done. case_if.
    { split_and!; [done|lia|]. exists [], p, rest. naive_solver. }
    case_if.
    { split_and!; [done|lia|]. exists [], p, rest. naive_solver. }
    assert (Hnm : no_merge o page p) by (intros _; lia).
    case_if.
    + specialize (IH (pre ++ [p]) ltac:(set_solver)).
      destruct (scan o o page (pre ++ [p]) rest) as [l' page' o'|pre' post].
      * destruct IH as (-> & _ & a & p' & c & -> & -> & H).
        split_and!; [done|lia|]. exists (p :: a), p', c. rewrite <- !app_assoc. done.
      * destruct IH as (a & -> & -> & H1 & H2). exists (p :: a). rewrite <- app_assoc.
        split_and!; [done|done| |done]. intros q [->|Hq]%elem_of_cons; [done|by apply H1].
    + exists []. rewrite app_nil_r. split_and!; [done|done|set_solver|].
      intros q r [= -> ->]. split; [lia|done].
  - assert (Hnm : forall q, no_merge o page q) by (intros q H; lia).
    case_if.
    + specialize (IH (pre ++ [p]) ltac:(set_solver)).
      destruct (scan o o page (pre ++ [p]) rest) as [l' page' o'|pre' post].
      * destruct IH as (_ & H & _). lia.
      * destruct IH as (a & -> & -> & H1 & H2). exists (p :: a). rewrite <- app_assoc.
        split_and!; [done|done| |done]. intros q [->|Hq]%elem_of_cons; [done|by apply H1].
    + exists []. rewrite app_nil_r. split_and!; [done|done|set_solver|].
      intros q r [= -> ->]. split; [lia|done].
Qed.

(** Unlinking the buddy and doubling the block keeps the block outside. *)
Lemma merge_outside nr b page o a p c page' :
  wf nr b -> outside nr b page o -> o < MAX_ORDER - 1 -> blk b o = a ++ p :: c ->
  (p + 2 ^ o = page /\ page' = p /\ p mod 2 ^ (o + 1) = 0) \/
  (page + 2 ^ o = p /\ page' = page /\ page mod 2 ^ (o + 1) = 0) ->
  outside nr (set_blk b o (a ++ c)) page' (o + 1) /\
  forall x, page' <= x < page' + 2 ^ (o + 1) <->
            page <= x < page + 2 ^ o \/ p <= x < p + 2 ^ o.
Proof.
  intros Hwf (Ho & Hp0 & Hal & Hnr & Hout) Ho7 Hblk Hm.
  pose proof (pow2_pos o ltac:(lia)). pose proof (pow2_S o ltac:(lia)) as Hpow.
  destruct (wf_block _ _ Hwf o p Ho) as (Hp1 & Hp2 & Hp3); [rewrite Hblk; set_solver|].
  destruct (wf_remove _ _ _ _ _ _ Hwf Ho Hblk) as [_ Hfree].
  assert (Hiff : forall x, page' <= x < page' + 2 ^ (o + 1) <->
            page <= x < page + 2 ^ o \/ p <= x < p + 2 ^ o) by lia.
  split; [|done]. unfold MAX_ORDER in *.
  assert (Hm' : 0 <= page' /\ page' mod 2 ^ (o + 1) = 0 /\ page' + 2 ^ (o + 1) <= nr).
  { destruct Hm as [(? & -> & ?)|(? & -> & ?)]; split_and!; (done || lia). }
  destruct Hm' as (? & ? & ?). split; [unfold MAX_ORDER; lia|]. do 3 (split; [done|]).
  intros x Hx. rewrite Hfree. apply Hiff in Hx as [Hx|Hx]; [|tauto].
  intros [Hf _]. by apply (Hout x).
Qed.

Lemma block_insert_loop_end fuel b pre post page o :
  block_insert_loop (S fuel) b (Some (o, pre, post)) page o (o + 1) =
  Some (set_blk b o (pre ++ page :: post)).
Proof. simpl. rewrite (proj2 (Z.eqb_neq (o + 1) o)) by lia. done. Qed.

Lemma block_insert_loop_spec nr fuel b cur page o :
  wf nr b -> outside nr b page o -> (Z.to_nat (MAX_ORDER - o) < fuel)%nat ->
  exists b', block_insert_loop fuel b cur page o o = Some b' /\ wf nr b' /\
    (forall x, free_in b' x <-> free_in b x \/ page <= x < page + 2 ^ o) /\
    activate b' = activate b /\ lock b' = lock b.
Proof.
  revert b cur page o. induction fuel as [|fuel IH]; intros b cur page o Hwf Hout Hf; [lia|].
  pose proof Hout as (Ho & Hp0 & Hal & Hnr & Hdis). pose proof (wf_nr _ _ Hwf).
  pose proof (pow2_pos o ltac:(lia)) as H2o.
  cbn [block_insert_loop]. rewrite Z.eqb_refl, (proj2 (Z.ltb_lt _ _)) by lia. cbn [andb].
  assert (Hl : forall q, q ∈ blk b o -> 0 <= q < 2 ^ 32).
  { intros q Hq. destruct (wf_block _ _ Hwf o q Ho Hq) as (?&?&?). lia. }
  pose proof (scan_spec o page [] (blk b o) Ho ltac:(lia) Hl) as Hscan.
  destruct (scan o o page [] (blk b o)) as [l' page' o'|pre post].
  - destruct Hscan as (-> & Ho7 & a & p & c & Hblk & -> & Hm). simpl.
    destruct (merge_outside nr b page o a p c page') as [Hout' Hiff]; [done..|].
    destruct (wf_remove _ _ _ _ _ _ Hwf Ho Hblk) as [Hwf' Hfree].
    destruct (IH (set_blk b o (a ++ c)) None page' (o + 1)) as (b' & H1 & H2 & H3 & H4 & H5);
      [done|done|unfold MAX_ORDER in *; lia|].
    exists b'. split_and!; [done|done| |done|done].
    intros x. rewrite H3, Hfree, Hiff.
    assert (Hx : p <= x < p + 2 ^ o -> free_in b x).
    { intros Hx. exists o, p. split_and!; [lia..| |lia|lia]. rewrite Hblk. set_solver. }
    split; [tauto|]. clear Hx.
    intros [Hx|Hx]; [|tauto]. destruct (decide (p <= x < p + 2 ^ o)); tauto.
  - destruct Hscan as (a & -> & Hblk & Hpre & Hpost). simpl in Hblk |- *.
    destruct fuel as [|fuel]; [unfold MAX_ORDER in *; lia|]. rewrite block_insert_loop_end.
    assert (Hnotin : page ∉ blk b o).
    { intros Hin. apply (Hdis page); [lia|]. exists o, page. split_and!; try done; lia. }
    assert (Hpost' : forall q, q ∈ post -> page < q /\ (o < MAX_ORDER - 1 ->
              page mod 2 ^ (o + 1) = 0 -> q <> page + 2 ^ o)).
    { pose proof (wf_sorted _ _ Hwf o Ho) as Hs. rewrite Hblk in Hs.
      destruct post as [|q0 rest]; [set_solver|].
      destruct (Hpost q0 rest eq_refl) as [Hge Hnm].
      assert (page <> q0) by (intros ->; apply Hnotin; rewrite Hblk; set_solver).
      destruct (sorted_app_remove a rest q0 Hs) as (_ & _ & Hgt).
      intros q [->|Hq]%elem_of_cons.
      - split; [lia|]. intros H7 Hal' ->. by apply (proj2 (Hnm H7)).
      - specialize (Hgt q Hq). split; [lia|]. intros H7 Hal' ->.
        destruct (wf_block _ _ Hwf o q0 Ho) as (_ & Hq0 & _); [rewrite Hblk; set_solver|].
        assert (page = q0) by (apply (aligned_close o); [lia|done|done|lia]). done. }
    destruct (wf_insert nr b o a post page) as [Hwf' Hfree]; [done|done|done| | | | |].
    + intros q Hq. apply Hpre in Hq as [Hq _]. done.
    + intros q Hq. by apply Hpost'.
    + intros H7 Hal'. rewrite Hblk. intros [Hq|Hq]%elem_of_app.
      * apply Hpre in Hq as [Hq _]. lia.
      * by apply (proj2 (Hpost' _ Hq) H7 Hal').
    + intros H7. rewrite Hblk. intros [Hq|Hq]%elem_of_app.
      * apply Hpre in Hq as [_ Hq]. destruct (Hq H7) as [Hq1 _]. intros Hz. apply Hq1. split; [lia|done].
      * apply Hpost' in Hq as [Hq _]. lia.
    + eexists. split_and!; [done|done|done|done|done].
Qed.

Lemma block_insert_spec nr b page o :
  wf nr b -> outside nr b page o ->
  exists b', block_insert b page o = Some b' /\ wf nr b' /\
    (forall x, free_in b' x <-> free_in b x \/ page <= x < page + 2 ^ o) /\
    activate b' = activate b /\ lock b' = lock b.
Proof.
  intros Hwf Hout. apply block_insert_loop_spec; [done|done|].
  destruct Hout as (Ho & _). unfold MAX_ORDER in *. lia.
Qed.

(** ** Allocation *)

Lemma wf_same_blocks nr b b' : block b' = block b -> wf nr b -> wf nr b'.
Proof.
  intros E [W1 W2 W3 W4 W5 W6].
  assert (Hb : forall o, blk b' o = blk b o) by (intros; unfold blk; by rewrite E).
  split; try setoid_rewrite Hb; try done. by rewrite E.
Qed.

Lemma free_in_same_blocks b b' x : block b' = block b -> free_in b' x <-> free_in b x.
Proof. intros E. unfold free_in, blk. by rewrite E. Qed.

Lemma find_next_spec fuel b n :
  (Z.to_nat (MAX_ORDER - n) <= fuel)%nat -> n <= MAX_ORDER ->
  n <= find_next fuel b n <= MAX_ORDER /\
  (find_next fuel b n < MAX_ORDER -> blk b (find_next fuel b n) <> []) /\
  (forall o, n <= o < find_next fuel b n -> blk b o = []).
Proof.
  revert n. induction fuel as [|fuel IH]; intros n Hf Hn; simpl.
  - split_and!; unfold MAX_ORDER in *; intros; lia.
  - case_if; [|split_and!; intros; lia].
    destruct (blk b n) as [|p l] eqn:Eb.
    + destruct (IH (n + 1)) as (H1 & H2 & H3); [lia|lia|].
      split_and!; [lia|lia|done|]. intros o Ho.
      destruct (decide (o = n)) as [->|]; [done|]. apply H3. lia.
    + split_and!; [lia|lia| |intros; lia]. by rewrite Eb.
Qed.

Lemma split_down_spec nr fuel b page next order :
  wf nr b -> outside nr b page next -> 0 <= order <= next -> (Z.to_nat next < fuel)%nat ->
  exists b', split_down fuel b page next order = Some b' /\ wf nr b' /\
    (forall x, free_in b' x <-> free_in b x \/ page + 2 ^ order <= x < page + 2 ^ next) /\
    activate b' = activate b /\ lock b' = lock b.
Proof.
  revert b next. induction fuel as [|fuel IH]; intros b next Hwf Hout Hord Hf; [lia|]. simpl.
  case_if.
  2: { assert (order = next) as -> by lia. exists b. split_and!; try done. intros x. split; [tauto|].
       intros [?|?]; [done|lia]. }
  destruct Hout as (Hn & Hp0 & Hal & Hnr & Hdis).
  pose proof (pow2_pos (next - 1) ltac:(lia)). pose proof (pow2_S (next - 1) ltac:(lia)) as Hpow.
  replace (next - 1 + 1) with next in Hpow by lia. rewrite shiftl_1 by lia.
  assert (Hal' : page mod 2 ^ (next - 1) = 0) by (apply mod_pow2_weaken with next; [lia|done]).
  destruct (block_insert_spec nr b (page + 2 ^ (next - 1)) (next - 1)) as (b1 & -> & H1 & H2 & H3 & H4).
  { done. }
  { split; [lia|]. split; [lia|]. split; [apply aligned_add; [lia|]; by replace (next - 1 + 1) with next by lia|].
    split; [lia|]. intros x Hx. apply Hdis. lia. }
  simpl. destruct (IH b1 (next - 1)) as (b' & -> & H5 & H6 & H7 & H8); [done| |lia|lia|].
  { split; [lia|]. do 2 (split; [done|]). split; [lia|].
    intros x Hx. rewrite H2. intros [Hx'|Hx']; [by apply (Hdis x); [lia|]|lia]. }
  exists b'. split_and!; [done|done| |congruence|congruence].
  pose proof (Z.pow_le_mono_r 2 order (next - 1)).
  intros x. rewrite H6, H2. split; [intros [[?|?]|?]|intros [?|?]]; try (left; done); try (right; lia).
  - left; by left.
  - destruct (decide (x < page + 2 ^ (next - 1))); [right; lia|left; right; lia].
Qed.

Definition alloc_result (nr : Z) (b : buddy_struct) (order : Z) (r : option Z) (b' : buddy_struct) : Prop :=
  match r with
  | Some p =>
      order < MAX_ORDER /\ 0 <= p /\ p mod 2 ^ order = 0 /\ p + 2 ^ order <= nr /\
      (forall x, p <= x < p + 2 ^ order -> free_in b x) /\
      (forall x, free_in b' x <-> free_in b x /\ ~ (p <= x < p + 2 ^ order)) /\
      activate b' = p :: activate b
  | None =>
      (forall x, free_in b' x <-> free_in b x) /\ activate b' = activate b /\
      (forall o, order <= o < MAX_ORDER -> blk b o = [])
  end.

Lemma spin_lock_free b : lock b = 1 -> spin_lock b = Some (set_lock b 0).
Proof. intros E. unfold spin_lock. by rewrite E. Qed.

(** The case in which a block of order [o] is taken off its list and cut down. *)
Lemma take_block nr b o page rest order fuel :
  wf nr b -> 0 <= order <= o -> o < MAX_ORDER -> blk b o = page :: rest ->
  (Z.to_nat o < fuel)%nat ->
  exists b', split_down fuel (set_blk b o rest) page o order = Some b' /\ wf nr b' /\
    0 <= page /\ page mod 2 ^ order = 0 /\ page + 2 ^ order <= nr /\
    (forall x, page <= x < page + 2 ^ order -> free_in b x) /\
    (forall x, free_in b' x <-> free_in b x /\ ~ (page <= x < page + 2 ^ order)) /\
    activate b' = activate b /\ lock b' = lock b.
Proof.
  intros Hwf Hord Ho Hblk Hf.
  destruct (wf_block _ _ Hwf o page) as (Hp0 & Hal & Hnr); [lia|rewrite Hblk; set_solver|].
  destruct (wf_remove nr b o [] page rest Hwf) as [Hwf' Hfree]; [lia|done|]. simpl in Hwf', Hfree.
  pose proof (Z.pow_le_mono_r 2 order o ltac:(lia) ltac:(lia)).
  assert (Hin : forall x, page <= x < page + 2 ^ o -> free_in b x).
  { intros x Hx. exists o, page. split; [lia|]. split; [rewrite Hblk; set_solver|done]. }
  destruct (split_down_spec nr fuel (set_blk b o rest) page o order) as (b' & H1 & H2 & H3 & H4 & H5);
    [done| |lia|done|].
  { split; [lia|]. do 3 (split; [done|]). intros x Hx. rewrite Hfree. tauto. }
  exists b'. split; [done|]. split; [done|]. split; [done|].
  split; [apply mod_pow2_weaken with o; [lia|done]|]. split; [lia|].
  split; [intros x Hx; apply Hin; lia|]. split; [|done].
  intros x. rewrite H3, Hfree. split.
  - intros [[? ?]|?]; split; try done; try lia. apply Hin. lia.
  - intros [Hx Hn]. destruct (decide (page <= x < page + 2 ^ o)); [right; lia|by left].
Qed.

Lemma alloc_spec nr b order :
  wf nr b -> lock b = 1 -> 0 <= order ->
  exists r b', __alloc_pages b order = Some (r, b') /\ wf nr b' /\ lock b' = 1 /\
    alloc_result nr b order r b'.
Proof.
  intros Hwf Hlock Hord. unfold __alloc_pages. case_if.
  { exists None, b. split; [done|]. split; [done|]. split; [done|]. split; [done|]. split; [done|]. intros; lia. }
  rewrite spin_lock_free by done. some_bind.
  set (b0 := set_lock b 0).
  assert (Hwf0 : wf nr b0) by (by apply (wf_same_blocks nr b)).
  change (blk b0 order) with (blk b order).
  destruct (blk b order) as [|page rest] eqn:Eb.
  - destruct (find_next_spec (Z.to_nat MAX_ORDER) b0 (order + 1)) as (Hr & Hne & Hempty); [lia|lia|].
    set (next := find_next (Z.to_nat MAX_ORDER) b0 (order + 1)) in *.
    destruct (next <? MAX_ORDER) eqn:En; zbool.
    + destruct (blk b0 next) as [|page rest] eqn:Eb2; [by destruct (Hne En)|].
      destruct (take_block nr b0 next page rest order (S (Z.to_nat MAX_ORDER)))
        as (b' & -> & H1 & H2 & H3 & H4 & H5 & H6 & H7 & _); [done|lia|lia|done|lia|]. simpl.
      do 2 eexists. split; [done|]. split; [by apply (wf_same_blocks nr b')|]. split; [done|].
      simpl. split_and!; try done. by rewrite H7.
    + do 2 eexists. split; [done|]. split; [by apply (wf_same_blocks nr b)|]. split; [done|].
      simpl. split_and!; [done|done|]. intros o Ho.
      destruct (decide (o = order)) as [->|]; [done|]. apply Hempty. lia.
  - destruct (take_block nr b0 order page rest order (S (Z.to_nat order)))
      as (b' & Hs & H1 & H2 & H3 & H4 & H5 & H6 & H7 & _); [done|lia|lia|done|lia|].
    simpl in Hs. rewrite Z.ltb_irrefl in Hs. injection Hs as <-.
    do 2 eexists. split; [done|]. split; [by apply (wf_same_blocks nr (set_blk b0 order rest))|].
    split; [done|]. simpl. split_and!; done.
Qed.

Lemma free_spec nr b page order :
  wf nr b -> lock b = 1 -> outside nr b page order ->
  exists b', __free_pages b page order = Some b' /\ wf nr b' /\ lock b' = 1 /\
    (forall x, free_in b' x <-> free_in b x \/ page <= x < page + 2 ^ order) /\
    activate b' = activate b.
Proof.
  intros Hwf Hlock Hout. unfold __free_pages. rewrite spin_lock_free by done. simpl.
  destruct (block_insert_spec nr (set_lock b 0) page order) as (b1 & -> & H1 & H2 & H3 & H4).
  - by apply (wf_same_blocks nr b).
  - done.
  - simpl. eexists. split; [done|]. split; [by apply (wf_same_blocks nr b1)|]. done.
Qed.

(** ** Initialisation *)

Section Init.
Context (s : mm_state) (nr : Z) (Hnr : 0 <= nr <= 2 ^ 32).

(** A page that cannot be part of a free block. *)
Definition bad (x : Z) : Prop := reserved s x = true \/ nr <= x.

(** What holds of the blocks built from the pages below [r]: they are well
    formed, they cover the unreserved pages below [r] and none of them could be
    doubled. *)
Record init_inv (r : Z) (b : buddy_struct) : Prop := {
  ii_wf : wf r b;
  ii_free : forall x, free_in b x <-> 0 <= x < r /\ reserved s x = false;
  ii_max : forall o q, 0 <= o < MAX_ORDER - 1 -> q ∈ blk b o -> q mod 2 ^ (o + 1) = 0 ->
    exists x, q <= x < q + 2 ^ (o + 1) /\ bad x }.

Lemma wf_mono r r' b : r <= r' <= 2 ^ 32 -> wf r b -> wf r' b.
Proof.
  intros H [W1 W2 W3 W4 W5 W6]. split; try done; [lia|].
  intros o p Ho Hp. destruct (W4 o p Ho Hp) as (?&?&?). split_and!; [done|done|lia].
Qed.

Lemma init_append l b o :
  init_inv l b -> 0 <= l -> 0 <= o < MAX_ORDER -> l mod 2 ^ o = 0 -> l + 2 ^ o <= nr ->
  (forall x, l <= x < l + 2 ^ o -> reserved s x = false) ->
  (o < MAX_ORDER - 1 -> l mod 2 ^ (o + 1) = 0 -> exists x, l <= x < l + 2 ^ (o + 1) /\ bad x) ->
  init_inv (l + 2 ^ o) (list_add_tail_blk b o l).
Proof.
  intros [Iwf Ifree Imax] Hl Ho Hal Hend Hres Hbad.
  pose proof (pow2_pos o ltac:(lia)).
  assert (Hlt : forall q, q ∈ blk b o -> q + 2 ^ o <= l) by (intros q Hq; by apply (wf_block _ _ Iwf)).
  destruct (wf_insert (l + 2 ^ o) b o (blk b o) [] l) as [Hwf' Hfree'].
  - apply wf_mono with l; [lia|done].
  - by rewrite app_nil_r.
  - split; [done|]. do 2 (split; [done|]). split; [lia|].
    intros x Hx. rewrite Ifree. lia.
  - intros q Hq. apply Hlt in Hq. lia.
  - set_solver.
  - intros _ _ Hq. apply Hlt in Hq. lia.
  - intros H7 Hq Hq2. destruct (Imax o (l - 2 ^ o)) as (x & Hx & Hb); [lia|done|done|].
    pose proof (pow2_S o ltac:(lia)).
    destruct (decide (x < l)) as [Hxl|Hxl].
    + assert (Hf : free_in b x).
      { exists o, (l - 2 ^ o). split; [done|]. split; [done|lia]. }
      apply Ifree in Hf as [_ Hf]. destruct Hb as [Hb|Hb]; [congruence|lia].
    + specialize (Hres x ltac:(lia)). destruct Hb as [Hb|Hb]; [congruence|lia].
  - split; [done| |].
    + intros x. unfold list_add_tail_blk. rewrite Hfree', Ifree. split.
      * intros [[? ?]|Hx]; [split; [lia|done]|split; [lia|by apply Hres]].
      * intros [Hx Hr]. destruct (decide (x < l)); [left; split; [lia|done]|right; lia].
    + intros o' q Ho' Hq Hq2. unfold list_add_tail_blk in Hq.
      rewrite blk_set in Hq; [|by destruct Iwf|done|lia]. case_decide; [subst|by apply Imax].
      apply elem_of_app in Hq as [Hq|Hq]; [by apply Imax|].
      apply list_elem_of_singleton in Hq as ->. apply Hbad; [lia|done].
Qed.

Lemma run_length_spec fuel tl r c lim :
  0 <= c <= lim -> r <= tl -> (Z.to_nat (lim - c) <= fuel)%nat ->
  exists c', run_length fuel s tl r c lim = (c', r + (c' - c)) /\ c <= c' <= lim /\
    r + (c' - c) <= tl /\
    (forall x, r <= x < r + (c' - c) -> reserved s x = false) /\
    (c' < lim -> reserved s (r + (c' - c)) = true \/ r + (c' - c) = tl).
Proof.
  revert r c. induction fuel as [|fuel IH]; intros r c Hc Hr Hf; simpl.
  - exists c. rewrite Z.sub_diag, Z.add_0_r. split; [done|]. split; [lia|]. split; [lia|].
    split; [intros; lia|]. intros; lia.
  - case_if.
    + destruct (IH (r + 1) (c + 1)) as (c' & -> & K1 & K2 & K3 & K4); [lia|lia|lia|].
      exists c'. replace (r + (c' - c)) with (r + 1 + (c' - (c + 1))) by lia.
      split; [done|]. split; [lia|]. split; [done|]. split; [|done].
      intros x Hx. destruct (decide (x = r)) as [->|]; [done|]. apply K3. lia.
    + exists c. rewrite Z.sub_diag, Z.add_0_r. split; [done|]. split; [lia|]. split; [lia|].
      split; [intros; lia|]. intros Hlt.
      destruct E as [E|E]; zbool; [by left|]. destruct E as [E|E]; zbool; [by right|lia].
Qed.

Lemma div_pow2_step c k :
  0 <= k -> c / 2 ^ k = 2 * (c / 2 ^ (k + 1)) + Z.b2z (Z.testbit c k).
Proof.
  intros Hk. rewrite Z.testbit_spec' by done. rewrite Z.pow_add_r, <- Z.div_div by (try lia; apply pow2_pos; lia).
  apply Z_div_mod_eq_full.
Qed.

(** The pieces of an incomplete run [l, l + c), from bit [n] down. *)
Lemma add_pieces_spec n b l c o :
  let lft := l + 2 ^ (Z.of_nat n + 1) * (c / 2 ^ (Z.of_nat n + 1)) in
  init_inv lft b -> 0 <= l -> 0 <= c < 2 ^ o -> Z.of_nat n <= o -> o < MAX_ORDER ->
  l mod 2 ^ o = 0 -> l + c <= nr ->
  (forall x, l <= x < l + c -> reserved s x = false) -> bad (l + c) ->
  init_inv (l + c) (add_pieces n b c lft).
Proof.
  induction n as [|n IH] in b |- *; intros lft Hinv Hl Hc Hn Ho Hal Hend Hres Hb;
    (set (k := Z.of_nat _) in lft); (assert (Hk : 0 <= k <= o) by lia);
    pose proof (div_pow2_step c k ltac:(lia)) as Hstep;
    pose proof (pow2_S k ltac:(lia)) as Hpow; pose proof (pow2_pos k ltac:(lia)) as Hkp;
    pose proof (Z_div_mod_eq_full c (2 ^ (k + 1))) as Hdm;
    pose proof (Z.mod_pos_bound c (2 ^ (k + 1)) ltac:(lia)) as Hmb;
    pose proof (Z_div_mod_eq_full c (2 ^ k)) as Hdm';
    pose proof (Z.mod_pos_bound c (2 ^ k) ltac:(lia)) as Hmb';
    pose proof (Z.div_pos c (2 ^ (k + 1)) ltac:(lia) ltac:(lia)) as Hdp;
    cbn [add_pieces]; fold k; rewrite land_bit, shiftl_1 by lia.
  all: assert (Hset : Z.testbit c k = true -> init_inv (lft + 2 ^ k) (list_add_tail_blk b k lft)).
  all: try (intros Ht; rewrite Ht in Hstep; simpl in Hstep;
    assert (Hko : k < o) by (destruct (decide (k = o)) as [->|]; [|lia];
      rewrite Z.div_small in Hstep by lia; lia);
    assert (Hlal : lft mod 2 ^ (k + 1) = 0) by
      (unfold lft; rewrite Z.mul_comm, Z.mod_add by lia; apply mod_pow2_weaken with o; [lia|done]);
    apply init_append; [done|unfold lft; nia|unfold MAX_ORDER in *; lia|
      apply mod_pow2_weaken with (k + 1); [lia|done]|unfold lft; nia|
      intros x Hx; apply Hres; unfold lft in Hx; nia|
      intros _ _; exists (l + c); split; [unfold lft; nia|done]]).
  - destruct (Z.testbit c k) eqn:Et; simpl in Hstep.
    + replace (l + c) with (lft + 2 ^ k); [by apply Hset|].
      change k with 0 in *. unfold lft. rewrite Z.div_1_r in Hstep. lia.
    + replace (l + c) with lft; [done|]. change k with 0 in *. unfold lft.
      rewrite Z.div_1_r in Hstep. lia.
  - assert (Hk1 : Z.of_nat n + 1 = k) by lia.
    assert (Hnext : forall b, init_inv (l + 2 ^ k * (c / 2 ^ k)) b ->
      init_inv (l + c) (add_pieces n b c (l + 2 ^ k * (c / 2 ^ k)))).
    { intros b' Hb'. specialize (IH b'). rewrite Hk1 in IH. apply IH; try done; lia. }
    destruct (Z.testbit c k) eqn:Et; simpl in Hstep.
    + replace (lft + 2 ^ k) with (l + 2 ^ k * (c / 2 ^ k)) in Hset |- *
        by (unfold lft; rewrite Hstep, Hpow; ring).
      apply Hnext. by apply Hset.
    + replace lft with (l + 2 ^ k * (c / 2 ^ k)) in Hinv |- *
        by (unfold lft; rewrite Hstep, Hpow; ring).
      by apply Hnext.
Qed.
End Init.

Lemma add_pieces_rest n b c l :
  activate (add_pieces n b c l) = activate b /\ lock (add_pieces n b c l) = lock b.
Proof.
  induction n as [|n IH] in b, l |- *; cbn [add_pieces]; case_if; try done;
    by destruct (IH (list_add_tail_blk b (Z.of_nat (S n)) l) (l + Z.shiftl 1 (Z.of_nat (S n)))).
Qed.

Lemma init_loop_spec s nr fuel b r :
  0 <= nr <= 2 ^ 32 -> init_inv s nr r b -> 0 <= r <= nr -> (Z.to_nat (nr - r) < fuel)%nat ->
  exists b', init_loop fuel s b nr r r = Some b' /\ init_inv s nr nr b' /\
    activate b' = activate b /\ lock b' = lock b.
Proof.
  intros Hnr. induction fuel as [|fuel IH] in b, r |- *; intros Hinv Hr Hf; [lia|]. cbn [init_loop].
  destruct (r =? nr) eqn:E; zbool; [subst; by exists b|].
  destruct (reserved s r) eqn:Er.
  { apply IH; [|lia|lia]. destruct Hinv as [I1 I2 I3]. split; [apply wf_mono with r; [lia|done]| |done].
    intros x. rewrite I2. split; [intros [? ?]; split; [lia|done]|].
    intros [? Hx]. split; [|done]. destruct (decide (x = r)) as [->|]; [congruence|lia]. }
  pose proof (check_order_range r) as Hco. set (o := check_order r) in *.
  pose proof (pow2_pos o ltac:(lia)).
  assert (Hal : r mod 2 ^ o = 0).
  { apply Z.eqb_eq. rewrite <- check_order_spec by lia. apply Z.leb_refl. }
  rewrite shiftl_1 by lia.
  destruct (run_length_spec s (Z.to_nat (2 ^ o)) nr r 0 (2 ^ o)) as (c & -> & H1 & H2 & H3 & H4);
    [lia|lia|lia|]. rewrite Z.sub_0_r in *.
  assert (Hpos : 0 < c).
  { destruct (decide (c = 0)) as [->|]; [|lia]. rewrite Z.add_0_r in H4.
    destruct H4 as [?|?]; [lia|congruence|lia]. }
  set (b1 := if c =? 2 ^ o then _ else _).
  assert (Hb1 : init_inv s nr (r + c) b1 /\ activate b1 = activate b /\ lock b1 = lock b).
  { unfold b1. case_if; [split; [|done]|split; [|by apply add_pieces_rest]].
    - subst c. apply init_append; try done; try lia.
      intros H7 Hal'. exfalso.
      assert (Hc : (o + 1 <=? check_order r) = true) by (rewrite check_order_spec by lia; by apply Z.eqb_eq).
      apply Z.leb_le in Hc. fold o in Hc. lia.
    - replace r with (r + 2 ^ (Z.of_nat (Z.to_nat o) + 1) * (c / 2 ^ (Z.of_nat (Z.to_nat o) + 1))) at 2.
      2: { rewrite Z.div_small; [lia|]. rewrite Z2Nat.id, pow2_S by lia. lia. }
      apply add_pieces_spec with o; try done; try lia.
      + rewrite Z.div_small; [by rewrite Z.mul_0_r, Z.add_0_r|]. rewrite Z2Nat.id, pow2_S by lia. lia.
      + destruct H4 as [?|?]; [lia|by left|right; lia]. }
  destruct Hb1 as (Hb1 & Ha & Hlk).
  destruct (IH b1 (r + c)) as (b' & Hrun & Hi & Ha' & Hl'); [done|lia|lia|].
  exists b'. split; [done|]. split; [done|]. split; congruence.
Qed.

Lemma blk_empty lk act o : blk (mk_buddy (replicate (Z.to_nat MAX_ORDER) []) act lk) o = [].
Proof.
  unfold blk. cbn [block].
  match goal with |- default _ ?x = _ => destruct x as [l|] eqn:E; [|done] end.
  by apply lookup_replicate in E as [-> _].
Qed.

Lemma init_inv_0 s nr lk act :
  init_inv s nr 0 (mk_buddy (replicate (Z.to_nat MAX_ORDER) []) act lk).
Proof.
  split.
  - split; [done|lia|intros; rewrite blk_empty; constructor|..];
      intros *; rewrite blk_empty; intros; set_solver.
  - intros x. split; [|lia]. intros (o & p & _ & Hp & _). rewrite blk_empty in Hp. set_solver.
  - intros o q _ Hq. rewrite blk_empty in Hq. set_solver.
Qed.

Lemma buddy_init_spec s nr :
  0 <= nr <= 2 ^ 32 ->
  exists s', buddy_system_init s nr = Some s' /\ mem_map s' = mem_map s /\
    wf nr (buddy s') /\ lock (buddy s') = 1 /\ activate (buddy s') = [] /\
    forall x, free_in (buddy s') x <-> 0 <= x < nr /\ reserved s x = false.
Proof.
  intros Hnr. unfold buddy_system_init, spin_init, set_lock. cbn [block activate].
  destruct (init_loop_spec s nr (S (Z.to_nat nr))
    (mk_buddy (replicate (Z.to_nat MAX_ORDER) []) [] 1) 0) as (b' & -> & [I1 I2 I3] & Ha & Hl);
    [done|apply init_inv_0|lia|lia|]. some_bind.
  eexists. split; [done|]. split_and!; done.
Qed.

(** ** The allocator with its clients

    [own] records the blocks handed out and not yet returned, with their orders;
    the code keeps only their first pages, in [buddy.activate]. *)

Record mm_wf (nr : Z) (s : mm_state) (own : gmap Z Z) : Prop := {
  mw_nr : nr * PAGE_SIZE <= 2 ^ 47;
  mw_virtual : forall p, 0 <= p < nr -> exists pg, page_at s p = Some pg /\ virtual pg = to_vir (p * PAGE_SIZE);
  mw_wf : wf nr (buddy s);
  mw_lock : lock (buddy s) = 1;
  mw_zero : ~ free_in (buddy s) 0;
  mw_nodup : NoDup (activate (buddy s));
  mw_active : forall p, p ∈ activate (buddy s) <-> is_Some (own !! p);
  mw_own : forall p o, own !! p = Some o -> 0 < p /\ outside nr (buddy s) p o;
  mw_disjoint : forall p o p' o' x, own !! p = Some o -> own !! p' = Some o' ->
    p <= x < p + 2 ^ o -> p' <= x < p' + 2 ^ o' -> p = p' }.

Lemma page_at_set s p pg q :
  0 <= p -> 0 <= q -> is_Some (page_at s p) ->
  page_at (set_page s p pg) q = if decide (p = q) then Some pg else page_at s q.
Proof.
  intros Hp Hq [x Hx]. unfold page_at, set_page in *. simpl. case_decide.
  - subst. apply list_lookup_insert_eq. by apply lookup_lt_Some in Hx.
  - apply list_lookup_insert_ne. intros ?%Z2Nat.inj; lia.
Qed.

Lemma mm_alloc nr s own g order :
  mm_wf nr s own -> 0 <= order ->
  exists r s', alloc_pages s g order = Some (r, s') /\
    alloc_result nr (buddy s) order r (buddy s') /\
    match r with
    | Some p =>
        own !! p = None /\ mm_wf nr s' (<[p := order]> own) /\
        (forall q o x, own !! q = Some o -> q <= x < q + 2 ^ o -> ~ (p <= x < p + 2 ^ order))
    | None => mm_wf nr s' own
    end.
Proof.
  intros Hmm Hord. unfold alloc_pages.
  destruct (alloc_spec nr (buddy s) order) as (r & b' & -> & Hwf' & Hlk' & Hres);
    [by destruct Hmm|by destruct Hmm|done|]. some_bind.
  destruct r as [p|]; simpl in Hres.
  - destruct Hres as (Ho & Hp0 & Hal & Hend & Hfree & Hiff & Hact).
    destruct (mw_virtual _ _ _ Hmm p) as (pg & Hpg & Hv).
    { pose proof (pow2_pos order Hord). lia. }
    change (page_at (set_buddy s b') p) with (page_at s p). rewrite Hpg. some_bind.
    pose proof (pow2_pos order Hord) as H2.
    assert (Hpp : 0 < p).
    { destruct (decide (p = 0)) as [->|]; [|lia]. destruct (mw_zero _ _ _ Hmm). apply Hfree. lia. }
    assert (Hown : forall q o x, own !! q = Some o -> q <= x < q + 2 ^ o -> ~ (p <= x < p + 2 ^ order)).
    { intros q o x Hq Hx Hx'. destruct (mw_own _ _ _ Hmm q o Hq) as [_ (_&_&_&_&Hd)].
      apply (Hd x Hx). by apply Hfree. }
    assert (Hnone : own !! p = None).
    { destruct (own !! p) as [o|] eqn:E; [|done]. destruct (mw_own _ _ _ Hmm p o E) as [_ (Ho'&_)].
      pose proof (pow2_pos o ltac:(lia)). exfalso. apply (Hown p o p E); lia. }
    do 2 eexists. split; [done|]. split; [simpl; by split_and!|]. split; [done|]. split; [|done].
    destruct Hmm as [M1 M2 M3 M4 M5 M6 M7 M8 M9]. split; try done.
    + intros q Hq. rewrite page_at_set; [|lia|lia|by eexists].
      case_decide; [subst; by eexists|by apply M2].
    + simpl. rewrite Hiff. tauto.
    + simpl. rewrite Hact. apply NoDup_cons. split; [|done]. rewrite M7, Hnone. by intros [? ?].
    + intros q. simpl. rewrite Hact, elem_of_cons, M7, lookup_insert. case_decide; naive_solver.
    + intros q o [[<- <-]|[Hne Hq]]%lookup_insert_Some; simpl.
      * split; [done|]. split; [done|]. do 3 (split; [done|]). intros x Hx. rewrite Hiff. tauto.
      * destruct (M8 q o Hq) as (?&?&?&?&?&Hd). split; [done|]. do 4 (split; [done|]).
        intros x Hx. rewrite Hiff. intros [Hf _]. by apply (Hd x).
    + intros q o q' o' x [[<- <-]|[Hne Hq]]%lookup_insert_Some [[<- <-]|[Hne' Hq']]%lookup_insert_Some Hx Hx'.
      * done.
      * by destruct (Hown _ _ _ Hq' Hx').
      * by destruct (Hown _ _ _ Hq Hx).
      * eauto.
  - destruct Hres as (Hiff & Hact & Hempty).
    do 2 eexists. split; [done|]. split; [by split_and!|].
    destruct Hmm as [M1 M2 M3 M4 M5 M6 M7 M8 M9]. split; simpl; try done.
    + by rewrite Hiff.
    + by rewrite Hact.
    + by rewrite Hact.
    + intros q o Hq. destruct (M8 q o Hq) as (?&?&?&?&?&Hd). split; [done|]. do 4 (split; [done|]).
      intros x Hx. rewrite Hiff. by apply Hd.
Qed.

Lemma page_virtual_inj nr p q :
  nr * PAGE_SIZE <= 2 ^ 47 -> 0 <= p < nr -> 0 <= q < nr ->
  to_vir (p * PAGE_SIZE) = to_vir (q * PAGE_SIZE) -> p = q.
Proof.
  intros Hnr Hp Hq H. unfold PAGE_SIZE in *. rewrite !to_vir_low in H by lia. lia.
Qed.

Lemma page_lower_align_virtual nr p :
  nr * PAGE_SIZE <= 2 ^ 47 -> 0 <= p < nr ->
  PAGE_LOWER_ALIGN (to_vir (p * PAGE_SIZE)) = to_vir (p * PAGE_SIZE) /\ to_vir (p * PAGE_SIZE) <> 0.
Proof.
  intros Hnr Hp. unfold PAGE_LOWER_ALIGN, lower_div, PAGE_SIZE, KERNEL_OFFSET in *.
  rewrite to_vir_low by lia. unfold KERNEL_OFFSET. split; [|lia].
  replace ((p * 4096 + 0xffff800000000000) / 4096 * 4096) with (p * 4096 + 0xffff800000000000).
  - apply u64_small. lia.
  - replace 0xffff800000000000 with (0xffff800000000 * 4096) at 2 by lia.
    rewrite <- Z.mul_add_distr_r, Z.div_mul by lia. lia.
Qed.

Lemma find_active_spec nr s own p l :
  mm_wf nr s own -> 0 <= p < nr -> p ∈ l -> NoDup l -> (forall q, q ∈ l -> 0 <= q < nr) ->
  exists a c, l = a ++ p :: c /\ find_active s (to_vir (p * PAGE_SIZE)) l = Some (Some p, a ++ c).
Proof.
  intros Hmm Hp. induction l as [|q l IH]; [set_solver|]. intros Hin Hnd Hl.
  cbn [find_active]. destruct (mw_virtual _ _ _ Hmm q) as (pg & Hpg & Hv); [apply Hl; set_solver|].
  rewrite Hpg. some_bind. rewrite Hv.
  apply NoDup_cons in Hnd as [Hq Hnd]. case_if.
  - apply (page_virtual_inj nr) in E; [|by destruct Hmm|apply Hl; set_solver|done]. subst q.
    by exists [], l.
  - destruct IH as (a & c & -> & ->); [|done|set_solver|].
    { apply elem_of_cons in Hin as [->|?]; [done|done]. }
    exists (q :: a), c. done.
Qed.

Lemma mm_free nr s own p o :
  mm_wf nr s own -> own !! p = Some o ->
  exists s', free_pages s (to_vir (p * PAGE_SIZE)) o = Some s' /\
    mm_wf nr s' (delete p own) /\ mem_map s' = mem_map s /\
    forall x, free_in (buddy s') x <-> free_in (buddy s) x \/ p <= x < p + 2 ^ o.
Proof.
  intros Hmm Hp. destruct (mw_own _ _ _ Hmm p o Hp) as [Hp0 Hout].
  pose proof Hout as (Ho & _ & Hal & Hend & Hdis). pose proof (pow2_pos o ltac:(lia)) as H2.
  pose proof (mw_nr _ _ _ Hmm) as Hnr.
  destruct (page_lower_align_virtual nr p Hnr) as [Hla Hnz]; [lia|].
  unfold free_pages. rewrite (proj2 (Z.eqb_neq _ _) Hnz), Hla.
  rewrite spin_lock_free by (by destruct Hmm). some_bind. change (activate (set_lock (buddy s) 0)) with (activate (buddy s)).
  destruct (find_active_spec nr s own p (activate (buddy s))) as (a & c & Hact & Hfind);
    [done|lia|apply (mw_active _ _ _ Hmm); by eexists|by destruct Hmm| |].
  { intros q Hq. apply (mw_active _ _ _ Hmm) in Hq as [o' Hq].
    destruct (mw_own _ _ _ Hmm q o' Hq) as [? (?&?&?&?&?)]. pose proof (pow2_pos o' ltac:(lia)). lia. }
  rewrite Hfind. some_bind. simpl fst. simpl snd. cbv iota.
  set (b1 := spin_unlock _).
  assert (Hw1 : wf nr b1) by (apply (wf_same_blocks nr (buddy s)); [done|by destruct Hmm]).
  destruct (free_spec nr b1 p o Hw1) as (b' & -> & Hwf' & Hlk' & Hiff & Hact'); [done|done|]. some_bind.
  assert (Hiff' : forall x, free_in b' x <-> free_in (buddy s) x \/ p <= x < p + 2 ^ o) by done.
  eexists. split; [done|]. split; [|done].
  destruct Hmm as [M1 M2 M3 M4 M5 M6 M7 M8 M9].
  assert (Hnd : (p ∉ a ++ c) /\ NoDup (a ++ c)).
  { rewrite Hact in M6. apply NoDup_app in M6 as (N1 & N2 & N3). apply NoDup_cons in N3 as [N3 N4].
    split; [set_solver|]. apply NoDup_app. split_and!; [done|set_solver|done]. }
  split; simpl; try done.
  - rewrite Hiff'. intros [?|?]; [done|lia].
  - rewrite Hact'. apply Hnd.
  - intros q. rewrite Hact'. simpl. destruct (decide (q = p)) as [->|Hne].
    + rewrite lookup_delete_eq. split; [by intros ?%Hnd|by intros [? ?]].
    + rewrite lookup_delete_ne by done. rewrite <- M7, Hact. set_solver.
  - intros q o' [Hne Hq]%lookup_delete_Some. destruct (M8 q o' Hq) as (?&?&?&?&?&Hd).
    split; [done|]. do 4 (split; [done|]). intros x Hx. rewrite Hiff'.
    intros [Hf|Hf]; [by apply (Hd x)|]. apply Hne. by eapply (M9 p o q o' x).
  - intros q o1 q' o2 x [Hne Hq]%lookup_delete_Some [Hne' Hq']%lookup_delete_Some. by apply M9.
Qed.

(** The state [buddy_system_init] leaves, with nothing allocated. *)
Lemma mm_wf_boot s nr :
  0 <= nr <= 2 ^ 32 -> nr * PAGE_SIZE <= 2 ^ 47 ->
  (forall p, 0 <= p < nr -> exists pg, page_at s p = Some pg /\ virtual pg = to_vir (p * PAGE_SIZE)) ->
  reserved s 0 = true ->
  exists s', buddy_system_init s nr = Some s' /\ mm_wf nr s' ∅.
Proof.
  intros H1 H2 H3 H4. destruct (buddy_init_spec s nr H1) as (s' & -> & Hm & Hwf & Hl & Ha & Hf).
  exists s'. split; [done|]. split; try done.
  - intros p Hp. unfold page_at. rewrite Hm. by apply H3.
  - rewrite Hf. intros [_ ?]. congruence.
  - rewrite Ha. constructor.
  - intros p. rewrite Ha, lookup_empty. split; [set_solver|by intros [? ?]].
Qed.

(** C3: [buddy_system_init] terminates on every [mem_map] and builds free lists
    that are aligned, sorted, disjoint and maximally coalesced, and that cover
    exactly the pages not marked [PF_RESERVE]. *)
Theorem buddy_system_init_correct s nr :
  0 <= nr <= 2 ^ 32 ->
  exists s', buddy_system_init s nr = Some s' /\ mem_map s' = mem_map s /\
    wf nr (buddy s') /\ lock (buddy s') = 1 /\ activate (buddy s') = [] /\
    forall x, free_in (buddy s') x <-> 0 <= x < nr /\ reserved s x = false.
Proof. apply buddy_init_spec. Qed.

(** C4: the page allocator.  [alloc_pages] keeps the allocator's invariant and releases its
    lock on every path.  A block it returns is aligned, was entirely free, leaves the free
    set and shares no page with any block still allocated; it fails only when no list of
    the requested order or above holds a block.  [free_pages], given the address and the
    order of an allocated block, finds the block, gives back exactly its pages and merges
    it with its free buddies as far as possible: the invariant, and with it maximal
    coalescing, holds again and the lock is free. *)
Theorem page_allocator_correct nr s own :
  mm_wf nr s own ->
  (forall gfp_mask order, 0 <= order ->
    exists r s', alloc_pages s gfp_mask order = Some (r, s') /\
      alloc_result nr (buddy s) order r (buddy s') /\
      match r with
      | Some p =>
          own !! p = None /\ mm_wf nr s' (<[p := order]> own) /\
          (forall q o x, own !! q = Some o -> q <= x < q + 2 ^ o -> ~ (p <= x < p + 2 ^ order))
      | None => mm_wf nr s' own
      end) /\
  (forall p o, own !! p = Some o ->
    exists s', free_pages s (to_vir (p * PAGE_SIZE)) o = Some s' /\
      mm_wf nr s' (delete p own) /\ mem_map s' = mem_map s /\
      forall x, free_in (buddy s') x <-> free_in (buddy s) x \/ p <= x < p + 2 ^ o).
Proof. intros H. split; [intros gfp_mask order; by apply mm_alloc|intros p o; by apply mm_free]. Qed.

(** [__get_free_pages] followed by [free_pages] of the address it returned
    gives back exactly the free set there was before. *)
Theorem alloc_free_roundtrip nr s own gfp_mask order :
  mm_wf nr s own -> 0 <= order ->
  exists addr s1, __get_free_pages s gfp_mask order = Some (addr, s1) /\
    exists s2, free_pages s1 addr order = Some s2 /\ mm_wf nr s2 own /\
      forall x, free_in (buddy s2) x <-> free_in (buddy s) x.
Proof.
  intros Hmm Hord. unfold __get_free_pages.
  destruct (mm_alloc nr s own gfp_mask order Hmm Hord) as (r & s1 & -> & Hres & Hr). some_bind.
  destruct r as [p|]; simpl in Hres.
  - destruct Hr as (Hnone & Hmm1 & _). destruct Hres as (Ho & Hp0 & Hal & Hend & Hin & Hiff & _).
    pose proof (pow2_pos order Hord).
    destruct (mw_virtual _ _ _ Hmm1 p) as (pg & -> & Hv); [lia|]. some_bind.
    do 2 eexists. split; [done|]. rewrite Hv.
    destruct (mm_free nr s1 (<[p := order]> own) p order Hmm1) as (s2 & -> & Hmm2 & _ & Hiff2);
      [apply lookup_insert_eq|].
    eexists. split; [done|]. rewrite delete_insert_id in Hmm2 by done. split; [done|].
    intros x. rewrite Hiff2, Hiff. destruct (decide (p <= x < p + 2 ^ order)); [|tauto].
    split; [|tauto]. intros _. by apply Hin.
  - do 2 eexists. split; [done|]. exists s1. split; [done|]. split; [done|]. by apply Hres.
Qed.

(** ** Witnesses: eight pages, page 0 reserved *)

Definition pages8 : list page :=
  (fun i => mk_page (if i =? 0 then PF_RESERVE else 0) 0 0 (to_vir (i * PAGE_SIZE))) <$> seqZ 0 8.
Definition boot8 : mm_state := mk_mm pages8 (mk_buddy [] [] 0).
Definition ready8 : mm_state :=
  mk_mm pages8 (mk_buddy [[1]; [2]; [4]; []; []; []; []; []] [] 1).

Lemma page_at8 (m : mm_state) : mem_map m = pages8 ->
  forall p, 0 <= p < 8 -> exists pg, page_at m p = Some pg /\ virtual pg = to_vir (p * PAGE_SIZE).
Proof.
  intros Hm p Hp. unfold page_at. rewrite Hm.
  assert (Hc : p = 0 \/ p = 1 \/ p = 2 \/ p = 3 \/ p = 4 \/ p = 5 \/ p = 6 \/ p = 7) by lia.
  repeat destruct Hc as [->|Hc]; [..|subst p]; (eexists; split; reflexivity).
Defined.

Lemma mm_wf_ready8 : mm_wf 8 ready8 ∅.
Proof.
  destruct (mm_wf_boot boot8 8) as (s' & Hs & Hw); [lia|unfold PAGE_SIZE; lia|by apply page_at8|done|].
  assert (Hr : buddy_system_init boot8 8 = Some ready8) by (vm_compute; reflexivity).
  rewrite Hr in Hs. injection Hs as <-. exact Hw.
Defined.

Lemma buddy_system_init_correct_witness :
  exists s', buddy_system_init boot8 8 = Some s' /\ free_in (buddy s') 5 /\ ~ free_in (buddy s') 0.
Proof.
  destruct (buddy_system_init_correct boot8 8) as (s' & H & _ & _ & _ & _ & Hf); [lia|].
  exists s'. split; [exact H|]. rewrite !Hf. split; [split; [lia|reflexivity]|].
  intros [_ Hr]. discriminate Hr.
Defined.

Lemma page_allocator_correct_witness :
  exists s s', alloc_pages ready8 1 1 = Some (Some 2, s) /\ mm_wf 8 s {[2 := 1]} /\
    free_pages s (to_vir (2 * PAGE_SIZE)) 1 = Some s' /\ free_in (buddy s') 3.
Proof.
  destruct (proj1 (page_allocator_correct 8 ready8 ∅ mm_wf_ready8) 1 1) as (r & s & Hs & _ & Hw); [lia|].
  assert (Hc : option_map fst (alloc_pages ready8 1 1) = Some (Some 2)) by (vm_compute; reflexivity).
  rewrite Hs in Hc. injection Hc as ->. destruct Hw as (_ & Hw & _).
  destruct (proj2 (page_allocator_correct 8 s {[2 := 1]} Hw) 2 1) as (s' & H1 & _ & _ & H2); [reflexivity|].
  exists s, s'. split; [exact Hs|]. split; [exact Hw|]. split; [exact H1|]. apply H2. right. lia.
Defined.

Lemma alloc_free_roundtrip_witness :
  exists addr s1 s2, __get_free_pages ready8 1 1 = Some (addr, s1) /\
    free_pages s1 addr 1 = Some s2 /\ mm_wf 8 s2 ∅.
Proof.
  destruct (alloc_free_roundtrip 8 ready8 ∅ 1 1 mm_wf_ready8) as (addr & s1 & H1 & s2 & H2 & H3 & _); [lia|].
  exists addr, s1, s2. split; [exact H1|]. split; [exact H2|exact H3].
Defined.
