(* ===== verification/PageIface.v ===== *)
(** * What the page allocator promises to its clients

    The class [PageAllocator] is the part of [mm/buddy.c] that the slab
    allocator and the page tables use: blocks of [2^order] pages by kernel
    address, the [slab] field of their [struct page], and the laws these calls
    obey for the blocks [own] handed out.  The instance [buddy_allocator] is the
    buddy system of [Buddy]; the clients' theorems are proved against the class. *)

From S2P Require Import Prelude Buddy.

(** [x] is an address inside the block of [2^order] pages at [addr]. *)
Definition in_block (addr order x : Z) : Prop := addr <= x < addr + PAGE_SIZE * 2 ^ order.

(** A block of [2^order] pages that the kernel map covers. *)
Definition kernel_block (addr order : Z) : Prop :=
  0 <= order < MAX_ORDER /\ KERNEL_OFFSET < addr /\ addr mod PAGE_SIZE = 0 /\
  addr + PAGE_SIZE * 2 ^ order <= 2 ^ 64.

(** The block at [addr] shares no byte with the blocks of [own]. *)
Definition fresh_block (own : gmap Z Z) (addr order : Z) : Prop :=
  forall a o x, own !! a = Some o -> in_block a o x -> ~ in_block addr order x.

Class PageAllocator (S : Type) := {
  (** [__get_free_pages(GFP_KERNEL, order)] and [free_pages(addr, order)] *)
  pa_alloc : S -> Z -> option (Z * S);
  pa_free : S -> Z -> Z -> option S;
  (** [page[i].slab = cachep] for the pages of a block, and
      [mem_map[to_phy(addr) / PAGE_SIZE].slab] *)
  pa_set_slab : S -> Z -> Z -> Z -> S;
  pa_slab_of : S -> Z -> option Z;
  pa_inv : S -> gmap Z Z -> Prop;
  pa_inv_blocks : forall s own a o, pa_inv s own -> own !! a = Some o -> kernel_block a o;
  pa_inv_disjoint : forall s own a o a' o' x, pa_inv s own ->
    own !! a = Some o -> own !! a' = Some o' -> in_block a o x -> in_block a' o' x -> a = a';
  pa_alloc_ok : forall s own order, pa_inv s own -> 0 <= order < MAX_ORDER ->
    exists addr s', pa_alloc s order = Some (addr, s') /\
      (forall x, pa_slab_of s' x = pa_slab_of s x) /\
      ((addr = 0 /\ pa_inv s' own) \/
       (kernel_block addr order /\ fresh_block own addr order /\ own !! addr = None /\
        pa_inv s' (<[addr := order]> own)));
  pa_free_ok : forall s own addr order, pa_inv s own -> own !! addr = Some order ->
    exists s', pa_free s addr order = Some s' /\ pa_inv s' (delete addr own) /\
      (forall x, pa_slab_of s' x = pa_slab_of s x);
  pa_set_slab_inv : forall s own addr order c, pa_inv s own -> own !! addr = Some order ->
    pa_inv (pa_set_slab s addr order c) own;
  pa_set_slab_in : forall s own addr order c x, pa_inv s own -> own !! addr = Some order ->
    in_block addr order x -> pa_slab_of (pa_set_slab s addr order c) x = Some c;
  pa_set_slab_out : forall s own addr order c x, pa_inv s own -> own !! addr = Some order ->
    0 <= x < 2 ^ 64 -> ~ in_block addr order x ->
    pa_slab_of (pa_set_slab s addr order c) x = pa_slab_of s x }.

(** ** The buddy system as a page allocator *)

Definition GFP_KERNEL : Z := Z.shiftl 1 0.

(** The page of a kernel address: [to_phy(addr) / PAGE_SIZE]. *)
Definition page_of (addr : Z) : Z := to_phy addr / PAGE_SIZE.

Definition with_slab (c : Z) (pg : page) : page :=
  mk_page (flags pg) (_count pg) c (virtual pg).

(** [for (i = 0; i < (1 << order); i++) page[i].slab = cachep] *)
Fixpoint set_slab_pages (n : nat) (s : mm_state) (p c : Z) : mm_state :=
  match n with
  | O => s
  | S n =>
      let s := set_slab_pages n s p c in
      match page_at s (p + Z.of_nat n) with
      | Some pg => set_page s (p + Z.of_nat n) (with_slab c pg)
      | None => s
      end
  end.

Definition buddy_set_slab (s : mm_state) (addr order c : Z) : mm_state :=
  set_slab_pages (Z.to_nat (2 ^ order)) s (page_of addr) c.

Definition buddy_slab_of (s : mm_state) (addr : Z) : option Z :=
  slab <$> page_at s (page_of addr).

(** The blocks by kernel address instead of page index. *)
Definition buddy_inv (nr : Z) (s : mm_state) (own : gmap Z Z) : Prop :=
  exists ownp, mm_wf nr s ownp /\
    forall a o, own !! a = Some o <-> exists p, a = to_vir (p * PAGE_SIZE) /\ ownp !! p = Some o.

Section BuddyInstance.
Context (nr : Z).

Lemma owned_page s ownp p o :
  mm_wf nr s ownp -> ownp !! p = Some o ->
  0 <= o < MAX_ORDER /\ 0 < p /\ p + 2 ^ o <= nr /\ nr * PAGE_SIZE <= 2 ^ 47 /\ 0 < 2 ^ o.
Proof.
  intros Hw Hp. destruct (mw_own _ _ _ Hw p o Hp) as [? (Ho & _ & _ & ? & _)].
  pose proof (mw_nr _ _ _ Hw). pose proof (pow2_pos o ltac:(lia)). split_and!; (lia || done).
Qed.

Lemma page_of_in p o x :
  0 < p -> 0 < 2 ^ o -> (p + 2 ^ o) * PAGE_SIZE <= 2 ^ 47 -> 0 <= x < 2 ^ 64 ->
  in_block (to_vir (p * PAGE_SIZE)) o x <-> p <= page_of x < p + 2 ^ o.
Proof.
  intros Hp Ho Hb Hx. unfold in_block, page_of, PAGE_SIZE in *.
  rewrite to_vir_low by lia. unfold to_phy, u64, uwrap.
  pose proof (Z.div_mod (x - KERNEL_OFFSET) (2 ^ 64) ltac:(lia)) as Hq.
  pose proof (Z.mod_pos_bound (x - KERNEL_OFFSET) (2 ^ 64) ltac:(lia)) as Hr.
  set (r := (x - KERNEL_OFFSET) mod 2 ^ 64) in *.
  set (q := (x - KERNEL_OFFSET) / 2 ^ 64) in *.
  pose proof (Z.div_mod r 4096 ltac:(lia)). pose proof (Z.mod_pos_bound r 4096 ltac:(lia)).
  unfold KERNEL_OFFSET in *. assert (q = 0 \/ q = -1) as [Hq0|Hq0] by lia; rewrite Hq0 in Hq; lia.
Qed.

Lemma kernel_block_owned s ownp p o :
  mm_wf nr s ownp -> ownp !! p = Some o -> kernel_block (to_vir (p * PAGE_SIZE)) o.
Proof.
  intros Hw Hp. destruct (owned_page s ownp p o Hw Hp) as (?&?&?&?&?).
  unfold kernel_block, PAGE_SIZE in *. rewrite to_vir_low by lia.
  split; [done|]. split; [lia|]. split; [|unfold KERNEL_OFFSET; lia].
  rewrite Z.add_comm, Z.mod_add by lia. reflexivity.
Qed.

Lemma set_slab_pages_at n s p c q :
  0 <= p -> 0 <= q -> (forall k, p <= k < p + Z.of_nat n -> is_Some (page_at s k)) ->
  page_at (set_slab_pages n s p c) q =
    if decide (p <= q < p + Z.of_nat n) then with_slab c <$> page_at s q else page_at s q.
Proof.
  intros Hp. revert q. induction n as [|n IH]; intros q Hq Hs; cbn [set_slab_pages].
  - by rewrite decide_False by lia.
  - assert (IHn : forall q, 0 <= q -> _) by exact (fun q Hq => IH q Hq ltac:(intros; apply Hs; lia)).
    destruct (Hs (p + Z.of_nat n) ltac:(lia)) as [pg Hpg].
    assert (Hn := IHn (p + Z.of_nat n) ltac:(lia)). rewrite decide_False in Hn by lia.
    rewrite Hn, Hpg. rewrite page_at_set; [|lia|lia|rewrite Hn, Hpg; by eexists].
    destruct (decide (p + Z.of_nat n = q)) as [<-|Hne].
    + rewrite decide_True by lia. by rewrite Hpg.
    + rewrite IHn by done. repeat case_decide; done || lia.
Qed.

Lemma buddy_set_slab_at s ownp p o c q :
  mm_wf nr s ownp -> ownp !! p = Some o -> 0 <= q ->
  page_at (buddy_set_slab s (to_vir (p * PAGE_SIZE)) o c) q =
    if decide (p <= q < p + 2 ^ o) then with_slab c <$> page_at s q else page_at s q.
Proof.
  intros Hw Hp Hq. destruct (owned_page s ownp p o Hw Hp) as (Ho&Hp0&Hend&Hnr&H2).
  unfold buddy_set_slab, page_of, PAGE_SIZE in *. rewrite to_phy_to_vir by lia. rewrite Z.div_mul by lia.
  rewrite set_slab_pages_at; [|lia|done|].
  - by rewrite Z2Nat.id by lia.
  - intros k Hk. destruct (mw_virtual _ _ _ Hw k) as (pg & -> & _); [lia|by eexists].
Qed.

Lemma set_slab_pages_buddy n s p c : buddy (set_slab_pages n s p c) = buddy s.
Proof. induction n as [|n IH]; [done|]. cbn [set_slab_pages]. by destruct (page_at _ _). Qed.

Lemma mm_wf_set_slab s ownp p o c :
  mm_wf nr s ownp -> ownp !! p = Some o ->
  mm_wf nr (buddy_set_slab s (to_vir (p * PAGE_SIZE)) o c) ownp.
Proof.
  intros Hw Hp. pose proof (buddy_set_slab_at s ownp p o c) as Hat.
  destruct Hw as [M1 M2 M3 M4 M5 M6 M7 M8 M9] eqn:E.
  split; try (rewrite (set_slab_pages_buddy _ _ _ _ : buddy (buddy_set_slab _ _ _ _) = _)); try done.
  intros q Hq. rewrite (Hat q Hw Hp) by lia. destruct (M2 q Hq) as (pg & -> & Hv).
  case_decide; by eexists.
Qed.

Lemma own_lookup (own ownp : gmap Z Z) p :
  (forall a o, own !! a = Some o <-> exists p, a = to_vir (p * PAGE_SIZE) /\ ownp !! p = Some o) ->
  (forall q o, ownp !! q = Some o -> 0 < q < nr) -> nr * PAGE_SIZE <= 2 ^ 47 -> 0 < p < nr ->
  own !! (to_vir (p * PAGE_SIZE)) = ownp !! p.
Proof.
  intros Hiff Hr Hnr Hp. apply option_eq. intros o. rewrite Hiff. split; [|by exists p].
  intros (q & Hq & Ho). pose proof (Hr q o Ho).
  apply (page_virtual_inj nr) in Hq; [by subst|done|lia|lia].
Qed.

Lemma buddy_inv_range s ownp :
  mm_wf nr s ownp -> forall q o, ownp !! q = Some o -> 0 < q < nr.
Proof. intros Hw q o Hq. destruct (owned_page s ownp q o Hw Hq) as (?&?&?&?&?). lia. Qed.

Lemma slab_of_same s s' x :
  (forall p, 0 <= p -> slab <$> page_at s' p = slab <$> page_at s p) ->
  buddy_slab_of s' x = buddy_slab_of s x.
Proof.
  intros H. unfold buddy_slab_of. apply H. unfold page_of, to_phy.
  apply Z.div_pos; [apply uwrap_range; lia|unfold PAGE_SIZE; lia].
Qed.

Lemma alloc_keeps_slab s own g order r s' :
  mm_wf nr s own -> alloc_pages s g order = Some (r, s') ->
  forall p, 0 <= p -> slab <$> page_at s' p = slab <$> page_at s p.
Proof.
  intros Hw. unfold alloc_pages.
  destruct (__alloc_pages (buddy s) order) as [[[q|] b]|]; [|intros [= <- <-]; done|done].
  simpl. destruct (page_at (set_buddy s b) q) as [pg|] eqn:E; [|done]. simpl.
  intros [= <- <-] p Hp. unfold page_at, set_page, set_buddy in *. simpl in *.
  destruct (decide (Z.to_nat q = Z.to_nat p)) as [Heq|Hne].
  - rewrite Heq, list_lookup_insert_eq by (rewrite <- Heq; by apply lookup_lt_Some in E).
    rewrite <- Heq, E. done.
  - by rewrite list_lookup_insert_ne.
Qed.

Lemma buddy_alloc_ok s own order :
  buddy_inv nr s own -> 0 <= order < MAX_ORDER ->
  exists addr s', __get_free_pages s GFP_KERNEL order = Some (addr, s') /\
    (forall x, buddy_slab_of s' x = buddy_slab_of s x) /\
    ((addr = 0 /\ buddy_inv nr s' own) \/
     (kernel_block addr order /\ fresh_block own addr order /\ own !! addr = None /\
      buddy_inv nr s' (<[addr := order]> own))).
Proof.
  intros (ownp & Hw & Hiff) Ho. unfold __get_free_pages.
  destruct (mm_alloc nr s ownp GFP_KERNEL order Hw) as (r & s' & Ha & Hres & Hr); [lia|].
  pose proof (alloc_keeps_slab _ _ _ _ _ _ Hw Ha) as Hslab. rewrite Ha. some_bind.
  destruct r as [p|].
  2: { exists 0, s'. split; [done|]. split; [intros x; by apply slab_of_same|].
       left. split; [done|]. by exists ownp. }
  destruct Hr as (Hnone & Hw' & Hdis).
  assert (Hp : <[p := order]> ownp !! p = Some order) by apply lookup_insert_eq.
  destruct (owned_page s' _ p order Hw' Hp) as (_&Hp0&Hend&Hnr&H2).
  destruct (mw_virtual _ _ _ Hw' p) as (pg & -> & Hv); [lia|]. some_bind. rewrite Hv.
  assert (Hlook := own_lookup own ownp p Hiff (buddy_inv_range s ownp Hw) Hnr ltac:(lia)).
  exists (to_vir (p * PAGE_SIZE)), s'. split; [done|]. split; [intros x; by apply slab_of_same|].
  right. split; [by apply (kernel_block_owned s' (<[p := order]> ownp))|]. split; [|split; [congruence|]].
  - intros a o x Ha' Hx Hx'. apply Hiff in Ha' as (q & -> & Hq).
    destruct (owned_page s ownp q o Hw Hq) as (_&?&?&_&?). unfold PAGE_SIZE in *.
    assert (Hxr : 0 <= x < 2 ^ 64).
    { unfold in_block, PAGE_SIZE in Hx. rewrite to_vir_low in Hx by lia. unfold KERNEL_OFFSET in Hx. lia. }
    apply page_of_in in Hx; [|lia|lia|unfold PAGE_SIZE; lia|done].
    apply page_of_in in Hx'; [|lia|lia|unfold PAGE_SIZE; lia|done].
    by apply (Hdis q o (page_of x)).
  - exists (<[p := order]> ownp). split; [done|]. intros a o. rewrite lookup_insert_Some, Hiff. split.
    + intros [[<- <-]|[Hne (q & -> & Hq)]]; [by exists p|].
      exists q. split; [done|]. rewrite lookup_insert_ne; [done|]. intros ->. done.
    + intros (q & -> & [[<- <-]|[Hne Hq]]%lookup_insert_Some); [by left|].
      right. split; [|by exists q]. intros E. pose proof (buddy_inv_range s ownp Hw q o Hq).
      apply (page_virtual_inj nr) in E; [done|done|lia|lia].
Qed.

Lemma buddy_free_ok s own addr order :
  buddy_inv nr s own -> own !! addr = Some order ->
  exists s', free_pages s addr order = Some s' /\ buddy_inv nr s' (delete addr own) /\
    (forall x, buddy_slab_of s' x = buddy_slab_of s x).
Proof.
  intros (ownp & Hw & Hiff) Ha. apply Hiff in Ha as (p & -> & Hp).
  destruct (mm_free nr s ownp p order Hw Hp) as (s' & -> & Hw' & Hm & _).
  exists s'. split; [done|]. split.
  - exists (delete p ownp). split; [done|]. intros a o. rewrite lookup_delete_Some, Hiff.
    setoid_rewrite lookup_delete_Some. split.
    + intros [Hne (q & -> & Hq)]. exists q. split; [done|]. split; [|done]. by intros ->.
    + intros (q & -> & Hne & Hq). split; [|by exists q]. intros E.
      destruct (owned_page s ownp p order Hw Hp) as (_&?&?&?&?).
      pose proof (buddy_inv_range s ownp Hw q o Hq).
      apply (page_virtual_inj nr) in E; [done|done|lia|lia].
  - intros x. apply slab_of_same. intros q _. unfold page_at. by rewrite Hm.
Qed.

#[export] Program Instance buddy_allocator : PageAllocator mm_state := {|
  pa_alloc := fun s order => __get_free_pages s GFP_KERNEL order;
  pa_free := free_pages;
  pa_set_slab := buddy_set_slab;
  pa_slab_of := buddy_slab_of;
  pa_inv := buddy_inv nr |}.
Next Obligation.
  intros s own a o (ownp & Hw & Hiff) Ha. apply Hiff in Ha as (p & -> & Hp).
  by apply (kernel_block_owned s ownp).
Qed.
Next Obligation.
  intros s own a o a' o' x (ownp & Hw & Hiff) Ha Ha' Hx Hx'.
  apply Hiff in Ha as (p & -> & Hp). apply Hiff in Ha' as (q & -> & Hq).
  destruct (owned_page s ownp p o Hw Hp) as (_&?&?&?&?).
  destruct (owned_page s ownp q o' Hw Hq) as (_&?&?&_&?). unfold PAGE_SIZE in *.
  assert (Hxr : 0 <= x < 2 ^ 64).
  { unfold in_block, PAGE_SIZE in Hx. rewrite to_vir_low in Hx by lia. unfold KERNEL_OFFSET in Hx. lia. }
  apply page_of_in in Hx; [|lia|lia|unfold PAGE_SIZE; lia|done].
  apply page_of_in in Hx'; [|lia|lia|unfold PAGE_SIZE; lia|done].
  by rewrite (mw_disjoint _ _ _ Hw p o q o' (page_of x)).
Qed.
Next Obligation. intros s own order H Ho. by apply buddy_alloc_ok. Qed.
Next Obligation. intros s own addr order H Ho. by apply buddy_free_ok. Qed.
Next Obligation.
  intros s own addr order c (ownp & Hw & Hiff) Ha. exists ownp. split; [|done].
  apply Hiff in Ha as (p & -> & Hp). by apply mm_wf_set_slab.
Qed.
Next Obligation.
  intros s own addr order c x (ownp & Hw & Hiff) Ha Hx.
  pose proof (kernel_block_owned s ownp) as Hk.
  apply Hiff in Ha as (p & -> & Hp). destruct (Hk p order Hw Hp) as (_&?&_&?).
  destruct (owned_page s ownp p order Hw Hp) as (_&?&?&?&?).
  unfold in_block, PAGE_SIZE, KERNEL_OFFSET in Hx, H, H0.
  apply page_of_in in Hx; [|lia|lia|unfold PAGE_SIZE in *; lia|lia].
  unfold buddy_slab_of. rewrite (buddy_set_slab_at s ownp) by (done || lia).
  rewrite decide_True by done. destruct (mw_virtual _ _ _ Hw (page_of x)) as (pg & -> & _); [lia|done].
Qed.
Next Obligation.
  intros s own addr order c x (ownp & Hw & Hiff) Ha Hxr Hx.
  apply Hiff in Ha as (p & -> & Hp).
  destruct (owned_page s ownp p order Hw Hp) as (_&?&?&?&?).
  rewrite page_of_in in Hx; [|lia|lia|unfold PAGE_SIZE in *; lia|lia].
  unfold buddy_slab_of. rewrite (buddy_set_slab_at s ownp); [|done|done|].
  - by rewrite decide_False.
  - unfold page_of, to_phy. apply Z.div_pos; [apply uwrap_range; lia|unfold PAGE_SIZE; lia].
Qed.
End BuddyInstance.

(** ** The pages of a pool

    The same calls with a stronger invariant: the pages of a set [pool] are at any time
    either free or in a block handed out, and no other page is. *)

Section Pool.
Context (nr : Z) (pool : Z -> Prop).

Definition in_own (own : gmap Z Z) (x : Z) : Prop := exists a o, own !! a = Some o /\ in_block a o (to_vir (x * PAGE_SIZE)).
Definition pool_inv (s : mm_state) (own : gmap Z Z) : Prop :=
  buddy_inv nr s own /\ forall x, 0 <= x < nr -> pool x <-> free_in (buddy s) x \/ in_own own x.

Lemma block_of_page s ownp p o x : mm_wf nr s ownp -> ownp !! p = Some o -> 0 <= x < nr -> in_block (to_vir (p * PAGE_SIZE)) o (to_vir (x * PAGE_SIZE)) <-> p <= x < p + 2 ^ o.
Proof.
  intros Hw Hp Hx. destruct (owned_page nr s ownp p o Hw Hp) as (_ & Hp0 & Hend & Hnr & H2). unfold in_block, PAGE_SIZE in *. rewrite !to_vir_low by lia. lia.
Qed.

(** What the two calls do to the free pages. *)
Lemma alloc_free_pages s own order addr s' : buddy_inv nr s own -> 0 <= order < MAX_ORDER -> __get_free_pages s GFP_KERNEL order = Some (addr, s') ->
  (addr = 0 /\ forall x, free_in (buddy s') x <-> free_in (buddy s) x) \/
  (addr <> 0 /\ forall x, 0 <= x < nr -> (free_in (buddy s') x <-> free_in (buddy s) x /\ ~ in_block addr order (to_vir (x * PAGE_SIZE))) /\ (in_block addr order (to_vir (x * PAGE_SIZE)) -> free_in (buddy s) x)).
Proof.
  intros (ownp & Hw & Hiff) Ho E. unfold __get_free_pages in E. destruct (mm_alloc nr s ownp GFP_KERNEL order Hw ltac:(lia)) as (r & s1 & Ha & Hres & Hr). rewrite Ha in E. apply option.bind_Some in E as ([r' s2] & [= <- <-] & E).
  destruct r as [p|]; [|injection E as <- <-; left; split; [done|]; apply Hres]. destruct Hr as (Hnone & Hw' & _). destruct Hres as (_ & Hp0 & _ & Hend & Hfree & Hset & _).
  assert (Hp : <[p := order]> ownp !! p = Some order) by apply lookup_insert_eq. destruct (owned_page nr s1 _ p order Hw' Hp) as (_ & Hp1 & _ & Hnr & H2).
  destruct (mw_virtual _ _ _ Hw' p) as (pg & Hpg & Hv); [lia|]. rewrite Hpg in E. injection E as <- <-. rewrite Hv. right. split.
  - unfold PAGE_SIZE in *. rewrite to_vir_low by lia. unfold KERNEL_OFFSET. lia.
  - intros x Hx. rewrite (block_of_page s1 _ p order x Hw' Hp Hx). split; [apply Hset|apply Hfree].
Qed.

Lemma free_free_pages s own addr order s' : buddy_inv nr s own -> own !! addr = Some order -> free_pages s addr order = Some s' ->
  forall x, 0 <= x < nr -> free_in (buddy s') x <-> free_in (buddy s) x \/ in_block addr order (to_vir (x * PAGE_SIZE)).
Proof.
  intros (ownp & Hw & Hiff) Ha E x Hx. apply Hiff in Ha as (p & -> & Hp). destruct (mm_free nr s ownp p order Hw Hp) as (s1 & E1 & _ & _ & Hset). rewrite E in E1. injection E1 as <-.
  rewrite Hset, (block_of_page s ownp p order x Hw Hp Hx). done.
Qed.

Lemma in_own_insert own addr order x : own !! addr = None -> in_own (<[addr := order]> own) x <-> in_own own x \/ in_block addr order (to_vir (x * PAGE_SIZE)).
Proof.
  intros Hn. unfold in_own. split.
  - intros (a & o & [[<- <-]|[_ Ha]]%lookup_insert_Some & Hx); [by right|left; by eauto].
  - intros [(a & o & Ha & Hx)|Hx]; [exists a, o; split; [|done]; rewrite lookup_insert_ne; [done|congruence]|exists addr, order; by rewrite lookup_insert_eq].
Qed.

#[local] Program Instance pool_allocator : PageAllocator mm_state := {|
  pa_alloc := fun s order => __get_free_pages s GFP_KERNEL order;
  pa_free := free_pages;
  pa_set_slab := buddy_set_slab;
  pa_slab_of := buddy_slab_of;
  pa_inv := pool_inv |}.
Next Obligation. intros s own a o [H _]. by apply (@pa_inv_blocks _ (buddy_allocator nr) s). Qed.
Next Obligation. intros s own a o a' o' x [H _]. by apply (@pa_inv_disjoint _ (buddy_allocator nr) s). Qed.
Next Obligation.
  intros s own order [H Hpool] Ho. destruct (buddy_alloc_ok nr s own order H Ho) as (addr & s' & E & Hs & Hr). exists addr, s'. split; [done|]. split; [done|].
  destruct (alloc_free_pages s own order addr s' H Ho E) as [[-> Hf]|[Hnz Hf]].
  - left. split; [done|]. destruct Hr as [[_ Hi]|((_ & Hb & _) & _)]; [|unfold KERNEL_OFFSET in Hb; lia]. split; [done|]. intros x Hx. rewrite Hf. by apply Hpool.
  - destruct Hr as [[? _]|(Hb & Hfr & Hn & Hi)]; [done|]. right. do 3 (split; [done|]). split; [done|]. intros x Hx. destruct (Hf x Hx) as [Hf1 Hf2]. rewrite (Hpool x Hx), Hf1, in_own_insert by done.
    destruct (decide (addr <= to_vir (x * PAGE_SIZE) < addr + PAGE_SIZE * 2 ^ order)) as [Hin|Hout]; unfold in_block in *; tauto.
Qed.
Next Obligation.
  intros s own addr order [H Hpool] Ha. destruct (buddy_free_ok nr s own addr order H Ha) as (s' & E & Hi & Hs). exists s'. split; [done|]. split; [|done]. split; [done|]. intros x Hx.
  rewrite (Hpool x Hx), (free_free_pages s own addr order s' H Ha E x Hx). rewrite <- (insert_delete_id own addr order Ha) at 1. rewrite in_own_insert by apply lookup_delete_eq. tauto.
Qed.
Next Obligation.
  intros s own addr order c [H Hpool] Ha. split; [by apply (@pa_set_slab_inv _ (buddy_allocator nr))|]. intros x Hx. unfold buddy_set_slab. rewrite set_slab_pages_buddy. by apply Hpool.
Qed.
Next Obligation. intros s own addr order c x [H _]. by apply (@pa_set_slab_in _ (buddy_allocator nr) s own). Qed.
Next Obligation. intros s own addr order c x [H _]. by apply (@pa_set_slab_out _ (buddy_allocator nr) s own). Qed.
End Pool.
