(* ===== verification/Slab.v ===== *)
(** * The slab allocator: [mm/slab.c]

    A cache ([struct kmem_cache]) hands out objects of one size from slabs; a
    slab is a block of [2^gfporder] pages with a [struct slab], an array of
    [num + 1] object numbers and then the objects.  The three lists of a cache
    are the sequences of the addresses of their slabs (the pointer code of
    [list.h] implements them, [ListHead]); [array] is the array behind the
    [struct slab].  [None] is a fault of the C code: a NULL or wild pointer, an
    index outside the array, a division by zero.  The pages come from any
    [PageAllocator]. *)

From S2P Require Import Prelude Buddy PageIface.

Definition SLAB_MIN_NUM : Z := 4.
Definition SLAB_MAX_FREE : Z := 4.
Definition BUFCTL_END : Z := 0xffff.

(** [sizeof(struct slab)]: a [list_head], a pointer and two [unsigned int]. *)
Definition sizeof_slab : Z := 32.

Record slab := mk_slab {
  s_mem : Z;
  inuse : Z;
  free : Z;
  array : list Z }.

Record kmem_cache := mk_kmem_cache {
  flags : Z;
  total_slab : Z;
  free_slab : Z;
  num : Z;
  size : Z;
  gfporder : Z;
  gfpflags : Z;
  slabs_partial : list Z;
  slabs_full : list Z;
  slabs_free : list Z }.

(** The structures in the pages: slabs and caches by address. *)
Record slab_state (P : Type) := mk_slab_state {
  pages : P;
  slabs : gmap Z slab;
  caches : gmap Z kmem_cache }.
Arguments mk_slab_state {P}.
Arguments pages {P}.
Arguments slabs {P}.
Arguments caches {P}.

(** ** Updates of the store *)

Section Store.
Context {P : Type}.
Definition set_pages (st : slab_state P) (p : P) : slab_state P := mk_slab_state p (slabs st) (caches st).
Definition set_slab (st : slab_state P) (sp : Z) (s : slab) : slab_state P :=
  mk_slab_state (pages st) (<[sp := s]> (slabs st)) (caches st).
Definition set_cache (st : slab_state P) (cp : Z) (c : kmem_cache) : slab_state P :=
  mk_slab_state (pages st) (slabs st) (<[cp := c]> (caches st)).
End Store.

Definition with_lists (c : kmem_cache) (p f e : list Z) : kmem_cache :=
  mk_kmem_cache (flags c) (total_slab c) (free_slab c) (num c) (size c) (gfporder c) (gfpflags c) p f e.
Definition with_counts (c : kmem_cache) (total free : Z) : kmem_cache :=
  mk_kmem_cache (flags c) total free (num c) (size c) (gfporder c) (gfpflags c)
    (slabs_partial c) (slabs_full c) (slabs_free c).

(** [list_del(&slabp->list)] from whichever list of the cache holds the slab. *)
Definition unlink (sp : Z) (l : list Z) : list Z := filter (fun x => x <> sp) l.
Definition del_slab (c : kmem_cache) (sp : Z) : kmem_cache :=
  with_lists c (unlink sp (slabs_partial c)) (unlink sp (slabs_full c)) (unlink sp (slabs_free c)).
Definition add_partial (c : kmem_cache) (sp : Z) : kmem_cache :=
  with_lists c (sp :: slabs_partial c) (slabs_full c) (slabs_free c).
Definition add_full (c : kmem_cache) (sp : Z) : kmem_cache :=
  with_lists c (slabs_partial c) (sp :: slabs_full c) (slabs_free c).
Definition add_free (c : kmem_cache) (sp : Z) : kmem_cache :=
  with_lists c (slabs_partial c) (slabs_full c) (sp :: slabs_free c).

Definition kmem_align (size : Z) : Z :=
  let ret := u32 (size / 8 * 8) in u32 (ret + (if size mod 8 =? 0 then 0 else 8)).

(** The offset of the first object: [struct slab] and the array of [num + 1]
    entries. *)
Definition slab_head (num : Z) : Z := kmem_align (u32 (sizeof_slab + (num + 1) * 2)).

(** [while (size * SLAB_MIN_NUM > PAGE_SIZE * (1 << i) && i < MAX_ORDER) i++] *)
Fixpoint order_loop (fuel : nat) (size i : Z) : Z :=
  match fuel with
  | O => i
  | S fuel =>
      if (PAGE_SIZE * Z.shiftl 1 i <? u32 (size * SLAB_MIN_NUM)) && (i <? MAX_ORDER)
      then order_loop fuel size (i + 1) else i
  end.

Definition index_list (n : Z) : list Z := seqZ 0 n.

Section Operations.
Context {P : Type} `{!PageAllocator P}.

Definition kmem_getpages (st : slab_state P) (cp : Z) : option (Z * slab_state P) :=
  c ← caches st !! cp;
  r ← pa_alloc (pages st) (gfporder c);
  let '(page, p) := r in
  if page =? 0 then Some (0, set_pages st p)
  else Some (page, set_pages st (pa_set_slab p page (gfporder c) cp)).

(** The result is the [int] of the code: 0, or -1 without memory. *)
Definition cache_grow (st : slab_state P) (cp : Z) : option (Z * slab_state P) :=
  r ← kmem_getpages st cp;
  let '(slabp, st) := r in
  if slabp =? 0 then Some (-1, st)
  else
    c ← caches st !! cp;
    let s := mk_slab (u64 (slabp + slab_head (num c))) 0 0 (index_list (num c) ++ [BUFCTL_END]) in
    let st := set_slab st slabp s in
    let c := with_counts c (u32 (total_slab c + 1)) (u32 (free_slab c + 1)) in
    Some (0, set_cache st cp (add_free c slabp)).

Definition kmem_cache_create (st : slab_state P) (sz flags : Z) : option (Z * slab_state P) :=
  if PAGE_SIZE * Z.shiftl 1 (MAX_ORDER - 3) <=? sz then Some (0, st)
  else
    r ← pa_alloc (pages st) 0;
    let '(cachep, p) := r in
    let st := set_pages st p in
    if cachep =? 0 then Some (0, st)
    else
      let size := kmem_align (u32 sz) in
      let i := order_loop (Z.to_nat MAX_ORDER) size 0 in
      if MAX_ORDER <=? i then
        p ← pa_free (pages st) cachep 0; Some (0, set_pages st p)
      else if size =? 0 then None
      else
        let tnum := u32 (Z.shiftl 1 i * PAGE_SIZE / size) in
        let head := slab_head tnum in
        let num := u32 (u32 (Z.shiftl 1 i * PAGE_SIZE - head) / size) in
        let st := set_cache st cachep (mk_kmem_cache flags 0 0 num size i GFP_KERNEL [] [] []) in
        g ← cache_grow st cachep;
        let '(e, st) := g in
        if e =? 0 then Some (cachep, st)
        else p ← pa_free (pages st) cachep 0; Some (0, set_pages st p).

(** [free_pages(slabp, gfporder)] for each slab of a list. *)
Fixpoint free_slabs (p : P) (order : Z) (l : list Z) : option P :=
  match l with
  | [] => Some p
  | slabp :: l => p ← pa_free p slabp order; free_slabs p order l
  end.

Definition kmem_cache_destroy (st : slab_state P) (cp : Z) : option (slab_state P) :=
  c ← caches st !! cp;
  p ← free_slabs (pages st) (gfporder c) (slabs_partial c);
  p ← free_slabs p (gfporder c) (slabs_full c);
  p ← free_slabs p (gfporder c) (slabs_free c);
  p ← pa_free p cp 0;
  Some (set_pages st p).

Definition ____cache_alloc (st : slab_state P) (cp sp : Z) : option (Z * slab_state P) :=
  c ← caches st !! cp;
  s ← slabs st !! sp;
  a ← array s !! Z.to_nat (free s);
  let '(ret, s) :=
    if a =? BUFCTL_END then (NULL, s)
    else (u64 (s_mem s + u32 (size c * a)), mk_slab (s_mem s) (u32 (inuse s + 1)) (u32 (free s + 1)) (array s)) in
  let st := set_slab st sp s in
  b ← array s !! Z.to_nat (free s);
  Some (ret, if b =? BUFCTL_END then set_cache st cp (add_full (del_slab c sp) sp) else st).

(** A [list_for_each_safe] of [__cache_alloc]: the first slab that gives an
    object stops it; [slabp] is the last slab visited. *)
Fixpoint alloc_scan (st : slab_state P) (cp : Z) (l : list Z) (slabp : Z) : option (Z * Z * slab_state P) :=
  match l with
  | [] => Some (NULL, slabp, st)
  | sp :: l =>
      r ← ____cache_alloc st cp sp;
      let '(ret, st) := r in
      if ret =? NULL then alloc_scan st cp l sp else Some (ret, sp, st)
  end.

Definition __cache_alloc (st : slab_state P) (cp : Z) : option (Z * slab_state P) :=
  c ← caches st !! cp;
  r ← alloc_scan st cp (slabs_partial c) NULL;
  let '(ret, sp, st) := r in
  if negb (ret =? NULL) then Some (ret, st)
  else
    c ← caches st !! cp;
    r ← alloc_scan st cp (slabs_free c) sp;
    let '(ret, sp, st) := r in
    if ret =? NULL then Some (NULL, st)
    else
      c ← caches st !! cp;
      let c := add_partial (del_slab c sp) sp in
      Some (ret, set_cache st cp (with_counts c (total_slab c) (u32 (free_slab c - 1)))).

Definition kmem_cache_alloc (st : slab_state P) (cp : Z) : option (Z * slab_state P) :=
  r ← __cache_alloc st cp;
  let '(ret, st) := r in
  if ret =? NULL then
    g ← cache_grow st cp;
    let '(e, st) := g in
    if e =? 0 then __cache_alloc st cp else Some (NULL, st)
  else Some (ret, st).

Definition slab_index (c : kmem_cache) (s : slab) (objp : Z) : Z :=
  if objp <? s_mem s then -1
  else if u64 (s_mem s + u32 (u32 (num c - 1) * size c)) <? objp then -1
  else i32 ((objp - s_mem s) / size c).

(** A [list_for_each_safe] of [__cache_free]: [slabp] is the last slab visited
    and [ind] its index, -1 when the object is in none of them. *)
Fixpoint free_scan (st : slab_state P) (c : kmem_cache) (objp : Z) (l : list Z) (slabp ind : Z) : option (Z * Z) :=
  match l with
  | [] => Some (slabp, ind)
  | sp :: l =>
      s ← slabs st !! sp;
      let ind := slab_index c s objp in
      if negb (ind =? -1) then Some (sp, ind) else free_scan st c objp l sp ind
  end.

Definition __cache_free (st : slab_state P) (cp objp : Z) : option (slab_state P) :=
  c ← caches st !! cp;
  r ← free_scan st c objp (slabs_full c) NULL (-1);
  let '(slabp, ind) := r in
  r ← (if negb (ind =? -1) then Some (slabp, ind) else free_scan st c objp (slabs_partial c) slabp ind);
  let '(slabp, ind) := r in
  s ← slabs st !! slabp;
  let s :=
    if free s =? 0 then s
    else mk_slab (s_mem s) (u32 (inuse s - 1)) (free s - 1) (<[Z.to_nat (free s - 1) := u16 ind]> (array s)) in
  let st := set_slab st slabp s in
  Some (if inuse s =? 0 then
          let c := add_free (del_slab c slabp) slabp in
          set_cache st cp (with_counts c (total_slab c) (u32 (free_slab c + 1)))
        else st).

(** [while (free_slab > SLAB_MAX_FREE)]: [free_slab] falls by one in each round. *)
Fixpoint reclaim (fuel : nat) (st : slab_state P) (cp : Z) : option (slab_state P) :=
  match fuel with
  | O => Some st
  | S fuel =>
      c ← caches st !! cp;
      if free_slab c <=? SLAB_MAX_FREE then Some st
      else
        slabp ← head (slabs_free c);
        p ← pa_free (pages st) slabp (gfporder c);
        reclaim fuel (set_cache (set_pages st p) cp (with_counts c (total_slab c) (free_slab c - 1))) cp
  end.

Definition kmem_cache_free (st : slab_state P) (cp objp : Z) : option (slab_state P) :=
  st ← __cache_free st cp objp;
  c ← caches st !! cp;
  reclaim (Z.to_nat (free_slab c)) st cp.
End Operations.

(** ** What the layout and the lists mean *)

Definition all_slabs (c : kmem_cache) : list Z := slabs_partial c ++ slabs_full c ++ slabs_free c.

(** The object numbers that a slab can still hand out. *)
Definition free_objs (n : Z) (s : slab) : list Z := drop (Z.to_nat (free s)) (take (Z.to_nat n) (array s)).

(** The address of object [i] of the slab at [sp]. *)
Definition obj_addr (c : kmem_cache) (sp i : Z) : Z := sp + slab_head (num c) + size c * i.

(** The header, the array and the [num] objects fit in the block. *)
Definition layout_ok (c : kmem_cache) : Prop :=
  8 <= size c < 2 ^ 18 /\ 3 <= num c <= 1000 /\ 0 <= gfporder c < MAX_ORDER /\
  sizeof_slab + 2 * (num c + 1) <= slab_head (num c) /\
  slab_head (num c) + num c * size c <= PAGE_SIZE * 2 ^ gfporder c.

Definition slab_ok (c : kmem_cache) (sp : Z) (s : slab) : Prop :=
  s_mem s = sp + slab_head (num c) /\ inuse s = free s /\ 0 <= free s <= num c /\
  length (array s) = S (Z.to_nat (num c)) /\ array s !! Z.to_nat (num c) = Some BUFCTL_END /\
  NoDup (free_objs (num c) s) /\ (forall i, i ∈ free_objs (num c) s -> 0 <= i < num c).

(** A slab of the partial list has a free and a used object, one of the full
    list a used object (a slab that was full stays there until it is empty),
    one of the free list no used object. *)
Definition kind_ok (c : kmem_cache) (sp f : Z) : Prop :=
  (sp ∈ slabs_partial c -> 0 < f < num c) /\ (sp ∈ slabs_full c -> 0 < f) /\ (sp ∈ slabs_free c -> f = 0).

Section Invariant.
Context {P : Type} `{!PageAllocator P}.

Record cache_ok (st : slab_state P) (own : gmap Z Z) (cs : gset Z) (cp : Z) (c : kmem_cache) : Prop := {
  co_own : own !! cp = Some 0;
  co_layout : layout_ok c;
  co_nodup : NoDup (all_slabs c);
  co_count : free_slab c = u32 (Z.of_nat (length (slabs_free c)));
  co_slab : forall sp, sp ∈ all_slabs c ->
    (sp ∉ cs) /\ own !! sp = Some (gfporder c) /\
    (forall x, in_block sp (gfporder c) x -> pa_slab_of (pages st) x = Some cp) /\
    exists s, slabs st !! sp = Some s /\ slab_ok c sp s /\ kind_ok c sp (free s) }.

(** [cs] are the caches in use, [own] the blocks of the page allocator. *)
Definition slab_inv (st : slab_state P) (own : gmap Z Z) (cs : gset Z) : Prop :=
  pa_inv (pages st) own /\
  forall cp, cp ∈ cs -> exists c, caches st !! cp = Some c /\ cache_ok st own cs cp c.

(** Object [i] of slab [sp] of the cache [cp] is in use. *)
Definition live (st : slab_state P) (cp sp i : Z) : Prop :=
  exists c s, caches st !! cp = Some c /\ sp ∈ all_slabs c /\ slabs st !! sp = Some s /\
    0 <= i < num c /\ (i ∉ free_objs (num c) s).

(** The address of object [i] of slab [sp] of the cache [cp]. *)
Definition obj_of (st : slab_state P) (cp sp i : Z) : option Z :=
  (fun c => obj_addr c sp i) <$> caches st !! cp.

(** The address [o] is that of an object of [cp] in use. *)
Definition allocated (st : slab_state P) (cp o : Z) : Prop :=
  exists sp i, live st cp sp i /\ obj_of st cp sp i = Some o.
End Invariant.

(** ** The layout computation *)

Lemma kmem_align_spec z :
  0 <= z < 2 ^ 31 -> kmem_align z mod 8 = 0 /\ z <= kmem_align z < z + 8.
Proof.
  intros Hz. unfold kmem_align. pose proof (Z.div_mod z 8 ltac:(lia)).
  pose proof (Z.mod_pos_bound z 8 ltac:(lia)).
  rewrite (u32_small (z / 8 * 8)) by lia.
  case_if; rewrite u32_small by lia.
  - rewrite Z.add_0_r, Z.mod_mul by lia. lia.
  - replace (z / 8 * 8 + 8) with ((z / 8 + 1) * 8) by lia. rewrite Z.mod_mul by lia. lia.
Qed.

Lemma order_loop_spec fuel sz i :
  0 <= i -> i + Z.of_nat fuel = MAX_ORDER -> 0 <= sz * SLAB_MIN_NUM <= PAGE_SIZE * 2 ^ (MAX_ORDER - 1) ->
  (i = 0 \/ PAGE_SIZE * 2 ^ (i - 1) < sz * SLAB_MIN_NUM) -> i < MAX_ORDER ->
  let o := order_loop fuel sz i in
  0 <= o < MAX_ORDER /\ sz * SLAB_MIN_NUM <= PAGE_SIZE * 2 ^ o /\
  (o = 0 \/ PAGE_SIZE * 2 ^ (o - 1) < sz * SLAB_MIN_NUM).
Proof.
  revert i. induction fuel as [|fuel IH]; intros i Hi Hf Hs Hlow Hmax; cbn [order_loop]; [lia|].
  rewrite shiftl_1 by lia. rewrite u32_small by (unfold PAGE_SIZE, MAX_ORDER in *; simpl in *; lia).
  destruct ((PAGE_SIZE * 2 ^ i <? sz * SLAB_MIN_NUM) && (i <? MAX_ORDER)) eqn:E; zbool.
  - assert (i + 1 < MAX_ORDER).
    { destruct (decide (i + 1 = MAX_ORDER)) as [E'|]; [|lia].
      replace (MAX_ORDER - 1) with i in Hs by lia. lia. }
    apply IH; try lia. right. replace (i + 1 - 1) with i by lia. done.
  - simpl. split; [lia|]. split; [lia|done].
Qed.

Lemma slab_head_mono k n : 0 <= k <= n -> n <= 1000 -> slab_head k <= slab_head n.
Proof.
  intros Hk Hn. unfold slab_head, sizeof_slab, kmem_align.
  rewrite !(u32_small (32 + (k + 1) * 2)), !(u32_small (32 + (n + 1) * 2)) by lia.
  set (a := 32 + (k + 1) * 2). set (b := 32 + (n + 1) * 2).
  assert (0 <= a <= b /\ b < 2 ^ 20) by lia.
  pose proof (Z.div_mod a 8 ltac:(lia)). pose proof (Z.mod_pos_bound a 8 ltac:(lia)).
  pose proof (Z.div_mod b 8 ltac:(lia)). pose proof (Z.mod_pos_bound b 8 ltac:(lia)).
  rewrite (u32_small (a / 8 * 8)), (u32_small (b / 8 * 8)) by lia.
  repeat case_if; rewrite !u32_small by lia; lia.
Qed.

Lemma slab_head_bound k : 0 <= k <= 1000 -> 32 + 2 * (k + 1) <= slab_head k < 32 + 2 * (k + 1) + 8.
Proof.
  intros Hk. unfold slab_head, sizeof_slab. rewrite (u32_small (32 + (k + 1) * 2)) by lia.
  pose proof (kmem_align_spec (32 + (k + 1) * 2) ltac:(lia)). lia.
Qed.

Lemma layout_computed sz o n hd :
  8 <= sz < 2 ^ 18 -> 0 <= o < MAX_ORDER -> sz * SLAB_MIN_NUM <= PAGE_SIZE * 2 ^ o ->
  (o = 0 \/ PAGE_SIZE * 2 ^ (o - 1) < sz * SLAB_MIN_NUM) ->
  n = Z.shiftl 1 o * PAGE_SIZE / sz -> hd = slab_head (u32 n) ->
  forall c, size c = sz -> gfporder c = o ->
    num c = u32 (u32 (Z.shiftl 1 o * PAGE_SIZE - hd) / sz) -> layout_ok c.
Proof.
  intros Hsz Ho Hfit Hlow Hn Hhd c Hs Hgo Hnum. subst sz o. rewrite shiftl_1 in * by lia.
  pose proof (pow2_pos (gfporder c) ltac:(lia)). unfold PAGE_SIZE, SLAB_MIN_NUM in *.
  set (T := 2 ^ gfporder c * 4096) in *.
  assert (HT : 4096 <= T <= 2 ^ 19).
  { unfold T. split; [lia|]. transitivity (2 ^ 7 * 4096); [|lia].
    apply Z.mul_le_mono_nonneg_r; [lia|]. apply Z.pow_le_mono_r; unfold MAX_ORDER in *; lia. }
  assert (Hq : size c * n <= T < size c * n + size c).
  { subst n. pose proof (Z.div_mod T (size c) ltac:(lia)). pose proof (Z.mod_pos_bound T (size c) ltac:(lia)). lia. }
  assert (Hn4 : 4 <= n) by nia.
  assert (Hn512 : n <= 512).
  { destruct Hlow as [E|Hlow]; [unfold T in *; rewrite E in *; simpl in *; nia|].
    destruct (decide (gfporder c = 0)) as [E|]; [unfold T in *; rewrite E in *; simpl in *; nia|].
    assert (T = 2 * (4096 * 2 ^ (gfporder c - 1))).
    { unfold T. replace (gfporder c) with (gfporder c - 1 + 1) at 1 by lia. rewrite pow2_S by lia. lia. }
    nia. }
  rewrite (u32_small n) in Hhd by lia.
  pose proof (slab_head_bound n ltac:(lia)) as Hh. rewrite <- Hhd in Hh.
  assert (Hroom : hd + 3 * size c <= T).
  { destruct (Z_lt_le_dec (size c) 64); nia. }
  rewrite (u32_small (T - hd)) in Hnum by lia.
  pose proof (Z.div_mod (T - hd) (size c) ltac:(lia)).
  pose proof (Z.mod_pos_bound (T - hd) (size c) ltac:(lia)).
  set (k := (T - hd) / size c) in *.
  assert (3 <= k) by nia. assert (k <= n) by nia.
  rewrite u32_small in Hnum by lia.
  unfold layout_ok, sizeof_slab, PAGE_SIZE. rewrite Hnum.
  pose proof (slab_head_bound k ltac:(lia)).
  assert (slab_head k <= hd).
  { rewrite Hhd. apply slab_head_mono; lia. }
  split; [lia|]. split; [lia|]. split; [done|]. split; [lia|].
  fold T. nia.
Qed.

(** ** One slab *)

Lemma free_objs_take c sp s :
  slab_ok c sp s -> layout_ok c -> free s < num c ->
  exists i, array s !! Z.to_nat (free s) = Some i /\ 0 <= i < num c /\ i <> BUFCTL_END /\
    let s' := mk_slab (s_mem s) (inuse s + 1) (free s + 1) (array s) in
    free_objs (num c) s = i :: free_objs (num c) s' /\ slab_ok c sp s'.
Proof.
  intros (Hm & Hi & Hf & Hl & He & Hn & Hr) (_ & Hnum & _) Hlt.
  destruct (lookup_lt_is_Some_2 (array s) (Z.to_nat (free s))) as [i Ha]; [lia|].
  exists i. set (s' := mk_slab _ _ _ _).
  assert (Hcons : free_objs (num c) s = i :: free_objs (num c) s').
  { unfold free_objs. replace (Z.to_nat (free s')) with (Datatypes.S (Z.to_nat (free s))) by (simpl; lia).
    apply drop_S. by rewrite lookup_take_lt by lia. }
  rewrite Hcons in Hn, Hr. apply NoDup_cons in Hn as [_ Hn].
  pose proof (Hr i ltac:(set_solver)). split; [done|]. split; [done|]. split; [unfold BUFCTL_END; lia|].
  split; [done|]. unfold slab_ok. simpl.
  split_and!; try done; try lia. intros j Hj. apply Hr. set_solver.
Qed.

Lemma free_objs_put c sp s i :
  slab_ok c sp s -> layout_ok c -> 0 < free s -> 0 <= i < num c -> i ∉ free_objs (num c) s ->
  let s' := mk_slab (s_mem s) (inuse s - 1) (free s - 1) (<[Z.to_nat (free s - 1) := i]> (array s)) in
  free_objs (num c) s' = i :: free_objs (num c) s /\ slab_ok c sp s'.
Proof.
  intros (Hm & Hi & Hf & Hl & He & Hn & Hr) (_ & Hnum & _) H0 Hir Hnot s'.
  assert (Hcons : free_objs (num c) s' = i :: free_objs (num c) s).
  { unfold free_objs, s'. cbn [free array].
    rewrite (drop_S _ i).
    - rewrite take_insert_lt by lia. rewrite drop_insert_lt by lia. f_equal. f_equal. lia.
    - rewrite lookup_take_lt by lia. apply list_lookup_insert_eq. lia. }
  split; [done|]. unfold slab_ok. rewrite Hcons. unfold s'. cbn [s_mem inuse free array].
  rewrite length_insert, list_lookup_insert_ne by lia.
  split_and!; try done; try lia.
  - by apply NoDup_cons.
  - intros j [->|Hj]%elem_of_cons; [done|by apply Hr].
Qed.

(** ** Moving a slab between the lists of its cache *)

Lemma unlink_not_in sp l : sp ∉ l -> unlink sp l = l.
Proof.
  unfold unlink. induction l as [|x l IH]; [done|]. intros [Hx Hl]%not_elem_of_cons.
  rewrite filter_cons, decide_True by done. by rewrite IH.
Qed.

Lemma unlink_perm sp l : NoDup l -> sp ∈ l -> l ≡ₚ sp :: unlink sp l.
Proof.
  induction l as [|x l IH]; intros Hn Hin; [by apply not_elem_of_nil in Hin|].
  apply NoDup_cons in Hn as [Hx Hn]. unfold unlink. rewrite filter_cons.
  destruct (decide (x <> sp)) as [Hne|Heq].
  - rewrite elem_of_cons in Hin. destruct Hin as [->|Hin]; [done|].
    rewrite Permutation_swap. by rewrite <- IH.
  - assert (x = sp) as -> by (destruct (decide (x = sp)); tauto). f_equiv.
    fold (unlink sp l). by rewrite unlink_not_in.
Qed.

(** The counter [free_slab] against the length of the list. *)
Lemma count_pred sp l :
  sp ∉ l -> u32 (u32 (Z.of_nat (length (sp :: l))) - 1) = u32 (Z.of_nat (length (unlink sp (sp :: l)))).
Proof.
  intros Hl. unfold unlink. rewrite filter_cons, decide_False by tauto. fold (unlink sp l).
  rewrite unlink_not_in by done. cbn [length]. unfold u32, uwrap.
  rewrite Zminus_mod_idemp_l. f_equal. lia.
Qed.

Lemma count_succ (l : list Z) sp :
  u32 (u32 (Z.of_nat (length l)) + 1) = u32 (Z.of_nat (length (sp :: l))).
Proof. cbn [length]. unfold u32, uwrap. rewrite Zplus_mod_idemp_l. f_equal. lia. Qed.

Lemma elem_unlink sp sp' l : sp' ∈ unlink sp l <-> sp' <> sp /\ sp' ∈ l.
Proof. unfold unlink. by rewrite list_elem_of_filter. Qed.

Lemma del_slab_perm c sp :
  NoDup (all_slabs c) -> sp ∈ all_slabs c -> sp :: all_slabs (del_slab c sp) ≡ₚ all_slabs c.
Proof.
  intros Hn Hin. rewrite (unlink_perm sp (all_slabs c)) by done.
  unfold all_slabs, del_slab, unlink. simpl. by rewrite !filter_app.
Qed.

Lemma all_slabs_add c sp :
  all_slabs (add_partial c sp) ≡ₚ sp :: all_slabs c /\
  all_slabs (add_full c sp) ≡ₚ sp :: all_slabs c /\
  all_slabs (add_free c sp) ≡ₚ sp :: all_slabs c.
Proof.
  unfold all_slabs, add_partial, add_full, add_free. simpl. split; [done|]. split.
  - by rewrite <- Permutation_middle.
  - rewrite <- !Permutation_middle. done.
Qed.

Section Proofs.
Context {P : Type} `{!PageAllocator P}.
Implicit Types (st : slab_state P) (own : gmap Z Z) (cs : gset Z).

(** The pages of a slab name its cache, so a slab belongs to one cache. *)
Lemma slab_of_one_cache st own cs cp cp' c c' sp :
  slab_inv st own cs -> cp ∈ cs -> cp' ∈ cs ->
  caches st !! cp = Some c -> caches st !! cp' = Some c' ->
  sp ∈ all_slabs c -> sp ∈ all_slabs c' -> cp = cp'.
Proof.
  intros [Hp Hc] Hcp Hcp' E E' Hs Hs'.
  destruct (Hc cp Hcp) as (? & ? & Hok), (Hc cp' Hcp') as (? & ? & Hok'). simplify_eq.
  destruct (co_slab _ _ _ _ _ Hok sp Hs) as (_ & Ho & Hsl & _).
  destruct (co_slab _ _ _ _ _ Hok' sp Hs') as (_ & Ho' & Hsl' & _).
  destruct (pa_inv_blocks _ _ _ _ Hp Ho) as (Hor & _).
  assert (in_block sp (gfporder c) sp /\ in_block sp (gfporder c') sp) as [H1 H2].
  { assert (gfporder c = gfporder c') as <- by congruence. unfold in_block, PAGE_SIZE.
    pose proof (pow2_pos (gfporder c) ltac:(lia)). lia. }
  pose proof (Hsl _ H1). pose proof (Hsl' _ H2). congruence.
Qed.

Lemma cache_ok_frame st st' own own' cs cs' cp c :
  cache_ok st own cs cp c ->
  (forall sp, sp ∈ all_slabs c -> slabs st' !! sp = slabs st !! sp) ->
  (forall x, pa_slab_of (pages st) x = Some cp -> pa_slab_of (pages st') x = Some cp) ->
  (forall a, a = cp \/ a ∈ all_slabs c -> own' !! a = own !! a) ->
  (forall sp, sp ∈ all_slabs c -> sp ∉ cs') ->
  cache_ok st' own' cs' cp c.
Proof.
  intros [H1 H2 H3 H4 H5] Hs Hp Ho Hcs. split; try done.
  - rewrite Ho by tauto. done.
  - intros sp Hsp. destruct (H5 sp Hsp) as (_ & Ho' & Hsl & s & Es & ? & ?).
    split; [auto|]. rewrite Ho by tauto. split; [done|]. split; [auto|].
    exists s. rewrite Hs by done. done.
Qed.

Definition same_shape (c c' : kmem_cache) : Prop :=
  num c' = num c /\ size c' = size c /\ gfporder c' = gfporder c.

(** Replacing a slab and re-sorting the lists of its cache. *)
Lemma inv_update st own cs cp c c' sp s s' :
  slab_inv st own cs -> cp ∈ cs -> caches st !! cp = Some c -> sp ∈ all_slabs c ->
  slabs st !! sp = Some s -> same_shape c c' -> all_slabs c' ≡ₚ all_slabs c ->
  free_slab c' = u32 (Z.of_nat (length (slabs_free c'))) ->
  slab_ok c sp s' -> kind_ok c' sp (free s') ->
  (forall x f, x <> sp -> kind_ok c x f -> kind_ok c' x f) ->
  slab_inv (set_cache (set_slab st sp s') cp c') own cs.
Proof.
  intros Hinv Hcp Ec Hsp Es (Hn & Hz & Ho) Hperm Hcount Hok Hk Hkeep.
  pose proof Hinv as [Hp Hc]. split; [done|]. intros cp' Hcp'. cbn [set_cache set_slab caches slabs].
  destruct (decide (cp' = cp)) as [->|Hne].
  - exists c'. rewrite lookup_insert_eq. split; [done|].
    destruct (Hc cp Hcp) as (? & ? & [H1 H2 H3 H4 H5]). simplify_eq. split.
    + done.
    + unfold layout_ok in *. rewrite Hn, Hz, Ho. done.
    + by rewrite Hperm.
    + done.
    + intros x Hx. rewrite Hperm in Hx. destruct (H5 x Hx) as (Hx1 & Hx2 & Hx3 & t & Et & Ht & Htk).
      rewrite Ho. split; [done|]. split; [done|]. split; [done|]. unfold slab_ok in *. rewrite Hn.
      destruct (decide (x = sp)) as [->|Hx']; cbn.
      * exists s'. by rewrite lookup_insert_eq.
      * exists t. rewrite lookup_insert_ne by done. split; [done|]. split; [done|]. by apply Hkeep.
  - destruct (Hc cp' Hcp') as (c1 & Ec1 & Hok1). exists c1. rewrite lookup_insert_ne by done.
    split; [done|]. eapply cache_ok_frame; [exact Hok1|..]; try done.
    + intros x Hx. cbn. rewrite lookup_insert_ne; [done|]. intros <-. apply Hne.
      by eapply (slab_of_one_cache st own cs cp' cp c1 c sp).
    + intros x Hx. by destruct (co_slab _ _ _ _ _ Hok1 x Hx).
Qed.

Lemma live_update st cp c c' sp s' :
  caches st !! cp = Some c -> same_shape c c' -> all_slabs c' ≡ₚ all_slabs c -> sp ∈ all_slabs c ->
  forall cp' x i,
    (cp' <> cp -> forall c1, caches st !! cp' = Some c1 -> sp ∉ all_slabs c1) ->
    live (set_cache (set_slab st sp s') cp c') cp' x i <->
    if decide (cp' = cp /\ x = sp) then 0 <= i < num c /\ i ∉ free_objs (num c) s' else live st cp' x i.
Proof.
  intros Ec (Hn & Hz & Ho) Hperm Hsp cp' x i Hother. unfold live. cbn [set_cache set_slab caches slabs].
  destruct (decide (cp' = cp)) as [->|Hne].
  - setoid_rewrite lookup_insert_eq. destruct (decide (cp = cp /\ x = sp)) as [[_ ->]|Hx].
    + setoid_rewrite lookup_insert_eq. split.
      * intros (? & ? & [= <-] & _ & [= <-] & ?). by rewrite Hn in *.
      * intros Hl. exists c', s'. rewrite Hperm, Hn. done.
    + assert (x <> sp) by tauto. split.
      * intros (? & t & [= <-] & Hin & Et & Hl). rewrite lookup_insert_ne in Et by done.
        exists c, t. rewrite Hperm in Hin. rewrite Hn in Hl. done.
      * intros (? & t & ? & Hin & Et & Hl). simplify_eq. exists c', t.
        rewrite lookup_insert_ne, Hperm, Hn by done. done.
  - rewrite decide_False by tauto.
    split; intros (c1 & t & E1 & Hin & Et & Hl); exists c1, t;
      rewrite ?(lookup_insert_ne (caches st)) in * by done;
      (destruct (decide (x = sp)) as [->|]; [by destruct (Hother Hne c1 E1)|]);
      rewrite ?lookup_insert_ne in * by done; done.
Qed.

Lemma obj_of_update st cp c c' sp s' :
  caches st !! cp = Some c -> same_shape c c' ->
  forall cp' x j, obj_of (set_cache (set_slab st sp s') cp c') cp' x j = obj_of st cp' x j.
Proof.
  intros Ec (Hn & Hz & _) cp' x j. unfold obj_of. cbn [set_cache caches].
  destruct (decide (cp' = cp)) as [->|]; [|by rewrite lookup_insert_ne].
  rewrite lookup_insert_eq, Ec. simpl. unfold obj_addr. by rewrite Hn, Hz.
Qed.

Lemma inv_slab st own cs cp c sp :
  slab_inv st own cs -> cp ∈ cs -> caches st !! cp = Some c -> sp ∈ all_slabs c ->
  layout_ok c /\ kernel_block sp (gfporder c) /\
  exists s, slabs st !! sp = Some s /\ slab_ok c sp s /\ kind_ok c sp (free s).
Proof.
  intros [Hp Hc] Hcp Ec Hsp. destruct (Hc cp Hcp) as (? & ? & [H1 H2 H3 H4 H5]). simplify_eq.
  destruct (H5 sp Hsp) as (_ & Ho & _ & s & Hs). split; [done|].
  split; [|by exists s]. by eapply pa_inv_blocks.
Qed.

(** An object lies in the block of its slab, behind the header. *)
Lemma obj_addr_in c sp i :
  layout_ok c -> 0 <= i < num c ->
  sp + sizeof_slab <= obj_addr c sp i /\ obj_addr c sp i + size c <= sp + PAGE_SIZE * 2 ^ gfporder c.
Proof. unfold layout_ok, obj_addr, sizeof_slab. nia. Qed.

Lemma obj_addr_u64 c sp i :
  layout_ok c -> kernel_block sp (gfporder c) -> 0 <= i < num c ->
  u64 (sp + slab_head (num c) + u32 (size c * i)) = obj_addr c sp i /\ 0 < obj_addr c sp i.
Proof.
  intros HL (_ & Hlow & _ & Hb) Hi. pose proof (obj_addr_in c sp i HL Hi) as Hin.
  destruct HL as (Hs & Hn & _). unfold sizeof_slab, KERNEL_OFFSET in *.
  rewrite u32_small by nia. unfold obj_addr in *. rewrite u64_small by lia. lia.
Qed.

Lemma cache_alloc_step st own cs cp c sp s :
  slab_inv st own cs -> cp ∈ cs -> caches st !! cp = Some c -> sp ∈ all_slabs c ->
  slabs st !! sp = Some s -> free s < num c ->
  exists i s', 0 <= i < num c /\ free_objs (num c) s = i :: free_objs (num c) s' /\
    slab_ok c sp s' /\ free s' = free s + 1 /\ obj_addr c sp i <> 0 /\
    ____cache_alloc st cp sp = Some (obj_addr c sp i, set_cache (set_slab st sp s') cp
       (if free s' =? num c then add_full (del_slab c sp) sp else c)).
Proof.
  intros Hinv Hcp Ec Hsp Es Hlt.
  destruct (inv_slab st own cs cp c sp Hinv Hcp Ec Hsp) as (HL & HB & ? & E & Hok & _). simplify_eq.
  destruct (free_objs_take c sp s Hok HL Hlt) as (i & Ha & Hi & Hne & Hcons & Hok').
  exists i. eexists. split; [done|]. split; [exact Hcons|]. split; [exact Hok'|]. split; [done|].
  destruct (obj_addr_u64 c sp i HL HB Hi) as [Haddr Hpos]. split; [lia|].
  pose proof Hok as (Hm & Hiu & Hf & Hl & He & _). pose proof HL as (_ & Hnum & _).
  unfold ____cache_alloc. rewrite Ec, Es. some_bind. rewrite Ha. some_bind.
  rewrite (proj2 (Z.eqb_neq _ _) Hne). rewrite (u32_small (inuse s + 1)), (u32_small (free s + 1)) by lia.
  cbn [array free s_mem]. rewrite Hm, Haddr.
  destruct (free s + 1 =? num c) eqn:E'; zbool.
  - rewrite E', He. some_bind. done.
  - destruct (free_objs_take c sp _ Hok' HL ltac:(simpl; lia)) as (j & Hj & _ & Hjne & _).
    cbn [array free] in Hj. rewrite Hj. some_bind. rewrite (proj2 (Z.eqb_neq _ _) Hjne).
    unfold set_cache, set_slab. cbn [pages slabs caches]. by rewrite (insert_id (caches st)) by done.
Qed.

Lemma del_add_shape c sp :
  same_shape c (add_partial (del_slab c sp) sp) /\ same_shape c (add_full (del_slab c sp) sp) /\
  same_shape c (add_free (del_slab c sp) sp).
Proof. done. Qed.

(** Lists of the cache after its slab [sp] moved: the others stay where they were. *)
Lemma kind_move c c' sp x f :
  num c' = num c ->
  (forall y, y <> sp -> y ∈ slabs_partial c' -> y ∈ slabs_partial c) ->
  (forall y, y <> sp -> y ∈ slabs_full c' -> y ∈ slabs_full c) ->
  (forall y, y <> sp -> y ∈ slabs_free c' -> y ∈ slabs_free c) ->
  x <> sp -> kind_ok c x f -> kind_ok c' x f.
Proof. unfold kind_ok. intros -> H1 H2 H3 Hx (K1 & K2 & K3). auto. Qed.

(** [st'] is [st] with one more object of [cp] in use, at [ret]. *)
Definition took st st' own cs cp ret : Prop :=
  slab_inv st' own cs /\ pages st' = pages st /\
  (forall cp' x j, obj_of st' cp' x j = obj_of st cp' x j) /\
  exists sp i, obj_of st cp sp i = Some ret /\ ~ live st cp sp i /\ live st' cp sp i /\
    forall cp' x j, cp' ∈ cs -> live st' cp' x j <-> live st cp' x j \/ (cp' = cp /\ x = sp /\ j = i).

Lemma took_intro st own cs cp c c' sp s s' i :
  slab_inv st own cs -> cp ∈ cs -> caches st !! cp = Some c -> sp ∈ all_slabs c ->
  slabs st !! sp = Some s -> same_shape c c' -> all_slabs c' ≡ₚ all_slabs c ->
  free_slab c' = u32 (Z.of_nat (length (slabs_free c'))) ->
  slab_ok c sp s' -> kind_ok c' sp (free s') ->
  (forall x f, x <> sp -> kind_ok c x f -> kind_ok c' x f) ->
  0 <= i < num c -> free_objs (num c) s = i :: free_objs (num c) s' ->
  took st (set_cache (set_slab st sp s') cp c') own cs cp (obj_addr c sp i).
Proof.
  intros Hinv Hcp Ec Hsp Es Hsh Hperm Hcount Hok Hk Hkeep Hi Hcons.
  destruct (inv_slab st own cs cp c sp Hinv Hcp Ec Hsp) as (HL & HB & ? & E & Hoks & _).
  simplify_eq. destruct Hoks as (_&_&_&_&_&Hnd&_). rewrite Hcons in Hnd. apply NoDup_cons in Hnd as [Hni _].
  assert (Hlive : forall cp' x j, cp' ∈ cs -> _) by
    exact (fun cp' x j Hcp' => live_update st cp c c' sp s' Ec Hsh Hperm Hsp cp' x j
      (fun Hne c1 E1 Hin => Hne (slab_of_one_cache st own cs cp' cp c1 c sp Hinv Hcp' Hcp E1 Ec Hin Hsp))).
  split; [by eapply inv_update|]. split; [done|]. split; [by apply (obj_of_update st cp c)|].
  exists sp, i. split; [unfold obj_of; by rewrite Ec|]. split; [|split].
  - intros (? & ? & ? & _ & ? & _ & Hn). simplify_eq. apply Hn. rewrite Hcons. set_solver.
  - apply Hlive; [done|]. by rewrite decide_True.
  - intros cp' x j Hcp'. rewrite Hlive by done. case_decide as Hd.
    + destruct Hd as [-> ->]. unfold live. split.
      * intros [Hj Hnj]. destruct (decide (j = i)) as [->|Hji]; [tauto|]. left. exists c, s.
        rewrite Hcons. set_solver.
      * intros [(? & ? & ? & _ & ? & Hj & Hnj)|(_ & _ & ->)]; [|done]. simplify_eq.
        rewrite Hcons in Hnj. set_solver.
    + split; [tauto|]. intros [?|(-> & -> & ->)]; [done|tauto].
Qed.

Lemma alloc_partial_ok st own cs cp c sp l :
  slab_inv st own cs -> cp ∈ cs -> caches st !! cp = Some c -> slabs_partial c = sp :: l ->
  exists ret st', __cache_alloc st cp = Some (ret, st') /\ ret <> 0 /\ took st st' own cs cp ret.
Proof.
  intros Hinv Hcp Ec Hpart.
  assert (Hsp : sp ∈ all_slabs c) by (unfold all_slabs; rewrite Hpart; set_solver).
  destruct (inv_slab st own cs cp c sp Hinv Hcp Ec Hsp) as (HL & HB & s & Es & Hok & Hk).
  destruct (proj1 Hk) as [Hf0 Hfn]; [rewrite Hpart; set_solver|].
  destruct (cache_alloc_step st own cs cp c sp s Hinv Hcp Ec Hsp Es Hfn) as (i & s' & Hi & Hcons & Hok' & Hf' & Hnz & Hrun).
  destruct (proj2 Hinv cp Hcp) as (? & ? & [_ _ Hnd Hcount _]). simplify_eq.
  eexists _, _. unfold __cache_alloc. rewrite Ec. run_bind. rewrite Hpart. cbn [alloc_scan]. rewrite Hrun. run_bind.
  rewrite (proj2 (Z.eqb_neq _ _) Hnz : (obj_addr c sp i =? NULL) = false). run_bind.
  rewrite ?(proj2 (Z.eqb_neq _ _) Hnz : (obj_addr c sp i =? NULL) = false). cbn [negb].
  split; [done|]. split; [done|].
  assert (Hnf : sp ∉ slabs_full c ++ slabs_free c).
  { unfold all_slabs in Hnd. rewrite Hpart in Hnd. apply NoDup_cons in Hnd. set_solver. }
  destruct (all_slabs_add (del_slab c sp) sp) as (_ & Hpf & _).
  eapply took_intro; try done; case_if; try done.
  - rewrite Hpf. by apply del_slab_perm.
  - cbn. rewrite unlink_not_in by set_solver. done.
  - unfold kind_ok. cbn. rewrite !elem_unlink.
    split; [tauto|]. split; [lia|tauto].
  - destruct Hk as (K1 & K2 & K3). unfold kind_ok. split; [|set_solver].
    destruct Hok' as (_ & _ & Hr & _). lia.
  - intros x f Hx. apply (kind_move _ _ sp); try done; cbn; intros y Hy; rewrite ?elem_of_cons, ?elem_unlink; tauto.
Qed.

Lemma alloc_free_ok st own cs cp c sp l :
  slab_inv st own cs -> cp ∈ cs -> caches st !! cp = Some c -> slabs_partial c = [] -> slabs_free c = sp :: l ->
  exists ret st', __cache_alloc st cp = Some (ret, st') /\ ret <> 0 /\ took st st' own cs cp ret.
Proof.
  intros Hinv Hcp Ec Hpart Hfree.
  assert (Hsp : sp ∈ all_slabs c) by (unfold all_slabs; rewrite Hfree; set_solver).
  destruct (inv_slab st own cs cp c sp Hinv Hcp Ec Hsp) as (HL & HB & s & Es & Hok & Hk).
  assert (Hf0 : free s = 0) by (apply (proj2 (proj2 Hk)); rewrite Hfree; set_solver).
  pose proof HL as (_ & Hnum & _).
  destruct (cache_alloc_step st own cs cp c sp s Hinv Hcp Ec Hsp Es ltac:(lia)) as (i & s' & Hi & Hcons & Hok' & Hf' & Hnz & Hrun).
  destruct (proj2 Hinv cp Hcp) as (? & ? & [_ _ Hnd Hcount _]). simplify_eq.
  rewrite (proj2 (Z.eqb_neq (free s') (num c)) ltac:(lia)) in Hrun.
  eexists _, _. unfold __cache_alloc. rewrite Ec. run_bind. rewrite Hpart. cbn [alloc_scan]. run_bind.
  cbn [negb Z.eqb NULL]. rewrite Ec. run_bind. rewrite Hfree. cbn [alloc_scan]. rewrite Hrun. run_bind.
  rewrite (proj2 (Z.eqb_neq _ _) Hnz : (obj_addr c sp i =? NULL) = false). run_bind.
  rewrite ?(proj2 (Z.eqb_neq _ _) Hnz : (obj_addr c sp i =? NULL) = false).
  cbn [set_cache set_slab caches]. rewrite lookup_insert_eq. run_bind.
  split; [done|]. split; [done|]. unfold set_cache. cbn [caches slabs pages]. rewrite insert_insert_eq.
  destruct (all_slabs_add (del_slab c sp) sp) as (Hpp & _ & _).
  assert (Hnf : sp ∉ slabs_full c ++ l).
  { unfold all_slabs in Hnd. rewrite Hpart, Hfree in Hnd. cbn [app] in Hnd.
    rewrite <- Permutation_middle in Hnd. by apply NoDup_cons in Hnd as [? _]. }
  match goal with |- took _ (mk_slab_state _ _ (<[_ := ?c2]> _)) _ _ _ _ =>
    apply (took_intro st own cs cp c c2 sp s s' i); try done end.
  - etransitivity; [exact Hpp|]. by apply del_slab_perm.
  - cbn. rewrite Hcount, Hfree. apply count_pred. set_solver.
  - unfold kind_ok. cbn. rewrite !elem_unlink. split; [lia|tauto].
  - intros x f Hx. apply (kind_move _ _ sp); try done; cbn; intros y Hy; rewrite ?elem_of_cons, ?elem_unlink; tauto.
Qed.

Lemma in_block_self sp o : 0 <= o -> in_block sp o sp.
Proof. intros. unfold in_block, PAGE_SIZE. pose proof (pow2_pos o ltac:(lia)). lia. Qed.

(** The slab that [cache_grow] builds has every object free. *)
Lemma fresh_slab_ok c sp :
  layout_ok c -> kernel_block sp (gfporder c) ->
  let s := mk_slab (u64 (sp + slab_head (num c))) 0 0 (index_list (num c) ++ [BUFCTL_END]) in
  slab_ok c sp s /\ free_objs (num c) s = index_list (num c).
Proof.
  intros HL (_ & Hlow & _ & Hb) s. pose proof HL as (Hs & Hn & _ & Hh & Hfit).
  assert (Hlen : length (index_list (num c)) = Z.to_nat (num c)) by (unfold index_list; apply length_seqZ).
  assert (Hfo : free_objs (num c) s = index_list (num c)).
  { unfold free_objs, s. cbn [free array]. change (Z.to_nat 0) with 0%nat. rewrite drop_0.
    rewrite take_app_le by lia. apply take_ge. lia. }
  split; [|done]. unfold slab_ok. rewrite Hfo. unfold s. cbn [s_mem inuse free array].
  unfold sizeof_slab, KERNEL_OFFSET in *. rewrite u64_small by nia.
  rewrite length_app, lookup_app_r by lia. rewrite Hlen, Nat.sub_diag. cbn [length].
  split_and!; try done; try lia.
  - apply NoDup_seqZ.
  - intros i Hi. apply elem_of_seqZ in Hi. lia.
Qed.

(** A slab map with one more slab at a new block. *)
Lemma cache_ok_grow st st' own cs cp c sp o :
  cache_ok st own cs cp c -> pa_inv (pages st) own -> own !! sp = None ->
  slabs st' = <[sp := o]> (slabs st) ->
  (forall x, pa_slab_of (pages st) x = Some cp -> (exists a o, own !! a = Some o /\ in_block a o x) ->
     pa_slab_of (pages st') x = Some cp) ->
  forall ord, cache_ok st' (<[sp := ord]> own) cs cp c.
Proof.
  intros [H1 H2 H3 H4 H5] Hp Hnone Hsl Hpa ord. split; try done.
  - rewrite lookup_insert_ne; [done|]. intros ->. congruence.
  - intros x Hx. destruct (H5 x Hx) as (Hcs & Ho & Hs & s & Es & Hk).
    assert (x <> sp) by (intros ->; congruence).
    split; [done|]. rewrite lookup_insert_ne by done. split; [done|]. split.
    + intros y Hy. apply Hpa; [by apply Hs|]. by exists x, (gfporder c).
    + exists s. by rewrite Hsl, lookup_insert_ne.
Qed.

Lemma live_grow st p cs cp c c' sp s :
  caches st !! cp = Some c -> same_shape c c' -> all_slabs c' ≡ₚ sp :: all_slabs c -> cp ∈ cs ->
  (forall cp' c1, cp' ∈ cs -> caches st !! cp' = Some c1 -> sp ∉ all_slabs c1) ->
  free_objs (num c) s = index_list (num c) ->
  forall cp' x j, cp' ∈ cs ->
    live (set_cache (set_slab (set_pages st p) sp s) cp c') cp' x j <-> live st cp' x j.
Proof.
  intros Ec (Hn & _) Hperm Hcp Hother Hfo cp' x j Hcp'. unfold live. cbn.
  destruct (decide (cp' = cp)) as [->|Hne].
  - rewrite lookup_insert_eq. split.
    + intros (? & t & [= <-] & Hin & Et & Hj). rewrite Hperm, elem_of_cons in Hin. rewrite Hn in Hj.
      destruct (decide (x = sp)) as [->|Hx].
      { rewrite lookup_insert_eq in Et. injection Et as <-. rewrite Hfo in Hj.
        destruct Hj as [Hj Hnj]. destruct Hnj. unfold index_list. apply elem_of_seqZ. lia. }
      rewrite lookup_insert_ne in Et by done. exists c, t. split; [done|]. split; [tauto|]. done.
    + intros (? & t & ? & Hin & Et & Hj). simplify_eq. exists c', t. rewrite Hperm, elem_of_cons, Hn.
      rewrite lookup_insert_ne; [by auto|]. intros ->. by apply (Hother cp c).
  - rewrite lookup_insert_ne by done.
    split; intros (c1 & t & E1 & Hin & Et & Hj); exists c1, t;
      (rewrite lookup_insert_ne || rewrite lookup_insert_ne in Et); try done;
      intros ->; by apply (Hother cp' c1).
Qed.

Lemma inv_grow st own cs cp c c' sp s p' :
  slab_inv st own cs -> cp ∈ cs -> caches st !! cp = Some c -> same_shape c c' ->
  slabs_partial c' = slabs_partial c -> slabs_full c' = slabs_full c -> slabs_free c' = sp :: slabs_free c ->
  free_slab c' = u32 (free_slab c + 1) -> own !! sp = None -> fresh_block own sp (gfporder c) ->
  slab_ok c sp s -> free s = 0 -> (forall x, pa_slab_of p' x = pa_slab_of (pages st) x) ->
  pa_inv p' (<[sp := gfporder c]> own) ->
  slab_inv (set_cache (set_slab (set_pages st (pa_set_slab p' sp (gfporder c) cp)) sp s) cp c')
    (<[sp := gfporder c]> own) cs.
Proof.
  intros [Hp Hc] Hcp Ec (Hn & Hz & Ho) Hlp Hlf Hle Hcnt Hnone Hfresh Hsok Hf0 Hsame Hp'.
  assert (Hown : <[sp := gfporder c]> own !! sp = Some (gfporder c)) by apply lookup_insert_eq.
  set (st' := set_cache _ cp c'). split; [by apply pa_set_slab_inv|].
  assert (Hkeep : forall cp' x, pa_slab_of (pages st) x = Some cp' ->
    (exists a o, own !! a = Some o /\ in_block a o x) -> pa_slab_of (pages st') x = Some cp').
  { intros cp' x Hx (a & o & Ha & Hb). cbn.
    destruct (pa_inv_blocks _ _ _ _ Hp Ha) as (_ & Hlow & _ & Hhigh).
    rewrite (pa_set_slab_out p' (<[sp := gfporder c]> own)); [by rewrite Hsame|done|done| |].
    - unfold in_block, KERNEL_OFFSET in *. lia.
    - by apply (Hfresh a o x). }
  assert (Hgrow : forall cp' c1, cp' ∈ cs -> caches st !! cp' = Some c1 ->
    cache_ok st' (<[sp := gfporder c]> own) cs cp' c1).
  { intros cp' c1 Hcp' E1. destruct (Hc cp' Hcp') as (? & ? & Hok1). simplify_eq.
    eapply (cache_ok_grow st st'); [done..|]. by apply Hkeep. }
  intros cp' Hcp'. cbn [caches st' set_cache]. destruct (decide (cp' = cp)) as [->|Hne].
  2: { destruct (Hc cp' Hcp') as (c1 & E1 & _). exists c1. rewrite lookup_insert_ne by done. auto. }
  exists c'. rewrite lookup_insert_eq. split; [done|].
  destruct (Hgrow cp c Hcp Ec) as [H1 H2 H3 H4 H5].
  assert (Hsp : sp ∉ all_slabs c).
  { intros Hin. destruct (Hc cp Hcp) as (? & ? & Hok1). simplify_eq.
    destruct (co_slab _ _ _ _ _ Hok1 sp Hin) as (_ & ? & _). congruence. }
  assert (Hperm : all_slabs c' ≡ₚ sp :: all_slabs c).
  { unfold all_slabs. rewrite Hlp, Hlf, Hle. by rewrite <- !Permutation_middle. }
  split; [done| | | |].
  - unfold layout_ok in *. by rewrite Hn, Hz, Ho.
  - rewrite Hperm. by apply NoDup_cons.
  - rewrite Hcnt, H4, Hle. apply count_succ.
  - intros x Hx. unfold slab_ok, kind_ok in *. rewrite Ho, Hn, Hlp, Hlf, Hle.
    rewrite Hperm, elem_of_cons in Hx. destruct (decide (x = sp)) as [->|Hxs].
    + split; [|split; [done|split]].
      * intros Hin. destruct (Hc sp Hin) as (? & _ & Hok1). pose proof (co_own _ _ _ _ _ Hok1). congruence.
      * intros y Hy. by apply (pa_set_slab_in _ (<[sp := gfporder c]> own)).
      * exists s. cbn. rewrite lookup_insert_eq. split; [done|]. split; [done|]. rewrite Hf0.
        unfold all_slabs in Hsp. set_solver.
    + destruct (H5 x) as (K1 & K2 & K3 & t & Et & K4 & K5); [tauto|].
      split; [done|]. split; [done|]. split; [done|]. exists t. split; [done|]. split; [done|].
      rewrite elem_of_cons. tauto.
Qed.

Lemma inv_same_pages st own cs p' :
  slab_inv st own cs -> (forall x, pa_slab_of p' x = pa_slab_of (pages st) x) -> pa_inv p' own ->
  slab_inv (set_pages st p') own cs.
Proof.
  intros [Hp Hc] Hsame Hp'. split; [done|]. intros cp Hcp. destruct (Hc cp Hcp) as (c & E & Hok).
  exists c. split; [done|]. eapply cache_ok_frame; [exact Hok|..]; try done.
  - intros x Hx. cbn. by rewrite Hsame.
  - intros x Hx. by destruct (co_slab _ _ _ _ _ Hok x Hx).
Qed.

Lemma cache_grow_ok st own cs cp c :
  slab_inv st own cs -> cp ∈ cs -> caches st !! cp = Some c ->
  exists e st', cache_grow st cp = Some (e, st') /\
    (forall cp' x j, obj_of st' cp' x j = obj_of st cp' x j) /\
    (forall cp' x j, cp' ∈ cs -> live st' cp' x j <-> live st cp' x j) /\
    ((e = -1 /\ slab_inv st' own cs /\ caches st' = caches st /\
      pa_alloc (pages st) (gfporder c) = Some (0, pages st')) \/
     (e = 0 /\ exists sp c', own !! sp = None /\ slab_inv st' (<[sp := gfporder c]> own) cs /\
        caches st' !! cp = Some c' /\ same_shape c c' /\
        slabs_partial c' = slabs_partial c /\ slabs_free c' = sp :: slabs_free c)).
Proof.
  intros Hinv Hcp Ec. pose proof Hinv as [Hp Hc].
  destruct (Hc cp Hcp) as (? & ? & Hok). simplify_eq. pose proof (co_layout _ _ _ _ _ Hok) as HL.
  destruct (pa_alloc_ok (pages st) own (gfporder c) Hp) as (sp & p' & Ha & Hsame & Hr); [apply HL|].
  unfold cache_grow, kmem_getpages. rewrite Ec. run_bind. rewrite Ha. run_bind.
  destruct Hr as [[-> Hp']|(HB & Hfresh & Hnone & Hp')].
  { run_bind. cbn [Z.eqb]. run_bind. cbn [Z.eqb]. eexists _, _. split; [done|]. split; [done|].
    split; [done|]. left. split; [done|]. split; [|done]. by apply inv_same_pages. }
  assert (Hnz : (sp =? 0) = false) by (apply Z.eqb_neq; destruct HB as (_ & ? & _); unfold KERNEL_OFFSET in *; lia).
  rewrite Hnz. run_bind. rewrite Hnz. cbn [set_pages caches]. rewrite Ec. run_bind.
  set (s := mk_slab _ 0 0 _). set (c' := add_free _ sp). eexists _, _. split; [done|].
  destruct (fresh_slab_ok c sp HL HB) as [Hsok Hfo]. fold s in Hsok, Hfo.
  destruct (all_slabs_add c sp) as (_ & _ & Hperm).
  split; [|split].
  - intros cp' x j. apply (obj_of_update (set_pages st _) cp c c' sp s Ec). done.
  - apply (live_grow st _ cs cp c c' sp s); try done.
    intros cp' c1 Hcp' E1 Hin. destruct (Hc cp' Hcp') as (? & ? & Hok1). simplify_eq.
    destruct (co_slab _ _ _ _ _ Hok1 sp Hin) as (_ & ? & _). congruence.
  - right. split; [done|]. exists sp, c'. split; [done|]. split; [by eapply inv_grow|].
    cbn [caches set_cache]. by rewrite lookup_insert_eq.
Qed.

(** ** Objects in use never overlap *)

Lemma live_slab st own cs cp c sp i :
  slab_inv st own cs -> cp ∈ cs -> caches st !! cp = Some c -> live st cp sp i ->
  0 <= i < num c /\ sp ∈ all_slabs c /\ own !! sp = Some (gfporder c) /\ layout_ok c /\
  kernel_block sp (gfporder c) /\
  (forall x, in_block sp (gfporder c) x -> pa_slab_of (pages st) x = Some cp).
Proof.
  intros [Hp Hc] Hcp Ec (? & ? & ? & Hin & _ & Hi & _). simplify_eq.
  destruct (Hc cp Hcp) as (? & ? & Hok). simplify_eq.
  destruct (co_slab _ _ _ _ _ Hok sp Hin) as (_ & Ho & Hs & _).
  pose proof (pa_inv_blocks _ _ _ _ Hp Ho). pose proof (co_layout _ _ _ _ _ Hok). done.
Qed.

Lemma live_disjoint st own cs cp cp' c c' sp sp' i j x :
  slab_inv st own cs -> cp ∈ cs -> cp' ∈ cs ->
  caches st !! cp = Some c -> caches st !! cp' = Some c' ->
  live st cp sp i -> live st cp' sp' j ->
  obj_addr c sp i <= x < obj_addr c sp i + size c ->
  obj_addr c' sp' j <= x < obj_addr c' sp' j + size c' ->
  cp = cp' /\ sp = sp' /\ i = j.
Proof.
  intros Hinv Hcp Hcp' Ec Ec' Hl Hl' Hx Hx'.
  destruct (live_slab st own cs cp c sp i Hinv Hcp Ec Hl) as (Hi & Hin & Ho & HL & _).
  destruct (live_slab st own cs cp' c' sp' j Hinv Hcp' Ec' Hl') as (Hj & Hin' & Ho' & HL' & _).
  pose proof (obj_addr_in c sp i HL Hi) as [B1 B2]. pose proof (obj_addr_in c' sp' j HL' Hj) as [B1' B2'].
  unfold sizeof_slab in *.
  assert (sp = sp') as <-.
  { apply (pa_inv_disjoint (pages st) own sp (gfporder c) sp' (gfporder c') x (proj1 Hinv) Ho Ho');
      unfold in_block; lia. }
  assert (cp = cp') as <- by (by eapply (slab_of_one_cache st own cs cp cp' c c' sp)).
  simplify_eq. split; [done|]. split; [done|]. unfold obj_addr in *. destruct HL as (Hs & _). nia.
Qed.

Lemma took_allocated st st' own cs cp ret :
  took st st' own cs cp ret -> cp ∈ cs -> slab_inv st own cs ->
  (forall cp' o, cp' ∈ cs -> allocated st' cp' o <-> allocated st cp' o \/ (cp' = cp /\ o = ret)) /\
  exists c sp, caches st' !! cp = Some c /\ own !! sp = Some (gfporder c) /\
    sp + sizeof_slab <= ret /\ ret + size c <= sp + PAGE_SIZE * 2 ^ gfporder c /\
    pa_slab_of (pages st') ret = Some cp /\
    forall cp' c' o x, cp' ∈ cs -> caches st' !! cp' = Some c' -> allocated st cp' o ->
      o <= x < o + size c' -> ~ ret <= x < ret + size c.
Proof.
  intros (Hinv' & Hpg & Hobj & sp & i & Hret & Hnl & Hl & Hlive) Hcp Hinv. split.
  - intros cp' o Hcp'. unfold allocated. setoid_rewrite Hobj. setoid_rewrite Hlive; [|done]. split.
    + intros (x & j & [Hx|(-> & -> & ->)] & Ho); [by eauto|]. right. split; [done|]. congruence.
    + intros [(x & j & ? & ?)|[-> ->]]; [by eauto 6|]. exists sp, i. auto.
  - rewrite <- Hobj in Hret. unfold obj_of in Hret. destruct (caches st' !! cp) as [c|] eqn:Ec; [|done].
    simpl in Hret. injection Hret as <-.
    destruct (live_slab st' own cs cp c sp i Hinv' Hcp Ec Hl) as (Hi & Hin & Ho & HL & HB & Hs).
    pose proof (obj_addr_in c sp i HL Hi) as [B1 B2]. unfold sizeof_slab in *.
    exists c, sp. split; [done|]. split; [done|]. split; [done|]. split; [done|]. split.
    + apply Hs. destruct HL as (? & _). unfold in_block. lia.
    + intros cp' c' o x Hcp' Ec' (x' & j & Hl2 & Hobj2) Hx Hx2.
      rewrite <- Hobj in Hobj2. unfold obj_of in Hobj2. rewrite Ec' in Hobj2. simpl in Hobj2. injection Hobj2 as <-.
      destruct (live_disjoint st' own cs cp' cp c' c x' sp j i x) as (-> & -> & ->); try done.
      apply Hlive; auto.
Qed.

Lemma allocated_same st st' cs :
  (forall cp' x j, obj_of st' cp' x j = obj_of st cp' x j) ->
  (forall cp' x j, cp' ∈ cs -> live st' cp' x j <-> live st cp' x j) ->
  forall cp' o, cp' ∈ cs -> allocated st' cp' o <-> allocated st cp' o.
Proof. intros Ho Hl cp' o Hcp'. unfold allocated. setoid_rewrite Ho. by setoid_rewrite Hl. Qed.

Lemma cache_alloc_none st cp c :
  caches st !! cp = Some c -> slabs_partial c = [] -> slabs_free c = [] -> __cache_alloc st cp = Some (0, st).
Proof.
  intros Ec Hp Hf. unfold __cache_alloc. rewrite Ec. run_bind. rewrite Hp. cbn [alloc_scan]. run_bind.
  cbn [negb Z.eqb NULL]. rewrite Ec. run_bind. rewrite Hf. cbn [alloc_scan]. by run_bind.
Qed.

(** No slab of the cache has an object left, and the page allocator has no block for
    another one. *)
Definition exhausted st c : Prop := slabs_partial c = [] /\ slabs_free c = [] /\ exists p, pa_alloc (pages st) (gfporder c) = Some (0, p).

Lemma exhausted_null st cp c : caches st !! cp = Some c -> exhausted st c -> exists st', kmem_cache_alloc st cp = Some (0, st').
Proof.
  intros Ec (Hp & Hf & p & Ha). unfold kmem_cache_alloc. rewrite (cache_alloc_none st cp c) by done. run_bind. cbn [Z.eqb NULL].
  unfold cache_grow, kmem_getpages. rewrite Ec. run_bind. rewrite Ha. run_bind. cbn [Z.eqb]. run_bind. by eexists.
Qed.

(** What [kmem_cache_alloc] guarantees when it returns [ret]. *)
Definition alloc_post st st' own cs cp ret : Prop :=
  exists own', own ⊆ own' /\ slab_inv st' own' cs /\
  (forall cp' o, cp' ∈ cs -> allocated st' cp' o <-> allocated st cp' o \/ (cp' = cp /\ o = ret)) /\
  exists c sp, caches st' !! cp = Some c /\ own' !! sp = Some (gfporder c) /\
    sp + sizeof_slab <= ret /\ ret + size c <= sp + PAGE_SIZE * 2 ^ gfporder c /\
    pa_slab_of (pages st') ret = Some cp /\
    forall cp' c' o x, cp' ∈ cs -> caches st' !! cp' = Some c' -> allocated st cp' o ->
      o <= x < o + size c' -> ~ ret <= x < ret + size c.

Lemma kmem_cache_alloc_ok st own cs cp c :
  slab_inv st own cs -> cp ∈ cs -> caches st !! cp = Some c ->
  exists ret st', kmem_cache_alloc st cp = Some (ret, st') /\
    ((ret = 0 /\ slab_inv st' own cs /\ slabs_partial c = [] /\ slabs_free c = [] /\
      pa_alloc (pages st) (gfporder c) = Some (0, pages st') /\
      forall cp' o, cp' ∈ cs -> allocated st' cp' o <-> allocated st cp' o) \/
     (ret <> 0 /\ alloc_post st st' own cs cp ret)).
Proof.
  intros Hinv Hcp Ec. unfold kmem_cache_alloc.
  assert (Hdirect : (exists ret st', __cache_alloc st cp = Some (ret, st') /\ ret <> 0 /\ took st st' own cs cp ret) \/
    (slabs_partial c = [] /\ slabs_free c = [])).
  { destruct (slabs_partial c) as [|sp l] eqn:Hp; [|left; by eapply alloc_partial_ok].
    destruct (slabs_free c) as [|sp l] eqn:Hf; [by right|left; by eapply alloc_free_ok]. }
  destruct Hdirect as [(ret & st' & -> & Hnz & Ht)|[Hp Hf]].
  - exists ret, st'. run_bind. rewrite (proj2 (Z.eqb_neq _ _) Hnz : (ret =? NULL) = false). split; [done|].
    right. split; [done|]. exists own. split; [done|]. split; [apply Ht|]. by apply took_allocated.
  - rewrite (cache_alloc_none st cp c) by done. run_bind. cbn [Z.eqb NULL].
    destruct (cache_grow_ok st own cs cp c Hinv Hcp Ec) as (e & st1 & -> & Hobj & Hlive & Hr). run_bind.
    pose proof (allocated_same st st1 cs Hobj Hlive) as Hal.
    destruct Hr as [(-> & Hinv1 & Hca & Hpa)|(-> & sp & c1 & Hnone & Hinv1 & Ec1 & Hsh & Hp1 & Hf1)]; cbn [Z.eqb].
    + exists 0, st1. split; [done|]. left. done.
    + rewrite Hp in Hp1.
      destruct (alloc_free_ok st1 _ cs cp c1 sp _ Hinv1 Hcp Ec1 Hp1 Hf1) as (ret & st' & -> & Hnz & Ht).
      exists ret, st'. split; [done|]. right. split; [done|]. exists (<[sp := gfporder c]> own).
      split; [by apply insert_subseteq|]. split; [apply Ht|].
      destruct (took_allocated _ _ _ _ _ _ Ht Hcp Hinv1) as [HA HB]. split.
      * intros cp' o Hcp'. rewrite HA, Hal by done. done.
      * destruct HB as (c2 & sp2 & ? & ? & ? & ? & ? & Hd). exists c2, sp2. split_and!; try done.
        intros cp' c' o x Hcp' Ec' Hal'. apply (Hd cp'); [done|done|]. by apply Hal.
Qed.

Lemma alloc_null st own cs cp c ret st' :
  slab_inv st own cs -> cp ∈ cs -> caches st !! cp = Some c -> kmem_cache_alloc st cp = Some (ret, st') -> ret = 0 <-> exhausted st c.
Proof.
  intros H Hcp Hc E. destruct (kmem_cache_alloc_ok st own cs cp c H Hcp Hc) as (? & ? & E' & Hr). rewrite E in E'. injection E' as <- <-.
  split; [|intros Hx; destruct (exhausted_null st cp c Hc Hx) as (? & E'); congruence].
  intros ->. destruct Hr as [(_ & _ & Hp & Hf & Ha & _)|[? _]]; [|done]. split; [done|]. split; [done|]. by eexists.
Qed.

(** ** Freeing an object *)

(** A slab with no object handed out has none in use. *)
Lemma free_all c sp s i :
  slab_ok c sp s -> free s = 0 -> 0 <= i < num c -> i ∈ free_objs (num c) s.
Proof.
  intros (_ & _ & _ & Hl & _ & Hnd & Hr) Hf Hi.
  assert (Hsub : free_objs (num c) s ⊆+ seqZ 0 (num c)).
  { apply NoDup_submseteq; [done|]. intros j Hj. apply elem_of_seqZ. pose proof (Hr j Hj). lia. }
  assert (Hlen : length (seqZ 0 (num c)) = length (free_objs (num c) s)).
  { rewrite length_seqZ. unfold free_objs. rewrite Hf, drop_0, length_take. lia. }
  rewrite (submseteq_length_Permutation _ _ Hsub) by lia. apply elem_of_seqZ. lia.
Qed.

Lemma slab_index_own c sp s i :
  layout_ok c -> kernel_block sp (gfporder c) -> slab_ok c sp s -> 0 <= i < num c ->
  slab_index c s (obj_addr c sp i) = i.
Proof.
  intros HL (_ & Hlow & _ & Hb) (Hm & _) Hi. pose proof (obj_addr_in c sp (num c - 1) HL ltac:(destruct HL; lia)) as [_ Hfit].
  destruct HL as (Hs & Hn & _ & Hh & _). unfold slab_index. rewrite Hm. unfold sizeof_slab, obj_addr, KERNEL_OFFSET in *.
  rewrite (u32_small (num c - 1)) by lia. rewrite u32_small by nia. rewrite u64_small by nia.
  rewrite (proj2 (Z.ltb_ge _ _)) by nia. rewrite (proj2 (Z.ltb_ge _ _)) by nia.
  replace (sp + slab_head (num c) + size c * i - (sp + slab_head (num c))) with (i * size c) by lia.
  rewrite Z.div_mul by lia. apply swrap_small; lia.
Qed.

Lemma slab_index_other c sp s o :
  layout_ok c -> kernel_block sp (gfporder c) -> slab_ok c sp s -> ~ in_block sp (gfporder c) o ->
  slab_index c s o = -1.
Proof.
  intros HL (_ & Hlow & _ & Hb) (Hm & _) Ho. pose proof (obj_addr_in c sp (num c - 1) HL ltac:(destruct HL; lia)) as [_ Hfit].
  destruct HL as (Hs & Hn & _ & Hh & _). unfold slab_index. rewrite Hm.
  unfold in_block, sizeof_slab, obj_addr, KERNEL_OFFSET in *.
  rewrite (u32_small (num c - 1)) by lia. rewrite u32_small by nia. rewrite u64_small by nia.
  case_if; [done|]. case_if; [done|]. nia.
Qed.

Lemma free_scan_ok st own cs cp c sp i l a :
  slab_inv st own cs -> cp ∈ cs -> caches st !! cp = Some c -> live st cp sp i ->
  (forall x, x ∈ l -> x ∈ all_slabs c) ->
  (sp ∈ l -> free_scan st c (obj_addr c sp i) l a (-1) = Some (sp, i)) /\
  (sp ∉ l -> exists a', free_scan st c (obj_addr c sp i) l a (-1) = Some (a', -1)).
Proof.
  intros Hinv Hcp Ec Hlv. destruct (live_slab st own cs cp c sp i Hinv Hcp Ec Hlv) as (Hi & Hin & Ho & HL & HB & _).
  pose proof (obj_addr_in c sp i HL Hi) as [B1 B2].
  revert a. induction l as [|x l IH]; intros a Hl; cbn [free_scan]; [split; [set_solver|eauto]|].
  destruct (inv_slab st own cs cp c x Hinv Hcp Ec (Hl x ltac:(set_solver))) as (_ & HBx & s & -> & Hok & _).
  run_bind. destruct (IH x ltac:(set_solver)) as [IH1 IH2]. destruct (decide (x = sp)) as [->|Hne].
  - rewrite slab_index_own by done. rewrite (proj2 (Z.eqb_neq i (-1))) by lia. split; [done|set_solver].
  - rewrite (slab_index_other c x s); [|done|done|done|].
    + split; intros H; [apply IH1|apply IH2]; set_solver.
    + intros Hb. apply Hne. destruct (proj2 Hinv cp Hcp) as (? & ? & Hcok). simplify_eq.
      destruct (co_slab _ _ _ _ _ Hcok x (Hl x ltac:(set_solver))) as (_ & Hox & _).
      eapply (pa_inv_disjoint (pages st) own); [apply Hinv|done|exact Ho|exact Hb|].
      unfold in_block, sizeof_slab in *. destruct HL as (? & _). lia.
Qed.

(** The two scans of [__cache_free] find the slab of an object in use. *)
Lemma free_search st own cs cp c sp i :
  slab_inv st own cs -> cp ∈ cs -> caches st !! cp = Some c -> live st cp sp i -> sp ∉ slabs_free c ->
  (r ← free_scan st c (obj_addr c sp i) (slabs_full c) NULL (-1);
   let '(slabp, ind) := r in
   if negb (ind =? -1) then Some (slabp, ind)
   else free_scan st c (obj_addr c sp i) (slabs_partial c) slabp ind) = Some (sp, i).
Proof.
  intros Hinv Hcp Ec Hlv Hnfree.
  destruct (live_slab st own cs cp c sp i Hinv Hcp Ec Hlv) as (Hi & Hin & _).
  destruct (free_scan_ok st own cs cp c sp i (slabs_full c) NULL Hinv Hcp Ec Hlv) as [F1 F2].
  { unfold all_slabs. set_solver. }
  destruct (decide (sp ∈ slabs_full c)) as [Hfull|Hnfull].
  - rewrite F1 by done. run_bind. by rewrite (proj2 (Z.eqb_neq i (-1))) by lia.
  - destruct (F2 Hnfull) as (a' & ->). run_bind. rewrite Z.eqb_refl. cbn [negb].
    apply (free_scan_ok st own cs cp c sp i (slabs_partial c)); try done; unfold all_slabs in *; set_solver.
Qed.

(** [st'] is [st] without the object [i] of slab [sp] of [cp]. *)
Definition gave st st' own cs cp sp i : Prop :=
  slab_inv st' own cs /\ pages st' = pages st /\
  (forall cp' x j, obj_of st' cp' x j = obj_of st cp' x j) /\
  forall cp' x j, cp' ∈ cs -> live st' cp' x j <-> live st cp' x j /\ ~ (cp' = cp /\ x = sp /\ j = i).

Lemma gave_intro st own cs cp c c' sp s s' i :
  slab_inv st own cs -> cp ∈ cs -> caches st !! cp = Some c -> sp ∈ all_slabs c ->
  slabs st !! sp = Some s -> same_shape c c' -> all_slabs c' ≡ₚ all_slabs c ->
  free_slab c' = u32 (Z.of_nat (length (slabs_free c'))) ->
  slab_ok c sp s' -> kind_ok c' sp (free s') ->
  (forall x f, x <> sp -> kind_ok c x f -> kind_ok c' x f) ->
  0 <= i < num c -> free_objs (num c) s' = i :: free_objs (num c) s ->
  gave st (set_cache (set_slab st sp s') cp c') own cs cp sp i.
Proof.
  intros Hinv Hcp Ec Hsp Es Hsh Hperm Hcount Hok Hk Hkeep Hi Hcons.
  split; [by eapply inv_update|]. split; [done|]. split; [by apply (obj_of_update st cp c)|].
  intros cp' x j Hcp'. rewrite (live_update st cp c c' sp s' Ec Hsh Hperm Hsp cp' x j).
  2: { intros Hne c1 E1 Hin. apply Hne. by eapply (slab_of_one_cache st own cs cp' cp c1 c sp). }
  case_decide as Hd; [|tauto]. destruct Hd as [-> ->]. rewrite Hcons, not_elem_of_cons. unfold live. split.
  - intros (Hj & Hne & Hnj). split; [|tauto]. by exists c, s.
  - intros [(? & ? & ? & _ & ? & Hj & Hnj) Hne]. simplify_eq. split; [done|]. split; [|done]. intros ->. tauto.
Qed.

Lemma cache_free_ok st own cs cp c sp s i :
  slab_inv st own cs -> cp ∈ cs -> caches st !! cp = Some c -> live st cp sp i -> slabs st !! sp = Some s ->
  exists st', __cache_free st cp (obj_addr c sp i) = Some st' /\ gave st st' own cs cp sp i /\
    exists c', caches st' !! cp = Some c' /\ same_shape c c' /\ all_slabs c' ≡ₚ all_slabs c /\
      if free s =? 1 then slabs_free c' = sp :: slabs_free c /\ free_slab c' = u32 (free_slab c + 1)
      else c' = c.
Proof.
  intros Hinv Hcp Ec Hlv Es.
  destruct (live_slab st own cs cp c sp i Hinv Hcp Ec Hlv) as (Hi & Hin & Ho & HL & HB & _).
  destruct (inv_slab st own cs cp c sp Hinv Hcp Ec Hin) as (_ & _ & ? & ? & Hok & Hk). simplify_eq.
  pose proof Hlv as (? & ? & ? & _ & ? & _ & Hni). simplify_eq.
  assert (Hf : 0 < free s).
  { destruct (decide (free s = 0)) as [E|]; [by destruct Hni; apply (free_all c sp)|].
    destruct Hok as (_ & _ & ? & _). lia. }
  assert (Hnfree : sp ∉ slabs_free c) by (intros H; pose proof (proj2 (proj2 Hk) H); lia).
  destruct (free_objs_put c sp s i Hok HL Hf Hi Hni) as [Hcons Hok'].
  destruct (proj2 Hinv cp Hcp) as (? & ? & [_ _ Hnd Hcount _]). simplify_eq.
  pose proof (free_search st own cs cp c sp i Hinv Hcp Ec Hlv Hnfree) as Hscan.
  unfold __cache_free. rewrite Ec. run_bind.
  destruct (free_scan st c (obj_addr c sp i) (slabs_full c) NULL (-1)) as [[a b]|]; [|done].
  revert Hscan. run_bind. intros ->. run_bind. rewrite Es. run_bind.
  rewrite (proj2 (Z.eqb_neq (free s) 0)) by lia. cbn [inuse].
  pose proof Hok as (_ & Hiu & Hfr & _). pose proof HL as (_ & Hnum & _).
  rewrite (u32_small (inuse s - 1)) by lia. replace (u16 i) with i by (symmetry; apply uwrap_small; lia).
  set (s' := mk_slab _ _ _ _) in *. eexists. split; [done|].
  destruct (free s =? 1) eqn:E1; zbool.
  - rewrite (proj2 (Z.eqb_eq (inuse s - 1) 0)) by lia.
    destruct (all_slabs_add (del_slab c sp) sp) as (_ & _ & Hpe).
    set (c' := with_counts _ _ _).
    assert (Hperm : all_slabs c' ≡ₚ all_slabs c).
    { etransitivity; [exact Hpe|]. by apply del_slab_perm. }
    split.
    + apply (gave_intro st own cs cp c c' sp s s' i); try done.
      * cbn. rewrite unlink_not_in, Hcount by done. apply (count_succ (slabs_free c) sp).
      * unfold kind_ok. cbn. rewrite !elem_unlink. split; [tauto|]. split; [tauto|lia].
      * intros x f Hx. apply (kind_move _ _ sp); try done; cbn; intros y Hy; rewrite ?elem_of_cons, ?elem_unlink; tauto.
    + exists c'. cbn [caches set_cache]. rewrite lookup_insert_eq. split; [done|]. split; [done|].
      split; [done|]. cbn. by rewrite unlink_not_in.
  - rewrite (proj2 (Z.eqb_neq (inuse s - 1) 0)) by lia. split; [|by exists c].
    replace (set_slab st sp s') with (set_cache (set_slab st sp s') cp c).
    + apply (gave_intro st own cs cp c c sp s s' i); try done.
      destruct Hk as (K1 & K2 & K3). unfold kind_ok, s'. cbn. split; [|split]; [|lia|tauto].
      intros Hpt. pose proof (K1 Hpt). lia.
    + unfold set_cache, set_slab. cbn [pages slabs caches]. by rewrite (insert_id (caches st)) by done.
Qed.

Lemma gave_allocated st st' own cs cp c sp i :
  gave st st' own cs cp sp i -> slab_inv st own cs -> cp ∈ cs -> caches st !! cp = Some c -> live st cp sp i ->
  forall cp' o, cp' ∈ cs ->
    allocated st' cp' o <-> allocated st cp' o /\ ~ (cp' = cp /\ o = obj_addr c sp i).
Proof.
  intros (_ & _ & Hobj & Hlive) Hinv Hcp Ec Hl cp' o Hcp'. unfold allocated. setoid_rewrite Hobj.
  setoid_rewrite Hlive; [|done]. split.
  - intros (x & j & [Hx Hne] & Ho). split; [by eauto|]. intros [-> ->].
    unfold obj_of in Ho. rewrite Ec in Ho. simpl in Ho. injection Ho as Ho.
    destruct (live_slab st own cs cp c sp i Hinv Hcp Ec Hl) as (_ & _ & _ & (Hs & _) & _).
    destruct (live_disjoint st own cs cp cp c c x sp j i (obj_addr c sp i)) as (_ & -> & ->); try done; lia.
  - intros [(x & j & Hx & Ho) Hne]. exists x, j. split; [|done]. split; [done|]. intros (-> & -> & ->).
    apply Hne. split; [done|]. unfold obj_of in Ho. rewrite Ec in Ho. by injection Ho.
Qed.

Lemma reclaim_none fuel st cp c :
  caches st !! cp = Some c -> free_slab c <= SLAB_MAX_FREE -> reclaim fuel st cp = Some st.
Proof.
  intros Ec Hf. destruct fuel; cbn [reclaim]; [done|]. rewrite Ec. some_bind.
  by rewrite (proj2 (Z.leb_le _ _) Hf).
Qed.

Lemma kmem_cache_free_ok st own cs cp c obj :
  slab_inv st own cs -> cp ∈ cs -> caches st !! cp = Some c -> allocated st cp obj ->
  free_slab c < SLAB_MAX_FREE ->
  exists st', kmem_cache_free st cp obj = Some st' /\ slab_inv st' own cs /\ pages st' = pages st /\
    (exists c', caches st' !! cp = Some c' /\ all_slabs c' ≡ₚ all_slabs c) /\
    forall cp' o, cp' ∈ cs -> allocated st' cp' o <-> allocated st cp' o /\ ~ (cp' = cp /\ o = obj).
Proof.
  intros Hinv Hcp Ec (sp & i & Hl & Ho) Hfs. unfold obj_of in Ho. rewrite Ec in Ho. injection Ho as <-.
  pose proof Hl as (? & s & ? & _ & Es & _). simplify_eq.
  destruct (cache_free_ok st own cs cp c sp s i Hinv Hcp Ec Hl Es) as (st' & Hrun & Hg & c' & Ec' & Hsh & Hperm & Hc').
  exists st'. unfold kmem_cache_free. rewrite Hrun. some_bind. rewrite Ec'. some_bind.
  destruct (proj2 Hinv cp Hcp) as (? & ? & Hok). simplify_eq. pose proof (co_count _ _ _ _ _ Hok) as Hcnt.
  assert (0 <= free_slab c) by (rewrite Hcnt; apply uwrap_range; lia).
  assert (free_slab c' <= SLAB_MAX_FREE).
  { destruct (free s =? 1); [|subst c'; lia]. destruct Hc' as [_ ->]. unfold SLAB_MAX_FREE in *.
    rewrite u32_small by lia. lia. }
  split; [by apply (reclaim_none _ st' cp c')|]. split; [apply Hg|]. split; [apply Hg|].
  split; [by exists c'|]. by apply (gave_allocated st st' own cs cp c sp i).
Qed.

(** With [SLAB_MAX_FREE] slabs already empty, freeing the last object of another
    one gives that slab back to the page allocator and leaves it on the list. *)
Lemma reclaim_keeps_slab st own cs cp c obj :
  slab_inv st own cs -> cp ∈ cs -> caches st !! cp = Some c ->
  free_slab c = SLAB_MAX_FREE -> allocated st cp obj ->
  (forall sp s, sp ∈ all_slabs c -> slabs st !! sp = Some s -> in_block sp (gfporder c) obj -> free s = 1) ->
  exists st' sp c', kmem_cache_free st cp obj = Some st' /\ in_block sp (gfporder c) obj /\
    own !! sp = Some (gfporder c) /\ pa_inv (pages st') (delete sp own) /\
    caches st' !! cp = Some c' /\ slabs_free c' = sp :: slabs_free c /\
    ~ slab_inv st' (delete sp own) cs.
Proof.
  intros Hinv Hcp Ec Hfs (sp & i & Hl & Ho) Hlast. unfold obj_of in Ho. rewrite Ec in Ho. injection Ho as <-.
  pose proof Hl as (? & s & ? & _ & Es & _). simplify_eq.
  destruct (live_slab st own cs cp c sp i Hinv Hcp Ec Hl) as (Hi & Hin & Hown & HL & _).
  assert (Hblk : in_block sp (gfporder c) (obj_addr c sp i)).
  { pose proof (obj_addr_in c sp i HL Hi). destruct HL as (? & _). unfold in_block, sizeof_slab in *. lia. }
  destruct (cache_free_ok st own cs cp c sp s i Hinv Hcp Ec Hl Es) as (st1 & Hrun & Hg & c1 & Ec1 & Hsh & Hperm & Hc1).
  rewrite (Hlast sp s Hin Es Hblk) in Hc1. cbn in Hc1. destruct Hc1 as [Hfree Hcnt].
  rewrite Hfs in Hcnt. change (u32 (SLAB_MAX_FREE + 1)) with 5 in Hcnt.
  pose proof Hg as (Hinv1 & _). destruct Hsh as (_ & _ & Hord).
  destruct (pa_free_ok (pages st1) own sp (gfporder c) (proj1 Hinv1) Hown) as (p' & Hpf & Hpi & _).
  unfold kmem_cache_free. rewrite Hrun. some_bind. rewrite Ec1. some_bind. rewrite Hcnt.
  change (Z.to_nat 5) with 5%nat. cbn [reclaim]. rewrite Ec1. some_bind. rewrite Hcnt, Hfree, Hord.
  cbn [Z.leb Z.compare SLAB_MAX_FREE head]. change (5 <=? SLAB_MAX_FREE) with false. cbv iota.
  some_bind. rewrite Hpf. some_bind.
  cbn [set_cache set_pages caches]. rewrite lookup_insert_eq. some_bind.
  change (free_slab (with_counts c1 (total_slab c1) (5 - 1)) <=? SLAB_MAX_FREE) with true. cbv iota.
  eexists _, sp, _. split; [done|]. split; [done|]. split; [done|]. split; [done|].
  cbn [set_cache set_pages caches]. rewrite lookup_insert_eq. split; [done|]. split; [done|].
  intros [_ Hc]. destruct (Hc cp Hcp) as (c2 & Ec2 & Hok2). cbn [set_cache set_pages caches] in Ec2. rewrite lookup_insert_eq in Ec2.
  injection Ec2 as <-. destruct (co_slab _ _ _ _ _ Hok2 sp) as (_ & Hbad & _).
  - unfold all_slabs. cbn. rewrite Hfree. set_solver.
  - by rewrite lookup_delete_eq in Hbad.
Qed.

(** ** Creating and destroying caches *)

Lemma inv_add_cache st own cs cp c p' :
  slab_inv st own cs -> own !! cp = None -> layout_ok c -> all_slabs c = [] -> free_slab c = 0 ->
  (forall x, pa_slab_of p' x = pa_slab_of (pages st) x) -> pa_inv p' (<[cp := 0]> own) ->
  slab_inv (set_cache (set_pages st p') cp c) (<[cp := 0]> own) (cs ∪ {[cp]}).
Proof.
  intros [Hp Hc] Hnone HL Hnil Hf Hsame Hp'. split; [done|]. intros cp' Hcp'. cbn [set_cache caches].
  destruct (decide (cp' = cp)) as [->|Hne].
  - exists c. rewrite lookup_insert_eq. split; [done|]. split; try done.
    + apply lookup_insert_eq.
    + rewrite Hnil. apply NoDup_nil_2.
    + unfold all_slabs in Hnil. apply app_eq_nil in Hnil as [_ [_ ->]%app_eq_nil]. by rewrite Hf.
    + intros sp. rewrite Hnil. set_solver.
  - rewrite elem_of_union, elem_of_singleton in Hcp'. destruct (Hc cp') as (c1 & E1 & Hok); [tauto|].
    exists c1. rewrite lookup_insert_ne by done. split; [done|].
    assert (Hn : forall a, a = cp' \/ a ∈ all_slabs c1 -> a <> cp).
    { intros a [->|Ha] ->; [done|]. destruct (co_slab _ _ _ _ _ Hok cp Ha) as (_ & ? & _). congruence. }
    eapply cache_ok_frame; [exact Hok|..]; try done.
    + intros x Hx. cbn. by rewrite Hsame.
    + intros a Ha. rewrite lookup_insert_ne; [done|]. intros <-. by apply (Hn cp).
    + intros sp Hsp. pose proof (Hn sp ltac:(tauto)). destruct (co_slab _ _ _ _ _ Hok sp Hsp) as (? & _). set_solver.
Qed.

(** The blocks left when those of a list are given back. *)
Definition without (own : gmap Z Z) (l : list Z) : gmap Z Z := foldl (fun m k => delete k m) own l.

Lemma without_lookup own l a : without own l !! a = if decide (a ∈ l) then None else own !! a.
Proof.
  revert own. induction l as [|x l IH]; intros own; cbn [without foldl]; [by rewrite decide_False by set_solver|].
  fold (without (delete x own) l). rewrite IH. destruct (decide (a = x)) as [->|Hne].
  - rewrite lookup_delete_eq, (decide_True (P := x ∈ x :: l)) by set_solver. by case_decide.
  - rewrite lookup_delete_ne by done. repeat case_decide; set_solver.
Qed.

Lemma free_slabs_ok p own o l :
  pa_inv p own -> NoDup l -> (forall sp, sp ∈ l -> own !! sp = Some o) ->
  exists p', free_slabs p o l = Some p' /\ pa_inv p' (without own l) /\
    forall x, pa_slab_of p' x = pa_slab_of p x.
Proof.
  revert p own. induction l as [|sp l IH]; intros p own Hp Hnd Hl; cbn [free_slabs]; [by eauto|].
  apply NoDup_cons in Hnd as [Hsp Hnd].
  destruct (pa_free_ok p own sp o Hp) as (p1 & -> & Hp1 & Hs1); [apply Hl; set_solver|]. some_bind.
  destruct (IH p1 (delete sp own) Hp1 Hnd) as (p' & -> & Hp' & Hs').
  - intros x Hx. rewrite lookup_delete_ne by (intros ->; done). apply Hl. set_solver.
  - exists p'. split; [done|]. split; [done|]. intros x. by rewrite Hs', Hs1.
Qed.

Lemma free_slabs_app p o l k : free_slabs p o (l ++ k) = p' ← free_slabs p o l; free_slabs p' o k.
Proof.
  revert p. induction l as [|x l IH]; intros p; cbn [app free_slabs]; [by some_bind|].
  destruct (pa_free p x o) as [p1|]; [|done]. some_bind. apply IH.
Qed.

Lemma inv_drop_cache st own cs cp c p' :
  slab_inv st own cs -> cp ∈ cs -> caches st !! cp = Some c ->
  (forall x, pa_slab_of p' x = pa_slab_of (pages st) x) -> pa_inv p' (without own (all_slabs c ++ [cp])) ->
  slab_inv (set_pages st p') (without own (all_slabs c ++ [cp])) (cs ∖ {[cp]}).
Proof.
  intros Hinv Hcp Ec Hsame Hp'. pose proof Hinv as [Hp Hc]. split; [done|]. intros cp' Hcp'. cbn [set_pages caches].
  rewrite elem_of_difference, elem_of_singleton in Hcp'. destruct Hcp' as [Hcp' Hne].
  destruct (Hc cp' Hcp') as (c1 & E1 & Hok1), (Hc cp Hcp) as (? & ? & Hok). simplify_eq.
  exists c1. split; [done|]. eapply cache_ok_frame; [exact Hok1|..]; try done.
  - intros x Hx. cbn. by rewrite Hsame.
  - intros a Ha. rewrite without_lookup, decide_False; [done|].
    rewrite elem_of_app, list_elem_of_singleton. destruct Ha as [->|Ha].
    + intros [Hin|]; [|done]. by destruct (co_slab _ _ _ _ _ Hok cp' Hin) as (? & _).
    + destruct (co_slab _ _ _ _ _ Hok1 a Ha) as (Hncs & _). intros [Hin| ->]; [|done].
      apply Hne. by eapply (slab_of_one_cache st own cs cp' cp c1 c a).
  - intros x Hx. destruct (co_slab _ _ _ _ _ Hok1 x Hx). set_solver.
Qed.

Lemma kmem_cache_destroy_ok st own cs cp c :
  slab_inv st own cs -> cp ∈ cs -> caches st !! cp = Some c ->
  exists st', kmem_cache_destroy st cp = Some st' /\
    slab_inv st' (without own (all_slabs c ++ [cp])) (cs ∖ {[cp]}).
Proof.
  intros Hinv Hcp Ec. pose proof Hinv as [Hp Hc]. destruct (Hc cp Hcp) as (? & ? & Hok). simplify_eq.
  unfold kmem_cache_destroy. rewrite Ec. some_bind.
  destruct (free_slabs_ok (pages st) own (gfporder c) (all_slabs c) Hp) as (p1 & Hrun & Hp1 & Hs1).
  { apply (co_nodup _ _ _ _ _ Hok). }
  { intros sp Hsp. apply (co_slab _ _ _ _ _ Hok sp Hsp). }
  unfold all_slabs in Hrun. rewrite free_slabs_app in Hrun.
  destruct (free_slabs (pages st) (gfporder c) (slabs_partial c)) as [q|]; [|done]. revert Hrun. some_bind. intros Hrun.
  rewrite free_slabs_app in Hrun.
  destruct (free_slabs q (gfporder c) (slabs_full c)) as [q'|]; [|done]. revert Hrun. some_bind. intros ->. some_bind.
  destruct (pa_free_ok p1 _ cp 0 Hp1) as (p2 & -> & Hp2 & Hs2).
  { rewrite without_lookup, decide_False; [apply (co_own _ _ _ _ _ Hok)|].
    intros Hin. by destruct (co_slab _ _ _ _ _ Hok cp Hin) as (? & _). }
  some_bind. eexists. split; [done|]. apply inv_drop_cache; try done.
  - intros x. by rewrite Hs2, Hs1.
  - unfold without in *. by rewrite foldl_app.
Qed.

Lemma live_new_cache st p' cs cp c :
  cp ∉ cs -> all_slabs c = [] ->
  let st' := set_cache (set_pages st p') cp c in
  (forall cp' o, cp' ∈ cs -> allocated st' cp' o <-> allocated st cp' o) /\ forall o, ~ allocated st' cp o.
Proof.
  intros Hcp Hnil st'. split.
  - intros cp' o Hcp'. assert (cp' <> cp) by (intros ->; done).
    unfold allocated, live, obj_of, st'. cbn. by rewrite lookup_insert_ne.
  - intros o (sp & i & (c1 & s & E & Hin & _) & _). unfold st' in E. cbn in E. rewrite lookup_insert_eq in E.
    injection E as <-. rewrite Hnil in Hin. set_solver.
Qed.

(** What [kmem_cache_create] guarantees when it returns [cp]. *)
Definition create_post st st' own cs sz cp : Prop :=
  (cp ∉ cs) /\ exists own' c, own ⊆ own' /\ slab_inv st' own' (cs ∪ {[cp]}) /\ caches st' !! cp = Some c /\
    layout_ok c /\ sz <= size c < sz + 8 /\ size c mod 8 = 0 /\
    (forall o, ~ allocated st' cp o) /\
    forall cp' o, cp' ∈ cs -> allocated st' cp' o <-> allocated st cp' o.

Lemma kmem_cache_create_ok st own cs sz fl :
  slab_inv st own cs -> 0 < sz < 2 ^ 17 ->
  exists cp st', kmem_cache_create st sz fl = Some (cp, st') /\
    ((cp = 0 /\ slab_inv st' own cs /\ forall cp' o, cp' ∈ cs -> allocated st' cp' o <-> allocated st cp' o) \/
     (cp <> 0 /\ create_post st st' own cs sz cp)).
Proof.
  intros Hinv Hsz. pose proof Hinv as [Hp Hc]. unfold kmem_cache_create.
  change (PAGE_SIZE * Z.shiftl 1 (MAX_ORDER - 3)) with (2 ^ 17). rewrite (proj2 (Z.leb_gt (2 ^ 17) sz)) by lia.
  destruct (pa_alloc_ok (pages st) own 0 Hp) as (cp & p1 & -> & Hs1 & Hr); [unfold MAX_ORDER; lia|]. run_bind.
  destruct Hr as [[-> Hp1]|(HB & Hfresh & Hnone & Hp1)].
  { cbn [Z.eqb]. eexists _, _. split; [done|]. left. split; [done|]. by split; [apply inv_same_pages|]. }
  assert (Hnz : cp <> 0) by (destruct HB as (_ & ? & _); unfold KERNEL_OFFSET in *; lia).
  rewrite (proj2 (Z.eqb_neq cp 0) Hnz). rewrite (u32_small sz) by lia.
  pose proof (kmem_align_spec sz ltac:(lia)) as [Hal8 Hal]. set (n := kmem_align sz) in *.
  assert (Hn8 : 8 <= n < 2 ^ 18 /\ n <= 2 ^ 17).
  { pose proof (Z.div_mod n 8 ltac:(lia)). split; [lia|]. assert (n <= 2 ^ 17) by (change (2 ^ 17) with (16384 * 8); lia). lia. }
  destruct (order_loop_spec (Z.to_nat MAX_ORDER) n 0) as (Ho & Hfit & Hlow);
    [lia|done|change (PAGE_SIZE * 2 ^ (MAX_ORDER - 1)) with (2 ^ 19); unfold SLAB_MIN_NUM; lia|by left|done|].
  set (o := order_loop _ n 0) in *.
  rewrite (proj2 (Z.leb_gt MAX_ORDER o)) by lia. rewrite (proj2 (Z.eqb_neq n 0)) by lia.
  set (c := mk_kmem_cache _ _ _ _ _ _ _ _ _ _).
  assert (HL : layout_ok c) by (by apply (layout_computed n o _ _ (proj1 Hn8) Ho Hfit Hlow eq_refl eq_refl c)).
  assert (Hcs : cp ∉ cs).
  { intros Hin. destruct (Hc cp Hin) as (? & _ & Hok). pose proof (co_own _ _ _ _ _ Hok). congruence. }
  pose proof (inv_add_cache st own cs cp c p1 Hinv Hnone HL eq_refl eq_refl Hs1 Hp1) as Hinv1.
  destruct (live_new_cache st p1 cs cp c Hcs eq_refl) as [Hsame Hnew].
  set (st1 := set_cache _ cp c) in *.
  assert (Ec : caches st1 !! cp = Some c) by (unfold st1; cbn; apply lookup_insert_eq).
  destruct (cache_grow_ok st1 _ (cs ∪ {[cp]}) cp c Hinv1 ltac:(set_solver) Ec) as (e & st2 & -> & Hobj & Hlive & Hr).
  run_bind. pose proof (allocated_same st1 st2 _ Hobj Hlive) as Hal2.
  destruct Hr as [(-> & Hinv2 & Hca & _)|(-> & sp & c' & Hsp & Hinv2 & Ec' & Hsh & _)]; cbn [Z.eqb].
  - destruct (pa_free_ok (pages st2) _ cp 0 (proj1 Hinv2)) as (p3 & -> & Hp3 & Hs3); [apply lookup_insert_eq|].
    some_bind. eexists _, _. split; [done|]. left. split; [done|].
    assert (Eown : without (<[cp := 0]> own) (all_slabs c ++ [cp]) = own) by (cbn; by rewrite delete_insert_id).
    split.
    + replace cs with ((cs ∪ {[cp]}) ∖ {[cp]}) by set_solver. rewrite <- Eown.
      apply (inv_drop_cache st2 _ _ cp c); [done|set_solver|by rewrite Hca|done|exact Hp3].
    + intros cp' o' Hcp'. rewrite <- Hsame by done. rewrite <- (Hal2 cp' o') by set_solver. done.
  - eexists _, _. split; [done|]. right. split; [done|]. split; [done|]. eexists _, c'.
    split; [|split; [exact Hinv2|]].
    + transitivity (<[cp := 0]> own); by apply insert_subseteq.
    + split; [done|]. destruct Hsh as (H1 & H2 & H3). split; [unfold layout_ok in *; by rewrite H1, H2, H3|].
      rewrite H2. change (size c) with n. split; [lia|]. split; [done|]. split.
      * intros x Hx. apply Hal2 in Hx; [|set_solver]. by apply (Hnew x).
      * intros cp' o' Hcp'. rewrite Hal2 by set_solver. by apply Hsame.
Qed.
End Proofs.

(** ** The properties *)

(** [kmem_cache_create] refuses sizes of [2^17] bytes and more; for every
    smaller non-zero size it returns NULL and leaves the allocator as it was, or
    a new cache whose header, array and at least three objects of the rounded
    size fit in one block, with no object in use and the other caches untouched. *)
Theorem kmem_cache_create_correct {P : Type} `{!PageAllocator P} (st : slab_state P) own cs sz fl :
  slab_inv st own cs -> 0 < sz ->
  exists cp st', kmem_cache_create st sz fl = Some (cp, st') /\
    (2 ^ 17 <= sz -> cp = 0 /\ st' = st) /\
    (cp = 0 /\ slab_inv st' own cs /\ (forall cp' o, cp' ∈ cs -> allocated st' cp' o <-> allocated st cp' o) \/
     cp <> 0 /\ create_post st st' own cs sz cp).
Proof.
  intros Hinv Hsz. destruct (Z_lt_le_dec sz (2 ^ 17)) as [Hlt|Hge].
  - destruct (kmem_cache_create_ok st own cs sz fl Hinv) as (cp & st' & Hrun & Hr); [lia|].
    exists cp, st'. split; [done|]. split; [lia|]. done.
  - exists 0, st. unfold kmem_cache_create.
    change (PAGE_SIZE * Z.shiftl 1 (MAX_ORDER - 3)) with (2 ^ 17). rewrite (proj2 (Z.leb_le _ _) Hge).
    split; [done|]. split; [done|]. left. done.
Qed.

(** C8: a cache.  [kmem_cache_alloc] keeps the invariant and returns an object inside a
    slab block of its cache that overlaps no object in use of any cache, whose page names
    the cache; it returns NULL exactly when the partial and free lists are empty and the
    page allocator has no block.  [kmem_cache_free] of an object in use, while fewer than
    [SLAB_MAX_FREE] slabs are empty, frees exactly that object, keeps the invariant and
    every slab of the cache, and touches no page.  When [SLAB_MAX_FREE] slabs are already
    empty and the object is the last one of its slab, it gives the slab's pages back to
    the page allocator but leaves the slab at the head of [slabs_free]: the cache keeps
    handing out objects of a block it no longer owns, and the invariant is lost. *)
Theorem kmem_cache_correct {P : Type} `{!PageAllocator P} (st : slab_state P) own cs cp c :
  slab_inv st own cs -> cp ∈ cs -> caches st !! cp = Some c ->
  (exists ret st', kmem_cache_alloc st cp = Some (ret, st') /\ (ret = 0 <-> exhausted st c) /\
    ((ret = 0 /\ slab_inv st' own cs /\
      pa_alloc (pages st) (gfporder c) = Some (0, pages st') /\
      forall cp' o, cp' ∈ cs -> allocated st' cp' o <-> allocated st cp' o) \/
     (ret <> 0 /\ alloc_post st st' own cs cp ret))) /\
  (forall obj, allocated st cp obj -> free_slab c < SLAB_MAX_FREE ->
    exists st', kmem_cache_free st cp obj = Some st' /\ slab_inv st' own cs /\ pages st' = pages st /\
      (exists c', caches st' !! cp = Some c' /\ all_slabs c' ≡ₚ all_slabs c) /\
      forall cp' o, cp' ∈ cs -> allocated st' cp' o <-> allocated st cp' o /\ ~ (cp' = cp /\ o = obj)) /\
  (forall obj, allocated st cp obj -> free_slab c = SLAB_MAX_FREE ->
    (forall sp s, sp ∈ all_slabs c -> slabs st !! sp = Some s -> in_block sp (gfporder c) obj -> free s = 1) ->
    exists st' sp c', kmem_cache_free st cp obj = Some st' /\ in_block sp (gfporder c) obj /\
      own !! sp = Some (gfporder c) /\ pa_inv (pages st') (delete sp own) /\
      caches st' !! cp = Some c' /\ slabs_free c' = sp :: slabs_free c /\
      ~ slab_inv st' (delete sp own) cs).
Proof.
  intros H Hcp Hc. split.
  { destruct (kmem_cache_alloc_ok st own cs cp c H Hcp Hc) as (ret & st' & E & Hr). exists ret, st'. split; [done|]. split; [by apply (alloc_null st own cs cp c ret st')|].
    destruct Hr as [(-> & Hi & _ & _ & Ha & Hal)|Hr]; [by left|by right]. }
  split; intros obj Ho; [by apply kmem_cache_free_ok|]. intros Hf Hl. by apply (reclaim_keeps_slab st own cs cp c obj).
Qed.

(** [kmem_cache_destroy] gives back exactly the blocks of the cache's slabs
    and its own page, and keeps the invariant of the other caches. *)
Theorem kmem_cache_destroy_correct {P : Type} `{!PageAllocator P} (st : slab_state P) own cs cp c :
  slab_inv st own cs -> cp ∈ cs -> caches st !! cp = Some c ->
  exists st', kmem_cache_destroy st cp = Some st' /\
    slab_inv st' (without own (all_slabs c ++ [cp])) (cs ∖ {[cp]}).
Proof. apply kmem_cache_destroy_ok. Qed.

(** ** Witnesses: a cache of 1024-byte objects on the eight pages of [Buddy] *)

#[local] Existing Instance buddy_allocator.
#[local] Instance pages8_allocator : PageAllocator mm_state := buddy_allocator 8.

Definition empty8 : slab_state mm_state := mk_slab_state ready8 ∅ ∅.
Definition cache8 : Z := KERNEL_OFFSET + PAGE_SIZE.

Lemma empty8_inv : slab_inv empty8 ∅ ∅.
Proof.
  split; [|set_solver]. exists ∅. split; [exact mm_wf_ready8|]. intros a o. rewrite lookup_empty.
  split; [done|]. intros (p & _ & Hp). by rewrite lookup_empty in Hp.
Qed.

Lemma kmem_cache_create_correct_witness :
  exists st', kmem_cache_create empty8 1024 0 = Some (cache8, st') /\ create_post empty8 st' ∅ ∅ 1024 cache8.
Proof.
  destruct (kmem_cache_create_correct empty8 ∅ ∅ 1024 0 empty8_inv) as (cp & st' & Hrun & _ & Hr); [lia|].
  assert (Hc : fst <$> kmem_cache_create empty8 1024 0 = Some cache8) by (vm_compute; reflexivity).
  rewrite Hrun in Hc. injection Hc as ->. exists st'. split; [exact Hrun|].
  destruct Hr as [[Hz _]|[_ Hr]]; [discriminate Hz|exact Hr].
Defined.

(** [n] allocations, and frees while fewer than [SLAB_MAX_FREE] slabs are empty. *)
Fixpoint alloc_n (n : nat) (st : slab_state mm_state) (cp : Z) : option (list Z * slab_state mm_state) :=
  match n with
  | O => Some ([], st)
  | S n =>
      r ← kmem_cache_alloc st cp;
      if r.1 =? 0 then None else q ← alloc_n n r.2 cp; Some (r.1 :: q.1, q.2)
  end.

Fixpoint free_list (l : list Z) (st : slab_state mm_state) (cp : Z) : option (slab_state mm_state) :=
  match l with
  | [] => Some st
  | o :: l =>
      c ← caches st !! cp;
      if free_slab c <? SLAB_MAX_FREE then st ← kmem_cache_free st cp o; free_list l st cp else None
  end.

Definition good (st : slab_state mm_state) (cp : Z) : Prop :=
  exists own c, slab_inv st own {[cp]} /\ caches st !! cp = Some c.

Lemma good_cache st own cp : slab_inv st own {[cp]} -> good st cp.
Proof. intros H. destruct (proj2 H cp ltac:(set_solver)) as (c & Ec & _). by exists own, c. Qed.

Lemma alloc_n_good n st cp l st' :
  good st cp -> alloc_n n st cp = Some (l, st') ->
  good st' cp /\ forall o, allocated st' cp o <-> allocated st cp o \/ o ∈ l.
Proof.
  revert st l. induction n as [|n IH]; intros st l (own & c & Hinv & Ec) Hrun; cbn [alloc_n] in Hrun.
  { injection Hrun as <- <-. split; [by exists own, c|]. set_solver. }
  destruct (kmem_cache_alloc_ok st own {[cp]} cp c Hinv ltac:(set_solver) Ec) as (ret & st1 & Hr & Hpost).
  rewrite Hr in Hrun. change (Some (ret, st1) ≫= ?f) with (f (ret, st1)) in Hrun. cbn [fst snd] in Hrun.
  destruct Hpost as [[-> _]|(Hnz & own' & _ & Hinv' & Hal & _)]; [done|].
  rewrite (proj2 (Z.eqb_neq ret 0) Hnz) in Hrun.
  destruct (alloc_n n st1 cp) as [[l1 st2]|] eqn:E; [|done]. injection Hrun as <- <-.
  destruct (IH st1 l1 (good_cache _ _ _ Hinv') E) as [Hg Hl]. split; [done|]. intros o.
  cbn [fst snd]. rewrite Hl, Hal by set_solver. set_solver.
Qed.

Lemma free_list_good l st cp st' :
  good st cp -> NoDup l -> (forall o, o ∈ l -> allocated st cp o) -> free_list l st cp = Some st' ->
  good st' cp /\ forall o, allocated st' cp o <-> allocated st cp o /\ o ∉ l.
Proof.
  revert st. induction l as [|x l IH]; intros st Hg Hnd Hl Hrun; cbn [free_list] in Hrun.
  { injection Hrun as <-. split; [done|]. set_solver. }
  destruct Hg as (own & c & Hinv & Ec). rewrite Ec in Hrun.
  change (Some c ≫= ?f) with (f c) in Hrun. cbv beta in Hrun.
  destruct (free_slab c <? SLAB_MAX_FREE) eqn:E; zbool; [|done].
  destruct (kmem_cache_free_ok st own {[cp]} cp c x Hinv ltac:(set_solver) Ec) as (st1 & Hr & Hinv1 & _ & _ & Hal);
    [apply Hl; set_solver|done|].
  rewrite Hr in Hrun. change (Some st1 ≫= ?f) with (f st1) in Hrun. cbv beta in Hrun.
  apply NoDup_cons in Hnd as [Hx Hnd].
  destruct (IH st1 (good_cache _ _ _ Hinv1) Hnd) as [Hg1 Hl1]; [|done|].
  - intros o Ho. apply Hal; [set_solver|]. split; [apply Hl; set_solver|]. intros [_ ->]. done.
  - split; [done|]. intros o. rewrite Hl1, Hal by set_solver. rewrite not_elem_of_cons.
    split; [intros [[? Hne] ?]; split; [done|split; [|done]]|intros (? & ? & ?); tauto].
    intros ->. by apply Hne.
Qed.

(** The cache after its creation, with one object, with fifteen objects, and with
    one of the fifteen left. *)
Definition created8 : slab_state mm_state := default empty8 (snd <$> kmem_cache_create empty8 1024 0).
Definition one8 : slab_state mm_state := default empty8 (snd <$> alloc_n 1 created8 cache8).
Definition objs8 : list Z := Eval vm_compute in default [] (fst <$> alloc_n 15 created8 cache8).
Definition fifteen8 : slab_state mm_state := default empty8 (snd <$> alloc_n 15 created8 cache8).
Definition freed8 : list Z := drop 12 (take 14 objs8) ++ take 12 objs8.
Definition last8 : slab_state mm_state := default empty8 (free_list freed8 fifteen8 cache8).
Definition no_cache : kmem_cache := mk_kmem_cache 0 0 0 0 0 0 0 [] [] [].
Definition cache_of (st : slab_state mm_state) : kmem_cache := default no_cache (caches st !! cache8).

Lemma created8_good : good created8 cache8.
Proof.
  destruct (kmem_cache_create_ok empty8 ∅ ∅ 1024 0 empty8_inv) as (cp & st' & Hrun & Hr); [lia|].
  assert (Hc : kmem_cache_create empty8 1024 0 = Some (cache8, created8)) by (vm_compute; reflexivity).
  rewrite Hrun in Hc. injection Hc as -> ->. destruct Hr as [[Hz _]|[_ (_ & own' & c & _ & Hinv & _)]]; [done|].
  apply (good_cache _ own'). by replace {[cache8]} with (∅ ∪ {[cache8]} : gset Z) by set_solver.
Qed.

Lemma one8_good : good one8 cache8 /\ allocated one8 cache8 (cache8 + PAGE_SIZE + 40).
Proof.
  destruct (alloc_n_good 1 created8 cache8 [cache8 + PAGE_SIZE + 40] one8 created8_good) as [Hg Hl].
  - vm_compute. reflexivity.
  - split; [done|]. apply Hl. set_solver.
Qed.

Lemma last8_good : good last8 cache8 /\ exists o, last objs8 = Some o /\ allocated last8 cache8 o.
Proof.
  destruct (alloc_n_good 15 created8 cache8 objs8 fifteen8 created8_good) as [Hg Hl]; [by vm_compute|].
  destruct (free_list_good freed8 fifteen8 cache8 last8 Hg) as [Hg' Hl'].
  - apply (bool_decide_unpack _). by vm_compute.
  - intros o Ho. apply Hl. right. revert o Ho. apply Forall_forall, (bool_decide_unpack _). by vm_compute.
  - by vm_compute.
  - split; [done|]. eexists. split; [reflexivity|]. apply Hl'. split; [apply Hl|].
    + right. apply (bool_decide_unpack _). by vm_compute.
    + apply (bool_decide_unpack _). by vm_compute.
Qed.

Lemma kmem_cache_correct_witness :
  (exists st' own, kmem_cache_alloc one8 cache8 = Some (cache8 + PAGE_SIZE + 40 + 1024, st') /\ alloc_post one8 st' own {[cache8]} cache8 (cache8 + PAGE_SIZE + 40 + 1024)) /\
  (exists st', kmem_cache_free one8 cache8 (cache8 + PAGE_SIZE + 40) = Some st' /\
    ~ allocated st' cache8 (cache8 + PAGE_SIZE + 40)) /\
  (exists own st' sp o, last objs8 = Some o /\ kmem_cache_free last8 cache8 o = Some st' /\
    pa_inv (pages st') (delete sp own) /\ ~ slab_inv st' (delete sp own) {[cache8]}).
Proof.
  split; [|split].
  - destruct one8_good as [(own & c & Hinv & Ec) _].
    destruct (proj1 (kmem_cache_correct one8 own {[cache8]} cache8 c Hinv ltac:(set_solver) Ec)) as (ret & st' & Hrun & _ & Hr).
    assert (Hc : fst <$> kmem_cache_alloc one8 cache8 = Some (cache8 + PAGE_SIZE + 40 + 1024)) by (vm_compute; reflexivity).
    rewrite Hrun in Hc. injection Hc as ->. exists st', own. split; [exact Hrun|]. destruct Hr as [[Hz _]|[_ Hr]]; [discriminate Hz|exact Hr].
  - destruct one8_good as [(own & c & Hinv & Ec) Hal].
    destruct (proj1 (proj2 (kmem_cache_correct one8 own {[cache8]} cache8 c Hinv ltac:(set_solver) Ec)) _ Hal) as (st' & Hrun & _ & _ & _ & Hiff).
    + assert (E : free_slab <$> caches one8 !! cache8 = Some 0) by (vm_compute; reflexivity).
      rewrite Ec in E. injection E as ->. reflexivity.
    + exists st'. split; [exact Hrun|]. rewrite Hiff by set_solver. tauto.
  - destruct last8_good as [(own & c & Hinv & Ec) (o & Ho & Hal)].
    assert (E : caches last8 !! cache8 = Some (cache_of last8)) by (vm_compute; reflexivity).
    rewrite Ec in E. apply (inj Some) in E. subst c.
    destruct (proj2 (proj2 (kmem_cache_correct last8 own {[cache8]} cache8 _ Hinv ltac:(set_solver) Ec)) o Hal)
      as (st' & sp & c' & Hrun & _ & _ & Hpi & _ & _ & Hno); [vm_compute; reflexivity| |].
    + assert (Ho' : last objs8 = Some 0xffff800000006828) by reflexivity. rewrite Ho in Ho'. injection Ho' as ->.
      assert (Hall : Forall (fun sp => forall s, slabs last8 !! sp = Some s ->
        in_block sp (gfporder (cache_of last8)) 0xffff800000006828 -> free s = 1) (all_slabs (cache_of last8))).
      2: { rewrite Forall_forall in Hall. intros sp s Hsp. by apply Hall. }
      assert (Ea : all_slabs (cache_of last8) = _) by (vm_compute; reflexivity). rewrite Ea.
      repeat constructor; intros s Hs Hb; vm_compute in Hs; injection Hs as <-; try reflexivity;
        exfalso; unfold in_block in Hb; vm_compute in Hb; destruct Hb as [H1 H2];
        (discriminate H2 || (apply H1; reflexivity)).
    + exists own, st', sp, o. exact (conj Ho (conj Hrun (conj Hpi Hno))).
Defined.

Lemma kmem_cache_destroy_correct_witness :
  exists own st', kmem_cache_destroy one8 cache8 = Some st' /\ slab_inv st' own ∅.
Proof.
  destruct one8_good as [(own & c & Hinv & Ec) _].
  destruct (kmem_cache_destroy_correct one8 own {[cache8]} cache8 c Hinv ltac:(set_solver) Ec) as (st' & Hrun & Hi).
  eexists _, st'. split; [exact Hrun|]. replace ∅ with ({[cache8]} ∖ {[cache8]} : gset Z) by set_solver. exact Hi.
Defined.
