(* ===== verification/Kmalloc.v ===== *)
(** * [kmalloc] and [kfree]: [mm/kmalloc.c]

    Eleven caches of the sizes 32, 64, ..., 32768; [kmalloc] takes an object of
    the smallest class that fits and [kfree] finds the cache through the [slab]
    field of the object's [struct page].  The array of the module is the pair of
    [kmalloc_sizes] and the list of the [cachep] fields, NULL before the
    initialisation. *)

From S2P Require Import Prelude Buddy PageIface Slab.

Definition KMALLOC_CACHE_SIZE : Z := 11.

(** The [size] fields of [kmalloc_cache]. *)
Definition kmalloc_sizes : list Z := (fun i => Z.shiftl 1 (5 + i)) <$> seqZ 0 KMALLOC_CACHE_SIZE.

(** [while (i < KMALLOC_CACHE_SIZE && size > kmalloc_cache[i].size) i++] *)
Fixpoint find_class (sizes : list Z) (i size : Z) : Z :=
  match sizes with
  | [] => i
  | s :: sizes => if s <? size then find_class sizes (i + 1) size else i
  end.

Section Kmalloc.
Context {P : Type} `{!PageAllocator P}.

Definition kmalloc (st : slab_state P) (cacheps : list Z) (size : Z) : option (Z * slab_state P) :=
  let i := find_class kmalloc_sizes 0 size in
  if KMALLOC_CACHE_SIZE <=? i then Some (NULL, st)
  else cachep ← cacheps !! Z.to_nat i; kmem_cache_alloc st cachep.

Definition kfree (st : slab_state P) (addr : Z) : option (slab_state P) :=
  if addr =? NULL then Some st
  else slab ← pa_slab_of (pages st) addr; kmem_cache_free st slab addr.

(** The caches of the sizes in turn; a failure only prints. *)
Fixpoint create_caches (st : slab_state P) (sizes : list Z) : option (list Z * slab_state P) :=
  match sizes with
  | [] => Some ([], st)
  | size :: sizes =>
      r ← kmem_cache_create st size 0;
      q ← create_caches r.2 sizes;
      Some (r.1 :: q.1, q.2)
  end.

Definition kmalloc_cache_init (st : slab_state P) : option (list Z * slab_state P) :=
  create_caches st kmalloc_sizes.

(** Every class has its cache. *)
Definition kmalloc_inv (st : slab_state P) (own : gmap Z Z) (cacheps : list Z) : Prop :=
  slab_inv st own (list_to_set cacheps) /\
  Forall2 (fun cp sz => exists c, caches st !! cp = Some c /\ size c = sz) cacheps kmalloc_sizes.
End Kmalloc.

(** ** The class of a size *)

Lemma find_class_spec sizes i sz :
  let r := find_class sizes i sz in
  i <= r <= i + Z.of_nat (length sizes) /\
  (forall k s, sizes !! k = Some s -> Z.of_nat k < r - i -> s < sz) /\
  (forall s, sizes !! Z.to_nat (r - i) = Some s -> sz <= s).
Proof.
  revert i. induction sizes as [|x sizes IH]; intros i; cbn [find_class].
  - cbn [length]. split; [lia|]. split; [set_solver|]. intros s Hs. by rewrite lookup_nil in Hs.
  - destruct (x <? sz) eqn:E; zbool.
    + destruct (IH (i + 1)) as (H1 & H2 & H3). cbn [length]. split; [lia|]. split.
      * intros [|k] s Hs Hk; [by injection Hs as <-|]. apply (H2 k s); [done|lia].
      * intros s. replace (Z.to_nat (find_class sizes (i + 1) sz - i))
          with (S (Z.to_nat (find_class sizes (i + 1) sz - (i + 1)))) by lia. apply H3.
    + cbn [length]. split; [lia|]. split; [lia|]. intros s. rewrite Z.sub_diag. by intros [= <-].
Qed.

Lemma kmalloc_sizes_at (k : nat) s :
  kmalloc_sizes !! k = Some s <-> s = 2 ^ (5 + Z.of_nat k) /\ Z.of_nat k < KMALLOC_CACHE_SIZE.
Proof.
  unfold kmalloc_sizes. rewrite list_lookup_fmap, fmap_Some. setoid_rewrite lookup_seqZ. split.
  - intros (x & [-> Hx] & ->). by rewrite shiftl_1 by lia.
  - intros [-> Hk]. eexists. split; [split; [done|lia]|]. by rewrite shiftl_1 by lia.
Qed.

(** A request of [2^15] bytes or less gets the smallest class that holds it. *)
Lemma kmalloc_class sz :
  let i := find_class kmalloc_sizes 0 sz in
  0 <= i <= KMALLOC_CACHE_SIZE /\ (i = KMALLOC_CACHE_SIZE <-> 2 ^ 15 < sz) /\
  (i < KMALLOC_CACHE_SIZE -> sz <= 2 ^ (5 + i) /\ (i = 0 \/ 2 ^ (4 + i) < sz)).
Proof.
  destruct (find_class_spec kmalloc_sizes 0 sz) as (H1 & H2 & H3). set (i := find_class _ 0 sz) in *.
  change (Z.of_nat (length kmalloc_sizes)) with 11 in H1. unfold KMALLOC_CACHE_SIZE in *.
  assert (Hin : i < 11 -> sz <= 2 ^ (5 + i)).
  { intros Hi. apply H3. apply kmalloc_sizes_at. unfold KMALLOC_CACHE_SIZE. rewrite Z.sub_0_r, Z2Nat.id by lia. done. }
  assert (Hlow : 0 < i -> 2 ^ (4 + i) < sz).
  { intros Hi. apply (H2 (Z.to_nat (i - 1))); [|lia]. apply kmalloc_sizes_at. unfold KMALLOC_CACHE_SIZE.
    rewrite Z2Nat.id by lia. split; [f_equal; lia|lia]. }
  split; [lia|]. split; [split|].
  - intros E. pose proof (Hlow ltac:(lia)) as Hl. by rewrite E in Hl.
  - intros Hsz. destruct (Z_lt_le_dec i 11) as [Hi|]; [|lia]. pose proof (Hin Hi).
    assert (2 ^ (5 + i) <= 2 ^ 15) by (apply Z.pow_le_mono_r; lia). lia.
  - intros Hi. split; [by apply Hin|]. destruct (decide (i = 0)); [by left|right; apply Hlow; lia].
Qed.

Section KmallocProofs.
Context {P : Type} `{!PageAllocator P}.
Implicit Types (st : slab_state P) (own : gmap Z Z).

Lemma kmalloc_inv_class st own cacheps i :
  kmalloc_inv st own cacheps -> 0 <= i < KMALLOC_CACHE_SIZE ->
  exists cp c, cacheps !! Z.to_nat i = Some cp /\ cp ∈ (list_to_set cacheps : gset Z) /\
    caches st !! cp = Some c /\ size c = 2 ^ (5 + i).
Proof.
  intros [_ Hf] Hi.
  destruct (Forall2_lookup_r _ _ _ (Z.to_nat i) (2 ^ (5 + i)) Hf) as (cp & Hcp & c & Ec & Hs).
  - apply kmalloc_sizes_at. rewrite Z2Nat.id by lia. split; [done|lia].
  - exists cp, c. split; [done|]. split; [|done]. apply elem_of_list_to_set. by eapply list_elem_of_lookup_2.
Qed.

(** No operation on objects changes the object size of a cache. *)
Definition sizes_of st : gmap Z Z := size <$> caches st.

Lemma sizes_set_cache st cp c c' :
  caches st !! cp = Some c -> size c' = size c -> sizes_of (set_cache st cp c') = sizes_of st.
Proof.
  intros Ec Hs. unfold sizes_of. cbn [set_cache caches]. rewrite fmap_insert. apply insert_id.
  rewrite lookup_fmap, Ec. simpl. by rewrite Hs.
Qed.

Lemma sizes_cache_alloc4 st cp sp r st' :
  ____cache_alloc st cp sp = Some (r, st') -> sizes_of st' = sizes_of st.
Proof.
  unfold ____cache_alloc. intros H. destruct (caches st !! cp) as [c|] eqn:Ec; [|done].
  destruct (slabs st !! sp) as [s|]; [|done]. simpl in H.
  destruct (array s !! Z.to_nat (free s)) as [a|]; [|done]. simpl in H.
  destruct (a =? BUFCTL_END); simpl in H;
    (destruct (array s !! _) as [b|]; [|done]); injection H as <- <-; case_if; try done;
    by apply (sizes_set_cache (set_slab st sp _) cp c).
Qed.

Lemma sizes_alloc_scan st cp l sp r sp' st' :
  alloc_scan st cp l sp = Some (r, sp', st') -> sizes_of st' = sizes_of st.
Proof.
  revert st sp. induction l as [|x l IH]; intros st sp H; cbn [alloc_scan] in H; [by injection H as <- <- <-|].
  destruct (____cache_alloc st cp x) as [[ret st1]|] eqn:E; [|done]. apply sizes_cache_alloc4 in E.
  simpl in H. destruct (ret =? NULL).
  - rewrite <- E. by apply (IH st1 x).
  - by injection H as <- <- <-.
Qed.

Lemma sizes_cache_alloc st cp r st' :
  __cache_alloc st cp = Some (r, st') -> sizes_of st' = sizes_of st.
Proof.
  unfold __cache_alloc. intros H. destruct (caches st !! cp) as [c|]; [|done]. simpl in H.
  destruct (alloc_scan st cp _ _) as [[[ret sp] st1]|] eqn:E1; [|done]. apply sizes_alloc_scan in E1.
  simpl in H. destruct (negb (ret =? NULL)); [by injection H as <- <-|].
  destruct (caches st1 !! cp) as [c1|]; [|done]. simpl in H.
  destruct (alloc_scan st1 cp _ _) as [[[ret2 sp2] st2]|] eqn:E2; [|done]. apply sizes_alloc_scan in E2.
  simpl in H. destruct (ret2 =? NULL); [injection H as <- <-; congruence|].
  destruct (caches st2 !! cp) as [c2|] eqn:Ec; [|done]. injection H as <- <-.
  rewrite (sizes_set_cache st2 cp c2) by done. congruence.
Qed.

Lemma sizes_grow st cp e st' : cache_grow st cp = Some (e, st') -> sizes_of st' = sizes_of st.
Proof.
  unfold cache_grow, kmem_getpages. intros H. destruct (caches st !! cp) as [c|] eqn:Ec; [|done]. simpl in H.
  destruct (pa_alloc (pages st) (gfporder c)) as [[pg p]|]; [|done]. simpl in H.
  destruct (pg =? 0) eqn:E; simpl in H; [by injection H as <- <-|].
  rewrite E, Ec in H. injection H as <- <-. by apply (sizes_set_cache (set_slab (set_pages st _) pg _) cp c).
Qed.

Lemma sizes_kmem_alloc st cp r st' : kmem_cache_alloc st cp = Some (r, st') -> sizes_of st' = sizes_of st.
Proof.
  unfold kmem_cache_alloc. intros H. destruct (__cache_alloc st cp) as [[ret st1]|] eqn:E; [|done].
  apply sizes_cache_alloc in E. simpl in H. destruct (ret =? NULL); [|by injection H as <- <-].
  destruct (cache_grow st1 cp) as [[e st2]|] eqn:E2; [|done]. apply sizes_grow in E2. simpl in H.
  destruct (e =? 0); [|injection H as <- <-; congruence]. apply sizes_cache_alloc in H. congruence.
Qed.

Lemma sizes_reclaim fuel st cp st' : reclaim fuel st cp = Some st' -> sizes_of st' = sizes_of st.
Proof.
  revert st. induction fuel as [|fuel IH]; intros st H; cbn [reclaim] in H; [by injection H as <-|].
  destruct (caches st !! cp) as [c|] eqn:Ec; [|done]. simpl in H.
  destruct (free_slab c <=? SLAB_MAX_FREE); [by injection H as <-|].
  destruct (head (slabs_free c)) as [sp|]; [|done]. simpl in H.
  destruct (pa_free (pages st) sp (gfporder c)) as [p|]; [|done]. apply IH in H.
  rewrite H. by apply (sizes_set_cache (set_pages st p) cp c).
Qed.

Lemma sizes_kmem_free st cp obj st' : kmem_cache_free st cp obj = Some st' -> sizes_of st' = sizes_of st.
Proof.
  unfold kmem_cache_free, __cache_free. intros H. destruct (caches st !! cp) as [c|] eqn:Ec; [|done]. simpl in H.
  destruct (free_scan _ _ _ (slabs_full c) _ _) as [[a b]|]; [|done]. simpl in H.
  destruct (if negb (b =? -1) then _ else _) as [[a1 b1]|]; [|done]. simpl in H.
  destruct (slabs st !! a1) as [s|]; [|done]. simpl in H.
  match type of H with context [caches ?t !! cp] => set (st1 := t) in H end.
  assert (Hs : sizes_of st1 = sizes_of st).
  { unfold st1. case_if; [|done]. by apply (sizes_set_cache (set_slab st a1 _) cp c). }
  destruct (caches st1 !! cp) as [c1|]; [|done]. apply sizes_reclaim in H. congruence.
Qed.

Lemma kmalloc_inv_step st st' own own' cacheps :
  kmalloc_inv st own cacheps -> slab_inv st' own' (list_to_set cacheps) -> sizes_of st' = sizes_of st ->
  kmalloc_inv st' own' cacheps.
Proof.
  intros [_ Hf] Hinv Hs. split; [done|]. eapply Forall2_impl; [exact Hf|].
  intros cp sz (c & Ec & <-). assert (E : sizes_of st' !! cp = Some (size c)).
  { rewrite Hs. unfold sizes_of. by rewrite lookup_fmap, Ec. }
  unfold sizes_of in E. rewrite lookup_fmap in E. destruct (caches st' !! cp) as [c'|]; [|done].
  injection E as <-. by exists c'.
Qed.

(** What a non-NULL [kmalloc(sz)] returns: a free stretch of [sz] bytes. *)
Definition kmalloc_post st st' own own' (cacheps : list Z) (sz ret cp : Z) : Prop :=
  own ⊆ own' /\ cp ∈ cacheps /\ allocated st' cp ret /\ (~ allocated st cp ret) /\
  pa_slab_of (pages st') ret = Some cp /\
  (forall cp' o, cp' ∈ cacheps -> allocated st' cp' o <-> allocated st cp' o \/ (cp' = cp /\ o = ret)) /\
  forall cp' c' o x, cp' ∈ cacheps -> caches st' !! cp' = Some c' -> allocated st cp' o ->
    o <= x < o + size c' -> ~ ret <= x < ret + sz.

(** [cp] is the cache of the smallest class that holds [sz] bytes. *)
Definition smallest_class st (cacheps : list Z) (sz cp : Z) (c : kmem_cache) : Prop :=
  cp ∈ cacheps /\ caches st !! cp = Some c /\ sz <= size c /\
  forall cp' c', cp' ∈ cacheps -> caches st !! cp' = Some c' -> sz <= size c' -> size c < size c' \/ cp' = cp.

Lemma class_smallest st own cacheps sz i cp c :
  kmalloc_inv st own cacheps -> find_class kmalloc_sizes 0 sz = i -> i < KMALLOC_CACHE_SIZE -> cacheps !! Z.to_nat i = Some cp -> caches st !! cp = Some c -> size c = 2 ^ (5 + i) ->
  smallest_class st cacheps sz cp c.
Proof.
  intros Hk Ei Hi Hcp Ec Hs. destruct (kmalloc_class sz) as (Hr & _ & Hsm). rewrite Ei in *. destruct (Hsm Hi) as [Hle Hlow].
  split; [by eapply list_elem_of_lookup_2|]. split; [done|]. split; [by rewrite Hs|]. intros cp' c' (k & Hk')%list_elem_of_lookup Ec' Hsz'.
  destruct (Forall2_lookup_l _ _ _ k cp' (proj2 Hk) Hk') as (s & Hks & c2 & Ec2 & Hs2). rewrite Ec' in Ec2. injection Ec2 as <-. apply kmalloc_sizes_at in Hks as [-> Hkb]. rewrite Hs, Hs2 in *.
  destruct (Z_lt_le_dec i (Z.of_nat k)) as [Hlt|Hge]; [left; apply Z.pow_lt_mono_r; lia|]. destruct (decide (Z.of_nat k = i)) as [E|Hne]; [right; rewrite <- E, Nat2Z.id in Hcp; congruence|].
  exfalso. destruct Hlow as [->|Hlow]; [lia|]. assert (2 ^ (5 + Z.of_nat k) <= 2 ^ (4 + i)) by (apply Z.pow_le_mono_r; lia). lia.
Qed.

Lemma kmalloc_ok st own cacheps sz :
  kmalloc_inv st own cacheps -> 0 <= sz ->
  exists ret st' own', kmalloc st cacheps sz = Some (ret, st') /\ kmalloc_inv st' own' cacheps /\
    (2 ^ 15 < sz -> ret = 0 /\ st' = st) /\
    (ret = 0 <-> 2 ^ 15 < sz \/ exists cp c, smallest_class st cacheps sz cp c /\ exhausted st c) /\
    (ret = 0 \/ exists cp, kmalloc_post st st' own own' cacheps sz ret cp).
Proof.
  intros Hk Hsz. destruct (kmalloc_class sz) as (Hi & Hbig & Hsmall). unfold kmalloc.
  set (i := find_class _ 0 sz) in *. destruct (KMALLOC_CACHE_SIZE <=? i) eqn:E; zbool.
  { exists 0, st, own. split; [done|]. split; [done|]. split; [done|]. split; [|by left]. split; [left; by apply Hbig; lia|done]. }
  destruct (kmalloc_inv_class st own cacheps i Hk ltac:(lia)) as (cp & c & Hat & Hcp & Ec & Hs). rewrite Hat. some_bind.
  destruct (kmem_cache_alloc_ok st own _ cp c (proj1 Hk) Hcp Ec) as (ret & st' & Hrun & Hr).
  rewrite Hrun. pose proof (sizes_kmem_alloc _ _ _ _ Hrun) as Hsz'.
  assert (Hnull : ret = 0 <-> 2 ^ 15 < sz \/ exists cp c, smallest_class st cacheps sz cp c /\ exhausted st c).
  { rewrite (alloc_null st own _ cp c ret st' (proj1 Hk) Hcp Ec Hrun). pose proof (class_smallest st own cacheps sz i cp c Hk eq_refl E Hat Ec Hs) as Hsm. split; [intros Hx; right; by exists cp, c|].
    intros [Hb|(cp2 & c2 & Hsm2 & Hx)]; [apply Hbig in Hb; lia|]. destruct Hsm as (A1 & A2 & A3 & A4), Hsm2 as (B1 & B2 & B3 & B4).
    destruct (A4 cp2 c2 B1 B2 B3) as [?| ->]; [destruct (B4 cp c A1 A2 A3) as [?| ->]; [lia|congruence]|congruence]. }
  exists ret, st'.
  destruct Hr as [(-> & Hinv & _)|(Hnz & own' & Hsub & Hinv & Hal & c' & sp & Ec' & _ & _ & _ & Hps & Hd)].
  { exists own. split; [done|]. split; [by eapply kmalloc_inv_step|]. split; [lia|]. split; [done|]. by left. }
  exists own'. split; [done|]. split; [by eapply kmalloc_inv_step|]. split; [lia|]. split; [done|]. right. exists cp.
  assert (Hsc : size c' = size c).
  { assert (E2 : sizes_of st' !! cp = sizes_of st !! cp) by congruence.
    unfold sizes_of in E2. rewrite !lookup_fmap, Ec, Ec' in E2. by injection E2. }
  assert (Hin : forall a, a ∈ cacheps <-> a ∈ (list_to_set cacheps : gset Z)) by (intros; by rewrite elem_of_list_to_set).
  rewrite <- Hin in Hcp. destruct (Hsmall ltac:(lia)) as [Hle _]. pose proof (Z.pow_pos_nonneg 2 (5 + i) ltac:(lia) ltac:(lia)).
  split; [done|]. split; [done|]. split; [apply Hal; [by apply Hin|tauto]|]. split; [|split; [done|split]].
  - intros Ha. apply (Hd cp c' ret ret (proj1 (Hin _) Hcp) Ec' Ha); lia.
  - intros cp' o Hcp'. apply Hal. by apply Hin.
  - intros cp' c2 o x Hcp' Ec2 Ha Hx Hx'. apply (Hd cp' c2 o x (proj1 (Hin _) Hcp') Ec2 Ha Hx). lia.
Qed.

Lemma allocated_slab_of st own cs cp o :
  slab_inv st own cs -> cp ∈ cs -> allocated st cp o -> o <> 0 /\ pa_slab_of (pages st) o = Some cp.
Proof.
  intros Hinv Hcp (sp & i & Hl & Ho). unfold obj_of in Ho.
  destruct (caches st !! cp) as [c|] eqn:Ec; [|done]. injection Ho as <-.
  destruct (live_slab st own cs cp c sp i Hinv Hcp Ec Hl) as (Hi & _ & _ & HL & (_ & HB & _) & Hs).
  pose proof (obj_addr_in c sp i HL Hi). unfold sizeof_slab, KERNEL_OFFSET in *. destruct HL as (? & _).
  split; [lia|]. apply Hs. unfold in_block. lia.
Qed.

Lemma kfree_ok st own cacheps cp c o :
  kmalloc_inv st own cacheps -> cp ∈ cacheps -> caches st !! cp = Some c -> allocated st cp o ->
  free_slab c < SLAB_MAX_FREE ->
  exists st', kfree st o = Some st' /\ kmalloc_inv st' own cacheps /\
    forall cp' o', cp' ∈ cacheps -> allocated st' cp' o' <-> allocated st cp' o' /\ ~ (cp' = cp /\ o' = o).
Proof.
  intros Hk Hcp Ec Ha Hf. assert (Hcs : cp ∈ (list_to_set cacheps : gset Z)) by by rewrite elem_of_list_to_set.
  destruct (allocated_slab_of st own _ cp o (proj1 Hk) Hcs Ha) as [Hnz Hs].
  unfold kfree. rewrite (proj2 (Z.eqb_neq o NULL) Hnz), Hs. some_bind.
  destruct (kmem_cache_free_ok st own _ cp c o (proj1 Hk) Hcs Ec Ha Hf) as (st' & Hrun & Hinv & _ & _ & Hiff).
  exists st'. split; [done|]. split; [eapply kmalloc_inv_step; [done|done|by eapply sizes_kmem_free]|].
  intros cp' o' Hcp'. apply Hiff. by rewrite elem_of_list_to_set.
Qed.

Lemma sizes_create st sz fl cp st' :
  kmem_cache_create st sz fl = Some (cp, st') ->
  forall a, a <> cp -> is_Some (sizes_of st !! a) -> cp <> 0 -> sizes_of st' !! a = sizes_of st !! a.
Proof.
  unfold kmem_cache_create. intros H a Ha _ Hnz. case_in H; [by injection H as <- <-|].
  destruct (pa_alloc (pages st) 0) as [[cp1 p]|]; [|done]. simpl in H.
  destruct (cp1 =? 0); [by injection H as <- <-|]. case_in H.
  { destruct (pa_free p cp1 0); [|done]. injection H as <- <-. done. }
  case_in H; [done|]. match type of H with context [cache_grow ?t cp1] => set (st1 := t) in H end.
  destruct (cache_grow st1 cp1) as [[e st2]|] eqn:Eg; [|done]. apply sizes_grow in Eg. simpl in H.
  destruct (e =? 0).
  - injection H as -> ->. rewrite Eg. unfold sizes_of, st1. cbn [set_cache caches].
    by rewrite fmap_insert, lookup_insert_ne.
  - destruct (pa_free (pages st2) cp1 0); [|done]. injection H as <- <-. done.
Qed.

(** The caches of [create_caches], when all of them could be made. *)
Lemma create_caches_ok st own (cs : gset Z) sizes :
  slab_inv st own cs -> Forall (fun sz => 8 <= sz < 2 ^ 17 /\ sz mod 8 = 0) sizes ->
  exists cps st' own', create_caches st sizes = Some (cps, st') /\ own ⊆ own' /\ length cps = length sizes /\ slab_inv st' own' (cs ∪ (list_to_set cps ∖ {[0]})) /\
    (0 ∉ cps -> slab_inv st' own' (cs ∪ list_to_set cps) /\
       Forall2 (fun cp sz => exists c, caches st' !! cp = Some c /\ size c = sz) cps sizes /\
       forall a, a ∈ cs -> sizes_of st' !! a = sizes_of st !! a).
Proof.
  revert st own cs. induction sizes as [|sz sizes IH]; intros st own cs Hinv Hs; cbn [create_caches].
  { exists [], st, own. split; [done|]. split; [done|]. split; [done|]. cbn [list_to_set]. replace (cs ∪ (∅ ∖ {[0]})) with cs by set_solver. rewrite union_empty_r_L. done. }
  apply Forall_cons in Hs as [[Hsz Hsz8] Hs].
  destruct (kmem_cache_create_ok st own cs sz 0 Hinv ltac:(lia)) as (cp & st1 & Hrun & Hr). rewrite Hrun. some_bind. cbn [fst snd].
  destruct Hr as [(-> & Hinv1 & _)|(Hnz & Hncs & own1 & c & Hsub & Hinv1 & Ec & _ & Hsc & Hsc8 & _)].
  { destruct (IH st1 own cs Hinv1 Hs) as (cps & st' & own' & -> & Hsub' & Hlen & Hall & _). exists (0 :: cps), st', own'.
    split; [done|]. split; [done|]. split; [cbn; by rewrite Hlen|]. split; [|set_solver]. replace (list_to_set (0 :: cps) ∖ {[0]}) with (list_to_set cps ∖ {[0]} : gset Z) by set_solver. done. }
  destruct (IH st1 own1 _ Hinv1 Hs) as (cps & st' & own' & -> & Hsub' & Hlen & Hall & Hok). exists (cp :: cps), st', own'.
  split; [done|]. split; [by transitivity own1|]. split; [cbn; by rewrite Hlen|].
  split; [replace (cs ∪ (list_to_set (cp :: cps) ∖ {[0]})) with (cs ∪ {[cp]} ∪ (list_to_set cps ∖ {[0]}) : gset Z) by set_solver; done|]. intros Hn. destruct Hok as (Hi & Hf & Hk); [set_solver|].
  split; [|split].
  - cbn [list_to_set]. by rewrite union_assoc_L.
  - constructor; [|done]. pose proof (Hk cp ltac:(set_solver)) as E. unfold sizes_of in E.
    rewrite !lookup_fmap, Ec in E. destruct (caches st' !! cp) as [c'|]; [|done]. exists c'. split; [done|].
    injection E as ->. pose proof (Z.div_mod sz 8 ltac:(lia)). pose proof (Z.div_mod (size c) 8 ltac:(lia)). lia.
  - intros a Ha. rewrite Hk by set_solver. apply (sizes_create _ _ _ _ _ Hrun); [|destruct (proj2 Hinv a Ha) as (? & E & _)|done].
    + intros ->. done.
    + unfold sizes_of. rewrite lookup_fmap, E. by eexists.
Qed.

Lemma kmalloc_init_ok st own :
  slab_inv st own ∅ ->
  exists cacheps st' own', kmalloc_cache_init st = Some (cacheps, st') /\ own ⊆ own' /\ length cacheps = Z.to_nat KMALLOC_CACHE_SIZE /\ slab_inv st' own' (list_to_set cacheps ∖ {[0]}) /\
    (0 ∉ cacheps -> kmalloc_inv st' own' cacheps).
Proof.
  intros Hinv. destruct (create_caches_ok st own ∅ kmalloc_sizes Hinv) as (cps & st' & own' & Hrun & Hsub & Hlen & Hall & Hok).
  - apply (bool_decide_unpack _). by vm_compute.
  - exists cps, st', own'. split; [done|]. split; [done|]. split; [done|]. rewrite union_empty_l_L in Hall. split; [done|]. intros Hn. destruct (Hok Hn) as (Hi & Hf & _).
    rewrite union_empty_l_L in Hi. done.
Qed.
End KmallocProofs.

(** ** The properties *)


(** ** Witnesses: a machine of 128 pages *)

#[local] Instance pages128_allocator : PageAllocator mm_state := buddy_allocator 128.

Definition pages128 : list page :=
  (fun i => mk_page (if i =? 0 then PF_RESERVE else 0) 0 0 (to_vir (i * PAGE_SIZE))) <$> seqZ 0 128.
Definition boot128 : mm_state := mk_mm pages128 (mk_buddy [] [] 0).
Definition ready128 : mm_state := default boot128 (buddy_system_init boot128 128).
Definition empty128 : slab_state mm_state := mk_slab_state ready128 ∅ ∅.

Lemma mm_wf_ready128 : mm_wf 128 ready128 ∅.
Proof.
  destruct (mm_wf_boot boot128 128) as (s' & Hs & Hw); [lia|unfold PAGE_SIZE; lia| |done|].
  - intros p Hp. unfold page_at, boot128, pages128. cbn [mem_map]. rewrite list_lookup_fmap.
    rewrite (proj2 (lookup_seqZ 0 128 (Z.to_nat p) p)) by lia. by eexists.
  - unfold ready128. by rewrite Hs.
Qed.

Lemma empty128_inv : slab_inv empty128 ∅ ∅.
Proof.
  split; [|set_solver]. exists ∅. split; [exact mm_wf_ready128|]. intros a o. rewrite lookup_empty.
  split; [done|]. intros (p & _ & Hp). by rewrite lookup_empty in Hp.
Qed.

(** The state after [kmalloc_cache_init], and after a [kmalloc(100)]. *)
Definition kmalloc128 : list Z * slab_state mm_state := default ([], empty128) (kmalloc_cache_init empty128).
Definition obj128 : Z * slab_state mm_state := default (0, empty128) (kmalloc kmalloc128.2 kmalloc128.1 100).

Lemma kmalloc128_ok : kmalloc_cache_init empty128 = Some kmalloc128 /\ exists own, kmalloc_inv kmalloc128.2 own kmalloc128.1.
Proof.
  destruct (kmalloc_init_ok empty128 ∅ empty128_inv) as (cps & st & own & Hrun & _ & _ & _ & Hok).
  assert (E : kmalloc128 = (cps, st)) by (unfold kmalloc128; by rewrite Hrun). rewrite E. split; [done|].
  exists own. apply Hok. assert (E1 : bool_decide (0 ∈ kmalloc128.1) = false) by (vm_compute; reflexivity).
  rewrite E in E1. by apply bool_decide_eq_false in E1.
Qed.

