(* ===== verification/PageTable.v ===== *)
(** * Page tables: [mm/page.c]

    The four levels of x86-64 page tables in kernel memory.  Memory is a map
    from the kernel addresses of 8-byte words to their values, a word that was
    never written reads as 0; pages come from a [PageAllocator].  [None] is an
    access through a NULL table pointer: the assertions of the code print and
    go on. *)

From S2P Require Import Prelude Buddy PageIface.

Definition PML4E_ATTR : Z := 0x007.
Definition PDPTE_ATTR : Z := 0x007.
Definition PDE_ATTR : Z := 0x007.
Definition PTE_ATTR : Z := 0x007.

(** [-((uint64)1 << 12)] *)
Definition PAGE_MASK : Z := u64 (- Z.shiftl 1 12).

(** ** Memory words *)

Definition rd (m : gmap Z Z) (a : Z) : Z := default 0 (m !! a).

(** Entry [ind] of the table at [t]. *)
Definition entry (m : gmap Z Z) (t ind : Z) : Z := rd m (t + 8 * ind).
Definition set_entry (m : gmap Z Z) (t ind v : Z) : gmap Z Z := <[t + 8 * ind := v]> m.

(** [memset(t, 0, 8 * n)] *)
Definition clear_words (m : gmap Z Z) (t : Z) (n : nat) : gmap Z Z :=
  foldl (fun m k => set_entry m t k 0) m (seqZ 0 (Z.of_nat n)).

Record pt_state (P : Type) := mk_pt { pt_pages : P; pt_mem : gmap Z Z }.
Arguments mk_pt {P}.
Arguments pt_pages {P}.
Arguments pt_mem {P}.

(** The table or frame that an entry refers to. *)
Definition table_of (e : Z) : Z := to_vir (Z.land e PAGE_MASK).

Section Operations.
Context {P : Type} `{!PageAllocator P}.

Definition get_zeroed_page (st : pt_state P) : option (Z * pt_state P) :=
  r ← pa_alloc (pt_pages st) 0;
  let '(ret, p) := r in
  if ret =? 0 then Some (0, mk_pt p (pt_mem st))
  else Some (ret, mk_pt p (clear_words (pt_mem st) ret (Z.to_nat (PAGE_SIZE / 8)))).

(** [if (t[ind] == 0) { new page; t[ind] = to_phy(page) | attr; } else ...] *)
Definition next_table (st : pt_state P) (t ind attr : Z) : option (Z * pt_state P) :=
  if t =? NULL then None
  else if entry (pt_mem st) t ind =? 0 then
    r ← get_zeroed_page st;
    let '(n, st) := r in
    Some (n, mk_pt (pt_pages st) (set_entry (pt_mem st) t ind (Z.lor (to_phy n) attr)))
  else Some (table_of (entry (pt_mem st) t ind), st).

(** The last level masks after the translation: [to_vir(e) & -(1 << 12)]. *)
Definition next_page (st : pt_state P) (t ind attr : Z) : option (Z * pt_state P) :=
  if t =? NULL then None
  else if entry (pt_mem st) t ind =? 0 then
    r ← get_zeroed_page st;
    let '(n, st) := r in
    Some (n, mk_pt (pt_pages st) (set_entry (pt_mem st) t ind (Z.lor (to_phy n) attr)))
  else Some (Z.land (to_vir (entry (pt_mem st) t ind)) PAGE_MASK, st).

Definition map_page (st : pt_state P) (pgd ustart : Z) : option (Z * pt_state P) :=
  let ustart := Z.land ustart (Z.shiftl 1 48 - 1) in
  let pml4_ind := ustart / Z.shiftl 1 39 in
  r ← next_table st pgd pml4_ind PML4E_ATTR;
  let '(pdpt, st) := r in
  let ustart := Z.land ustart (Z.shiftl 1 39 - 1) in
  let pdpt_ind := ustart / Z.shiftl 1 30 in
  r ← next_table st pdpt pdpt_ind PDPTE_ATTR;
  let '(pd, st) := r in
  let ustart := Z.land ustart (Z.shiftl 1 30 - 1) in
  let pd_ind := ustart / Z.shiftl 1 21 in
  r ← next_table st pd pd_ind PDE_ATTR;
  let '(pt, st) := r in
  let ustart := Z.land ustart (Z.shiftl 1 21 - 1) in
  let pt_ind := ustart / Z.shiftl 1 12 in
  next_page st pt pt_ind PTE_ATTR.

(** [unmap_page] is a stub. *)
Definition unmap_page (st : pt_state P) (pgd ustart : Z) : Z * pt_state P := (0, st).

(** The loop over the entries [ind] of a table with [f] on the non-zero ones. *)
Definition each_entry (f : Z -> pt_state P -> option (pt_state P)) (t : Z) (inds : list Z) (st : pt_state P) :
    option (pt_state P) :=
  foldl (fun o ind => st ← o;
    if entry (pt_mem st) t ind =? 0 then Some st else f (table_of (entry (pt_mem st) t ind)) st) (Some st) inds.

Definition free_one (page : Z) (st : pt_state P) : option (pt_state P) :=
  p ← pa_free (pt_pages st) page 0; Some (mk_pt p (pt_mem st)).

Definition nr_entry : Z := PAGE_SIZE / 8.
Definition free_level1 (level1 : Z) (st : pt_state P) : option (pt_state P) :=
  st ← each_entry free_one level1 (seqZ 0 nr_entry) st; free_one level1 st.
Definition free_level2 (level2 : Z) (st : pt_state P) : option (pt_state P) :=
  st ← each_entry free_level1 level2 (seqZ 0 nr_entry) st; free_one level2 st.
Definition free_level3 (level3 : Z) (st : pt_state P) : option (pt_state P) :=
  st ← each_entry free_level2 level3 (seqZ 0 nr_entry) st; free_one level3 st.

Definition free_proc_mm (st : pt_state P) (pgd : Z) : option (pt_state P) :=
  st ← each_entry free_level3 pgd (seqZ 0 (nr_entry / 2)) st;
  Some (mk_pt (pt_pages st) (clear_words (pt_mem st) pgd (Z.to_nat (PAGE_SIZE / 2 / 8)))).
End Operations.

Definition kmap (m : gmap Z Z) (pgd uaddr : Z) : Z :=
  let addr := uaddr in
  if negb (Z.land addr (u64 (Z.shiftl 0xffff 48)) =? 0) then uaddr
  else
    let pml4_ind := addr / Z.shiftl 1 39 in
    let pdpt := to_vir (Z.land (entry m pgd pml4_ind) PAGE_MASK) in
    let addr := Z.land addr (Z.shiftl 1 39 - 1) in
    let pdpt_ind := addr / Z.shiftl 1 30 in
    let pd := to_vir (Z.land (entry m pdpt pdpt_ind) PAGE_MASK) in
    let addr := Z.land addr (Z.shiftl 1 30 - 1) in
    let pd_ind := addr / Z.shiftl 1 21 in
    let pt := to_vir (Z.land (entry m pd pd_ind) PAGE_MASK) in
    let addr := Z.land addr (Z.shiftl 1 21 - 1) in
    let pt_ind := addr / Z.shiftl 1 12 in
    let paddr := Z.lor (Z.land (entry m pt pt_ind) PAGE_MASK) (addr mod Z.shiftl 1 12) in
    to_vir paddr.

(** ** The kernel's own table: [setup_page_table] *)

(** A [fill_*] loop: [nr] entries at [base] that refer to the pages from [addr]. *)
Definition fill_loop (m : gmap Z Z) (base addr attr : Z) (nr : nat) : gmap Z Z :=
  foldl (fun m i => set_entry m base i (Z.lor (to_phy (addr + PAGE_SIZE * i)) attr)) m (seqZ 0 (Z.of_nat nr)).

Definition fill_pml4 (m : gmap Z Z) (base addr nr : Z) : gmap Z Z :=
  let m := clear_words m base (Z.to_nat (PAGE_SIZE / 8)) in
  foldl (fun m i =>
    let e := Z.lor (to_phy (addr + PAGE_SIZE * i)) PML4E_ATTR in
    set_entry (set_entry m base i e) base (i + 256) e) m (seqZ 0 nr).

Definition fill_pdpt (m : gmap Z Z) (base addr nr : Z) : gmap Z Z :=
  fill_loop (clear_words m base (Z.to_nat (upper_div nr PRE_PAGE_ENTRY * PAGE_SIZE / 8))) base addr PDPTE_ATTR (Z.to_nat nr).
Definition fill_pd (m : gmap Z Z) (base addr nr : Z) : gmap Z Z :=
  fill_loop (clear_words m base (Z.to_nat (upper_div nr PRE_PAGE_ENTRY * PAGE_SIZE / 8))) base addr PDE_ATTR (Z.to_nat nr).
Definition fill_pt (m : gmap Z Z) (base addr nr : Z) : gmap Z Z :=
  fill_loop (clear_words m base (Z.to_nat (upper_div nr PRE_PAGE_ENTRY * PAGE_SIZE / 8))) base addr PTE_ATTR (Z.to_nat nr).

(** The result: the memory, [cr3] after [switch_pgd] and the end of the tables. *)
Record table_layout := mk_layout {
  nr_pml4e : Z; nr_pdpte : Z; nr_pde : Z; nr_pte : Z;
  base_pml4 : Z; base_pdpt : Z; base_pd : Z; base_pt : Z; table_end : Z }.

Definition layout_of (global_pgd_start memsize : Z) : table_layout :=
  let nr_pte := memsize / PAGE_SIZE in
  let nr_pde := upper_div nr_pte PRE_PAGE_ENTRY in
  let nr_pdpte := upper_div nr_pde PRE_PAGE_ENTRY in
  let nr_pml4e := upper_div nr_pdpte PRE_PAGE_ENTRY in
  let base_pml4 := global_pgd_start in
  let base_pdpt := base_pml4 + upper_div nr_pml4e PRE_PAGE_ENTRY * PAGE_SIZE in
  let base_pd := base_pdpt + upper_div nr_pdpte PRE_PAGE_ENTRY * PAGE_SIZE in
  let base_pt := base_pd + upper_div nr_pde PRE_PAGE_ENTRY * PAGE_SIZE in
  mk_layout nr_pml4e nr_pdpte nr_pde nr_pte base_pml4 base_pdpt base_pd base_pt
    (base_pt + upper_div nr_pte PRE_PAGE_ENTRY * PAGE_SIZE).

Definition setup_page_table (m : gmap Z Z) (global_pgd_start memsize : Z) : gmap Z Z * Z * Z :=
  let l := layout_of global_pgd_start memsize in
  let m := fill_pml4 m (base_pml4 l) (base_pdpt l) (nr_pml4e l) in
  let m := fill_pdpt m (base_pdpt l) (base_pd l) (nr_pdpte l) in
  let m := fill_pd m (base_pd l) (base_pt l) (nr_pde l) in
  let m := fill_pt m (base_pt l) KERNEL_OFFSET (nr_pte l) in
  (m, to_phy (base_pml4 l), table_end l).

(** ** Words, entries and masks *)

Lemma entry_set m t ind v t' ind' :
  entry (set_entry m t ind v) t' ind' = if decide (t + 8 * ind = t' + 8 * ind') then v else entry m t' ind'.
Proof. unfold entry, set_entry, rd. case_decide as E; [by rewrite <- E, lookup_insert_eq|by rewrite lookup_insert_ne]. Qed.

(** Filling the first [n] entries of a table. *)
Lemma fill_out (v : Z -> Z) m t n a :
  (forall k, 0 <= k < Z.of_nat n -> a <> t + 8 * k) ->
  rd (foldl (fun m k => set_entry m t k (v k)) m (seqZ 0 (Z.of_nat n))) a = rd m a.
Proof.
  induction n as [|n IH]; intros H; [done|]. rewrite seqZ_S, foldl_snoc.
  unfold rd at 1, set_entry at 1. rewrite lookup_insert_ne; [|apply not_eq_sym; apply H; lia].
  apply IH. intros k Hk. apply H. lia.
Qed.

Lemma fill_in (v : Z -> Z) m t n k :
  0 <= k < Z.of_nat n -> entry (foldl (fun m k => set_entry m t k (v k)) m (seqZ 0 (Z.of_nat n))) t k = v k.
Proof.
  induction n as [|n IH]; intros Hk; [lia|]. rewrite seqZ_S, foldl_snoc, entry_set.
  case_decide as E; [f_equal; lia|]. apply IH. lia.
Qed.

Lemma page_mask_eq : PAGE_MASK = 2 ^ 64 - 2 ^ 12.
Proof. reflexivity. Qed.

Lemma mask_entry b : 0 <= b < 2 ^ 64 -> b mod PAGE_SIZE = 0 -> b + 7 < 2 ^ 64 -> Z.land (b + 7) PAGE_MASK = b.
Proof.
  intros Hb Hal H7. rewrite page_mask_eq, land_high_mask by lia.
  change (2 ^ 12) with PAGE_SIZE. rewrite Z.add_mod, Hal by (unfold PAGE_SIZE; lia).
  change (7 mod PAGE_SIZE) with 7. cbn [Z.add]. rewrite Z.mod_small by (unfold PAGE_SIZE; lia). lia.
Qed.

Lemma kernel_page b :
  kernel_block b 0 -> KERNEL_OFFSET < b /\ b mod 4096 = 0 /\ b + 4096 <= 2 ^ 64.
Proof. intros (_ & ? & ? & H). change (PAGE_SIZE * 2 ^ 0) with 4096 in H. done. Qed.

(** A page of the kernel map and its physical address. *)
Lemma kernel_page_phy b :
  kernel_block b 0 -> 0 < to_phy b < 2 ^ 47 /\ to_phy b mod PAGE_SIZE = 0 /\ to_vir (to_phy b) = b /\
  to_phy b = b - KERNEL_OFFSET.
Proof.
  intros (Hlow & Hal & Hhigh)%kernel_page. unfold PAGE_SIZE in *.
  assert (Hb : KERNEL_OFFSET <= b < 2 ^ 64) by lia.
  rewrite to_vir_to_phy by (unfold KERNEL_OFFSET in *; lia). rewrite to_phy_high by done.
  split; [unfold KERNEL_OFFSET in *; lia|]. split; [|done].
  replace (b - KERNEL_OFFSET) with (b + (- 0xffff800000000) * 4096) by (unfold KERNEL_OFFSET; lia).
  by rewrite Z.mod_add by lia.
Qed.

Lemma table_entry b :
  kernel_block b 0 ->
  Z.lor (to_phy b) 7 = to_phy b + 7 /\ Z.land (to_phy b + 7) PAGE_MASK = to_phy b /\
  table_of (to_phy b + 7) = b /\ Z.land (to_vir (to_phy b + 7)) PAGE_MASK = b /\ to_phy b + 7 <> 0.
Proof.
  intros Hb. destruct (kernel_page_phy b Hb) as (Hr & Hal & Hv & Hp). apply kernel_page in Hb as (Hlow & Halb & Hhigh).
  unfold PAGE_SIZE in *.
  assert (Hm : Z.land (to_phy b + 7) PAGE_MASK = to_phy b) by (apply mask_entry; [lia|done|lia]).
  split; [|split; [done|split; [unfold table_of; by rewrite Hm|split; [|lia]]]].
  - apply (lor_add _ _ 12); [lia|done|lia].
  - rewrite to_vir_low by (unfold KERNEL_OFFSET in *; lia). rewrite Hp. replace (b - KERNEL_OFFSET + 7 + KERNEL_OFFSET) with (b + 7) by lia.
    unfold KERNEL_OFFSET in *. apply mask_entry; [lia|done|lia].
Qed.

(** ** The tree of tables

    [role] gives each page of the tree its path: the indices that lead to it
    from the root, none for the root itself, four for a user frame. *)

Definition ind_ok (path : list Z) (ind : Z) : Prop :=
  0 <= ind < match path with [] => 256 | _ => 512 end.

(** The indices of a user address. *)
Definition path_of (u : Z) : list Z :=
  [u / 2 ^ 39; u mod 2 ^ 39 / 2 ^ 30; u mod 2 ^ 30 / 2 ^ 21; u mod 2 ^ 21 / 2 ^ 12].

Section Tree.
Context {P : Type} `{!PageAllocator P}.
Implicit Types (st : pt_state P) (own : gmap Z Z) (role : gmap Z (list Z)).

Record pt_inv st own (pgd : Z) role : Prop := {
  pi_pages : pa_inv (pt_pages st) own;
  pi_root : role !! pgd = Some [];
  pi_own : forall a path, role !! a = Some path -> own !! a = Some 0 /\ (length path <= 4)%nat;
  pi_inj : forall a b path, role !! a = Some path -> role !! b = Some path -> a = b;
  pi_parent : forall b path ind, role !! b = Some (path ++ [ind]) ->
    ind_ok path ind /\ exists a, role !! a = Some path;
  pi_entry : forall a path ind, role !! a = Some path -> (length path < 4)%nat -> ind_ok path ind ->
    (entry (pt_mem st) a ind = 0 /\ forall b, role !! b <> Some (path ++ [ind])) \/
    (exists b, role !! b = Some (path ++ [ind]) /\ entry (pt_mem st) a ind = to_phy b + 7) }.

Lemma role_block st own pgd role a path :
  pt_inv st own pgd role -> role !! a = Some path -> kernel_block a 0.
Proof. intros H Ha. eapply pa_inv_blocks; [apply H|]. by eapply pi_own. Qed.

Lemma ind_ok_512 path ind : ind_ok path ind -> 0 <= ind < 512.
Proof. unfold ind_ok. destruct path; lia. Qed.

(** Words of different pages of the tree are different. *)
Lemma words_apart a b i j :
  kernel_block a 0 -> kernel_block b 0 -> a <> b -> 0 <= i < 512 -> 0 <= j < 512 -> a + 8 * i <> b + 8 * j.
Proof.
  intros (_ & Ha & _)%kernel_page (_ & Hb & _)%kernel_page Hne Hi Hj E.
  apply Z.mod_divide in Ha as [x ->]; [|lia]. apply Z.mod_divide in Hb as [y ->]; [|lia]. lia.
Qed.

Lemma entry_child st own pgd role a path ind b :
  pt_inv st own pgd role -> role !! a = Some path -> role !! b = Some (path ++ [ind]) ->
  entry (pt_mem st) a ind = to_phy b + 7.
Proof.
  intros H Ha Hb. destruct (pi_parent _ _ _ _ H b path ind Hb) as [Hi _].
  destruct (pi_own _ _ _ _ H b _ Hb) as [_ Hl]. rewrite length_app in Hl. cbn [length] in Hl.
  destruct (pi_entry _ _ _ _ H a path ind Ha ltac:(lia) Hi) as [[_ Hno]|(b' & Hb' & ->)].
  - by destruct (Hno b).
  - by rewrite (pi_inj _ _ _ _ H b b' _ Hb Hb').
Qed.

(** ** [kmap] reads the tree *)

Lemma kmap_walk st own pgd role u f :
  pt_inv st own pgd role -> 0 <= u < 2 ^ 47 -> role !! f = Some (path_of u) ->
  kmap (pt_mem st) pgd u = f + u mod PAGE_SIZE.
Proof.
  intros H Hu Hf. pose proof (role_block _ _ _ _ _ _ H Hf) as Hfb.
  destruct (pi_parent _ _ _ _ H f [_; _; _] _ Hf) as [_ (t1 & Ht1)].
  destruct (pi_parent _ _ _ _ H t1 [_; _] _ Ht1) as [_ (t2 & Ht2)].
  destruct (pi_parent _ _ _ _ H t2 [_] _ Ht2) as [_ (t3 & Ht3)].
  pose proof (entry_child _ _ _ _ _ _ _ _ H (pi_root _ _ _ _ H) Ht3) as E4.
  pose proof (entry_child _ _ _ _ _ _ _ _ H Ht3 Ht2) as E3.
  pose proof (entry_child _ _ _ _ _ _ _ _ H Ht2 Ht1) as E2.
  pose proof (entry_child _ _ _ _ _ _ _ _ H Ht1 Hf) as E1.
  pose proof (table_entry t3 (role_block _ _ _ _ _ _ H Ht3)) as (_ & _ & T3 & _).
  pose proof (table_entry t2 (role_block _ _ _ _ _ _ H Ht2)) as (_ & _ & T2 & _).
  pose proof (table_entry t1 (role_block _ _ _ _ _ _ H Ht1)) as (_ & _ & T1 & _).
  pose proof (table_entry f Hfb) as (_ & Mf & _).
  unfold kmap. assert (Hlow : Z.land u (u64 (Z.shiftl 0xffff 48)) = 0).
  { rewrite Z.land_comm. apply (land_low_high _ _ 48); [lia|reflexivity|lia]. }
  rewrite Hlow. cbn [Z.eqb negb]. rewrite !land_mask_zero, !shiftl_1 by lia.
  rewrite !mod_pow2_mod by lia.
  rewrite E4. fold (table_of (to_phy t3 + 7)). rewrite T3, E3. fold (table_of (to_phy t2 + 7)).
  rewrite T2, E2. fold (table_of (to_phy t1 + 7)). rewrite T1, E1, Mf.
  destruct (kernel_page_phy f Hfb) as (Hr & Hal & Hv & Hp). change (2 ^ 12) with PAGE_SIZE.
  pose proof (Z.mod_pos_bound u PAGE_SIZE ltac:(unfold PAGE_SIZE; lia)).
  rewrite (lor_add _ _ 12) by (done || lia). apply kernel_page in Hfb as (? & ? & ?). unfold PAGE_SIZE in *.
  rewrite to_vir_low by (unfold KERNEL_OFFSET in *; lia). lia.
Qed.

(** ** One level of [map_page] *)

(** A new zeroed page for the empty entry [ind] of the table [t]. *)
Lemma inv_new_table st own pgd role t path ind n p' :
  pt_inv st own pgd role -> role !! t = Some path -> (length path < 4)%nat -> ind_ok path ind ->
  (forall b, role !! b <> Some (path ++ [ind])) -> own !! n = None -> kernel_block n 0 ->
  pa_inv p' (<[n := 0]> own) ->
  pt_inv (mk_pt p' (set_entry (clear_words (pt_mem st) n (Z.to_nat (PAGE_SIZE / 8))) t ind (to_phy n + 7)))
    (<[n := 0]> own) pgd (<[n := path ++ [ind]]> role).
Proof.
  intros H Ht Hl Hi Hno Hnone Hn Hp.
  assert (Hfresh : forall a q, role !! a = Some q -> a <> n).
  { intros a q Ha ->. destruct (pi_own _ _ _ _ H n q Ha). congruence. }
  pose proof (role_block _ _ _ _ _ _ H Ht) as Htb.
  assert (Hold : forall a q j, role !! a = Some q -> 0 <= j < 512 -> (a <> t \/ j <> ind) ->
    entry (set_entry (clear_words (pt_mem st) n (Z.to_nat (PAGE_SIZE / 8))) t ind (to_phy n + 7)) a j = entry (pt_mem st) a j).
  { intros a q j Ha Hj Hne. pose proof (role_block _ _ _ _ _ _ H Ha) as Hab. rewrite entry_set, decide_False.
    - apply fill_out. intros k Hk. apply words_apart; try done. by eapply Hfresh.
    - destruct (decide (a = t)) as [->|]; [lia|]. apply words_apart; try done. by apply (ind_ok_512 path). }
  split; cbn [pt_pages pt_mem]; [done|..].
  - rewrite lookup_insert_ne; [apply H|]. intros ->. by apply (Hfresh pgd [] (pi_root _ _ _ _ H)).
  - intros a q [[<- <-]|[Hne Ha]]%lookup_insert_Some.
    + rewrite lookup_insert_eq, length_app. cbn [length]. split; [done|lia].
    + rewrite lookup_insert_ne by done. by eapply pi_own.
  - intros a b q [[<- <-]|[Hne Ha]]%lookup_insert_Some [[<- E]|[Hne' Hb]]%lookup_insert_Some; try done.
    + by destruct (Hno b).
    + subst q. by destruct (Hno a).
    + by eapply pi_inj.
  - intros b q j [[<- E]|[Hne Hb]]%lookup_insert_Some.
    + apply app_inj_tail in E as [<- <-]. split; [done|]. exists t. rewrite lookup_insert_ne; [done|].
      intros <-. by apply (Hfresh n path).
    + destruct (pi_parent _ _ _ _ H b q j Hb) as [? (a & Ha)]. split; [done|]. exists a.
      rewrite lookup_insert_ne; [done|]. intros <-. by apply (Hfresh n q).
  - intros a q j [[<- <-]|[Hne Ha]]%lookup_insert_Some Hlq Hj.
    + left. split.
      * rewrite entry_set, decide_False.
        -- apply fill_in. change (Z.of_nat (Z.to_nat (PAGE_SIZE / 8))) with 512. by apply (ind_ok_512 (path ++ [ind])).
        -- apply words_apart; try done; [by eapply Hfresh|by apply (ind_ok_512 path)|by apply (ind_ok_512 (path ++ [ind]))].
      * intros b [[<- E]|[_ Hb]]%lookup_insert_Some.
        -- apply (f_equal length) in E. rewrite !length_app in E. cbn [length] in E. lia.
        -- destruct (pi_parent _ _ _ _ H b _ _ Hb) as [_ (c & Hc)]. by destruct (Hno c).
    + destruct (decide (a = t /\ j = ind)) as [[-> ->]|Hd].
      * right. assert (q = path) as -> by congruence. exists n. rewrite lookup_insert_eq. split; [done|].
        by rewrite entry_set, decide_True.
      * rewrite (Hold a q) by (done || (by apply (ind_ok_512 q)) || lia).
        destruct (pi_entry _ _ _ _ H a q j Ha Hlq Hj) as [[E Hnb]|(b & Hb & E)].
        -- left. split; [done|]. intros b [[<- E2]|[_ Hb]]%lookup_insert_Some; [|by destruct (Hnb b)].
           apply app_inj_tail in E2 as [<- <-]. apply Hd. split; [|done]. by eapply pi_inj.
        -- right. exists b. rewrite lookup_insert_ne; [done|]. apply not_eq_sym. by eapply Hfresh.
Qed.

(** [n] more pages can be allocated one after the other. *)
Fixpoint enough (n : nat) (p : P) : Prop :=
  match n with
  | O => True
  | S n => exists a p', pa_alloc p 0 = Some (a, p') /\ a <> 0 /\ enough n p'
  end.

Lemma enough_S n p : enough (S n) p -> enough n p.
Proof.
  revert p. induction n as [|n IH]; intros p H; [done|].
  destruct H as (a & p' & E & Hnz & H). exists a, p'. split; [done|]. split; [done|]. by apply IH.
Qed.

Lemma next_table_old st own pgd role t path ind b :
  pt_inv st own pgd role -> role !! t = Some path -> role !! b = Some (path ++ [ind]) ->
  next_table st t ind 7 = Some (b, st) /\ next_page st t ind 7 = Some (b, st).
Proof.
  intros H Ht Hb. pose proof (entry_child _ _ _ _ _ _ _ _ H Ht Hb) as E.
  destruct (table_entry b (role_block _ _ _ _ _ _ H Hb)) as (_ & _ & T & T' & Hnz).
  destruct (kernel_page t (role_block _ _ _ _ _ _ H Ht)) as (Htb & _).
  unfold next_table, next_page. rewrite E, T, T'.
  rewrite (proj2 (Z.eqb_neq t NULL)) by (unfold NULL, KERNEL_OFFSET in *; lia).
  by rewrite (proj2 (Z.eqb_neq _ 0) Hnz).
Qed.

(** The words of the pages that are no tables of the tree stay, those of its frames
    and those of the other allocated pages, and so does the kernel half of its root. *)
Definition frame_kept st st' own role : Prop :=
  forall a k, own !! a = Some 0 -> (forall q, role !! a = Some q -> length q = 4%nat \/ (q = [] /\ 256 <= k)) -> 0 <= k < 512 ->
    entry (pt_mem st') a k = entry (pt_mem st) a k.

(** What one level does: the child [n] of [t] at [ind] exists afterwards. *)
Definition level_post st st' own own' pgd role role' (path : list Z) (ind n : Z) : Prop :=
  pt_inv st' own' pgd role' /\ role' !! n = Some (path ++ [ind]) /\ role ⊆ role' /\ own ⊆ own' /\
  (forall a q, role' !! a = Some q -> role !! a = Some q \/ (q = path ++ [ind] /\ a = n)) /\
  ((role !! n = Some (path ++ [ind]) /\ st' = st) \/
   (own !! n = None /\ forall k, 0 <= k < 512 -> entry (pt_mem st') n k = 0)) /\
  frame_kept st st' own role.

Lemma next_table_ok k st own pgd role t path ind :
  pt_inv st own pgd role -> role !! t = Some path -> (length path < 4)%nat -> ind_ok path ind ->
  enough (S k) (pt_pages st) ->
  exists n st' own' role', next_table st t ind 7 = Some (n, st') /\ next_page st t ind 7 = Some (n, st') /\
    level_post st st' own own' pgd role role' path ind n /\ enough k (pt_pages st').
Proof.
  intros H Ht Hl Hi Hen. destruct (pi_entry _ _ _ _ H t path ind Ht Hl Hi) as [[E Hno]|(b & Hb & _)].
  2: { destruct (next_table_old st own pgd role t path ind b H Ht Hb) as [E1 E2]. exists b, st, own, role.
       split; [done|]. split; [done|]. split; [|by apply enough_S]. split; [done|]. split; [done|].
       split; [done|]. split; [done|]. split; [by left|]. split; [by left|done]. }
  destruct Hen as (a & p' & Ha & Hnz & Hen).
  destruct (pa_alloc_ok (pt_pages st) own 0 (pi_pages _ _ _ _ H)) as (a' & p'' & Ha' & _ & Hr); [unfold MAX_ORDER; lia|].
  rewrite Ha in Ha'. injection Ha' as <- <-. destruct Hr as [[? _]|(Hkb & _ & Hnone & Hp)]; [done|].
  destruct (kernel_page t (role_block _ _ _ _ _ _ H Ht)) as (Htb & _).
  destruct (table_entry a Hkb) as (Hlor & _).
  assert (Hne : a <> t) by (intros ->; destruct (pi_own _ _ _ _ H t path Ht); congruence).
  unfold next_table, next_page, get_zeroed_page. rewrite (proj2 (Z.eqb_neq t NULL)) by (unfold NULL, KERNEL_OFFSET in *; lia).
  rewrite E. cbn [Z.eqb]. rewrite Ha. run_bind. rewrite (proj2 (Z.eqb_neq a 0) Hnz). run_bind.
  cbn [pt_pages pt_mem]. rewrite Hlor. eexists a, _, _, _. split; [done|]. split; [done|]. split; [|done].
  split; [by apply inv_new_table|]. split; [apply lookup_insert_eq|]. split; [|split; [by apply insert_subseteq|split]].
  - apply insert_subseteq. destruct (role !! a) as [q|] eqn:Eq; [|done].
    destruct (pi_own _ _ _ _ H a q Eq). congruence.
  - intros c q [[<- <-]|[_ Hc]]%lookup_insert_Some; [by right|by left].
  - split.
    + right. split; [done|]. intros j Hj. cbn [pt_mem]. rewrite entry_set, decide_False.
      * by apply fill_in.
      * apply words_apart; try done; [by eapply role_block|by apply (ind_ok_512 path)].
    + intros c j Hc Hq Hj. cbn [pt_mem]. assert (Hcb : kernel_block c 0) by (eapply pa_inv_blocks; [apply H|done]).
      assert (c <> a) by congruence. rewrite entry_set, decide_False.
      2: { destruct (decide (c = t)) as [->|]; [|apply words_apart; try done; [by eapply role_block|by apply (ind_ok_512 path)]].
           destruct (Hq path Ht) as [|[-> ?]]; [lia|]. unfold ind_ok in Hi. lia. }
      apply fill_out. intros i Hx. change (Z.of_nat (Z.to_nat (PAGE_SIZE / 8))) with 512 in Hx. by apply words_apart.
Qed.

Lemma path_ok u :
  0 <= u < 2 ^ 47 ->
  ind_ok [] (u / 2 ^ 39) /\ (forall x q, ind_ok (x :: q) (u mod 2 ^ 39 / 2 ^ 30)) /\
  (forall x q, ind_ok (x :: q) (u mod 2 ^ 30 / 2 ^ 21)) /\ (forall x q, ind_ok (x :: q) (u mod 2 ^ 21 / 2 ^ 12)).
Proof.
  intros Hu. assert (Hdiv : forall a b, 0 < b -> 0 <= a < 512 * b -> 0 <= a / b < 512).
  { intros a b Hb Ha. split; [apply Z.div_pos; lia|apply Z.div_lt_upper_bound; lia]. }
  assert (Hm : forall k, 0 <= k -> 0 <= u mod 2 ^ k < 2 ^ k) by (intros; apply Z.mod_pos_bound, pow2_pos; lia).
  unfold ind_ok. split; [split; [apply Z.div_pos; lia|apply Z.div_lt_upper_bound; lia]|].
  split; [|split]; intros _ _; apply Hdiv; try lia.
  - apply (Hm 39). lia.
  - apply (Hm 30). lia.
  - apply (Hm 21). lia.
Qed.

Lemma map_page_eq st pgd u :
  0 <= u < 2 ^ 47 ->
  map_page st pgd u =
    (r ← next_table st pgd (u / 2 ^ 39) 7; r ← next_table r.2 r.1 (u mod 2 ^ 39 / 2 ^ 30) 7;
     r ← next_table r.2 r.1 (u mod 2 ^ 30 / 2 ^ 21) 7; next_page r.2 r.1 (u mod 2 ^ 21 / 2 ^ 12) 7).
Proof.
  intros Hu. unfold map_page. rewrite !land_mask_zero, !shiftl_1 by lia.
  rewrite !mod_pow2_mod by lia. rewrite (Z.mod_small u (2 ^ 48)) by lia.
  destruct (next_table st pgd _ _) as [[t3 s3]|]; [|done]. run_bind. cbn [fst snd].
  destruct (next_table s3 t3 _ _) as [[t2 s2]|]; [|done]. run_bind. cbn [fst snd].
  destruct (next_table s2 t2 _ _) as [[t1 s1]|]; [|done]. by run_bind.
Qed.

(** The tree grows by new pages and nothing else changes. *)
Definition grows st st' own own' role role' : Prop :=
  own ⊆ own' /\ role ⊆ role' /\ (forall a q, role' !! a = Some q -> role !! a = Some q \/ own !! a = None) /\
  frame_kept st st' own role.

Lemma space_grows_trans st1 st2 st3 own1 own2 own3 role1 role2 role3 :
  grows st1 st2 own1 own2 role1 role2 -> grows st2 st3 own2 own3 role2 role3 -> grows st1 st3 own1 own3 role1 role3.
Proof.
  intros (O1 & R1 & N1 & F1) (O2 & R2 & N2 & F2). split; [by etransitivity|]. split; [by etransitivity|].
  assert (Hfresh : forall a, own2 !! a = None -> own1 !! a = None).
  { intros a Ha. destruct (own1 !! a) as [x|] eqn:E; [|done]. pose proof (lookup_weaken _ _ _ _ E O1). congruence. }
  split.
  - intros a q Ha. destruct (N2 a q Ha) as [Ha2|Ha2]; [by apply N1|right; by apply Hfresh].
  - intros a k Ha Hq Hk. rewrite <- (F1 a k Ha Hq Hk). apply F2; [by eapply lookup_weaken| |done].
    intros q Hq2. destruct (N1 a q Hq2); [by apply Hq|congruence].
Qed.

Lemma level_space_grows st st' own own' pgd role role' path ind n :
  level_post st st' own own' pgd role role' path ind n -> grows st st' own own' role role'.
Proof.
  intros (_ & Hn & Hr & Ho & Hb & Hz & Hk). split; [done|]. split; [done|]. split; [|done].
  intros a q Ha. destruct (Hb a q Ha) as [?|[-> ->]]; [by left|]. destruct Hz as [[? _]|[? _]]; [by left|by right].
Qed.

(** What [map_page(u)] guarantees when it returns [page]. *)
Definition map_post st st' own own' pgd role role' (u page : Z) : Prop :=
  pt_inv st' own' pgd role' /\ grows st st' own own' role role' /\
  (forall v f, role' !! f = Some (path_of v) <-> role !! f = Some (path_of v) \/ (path_of v = path_of u /\ f = page)) /\
  ((role !! page = Some (path_of u)) \/
   (own !! page = None /\ forall k, 0 <= k < 512 -> entry (pt_mem st') page k = 0)).

Lemma map_page_new n st own pgd role u :
  pt_inv st own pgd role -> 0 <= u < 2 ^ 47 -> enough (4 + n) (pt_pages st) ->
  exists page st' own' role', map_page st pgd u = Some (page, st') /\ map_post st st' own own' pgd role role' u page /\
    enough n (pt_pages st').
Proof.
  intros H Hu Hen. rewrite map_page_eq by done. destruct (path_ok u Hu) as (I4 & I3 & I2 & I1).
  destruct (next_table_ok (3 + n) st own pgd role pgd [] (u / 2 ^ 39) H (pi_root _ _ _ _ H)) as
    (t3 & s3 & o3 & r3 & -> & _ & L3 & Hen3); [cbn; lia|done|done|]. run_bind. cbn [fst snd].
  pose proof L3 as (H3 & Ht3 & Hr3 & _ & Hb3 & _).
  destruct (next_table_ok (2 + n) s3 o3 pgd r3 t3 _ (u mod 2 ^ 39 / 2 ^ 30) H3 Ht3) as
    (t2 & s2 & o2 & r2 & -> & _ & L2 & Hen2); [cbn; lia|apply I3|done|]. run_bind. cbn [fst snd].
  pose proof L2 as (H2 & Ht2 & Hr2 & _ & Hb2 & _).
  destruct (next_table_ok (1 + n) s2 o2 pgd r2 t2 _ (u mod 2 ^ 30 / 2 ^ 21) H2 Ht2) as
    (t1 & s1 & o1 & r1 & -> & _ & L1 & Hen1); [cbn; lia|apply I2|done|]. run_bind. cbn [fst snd].
  pose proof L1 as (H1 & Ht1 & Hr1 & _ & Hb1 & _).
  destruct (next_table_ok n s1 o1 pgd r1 t1 _ (u mod 2 ^ 21 / 2 ^ 12) H1 Ht1) as
    (f & s0 & o0 & r0 & _ & -> & L0 & Hen0); [cbn; lia|apply I1|done|].
  pose proof L0 as (H0 & Hf & Hr0 & _ & Hb0 & Hz & _).
  apply level_space_grows in L3, L2, L1, L0. pose proof (space_grows_trans _ _ _ _ _ _ _ _ _ (space_grows_trans _ _ _ _ _ _ _ _ _ L3 L2) L1) as Hg1.
  exists f, s0, o0, r0. split; [done|]. split; [|done]. split; [done|]. split; [by eapply space_grows_trans|].
  assert (Hold : forall a v, r1 !! a = Some (path_of v) -> role !! a = Some (path_of v)).
  { intros a v Ha. destruct (Hb1 a _ Ha) as [Ha1|[E _]]; [|done].
    destruct (Hb2 a _ Ha1) as [Ha2|[E _]]; [|done]. destruct (Hb3 a _ Ha2) as [Ha3|[E _]]; [|done]. done. }
  split.
  - intros v a. split.
    + intros Ha. destruct (Hb0 a _ Ha) as [Ha0|[E ->]]; [left; by apply Hold|by right].
    + intros [Ha|[-> ->]]; [|done]. do 4 (eapply lookup_weaken; [|eassumption]). done.
  - destruct Hz as [[Hz _]|[Hz ?]]; [left; by apply (Hold f u)|right; split; [|done]].
    destruct (own !! f) as [x|] eqn:E; [|done]. destruct Hg1 as [Ho _].
    pose proof (lookup_weaken _ _ _ _ E Ho). congruence.
Qed.

Lemma map_page_old st own pgd role u f :
  pt_inv st own pgd role -> 0 <= u < 2 ^ 47 -> role !! f = Some (path_of u) -> map_page st pgd u = Some (f, st).
Proof.
  intros H Hu Hf. rewrite map_page_eq by done.
  destruct (pi_parent _ _ _ _ H f [_; _; _] _ Hf) as [_ (t1 & Ht1)].
  destruct (pi_parent _ _ _ _ H t1 [_; _] _ Ht1) as [_ (t2 & Ht2)].
  destruct (pi_parent _ _ _ _ H t2 [_] _ Ht2) as [_ (t3 & Ht3)].
  rewrite (proj1 (next_table_old _ _ _ _ _ _ _ _ H (pi_root _ _ _ _ H) Ht3)). run_bind. cbn [fst snd].
  rewrite (proj1 (next_table_old _ _ _ _ _ _ _ _ H Ht3 Ht2)). run_bind. cbn [fst snd].
  rewrite (proj1 (next_table_old _ _ _ _ _ _ _ _ H Ht2 Ht1)). run_bind. cbn [fst snd].
  exact (proj2 (next_table_old _ _ _ _ _ _ _ _ H Ht1 Hf)).
Qed.

(** ** [free_proc_mm] gives every page of the tree back *)

(** The loops of [free_proc_mm] by height: 0 for a user frame. *)
Fixpoint free_sub (h : nat) (t : Z) (st : pt_state P) : option (pt_state P) :=
  match h with
  | O => free_one t st
  | S h => st ← each_entry (free_sub h) t (seqZ 0 nr_entry) st; free_one t st
  end.

(** [a] is a page of the tree at or below [path]. *)
Definition under role (path : list Z) (a : Z) : bool :=
  match role !! a with Some q => bool_decide (path `prefix_of` q) | None => false end.

Lemma under_true role path a : under role path a = true <-> exists q, role !! a = Some q /\ path `prefix_of` q.
Proof.
  unfold under. destruct (role !! a) as [q|].
  - rewrite bool_decide_eq_true. split; [by exists q|]. by intros (? & [= <-] & ?).
  - split; [done|]. by intros (? & ? & _).
Qed.

Lemma prefix_closed st own pgd role a p1 p2 :
  pt_inv st own pgd role -> role !! a = Some (p1 ++ p2) -> exists b, role !! b = Some p1.
Proof.
  intros H. revert a. induction p2 as [|x p2 IH] using rev_ind; intros a Ha.
  - exists a. by rewrite app_nil_r in Ha.
  - rewrite app_assoc in Ha. destruct (pi_parent _ _ _ _ H a _ x Ha) as [_ (b & Hb)]. by apply (IH b).
Qed.

(** What lies below a table is the table and what lies below its children. *)
Lemma under_split st own pgd role t path n a :
  pt_inv st own pgd role -> role !! t = Some path -> (forall ind, ind_ok path ind -> 0 <= ind < n) ->
  under role path a = bool_decide (a = t) || existsb (fun i => under role (path ++ [i]) a) (seqZ 0 n).
Proof.
  intros H Ht Hn. apply eq_bool_prop_intro. rewrite !Is_true_true, orb_true_iff, bool_decide_eq_true, existsb_exists.
  setoid_rewrite under_true. split.
  - intros (q & Ha & [p ->]). destruct p as [|x p].
    + left. rewrite app_nil_r in Ha. by eapply pi_inj.
    + right. exists x. rewrite cons_middle, app_assoc in Ha.
      destruct (prefix_closed _ _ _ _ a _ p H Ha) as (b & Hb). destruct (pi_parent _ _ _ _ H b path x Hb) as [Hi _].
      split; [apply list_elem_of_In, elem_of_seqZ; specialize (Hn x Hi); lia|].
      eexists. split; [exact Ha|]. by apply prefix_app_r.
  - intros [->|(x & _ & q & Ha & Hp)]; [by exists path|]. exists q. split; [done|].
    etransitivity; [|exact Hp]. by apply prefix_app_r.
Qed.

Lemma under_siblings role path i j a : under role (path ++ [i]) a = true -> under role (path ++ [j]) a = true -> i = j.
Proof.
  rewrite !under_true. intros (q & Ha & [p1 ->]) (q' & Ha' & [p2 ->]). rewrite Ha in Ha'. injection Ha' as E.
  rewrite <- !app_assoc in E. apply app_inv_head in E. by injection E.
Qed.

Lemma not_under_itself role t path l :
  role !! t = Some path -> existsb (fun i => under role (path ++ [i]) t) l = false.
Proof.
  intros Ht. apply not_true_is_false. rewrite existsb_exists. intros (i & _ & (q & Hq & [p ->])%under_true).
  rewrite Ht in Hq. injection Hq as E. apply (f_equal length) in E. rewrite !length_app in E. cbn [length] in E. lia.
Qed.

(** Freeing the pages that [s] selects. *)
Definition freed (s : Z -> bool) own own' : Prop :=
  forall a, own' !! a = if s a then None else own !! a.

Definition frees (f : Z -> pt_state P -> option (pt_state P)) st0 role (path : list Z) : Prop :=
  forall t st own, role !! t = Some path -> pt_mem st = pt_mem st0 -> pa_inv (pt_pages st) own ->
    (forall a, under role path a = true -> own !! a = Some 0) ->
    exists st' own', f t st = Some st' /\ pt_mem st' = pt_mem st0 /\ pa_inv (pt_pages st') own' /\
      freed (under role path) own own'.

Lemma each_entry_ok f st0 own0 pgd role t path inds :
  pt_inv st0 own0 pgd role -> role !! t = Some path -> (length path < 4)%nat ->
  (forall i, frees f st0 role (path ++ [i])) -> NoDup inds -> (forall i, i ∈ inds -> ind_ok path i) ->
  forall st own, pt_mem st = pt_mem st0 -> pa_inv (pt_pages st) own ->
    (forall i a, i ∈ inds -> under role (path ++ [i]) a = true -> own !! a = Some 0) ->
    exists st' own', each_entry f t inds st = Some st' /\ pt_mem st' = pt_mem st0 /\ pa_inv (pt_pages st') own' /\
      freed (fun a => existsb (fun i => under role (path ++ [i]) a) inds) own own'.
Proof.
  intros H Ht Hl Hf. induction inds as [|i inds IH]; intros Hnd Hi st own Hm Hp Ho.
  { exists st, own. split; [done|]. split; [done|]. by split. }
  apply NoDup_cons in Hnd as [Hni Hnd].
  assert (Hstep : exists st1 own1,
    (if entry (pt_mem st) t i =? 0 then Some st else f (table_of (entry (pt_mem st) t i)) st) = Some st1 /\
    pt_mem st1 = pt_mem st0 /\ pa_inv (pt_pages st1) own1 /\ freed (under role (path ++ [i])) own own1).
  { rewrite Hm. destruct (pi_entry _ _ _ _ H t path i Ht Hl (Hi i ltac:(set_solver))) as [[E Hno]|(b & Hb & E)].
    - exists st, own. rewrite E. split; [done|]. split; [done|]. split; [done|]. intros a.
      destruct (under role (path ++ [i]) a) eqn:Eu; [|done]. apply under_true in Eu as (q & Ha & [p ->]).
      destruct (prefix_closed _ _ _ _ a _ p H Ha) as (b & Hb). by destruct (Hno b).
    - rewrite E. destruct (table_entry b (role_block _ _ _ _ _ _ H Hb)) as (_ & _ & T & _ & Hnz).
      rewrite (proj2 (Z.eqb_neq _ 0) Hnz), T. apply (Hf i b st own); try done. intros a. apply Ho. set_solver. }
  destruct Hstep as (st1 & own1 & Hrun & Hm1 & Hp1 & Hf1).
  destruct (IH Hnd ltac:(set_solver) st1 own1 Hm1 Hp1) as (st' & own' & Hrun' & Hm' & Hp' & Hf').
  - intros j a Hj Hu. rewrite Hf1. destruct (under role (path ++ [i]) a) eqn:Eu.
    + rewrite (under_siblings role path i j a Eu Hu) in Hni. done.
    + apply (Ho j); [set_solver|done].
  - exists st', own'. split; [|split; [done|split; [done|]]].
    + unfold each_entry in *. cbn [foldl]. some_bind. rewrite Hrun. exact Hrun'.
    + intros a. rewrite Hf', Hf1. cbn [existsb]. destruct (under role (path ++ [i]) a); [|done].
      cbn [orb]. by destruct (existsb _ _).
Qed.

Lemma free_one_ok t st own :
  pa_inv (pt_pages st) own -> own !! t = Some 0 ->
  exists st', free_one t st = Some st' /\ pt_mem st' = pt_mem st /\ pa_inv (pt_pages st') (delete t own).
Proof.
  intros Hp Ho. unfold free_one. destruct (pa_free_ok _ _ _ _ Hp Ho) as (p' & -> & Hp' & _). some_bind. by eexists.
Qed.

Lemma free_sub_ok h st0 own0 pgd role path :
  pt_inv st0 own0 pgd role -> path <> [] -> (length path + h = 4)%nat -> frees (free_sub h) st0 role path.
Proof.
  intros H. revert path. induction h as [|h IH]; intros path Hne Hl t st own Ht Hm Hp Ho; cbn [free_sub].
  - destruct (free_one_ok t st own Hp) as (st' & -> & Hm' & Hp').
    { apply Ho. apply under_true. by exists path. }
    exists st', (delete t own). split; [done|]. split; [congruence|]. split; [done|]. intros a.
    destruct (under role path a) eqn:Eu.
    + apply under_true in Eu as (q & Ha & [p ->]). pose proof (pi_own _ _ _ _ H a _ Ha) as [_ Hq].
      rewrite length_app in Hq. assert (p = []) as -> by (destruct p; [done|cbn in Hq; lia]).
      rewrite app_nil_r in Ha. rewrite (pi_inj _ _ _ _ H a t path Ha Ht). apply lookup_delete_eq.
    + rewrite lookup_delete_ne; [done|]. intros <-.
      assert (under role path t = true) by (apply under_true; by exists path). congruence.
  - assert (Hind : forall i, ind_ok path i <-> 0 <= i < nr_entry) by (intros i; unfold ind_ok; destruct path; done).
    assert (Hsplit : forall a, _) by exact (fun a => under_split st0 own0 pgd role t path nr_entry a H Ht (fun i => proj1 (Hind i))).
    destruct (each_entry_ok (free_sub h) st0 own0 pgd role t path (seqZ 0 nr_entry) H Ht ltac:(lia)) with (st := st) (own := own)
      as (st1 & own1 & -> & Hm1 & Hp1 & Hf1); try done.
    { intros i. apply IH; [by destruct path|]. rewrite length_app. cbn [length]. lia. }
    { apply NoDup_seqZ. }
    { intros i Hi%elem_of_seqZ. apply Hind. lia. }
    { intros i a Hi Hu. apply Ho. rewrite Hsplit. apply orb_true_iff. right. apply existsb_exists. exists i.
      split; [by apply list_elem_of_In|done]. }
    some_bind.
    pose proof (not_under_itself role t path (seqZ 0 nr_entry) Ht) as Hself.
    destruct (free_one_ok t st1 own1 Hp1) as (st' & -> & Hm' & Hp').
    { rewrite Hf1. cbn beta. rewrite Hself. apply Ho, under_true. by exists path. }
    exists st', (delete t own1). split; [done|]. split; [congruence|]. split; [done|]. intros a.
    rewrite Hsplit. case_bool_decide as E; cbn [orb]; [subst; apply lookup_delete_eq|].
    rewrite lookup_delete_ne by done. apply Hf1.
Qed.

Lemma free_proc_mm_ok st own pgd role :
  pt_inv st own pgd role ->
  exists st' own', free_proc_mm st pgd = Some st' /\ pt_inv st' own' pgd {[pgd := []]} /\
    forall a, own' !! a = if decide (a <> pgd /\ is_Some (role !! a)) then None else own !! a.
Proof.
  intros H. pose proof (pi_root _ _ _ _ H) as Hr. unfold free_proc_mm. change free_level3 with (free_sub 3).
  assert (Hind : forall i, ind_ok [] i <-> 0 <= i < nr_entry / 2) by done.
  destruct (each_entry_ok (free_sub 3) st own pgd role pgd [] (seqZ 0 (nr_entry / 2)) H Hr ltac:(cbn; lia))
    with (st := st) (own := own) as (st1 & own1 & -> & Hm1 & Hp1 & Hf1); try done.
  { intros i. apply (free_sub_ok 3 st own pgd role [i] H); done. }
  { apply NoDup_seqZ. }
  { intros i Hi%elem_of_seqZ. apply Hind. lia. }
  { apply H. }
  { intros i a _ (q & Ha & _)%under_true. by destruct (pi_own _ _ _ _ H a q Ha). }
  some_bind. eexists _, own1. split; [done|].
  assert (Hown : forall a, own1 !! a = if decide (a <> pgd /\ is_Some (role !! a)) then None else own !! a).
  { intros a. rewrite Hf1. pose proof (under_split st own pgd role pgd [] (nr_entry / 2) a H Hr (fun i => proj1 (Hind i))) as Hs.
    assert (Hu : under role [] a = bool_decide (is_Some (role !! a))).
    { unfold under. destruct (role !! a); [|done]. rewrite !bool_decide_true; [done|by eexists|apply prefix_nil]. }
    destruct (decide (a = pgd)) as [->|Hne].
    - rewrite decide_False by tauto. by rewrite (not_under_itself role pgd [] _ Hr : existsb (fun i => under role [i] pgd) _ = false).
    - rewrite Hu, (bool_decide_false (a = pgd)) in Hs by done. cbn [orb] in Hs. rewrite <- Hs.
      repeat case_decide; case_bool_decide; tauto. }
  split; [|done]. split; cbn [pt_pages pt_mem]; [done|apply lookup_insert_eq|..].
  - intros a q [<- <-]%lookup_singleton_Some. rewrite Hown, decide_False by tauto.
    destruct (pi_own _ _ _ _ H pgd [] Hr). split; [done|cbn; lia].
  - intros a b q [<- _]%lookup_singleton_Some [<- _]%lookup_singleton_Some. done.
  - intros b q i [_ E]%lookup_singleton_Some. by destruct q.
  - intros a q i [<- <-]%lookup_singleton_Some _ Hi. left. split.
    + apply fill_in. change (Z.of_nat (Z.to_nat (PAGE_SIZE / 2 / 8))) with 256. exact Hi.
    + intros b [_ E]%lookup_singleton_Some. done.
Qed.
End Tree.

(** ** The kernel's own table *)

(** The translation by the processor of the 48-bit part of an address. *)
Definition translate (m : gmap Z Z) (pgd v : Z) : option Z :=
  let present e := if Z.testbit e 0 then Some (table_of e) else None in
  let v := v mod 2 ^ 48 in
  t3 ← present (entry m pgd (v / 2 ^ 39));
  t2 ← present (entry m t3 (v mod 2 ^ 39 / 2 ^ 30));
  t1 ← present (entry m t2 (v mod 2 ^ 30 / 2 ^ 21));
  f ← present (entry m t1 (v mod 2 ^ 21 / 2 ^ 12));
  Some (to_phy f + v mod PAGE_SIZE).

Lemma upper_div_512 n : 0 <= n -> n <= upper_div n PRE_PAGE_ENTRY * 512 < n + 512.
Proof. intros. apply (upper_div_spec n 512); lia. Qed.

Lemma fill_table m base addr nr :
  0 <= nr ->
  let m' := fill_pt m base addr nr in
  (forall k, 0 <= k < nr -> entry m' base k = Z.lor (to_phy (addr + PAGE_SIZE * k)) 7) /\
  (forall a, a < base \/ base + upper_div nr PRE_PAGE_ENTRY * PAGE_SIZE <= a -> rd m' a = rd m a).
Proof.
  intros Hnr m'. pose proof (upper_div_512 nr Hnr) as Hu. unfold m', fill_pt, fill_loop, clear_words. split.
  - intros k Hk. apply (fill_in (fun i => Z.lor (to_phy (addr + PAGE_SIZE * i)) PTE_ATTR)). lia.
  - intros a Ha. unfold PAGE_SIZE in Ha. rewrite (fill_out (fun i => Z.lor (to_phy (addr + PAGE_SIZE * i)) PTE_ATTR)) by lia.
    apply (fill_out (fun _ => 0)). intros k Hk.
    replace (upper_div nr PRE_PAGE_ENTRY * PAGE_SIZE / 8) with (upper_div nr PRE_PAGE_ENTRY * 512) in Hk; [lia|].
    unfold PAGE_SIZE. replace (upper_div nr PRE_PAGE_ENTRY * 0x1000) with (upper_div nr PRE_PAGE_ENTRY * 512 * 8) by lia.
    by rewrite Z.div_mul by lia.
Qed.

Lemma fill_root m base addr nr :
  0 <= nr <= 256 ->
  let m' := fill_pml4 m base addr nr in
  (forall k, 0 <= k < nr -> entry m' base k = Z.lor (to_phy (addr + PAGE_SIZE * k)) 7 /\
     entry m' base (k + 256) = Z.lor (to_phy (addr + PAGE_SIZE * k)) 7) /\
  (forall a, a < base \/ base + PAGE_SIZE <= a -> rd m' a = rd m a).
Proof.
  intros Hnr m'. unfold m', fill_pml4. rewrite <- (Z2Nat.id nr) by lia.
  assert (Hn : (Z.to_nat nr <= 256)%nat) by lia. revert Hn. generalize (Z.to_nat nr). clear Hnr m' nr.
  intros n. induction n as [|n IH]; intros Hn.
  - split; [lia|]. intros a Ha. apply (fill_out (fun _ => 0)). intros k Hk. unfold PAGE_SIZE in *.
    change (Z.of_nat (Z.to_nat (0x1000 / 8))) with 512 in Hk. lia.
  - destruct (IH ltac:(lia)) as [IHin IHout]. rewrite seqZ_S, foldl_snoc. cbn zeta. split.
    + intros k Hk. rewrite !entry_set. destruct (decide (k = Z.of_nat n)) as [->|].
      * split; [|by rewrite decide_True by lia]. rewrite decide_False by lia. by rewrite decide_True by lia.
      * rewrite !decide_False by lia. apply IHin. lia.
    + intros a Ha. unfold rd, set_entry in *. unfold PAGE_SIZE in Ha. rewrite !lookup_insert_ne by lia. apply IHout.
      unfold PAGE_SIZE. lia.
Qed.

(** The memory that the tables of [layout_of] describe. *)
Definition linear_map (m : gmap Z Z) (l : table_layout) : Prop :=
  (forall k, 0 <= k < nr_pml4e l -> entry m (base_pml4 l) k = Z.lor (to_phy (base_pdpt l + PAGE_SIZE * k)) 7 /\
     entry m (base_pml4 l) (k + 256) = Z.lor (to_phy (base_pdpt l + PAGE_SIZE * k)) 7) /\
  (forall k, 0 <= k < nr_pdpte l -> entry m (base_pdpt l) k = Z.lor (to_phy (base_pd l + PAGE_SIZE * k)) 7) /\
  (forall k, 0 <= k < nr_pde l -> entry m (base_pd l) k = Z.lor (to_phy (base_pt l + PAGE_SIZE * k)) 7) /\
  (forall k, 0 <= k < nr_pte l -> entry m (base_pt l) k = Z.lor (to_phy (KERNEL_OFFSET + PAGE_SIZE * k)) 7).

Lemma upper_div_bounds n c : 0 < n <= 512 * c -> 1 <= upper_div n PRE_PAGE_ENTRY <= c.
Proof. intros Hn. pose proof (upper_div_512 n ltac:(lia)). lia. Qed.

Lemma setup_fills m start memsize :
  PAGE_SIZE <= memsize <= 2 ^ 47 ->
  let l := layout_of start memsize in
  let '(m', cr3, last) := setup_page_table m start memsize in
  linear_map m' l /\ cr3 = to_phy start /\ last = table_end l /\
  forall a, a < start \/ table_end l <= a -> rd m' a = rd m a.
Proof.
  intros Hms l. unfold setup_page_table. fold l.
  assert (H1 : 0 < nr_pte l <= 2 ^ 35).
  { unfold l, layout_of. cbn [nr_pte]. unfold PAGE_SIZE in *. split; [apply Z.div_str_pos; lia|].
    apply Z.div_le_upper_bound; lia. }
  assert (H2 : 1 <= nr_pde l <= 2 ^ 26) by (apply (upper_div_bounds (nr_pte l)); lia).
  assert (H3 : 1 <= nr_pdpte l <= 2 ^ 17) by (apply (upper_div_bounds (nr_pde l)); lia).
  assert (H4 : 1 <= nr_pml4e l <= 256) by (apply (upper_div_bounds (nr_pdpte l)); lia).
  assert (B1 : base_pdpt l = base_pml4 l + 4096).
  { change (base_pdpt l) with (base_pml4 l + upper_div (nr_pml4e l) PRE_PAGE_ENTRY * PAGE_SIZE).
    pose proof (upper_div_bounds (nr_pml4e l) 1 ltac:(lia)). unfold PAGE_SIZE. lia. }
  assert (B2 : base_pd l = base_pdpt l + upper_div (nr_pdpte l) PRE_PAGE_ENTRY * PAGE_SIZE) by done.
  assert (B3 : base_pt l = base_pd l + upper_div (nr_pde l) PRE_PAGE_ENTRY * PAGE_SIZE) by done.
  assert (B4 : table_end l = base_pt l + upper_div (nr_pte l) PRE_PAGE_ENTRY * PAGE_SIZE) by done.
  pose proof (upper_div_512 (nr_pdpte l) ltac:(lia)) as U2. pose proof (upper_div_512 (nr_pde l) ltac:(lia)) as U3.
  pose proof (upper_div_512 (nr_pte l) ltac:(lia)) as U4.
  destruct (fill_root m (base_pml4 l) (base_pdpt l) (nr_pml4e l) ltac:(lia)) as [F1 O1].
  set (m1 := fill_pml4 _ _ _ _) in *.
  destruct (fill_table m1 (base_pdpt l) (base_pd l) (nr_pdpte l) ltac:(lia)) as [F2 O2].
  change (fill_pt m1) with (fill_pdpt m1) in F2, O2. set (m2 := fill_pdpt _ _ _ _) in *.
  destruct (fill_table m2 (base_pd l) (base_pt l) (nr_pde l) ltac:(lia)) as [F3 O3].
  change (fill_pt m2) with (fill_pd m2) in F3, O3. set (m3 := fill_pd _ _ _ _) in *.
  destruct (fill_table m3 (base_pt l) KERNEL_OFFSET (nr_pte l) ltac:(lia)) as [F4 O4].
  set (m4 := fill_pt _ _ _ _) in *. unfold PAGE_SIZE in B2, B3, B4, O1, O2, O3, O4.
  split; [|split; [done|split; [done|]]].
  - split; [|split; [|split; [|exact F4]]]; intros k Hk; unfold entry in *.
    + rewrite O4, O3, O2 by lia. rewrite (O4 (_ + 8 * (k + 256))), O3, O2 by lia. by apply F1.
    + rewrite O4, O3 by lia. by apply F2.
    + rewrite O4 by lia. by apply F3.
  - change start with (base_pml4 l). intros a Ha. rewrite O4, O3, O2, O1 by lia. done.
Qed.

Lemma entry_present b :
  KERNEL_OFFSET <= b -> b mod PAGE_SIZE = 0 -> b + PAGE_SIZE <= 2 ^ 64 ->
  (if Z.testbit (Z.lor (to_phy b) 7) 0 then Some (table_of (Z.lor (to_phy b) 7)) else None) = Some b.
Proof.
  intros Hlo Hal Hhi. rewrite Z.lor_spec. change (Z.testbit 7 0) with true. rewrite orb_true_r. f_equal.
  unfold PAGE_SIZE in *. rewrite to_phy_high by lia.
  assert (Ha : (b - KERNEL_OFFSET) mod 0x1000 = 0).
  { replace (b - KERNEL_OFFSET) with (b + (- 0xffff800000000) * 0x1000) by (unfold KERNEL_OFFSET; lia).
    by rewrite Z.mod_add by lia. }
  rewrite (lor_add _ _ 12) by (done || lia). unfold table_of, KERNEL_OFFSET in *.
  rewrite mask_entry by (done || lia). rewrite to_vir_low by lia. unfold KERNEL_OFFSET. lia.
Qed.

Lemma index_split x k : 0 <= k -> x / 2 ^ k = 512 * (x / 2 ^ (k + 9)) + x mod 2 ^ (k + 9) / 2 ^ k.
Proof.
  intros Hk. pose proof (pow2_pos k Hk). pose proof (pow2_pos (k + 9) ltac:(lia)).
  rewrite Z.pow_add_r in * by lia. change (2 ^ 9) with 512 in *.
  rewrite Z.rem_mul_r by lia. rewrite (Z.mul_comm (2 ^ k) ((x / 2 ^ k) mod 512)), Z.div_add by lia.
  rewrite (Z.div_small (x mod 2 ^ k)) by (apply Z.mod_pos_bound; lia).
  rewrite <- Z.div_div by lia. pose proof (Z.div_mod (x / 2 ^ k) 512 ltac:(lia)). lia.
Qed.

Lemma entry_shift m t j i : entry m (t + PAGE_SIZE * j) i = entry m t (512 * j + i).
Proof. unfold entry. f_equal. unfold PAGE_SIZE. lia. Qed.

Lemma div_lt_upper x k n : 0 <= k -> 0 <= x -> x / 2 ^ k < n -> x / 2 ^ (k + 9) < upper_div n PRE_PAGE_ENTRY.
Proof.
  intros Hk Hx Hn. pose proof (upper_div_512 n) as Hu. pose proof (Z.div_pos x (2 ^ k) Hx ltac:(apply pow2_pos; lia)).
  specialize (Hu ltac:(lia)). pose proof (pow2_pos k Hk). rewrite Z.pow_add_r by lia.
  rewrite <- Z.div_div by lia.
  change (2 ^ 9) with 512. apply Z.div_lt_upper_bound; lia.
Qed.

(** From the root entry on, the tables of [linear_map] lead [x] to itself. *)
Lemma linear_walk m start memsize x root_ind v :
  let l := layout_of start memsize in
  linear_map m l -> KERNEL_OFFSET <= start -> start mod PAGE_SIZE = 0 -> table_end l <= 2 ^ 64 ->
  0 <= x < nr_pte l * PAGE_SIZE -> nr_pte l <= 2 ^ 35 ->
  0 <= v < 2 ^ 48 -> v / 2 ^ 39 = root_ind -> v mod 2 ^ 39 = x mod 2 ^ 39 ->
  (root_ind = x / 2 ^ 39 \/ root_ind = x / 2 ^ 39 + 256) -> translate m start v = Some x.
Proof.
  intros l (L4 & L3 & L2 & L1) Hst Hal Hend Hx Hn Hv Hri Hvx Hroot.
  assert (J1 : 0 <= x / 2 ^ 12 < nr_pte l) by (unfold PAGE_SIZE in *; split; [apply Z.div_pos|apply Z.div_lt_upper_bound]; lia).
  assert (J2 : 0 <= x / 2 ^ 21 < nr_pde l) by (split; [apply Z.div_pos; lia|apply (div_lt_upper x 12 (nr_pte l)); lia]).
  assert (J3 : 0 <= x / 2 ^ 30 < nr_pdpte l) by (split; [apply Z.div_pos; lia|apply (div_lt_upper x 21 (nr_pde l)); lia]).
  assert (J4 : 0 <= x / 2 ^ 39 < nr_pml4e l) by (split; [apply Z.div_pos; lia|apply (div_lt_upper x 30 (nr_pdpte l)); lia]).
  assert (Hm : forall k, 0 <= k <= 39 -> v mod 2 ^ k = x mod 2 ^ k).
  { intros k Hk. rewrite <- (mod_pow2_mod v k 39), <- (mod_pow2_mod x k 39) by lia. by rewrite Hvx. }
  pose proof (upper_div_512 (nr_pdpte l) ltac:(lia)) as U3. pose proof (upper_div_512 (nr_pde l) ltac:(lia)) as U2.
  pose proof (upper_div_512 (nr_pte l) ltac:(lia)) as U1. pose proof (upper_div_512 (nr_pml4e l) ltac:(lia)) as U4.
  assert (B1 : base_pdpt l = start + upper_div (nr_pml4e l) PRE_PAGE_ENTRY * PAGE_SIZE) by done.
  assert (B2 : base_pd l = base_pdpt l + upper_div (nr_pdpte l) PRE_PAGE_ENTRY * PAGE_SIZE) by done.
  assert (B3 : base_pt l = base_pd l + upper_div (nr_pde l) PRE_PAGE_ENTRY * PAGE_SIZE) by done.
  assert (B4 : table_end l = base_pt l + upper_div (nr_pte l) PRE_PAGE_ENTRY * PAGE_SIZE) by done.
  assert (U4' : nr_pml4e l = upper_div (nr_pdpte l) PRE_PAGE_ENTRY) by done.
  assert (U3' : nr_pdpte l = upper_div (nr_pde l) PRE_PAGE_ENTRY) by done.
  assert (U2' : nr_pde l = upper_div (nr_pte l) PRE_PAGE_ENTRY) by done.
  assert (A1 : base_pdpt l mod PAGE_SIZE = 0) by (rewrite B1, Z.mod_add by done; done).
  assert (A2 : base_pd l mod PAGE_SIZE = 0) by (rewrite B2, Z.mod_add by done; done).
  assert (A3 : base_pt l mod PAGE_SIZE = 0) by (rewrite B3, Z.mod_add by done; done).
  assert (Hpage : forall b k, b mod PAGE_SIZE = 0 -> (b + PAGE_SIZE * k) mod PAGE_SIZE = 0).
  { intros b k Hb. by rewrite Z.mul_comm, Z.mod_add by done. }
  unfold PAGE_SIZE in Hx, B1, B2, B3, B4.
  unfold translate. rewrite (Z.mod_small v (2 ^ 48)) by lia. rewrite Hri, !Hm by lia.
  assert (E4 : entry m start root_ind = Z.lor (to_phy (base_pdpt l + PAGE_SIZE * (x / 2 ^ 39))) 7).
  { destruct Hroot as [->| ->]; by apply L4. }
  rewrite E4, entry_present; [|unfold PAGE_SIZE; lia|by apply Hpage|unfold PAGE_SIZE; lia]. some_bind.
  rewrite entry_shift, <- (index_split x 30 ltac:(lia) : x / 2 ^ 30 = 512 * (x / 2 ^ 39) + x mod 2 ^ 39 / 2 ^ 30), L3 by lia.
  rewrite entry_present; [|unfold PAGE_SIZE; lia|by apply Hpage|unfold PAGE_SIZE; lia]. some_bind.
  rewrite entry_shift, <- (index_split x 21 ltac:(lia) : x / 2 ^ 21 = 512 * (x / 2 ^ 30) + x mod 2 ^ 30 / 2 ^ 21), L2 by lia.
  rewrite entry_present; [|unfold PAGE_SIZE; lia|by apply Hpage|unfold PAGE_SIZE; lia]. some_bind.
  rewrite entry_shift, <- (index_split x 12 ltac:(lia) : x / 2 ^ 12 = 512 * (x / 2 ^ 21) + x mod 2 ^ 21 / 2 ^ 12), L1 by lia.
  rewrite entry_present; [|unfold PAGE_SIZE; lia|by apply Hpage|unfold PAGE_SIZE, KERNEL_OFFSET; lia]. some_bind.
  f_equal. change PAGE_SIZE with (2 ^ 12). rewrite Hm by lia. rewrite to_phy_high by (unfold KERNEL_OFFSET; lia).
  pose proof (Z.div_mod x (2 ^ 12) ltac:(lia)). lia.
Qed.

Lemma setup_linear m start memsize :
  PAGE_SIZE <= memsize <= 2 ^ 47 -> KERNEL_OFFSET <= start -> start mod PAGE_SIZE = 0 ->
  table_end (layout_of start memsize) <= 2 ^ 64 ->
  let '(m', cr3, last) := setup_page_table m start memsize in
  cr3 = to_phy start /\ last = table_end (layout_of start memsize) /\
  (forall a, a < start \/ last <= a -> rd m' a = rd m a) /\
  forall x, 0 <= x < memsize / PAGE_SIZE * PAGE_SIZE ->
    translate m' start x = Some x /\ translate m' start (to_vir x) = Some x.
Proof.
  intros Hms Hst Hal Hend. pose proof (setup_fills m start memsize Hms) as Hf. cbv zeta in Hf.
  destruct (setup_page_table m start memsize) as [[m' cr3] last]. destruct Hf as (HL & -> & -> & Hout).
  split; [done|]. split; [done|]. split; [done|]. intros x Hx.
  assert (Hn : 0 <= memsize / PAGE_SIZE <= 2 ^ 35).
  { unfold PAGE_SIZE in *. split; [apply Z.div_pos; lia|apply Z.div_le_upper_bound; lia]. }
  assert (Hx47 : 0 <= x < 2 ^ 47) by (unfold PAGE_SIZE in *; lia).
  split.
  - apply (linear_walk m' start memsize x (x / 2 ^ 39) x); [exact HL|done|done|done|exact Hx|apply Hn|lia|done|done|by left].
  - unfold translate. rewrite to_vir_low by done.
    assert (Hv : (x + KERNEL_OFFSET) mod 2 ^ 48 = 2 ^ 47 + x).
    { replace (x + KERNEL_OFFSET) with (2 ^ 47 + x + 0xffff * 2 ^ 48) by (unfold KERNEL_OFFSET; lia).
      rewrite Z.mod_add by lia. apply Z.mod_small. lia. }
    assert (Hw : translate m' start (2 ^ 47 + x) = Some x).
    { apply (linear_walk m' start memsize x (x / 2 ^ 39 + 256) (2 ^ 47 + x)); [exact HL|done|done|done|exact Hx|apply Hn|lia| | |by right].
      - replace (2 ^ 47 + x) with (x + 256 * 2 ^ 39) by lia. by rewrite Z.div_add by lia.
      - replace (2 ^ 47 + x) with (x + 256 * 2 ^ 39) by lia. by rewrite Z.mod_add by lia. }
    rewrite Hv. unfold translate in Hw. rewrite (Z.mod_small (2 ^ 47 + x) (2 ^ 48)) in Hw by lia. exact Hw.
Qed.

(** ** The properties *)

(** [map_page] of a user address keeps the tree of tables, makes [kmap]
    translate every address of that page to the frame it returns, which is the
    frame of the page if it was mapped and else a new zeroed page, leaves every
    other mapping and the contents of all other allocated pages as they were, and a
    second call returns the same frame. *)
Theorem map_page_correct {P : Type} `{!PageAllocator P} (st : pt_state P) own pgd role u :
  pt_inv st own pgd role -> 0 <= u < 2 ^ 47 -> enough 4 (pt_pages st) ->
  exists page st' own' role', map_page st pgd u = Some (page, st') /\
    map_post st st' own own' pgd role role' u page /\
    (forall v, 0 <= v < 2 ^ 47 -> path_of v = path_of u -> kmap (pt_mem st') pgd v = page + v mod PAGE_SIZE) /\
    (forall v f, 0 <= v < 2 ^ 47 -> role !! f = Some (path_of v) ->
       kmap (pt_mem st') pgd v = kmap (pt_mem st) pgd v) /\
    map_page st' pgd u = Some (page, st').
Proof.
  intros H Hu Hen. destruct (map_page_new 0 st own pgd role u H Hu Hen) as (page & st' & own' & role' & Hrun & Hpost & _).
  exists page, st', own', role'. split; [done|]. split; [done|]. destruct Hpost as (H' & _ & Hiff & _).
  assert (Hp : role' !! page = Some (path_of u)) by (apply Hiff; by right).
  split; [|split].
  - intros v Hv E. apply (kmap_walk _ _ _ _ _ _ H' Hv). by rewrite E.
  - intros v f Hv Hf. rewrite (kmap_walk _ _ _ _ _ _ H Hv Hf). apply (kmap_walk _ _ _ _ _ _ H' Hv).
    apply Hiff. by left.
  - by apply (map_page_old _ own' _ role').
Qed.

(** [free_proc_mm] terminates and gives every frame and every table below
    the root back to the page allocator exactly once, nothing else, and leaves an
    empty user half. *)
Theorem free_proc_mm_correct {P : Type} `{!PageAllocator P} (st : pt_state P) own pgd role :
  pt_inv st own pgd role ->
  exists st' own', free_proc_mm st pgd = Some st' /\ pt_inv st' own' pgd {[pgd := []]} /\
    forall a, own' !! a = if decide (a <> pgd /\ is_Some (role !! a)) then None else own !! a.
Proof. apply free_proc_mm_ok. Qed.

(** [setup_page_table] builds, between the start of the tables and the end
    it returns, a table that maps every whole page of the given size both at its
    physical address and at its kernel address, and writes nothing else. *)
Theorem setup_page_table_correct m start memsize :
  PAGE_SIZE <= memsize <= 2 ^ 47 -> KERNEL_OFFSET <= start -> start mod PAGE_SIZE = 0 ->
  table_end (layout_of start memsize) <= 2 ^ 64 ->
  let '(m', cr3, last) := setup_page_table m start memsize in
  cr3 = to_phy start /\ last = table_end (layout_of start memsize) /\
  (forall a, a < start \/ last <= a -> rd m' a = rd m a) /\
  forall x, 0 <= x < memsize / PAGE_SIZE * PAGE_SIZE ->
    translate m' start x = Some x /\ translate m' start (to_vir x) = Some x.
Proof. apply setup_linear. Qed.

(** ** Witnesses: a root table on the eight pages of [Buddy] *)

#[local] Instance pt_pages8 : PageAllocator mm_state := buddy_allocator 8.

Definition root8 : Z := KERNEL_OFFSET + PAGE_SIZE.
Definition space8 : pt_state mm_state :=
  mk_pt (default ready8 (snd <$> __get_free_pages ready8 GFP_KERNEL 0)) ∅.

Lemma space8_inv : pt_inv space8 {[root8 := 0]} root8 {[root8 := []]}.
Proof.
  destruct (pa_alloc_ok ready8 ∅ 0) as (a & s' & Hrun & _ & Hr); [|unfold MAX_ORDER; lia|].
  { exists ∅. split; [exact mm_wf_ready8|]. intros a o. rewrite lookup_empty. split; [done|].
    intros (p & _ & Hp). by rewrite lookup_empty in Hp. }
  assert (E : fst <$> __get_free_pages ready8 GFP_KERNEL 0 = Some root8) by (vm_compute; reflexivity).
  cbn [pa_alloc pt_pages8 buddy_allocator] in Hrun. rewrite Hrun in E. injection E as ->.
  destruct Hr as [[Hz _]|(_ & _ & _ & Hp)]; [discriminate Hz|].
  split; unfold space8; cbn [pt_pages pt_mem]; [by rewrite Hrun|apply lookup_insert_eq|..].
  - intros a q [<- <-]%lookup_singleton_Some. split; [apply lookup_insert_eq|cbn; lia].
  - intros a b q [<- _]%lookup_singleton_Some [<- _]%lookup_singleton_Some. done.
  - intros b q i [_ E]%lookup_singleton_Some. by destruct q.
  - intros a q i [<- <-]%lookup_singleton_Some _ Hi. left. split.
    + unfold entry, rd. by rewrite lookup_empty.
    + intros b [_ E]%lookup_singleton_Some. done.
Qed.

Lemma space8_enough : enough 4 (pt_pages space8).
Proof. repeat (eexists _, _; split; [vm_compute; reflexivity|split; [discriminate|]]). exact I. Qed.

Lemma map_page_correct_witness :
  exists page st', map_page space8 root8 0x40001000 = Some (page, st') /\
    kmap (pt_mem st') root8 0x40001234 = page + 0x234.
Proof.
  destruct (map_page_correct space8 {[root8 := 0]} root8 {[root8 := []]} 0x40001000 space8_inv ltac:(lia) space8_enough)
    as (page & st' & own' & role' & Hrun & _ & Hk & _).
  exists page, st'. split; [exact Hrun|]. exact (Hk 0x40001234 ltac:(lia) eq_refl).
Defined.

Lemma free_proc_mm_correct_witness :
  exists page st1 st', map_page space8 root8 0x40001000 = Some (page, st1) /\ free_proc_mm st1 root8 = Some st' /\
    exists own', pt_inv st' own' root8 {[root8 := []]} /\ own' !! page = None.
Proof.
  destruct (map_page_new 0 space8 {[root8 := 0]} root8 {[root8 := []]} 0x40001000 space8_inv ltac:(lia) space8_enough)
    as (page & st1 & own1 & role1 & Hrun & (Hinv & _ & Hiff & _) & _).
  destruct (free_proc_mm_correct st1 own1 root8 role1 Hinv) as (st' & own' & Hf & Hinv' & Hown).
  assert (Hp : role1 !! page = Some (path_of 0x40001000)) by (apply (proj2 (Hiff 0x40001000 page)); right; split; reflexivity).
  exists page, st1, st'. split; [exact Hrun|]. split; [exact Hf|]. exists own'. split; [exact Hinv'|].
  rewrite Hown, decide_True; [reflexivity|]. split; [|by eexists].
  intros ->. rewrite (pi_root _ _ _ _ Hinv) in Hp. discriminate Hp.
Defined.

Lemma setup_page_table_correct_witness :
  let '(m', _, _) := setup_page_table ∅ (KERNEL_OFFSET + 0x200000) 0x10000 in
  translate m' (KERNEL_OFFSET + 0x200000) (to_vir 0x5123) = Some 0x5123.
Proof.
  pose proof (setup_page_table_correct ∅ (KERNEL_OFFSET + 0x200000) 0x10000) as H.
  revert H. generalize (setup_page_table ∅ (KERNEL_OFFSET + 0x200000) 0x10000). intros [[m' cr3] last] H.
  apply H; [unfold PAGE_SIZE; lia|lia|reflexivity|vm_compute; discriminate|].
  change (0x10000 / PAGE_SIZE * PAGE_SIZE) with 0x10000. lia.
Defined.
