(* ===== verification/Memory.v ===== *)
(** * Memory initialisation: [mm/memory.c]

    [mm_init] takes the memory map of the boot loader ([kinfo], filled by
    [core/multiboot.c]), builds the kernel's page table, the [mem_map] array with
    the pages that must not be used marked, the buddy system and the caches of
    [kmalloc].  The messages of [printk] are left out. *)

From S2P Require Import Prelude Slab Kmalloc PageTable PageIface Buddy.

(** ** [include/kernel/kernel.h], [include/kernel/multiboot.h] *)

Definition MULTIBOOT_MEMORY_AVAILABLE : Z := 1.

Record multiboot_memory_map_t := mk_mmap { mmap_addr : Z; mmap_len : Z; mmap_type : Z }.

Record multiboot_module := mk_module { mod_start : Z; mod_end : Z; cmdline : list Z }.

Record module_mmap_t := mk_module_mmap { module_addr : Z; module_len : Z }.

(** The arrays of the C structure with their counts are the lists of the
    entries in use. *)
Record kinfo_t := mk_kinfo {
  mmap : list multiboot_memory_map_t;
  module : list multiboot_module;
  module_mmap : list module_mmap_t;
  kernel_end : Z;
  global_pgd_start : Z;
  global_pgd_end : Z;
  mem_map_start : Z;
  mem_map_end : Z;
  mmio_start : Z;
  mmio_end : Z;
  bootdev : Z;
  bootpart : Z;
  subpart : Z }.

(** ** The array of pages *)

(** [sizeof(struct page)] *)
Definition sizeof_page : Z := 48.

(** Page [i] of [init_pages]; the [slab] field keeps what the memory held. *)
Definition new_page (junk : Z -> Z) (i : Z) : page := mk_page 0 0 (junk i) (to_vir (i * PAGE_SIZE)).

(** [flags |= f] for the page [i]; [None] outside the array. *)
Definition or_flags (f : Z) (mm : list page) (i : Z) : option (list page) :=
  pg ← mm !! Z.to_nat i;
  Some (<[Z.to_nat i := mk_page (Z.lor (flags pg) f) (_count pg) (slab pg) (virtual pg)]> mm).

(** The result: the array, its number of pages and its end. *)
Definition init_pages (junk : Z -> Z) (mem_size mem_map_addr : Z) : option (list page * Z * Z) :=
  let num := u32 (mem_size / PAGE_SIZE) in
  mm ← or_flags PF_RESERVE (new_page junk <$> seqZ 0 num) 0;
  Some (mm, num, u64 (mem_map_addr + sizeof_page * num)).

(** [while (begin <= end) { begin->flags |= flags; begin++; }] *)
Definition setup_pages_flags (begin end_ f : Z) (mm : list page) : option (list page) :=
  foldl (fun o i => mm ← o; or_flags f mm i) (Some mm) (seqZ begin (end_ - begin + 1)).

(** The pages of [\[begin, end\]] that exist, as two of the three uses clip them. *)
Definition clip_flags (nr_page begin end_ : Z) (mm : list page) : option (list page) :=
  if nr_page <=? begin then Some mm
  else setup_pages_flags begin (if nr_page <=? end_ then nr_page - 1 else end_) PF_RESERVE mm.

Definition region_begin (r : multiboot_memory_map_t) : Z := u32 (mmap_addr r / PAGE_SIZE).
Definition region_end (r : multiboot_memory_map_t) : Z := u32 (u64 (mmap_addr r + mmap_len r) / PAGE_SIZE).

Definition reserve_region (nr_page : Z) (mm : list page) (r : multiboot_memory_map_t) : option (list page) :=
  if mmap_type r =? MULTIBOOT_MEMORY_AVAILABLE then Some mm
  else clip_flags nr_page (region_begin r) (region_end r) mm.

Definition setup_pages_reserved (k : kinfo_t) (nr_page : Z) (mm : list page) : option (list page) :=
  mm ← foldl (fun o r => mm ← o; reserve_region nr_page mm r) (Some mm) (mmap k);
  mm ← clip_flags nr_page (u32 (mmio_start k / PAGE_SIZE)) (u32 (mmio_end k / PAGE_SIZE)) mm;
  setup_pages_flags 0 (u32 (to_phy (mem_map_end k) / PAGE_SIZE)) PF_RESERVE mm.

(** ** [mm_init] *)

(** The end of the highest available region. *)
Definition memory_size (l : list multiboot_memory_map_t) : Z :=
  foldl (fun memsize r =>
    if negb (mmap_type r =? MULTIBOOT_MEMORY_AVAILABLE) then memsize
    else if memsize <? u64 (mmap_addr r + mmap_len r) then u64 (mmap_addr r + mmap_len r) else memsize) 0 l.

(** The end of the kernel and of the boot modules. *)
Definition modules_end (start : Z) (l : list multiboot_module) : Z :=
  foldl (fun pgd r => if pgd <? mod_end r then mod_end r else pgd) start l.

(** The fields that [mm_init] fills before the array of pages exists. *)
Definition layout_kinfo (k : kinfo_t) (pgd_start pgd_end map_start map_end : Z) : kinfo_t :=
  mk_kinfo (mmap k) (module k) (module_mmap k) (kernel_end k) pgd_start pgd_end map_start map_end
    0xc0000000 0xffffffff (bootdev k) (bootpart k) (subpart k).

Record machine := mk_machine {
  m_kinfo : kinfo_t;
  m_words : gmap Z Z;
  m_cr3 : Z;
  m_nr : Z;
  m_kmalloc : list Z;
  m_slab : slab_state mm_state }.

(** The first half of [mm_init], up to [buddy_system_init].  [words] is the memory
    that holds the tables, [junk] the old contents of the [slab] fields. *)
Definition mm_pages (k : kinfo_t) (words : gmap Z Z) (junk : Z -> Z) : option (kinfo_t * gmap Z Z * Z * Z * mm_state) :=
  let memsize := memory_size (mmap k) in
  let pgd_start := modules_end (to_phy (kernel_end k)) (module k) in
  let page_table_size := if 0xffffffff <? memsize then memsize else 0xffffffff in
  let pgd_start := PAGE_UPPER_ALIGN (to_vir pgd_start) in
  let '(words, cr3, pgd_end) := setup_page_table words pgd_start page_table_size in
  let map_start := PAGE_UPPER_ALIGN pgd_end in
  r ← init_pages junk memsize map_start;
  let '(mm, nr, map_end) := r in
  let k := layout_kinfo k pgd_start pgd_end map_start map_end in
  mm ← setup_pages_reserved k nr mm;
  s ← buddy_system_init (mk_mm mm (mk_buddy [] [] 0)) nr;
  Some (k, words, cr3, nr, s).

Definition mm_init (k : kinfo_t) (words : gmap Z Z) (junk : Z -> Z) : option machine :=
  r ← mm_pages k words junk;
  let '(k, words, cr3, nr, s) := r in
  q ← @kmalloc_cache_init mm_state (buddy_allocator nr) (mk_slab_state s ∅ ∅);
  Some (mk_machine k words cr3 nr q.1 q.2).

(** ** Marked pages *)

Definition marked (mm : list page) (p : Z) : bool :=
  match mm !! Z.to_nat p with Some pg => negb (Z.land (flags pg) PF_RESERVE =? 0) | None => false end.

(** The shape that every step keeps. *)
Definition pages_of (mm : list page) (nr : Z) : Prop :=
  length mm = Z.to_nat nr /\
  forall p, 0 <= p < nr -> exists pg, mm !! Z.to_nat p = Some pg /\ virtual pg = to_vir (p * PAGE_SIZE).

Lemma land_lor_reserve f : negb (Z.land (Z.lor f PF_RESERVE) PF_RESERVE =? 0) = true.
Proof.
  rewrite Z.land_comm, Z.land_lor_distr_r, Z.land_diag. apply negb_true_iff, Z.eqb_neq. intros H.
  assert (Hb : Z.testbit (Z.lor (Z.land PF_RESERVE f) PF_RESERVE) 0 = false) by by rewrite H.
  rewrite Z.lor_spec in Hb. change (Z.testbit PF_RESERVE 0) with true in Hb. by rewrite orb_true_r in Hb.
Qed.

Lemma or_flags_ok mm nr i :
  pages_of mm nr -> 0 <= i < nr ->
  exists mm', or_flags PF_RESERVE mm i = Some mm' /\ pages_of mm' nr /\
    forall p, 0 <= p -> marked mm' p = marked mm p || (p =? i).
Proof.
  intros [Hl Hp] Hi. unfold or_flags. destruct (Hp i Hi) as (pg & Hpg & Hv). rewrite Hpg. some_bind.
  eexists. split; [done|]. split; [split|].
  - by rewrite length_insert.
  - intros p Hr. destruct (decide (p = i)) as [->|Hne].
    + eexists. rewrite list_lookup_insert_eq by lia. split; [done|]. done.
    + rewrite list_lookup_insert_ne by lia. by apply Hp.
  - intros p H0. unfold marked. destruct (p =? i) eqn:E; zbool.
    + subst. rewrite list_lookup_insert_eq by lia. cbn [flags]. by rewrite land_lor_reserve, orb_true_r.
    + rewrite list_lookup_insert_ne by lia. by rewrite orb_false_r.
Qed.

Lemma setup_pages_flags_ok mm nr b e :
  pages_of mm nr -> 0 <= b -> e < nr ->
  exists mm', setup_pages_flags b e PF_RESERVE mm = Some mm' /\ pages_of mm' nr /\
    forall p, 0 <= p -> marked mm' p = marked mm p || ((b <=? p) && (p <=? e)).
Proof.
  intros Hp Hb He. unfold setup_pages_flags.
  assert (Hgen : forall n : nat, Z.of_nat n <= nr - b \/ n = 0%nat ->
    exists mm', foldl (fun o i => mm ← o; or_flags PF_RESERVE mm i) (Some mm) (seqZ b (Z.of_nat n)) = Some mm' /\
      pages_of mm' nr /\ forall p, 0 <= p -> marked mm' p = marked mm p || ((b <=? p) && (p <? b + Z.of_nat n))).
  { induction n as [|n IH]; intros Hn.
    - exists mm. split; [done|]. split; [done|]. intros p _.
      rewrite (proj2 (andb_false_iff _ _)), orb_false_r; [done|]. rewrite Z.leb_gt, Z.ltb_ge. lia.
    - destruct IH as (m1 & E & Hp1 & Hm1); [lia|]. rewrite seqZ_S, foldl_snoc, E. some_bind.
      destruct (or_flags_ok m1 nr (b + Z.of_nat n) Hp1) as (m2 & -> & Hp2 & Hm2); [lia|].
      exists m2. split; [done|]. split; [done|]. intros p H0. rewrite Hm2, Hm1, <- orb_assoc by done. f_equal.
      apply eq_bool_prop_intro. rewrite !Is_true_true, orb_true_iff, !andb_true_iff, !Z.leb_le, !Z.ltb_lt, Z.eqb_eq. lia. }
  destruct (Z_lt_le_dec e b) as [Hlt|Hge].
  - destruct (Hgen 0%nat ltac:(lia)) as (m' & E & Hp' & Hm').
    replace (seqZ b (e - b + 1)) with (seqZ b (Z.of_nat 0)) by (rewrite !seqZ_nil by lia; done).
    exists m'. split; [done|]. split; [done|]. intros p H0. rewrite Hm' by done. f_equal.
    apply eq_bool_prop_intro. rewrite !Is_true_true, !andb_true_iff, !Z.leb_le, !Z.ltb_lt. lia.
  - destruct (Hgen (Z.to_nat (e - b + 1)) ltac:(lia)) as (m' & E & Hp' & Hm'). rewrite Z2Nat.id in * by lia.
    exists m'. split; [done|]. split; [done|]. intros p H0. rewrite Hm' by done. f_equal.
    apply eq_bool_prop_intro. rewrite !Is_true_true, !andb_true_iff, !Z.leb_le, !Z.ltb_lt. lia.
Qed.

Lemma clip_flags_ok mm nr b e :
  pages_of mm nr -> 0 <= b ->
  exists mm', clip_flags nr b e mm = Some mm' /\ pages_of mm' nr /\
    forall p, 0 <= p < nr -> marked mm' p = marked mm p || ((b <=? p) && (p <=? e)).
Proof.
  intros Hp Hb. unfold clip_flags. destruct (nr <=? b) eqn:E; zbool.
  - exists mm. split; [done|]. split; [done|]. intros p Hr.
    rewrite (proj2 (Z.leb_gt b p)) by lia. by rewrite orb_false_r.
  - destruct (setup_pages_flags_ok mm nr b (if nr <=? e then nr - 1 else e) Hp Hb) as (m' & E' & Hp' & Hm').
    { case_if; lia. }
    exists m'. split; [done|]. split; [done|]. intros p Hr. rewrite Hm' by lia. f_equal. f_equal.
    case_if; [|done]. apply eq_bool_prop_intro. rewrite !Is_true_true, !Z.leb_le. lia.
Qed.

(** ** The reserved pages *)

Lemma init_pages_ok junk memsize addr :
  PAGE_SIZE <= memsize < 2 ^ 44 ->
  exists mm, init_pages junk memsize addr = Some (mm, memsize / PAGE_SIZE, u64 (addr + sizeof_page * (memsize / PAGE_SIZE))) /\
    pages_of mm (memsize / PAGE_SIZE) /\ forall p, 0 <= p -> marked mm p = (p =? 0).
Proof.
  intros Hms. unfold init_pages, PAGE_SIZE in *.
  assert (Hn : 1 <= memsize / 0x1000 < 2 ^ 32).
  { split; [apply Z.div_le_lower_bound; lia|apply Z.div_lt_upper_bound; lia]. }
  rewrite u32_small by lia. set (n := memsize / 0x1000) in *.
  assert (Hp : pages_of (new_page junk <$> seqZ 0 n) n).
  { split; [by rewrite length_fmap, length_seqZ|]. intros p Hp. eexists. rewrite list_lookup_fmap.
    rewrite (proj2 (lookup_seqZ 0 n (Z.to_nat p) p)) by lia. done. }
  destruct (or_flags_ok _ n 0 Hp ltac:(lia)) as (mm & -> & Hp' & Hm). some_bind. exists mm.
  split; [done|]. split; [done|]. intros p H0. rewrite Hm by done.
  assert (Hf : marked (new_page junk <$> seqZ 0 n) p = false).
  { unfold marked. rewrite list_lookup_fmap. by destruct (seqZ 0 n !! Z.to_nat p). }
  by rewrite Hf.
Qed.

(** A region that the loader does not call available touches the page [p]. *)
Definition hits (p : Z) (r : multiboot_memory_map_t) : bool :=
  negb (mmap_type r =? MULTIBOOT_MEMORY_AVAILABLE) && ((region_begin r <=? p) && (p <=? region_end r)).

Lemma reserve_regions_ok nr l mm :
  pages_of mm nr ->
  exists mm', foldl (fun o r => mm ← o; reserve_region nr mm r) (Some mm) l = Some mm' /\ pages_of mm' nr /\
    forall p, 0 <= p < nr -> marked mm' p = marked mm p || existsb (hits p) l.
Proof.
  revert mm. induction l as [|r l IH]; intros mm Hp; cbn [foldl existsb].
  { exists mm. split; [done|]. split; [done|]. intros p _. by rewrite orb_false_r. }
  some_bind. unfold reserve_region at 2, hits at 1. destruct (mmap_type r =? MULTIBOOT_MEMORY_AVAILABLE); cbn [negb andb orb].
  - by apply IH.
  - destruct (clip_flags_ok mm nr (region_begin r) (region_end r) Hp) as (m1 & -> & Hp1 & Hm1); [apply uwrap_range; lia|].
    destruct (IH m1 Hp1) as (m2 & E & Hp2 & Hm2). exists m2. split; [done|]. split; [done|].
    intros p Hr. by rewrite Hm2, Hm1, orb_assoc.
Qed.

(** The pages that [setup_pages_reserved] marks. *)
Definition must_reserve (k : kinfo_t) (p : Z) : bool :=
  existsb (hits p) (mmap k) ||
  ((u32 (mmio_start k / PAGE_SIZE) <=? p) && (p <=? u32 (mmio_end k / PAGE_SIZE))) ||
  (p <=? u32 (to_phy (mem_map_end k) / PAGE_SIZE)).

Lemma must_reserve_0 k : must_reserve k 0 = true.
Proof.
  unfold must_reserve. apply orb_true_iff. right. apply Z.leb_le. apply uwrap_range. lia.
Qed.

Lemma setup_pages_reserved_ok k nr mm :
  pages_of mm nr -> u32 (to_phy (mem_map_end k) / PAGE_SIZE) < nr ->
  exists mm', setup_pages_reserved k nr mm = Some mm' /\ pages_of mm' nr /\
    forall p, 0 <= p < nr -> marked mm' p = marked mm p || must_reserve k p.
Proof.
  intros Hp He. unfold setup_pages_reserved.
  destruct (reserve_regions_ok nr (mmap k) mm Hp) as (m1 & -> & Hp1 & Hm1). some_bind.
  destruct (clip_flags_ok m1 nr (u32 (mmio_start k / PAGE_SIZE)) (u32 (mmio_end k / PAGE_SIZE)) Hp1) as (m2 & -> & Hp2 & Hm2);
    [apply uwrap_range; lia|]. some_bind.
  destruct (setup_pages_flags_ok m2 nr 0 (u32 (to_phy (mem_map_end k) / PAGE_SIZE)) Hp2) as (m3 & -> & Hp3 & Hm3); [lia|done|].
  exists m3. split; [done|]. split; [done|]. intros p Hr. rewrite Hm3, Hm2, Hm1 by lia.
  unfold must_reserve. rewrite (proj2 (Z.leb_le 0 p)) by lia. cbn [andb]. by rewrite !orb_assoc.
Qed.

(** What the boot loader must provide: less than 16 TiB of memory, in which the
    kernel, its modules, the tables and [mem_map] fit. *)
Record boot_ok (k : kinfo_t) : Prop := {
  bo_size : PAGE_SIZE <= memory_size (mmap k) < 2 ^ 44;
  bo_end : 0 <= modules_end (to_phy (kernel_end k)) (module k) < 2 ^ 40;
  bo_regions : forall r, r ∈ mmap k -> 0 <= mmap_addr r /\ 0 <= mmap_len r /\ mmap_addr r + mmap_len r < 2 ^ 44 }.

Definition table_size (k : kinfo_t) : Z :=
  if 0xffffffff <? memory_size (mmap k) then memory_size (mmap k) else 0xffffffff.
Definition tables_start (k : kinfo_t) : Z :=
  PAGE_UPPER_ALIGN (to_vir (modules_end (to_phy (kernel_end k)) (module k))).
Definition tables_end (k : kinfo_t) : Z := table_end (layout_of (tables_start k) (table_size k)).
Definition map_end_of (k : kinfo_t) : Z :=
  u64 (PAGE_UPPER_ALIGN (tables_end k) + sizeof_page * (memory_size (mmap k) / PAGE_SIZE)).

Lemma page_upper_align v :
  0 <= v -> v + PAGE_SIZE <= 2 ^ 64 ->
  v <= PAGE_UPPER_ALIGN v < v + PAGE_SIZE /\ PAGE_UPPER_ALIGN v mod PAGE_SIZE = 0.
Proof.
  intros Hv Hb. unfold PAGE_UPPER_ALIGN. pose proof (upper_div_spec v PAGE_SIZE ltac:(done) Hv).
  rewrite u64_small by lia. split; [lia|]. by apply Z.mod_mul.
Qed.

Lemma tables_start_ok k :
  boot_ok k ->
  KERNEL_OFFSET <= tables_start k < KERNEL_OFFSET + 2 ^ 41 /\ tables_start k mod PAGE_SIZE = 0 /\
  modules_end (to_phy (kernel_end k)) (module k) <= to_phy (tables_start k).
Proof.
  intros [_ Hend _]. unfold tables_start. set (e := modules_end _ _) in *.
  rewrite to_vir_low by lia. destruct (page_upper_align (e + KERNEL_OFFSET)) as [H1 H2].
  - unfold KERNEL_OFFSET. lia.
  - unfold KERNEL_OFFSET, PAGE_SIZE. lia.
  - unfold PAGE_SIZE in *. rewrite to_phy_high by (unfold KERNEL_OFFSET in *; lia).
    split; [lia|]. split; [done|lia].
Qed.

Lemma table_size_ok k : boot_ok k -> PAGE_SIZE <= table_size k < 2 ^ 44 /\ memory_size (mmap k) <= table_size k.
Proof. intros [H _ _]. unfold table_size, PAGE_SIZE in *. case_if; lia. Qed.

Lemma tables_end_ok k : boot_ok k -> tables_start k < tables_end k <= tables_start k + 2 ^ 38.
Proof.
  intros Hk. destruct (table_size_ok k Hk) as [Hs _]. unfold tables_end, layout_of. cbn [table_end].
  set (n1 := table_size k / PAGE_SIZE).
  assert (H1 : 1 <= n1 <= 2 ^ 32).
  { unfold n1, PAGE_SIZE in *. split; [apply Z.div_le_lower_bound; lia|apply Z.div_le_upper_bound; lia]. }
  set (n2 := upper_div n1 PRE_PAGE_ENTRY). assert (H2 : 1 <= n2 <= 2 ^ 23) by (apply upper_div_bounds; lia).
  set (n3 := upper_div n2 PRE_PAGE_ENTRY). assert (H3 : 1 <= n3 <= 2 ^ 14) by (apply upper_div_bounds; lia).
  set (n4 := upper_div n3 PRE_PAGE_ENTRY). assert (H4 : 1 <= n4 <= 2 ^ 5) by (apply upper_div_bounds; lia).
  assert (H5 : 1 <= upper_div n4 PRE_PAGE_ENTRY <= 1) by (apply upper_div_bounds; lia).
  unfold PAGE_SIZE. lia.
Qed.

Lemma map_end_ok k :
  boot_ok k -> map_end_of k = PAGE_UPPER_ALIGN (tables_end k) + sizeof_page * (memory_size (mmap k) / PAGE_SIZE) /\
  tables_end k <= map_end_of k < KERNEL_OFFSET + 2 ^ 43.
Proof.
  intros Hk. destruct (tables_start_ok k Hk) as [Hs _]. pose proof (tables_end_ok k Hk) as He. destruct Hk as [Hm _ _].
  assert (Hn : 0 <= memory_size (mmap k) / PAGE_SIZE <= 2 ^ 32).
  { unfold PAGE_SIZE in *. split; [apply Z.div_pos; lia|apply Z.div_le_upper_bound; lia]. }
  destruct (page_upper_align (tables_end k)) as [Ha _]; [unfold KERNEL_OFFSET in *; lia|unfold KERNEL_OFFSET, PAGE_SIZE in *; lia|].
  unfold map_end_of, sizeof_page, PAGE_SIZE in *. rewrite u64_small by (unfold KERNEL_OFFSET in *; lia). lia.
Qed.

(** The pages of [mm_init]: the free ones are exactly those no rule reserves. *)
Definition pages_post (k k' : kinfo_t) (words' : gmap Z Z) (cr3 nr : Z) (s : mm_state) : Prop :=
  nr = memory_size (mmap k) / PAGE_SIZE /\ mmap k' = mmap k /\ mem_map_end k' = map_end_of k /\ mm_wf nr s ∅ /\
  (forall p, free_in (buddy s) p <-> 0 <= p < nr /\ must_reserve k' p = false) /\
  cr3 = to_phy (tables_start k) /\
  (forall x, 0 <= x < nr * PAGE_SIZE -> translate words' (tables_start k) (to_vir x) = Some x).

Lemma mm_pages_ok k words junk :
  boot_ok k -> to_phy (map_end_of k) / PAGE_SIZE < memory_size (mmap k) / PAGE_SIZE ->
  exists k' words' cr3 nr s, mm_pages k words junk = Some (k', words', cr3, nr, s) /\ pages_post k k' words' cr3 nr s.
Proof.
  intros Hk Hfit. pose proof (bo_size _ Hk) as Hms. destruct (tables_start_ok k Hk) as (Hst & Hal & _).
  destruct (table_size_ok k Hk) as [Hts Hle]. pose proof (tables_end_ok k Hk) as Hte. destruct (map_end_ok k Hk) as [_ Hme].
  set (n := memory_size (mmap k) / PAGE_SIZE) in *.
  assert (Hn : 1 <= n < 2 ^ 32).
  { unfold n, PAGE_SIZE in *. split; [apply Z.div_le_lower_bound; lia|apply Z.div_lt_upper_bound; lia]. }
  assert (Hn' : n <= table_size k / PAGE_SIZE) by (apply Z.div_le_mono; [done|lia]).
  unfold mm_pages. fold (table_size k). fold (tables_start k).
  pose proof (setup_linear words (tables_start k) (table_size k)) as Hlin.
  destruct (setup_page_table words (tables_start k) (table_size k)) as [[words' cr3] pe].
  destruct Hlin as (-> & -> & _ & Hmap); [unfold PAGE_SIZE in *; lia|lia|done|unfold tables_end, KERNEL_OFFSET in *; lia|].
  fold (tables_end k).
  destruct (init_pages_ok junk (memory_size (mmap k)) (PAGE_UPPER_ALIGN (tables_end k)) Hms) as (mm & -> & Hp & Hm).
  run_bind. fold n.
  assert (Emap : u64 (PAGE_UPPER_ALIGN (tables_end k) + sizeof_page * n) = map_end_of k) by (unfold map_end_of, n; reflexivity). rewrite Emap.
  set (k' := layout_kinfo _ _ _ _ _).
  assert (Hlast : u32 (to_phy (mem_map_end k') / PAGE_SIZE) = to_phy (map_end_of k) / PAGE_SIZE).
  { unfold k', layout_kinfo. cbn [mem_map_end]. apply u32_small. split; [apply Z.div_pos; [apply uwrap_range; lia|done]|lia]. }
  destruct (setup_pages_reserved_ok k' n mm Hp) as (mm' & -> & Hp' & Hm'); [lia|]. run_bind.
  set (s0 := mk_mm mm' (mk_buddy [] [] 0)).
  assert (Hres : forall p, 0 <= p < n -> reserved s0 p = must_reserve k' p).
  { intros p Hr. change (reserved s0 p) with (marked mm' p). rewrite Hm', Hm by lia.
    destruct (p =? 0) eqn:E; zbool; [|done]. subst. by rewrite must_reserve_0. }
  destruct (mm_wf_boot s0 n) as (s & Hrun & Hw); [lia|unfold PAGE_SIZE in *; lia|by apply Hp'| |].
  { rewrite Hres by lia. apply must_reserve_0. }
  destruct (buddy_init_spec s0 n) as (s' & Hrun' & _ & _ & _ & _ & Hfree); [lia|].
  rewrite Hrun in Hrun'. injection Hrun' as <-. rewrite Hrun. run_bind.
  eexists _, _, _, _, _. split; [done|]. split; [done|]. split; [done|]. split; [done|]. split; [done|].
  split; [|split; [done|]].
  - intros p. rewrite Hfree. split; intros [Hr E]; (split; [done|]); by rewrite Hres in * by lia.
  - intros x Hx. apply Hmap. unfold PAGE_SIZE in *. lia.
Qed.

(** A free page lies above everything the boot uses and outside every region that
    is not available. *)
Lemma free_page_safe k k' words' cr3 nr s p x :
  boot_ok k -> pages_post k k' words' cr3 nr s -> to_phy (map_end_of k) / PAGE_SIZE < nr ->
  free_in (buddy s) p -> p * PAGE_SIZE <= x < (p + 1) * PAGE_SIZE ->
  to_phy (map_end_of k) < x /\
  forall r, r ∈ mmap k -> mmap_type r <> MULTIBOOT_MEMORY_AVAILABLE -> ~ mmap_addr r <= x < mmap_addr r + mmap_len r.
Proof.
  intros Hk (Hnr & Hmm & Hend & _ & Hfree & _) Hfit Hp Hx. apply Hfree in Hp as [Hr Hres]. unfold must_reserve in Hres.
  apply orb_false_iff in Hres as [Hres Hlast]. apply orb_false_iff in Hres as [Hres _].
  pose proof (bo_size _ Hk) as Hms. unfold PAGE_SIZE in *.
  assert (Hn32 : nr < 2 ^ 32) by (subst nr; apply Z.div_lt_upper_bound; lia).
  assert (Hend0 : 0 <= to_phy (map_end_of k)) by (apply uwrap_range; lia).
  rewrite Hend in Hlast. zbool. rewrite u32_small in Hlast by (split; [apply Z.div_pos; lia|lia]). split.
  - pose proof (Z.div_mod (to_phy (map_end_of k)) 0x1000 ltac:(lia)).
    pose proof (Z.mod_pos_bound (to_phy (map_end_of k)) 0x1000 ltac:(lia)). lia.
  - intros r Hin Hty Hxr. rewrite Hmm in Hres. apply not_true_iff_false in Hres. apply Hres. apply existsb_exists.
    exists r. split; [by apply list_elem_of_In|]. destruct (bo_regions _ Hk r Hin) as (Ha & Hl & Hb).
    unfold hits, region_begin, region_end. rewrite (u64_small (mmap_addr r + mmap_len r)) by lia. unfold PAGE_SIZE.
    pose proof (Z.div_mod (mmap_addr r) 0x1000 ltac:(lia)). pose proof (Z.mod_pos_bound (mmap_addr r) 0x1000 ltac:(lia)).
    pose proof (Z.div_mod (mmap_addr r + mmap_len r) 0x1000 ltac:(lia)).
    pose proof (Z.mod_pos_bound (mmap_addr r + mmap_len r) 0x1000 ltac:(lia)).
    rewrite !u32_small by (split; [apply Z.div_pos; lia|apply Z.div_lt_upper_bound; lia]).
    rewrite (proj2 (Z.eqb_neq _ _) Hty). cbn [negb andb]. apply andb_true_iff. rewrite !Z.leb_le. lia.
Qed.

(** ** The property *)


(** A machine of 64 MiB with a reserved area below 1 MiB. *)
Definition pc64 : kinfo_t :=
  mk_kinfo [mk_mmap 0 0x9fc00 1; mk_mmap 0x9fc00 0x400 2; mk_mmap 0x100000 0x3f00000 1]
    [mk_module 0x200000 0x300000 []] [] (KERNEL_OFFSET + 0x180000) 0 0 0 0 0 0 0 0 0.

