(* ===== verification/Keyboard.v ===== *)
(** * The keyboard server: [srv/keyboard/keyboard.c], [srv/keyboard/keyboard.h]

    The ring buffer of typed characters, the decoder of scan codes with its
    static variables, and the server loop as a machine that consumes the results
    of [_recv].  [char] is signed on this target, so [pre_code] never compares
    equal to 0xe0 or 0xe1. *)

From S2P Require Import Prelude.

Definition KEYBOARD_BUF_SIZE : Z := 128.
Definition MAP_COLS : Z := 2.
Definition FLAG_BREAK : Z := 0x80.

(** The initialiser of [keymap] has one row less than the array: the last row is
    zero by the rules of C and the rows after 0x67 are one off. *)
Definition keymap : list Z :=
  [0; 0; 0; 0; 49; 33; 50; 64; 51; 35; 52; 36; 53; 37; 54; 94; 55; 38; 56; 42;
   57; 40; 48; 41; 45; 95; 61; 43; 8; 0; 9; 0; 113; 81; 119; 87; 101; 69; 114; 82;
   116; 84; 121; 89; 117; 85; 105; 73; 111; 79; 112; 80; 91; 123; 93; 125; 10; 0; 29; 29;
   97; 65; 115; 83; 100; 68; 102; 70; 103; 71; 104; 72; 106; 74; 107; 75; 108; 76; 59; 58;
   39; 34; 96; 126; 42; 42; 92; 124; 122; 90; 120; 88; 99; 67; 118; 86; 98; 66; 110; 78;
   109; 77; 44; 60; 46; 62; 47; 63; 54; 54; 42; 42; 56; 56; 32; 32; 0; 0; 0; 0;
   0; 0; 0; 0; 0; 0; 0; 0; 0; 0; 0; 0; 0; 0; 0; 0; 0; 0; 0; 0;
   0; 0; 55; 0; 56; 0; 57; 0; 45; 0; 52; 0; 53; 0; 54; 0; 43; 0; 49; 0;
   50; 0; 51; 0; 48; 0; 46; 0; 0; 0; 0; 0; 0; 0; 0; 0; 0; 0; 0; 0;
   0; 0; 0; 0; 0; 0; 0; 0; 0; 0; 0; 0; 0; 0; 0; 0; 0; 0; 0; 0;
   0; 0; 0; 0; 0; 0; 0; 0; 0; 0; 0; 0; 0; 0; 0; 0; 0; 0; 0; 0;
   0; 0; 0; 0; 0; 0; 0; 0; 0; 0; 0; 0; 0; 0; 0; 0; 0; 0; 0; 0;
   0; 0; 0; 0; 0; 0; 0; 0; 0; 0; 0; 0; 0; 0;
   0; 0].

Record kb_buf := mk_kb { buf : list Z; count : Z; head : Z; tail : Z }.

Record kb_flags := mk_kbf {
  shift_l : Z; shift_r : Z; ctrl_l : Z; ctrl_r : Z; alt_l : Z; alt_r : Z }.

(** The globals and the static variables of [annlysis_scancode]. *)
Record kb_state := mk_kbs { kb : kb_buf; kbf : kb_flags; pre_code : Z; skip : Z }.

Definition init_buf : kb_buf := mk_kb (replicate (Z.to_nat KEYBOARD_BUF_SIZE) 0) 0 0 0.

Definition put_char (k : kb_buf) (c : Z) : kb_buf :=
  if KEYBOARD_BUF_SIZE <=? count k then k
  else mk_kb (<[Z.to_nat (tail k) := i8 c]> (buf k)) (count k + 1) (head k) ((tail k + 1) mod KEYBOARD_BUF_SIZE).

(** The loop of [read_char]: the characters stored in the caller's buffer. *)
Fixpoint read_loop (fuel : nat) (k : kb_buf) (sz size : Z) : list Z * kb_buf :=
  match fuel with
  | O => ([], k)
  | S fuel =>
      if negb (head k =? tail k) && (sz <=? size) then
        let c := default 0 (buf k !! Z.to_nat (head k)) in
        let '(l, k) := read_loop fuel (mk_kb (buf k) (count k - 1) ((head k + 1) mod KEYBOARD_BUF_SIZE) (tail k)) (sz + 1) size in
        (c :: l, k)
      else ([], k)
  end.

(** At most [KEYBOARD_BUF_SIZE] rounds: the head reaches the tail. *)
Definition read_char (k : kb_buf) (size : Z) : list Z * kb_buf :=
  read_loop (Z.to_nat KEYBOARD_BUF_SIZE) k 0 size.

Definition set_shift_l (f : kb_flags) (v : Z) : kb_flags := mk_kbf v (shift_r f) (ctrl_l f) (ctrl_r f) (alt_l f) (alt_r f).
Definition set_shift_r (f : kb_flags) (v : Z) : kb_flags := mk_kbf (shift_l f) v (ctrl_l f) (ctrl_r f) (alt_l f) (alt_r f).
Definition set_ctrl_l (f : kb_flags) (v : Z) : kb_flags := mk_kbf (shift_l f) (shift_r f) v (ctrl_r f) (alt_l f) (alt_r f).
Definition set_ctrl_r (f : kb_flags) (v : Z) : kb_flags := mk_kbf (shift_l f) (shift_r f) (ctrl_l f) v (alt_l f) (alt_r f).
Definition set_alt_l (f : kb_flags) (v : Z) : kb_flags := mk_kbf (shift_l f) (shift_r f) (ctrl_l f) (ctrl_r f) v (alt_r f).
Definition set_alt_r (f : kb_flags) (v : Z) : kb_flags := mk_kbf (shift_l f) (shift_r f) (ctrl_l f) (ctrl_r f) (alt_l f) v.

(** The code after 0xe0. *)
Definition extended_key (f : kb_flags) (code : Z) : kb_flags :=
  if code =? 0x1d then set_ctrl_r f 1
  else if code =? 0x9d then set_ctrl_r f 0
  else if code =? 0x38 then set_alt_r f 1
  else if code =? 0xb8 then set_alt_r f 0
  else f.

(** A plain code: the new flags and the key, 0 for none. *)
Definition plain_key (f : kb_flags) (code : Z) : kb_flags * Z :=
  let make := if Z.land code FLAG_BREAK =? 0 then 1 else 0 in
  let c := Z.land code 0x7f in
  if c =? 0x2a then (set_shift_l f make, 0)
  else if c =? 0x36 then (set_shift_r f make, 0)
  else if c =? 0x1d then (set_ctrl_l f make, 0)
  else if c =? 0x38 then (set_alt_l f make, 0)
  else if make =? 0 then (f, 0)
  else (f, default 0 (keymap !! Z.to_nat (c * MAP_COLS + Z.lor (shift_l f) (shift_r f)))).

(** [code] is the byte of [inb(0x60)]; stores into [pre_code] truncate to a
    signed [char]. *)
Definition annlysis_scancode (s : kb_state) (code : Z) : kb_state :=
  if code =? 0xe1 then mk_kbs (kb s) (kbf s) (i8 0xe1) 5
  else if code =? 0xe0 then mk_kbs (kb s) (kbf s) (i8 0xe1) (skip s)
  else if pre_code s =? 0xe1 then
    let skip := i32 (skip s - 1) in
    mk_kbs (kb s) (kbf s) (if skip =? 0 then 0 else pre_code s) skip
  else if pre_code s =? 0xe0 then mk_kbs (kb s) (extended_key (kbf s) code) 0 (skip s)
  else
    let '(f, key) := plain_key (kbf s) code in
    mk_kbs (if key =? 0 then kb s else put_char (kb s) key) f (pre_code s) (skip s).

Definition kb_init : kb_state := mk_kbs init_buf (mk_kbf 0 0 0 0 0 0) 0 0.

(** ** The server loop *)

(** What a [_recv] of the loop delivers. *)
Inductive kb_event :=
  | RecvError
  | Intr (code : Z)
  | FsRead (src size : Z)
  | Other (src : Z).

(** A message sent back: the destination, [retval] and the bytes stored. *)
Record kb_reply := mk_reply { dst : Z; retval : Z; data : list Z }.

(** The loop waits for any message, or inside a read for an interrupt. *)
Inductive kb_mode := Idle | Reading (src size : Z).

Definition finish_read (s : kb_state) (src size : Z) : kb_mode * kb_state * list kb_reply :=
  let '(l, k) := read_char (kb s) size in
  (Idle, mk_kbs k (kbf s) (pre_code s) (skip s), [mk_reply src (Z.of_nat (length l)) l]).

(** [while (!kb_buf.count)] of a read. *)
Definition try_read (s : kb_state) (src size : Z) : kb_mode * kb_state * list kb_reply :=
  if count (kb s) =? 0 then (Reading src size, s, []) else finish_read s src size.

(** One [_recv] of [main] and what follows up to the next one; inside a read only
    interrupts and errors are delivered. *)
Definition kb_step (m : kb_mode) (s : kb_state) (e : kb_event) : kb_mode * kb_state * list kb_reply :=
  match m, e with
  | Idle, RecvError => (Idle, s, [])
  | Idle, Intr code => (Idle, annlysis_scancode s code, [])
  | Idle, FsRead src size => try_read s src size
  | Idle, Other src => (Idle, s, [mk_reply src (-1) []])
  | Reading src size, RecvError => (Idle, s, [mk_reply src (-1) []])
  | Reading src size, Intr code => try_read (annlysis_scancode s code) src size
  | Reading src size, _ => (m, s, [])
  end.

Fixpoint kb_run (m : kb_mode) (s : kb_state) (es : list kb_event) : kb_mode * kb_state * list kb_reply :=
  match es with
  | [] => (m, s, [])
  | e :: es =>
      let '(m, s, r) := kb_step m s e in
      let '(m, s, rs) := kb_run m s es in (m, s, r ++ rs)
  end.

(** ** The ring as a queue *)

Record rep (k : kb_buf) (q : list Z) : Prop := {
  rep_len : length (buf k) = Z.to_nat KEYBOARD_BUF_SIZE;
  rep_count : count k = Z.of_nat (length q) /\ count k <= KEYBOARD_BUF_SIZE;
  rep_head : 0 <= head k < KEYBOARD_BUF_SIZE;
  rep_tail : tail k = (head k + count k) mod KEYBOARD_BUF_SIZE;
  rep_at : forall i, (i < length q)%nat ->
    buf k !! Z.to_nat ((head k + Z.of_nat i) mod KEYBOARD_BUF_SIZE) = q !! i }.

Lemma mod_128 x : 0 <= x mod KEYBOARD_BUF_SIZE < KEYBOARD_BUF_SIZE.
Proof. by apply Z.mod_pos_bound. Qed.

Lemma mod_128_inj h i j :
  0 <= i < KEYBOARD_BUF_SIZE -> 0 <= j < KEYBOARD_BUF_SIZE ->
  (h + i) mod KEYBOARD_BUF_SIZE = (h + j) mod KEYBOARD_BUF_SIZE -> i = j.
Proof.
  unfold KEYBOARD_BUF_SIZE. intros Hi Hj E.
  pose proof (Z.div_mod (h + i) 128 ltac:(lia)). pose proof (Z.div_mod (h + j) 128 ltac:(lia)). lia.
Qed.

Lemma put_char_ok k q c :
  rep k q ->
  rep (put_char k c) (if decide (length q < 128)%nat then q ++ [i8 c] else q).
Proof.
  intros [H1 [H2 H3] H4 H5 H6]. unfold put_char. destruct (KEYBOARD_BUF_SIZE <=? count k) eqn:E; zbool.
  - rewrite decide_False by (unfold KEYBOARD_BUF_SIZE in *; lia). by split.
  - rewrite decide_True by (unfold KEYBOARD_BUF_SIZE in *; lia). pose proof (mod_128 (head k + count k)).
    split; cbn [buf count head tail]; rewrite ?length_insert, ?length_app; cbn [length]; [done|lia|done|..].
    + rewrite H5, Zplus_mod_idemp_l. f_equal. lia.
    + intros i Hi. destruct (decide (i = length q)) as [->|Hne].
      * rewrite lookup_app_r, Nat.sub_diag by lia. cbn [lookup list_lookup].
        rewrite <- H2, H5. apply list_lookup_insert_eq. unfold KEYBOARD_BUF_SIZE in *. lia.
      * rewrite lookup_app_l by lia. rewrite <- H6 by lia. apply list_lookup_insert_ne.
        rewrite H5. intros Ei. apply Z2Nat.inj in Ei; [|lia|apply mod_128].
        apply mod_128_inj in Ei; unfold KEYBOARD_BUF_SIZE in *; lia.
Qed.

(** A full ring looks empty to [read_char]. *)
Lemma read_char_full k q size : rep k q -> length q = 128%nat -> read_char k size = ([], k).
Proof.
  intros [H1 [H2 H3] H4 H5 H6] Hq. unfold read_char.
  assert (E : (head k =? tail k) = true).
  { apply Z.eqb_eq. rewrite H5, H2, Hq. change (Z.of_nat 128) with (1 * KEYBOARD_BUF_SIZE).
    rewrite Z.mod_add by done. by rewrite Z.mod_small. }
  generalize (Z.to_nat KEYBOARD_BUF_SIZE). intros [|fuel]; [done|]. cbn [read_loop]. by rewrite E.
Qed.

Lemma read_loop_ok fuel k q sz size :
  rep k q -> (length q < 128)%nat -> (length q <= fuel)%nat -> 0 <= sz ->
  let n := Z.to_nat (size + 1 - sz) in
  let '(l, k') := read_loop fuel k sz size in l = take n q /\ rep k' (drop n q).
Proof.
  revert k q sz. induction fuel as [|fuel IH]; intros k q sz Hr Hl Hf Hsz n; cbn [read_loop].
  { assert (q = []) as -> by (destruct q; [done|cbn in Hf; lia]). by rewrite take_nil, drop_nil. }
  pose proof Hr as [H1 [H2 H3] H4 H5 H6]. destruct q as [|c q].
  { cbn in H2. rewrite H2, Z.add_0_r, Z.mod_small in H5 by done. rewrite H5, Z.eqb_refl. cbn [negb andb].
    by rewrite take_nil, drop_nil. }
  assert (Hne : (head k =? tail k) = false).
  { apply Z.eqb_neq. rewrite H5. rewrite <- (Z.add_0_r (head k)) at 1. rewrite <- (Z.mod_small (head k + 0) KEYBOARD_BUF_SIZE) by lia.
    intros E. apply mod_128_inj in E; unfold KEYBOARD_BUF_SIZE in *; cbn [length] in *; lia. }
  rewrite Hne. cbn [negb andb]. destruct (sz <=? size) eqn:E; zbool; cbn [andb].
  2: { unfold n. replace (Z.to_nat (size + 1 - sz)) with 0%nat by lia. by rewrite take_0, drop_0. }
  assert (Hr' : rep (mk_kb (buf k) (count k - 1) ((head k + 1) mod KEYBOARD_BUF_SIZE) (tail k)) q).
  { split; cbn [buf count head tail]; [done|cbn [length] in H2; lia|apply mod_128|..].
    - rewrite Zplus_mod_idemp_l, H5. f_equal. lia.
    - intros i Hi. rewrite Zplus_mod_idemp_l. pose proof (H6 (S i) ltac:(cbn; lia)) as Hs.
      replace (head k + 1 + Z.of_nat i) with (head k + Z.of_nat (S i)) by lia. exact Hs. }
  pose proof (IH _ q (sz + 1) Hr' ltac:(cbn in Hl; lia) ltac:(cbn in Hf; lia) ltac:(lia)) as Hrec. cbv zeta in Hrec.
  destruct (read_loop fuel _ (sz + 1) size) as [l k'].
  assert (Hc : default 0 (buf k !! Z.to_nat (head k)) = c).
  { pose proof (H6 0%nat ltac:(cbn; lia)) as Hs. cbn in Hs. rewrite Z.add_0_r, Z.mod_small in Hs by done. by rewrite Hs. }
  unfold n. replace (Z.to_nat (size + 1 - sz)) with (S (Z.to_nat (size + 1 - (sz + 1)))) by lia.
  rewrite Hc. cbn [take drop]. destruct Hrec as [-> Hk]. done.
Qed.

Lemma read_char_ok k q size :
  rep k q -> (length q < 128)%nat ->
  let '(l, k') := read_char k size in l = take (Z.to_nat (size + 1)) q /\ rep k' (drop (Z.to_nat (size + 1)) q).
Proof.
  intros Hr Hl. pose proof (read_loop_ok (Z.to_nat KEYBOARD_BUF_SIZE) k q 0 size Hr Hl) as H.
  rewrite Z.sub_0_r in H. apply H; [change (Z.to_nat KEYBOARD_BUF_SIZE) with 128%nat; lia|lia].
Qed.

Lemma rep_init : rep init_buf [].
Proof. split; [done|done|done|done|]. intros i Hi. cbn in Hi. lia. Qed.

(** ** The decoder *)

(** What a sequence of scan codes types: the prefix bytes 0xe0 and 0xe1 have no
    effect and the code after them is read like any other. *)
Fixpoint decode (f : kb_flags) (codes : list Z) : list Z :=
  match codes with
  | [] => []
  | code :: codes =>
      if (code =? 0xe0) || (code =? 0xe1) then decode f codes
      else
        let '(f, key) := plain_key f code in
        if key =? 0 then decode f codes else i8 key :: decode f codes
  end.

Definition pre_ok (s : kb_state) : Prop := pre_code s = 0 \/ pre_code s = i8 0xe1.

Lemma scancode_step s code :
  pre_ok s ->
  let s' := annlysis_scancode s code in
  pre_ok s' /\
  if (code =? 0xe0) || (code =? 0xe1) then kb s' = kb s /\ kbf s' = kbf s
  else kbf s' = (plain_key (kbf s) code).1 /\
       kb s' = let key := (plain_key (kbf s) code).2 in if key =? 0 then kb s else put_char (kb s) key.
Proof.
  intros Hp s'. unfold s', annlysis_scancode.
  destruct (code =? 0xe1) eqn:E1; [rewrite orb_true_r; split; [by right|done]|].
  destruct (code =? 0xe0) eqn:E0; cbn [orb]; [split; [by right|done]|].
  assert (H1 : (pre_code s =? 0xe1) = false) by (destruct Hp as [->| ->]; reflexivity).
  assert (H0 : (pre_code s =? 0xe0) = false) by (destruct Hp as [->| ->]; reflexivity).
  rewrite H1, H0. destruct (plain_key (kbf s) code) as [f key]. done.
Qed.

(** ** The server *)

Definition code_of (e : kb_event) : list Z := match e with Intr code => [code] | _ => [] end.
Definition codes_of (es : list kb_event) : list Z := flat_map code_of es.

Lemma scancode_types s q code rest :
  rep (kb s) q -> pre_ok s -> (length q + length (decode (kbf s) (code :: rest)) < 128)%nat ->
  exists q', let s' := annlysis_scancode s code in
    rep (kb s') q' /\ pre_ok s' /\ q' ++ decode (kbf s') rest = q ++ decode (kbf s) (code :: rest).
Proof.
  intros Hr Hp Hl. pose proof (scancode_step s code Hp) as [Hp' Hs]. cbn [decode] in *.
  destruct ((code =? 0xe0) || (code =? 0xe1)).
  { destruct Hs as [-> ->]. by exists q. }
  destruct Hs as [-> ->]. destruct (plain_key (kbf s) code) as [f key]. cbn [fst snd] in *.
  destruct (key =? 0); [by exists q|]. exists (q ++ [i8 key]). split; [|split; [done|by rewrite <- app_assoc]].
  pose proof (put_char_ok (kb s) q key Hr) as Hput. by rewrite decide_True in Hput by (cbn [length] in Hl; lia).
Qed.

(** Reading takes characters from the front of the queue. *)
Lemma try_read_ok s q src size :
  rep (kb s) q -> pre_ok s -> (length q < 128)%nat ->
  let '(m', s', r) := try_read s src size in
  exists q', rep (kb s') q' /\ pre_ok s' /\ kbf s' = kbf s /\ mjoin (data <$> r) ++ q' = q.
Proof.
  intros Hr Hp Hl. unfold try_read, finish_read. destruct (count (kb s) =? 0); [by exists q|].
  pose proof (read_char_ok (kb s) q size Hr Hl) as H. destruct (read_char (kb s) size) as [l k'].
  destruct H as [-> Hk]. exists (drop (Z.to_nat (size + 1)) q). split; [done|]. split; [done|]. split; [done|].
  cbn. by rewrite app_nil_r, take_drop.
Qed.

Lemma kb_step_ok m s q e rest :
  rep (kb s) q -> pre_ok s -> (length q + length (decode (kbf s) (code_of e ++ rest)) < 128)%nat ->
  let '(m', s', r) := kb_step m s e in
  exists q', rep (kb s') q' /\ pre_ok s' /\
    mjoin (data <$> r) ++ q' ++ decode (kbf s') rest = q ++ decode (kbf s) (code_of e ++ rest).
Proof.
  intros Hr Hp Hl. destruct m as [|src size], e as [|code|src' size'|src']; cbn [kb_step code_of app] in *;
    try (exists q; done).
  - destruct (scancode_types s q code rest Hr Hp Hl) as (q' & Hr' & Hp' & E). by exists q'.
  - pose proof (try_read_ok s q src' size' Hr Hp ltac:(lia)) as H. destruct (try_read s src' size') as [[m' s'] r].
    destruct H as (q' & Hr' & Hp' & Hf & <-). exists q'. by rewrite Hf, app_assoc.
  - destruct (scancode_types s q code rest Hr Hp Hl) as (q1 & Hr1 & Hp1 & E1).
    assert (Hl1 : (length q1 < 128)%nat).
    { apply (f_equal length) in E1. rewrite !length_app in E1. lia. }
    pose proof (try_read_ok _ q1 src size Hr1 Hp1 Hl1) as H. destruct (try_read _ src size) as [[m' s'] r].
    destruct H as (q' & Hr' & Hp' & Hf & E). exists q'. split; [done|]. split; [done|].
    by rewrite Hf, app_assoc, E, E1.
Qed.

Lemma decode_mono m s q e rest :
  rep (kb s) q -> pre_ok s -> (length q + length (decode (kbf s) (code_of e ++ rest)) < 128)%nat ->
  let '(m', s', r) := kb_step m s e in
  forall q', mjoin (data <$> r) ++ q' ++ decode (kbf s') rest = q ++ decode (kbf s) (code_of e ++ rest) ->
    (length q' + length (decode (kbf s') rest) < 128)%nat.
Proof.
  intros Hr Hp Hl. destruct (kb_step m s e) as [[m' s'] r]. intros q' E.
  apply (f_equal length) in E. rewrite !length_app in E. lia.
Qed.

Lemma kb_run_ok m s q es :
  rep (kb s) q -> pre_ok s -> (length q + length (decode (kbf s) (codes_of es)) < 128)%nat ->
  let '(m', s', rs) := kb_run m s es in
  exists q', rep (kb s') q' /\ mjoin (data <$> rs) ++ q' = q ++ decode (kbf s) (codes_of es).
Proof.
  revert m s q. induction es as [|e es IH]; intros m s q Hr Hp Hl; cbn [kb_run].
  { exists q. cbn. by rewrite app_nil_r. }
  change (codes_of (e :: es)) with (code_of e ++ codes_of es) in *.
  pose proof (kb_step_ok m s q e (codes_of es) Hr Hp Hl) as H. pose proof (decode_mono m s q e (codes_of es) Hr Hp Hl) as Hm.
  destruct (kb_step m s e) as [[m1 s1] r]. destruct H as (q1 & Hr1 & Hp1 & E).
  pose proof (IH m1 s1 q1 Hr1 Hp1 (Hm q1 E)) as H. destruct (kb_run m1 s1 es) as [[m' s'] rs].
  destruct H as (q' & Hr' & E'). exists q'. split; [done|].
  rewrite fmap_app, join_app, <- app_assoc, E'. exact E.
Qed.

(** ** The properties *)

(** The ring implements a queue of fewer than 128 characters: [put_char]
    appends, or drops the character when 128 are stored, and [read_char(size)]
    takes up to [size + 1] characters from the front in order; once 128 are
    stored every read returns nothing and every further character is dropped. *)
Lemma keyboard_ring_refines k q c size :
  rep k q ->
  rep (put_char k c) (if decide (length q < 128)%nat then q ++ [i8 c] else q) /\
  ((length q < 128)%nat ->
     let '(l, k') := read_char k size in
     l = take (Z.to_nat (size + 1)) q /\ rep k' (drop (Z.to_nat (size + 1)) q)) /\
  (length q = 128%nat -> read_char k size = ([], k) /\ put_char k c = k).
Proof.
  intros Hr. split; [by apply put_char_ok|]. split; [by apply read_char_ok|]. intros Hq.
  split; [by apply (read_char_full k q)|]. unfold put_char. destruct (rep_count _ _ Hr) as [Hc _].
  by rewrite (proj2 (Z.leb_le KEYBOARD_BUF_SIZE (count k))) by (unfold KEYBOARD_BUF_SIZE; lia).
Qed.

(** As long as fewer than 128 characters are typed in all, the server loses
    and reorders nothing: the data of its replies followed by what the ring still
    holds is the decoding of the scan codes of all interrupts. *)
Lemma keyboard_server_in_order es :
  (length (decode (kbf kb_init) (codes_of es)) < 128)%nat ->
  let '(m, s, rs) := kb_run Idle kb_init es in
  exists q, rep (kb s) q /\ mjoin (data <$> rs) ++ q = decode (kbf kb_init) (codes_of es).
Proof. intros Hl. apply (kb_run_ok Idle kb_init [] es rep_init); [by left|exact Hl]. Qed.

(** C18: the keyboard.  The ring implements a queue of fewer than 128 characters: [put_char]
    appends and [read_char(size)] takes up to [size + 1] characters from the front in order;
    once 128 are stored every read returns nothing and every further character is dropped.
    As long as fewer than 128 characters are typed in all, the server loses and reorders
    nothing: the data of its replies followed by what the ring still holds is the decoding
    of the scan codes of all interrupts. *)
Theorem keyboard_correct :
  (forall k q c size, rep k q ->
    rep (put_char k c) (if decide (length q < 128)%nat then q ++ [i8 c] else q) /\
    ((length q < 128)%nat -> let '(l, k') := read_char k size in l = take (Z.to_nat (size + 1)) q /\ rep k' (drop (Z.to_nat (size + 1)) q)) /\
    (length q = 128%nat -> read_char k size = ([], k) /\ put_char k c = k)) /\
  (forall es, (length (decode (kbf kb_init) (codes_of es)) < 128)%nat ->
    let '(m, s, rs) := kb_run Idle kb_init es in exists q, rep (kb s) q /\ mjoin (data <$> rs) ++ q = decode (kbf kb_init) (codes_of es)).
Proof. split; [exact keyboard_ring_refines|exact keyboard_server_in_order]. Qed.

(** A read, then shift pressed, the key q and shift released: the reply is Q. *)
Lemma keyboard_correct_witness :
  rep (put_char init_buf 0x61) [0x61] /\
  let es := [FsRead 7 10; Intr 0x2a; Intr 0x10; Intr 0xaa] in
  let '(m, s, rs) := kb_run Idle kb_init es in
  rs = [mk_reply 7 1 [0x51]] /\ exists q, rep (kb s) q /\ mjoin (data <$> rs) ++ q = [0x51].
Proof.
  split; [exact (proj1 (proj1 keyboard_correct init_buf [] 0x61 0 rep_init))|].
  pose proof (proj2 keyboard_correct [FsRead 7 10; Intr 0x2a; Intr 0x10; Intr 0xaa] ltac:(vm_compute; lia)) as H.
  split; [vm_compute; reflexivity|exact H].
Defined.
