(* ===== verification/Vga.v ===== *)
(** * The text screen: [srv/video/vga.c] and [boot/console.c]

    Both files drive the same device with the same code; [vga_write] adds the
    form feed.  The video memory is a map from cell numbers to 16-bit cells, the
    CRT controller its address register and its data registers.  The reference
    is a terminal of 25 rows of 80 cells. *)

From S2P Require Import Prelude.

Definition ROW : Z := 25.
Definition COL : Z := 80.

Record video := mk_video { vram : gmap Z Z; crt_addr : Z; crt_regs : gmap Z Z }.

(** ** Ports 0x3d4 and 0x3d5 *)

Definition outb (v : video) (port value : Z) : video :=
  if port =? 0x3d4 then mk_video (vram v) value (crt_regs v)
  else if port =? 0x3d5 then mk_video (vram v) (crt_addr v) (<[crt_addr v := value]> (crt_regs v))
  else v.

Definition inb (v : video) (port : Z) : Z :=
  if port =? 0x3d5 then default 0 (crt_regs v !! crt_addr v) else 0.

Definition get_cursor (v : video) : Z * video :=
  let v := outb v 0x3d4 0x0e in
  let cur := inb v 0x3d5 in
  let v := outb v 0x3d4 0x0f in
  (u16 (Z.lor (Z.shiftl cur 8) (inb v 0x3d5)), v).

(** The argument is an [unsigned short]. *)
Definition set_cursor (v : video) (cur : Z) : video :=
  let cur := u16 cur in
  let v := outb v 0x3d4 0x0e in
  let v := outb v 0x3d5 (Z.land (Z.shiftr cur 8) 0xff) in
  let v := outb v 0x3d4 0x0f in
  outb v 0x3d5 (Z.land cur 0xff).

(** ** Cells *)

Definition cell (m : gmap Z Z) (i : Z) : Z := default 0 (m !! i).
Definition set_vram (v : video) (m : gmap Z Z) : video := mk_video m (crt_addr v) (crt_regs v).

(** [memcpy] copies forwards. *)
Definition copy_cells (m : gmap Z Z) (dst src : Z) (n : nat) : gmap Z Z :=
  foldl (fun m k => <[dst + k := cell m (src + k)]> m) m (seqZ 0 (Z.of_nat n)).
Definition clear_cells (m : gmap Z Z) (dst : Z) (n : nat) : gmap Z Z :=
  foldl (fun m k => <[dst + k := 0]> m) m (seqZ 0 (Z.of_nat n)).

Definition screen_curl (v : video) (line : Z) : Z * video :=
  if (line <? 0) || (25 <? line) then (-1, v)
  else
    let m := copy_cells (vram v) 0 (COL * line) (Z.to_nat (COL * (25 - line))) in
    (0, set_vram v (clear_cells m (COL * 24) (Z.to_nat COL))).

(** [c] is a signed [char], its bits above 7 go into the attribute. *)
Definition char_cell (c type : Z) : Z := Z.lor (u16 (i8 c)) (u16 (Z.shiftl type 8)).

Definition write_char (v : video) (c type cur : Z) : video :=
  set_vram v (<[u16 cur := char_cell c type]> (vram v)).

Definition screen_clean (v : video) : video :=
  set_cursor (foldl (fun v i => write_char v 0x20 0x0f i) v (seqZ 0 (ROW * COL))) 0.

(** The body of the loop of [vga_write]: [cur] is an [int]. *)
Definition put_one (type : Z) (p : Z * video) (c : Z) : Z * video :=
  let '(cur, v) := p in
  let '(cur, v) :=
    if c =? 0x0a then ((Z.quot cur COL + 1) * COL, v)
    else if c =? 0x09 then (cur + 4, v)
    else if c =? 0x08 then (cur - 1, write_char v 0x20 type (cur - 1))
    else (cur + 1, write_char v c type cur) in
  let '(cur, v) := if ROW * COL <=? cur then ((ROW - 1) * COL, (screen_curl v 1).2) else (cur, v) in
  (cur, set_cursor v cur).

(** [console_write] of [boot/console.c], whose [console_curl] is [screen_curl]. *)
Definition console_write (v : video) (buf : list Z) (type : Z) : Z * video :=
  let '(cur, v) := get_cursor v in
  (Z.of_nat (length buf), (foldl (put_one type) (cur, v) buf).2).

Definition vga_write (v : video) (buf : list Z) (type : Z) : Z * video :=
  if bool_decide (buf = [0x0c]) then (Z.of_nat (length buf), screen_clean v)
  else console_write v buf type.

(** ** The reference terminal *)

Record term := mk_term { cells : list Z; pos : Z }.

(** The position after a character, before the screen scrolls. *)
Definition advance (cur c : Z) : Z :=
  if c =? 0x0a then (cur / COL + 1) * COL
  else if c =? 0x09 then cur + 4
  else if c =? 0x08 then cur - 1
  else cur + 1.

Definition scroll (l : list Z) : list Z := drop (Z.to_nat COL) l ++ replicate (Z.to_nat COL) 0.

Definition term_char (type : Z) (t : term) (c : Z) : term :=
  let l :=
    if (c =? 0x0a) || (c =? 0x09) then cells t
    else if c =? 0x08 then <[Z.to_nat (pos t - 1) := char_cell 0x20 type]> (cells t)
    else <[Z.to_nat (pos t) := char_cell c type]> (cells t) in
  if ROW * COL <=? advance (pos t) c then mk_term (scroll l) ((ROW - 1) * COL)
  else mk_term l (advance (pos t) c).

(** No backspace goes before the first cell. *)
Fixpoint no_underflow (t : term) (type : Z) (buf : list Z) : bool :=
  match buf with
  | [] => true
  | c :: buf => negb ((c =? 0x08) && (pos t =? 0)) && no_underflow (term_char type t c) type buf
  end.

(** The device shows the terminal; [m0] is what lies behind the screen. *)
Record shows (v : video) (t : term) (m0 : gmap Z Z) : Prop := {
  sh_len : length (cells t) = 2000%nat;
  sh_pos : 0 <= pos t < 2000;
  sh_cells : forall i, (i < 2000)%nat -> cells t !! i = Some (cell (vram v) (Z.of_nat i));
  sh_out : forall i, 2000 <= i -> cell (vram v) i = cell m0 i }.

Definition cursor_at (v : video) (cur : Z) : Prop :=
  default 0 (crt_regs v !! 0x0e) = cur / 256 /\ default 0 (crt_regs v !! 0x0f) = cur mod 256.

(** ** The cursor registers *)

Lemma set_cursor_ok v cur : 0 <= cur < 2 ^ 16 -> cursor_at (set_cursor v cur) cur /\ vram (set_cursor v cur) = vram v.
Proof.
  intros Hc. unfold set_cursor, cursor_at, outb. cbn [Z.eqb Pos.eqb crt_regs crt_addr vram].
  rewrite u16_small by lia.
  rewrite lookup_insert_ne, !lookup_insert_eq by done. cbn [default].
  change 0xff with (Z.ones 8). rewrite !Z.land_ones, Z.shiftr_div_pow2 by lia. split; [|done].
  split; [|done]. cbn. rewrite Z.mod_small; [done|]. split; [apply Z.div_pos; lia|apply Z.div_lt_upper_bound; lia].
Qed.

Lemma get_cursor_ok v cur :
  0 <= cur < 2 ^ 16 -> cursor_at v cur -> (get_cursor v).1 = cur /\ vram (get_cursor v).2 = vram v.
Proof.
  intros Hc [Hh Hl]. unfold get_cursor, outb, inb. cbn [Z.eqb Pos.eqb fst snd crt_regs crt_addr vram].
  rewrite Hh, Hl. split; [|done]. rewrite Z.shiftl_mul_pow2 by lia. change (2 ^ 8) with 256.
  pose proof (Z.mod_pos_bound cur 256 ltac:(lia)). pose proof (Z.div_mod cur 256 ltac:(lia)).
  rewrite (lor_add _ _ 8); [|lia|by apply Z.mod_mul|cbn; lia]. rewrite u16_small; lia.
Qed.

(** ** Scrolling *)

Lemma cell_insert m i x j : cell (<[i := x]> m) j = if decide (i = j) then x else cell m j.
Proof. unfold cell. case_decide; [subst; by rewrite lookup_insert_eq|by rewrite lookup_insert_ne]. Qed.

Lemma copy_cells_at m d n j :
  0 <= d -> cell (copy_cells m 0 d n) j = if decide (0 <= j < Z.of_nat n) then cell m (d + j) else cell m j.
Proof.
  intros Hd. revert j. unfold copy_cells. induction n as [|n IH]; intros j.
  - by rewrite decide_False by lia.
  - rewrite seqZ_S, foldl_snoc, cell_insert, !IH. rewrite (decide_False (P := 0 <= d + (0 + Z.of_nat n) < Z.of_nat n)) by lia.
    repeat case_decide; try lia; try done. f_equal. lia.
Qed.

Lemma clear_cells_at m b n j :
  cell (clear_cells m b n) j = if decide (b <= j < b + Z.of_nat n) then 0 else cell m j.
Proof.
  revert j. unfold clear_cells. induction n as [|n IH]; intros j.
  - by rewrite decide_False by lia.
  - rewrite seqZ_S, foldl_snoc, cell_insert, IH. repeat case_decide; lia || done.
Qed.

Lemma screen_curl_ok v l m0 :
  length l = 2000%nat -> (forall i, (i < 2000)%nat -> l !! i = Some (cell (vram v) (Z.of_nat i))) ->
  (forall i, 2000 <= i -> cell (vram v) i = cell m0 i) ->
  let v' := (screen_curl v 1).2 in
  length (scroll l) = 2000%nat /\
  (forall i, (i < 2000)%nat -> scroll l !! i = Some (cell (vram v') (Z.of_nat i))) /\
  (forall i, 2000 <= i -> cell (vram v') i = cell m0 i).
Proof.
  intros Hl Hc Ho v'. unfold v', screen_curl. cbn [Z.ltb Z.compare orb snd set_vram vram Pos.compare Pos.compare_cont].
  change (COL * 1) with 80. change (Z.to_nat (COL * (25 - 1))) with 1920%nat. change (Z.to_nat COL) with 80%nat.
  change (COL * 24) with 1920. unfold scroll. change (Z.to_nat COL) with 80%nat.
  split; [rewrite length_app, length_drop, length_replicate; lia|]. split.
  - intros i Hi. rewrite clear_cells_at, copy_cells_at by lia. destruct (Nat.lt_ge_cases i 1920).
    + rewrite lookup_app_l by (rewrite length_drop; lia). rewrite lookup_drop, Hc by lia.
      rewrite decide_False by lia. rewrite decide_True by lia. do 2 f_equal. lia.
    + rewrite lookup_app_r by (rewrite length_drop; lia). rewrite decide_True by lia.
      apply lookup_replicate_2. rewrite length_drop. lia.
  - intros i Hi. rewrite clear_cells_at, copy_cells_at by lia. rewrite !decide_False by lia. by apply Ho.
Qed.

(** ** One character *)

Lemma write_char_shows v t m0 c type p :
  shows v t m0 -> 0 <= p < 2000 ->
  length (<[Z.to_nat p := char_cell c type]> (cells t)) = 2000%nat /\
  (forall i, (i < 2000)%nat ->
     <[Z.to_nat p := char_cell c type]> (cells t) !! i = Some (cell (vram (write_char v c type p)) (Z.of_nat i))) /\
  (forall i, 2000 <= i -> cell (vram (write_char v c type p)) i = cell m0 i).
Proof.
  intros [H1 H2 H3 H4] Hp. unfold write_char. cbn [set_vram vram]. rewrite u16_small by lia.
  split; [by rewrite length_insert|]. split.
  - intros i Hi. rewrite cell_insert. destruct (decide (p = Z.of_nat i)) as [->|Hne].
    + rewrite Nat2Z.id, list_lookup_insert_eq by lia. done.
    + rewrite list_lookup_insert_ne by lia. by apply H3.
  - intros i Hi. rewrite cell_insert, decide_False by lia. by apply H4.
Qed.

(** The position and the cells after a character, before scrolling. *)
Definition before_scroll (type : Z) (t : term) (c : Z) : list Z :=
  if (c =? 0x0a) || (c =? 0x09) then cells t
  else if c =? 0x08 then <[Z.to_nat (pos t - 1) := char_cell 0x20 type]> (cells t)
  else <[Z.to_nat (pos t) := char_cell c type]> (cells t).

Lemma put_one_ok v t m0 type c :
  shows v t m0 -> (c <> 0x08 \/ pos t <> 0) ->
  let '(cur', v') := put_one type (pos t, v) c in
  cur' = pos (term_char type t c) /\ shows v' (term_char type t c) m0 /\ cursor_at v' cur'.
Proof.
  intros Hs Hb. pose proof Hs as [H1 H2 H3 H4].
  assert (Hmid : exists v1,
    (if c =? 0x0a then ((Z.quot (pos t) COL + 1) * COL, v)
     else if c =? 0x09 then (pos t + 4, v)
     else if c =? 0x08 then (pos t - 1, write_char v 0x20 type (pos t - 1))
     else (pos t + 1, write_char v c type (pos t))) = (advance (pos t) c, v1) /\
    0 <= advance (pos t) c <= 2080 /\
    length (before_scroll type t c) = 2000%nat /\
    (forall i, (i < 2000)%nat -> before_scroll type t c !! i = Some (cell (vram v1) (Z.of_nat i))) /\
    (forall i, 2000 <= i -> cell (vram v1) i = cell m0 i)).
  { unfold advance, before_scroll. rewrite Z.quot_div_nonneg by (unfold COL; lia).
    destruct (c =? 0x0a) eqn:E1; cbn [orb].
    - exists v. split; [done|]. split; [|done]. unfold COL.
      pose proof (Z.div_mod (pos t) 80 ltac:(lia)). pose proof (Z.mod_pos_bound (pos t) 80 ltac:(lia)).
      assert (0 <= pos t / 80 < 25) by (split; [apply Z.div_pos; lia|apply Z.div_lt_upper_bound; lia]). lia.
    - destruct (c =? 0x09) eqn:E2; [exists v; split; [done|split; [lia|done]]|].
      destruct (c =? 0x08) eqn:E3; zbool.
      + eexists. split; [done|]. split; [lia|]. apply write_char_shows; [done|lia].
      + eexists. split; [done|]. split; [lia|]. by apply write_char_shows. }
  destruct Hmid as (v1 & E & Hadv & Hl & Hc & Ho). unfold put_one. rewrite E.
  unfold term_char. fold (before_scroll type t c). unfold ROW, COL in *. destruct (25 * 80 <=? advance (pos t) c) eqn:Es; zbool.
  - destruct (screen_curl_ok v1 (before_scroll type t c) m0 Hl Hc Ho) as (S1 & S2 & S3).
    destruct (set_cursor_ok (screen_curl v1 1).2 ((25 - 1) * 80) ltac:(lia)) as [Hcur Hv].
    split; [reflexivity|]. split; [|exact Hcur]. split; cbn [cells pos]; [exact S1|lia|rewrite Hv; exact S2|rewrite Hv; exact S3].
  - destruct (set_cursor_ok v1 (advance (pos t) c) ltac:(lia)) as [Hcur Hv].
    split; [reflexivity|]. split; [|exact Hcur]. split; cbn [cells pos]; [exact Hl|lia|rewrite Hv; exact Hc|rewrite Hv; exact Ho].
Qed.

Lemma put_all_ok type buf v t m0 :
  shows v t m0 -> no_underflow t type buf = true -> (buf = [] -> cursor_at v (pos t)) ->
  let '(cur', v') := foldl (put_one type) (pos t, v) buf in
  let t' := foldl (term_char type) t buf in
  cur' = pos t' /\ shows v' t' m0 /\ cursor_at v' cur'.
Proof.
  revert v t. induction buf as [|c buf IH]; intros v t Hs Hn Hcur; cbn [foldl]; [by auto|].
  cbn [no_underflow] in Hn. apply andb_true_iff in Hn as [Hb Hn].
  assert (Hb' : c <> 0x08 \/ pos t <> 0).
  { apply negb_true_iff, andb_false_iff in Hb as [Hb|Hb]; zbool; auto. }
  pose proof (put_one_ok v t m0 type c Hs Hb') as H. destruct (put_one type (pos t, v) c) as [cur' v'].
  destruct H as (-> & Hs' & Hc'). by apply IH.
Qed.

(** ** The properties *)

(** *** The form feed *)

Lemma blank_cells type l v :
  (forall i, In i l -> 0 <= i < 2000) ->
  forall j, cell (vram (foldl (fun v i => write_char v 0x20 type i) v l)) j =
    if decide (j ∈ l) then char_cell 0x20 type else cell (vram v) j.
Proof.
  revert v. induction l as [|i l IH]; intros v Hl j; cbn [foldl]; [by rewrite decide_False by apply not_elem_of_nil|].
  rewrite IH by (intros k Hk; apply Hl; by right). unfold write_char at 1. cbn [set_vram vram].
  rewrite cell_insert, u16_small by (specialize (Hl i (or_introl eq_refl)); lia).
  destruct (decide (j ∈ l)); [by rewrite decide_True by (by right)|].
  destruct (decide (i = j)) as [->|]; [by rewrite decide_True by left|].
  rewrite decide_False; [done|]. intros [?|?]%elem_of_cons; congruence.
Qed.

(** The terminal a form feed leaves: white blanks and the cursor in the first cell. *)
Definition cleared : term := mk_term (replicate 2000 (char_cell 0x20 0x0f)) 0.

Lemma screen_clean_ok v m0 :
  (forall i, 2000 <= i -> cell (vram v) i = cell m0 i) -> shows (screen_clean v) cleared m0 /\ cursor_at (screen_clean v) 0.
Proof.
  intros Ho. unfold screen_clean. destruct (set_cursor_ok (foldl (fun v i => write_char v 0x20 0x0f i) v (seqZ 0 (ROW * COL))) 0 ltac:(lia)) as [Hc Hv].
  split; [|done].
  assert (Hb : forall i, In i (seqZ 0 (ROW * COL)) -> 0 <= i < 2000).
  { intros i Hi. apply list_elem_of_In, elem_of_seqZ in Hi. unfold ROW, COL in Hi. lia. }
  split; [apply length_replicate|cbn; lia| |].
  - intros i Hi. rewrite Hv, blank_cells by done. rewrite decide_True by (apply elem_of_seqZ; unfold ROW, COL; lia).
    by apply lookup_replicate_2.
  - intros i Hi. rewrite Hv, blank_cells by done. rewrite decide_False by (rewrite elem_of_seqZ; unfold ROW, COL; lia). by apply Ho.
Qed.

(** What [vga_write] makes of the terminal. *)
Definition term_write (type : Z) (t : term) (buf : list Z) : term :=
  if decide (buf = [0x0c]) then cleared else foldl (term_char type) t buf.

(** C20: on a device that shows a terminal, [console_write] and [vga_write] of a
    buffer that never backspaces before the first cell leave it showing the
    terminal after those characters, with the hardware cursor on its position and
    no cell behind the screen changed, and return the length; only the buffer that is
    a form feed alone is different: [vga_write] blanks all cells in white and
    puts the cursor in the first one, [console_write] prints it like any character. *)
Theorem screen_write_refines v t m0 type buf :
  shows v t m0 -> cursor_at v (pos t) -> no_underflow t type buf = true ->
  (let t' := foldl (term_char type) t buf in
   let '(n, v') := console_write v buf type in
   n = Z.of_nat (length buf) /\ shows v' t' m0 /\ cursor_at v' (pos t')) /\
  (let t' := term_write type t buf in
   let '(n, v') := vga_write v buf type in
   n = Z.of_nat (length buf) /\ shows v' t' m0 /\ cursor_at v' (pos t')).
Proof.
  intros Hs Hc Hn. match goal with |- ?A /\ _ => assert (Hcons : A) end.
  - intros t'. unfold console_write. pose proof (sh_pos _ _ _ Hs).
    destruct (get_cursor_ok v (pos t) ltac:(lia) Hc) as [Hg Hv].
    assert (Hregs : crt_regs (get_cursor v).2 = crt_regs v) by reflexivity.
    destruct (get_cursor v) as [cur v1]. cbn [fst snd] in *. subst cur.
    pose proof (put_all_ok type buf v1 t m0) as H1. destruct (foldl (put_one type) (pos t, v1) buf) as [cur' v'].
    destruct H1 as (-> & Hs' & Hc'); [|done| |].
    + destruct Hs as [S1 S2 S3 S4]. split; by rewrite ?Hv.
    + intros _. unfold cursor_at. by rewrite Hregs.
    + cbn [snd]. split; [done|]. split; done.
  - split; [exact Hcons|]. intros t'. unfold t', term_write, vga_write. case_decide as Hff.
    + rewrite bool_decide_true by done. split; [done|]. apply screen_clean_ok, (sh_out _ _ _ Hs).
    + rewrite bool_decide_false by done. exact Hcons.
Qed.

(** A backspace on the first cell writes a blank to cell 65535, outside the
    screen, and moves the cursor there. *)
Theorem backspace_underflow v type :
  cursor_at v 0 ->
  let '(n, v') := vga_write v [0x08] type in
  cell (vram v') 65535 = char_cell 0x20 type /\ cursor_at v' 65535.
Proof.
  intros Hc. unfold vga_write. rewrite bool_decide_false by done. unfold console_write.
  destruct (get_cursor_ok v 0 ltac:(lia) Hc) as [Hg Hv]. destruct (get_cursor v) as [cur v1]. cbn [fst snd] in *. subst cur.
  cbn [foldl put_one Z.eqb Pos.eqb]. change (ROW * COL <=? 0 - 1) with false. cbn [fst snd].
  assert (E : set_cursor (write_char v1 0x20 type (0 - 1)) (0 - 1) = set_cursor (write_char v1 0x20 type (0 - 1)) 65535) by reflexivity.
  rewrite E. destruct (set_cursor_ok (write_char v1 0x20 type (0 - 1)) 65535 ltac:(lia)) as [Hcur ->].
  split; [|done]. unfold write_char. cbn [set_vram vram]. rewrite cell_insert. by rewrite decide_True.
Qed.

(** A blank screen with the cursor in the last cell but one. *)
Definition blank_video : video := set_cursor (mk_video ∅ 0 ∅) 1998.
Definition blank_term : term := mk_term (replicate 2000 0) 1998.

Lemma blank_shows : shows blank_video blank_term ∅.
Proof.
  split; [apply length_replicate|cbn; lia| |done]. intros i Hi. unfold cell.
  change (vram blank_video) with (∅ : gmap Z Z). rewrite lookup_empty. by apply lookup_replicate_2.
Qed.

Lemma screen_write_refines_witness :
  (let '(n, v') := vga_write blank_video [0x61; 0x62; 0x63] 7 in
   shows v' (foldl (term_char 7) blank_term [0x61; 0x62; 0x63]) ∅ /\ cursor_at v' 1921) /\
  (let '(n, v') := vga_write blank_video [0x0c] 7 in shows v' cleared ∅ /\ cursor_at v' 0).
Proof.
  split.
  - pose proof (screen_write_refines blank_video blank_term ∅ 7 [0x61; 0x62; 0x63] blank_shows) as H.
    destruct H as [_ H]; [split; reflexivity|reflexivity|].
    revert H. generalize (vga_write blank_video [0x61; 0x62; 0x63] 7). intros [n v'] (_ & H1 & H2). split; [exact H1|exact H2].
  - pose proof (screen_write_refines blank_video blank_term ∅ 7 [0x0c] blank_shows) as H.
    destruct H as [_ H]; [split; reflexivity|reflexivity|].
    revert H. generalize (vga_write blank_video [0x0c] 7). intros [n v'] (_ & H1 & H2). split; [exact H1|exact H2].
Defined.

Lemma backspace_underflow_witness :
  let '(n, v') := vga_write (set_cursor (mk_video ∅ 0 ∅) 0) [0x08] 7 in cell (vram v') 65535 = 0x720.
Proof.
  pose proof (backspace_underflow (set_cursor (mk_video ∅ 0 ∅) 0) 7) as H.
  revert H. generalize (vga_write (set_cursor (mk_video ∅ 0 ∅) 0) [0x08] 7). intros [n v'] H. apply H. split; reflexivity.
Defined.
