(* ===== verification/Vsprintf.v ===== *)
(** * Formatted output: [libc/vsprintf.c] and [core/printk.c]

    The two files hold the same formatter, one testing digits with [isdigit] and
    one in place; [printk] sends the result to the console.  The output buffer is
    a map from offsets to the bytes stored, so that stores behind its end show.
    The arguments of a call are its 64-bit slots, [strings] gives the characters
    a [char *] slot points to.  [None] is a read behind the end of the format or
    of the arguments. *)

From S2P Require Import Prelude Vga.

Definition ZEROPAD : Z := 1.
Definition SIGN : Z := 2.
Definition LEFT : Z := 16.
Definition SPECIAL : Z := 32.
Definition LARGE : Z := 64.
Definition INT_MAX : Z := 0x7fffffff.

Definition has (flags f : Z) : bool := negb (Z.land flags f =? 0).

(** The buffer: the bytes stored and the offset of [str]. *)
Record out := mk_out { obuf : gmap Z Z; str : Z }.

(** [*str++ = c], and [*str = c] *)
Definition put (o : out) (c : Z) : out := mk_out (<[str o := c]> (obuf o)) (str o + 1).
Definition store (o : out) (c : Z) : out := mk_out (<[str o := c]> (obuf o)) (str o).

(** [if (str < end) *str = c; ++str;] *)
Definition put_checked (o : out) (end_ c : Z) : out :=
  mk_out (if str o <? end_ then <[str o := c]> (obuf o) else obuf o) (str o + 1).

Definition small_digits : list Z :=
  [48; 49; 50; 51; 52; 53; 54; 55; 56; 57; 97; 98; 99; 100; 101; 102; 103; 104; 105; 106; 107; 108; 109; 110;
   111; 112; 113; 114; 115; 116; 117; 118; 119; 120; 121; 122].
Definition large_digits : list Z :=
  [48; 49; 50; 51; 52; 53; 54; 55; 56; 57; 65; 66; 67; 68; 69; 70; 71; 72; 73; 74; 75; 76; 77; 78;
   79; 80; 81; 82; 83; 84; 85; 86; 87; 88; 89; 90].
Definition digit (flags d : Z) : Z :=
  default 0 ((if has flags LARGE then large_digits else small_digits) !! Z.to_nat d).

(** [while (num != 0) { tmp[i++] = digits[num % base]; num /= base; }] *)
Fixpoint digit_loop (fuel : nat) (type num base : Z) : list Z :=
  match fuel with
  | O => []
  | S fuel => if num =? 0 then [] else digit type (num mod base) :: digit_loop fuel type (num / base) base
  end.

(** The array [tmp] of [number], the last character of the output first. *)
Definition number_tmp (num base type : Z) : list Z :=
  let neg := has type SIGN && (i64 num <? 0) in
  let num := if neg then u64 (- i64 num) else num in
  (if num =? 0 then [0x30] else digit_loop 64 type num base) ++
  (if neg then [0x2d] else []) ++
  (if has type SPECIAL then (if base =? 8 then [0x30] else if base =? 16 then [digit type 33; 0x30] else []) else []).

(** [while (size > i && !(type & LEFT) && str < end) { *str++ = pad; size--; }] *)
Fixpoint pad_before (n : nat) (o : out) (end_ pad : Z) : nat * out :=
  match n with
  | O => (O, o)
  | S n' => if str o <? end_ then pad_before n' (put o pad) end_ pad else (n, o)
  end.

(** [while (str < end && i > 0 && size > 0) { *str++ = tmp[--i]; size--; }] on the
    reversed array. *)
Fixpoint copy_tmp (l : list Z) (size : Z) (o : out) (end_ : Z) : Z * out :=
  match l with
  | [] => (size, o)
  | c :: l => if (str o <? end_) && (0 <? size) then copy_tmp l (size - 1) (put o c) end_ else (size, o)
  end.

(** [while (size-- > 0 && str < end) *str++ = pad;] *)
Fixpoint pad_after (n : nat) (o : out) (end_ pad : Z) : out :=
  match n with
  | O => o
  | S n => if str o <? end_ then pad_after n (put o pad) end_ pad else o
  end.

Definition number (o : out) (end_ num base size type : Z) : out :=
  if (base <? 2) || (36 <? base) then o
  else
    let pad := if has type LEFT then 0x20 else if has type ZEROPAD then 0x30 else 0x20 in
    let tmp := number_tmp num base type in
    let i := Z.of_nat (length tmp) in
    let size := if size <? i then i else size in
    let '(extra, o) := if has type LEFT then (Z.to_nat (size - i), o) else pad_before (Z.to_nat (size - i)) o end_ pad in
    let '(size, o) := copy_tmp (rev tmp) (Z.of_nat extra + i) o end_ in
    let o := pad_after (Z.to_nat size) o end_ pad in
    store o 0.

(** ** The parts of a conversion *)

Fixpoint parse_flags (fmt : list Z) (flags : Z) : Z * list Z :=
  match fmt with
  | c :: rest =>
      if c =? 0x2d then parse_flags rest (Z.lor flags LEFT)
      else if c =? 0x30 then parse_flags rest (Z.lor flags ZEROPAD)
      else (flags, fmt)
  | [] => (flags, fmt)
  end.

Section Formatter.
(** The digit test and the characters that a [char *] argument points to. *)
Variable isdigit : Z -> bool.
Variable strings : Z -> option (list Z).

Fixpoint parse_width (fmt : list Z) (width : Z) : Z * list Z :=
  match fmt with
  | c :: rest => if isdigit c then parse_width rest (i32 (width * 10 + c - 0x30)) else (width, fmt)
  | [] => (width, fmt)
  end.

Inductive qualifier := QNone | Ql | QL.

Definition parse_qualifier (fmt : list Z) : qualifier * list Z :=
  match fmt with
  | c :: rest =>
      if c =? 0x6c then
        match rest with
        | c' :: rest' => if c' =? 0x6c then (QL, rest') else (Ql, rest)
        | [] => (Ql, rest)
        end
      else (QNone, fmt)
  | [] => (QNone, fmt)
  end.

(** Case ['s']. *)
Definition put_string (o : out) (end_ width flags : Z) (s : list Z) : out :=
  let len := Z.of_nat (length s) in
  let width := if width <? len then len else width in
  let '(extra, o) := if has flags LEFT then (Z.to_nat (width - len), o) else pad_before (Z.to_nat (width - len)) o end_ 0x20 in
  let o := foldl (fun o c => put_checked o end_ c) o s in
  pad_after extra o end_ 0x20.

(** The base and the flags of the numeric conversions. *)
Definition conversion (c flags : Z) : Z * Z :=
  if c =? 0x6f then (8, flags)
  else if c =? 0x58 then (16, Z.lor flags LARGE)
  else if c =? 0x78 then (16, flags)
  else if (c =? 0x64) || (c =? 0x69) then (10, Z.lor flags SIGN)
  else (10, flags).

(** [va_arg(args, unsigned int)] for the plain conversions, a 64-bit type else. *)
Definition take_arg (q : qualifier) (slot : Z) : Z :=
  match q with QNone => u32 slot | _ => u64 slot end.

(** One conversion: [fmt] starts behind the percent sign. *)
Definition convert (o : out) (end_ : Z) (fmt : list Z) (args : list Z) : option (out * list Z * list Z) :=
  let '(flags, fmt) := parse_flags fmt 0 in
  let '(width, fmt) := parse_width fmt 0 in
  let '(q, fmt) := parse_qualifier fmt in
  match fmt with
  | [] => None
  | c :: fmt =>
      if c =? 0x25 then Some (put_checked o end_ 0x25, fmt, args)
      else
        match args with
        | [] => None
        | a :: args =>
            if c =? 0x63 then Some (put_checked o end_ (u8 a), fmt, args)
            else if c =? 0x73 then s ← strings (u64 a); Some (put_string o end_ width flags s, fmt, args)
            else if c =? 0x70 then Some (number o end_ (u64 a) 16 width (Z.lor flags SPECIAL), fmt, args)
            else
              let '(base, flags) := conversion c flags in
              Some (number o end_ (take_arg q a) base width flags, fmt, args)
        end
  end.

(** The [for] loop; [fuel] bounds the characters of the format. *)
Fixpoint format_loop (fuel : nat) (o : out) (end_ : Z) (fmt : list Z) (args : list Z) : option out :=
  match fuel, fmt with
  | _, [] => Some o
  | O, _ => None
  | S fuel, c :: fmt =>
      if c =? 0x25 then
        r ← convert o end_ fmt args;
        let '(o, fmt, args) := r in format_loop fuel o end_ fmt args
      else format_loop fuel (put o c) end_ fmt args
  end.

(** The result is the returned length and the bytes stored. *)
Definition vsnprintf (size : Z) (fmt args : list Z) : option (Z * gmap Z Z) :=
  o ← format_loop (S (length fmt)) (mk_out ∅ 0) size fmt args;
  Some (i32 (str o), obuf (store o 0)).

Definition vsprintf (fmt args : list Z) : option (Z * gmap Z Z) := vsnprintf INT_MAX fmt args.
Definition sprintf (fmt args : list Z) : option (Z * gmap Z Z) := vsnprintf INT_MAX fmt args.
End Formatter.

(** ** The two formatters *)

(** [isdigit] of [libc/ctype.c] and the test in [core/printk.c]. *)
Definition isdigit (c : Z) : bool := (0x30 <=? c) && (c <=? 0x39).

Definition libc_vsnprintf : (Z -> option (list Z)) -> Z -> list Z -> list Z -> option (Z * gmap Z Z) :=
  vsnprintf isdigit.
Definition kernel_vsnprintf : (Z -> option (list Z)) -> Z -> list Z -> list Z -> option (Z * gmap Z Z) :=
  vsnprintf (fun c => (0x30 <=? c) && (c <=? 0x39)).

Definition printk_color : list Z := [0x0f; 0x0f; 0x0f; 0x0c; 0x0f; 0x0f; 0x0f; 0x0f].

(** [len] bytes of a buffer. *)
Definition bytes (b : gmap Z Z) (from len : Z) : list Z := (fun i => default 0 (b !! (from + i))) <$> seqZ 0 len.

Definition printk (strings : Z -> option (list Z)) (v : video) (fmt args : list Z) : option (Z * video) :=
  r ← kernel_vsnprintf strings 1024 fmt args;
  let '(len, buf) := r in
  let at_ i := default 0 (buf !! i) in
  let '(p, len, level) :=
    if (at_ 0 =? 0x3c) && ((0x30 <=? at_ 1) && (at_ 1 <=? 0x37)) && (at_ 2 =? 0x3e)
    then (3, len - 3, at_ 1 - 0x30) else (0, len, 6) in
  Some (len, (console_write v (bytes buf p len) (default 0 (printk_color !! Z.to_nat level))).2).

(** ** What a format denotes *)

(** [s] in a field of [width] characters. *)
Definition padded (left : bool) (pad width : Z) (s : list Z) : list Z :=
  let fill := replicate (Z.to_nat (width - Z.of_nat (length s))) pad in
  if left then s ++ fill else fill ++ s.

Definition number_text (num base width type : Z) : list Z :=
  let pad := if has type LEFT then 0x20 else if has type ZEROPAD then 0x30 else 0x20 in
  padded (has type LEFT) pad width (rev (number_tmp num base type)).

Section Render.
Variable isdigit : Z -> bool.
Variable strings : Z -> option (list Z).

Definition render_one (fmt args : list Z) : option (list Z * list Z * list Z) :=
  let '(flags, fmt) := parse_flags fmt 0 in
  let '(width, fmt) := parse_width isdigit fmt 0 in
  let '(q, fmt) := parse_qualifier fmt in
  match fmt with
  | [] => None
  | c :: fmt =>
      if c =? 0x25 then Some ([0x25], fmt, args)
      else
        match args with
        | [] => None
        | a :: args =>
            if c =? 0x63 then Some ([u8 a], fmt, args)
            else if c =? 0x73 then s ← strings (u64 a); Some (padded (has flags LEFT) 0x20 width s, fmt, args)
            else if c =? 0x70 then Some (number_text (u64 a) 16 width (Z.lor flags SPECIAL), fmt, args)
            else
              let '(base, flags) := conversion c flags in
              Some (number_text (take_arg q a) base width flags, fmt, args)
        end
  end.

Fixpoint render (fuel : nat) (fmt args : list Z) : option (list Z) :=
  match fuel, fmt with
  | _, [] => Some []
  | O, _ => None
  | S fuel, c :: fmt =>
      if c =? 0x25 then
        r ← render_one fmt args;
        let '(t, fmt, args) := r in l ← render fuel fmt args; Some (t ++ l)
      else l ← render fuel fmt args; Some (c :: l)
  end.
End Render.

(** ** Stores into the buffer *)

Definition puts (o : out) (l : list Z) : out := foldl put o l.

Lemma puts_app o l k : puts o (l ++ k) = puts (puts o l) k.
Proof. apply foldl_app. Qed.

Lemma str_puts o l : str (puts o l) = str o + Z.of_nat (length l).
Proof.
  revert o. induction l as [|c l IH]; intros o; cbn [puts foldl length]; [lia|].
  fold (puts (put o c) l). rewrite IH. cbn [put str]. lia.
Qed.

(** Two buffers that agree once they are terminated. *)
Definition same_text (o o' : out) : Prop := store o 0 = store o' 0.

Lemma put_store o c x : put (store o x) c = put o c.
Proof. unfold put, store. cbn. by rewrite insert_insert_eq. Qed.

Lemma same_put o o' c : same_text o o' -> put o c = put o' c.
Proof. intros E. rewrite <- (put_store o c 0), E. apply put_store. Qed.

Lemma same_str o o' : same_text o o' -> str o = str o'.
Proof. intros E. exact (f_equal str E). Qed.

Lemma same_store o : same_text (store o 0) o.
Proof. unfold same_text, store. cbn. by rewrite insert_insert_eq. Qed.

Lemma same_puts o o' l : same_text o o' -> same_text (puts o l) (puts o' l).
Proof. intros E. destruct l as [|c l]; [done|]. cbn [puts foldl]. by rewrite (same_put o o' c E). Qed.

Lemma pad_before_ok n o end_ pad :
  str o + Z.of_nat n <= end_ -> pad_before n o end_ pad = (O, puts o (replicate n pad)).
Proof.
  revert o. induction n as [|n IH]; intros o H; cbn [pad_before]; [done|].
  rewrite (proj2 (Z.ltb_lt (str o) end_)) by lia. rewrite IH by (cbn [put str]; lia). done.
Qed.

Lemma pad_after_ok n o end_ pad :
  str o + Z.of_nat n <= end_ -> pad_after n o end_ pad = puts o (replicate n pad).
Proof.
  revert o. induction n as [|n IH]; intros o H; cbn [pad_after]; [done|].
  rewrite (proj2 (Z.ltb_lt (str o) end_)) by lia. rewrite IH by (cbn [put str]; lia). done.
Qed.

Lemma copy_tmp_ok l size o end_ :
  str o + Z.of_nat (length l) <= end_ -> Z.of_nat (length l) <= size ->
  copy_tmp l size o end_ = (size - Z.of_nat (length l), puts o l).
Proof.
  revert o size. induction l as [|c l IH]; intros o size H Hs; cbn [copy_tmp length]; [f_equal; lia|].
  cbn [length] in *. rewrite (proj2 (Z.ltb_lt (str o) end_)), (proj2 (Z.ltb_lt 0 size)) by lia. cbn [andb].
  rewrite IH by (cbn [put str]; lia). f_equal. lia.
Qed.

Lemma put_checked_ok o end_ c : str o < end_ -> put_checked o end_ c = put o c.
Proof. intros H. unfold put_checked, put. by rewrite (proj2 (Z.ltb_lt _ _) H). Qed.

Lemma put_all_checked o end_ l :
  str o + Z.of_nat (length l) <= end_ -> foldl (fun o c => put_checked o end_ c) o l = puts o l.
Proof.
  revert o. induction l as [|c l IH]; intros o H; cbn [foldl puts length] in *; [done|].
  rewrite put_checked_ok by lia. rewrite IH by (cbn [put str]; lia). done.
Qed.

Lemma length_padded left pad width s :
  Z.of_nat (length (padded left pad width s)) = Z.max width (Z.of_nat (length s)).
Proof. unfold padded. destruct left; rewrite length_app, length_replicate; lia. Qed.

Lemma padded_wide left pad width s : width <= Z.of_nat (length s) -> padded left pad width s = s.
Proof.
  intros H. unfold padded. replace (Z.to_nat (width - Z.of_nat (length s))) with 0%nat by lia.
  destruct left; [apply app_nil_r|done].
Qed.

Lemma length_digit_loop f type num base : (length (digit_loop f type num base) <= f)%nat.
Proof.
  revert num. induction f as [|f IH]; intros num; cbn [digit_loop]; [done|].
  case_if; cbn [length]; [lia|]. specialize (IH (num / base)). lia.
Qed.

Lemma number_ok o end_ num base width type :
  2 <= base <= 36 -> str o + Z.of_nat (length (number_text num base width type)) <= end_ ->
  number o end_ num base width type = store (puts o (number_text num base width type)) 0.
Proof.
  intros Hb. unfold number, number_text. rewrite (proj2 (Z.ltb_ge base 2)), (proj2 (Z.ltb_ge 36 base)) by lia.
  cbn [orb]. set (tmp := number_tmp num base type). set (pad := if has type LEFT then _ else _).
  assert (Hw : forall w, (if w <? Z.of_nat (length tmp) then Z.of_nat (length tmp) else w) = Z.max w (Z.of_nat (length tmp))).
  { intros w. case_if; lia. }
  rewrite Hw, length_padded, length_rev. intros Hend. unfold padded. rewrite length_rev.
  replace (Z.to_nat (Z.max width (Z.of_nat (length tmp)) - Z.of_nat (length tmp)))
    with (Z.to_nat (width - Z.of_nat (length tmp))) by lia.
  set (n := Z.to_nat (width - Z.of_nat (length tmp))) in *. destruct (has type LEFT).
  - rewrite copy_tmp_ok by (rewrite length_rev; lia). rewrite length_rev.
    replace (Z.of_nat n + Z.of_nat (length tmp) - Z.of_nat (length tmp)) with (Z.of_nat n) by lia.
    rewrite Nat2Z.id, pad_after_ok by (rewrite str_puts, length_rev; lia). by rewrite puts_app.
  - rewrite pad_before_ok by lia.
    rewrite copy_tmp_ok by (rewrite ?str_puts, ?length_replicate, ?length_rev; lia). rewrite length_rev.
    replace (Z.of_nat 0 + Z.of_nat (length tmp) - Z.of_nat (length tmp)) with 0 by lia. cbn [Z.to_nat pad_after].
    by rewrite puts_app.
Qed.

Lemma put_string_ok o end_ width flags s :
  str o + Z.of_nat (length (padded (has flags LEFT) 0x20 width s)) <= end_ ->
  put_string o end_ width flags s = puts o (padded (has flags LEFT) 0x20 width s).
Proof.
  rewrite length_padded. intros Hend. unfold put_string, padded.
  replace (if width <? Z.of_nat (length s) then Z.of_nat (length s) else width) with (Z.max width (Z.of_nat (length s)))
    by (case_if; lia).
  replace (Z.to_nat (Z.max width (Z.of_nat (length s)) - Z.of_nat (length s)))
    with (Z.to_nat (width - Z.of_nat (length s))) by lia.
  set (n := Z.to_nat (width - Z.of_nat (length s))) in *. destruct (has flags LEFT).
  - rewrite put_all_checked by lia. rewrite pad_after_ok by (rewrite str_puts; lia). by rewrite puts_app.
  - rewrite pad_before_ok by lia. rewrite put_all_checked by (rewrite str_puts, length_replicate; lia).
    cbn [pad_after]. by rewrite puts_app.
Qed.

Lemma conversion_base c flags : 2 <= (conversion c flags).1 <= 36.
Proof. unfold conversion. repeat case_if; cbn; lia. Qed.

(** ** The formatter *)

Section FormatProofs.
Context (isdigit : Z -> bool) (strings : Z -> option (list Z)).

Lemma convert_ok o end_ fmt args t fmt' args' :
  render_one isdigit strings fmt args = Some (t, fmt', args') -> str o + Z.of_nat (length t) <= end_ ->
  exists o', convert isdigit strings o end_ fmt args = Some (o', fmt', args') /\ same_text o' (puts o t).
Proof.
  unfold render_one, convert. destruct (parse_flags fmt 0) as [flags f1].
  destruct (parse_width isdigit f1 0) as [width f2]. destruct (parse_qualifier f2) as [q f3].
  destruct f3 as [|c f3]; [done|]. intros H Hend.
  destruct (c =? 0x25).
  { injection H as <- <- <-. eexists. split; [done|]. cbn [length] in Hend. by rewrite put_checked_ok by lia. }
  destruct args as [|a args]; [done|]. destruct (c =? 0x63).
  { injection H as <- <- <-. eexists. split; [done|]. cbn [length] in Hend. by rewrite put_checked_ok by lia. }
  destruct (c =? 0x73).
  { destruct (strings (u64 a)) as [s|]; [|done]. injection H as <- <- <-. eexists. split; [done|].
    by rewrite put_string_ok. }
  destruct (c =? 0x70).
  { injection H as <- <- <-. eexists. split; [done|]. rewrite number_ok by (done || lia). apply same_store. }
  pose proof (conversion_base c flags) as Hb. destruct (conversion c flags) as [base fl]. cbn [fst] in Hb.
  injection H as <- <- <-. eexists. split; [done|]. rewrite number_ok by done. apply same_store.
Qed.

Lemma format_loop_ok fuel o o1 end_ fmt args l :
  render isdigit strings fuel fmt args = Some l -> str o + Z.of_nat (length l) <= end_ -> same_text o1 o ->
  exists o', format_loop isdigit strings fuel o1 end_ fmt args = Some o' /\ same_text o' (puts o l).
Proof.
  revert o o1 fmt args l. induction fuel as [|fuel IH]; intros o o1 fmt args l H Hend Hs.
  { destruct fmt; [|done]. cbn in H. injection H as <-. by exists o1. }
  destruct fmt as [|c fmt]; cbn [render format_loop] in *; [injection H as <-; by exists o1|].
  destruct (c =? 0x25).
  - destruct (render_one isdigit strings fmt args) as [[[t fmt'] args']|] eqn:E; [|done]. simpl in H.
    destruct (render isdigit strings fuel fmt' args') as [l'|] eqn:E'; [|done]. injection H as <-.
    rewrite length_app in Hend. pose proof (same_str o1 o Hs) as Hstr.
    destruct (convert_ok o1 end_ fmt args t fmt' args' E ltac:(lia)) as (o2 & -> & H2). run_bind.
    rewrite puts_app. apply (IH (puts o t) o2 fmt' args' l' E').
    + rewrite str_puts. lia.
    + unfold same_text. rewrite H2. by apply same_puts.
  - destruct (render isdigit strings fuel fmt args) as [l'|] eqn:E; [|done]. injection H as <-.
    cbn [length] in Hend. rewrite (same_put o1 o c Hs).
    apply (IH (put o c) (put o c) fmt args l' E); [cbn [put str]; lia|done].
Qed.

(** The bytes of a terminated text. *)
Definition holds (b : gmap Z Z) (l : list Z) : Prop :=
  (forall i, (i < length l)%nat -> b !! Z.of_nat i = l !! i) /\ b !! Z.of_nat (length l) = Some 0 /\
  (forall i, i < 0 \/ Z.of_nat (length l) < i -> b !! i = None).

Lemma obuf_puts l : forall b n,
  let o := puts (mk_out b n) l in
  (forall i, (i < length l)%nat -> obuf o !! (n + Z.of_nat i) = l !! i) /\
  (forall i, i < n \/ n + Z.of_nat (length l) <= i -> obuf o !! i = b !! i).
Proof.
  induction l as [|c l IH]; intros b n; cbn [puts foldl length]; [split; [lia|done]|].
  unfold put at 2. cbn [obuf str]. fold (puts (mk_out (<[n := c]> b) (n + 1)) l).
  destruct (IH (<[n := c]> b) (n + 1)) as [H1 H2]. split.
  - intros [|i] Hi.
    + rewrite Z.add_0_r, H2 by lia. cbn [lookup list_lookup]. apply lookup_insert_eq.
    + replace (n + Z.of_nat (S i)) with (n + 1 + Z.of_nat i) by lia. apply H1. lia.
  - intros i Hi. rewrite H2 by lia. apply lookup_insert_ne. lia.
Qed.

Lemma holds_puts l : holds (obuf (store (puts (mk_out ∅ 0) l) 0)) l.
Proof.
  destruct (obuf_puts l ∅ 0) as [H1 H2]. unfold store. cbn [obuf]. rewrite str_puts. cbn [str]. split; [|split].
  - intros i Hi. rewrite lookup_insert_ne by lia. by rewrite <- (H1 i Hi).
  - apply lookup_insert_eq.
  - intros i Hi. rewrite lookup_insert_ne by lia. rewrite H2 by lia. apply lookup_empty.
Qed.

Lemma vsnprintf_ok size fmt args l :
  render isdigit strings (S (length fmt)) fmt args = Some l -> Z.of_nat (length l) < size <= INT_MAX ->
  exists b, vsnprintf isdigit strings size fmt args = Some (Z.of_nat (length l), b) /\ holds b l.
Proof.
  intros H Hs. unfold vsnprintf.
  destruct (format_loop_ok (S (length fmt)) (mk_out ∅ 0) (mk_out ∅ 0) size fmt args l H) as (o' & -> & E); [cbn; lia|done|].
  some_bind. eexists. split.
  - rewrite (same_str _ _ E), str_puts. cbn [str]. unfold INT_MAX in Hs. rewrite i32_small by lia. done.
  - rewrite E. apply holds_puts.
Qed.

(** Without conversions the size is never looked at. *)
Lemma literal_loop fuel o end_ fmt args :
  (length fmt < fuel)%nat -> (forall c, c ∈ fmt -> c <> 0x25) ->
  format_loop isdigit strings fuel o end_ fmt args = Some (puts o fmt).
Proof.
  revert o fuel. induction fmt as [|c fmt IH]; intros o fuel Hf Hc; (destruct fuel as [|fuel]; [cbn in Hf; lia|]); [done|].
  cbn [format_loop]. rewrite (proj2 (Z.eqb_neq c 0x25)) by (apply Hc; set_solver).
  apply IH; [cbn in Hf; lia|set_solver].
Qed.
End FormatProofs.

(** ** Digits *)

Definition digit_value (c : Z) : Z :=
  if (0x30 <=? c) && (c <=? 0x39) then c - 0x30
  else if (0x61 <=? c) && (c <=? 0x7a) then c - 0x57
  else if (0x41 <=? c) && (c <=? 0x5a) then c - 0x37 else 0.

(** The number a string of digits stands for. *)
Definition value (base : Z) (ds : list Z) : Z := foldl (fun a c => a * base + digit_value c) 0 ds.

Lemma value_snoc base ds c : value base (ds ++ [c]) = value base ds * base + digit_value c.
Proof. unfold value. by rewrite foldl_snoc. Qed.

Lemma digit_value_digit type d : 0 <= d < 36 -> digit_value (digit type d) = d.
Proof.
  intros Hd. assert (Hall : forall t : bool, Forall (fun d => digit_value (default 0 ((if t then large_digits else small_digits) !! Z.to_nat d)) = d) (seqZ 0 36)).
  { intros []; apply (bool_decide_unpack _); by vm_compute. }
  pose proof (Hall (has type LARGE)) as H. rewrite Forall_forall in H. apply H, elem_of_seqZ. lia.
Qed.

Lemma digit_zero type d : 0 <= d < 36 -> digit type d = 0x30 -> d = 0.
Proof. intros Hd E. rewrite <- (digit_value_digit type d Hd), E. reflexivity. Qed.

Lemma digit_loop_ok fuel type num base :
  2 <= base <= 36 -> 0 <= num < 2 ^ Z.of_nat fuel ->
  let ds := digit_loop fuel type num base in
  value base (rev ds) = num /\ (forall c, c ∈ ds -> exists d, 0 <= d < base /\ c = digit type d) /\
  (forall c, last ds = Some c -> c <> 0x30).
Proof.
  intros Hb. revert num. induction fuel as [|fuel IH]; intros num Hn; cbn [digit_loop].
  { split; [|split; [set_solver|done]]. change (2 ^ Z.of_nat 0) with 1 in Hn. unfold value. cbn. lia. }
  destruct (num =? 0) eqn:E; zbool; [subst; split; [done|split; [set_solver|done]]|].
  assert (Hd : 0 <= num mod base < base) by (apply Z.mod_pos_bound; lia).
  assert (Hq : 0 <= num / base < 2 ^ Z.of_nat fuel).
  { split; [apply Z.div_pos; lia|]. rewrite Nat2Z.inj_succ, Z.pow_succ_r in Hn by lia.
    apply Z.div_lt_upper_bound; [lia|]. nia. }
  destruct (IH (num / base) Hq) as (Hv & Hin & Hlast). split; [|split].
  - cbn [rev]. rewrite value_snoc, Hv, digit_value_digit by lia. pose proof (Z.div_mod num base ltac:(lia)). lia.
  - intros c [->|Hc]%elem_of_cons; [by exists (num mod base)|by apply Hin].
  - intros c Hc. destruct (digit_loop fuel type (num / base) base) as [|c' ds] eqn:Eds.
    + cbn in Hc. injection Hc as <-. intros H0. apply digit_zero in H0; [|lia].
      assert (Hz : num / base = 0) by exact (eq_sym Hv). pose proof (Z.div_mod num base ltac:(lia)). nia.
    + apply Hlast. by rewrite last_cons_cons in Hc.
Qed.

(** What [SPECIAL] puts before a number. *)
Definition prefix (base type : Z) : list Z :=
  if has type SPECIAL then (if base =? 8 then [0x30] else if base =? 16 then [0x30; digit type 33] else []) else [].

Lemma number_tmp_text num base type :
  2 <= base <= 36 -> 0 <= num < 2 ^ 64 ->
  let neg := has type SIGN && (i64 num <? 0) in
  exists ds, rev (number_tmp num base type) = prefix base type ++ (if neg then [0x2d] else []) ++ ds /\
    value base ds = (if neg then - i64 num else num) /\
    (forall c, c ∈ ds -> exists d, 0 <= d < base /\ c = digit type d) /\
    (ds = [0x30] \/ exists c rest, ds = c :: rest /\ c <> 0x30).
Proof.
  intros Hb Hn neg. unfold number_tmp. fold neg. set (n := if neg then u64 (- i64 num) else num).
  assert (Hi : (i64 num = num \/ i64 num = num - 2 ^ 64) /\ - 2 ^ 63 <= i64 num).
  { unfold i64, swrap. pose proof (Z.div_mod (num + 2 ^ (64 - 1)) (2 ^ 64) ltac:(lia)).
    pose proof (Z.mod_pos_bound (num + 2 ^ (64 - 1)) (2 ^ 64) ltac:(lia)). change (64 - 1) with 63 in *. lia. }
  assert (Hneg : neg = true -> i64 num < 0) by (unfold neg; rewrite andb_true_iff, Z.ltb_lt; tauto).
  assert (En : n = if neg then - i64 num else num).
  { unfold n. destruct neg; [|done]. specialize (Hneg eq_refl). apply u64_small. lia. }
  assert (Hr : 0 <= n < 2 ^ 64) by (rewrite En; destruct neg; [specialize (Hneg eq_refl)|]; lia).
  exists (if n =? 0 then [0x30] else rev (digit_loop 64 type n base)).
  assert (Hpre : rev (if has type SPECIAL then (if base =? 8 then [0x30] else if base =? 16 then [digit type 33; 0x30] else []) else []) = prefix base type).
  { unfold prefix. destruct (has type SPECIAL); [|done]. destruct (base =? 8); [done|]. by destruct (base =? 16). }
  rewrite !rev_app_distr, Hpre. rewrite <- En.
  destruct (digit_loop_ok 64 type n base Hb Hr) as (Hv & Hin & Hlast). destruct (n =? 0) eqn:E; zbool.
  - split; [by destruct neg; rewrite <- app_assoc|]. split; [by rewrite E|]. split; [|by left].
    intros c ->%list_elem_of_singleton. exists 0. split; [lia|]. unfold digit. by destruct (has type LARGE).
  - split; [by destruct neg; rewrite <- app_assoc|]. split; [done|]. split.
    + intros c Hc. apply Hin. rewrite list_elem_of_In in *. by apply in_rev.
    + right. destruct (rev (digit_loop 64 type n base)) as [|c rest] eqn:Erev; [by rewrite <- Hv in E|].
      exists c, rest. split; [done|]. apply Hlast. apply (f_equal (@rev Z)) in Erev. rewrite rev_involutive in Erev.
      rewrite Erev. cbn [rev]. apply last_snoc.
Qed.

(** A plain percent-d: the digits of the argument as an [unsigned int]. *)
Lemma percent_d_ok isdigit strings size a :
  isdigit 0x64 = false -> 64 < size <= INT_MAX ->
  exists ds b, vsnprintf isdigit strings size [0x25; 0x64] [a] = Some (Z.of_nat (length ds), b) /\
    holds b ds /\ value 10 ds = u32 a /\ (forall c, c ∈ ds -> exists d, 0 <= d < 10 /\ c = digit SIGN d) /\ ds <> [].
Proof.
  intros Hd Hsize. set (v := u32 a). set (t := number_text v 10 0 SIGN).
  assert (Hv : 0 <= v < 2 ^ 32) by (apply Z.mod_pos_bound; lia).
  assert (Hr : render isdigit strings 3 [0x25; 0x64] [a] = Some t).
  { cbn [render]. unfold render_one. cbn [Z.eqb Pos.eqb parse_flags parse_width parse_qualifier]. rewrite Hd. cbn [parse_qualifier Z.eqb Pos.eqb].
    cbn [conversion Z.eqb Pos.eqb orb take_arg]. fold v. run_bind. by rewrite app_nil_r. }
  destruct (number_tmp_text v 10 SIGN ltac:(lia) ltac:(lia)) as (ds & E & Hval & Hin & _).
  rewrite i64_small in E, Hval by lia. rewrite (proj2 (Z.ltb_ge _ 0)) in E, Hval by lia. rewrite andb_false_r in E, Hval.
  assert (Et : t = ds) by (unfold t, number_text; rewrite padded_wide, E by lia; reflexivity).
  assert (Hlen : (length t <= 64)%nat).
  { unfold t, number_text. rewrite padded_wide, length_rev by lia.
    unfold number_tmp. rewrite i64_small by lia. rewrite (proj2 (Z.ltb_ge _ 0)) by lia. rewrite andb_false_r.
    change (has SIGN SPECIAL) with false. rewrite !app_nil_r. case_if; [cbn; lia|apply length_digit_loop]. }
  destruct (vsnprintf_ok isdigit strings size [0x25; 0x64] [a] t Hr) as (b & Hrun & Hb); [lia|].
  exists ds, b. rewrite <- Et. split; [done|]. split; [done|]. split; [by rewrite Et|]. split; [by rewrite Et|].
  intros E0. assert (Hz : v = 0) by (rewrite <- Hval, <- Et, E0; done). unfold t in E0. by rewrite Hz in E0.
Qed.

(** ** The language of formats

    The specification of [vsnprintf] is written without its code: a call is a list
    of pieces, which gives the format string, the arguments and the texts the call
    stands for. *)

(** [ds] is the numeral of [n] in [base]: digits of the base in one case, no leading
    zero except for zero itself. *)
Definition base_digit (upper : bool) (base c : Z) : Prop :=
  (0x30 <= c <= 0x39 \/ if upper then 0x41 <= c <= 0x5a else 0x61 <= c <= 0x7a) /\ digit_value c < base.

Record numeral (upper : bool) (base n : Z) (ds : list Z) : Prop := {
  nm_value : value base ds = n;
  nm_digits : Forall (base_digit upper base) ds;
  nm_canon : ds = [0x30] \/ exists c rest, ds = c :: rest /\ c <> 0x30 }.

(** A literal character, or a conversion: its flags and the digits of its width, the
    number of letters l, its letter, and the argument slot it reads. *)
Inductive piece :=
  | Lit (c : Z)
  | Conv (flags width : list Z) (longs : nat) (letter arg : Z).

Definition piece_format (p : piece) : list Z :=
  match p with
  | Lit c => [c]
  | Conv flags width longs letter _ => 0x25 :: flags ++ width ++ replicate longs 0x6c ++ [letter]
  end.
Definition piece_args (p : piece) : list Z :=
  match p with Lit _ => [] | Conv _ _ _ letter arg => if letter =? 0x25 then [] else [arg] end.
Definition format_of (call : list piece) : list Z := concat (piece_format <$> call).
Definition args_of (call : list piece) : list Z := concat (piece_args <$> call).

(** The letters % c s p d i u x X o. *)
Definition letters : list Z := [0x25; 0x63; 0x73; 0x70; 0x64; 0x69; 0x75; 0x78; 0x58; 0x6f].

Definition piece_ok (strings : Z -> option (list Z)) (p : piece) : Prop :=
  match p with
  | Lit c => c <> 0x25
  | Conv flags width longs letter arg =>
      Forall (fun c => c = 0x2d \/ c = 0x30) flags /\
      Forall (fun c => 0x30 <= c <= 0x39) width /\ head width <> Some 0x30 /\ value 10 width < 2 ^ 31 /\
      (longs <= 2)%nat /\ letter ∈ letters /\ (letter = 0x73 -> is_Some (strings (arg mod 2 ^ 64)))
  end.

(** The base and the case of the unsigned conversions u x X o. *)
Definition unsigned_letter (letter : Z) (base : Z) (upper : bool) : Prop :=
  letter = 0x75 /\ base = 10 /\ upper = false \/ letter = 0x78 /\ base = 16 /\ upper = false \/
  letter = 0x58 /\ base = 16 /\ upper = true \/ letter = 0x6f /\ base = 8 /\ upper = false.

(** The text of a piece.  A numeric argument without l is its low 32 bits, as an
    unsigned number even for d and i; with l or ll it is all 64, and d and i print
    a number of [2^63] or more as negative. *)
Definition pad_of (flags : list Z) : Z := if decide (0x2d ∈ flags) then 0x20 else if decide (0x30 ∈ flags) then 0x30 else 0x20.
Definition in_field (flags width body : list Z) (pad : Z) : list Z := padded (bool_decide (0x2d ∈ flags)) pad (value 10 width) body.

Inductive piece_text (strings : Z -> option (list Z)) : piece -> list Z -> Prop :=
  | text_lit c : piece_text strings (Lit c) [c]
  | text_percent flags width longs arg : piece_text strings (Conv flags width longs 0x25 arg) [0x25]
  | text_char flags width longs arg : piece_text strings (Conv flags width longs 0x63 arg) [arg mod 256]
  | text_string flags width longs arg s :
      strings (arg mod 2 ^ 64) = Some s -> piece_text strings (Conv flags width longs 0x73 arg) (in_field flags width s 0x20)
  | text_pointer flags width longs arg ds :
      numeral false 16 (arg mod 2 ^ 64) ds ->
      piece_text strings (Conv flags width longs 0x70 arg) (in_field flags width (0x30 :: 0x78 :: ds) (pad_of flags))
  | text_unsigned flags width longs letter arg base upper ds :
      unsigned_letter letter base upper -> numeral upper base (arg mod 2 ^ (if decide (longs = 0%nat) then 32 else 64)) ds ->
      piece_text strings (Conv flags width longs letter arg) (in_field flags width ds (pad_of flags))
  | text_int flags width letter arg ds :
      letter = 0x64 \/ letter = 0x69 -> numeral false 10 (arg mod 2 ^ 32) ds ->
      piece_text strings (Conv flags width 0 letter arg) (in_field flags width ds (pad_of flags))
  | text_long flags width longs letter arg ds :
      letter = 0x64 \/ letter = 0x69 -> longs <> 0%nat -> arg mod 2 ^ 64 < 2 ^ 63 -> numeral false 10 (arg mod 2 ^ 64) ds ->
      piece_text strings (Conv flags width longs letter arg) (in_field flags width ds (pad_of flags))
  | text_negative flags width longs letter arg ds :
      letter = 0x64 \/ letter = 0x69 -> longs <> 0%nat -> 2 ^ 63 <= arg mod 2 ^ 64 -> numeral false 10 (2 ^ 64 - arg mod 2 ^ 64) ds ->
      piece_text strings (Conv flags width longs letter arg) (in_field flags width (0x2d :: ds) (pad_of flags)).

(** The text of a call. *)
Definition denotes (strings : Z -> option (list Z)) (call : list piece) (text : list Z) : Prop :=
  exists texts, Forall2 (piece_text strings) call texts /\ text = concat texts.

(** *** Numerals are unique *)

Lemma base_digit_value upper base c : base_digit upper base c -> 0 <= digit_value c < base.
Proof. intros [Hc Hv]. split; [|done]. unfold digit_value. destruct upper; repeat (case_match; zbool; destruct_or?; zbool; try lia). Qed.

Lemma base_digit_inj upper base c d : base_digit upper base c -> base_digit upper base d -> digit_value c = digit_value d -> c = d.
Proof.
  intros [Hc _] [Hd _]. unfold digit_value.
  destruct (0x30 <=? c) eqn:?, (c <=? 0x39) eqn:?, (0x61 <=? c) eqn:?, (c <=? 0x7a) eqn:?, (0x41 <=? c) eqn:?, (c <=? 0x5a) eqn:?,
    (0x30 <=? d) eqn:?, (d <=? 0x39) eqn:?, (0x61 <=? d) eqn:?, (d <=? 0x7a) eqn:?, (0x41 <=? d) eqn:?, (d <=? 0x5a) eqn:?; cbn [andb]; zbool; destruct upper; lia.
Qed.

Lemma value_pos upper base c rest : 2 <= base -> Forall (base_digit upper base) (c :: rest) -> c <> 0x30 -> 0 < value base (c :: rest).
Proof.
  intros Hb. induction rest as [|d rest IH] using rev_ind; intros Hf Hc.
  - apply Forall_cons in Hf as [Hf _]. unfold value. cbn [foldl]. pose proof (base_digit_value _ _ _ Hf).
    assert (digit_value c <> digit_value 0x30); [|change (digit_value 0x30) with 0 in *; lia].
    intros E. apply Hc. apply (base_digit_inj upper base); [done| |done]. split; [lia|]. change (digit_value 0x30) with 0. lia.
  - rewrite app_comm_cons in *. apply Forall_app in Hf as [Hf Hd]. apply Forall_cons in Hd as [Hd _].
    rewrite value_snoc. pose proof (base_digit_value _ _ _ Hd). specialize (IH Hf Hc). nia.
Qed.

Lemma value_inj upper base ds es :
  2 <= base -> Forall (base_digit upper base) ds -> Forall (base_digit upper base) es ->
  head ds <> Some 0x30 -> head es <> Some 0x30 -> value base ds = value base es -> ds = es.
Proof.
  intros Hb. revert es. induction ds as [|c ds IH] using rev_ind; intros es Hd He Nd Ne E.
  - destruct es as [|e es]; [done|]. pose proof (value_pos upper base e es Hb He ltac:(intros ->; by apply Ne)) as Hp.
    rewrite <- E in Hp. done.
  - destruct es as [|e es _] using rev_ind.
    { destruct ds as [|d ds]; cbn [app] in *.
      - pose proof (value_pos upper base c [] Hb Hd ltac:(intros ->; by apply Nd)) as Hp. by rewrite E in Hp.
      - pose proof (value_pos upper base d (ds ++ [c]) Hb Hd ltac:(intros ->; by apply Nd)) as Hp. by rewrite E in Hp. }
    apply Forall_app in Hd as [Hd Hc]. apply Forall_cons in Hc as [Hc _]. apply Forall_app in He as [He Hf]. apply Forall_cons in Hf as [Hf _].
    rewrite !value_snoc in E. pose proof (base_digit_value _ _ _ Hc). pose proof (base_digit_value _ _ _ Hf).
    assert (value base ds = value base es /\ digit_value c = digit_value e) as [E1 E2]
      by (apply (Z.div_mod_unique base); [left; lia|left; lia|lia]).
    f_equal; [|by rewrite (base_digit_inj upper base c e)]. apply IH; [done|done| | |done].
    + destruct ds; [done|exact Nd].
    + destruct es; [done|exact Ne].
Qed.

Lemma numeral_unique upper base n ds es : 2 <= base -> numeral upper base n ds -> numeral upper base n es -> ds = es.
Proof.
  intros Hb [V1 D1 C1] [V2 D2 C2]. destruct C1 as [->|(c & r & -> & Hc)], C2 as [->|(c' & r' & -> & Hc')]; [done| | |].
  - pose proof (value_pos _ _ _ _ Hb D2 Hc') as Hp. rewrite V2, <- V1 in Hp. done.
  - pose proof (value_pos _ _ _ _ Hb D1 Hc) as Hp. rewrite V1, <- V2 in Hp. done.
  - apply (value_inj upper base); [done..|cbn; congruence|cbn; congruence|congruence].
Qed.

Lemma piece_text_unique strings p t t' : piece_text strings p t -> piece_text strings p t' -> t = t'.
Proof.
  intros H H'. destruct H; inversion H'; subst; unfold unsigned_letter in *; destruct_or?; destruct_and?; simplify_eq; try done; try lia;
    try (do 3 f_equal; eapply numeral_unique; [|done|done]; lia);
    try (do 2 f_equal; eapply numeral_unique; [|done|done]; lia);
    try (f_equal; eapply numeral_unique; [|done|done]; lia).
Qed.

Lemma denotes_unique strings call t t' : denotes strings call t -> denotes strings call t' -> t = t'.
Proof.
  intros (ts & H & ->) (ts' & H' & ->). f_equal. revert ts' H'. induction H as [|p t call ts Hp _ IH]; intros ts' H'.
  - by inversion H'.
  - inversion H' as [|? t2 ? ts2 Hp2 H2]; subst. f_equal; [by eapply piece_text_unique|by apply IH].
Qed.

(** *** The formatter reads the pieces *)

Definition flag_word (flags : list Z) : Z :=
  Z.lor (if decide (0x2d ∈ flags) then LEFT else 0) (if decide (0x30 ∈ flags) then ZEROPAD else 0).

Lemma parse_flags_ok flags rest f0 :
  Forall (fun c => c = 0x2d \/ c = 0x30) flags -> (forall c, head rest = Some c -> c <> 0x2d /\ c <> 0x30) ->
  parse_flags (flags ++ rest) f0 = (Z.lor f0 (flag_word flags), rest).
Proof.
  intros Hf Hr. revert f0. induction Hf as [|c flags Hc _ IH]; intros f0; cbn [app parse_flags].
  - change (flag_word []) with 0. rewrite Z.lor_0_r. destruct rest as [|c rest]; [done|]. destruct (Hr c eq_refl) as [H1 H2].
    cbn [parse_flags]. by rewrite (proj2 (Z.eqb_neq _ _) H1), (proj2 (Z.eqb_neq _ _) H2).
  - assert (E : Z.lor (if decide (c = 0x2d) then LEFT else ZEROPAD) (flag_word flags) = flag_word (c :: flags)).
    { unfold flag_word. destruct Hc as [->| ->].
      - rewrite decide_True by done. rewrite (decide_True (P := 0x2d ∈ 0x2d :: flags)) by left.
        rewrite (decide_ext (0x30 ∈ 0x2d :: flags) (0x30 ∈ flags)) by set_solver. by do 2 case_decide.
      - rewrite decide_False by done. rewrite (decide_True (P := 0x30 ∈ 0x30 :: flags)) by left.
        rewrite (decide_ext (0x2d ∈ 0x30 :: flags) (0x2d ∈ flags)) by set_solver. by do 2 case_decide. }
    rewrite <- E, Z.lor_assoc. destruct Hc as [->| ->]; cbn [Z.eqb Pos.eqb]; by rewrite IH.
Qed.

Lemma parse_width_ok width rest w0 :
  Forall (fun c => 0x30 <= c <= 0x39) width -> (forall c, head rest = Some c -> isdigit c = false) -> 0 <= w0 ->
  foldl (fun a c => a * 10 + digit_value c) w0 width < 2 ^ 31 ->
  parse_width isdigit (width ++ rest) w0 = (foldl (fun a c => a * 10 + digit_value c) w0 width, rest).
Proof.
  intros Hf Hr. revert w0. induction Hf as [|c width Hc Hf IH]; intros w0 Hw Hlt; cbn [app parse_width foldl].
  - destruct rest as [|c rest]; [done|]. cbn [parse_width]. by rewrite (Hr c eq_refl).
  - assert (Hd : isdigit c = true) by (unfold isdigit; apply andb_true_iff; lia). rewrite Hd.
    assert (Ev : digit_value c = c - 0x30) by (unfold digit_value; fold (isdigit c); by rewrite Hd).
    assert (Hmono : forall w, 0 <= w -> w <= foldl (fun a c => a * 10 + digit_value c) w width).
    { clear - Hf. induction Hf as [|d width Hd _ IH]; intros w Hw; cbn [foldl]; [lia|].
      assert (0 <= digit_value d) by (unfold digit_value; repeat case_if; zbool; lia). etrans; [|apply IH; lia]. lia. }
    cbn [foldl] in Hlt. specialize (Hmono (w0 * 10 + digit_value c) ltac:(lia)).
    replace (w0 * 10 + c - 0x30) with (w0 * 10 + digit_value c) by lia. rewrite i32_small by lia. apply IH; [lia|done].
Qed.

Definition longs_qualifier (longs : nat) : qualifier := match longs with O => QNone | 1%nat => Ql | _ => QL end.

Lemma parse_qualifier_ok longs letter rest :
  (longs <= 2)%nat -> letter <> 0x6c -> parse_qualifier (replicate longs 0x6c ++ letter :: rest) = (longs_qualifier longs, letter :: rest).
Proof.
  intros Hl Hc. destruct longs as [|[|[|]]]; [| | |lia]; cbn [replicate app parse_qualifier Z.eqb Pos.eqb];
    by rewrite ?(proj2 (Z.eqb_neq _ _) Hc).
Qed.

Lemma render_one_conv strings flags width longs letter arg rest args :
  piece_ok strings (Conv flags width longs letter arg) ->
  render_one isdigit strings (flags ++ width ++ replicate longs 0x6c ++ letter :: rest) args =
  let f := flag_word flags in
  if letter =? 0x25 then Some ([0x25], rest, args)
  else match args with
  | [] => None
  | a :: args =>
      if letter =? 0x63 then Some ([u8 a], rest, args)
      else if letter =? 0x73 then s ← strings (u64 a); Some (padded (has f LEFT) 0x20 (value 10 width) s, rest, args)
      else if letter =? 0x70 then Some (number_text (u64 a) 16 (value 10 width) (Z.lor f SPECIAL), rest, args)
      else let '(base, f) := conversion letter f in Some (number_text (take_arg (longs_qualifier longs) a) base (value 10 width) f, rest, args)
  end.
Proof.
  intros (Hf & Hw & Hw0 & Hv & Hl & Hk & _).
  assert (Hk' : letter <> 0x6c /\ letter <> 0x2d /\ isdigit letter = false).
  { unfold letters in Hk. repeat (apply elem_of_cons in Hk as [->|Hk]; [done|]). by apply elem_of_nil in Hk. }
  destruct Hk' as (Hk1 & Hk2 & Hk3). assert (Hk4 : letter <> 0x30) by (by intros ->).
  unfold render_one. rewrite parse_flags_ok; [|done|].
  - cbn [Z.lor]. rewrite parse_width_ok; [|done| |done|done].
    + fold (value 10 width). rewrite parse_qualifier_ok by done. reflexivity.
    + intros c. destruct longs; cbn [replicate app head]; intros [= <-]; done.
  - intros c Hc. destruct width as [|w width].
    + destruct longs; cbn [replicate app head] in Hc; injection Hc as <-; done.
    + cbn [app head] in *. injection Hc as <-. apply Forall_cons in Hw as [Hw _]. split; [lia|congruence].
Qed.

(** *** The numbers it prints *)

Lemma numeral_of num base type :
  2 <= base <= 36 -> 0 <= num < 2 ^ 64 ->
  let neg := has type SIGN && (2 ^ 63 <=? num) in
  exists ds, rev (number_tmp num base type) = prefix base type ++ (if neg then [0x2d] else []) ++ ds /\
    numeral (has type LARGE) base (if neg then 2 ^ 64 - num else num) ds.
Proof.
  intros Hb Hn neg. destruct (number_tmp_text num base type Hb Hn) as (ds & E & Hv & Hin & Hc).
  assert (Ei : i64 num = if 2 ^ 63 <=? num then num - 2 ^ 64 else num).
  { destruct (2 ^ 63 <=? num) eqn:El; zbool; [|apply i64_small; lia].
    unfold i64, swrap. change (64 - 1) with 63. replace (num + 2 ^ 63) with (num - 2 ^ 63 + 1 * 2 ^ 64) by lia.
    rewrite Z.mod_add by lia. rewrite Z.mod_small; lia. }
  assert (En : has type SIGN && (i64 num <? 0) = neg).
  { unfold neg. f_equal. rewrite Ei. destruct (2 ^ 63 <=? num) eqn:El; zbool; [apply Z.ltb_lt|apply Z.ltb_ge]; lia. }
  rewrite En in E, Hv. exists ds. split; [exact E|].
  split.
  - rewrite Hv. unfold neg in *. destruct (has type SIGN), (2 ^ 63 <=? num); cbn [andb] in *; rewrite ?Ei; lia.
  - apply Forall_forall. intros c (d & Hd & ->)%Hin. split; [|rewrite digit_value_digit; lia].
    unfold digit. set (ok := fun (t : bool) c => bool_decide (0x30 <= c <= 0x39 \/ (if t then 0x41 else 0x61) <= c <= (if t then 0x5a else 0x7a))).
    assert (Hall : forall t : bool, Forall (fun d => ok t (default 0 ((if t then large_digits else small_digits) !! Z.to_nat d)) = true) (seqZ 0 36)).
    { intros []; apply (bool_decide_unpack _); by vm_compute. }
    pose proof (Hall (has type LARGE)) as H. rewrite Forall_forall in H. specialize (H d ltac:(apply elem_of_seqZ; lia)).
    apply bool_decide_eq_true in H. by destruct (has type LARGE).
  - exact Hc.
Qed.

Lemma has_flag_word flags extra :
  extra ∈ [0; SPECIAL; SIGN; LARGE] ->
  let f := Z.lor (flag_word flags) extra in
  has f LEFT = bool_decide (0x2d ∈ flags) /\ has f ZEROPAD = bool_decide (0x30 ∈ flags) /\
  has f SPECIAL = (extra =? SPECIAL) /\ has f SIGN = (extra =? SIGN) /\ has f LARGE = (extra =? LARGE).
Proof.
  intros He f. unfold f, flag_word. rewrite !bool_decide_decide.
  repeat (apply elem_of_cons in He as [->|He]; [by do 2 case_decide|]). by apply elem_of_nil in He.
Qed.

(** The text of a number is its numeral in its field. *)
Lemma number_text_field flags width num base extra :
  2 <= base <= 36 -> 0 <= num < 2 ^ 64 -> extra ∈ [0; SPECIAL; SIGN; LARGE] ->
  let neg := (extra =? SIGN) && (2 ^ 63 <=? num) in
  exists ds, numeral (extra =? LARGE) base (if neg then 2 ^ 64 - num else num) ds /\
    number_text num base (value 10 width) (Z.lor (flag_word flags) extra) =
    in_field flags width (prefix base extra ++ (if neg then [0x2d] else []) ++ ds) (pad_of flags).
Proof.
  intros Hb Hn He neg. destruct (has_flag_word flags extra He) as (F1 & F2 & F3 & F4 & F5).
  destruct (numeral_of num base (Z.lor (flag_word flags) extra) Hb Hn) as (ds & E & Hnum).
  rewrite F4, F5 in *. fold neg in E, Hnum. exists ds. split; [exact Hnum|]. unfold number_text. rewrite E, F1, F2.
  assert (Ep : prefix base (Z.lor (flag_word flags) extra) = prefix base extra).
  { unfold prefix, digit. rewrite F3, F5. clear -He. repeat (apply elem_of_cons in He as [->|He]; [reflexivity|]). by apply elem_of_nil in He. }
  rewrite Ep. unfold in_field, pad_of. rewrite !bool_decide_decide. by do 2 case_decide.
Qed.

Lemma mod32 longs arg : take_arg (longs_qualifier longs) arg = arg mod 2 ^ (if decide (longs = 0%nat) then 32 else 64).
Proof. by destruct longs as [|[|]]. Qed.

(** The case of one numeric letter, where [H] gives its text. *)
Ltac letter_case Hk H :=
  apply elem_of_cons in Hk as [->|Hk];
  [edestruct H as (t & Ht & E); [unfold unsigned_letter; tauto|done..|]; exists t; split; [exact Ht|];
   cbn [Z.eqb Pos.eqb app conversion orb]; rewrite ?Z.lor_0_r in E; by rewrite E|].

(** What [render_one] prints for a piece is its text. *)
Lemma render_one_text strings flags width longs letter arg rest args :
  piece_ok strings (Conv flags width longs letter arg) ->
  exists t, piece_text strings (Conv flags width longs letter arg) t /\
    render_one isdigit strings (flags ++ width ++ replicate longs 0x6c ++ letter :: rest)
      (piece_args (Conv flags width longs letter arg) ++ args) = Some (t, rest, args).
Proof.
  intros Hp. rewrite render_one_conv with (arg := arg) by done. destruct Hp as (_ & _ & _ & _ & _ & Hk & Hs). cbn [piece_args].
  assert (Hr : 0 <= arg mod 2 ^ 64 < 2 ^ 64) by (apply Z.mod_pos_bound; lia).
  assert (Hr' : 0 <= take_arg (longs_qualifier longs) arg < 2 ^ 64).
  { rewrite mod32. case_decide; [pose proof (Z.mod_pos_bound arg (2 ^ 32) ltac:(lia)); lia|done]. }
  assert (E0 : flag_word flags = Z.lor (flag_word flags) 0) by (symmetry; apply Z.lor_0_r).
  unfold letters in Hk.
  apply elem_of_cons in Hk as [->|Hk]; [eexists; split; [constructor|reflexivity]|].
  apply elem_of_cons in Hk as [->|Hk]; [eexists; split; [constructor|reflexivity]|].
  apply elem_of_cons in Hk as [->|Hk].
  { destruct (Hs eq_refl) as [s Es]. cbn [Z.eqb Pos.eqb app]. change (u64 arg) with (arg mod 2 ^ 64). rewrite Es. some_bind.
    eexists. split; [by constructor|]. do 3 f_equal. rewrite E0. destruct (has_flag_word flags 0) as (-> & _); [set_solver|]. reflexivity. }
  apply elem_of_cons in Hk as [->|Hk].
  { destruct (number_text_field flags width (u64 arg) 16 SPECIAL) as (ds & Hnum & E); [lia|exact Hr|set_solver|].
    cbn [Z.eqb Pos.eqb app]. rewrite E. eexists. split; [by apply text_pointer, Hnum|reflexivity]. }
  assert (Hsig : forall letter, letter = 0x64 \/ letter = 0x69 -> exists t, piece_text strings (Conv flags width longs letter arg) t /\
    number_text (take_arg (longs_qualifier longs) arg) 10 (value 10 width) (Z.lor (flag_word flags) SIGN) = t).
  { intros l Hl. destruct (number_text_field flags width (take_arg (longs_qualifier longs) arg) 10 SIGN) as (ds & Hnum & E); [lia|done|set_solver|].
    rewrite E. eexists. split; [|reflexivity]. rewrite mod32 in *. cbn [Z.eqb Pos.eqb SIGN LARGE andb prefix has] in *. change (prefix 10 2) with (@nil Z). cbn [app].
    destruct (decide (longs = 0%nat)) as [->|Hn0].
    - pose proof (Z.mod_pos_bound arg (2 ^ 32) ltac:(lia)). rewrite (proj2 (Z.leb_gt _ _)) in * by lia. by apply text_int.
    - destruct (2 ^ 63 <=? arg mod 2 ^ 64) eqn:El; zbool; [by apply text_negative|by apply text_long]. }
  assert (Huns : forall letter base upper extra, unsigned_letter letter base upper -> extra = (if upper then LARGE else 0) -> exists t,
    piece_text strings (Conv flags width longs letter arg) t /\
    number_text (take_arg (longs_qualifier longs) arg) base (value 10 width) (Z.lor (flag_word flags) extra) = t).
  { intros l base upper extra Hl ->.
    destruct (number_text_field flags width (take_arg (longs_qualifier longs) arg) base (if upper then LARGE else 0)) as (ds & Hnum & E).
    - unfold unsigned_letter in Hl. lia.
    - done.
    - destruct upper; set_solver.
    - rewrite E. eexists. split; [|reflexivity]. rewrite mod32 in *. destruct upper; cbn [Z.eqb Pos.eqb SIGN LARGE andb] in *;
        [change (prefix base 64) with (@nil Z)|change (prefix base 0) with (@nil Z)]; cbn [app]; by apply (text_unsigned _ _ _ _ _ _ _ _ _ Hl). }
  letter_case Hk (Hsig 0x64). letter_case Hk (Hsig 0x69). letter_case Hk (Huns 0x75 10 false 0). letter_case Hk (Huns 0x78 16 false 0).
  letter_case Hk (Huns 0x58 16 true LARGE). letter_case Hk (Huns 0x6f 8 false 0).
  by apply elem_of_nil in Hk.
Qed.

Lemma render_call strings call rest fuel :
  Forall (piece_ok strings) call -> (length (format_of call) < fuel)%nat ->
  exists text, denotes strings call text /\ render isdigit strings fuel (format_of call) (args_of call ++ rest) = Some text.
Proof.
  intros Hf. revert fuel. induction Hf as [|p call Hp _ IH]; intros fuel Hl.
  { exists []. split; [exists []; by split; [constructor|]|by destruct fuel]. }
  destruct fuel as [|fuel]; [lia|]. unfold format_of, args_of in *. cbn [fmap list_fmap concat] in *. rewrite length_app in Hl.
  fold (format_of call) in *. fold (args_of call) in *.
  destruct p as [c|flags width longs letter arg].
  - destruct (IH fuel) as (text & (ts & Hts & ->) & Hr); [cbn in Hl; lia|]. exists (c :: concat ts). split.
    + exists ([c] :: ts). split; [|done]. constructor; [constructor|done].
    + cbn [piece_format piece_args app render] in *. rewrite (proj2 (Z.eqb_neq _ _) Hp), Hr. done.
  - destruct (IH fuel) as (text & (ts & Hts & ->) & Hr); [cbn in Hl; lia|].
    destruct (render_one_text strings flags width longs letter arg (format_of call) (args_of call ++ rest) Hp) as (t & Ht & E).
    exists (t ++ concat ts). split; [exists (t :: ts); split; [by constructor|done]|].
    cbn [piece_format app render Z.eqb Pos.eqb]. rewrite <- !app_assoc. cbn [app]. rewrite E. cbn [mbind option_bind]. by rewrite Hr.
Qed.

(** ** The properties *)

(** With room in the buffer [number] stores exactly the field: the sign and
    the prefix, then the digits of the value in the base with no leading zero,
    padded to the width on the side the flags ask for, and a final zero byte. *)
Theorem number_correct o end_ num base width type :
  2 <= base <= 36 -> 0 <= num < 2 ^ 64 ->
  str o + Z.of_nat (length (number_text num base width type)) <= end_ ->
  number o end_ num base width type = store (puts o (number_text num base width type)) 0 /\
  Z.of_nat (length (number_text num base width type)) = Z.max width (Z.of_nat (length (number_tmp num base type))) /\
  let neg := has type SIGN && (i64 num <? 0) in
  exists ds, rev (number_tmp num base type) = prefix base type ++ (if neg then [0x2d] else []) ++ ds /\
    value base ds = (if neg then - i64 num else num) /\
    (forall c, c ∈ ds -> exists d, 0 <= d < base /\ c = digit type d) /\
    (ds = [0x30] \/ exists c rest, ds = c :: rest /\ c <> 0x30).
Proof.
  intros Hb Hn Hend. split; [by apply number_ok|]. split; [|by apply number_tmp_text].
  unfold number_text. by rewrite length_padded, length_rev.
Qed.

(** C23: every call of the formatter with the conversions % c s p d i u x X o, any
    flags - and 0, any width below [2^31] and none, one or two letters l denotes one
    text: each conversion the numeral of its argument in its base, the string or the
    character, padded to its width; an argument without l is taken as its low 32 bits,
    without a sign even for d and i.  If the text is shorter than the size, [vsnprintf] of
    the libc and of the kernel terminate, return its length and store the text, a final
    zero byte and nothing else. *)
Theorem vsnprintf_correct strings size call rest :
  Forall (piece_ok strings) call -> size <= INT_MAX ->
  exists text, denotes strings call text /\ (forall text', denotes strings call text' -> text' = text) /\
    (Z.of_nat (length text) < size ->
     exists b, libc_vsnprintf strings size (format_of call) (args_of call ++ rest) = Some (Z.of_nat (length text), b) /\
       kernel_vsnprintf strings size (format_of call) (args_of call ++ rest) = Some (Z.of_nat (length text), b) /\ holds b text).
Proof.
  intros Hc Hs. destruct (render_call strings call rest (S (length (format_of call))) Hc ltac:(lia)) as (text & Hd & Hr).
  exists text. split; [done|]. split; [intros t' Ht'; by eapply denotes_unique|]. intros Hl.
  destruct (vsnprintf_ok isdigit strings size _ _ text Hr) as (b & E & Hb); [lia|]. exists b. by split.
Qed.

(** The size does not bound literal characters: a format without conversions
    is stored whole, with its final zero byte, whatever the size. *)
Theorem vsnprintf_literal_overflow isdigit strings size fmt args :
  (forall c, c ∈ fmt -> c <> 0x25) -> Z.of_nat (length fmt) <= INT_MAX ->
  exists b, vsnprintf isdigit strings size fmt args = Some (Z.of_nat (length fmt), b) /\ holds b fmt.
Proof.
  intros Hc Hl. unfold vsnprintf. rewrite literal_loop by (done || lia). some_bind. eexists. split; [|apply holds_puts].
  rewrite str_puts. cbn [str]. unfold INT_MAX in Hl. rewrite i32_small by lia. done.
Qed.

(** A plain percent-d reads its argument as an [unsigned int], so a negative
    [int] is printed as the value plus [2^32] and never with a minus sign. *)
Theorem percent_d_negative isdigit strings n :
  isdigit 0x64 = false -> - 2 ^ 31 <= n < 0 ->
  exists ds b, vsnprintf isdigit strings 1024 [0x25; 0x64] [u64 n] = Some (Z.of_nat (length ds), b) /\
    holds b ds /\ value 10 ds = 2 ^ 32 + n.
Proof.
  intros Hd Hn. destruct (percent_d_ok isdigit strings 1024 (u64 n) Hd ltac:(unfold INT_MAX; lia)) as (ds & b & Hrun & Hb & Hv & _).
  exists ds, b. split; [done|]. split; [done|]. rewrite Hv. unfold u32, u64, uwrap.
  rewrite (Z.mod_mod_divide n (2 ^ 64) (2 ^ 32)) by (exists (2 ^ 32); reflexivity).
  replace n with (2 ^ 32 + n + (-1) * 2 ^ 32) at 1 by lia. rewrite Z.mod_add by lia. apply Z.mod_small. lia.
Qed.

Lemma number_correct_witness :
  number (mk_out ∅ 0) 64 255 16 6 (Z.lor ZEROPAD SPECIAL) = store (puts (mk_out ∅ 0) [0x30; 0x30; 0x30; 0x78; 0x66; 0x66]) 0.
Proof.
  destruct (number_correct (mk_out ∅ 0) 64 255 16 6 (Z.lor ZEROPAD SPECIAL)) as [H _]; [lia|lia|vm_compute; discriminate|].
  exact H.
Defined.

(** "x=%5d" of 42 and "%-4lX" of 255 *)
Definition two_numbers : list piece :=
  [Lit 0x78; Lit 0x3d; Conv [] [0x35] 0 0x64 42; Conv [0x2d] [0x34] 1 0x58 255].

Lemma vsnprintf_correct_witness :
  exists b, libc_vsnprintf (fun _ => None) 64 [0x78; 0x3d; 0x25; 0x35; 0x64; 0x25; 0x2d; 0x34; 0x6c; 0x58] [42; 255] = Some (11, b) /\
    holds b [0x78; 0x3d; 0x20; 0x20; 0x20; 0x34; 0x32; 0x46; 0x46; 0x20; 0x20].
Proof.
  destruct (vsnprintf_correct (fun _ => None) 64 two_numbers []) as (text & _ & Hu & Hrun).
  - repeat constructor; try lia; try discriminate; try (vm_compute; reflexivity || discriminate).
    all: try (apply (bool_decide_unpack _); vm_compute; exact I).
  - vm_compute. discriminate.
  - assert (Hd : denotes (fun _ => None) two_numbers [0x78; 0x3d; 0x20; 0x20; 0x20; 0x34; 0x32; 0x46; 0x46; 0x20; 0x20]).
    { exists [[0x78]; [0x3d]; [0x20; 0x20; 0x20; 0x34; 0x32]; [0x46; 0x46; 0x20; 0x20]]. split; [|reflexivity].
      constructor; [constructor|]. constructor; [constructor|].
      constructor; [apply (text_int _ [] [0x35] 0x64 42 [0x34; 0x32]); [by left|]; split; [reflexivity|repeat constructor; cbn; lia|right; by exists 0x34, [0x32]]|].
      constructor; [|constructor]. apply (text_unsigned _ [0x2d] [0x34] 1 0x58 255 16 true [0x46; 0x46]); [unfold unsigned_letter; lia|].
      split; [reflexivity|repeat constructor; cbn; lia|right; by exists 0x46, [0x46]]. }
    rewrite <- (Hu _ Hd) in Hrun. destruct Hrun as (b & H1 & _ & H2); [vm_compute; reflexivity|]. exists b. split; [exact H1|exact H2].
Defined.

(** Four characters into a buffer of two. *)
Lemma vsnprintf_literal_overflow_witness :
  exists b, kernel_vsnprintf (fun _ => None) 2 [0x61; 0x62; 0x63; 0x64] [] = Some (4, b) /\ b !! 3 = Some 0x64.
Proof.
  destruct (vsnprintf_literal_overflow isdigit (fun _ => None) 2 [0x61; 0x62; 0x63; 0x64] []) as (b & H1 & H2 & _).
  - intros c Hc ->. repeat (apply elem_of_cons in Hc as [Hc|Hc]; [discriminate Hc|]). by apply elem_of_nil in Hc.
  - unfold INT_MAX. cbn. lia.
  - exists b. split; [exact H1|]. exact (H2 3%nat ltac:(cbn; lia)).
Defined.

Lemma percent_d_negative_witness :
  exists ds b, kernel_vsnprintf (fun _ => None) 1024 [0x25; 0x64] [u64 (-1)] = Some (Z.of_nat (length ds), b) /\
    value 10 ds = 4294967295.
Proof.
  destruct (percent_d_negative isdigit (fun _ => None) (-1) eq_refl ltac:(lia)) as (ds & b & H & _ & Hv).
  exists ds, b. split; [exact H|exact Hv].
Defined.
