(* ===== verification/Sched.v ===== *)
(** * Processes and the scheduler: [core/sched.c], [include/kernel/sched.h],
      [include/kernel/ipc.h]

    Processes are records by the address of their [proc_t]; [proc_head] and the
    buckets of the hash table are the sequences of the processes linked in them.
    [schedule] returns the process that [switch_to] continues. *)

From S2P Require Import Prelude.

(** ** Messages *)

Definition IPC_NOWAIT : Z := 0.
Definition IPC_INIT : Z := 1.
Definition IPC_VFS : Z := 2.
Definition IPC_DISK : Z := 3.
Definition IPC_KB : Z := 4.
Definition IPC_VIDEO : Z := 5.
Definition IPC_MM : Z := 6.
Definition IPC_EXT2 : Z := 7.
Definition IPC_SIGNAL : Z := 0x0ffffffc.
Definition IPC_INTR : Z := 0x0ffffffd.
Definition IPC_ALL : Z := 0x0ffffffe.
Definition IPC_KERNEL : Z := 0x0fffffff.

Definition MSG_FORK : Z := 5.
Definition MSG_EXECVE : Z := 6.
Definition MSG_EXIT : Z := 8.
Definition MSG_WAIT : Z := 9.
Definition MSG_BRK : Z := 10.
Definition MSG_GETPID : Z := 11.
Definition MSG_IRQ : Z := 258.
Definition MSG_INTR : Z := 259.
Definition MSG_FORKFS : Z := 264.
Definition MSG_FREEFS : Z := 265.
Definition MSG_KMAP : Z := 267.
Definition IRQ_REGISTER : Z := 1.
Definition IRQ_UNREGISTER : Z := 2.
Definition INTR_OK : Z := 1.

(** The union of the message structures. *)
Inductive msg_body :=
  | m_none
  | m_read (fd buf size : Z)
  | m_write (fd buf size : Z)
  | m_open (filepath oflag mode : Z)
  | m_close (fd : Z)
  | m_lseek (fd offset whence : Z)
  | m_execve (pathname argv envp : Z)
  | m_exit (status : Z)
  | m_wait (statloc : Z)
  | m_brk (addr : Z)
  | m_getcwd (buf size : Z)
  | m_chdir (pathname : Z)
  | m_stat (pathname buf : Z)
  | m_getdents (fd dirp count : Z)
  | m_mkdir (name mode : Z)
  | m_bdev_transfer (pos buffer size write : Z)
  | m_bdev_part (part pos buffer size : Z)
  | m_irq (type irq_no : Z)
  | m_intr (type : Z)
  | m_fs_mnt (part dentry : Z)
  | m_fs_read (inode fsize offset buf size : Z)
  | m_fs_write (inode fsize offset buf size : Z)
  | m_fs_lookup (pino filename dentry : Z)
  | m_fs_stat (inode buf : Z)
  | m_fs_getdents (inode nbytes offset buf : Z)
  | m_fs_mkdir (ino name mode : Z)
  | m_forkfs (pid : Z)
  | m_kmap (addr1 addr2 addr3 : Z).

(** [type] and [retval] share a word of the C structure. *)
Record message := mk_message { src : Z; mtype : Z; body : msg_body }.

(** ** Processes *)

Definition PROC_RUNNABLE : Z := Z.shiftl 1 0.
Definition PROC_RUNNING : Z := Z.shiftl 1 1.
Definition PROC_SENDING : Z := Z.shiftl 1 2.
Definition PROC_RECEIVING : Z := Z.shiftl 1 3.
Definition PROC_STOPPED : Z := Z.shiftl 1 4.
Definition PF_KTHREAD : Z := Z.shiftl 1 0.
Definition NEED_SCHEDULE : Z := Z.shiftl 1 1.
Definition PF_IDLE : Z := Z.shiftl 1 2.
Definition HZ : Z := 100.
Definition PROC_HASH_MAP_SIZE : Z := 256.

Record pseg := mk_pseg { seg_flags : Z; vstart : Z; vend : Z }.

Record proc_mm := mk_mm {
  mm_flags : Z; pgd : Z; psegs : list pseg;
  start_brk : Z; brk : Z; start_stack : Z; end_stack : Z }.

(** The fields of [proc_t] by the part of the kernel that uses them. *)
Record sched_part := mk_sched { state : Z; flags : Z; counter : Z; alarm : Z }.
Record ipc_part := mk_ipc { wait : Z; wait_proc : list Z; has_intr : Z; msg : message; signal : Z }.

Record proc_t := mk_proc {
  pid : Z;
  sched : sched_part;
  ipc : ipc_part;
  parent : Z;
  children : list Z;
  exit_status : Z;
  mm : proc_mm }.

Definition with_sched (p : proc_t) (s : sched_part) : proc_t :=
  mk_proc (pid p) s (ipc p) (parent p) (children p) (exit_status p) (mm p).
Definition set_state (p : proc_t) (v : Z) : proc_t :=
  with_sched p (mk_sched v (flags (sched p)) (counter (sched p)) (alarm (sched p))).
Definition set_flags (p : proc_t) (v : Z) : proc_t :=
  with_sched p (mk_sched (state (sched p)) v (counter (sched p)) (alarm (sched p))).
Definition set_counter (p : proc_t) (v : Z) : proc_t :=
  with_sched p (mk_sched (state (sched p)) (flags (sched p)) v (alarm (sched p))).
Definition set_alarm (p : proc_t) (v : Z) : proc_t :=
  with_sched p (mk_sched (state (sched p)) (flags (sched p)) (counter (sched p)) v).

(** ** The process tables *)

Record ptable := mk_ptable {
  procs : gmap Z proc_t;
  proc_head : list Z;
  proc_hash : list (list Z);
  proc_idle : list Z;
  ticks : Z }.

Definition set_procs (t : ptable) (m : gmap Z proc_t) : ptable :=
  mk_ptable m (proc_head t) (proc_hash t) (proc_idle t) (ticks t).
Definition set_proc (t : ptable) (a : Z) (p : proc_t) : ptable := set_procs t (<[a := p]> (procs t)).
Definition set_head (t : ptable) (l : list Z) : ptable :=
  mk_ptable (procs t) l (proc_hash t) (proc_idle t) (ticks t).
Definition set_hash (t : ptable) (h : list (list Z)) : ptable :=
  mk_ptable (procs t) (proc_head t) h (proc_idle t) (ticks t).

(** [list_del] of a process from a list. *)
Definition remove (a : Z) (l : list Z) : list Z := filter (fun x => x <> a) l.

(** [pid_t] is signed: a negative remainder indexes before the table. *)
Definition bucket_of (pid : Z) : nat := Z.to_nat (Z.rem pid PROC_HASH_MAP_SIZE).
Definition bucket (t : ptable) (pid : Z) : option (list Z) :=
  if Z.rem pid PROC_HASH_MAP_SIZE <? 0 then None else proc_hash t !! bucket_of pid.

(** The first process of a bucket with the pid; NULL for none. *)
Fixpoint find_pid (m : gmap Z proc_t) (l : list Z) (p : Z) : option Z :=
  match l with
  | [] => Some NULL
  | a :: l => pr ← m !! a; if pid pr =? p then Some a else find_pid m l p
  end.

Definition map_proc (t : ptable) (p : Z) : option Z :=
  l ← bucket t p; find_pid (procs t) l p.

Definition hash_proc (t : ptable) (a : Z) : option ptable :=
  pr ← procs t !! a;
  l ← bucket t (pid pr);
  Some (set_hash t (<[bucket_of (pid pr) := l ++ [a]]> (proc_hash t))).

Definition unmap_proc (t : ptable) (p : Z) : option ptable :=
  a ← map_proc t p;
  if a =? NULL then Some t
  else l ← bucket t p; Some (set_hash t (<[bucket_of p := remove a l]> (proc_hash t))).

Definition ticks_plus (t : ptable) : ptable :=
  mk_ptable (procs t) (proc_head t) (proc_hash t) (proc_idle t) (u64 (ticks t + 1)).

(** The body of the loop of [update_alarm]. *)
Definition tick_alarm (p : proc_t) : proc_t :=
  if alarm (sched p) =? 0 then p
  else
    let p := set_alarm p (alarm (sched p) - 1) in
    if alarm (sched p) =? 0 then set_state p PROC_RUNNING else p.

Definition update_alarm (t : ptable) : ptable :=
  foldl (fun t a => match procs t !! a with Some p => set_proc t a (tick_alarm p) | None => t end) t (proc_head t).

(** ** [schedule] *)

(** The first runnable process of the queue. *)
Fixpoint pick (m : gmap Z proc_t) (l : list Z) : option (option Z) :=
  match l with
  | [] => Some None
  | a :: l => p ← m !! a; if state (sched p) =? PROC_RUNNABLE then Some (Some a) else pick m l
  end.

(** [prev] is [current] on the processor [cpu]; the result is the process that
    runs next.  The lock is taken and released inside. *)
Definition schedule (t : ptable) (cpu prev : Z) : option (Z * ptable) :=
  p ← procs t !! prev;
  let p := set_flags p (Z.land (flags (sched p)) (Z.lnot NEED_SCHEDULE)) in
  let p := if state (sched p) =? PROC_RUNNING then set_state p PROC_RUNNABLE else p in
  let t := set_proc t prev p in
  let t := if Z.land (flags (sched p)) PF_IDLE =? 0 then set_head t (remove prev (proc_head t) ++ [prev]) else t in
  next ← pick (procs t) (proc_head t);
  t ← match next with
      | Some a => q ← procs t !! a; Some (set_proc t a (set_state q PROC_RUNNING))
      | None => Some t
      end;
  next ← match next with Some a => Some a | None => proc_idle t !! Z.to_nat cpu end;
  q ← procs t !! next;
  Some (next, set_proc t next (set_counter q 1)).

(** The system calls that put the caller to sleep. *)
Definition sys_sleep (t : ptable) (cpu cur type n : Z) : option (Z * Z * ptable) :=
  p ← procs t !! cur;
  if (type =? 0) || (type =? 1) then
    let p := set_alarm p (if type =? 0 then u64 (n * HZ) else n / (1000 / HZ)) in
    r ← schedule (set_proc t cur (set_state p PROC_SENDING)) cpu cur;
    Some (0, r.1, r.2)
  else Some (-1, cur, t).

Definition sys_pause (t : ptable) (cpu cur : Z) : option (Z * Z * ptable) :=
  p ← procs t !! cur;
  r ← schedule (set_proc t cur (set_state p PROC_SENDING)) cpu cur;
  Some (0, r.1, r.2).

Definition sys_getticks (t : ptable) : Z := ticks t.

(** ** The hash table is a map from pids *)

Definition hashed (t : ptable) (a : Z) : Prop := exists l, l ∈ proc_hash t /\ a ∈ l.

Record hash_ok (t : ptable) : Prop := {
  ho_len : length (proc_hash t) = Z.to_nat PROC_HASH_MAP_SIZE;
  ho_in : forall k l a, proc_hash t !! k = Some l -> a ∈ l ->
    a <> NULL /\ exists p, procs t !! a = Some p /\ bucket_of (pid p) = k;
  ho_nodup : forall k l, proc_hash t !! k = Some l -> NoDup l;
  ho_pid : forall a b p q, hashed t a -> hashed t b -> procs t !! a = Some p -> procs t !! b = Some q ->
    pid p = pid q -> a = b }.

Lemma bucket_lt p : 0 <= p -> (bucket_of p < Z.to_nat PROC_HASH_MAP_SIZE)%nat.
Proof. intros. unfold bucket_of. pose proof (Z.rem_bound_pos p PROC_HASH_MAP_SIZE ltac:(done) ltac:(done)). lia. Qed.

Lemma bucket_nonneg t p : 0 <= p -> bucket t p = proc_hash t !! bucket_of p.
Proof.
  intros. unfold bucket. pose proof (Z.rem_bound_pos p PROC_HASH_MAP_SIZE ltac:(done) ltac:(done)).
  case_if; zbool; [lia|done].
Qed.

Lemma find_pid_spec m l p :
  (forall a, a ∈ l -> a <> NULL /\ is_Some (m !! a)) ->
  exists a, find_pid m l p = Some a /\
    (a = NULL /\ (forall b q, b ∈ l -> m !! b = Some q -> pid q <> p) \/
     a <> NULL /\ a ∈ l /\ exists q, m !! a = Some q /\ pid q = p).
Proof.
  induction l as [|x l IH]; intros Hl; cbn [find_pid].
  { exists NULL. split; [done|]. left. split; [done|]. set_solver. }
  destruct (Hl x ltac:(set_solver)) as [Hx [px Hpx]]. rewrite Hpx. some_bind.
  destruct (pid px =? p) eqn:E; zbool.
  - exists x. split; [done|]. right. split; [done|]. split; [set_solver|by exists px].
  - destruct IH as (a & -> & Ha); [set_solver|]. exists a. split; [done|]. destruct Ha as [[-> Hn]|(? & ? & ?)].
    + left. split; [done|]. intros b q [->|Hb]%elem_of_cons Hq; [congruence|by apply (Hn b)].
    + right. set_solver.
Qed.

Lemma hashed_bucket t a p : hash_ok t -> hashed t a -> procs t !! a = Some p ->
  exists l, proc_hash t !! bucket_of (pid p) = Some l /\ a ∈ l.
Proof.
  intros H (l & Hl & Ha) Hp. apply list_elem_of_lookup in Hl as [k Hk].
  destruct (ho_in _ H k l a Hk Ha) as [_ (p' & Hp' & <-)]. simplify_eq. by exists l.
Qed.

(** [map_proc] finds the hashed process of a pid. *)
Lemma map_proc_ok t p :
  hash_ok t -> 0 <= p ->
  exists a, map_proc t p = Some a /\
    (a = NULL /\ (forall b q, hashed t b -> procs t !! b = Some q -> pid q <> p) \/
     a <> NULL /\ hashed t a /\ exists q, procs t !! a = Some q /\ pid q = p).
Proof.
  intros H Hp0. unfold map_proc. rewrite bucket_nonneg by done.
  destruct (lookup_lt_is_Some_2 (proc_hash t) (bucket_of p)) as [l Hl]; [rewrite (ho_len _ H); by apply bucket_lt|].
  rewrite Hl. some_bind. destruct (find_pid_spec (procs t) l p) as (a & -> & Ha).
  { intros a Ha. destruct (ho_in _ H _ l a Hl Ha) as [? (q & ? & _)]. split; [done|by exists q]. }
  exists a. split; [done|]. destruct Ha as [[-> Hn]|(Hnz & Ha & q & Hq & Hp)].
  - left. split; [done|]. intros b q Hb Hq Hp. destruct (hashed_bucket t b q H Hb Hq) as (l' & Hl' & Hin).
    rewrite Hp, Hl in Hl'. injection Hl' as <-. by apply (Hn b q).
  - right. split; [done|]. split; [|by exists q]. exists l. split; [by eapply list_elem_of_lookup_2|done].
Qed.

Lemma hashed_update t k l l' a :
  proc_hash t !! k = Some l ->
  hashed (set_hash t (<[k := l']> (proc_hash t))) a <->
  a ∈ l' \/ exists j m, j <> k /\ proc_hash t !! j = Some m /\ a ∈ m.
Proof.
  intros Hk. unfold hashed. cbn [set_hash proc_hash]. pose proof (lookup_lt_Some _ _ _ Hk). split.
  - intros (m & Hm & Ha). apply list_elem_of_lookup in Hm as [j Hj]. destruct (decide (j = k)) as [->|Hne].
    + rewrite list_lookup_insert_eq in Hj by done. injection Hj as <-. by left.
    + rewrite list_lookup_insert_ne in Hj by done. right. by exists j, m.
  - intros [Ha|(j & m & Hne & Hj & Ha)].
    + exists l'. split; [|done]. apply list_elem_of_lookup. exists k. by apply list_lookup_insert_eq.
    + exists m. split; [|done]. apply list_elem_of_lookup. exists j. by rewrite list_lookup_insert_ne.
Qed.

Lemma hashed_split t k l a :
  proc_hash t !! k = Some l ->
  hashed t a <-> a ∈ l \/ exists j m, j <> k /\ proc_hash t !! j = Some m /\ a ∈ m.
Proof.
  intros Hk. rewrite <- (hashed_update t k l l a Hk). rewrite list_insert_id by done. by destruct t.
Qed.

Lemma hash_ok_update t k l l' :
  hash_ok t -> proc_hash t !! k = Some l -> NoDup l' ->
  (forall a, a ∈ l' -> a <> NULL /\ exists p, procs t !! a = Some p /\ bucket_of (pid p) = k) ->
  (forall a b p q, hashed (set_hash t (<[k := l']> (proc_hash t))) a -> hashed (set_hash t (<[k := l']> (proc_hash t))) b ->
     procs t !! a = Some p -> procs t !! b = Some q -> pid p = pid q -> a = b) ->
  hash_ok (set_hash t (<[k := l']> (proc_hash t))).
Proof.
  intros [H1 H2 H3 H4] Hk Hn Hl' Hpid. pose proof (lookup_lt_Some _ _ _ Hk).
  split; cbn [set_hash proc_hash procs]; [by rewrite length_insert|..|done].
  - intros j m a Hj Ha. destruct (decide (j = k)) as [->|Hne].
    + rewrite list_lookup_insert_eq in Hj by done. injection Hj as <-. by apply Hl'.
    + rewrite list_lookup_insert_ne in Hj by done. by apply (H2 j m).
  - intros j m Hj. destruct (decide (j = k)) as [->|Hne].
    + rewrite list_lookup_insert_eq in Hj by done. by injection Hj as <-.
    + rewrite list_lookup_insert_ne in Hj by done. by apply (H3 j m).
Qed.

Lemma hash_proc_ok t a p :
  hash_ok t -> procs t !! a = Some p -> a <> NULL -> 0 <= pid p ->
  (forall b q, hashed t b -> procs t !! b = Some q -> pid q <> pid p) ->
  exists t', hash_proc t a = Some t' /\ hash_ok t' /\ procs t' = procs t /\
    forall b, hashed t' b <-> hashed t b \/ b = a.
Proof.
  intros H Ha Hnz Hp0 Hfresh. unfold hash_proc. rewrite Ha. some_bind. rewrite bucket_nonneg by done.
  destruct (lookup_lt_is_Some_2 (proc_hash t) (bucket_of (pid p))) as [l Hl]; [rewrite (ho_len _ H); by apply bucket_lt|].
  rewrite Hl. some_bind. eexists. split; [done|].
  assert (Hiff : forall b, hashed (set_hash t (<[bucket_of (pid p) := l ++ [a]]> (proc_hash t))) b <-> hashed t b \/ b = a).
  { intros b. rewrite (hashed_update t _ l) by done. rewrite (hashed_split t _ l) by done.
    rewrite elem_of_app, list_elem_of_singleton. tauto. }
  assert (Hna : ~ hashed t a) by (intros Hin; by apply (Hfresh a p)).
  split; [|split; [done|exact Hiff]]. apply (hash_ok_update t _ l); try done.
  - apply NoDup_app. split; [by eapply ho_nodup|]. split; [|apply NoDup_singleton].
    intros x Hx ->%list_elem_of_singleton. apply Hna. exists l. split; [by eapply list_elem_of_lookup_2|done].
  - intros x [Hx| ->%list_elem_of_singleton]%elem_of_app; [by apply (ho_in _ H _ l)|]. split; [done|by exists p].
  - intros x y px py. rewrite !Hiff. intros [Hx| ->] [Hy| ->] Ex Ey E; try done; simplify_eq.
    + by apply (ho_pid _ H x y px py).
    + by destruct (Hfresh x px Hx Ex).
    + by destruct (Hfresh y py Hy Ey).
Qed.

Lemma elem_remove x a l : x ∈ remove a l <-> x <> a /\ x ∈ l.
Proof. unfold remove. by rewrite list_elem_of_filter. Qed.

Lemma unmap_proc_ok t p :
  hash_ok t -> 0 <= p ->
  exists t', unmap_proc t p = Some t' /\ hash_ok t' /\ procs t' = procs t /\
    forall b q, procs t !! b = Some q -> hashed t' b <-> hashed t b /\ pid q <> p.
Proof.
  intros H Hp0. unfold unmap_proc. destruct (map_proc_ok t p H Hp0) as (a & -> & Ha). some_bind.
  destruct Ha as [[-> Hn]|(Hnz & Ha & q & Hq & <-)]; cbn [Z.eqb NULL].
  { exists t. split; [done|]. split; [done|]. split; [done|]. intros b q Hq. split; [|tauto]. intros Hb. split; [done|by apply (Hn b)]. }
  rewrite (proj2 (Z.eqb_neq a NULL) Hnz). destruct (hashed_bucket t a q H Ha Hq) as (l & Hl & Hin). rewrite bucket_nonneg, Hl by done. some_bind.
  eexists. split; [done|].
  assert (Hiff : forall b, hashed (set_hash t (<[bucket_of (pid q) := remove a l]> (proc_hash t))) b <-> hashed t b /\ b <> a).
  { intros b. rewrite (hashed_update t _ l) by done. rewrite (hashed_split t _ l) by done. rewrite elem_remove.
    split; [|tauto]. intros [[? ?]|(j & m & Hj & Hm & Hb)]; [tauto|]. split; [right; by exists j, m|]. intros ->.
    destruct (ho_in _ H j m a Hm Hb) as [_ (q' & ? & E)]. by simplify_eq. }
  split; [|split; [done|]].
  - apply (hash_ok_update t _ l); try done.
    + apply NoDup_filter. by eapply ho_nodup.
    + intros x [_ Hx]%elem_remove. by apply (ho_in _ H _ l).
    + intros x y px py. rewrite !Hiff. intros [Hx _] [Hy _]. by apply (ho_pid _ H).
  - intros b qb Hqb. rewrite Hiff. split; intros [Hb Hne]; (split; [done|]).
    + intros E. apply Hne. by apply (ho_pid _ H b a qb q).
    + intros ->. congruence.
Qed.

(** ** Round robin on one processor *)

Definition is_idle (p : proc_t) : bool := negb (Z.land (flags (sched p)) PF_IDLE =? 0).

(** The queue of processor [cpu]: idle is outside it, every process of it is there
    once, and only the current one is running. *)
Record sched_ok (t : ptable) (cpu cur : Z) : Prop := {
  so_idle : exists a p, proc_idle t !! Z.to_nat cpu = Some a /\ procs t !! a = Some p /\ is_idle p = true /\ a ∉ proc_head t;
  so_nodup : NoDup (proc_head t);
  so_queue : forall a, a ∈ proc_head t -> exists p, procs t !! a = Some p /\ is_idle p = false /\
    (state (sched p) = PROC_RUNNING -> a = cur);
  so_cur : cur ∈ proc_head t \/ proc_idle t !! Z.to_nat cpu = Some cur }.

Definition runnable (t : ptable) (a : Z) : Prop :=
  exists p, procs t !! a = Some p /\ state (sched p) = PROC_RUNNABLE.

Lemma pick_spec m l :
  (forall a, a ∈ l -> is_Some (m !! a)) ->
  exists r, pick m l = Some r /\
    match r with
    | None => forall a p, a ∈ l -> m !! a = Some p -> state (sched p) <> PROC_RUNNABLE
    | Some a => exists l1 l2 p, l = l1 ++ a :: l2 /\ m !! a = Some p /\ state (sched p) = PROC_RUNNABLE /\
        forall b q, b ∈ l1 -> m !! b = Some q -> state (sched q) <> PROC_RUNNABLE
    end.
Proof.
  induction l as [|x l IH]; intros Hl; cbn [pick].
  { exists None. split; [done|]. set_solver. }
  destruct (Hl x ltac:(set_solver)) as [px Hx]. rewrite Hx. some_bind. destruct (state (sched px) =? PROC_RUNNABLE) eqn:E; zbool.
  - exists (Some x). split; [done|]. exists [], l, px. split; [done|]. split; [done|]. split; [done|]. set_solver.
  - destruct IH as (r & -> & Hr); [set_solver|]. exists r. split; [done|]. destruct r as [a|].
    + destruct Hr as (l1 & l2 & p & -> & Ha & Hs & Hb). exists (x :: l1), l2, p. split; [done|]. split; [done|]. split; [done|].
      intros b q [->|Hb']%elem_of_cons Hq; [congruence|by apply (Hb b)].
    + intros a p [->|Ha]%elem_of_cons Hp; [congruence|by apply (Hr a)].
Qed.

(** The process as [schedule] leaves it when it gives up the processor. *)
Definition preempted (p : proc_t) : proc_t :=
  let p := set_flags p (Z.land (flags (sched p)) (Z.lnot NEED_SCHEDULE)) in
  if state (sched p) =? PROC_RUNNING then set_state p PROC_RUNNABLE else p.

Lemma preempted_flags p : is_idle (preempted p) = is_idle p.
Proof.
  unfold preempted. assert (E : Z.land (Z.land (flags (sched p)) (Z.lnot NEED_SCHEDULE)) PF_IDLE = Z.land (flags (sched p)) PF_IDLE).
  { rewrite <- Z.land_assoc. f_equal. }
  unfold is_idle. case_if; cbn [set_state set_flags with_sched sched flags]; by rewrite E.
Qed.

Lemma preempted_state p : state (sched (preempted p)) = if state (sched p) =? PROC_RUNNING then PROC_RUNNABLE else state (sched p).
Proof. unfold preempted. cbn [set_flags with_sched sched state]. by case_if. Qed.

(** The queue after the current process went to its end. *)
Definition rotated (t : ptable) (cur : Z) (p : proc_t) : list Z :=
  if is_idle p then proc_head t else remove cur (proc_head t) ++ [cur].

Lemma remove_not_in a l : a ∉ l -> remove a l = l.
Proof.
  unfold remove. induction l as [|x l IH]; [done|]. intros [Hx Hl]%not_elem_of_cons.
  rewrite filter_cons, decide_True by done. by rewrite IH.
Qed.

Lemma rotated_elem t cpu cur p a : sched_ok t cpu cur -> procs t !! cur = Some p -> a ∈ rotated t cur p <-> a ∈ proc_head t.
Proof.
  intros H Hp. unfold rotated. destruct (is_idle p) eqn:E; [done|].
  rewrite elem_of_app, elem_remove, list_elem_of_singleton. split; [|destruct (decide (a = cur)); tauto].
  intros [[_ ?]| ->]; [done|]. destruct (so_cur _ _ _ H) as [|Hc]; [done|].
  destruct (so_idle _ _ _ H) as (b & q & Hb & Hq & Hi & _). rewrite Hc in Hb. injection Hb as ->. congruence.
Qed.

Lemma rotated_nodup t cpu cur p : sched_ok t cpu cur -> NoDup (rotated t cur p).
Proof.
  intros H. unfold rotated. destruct (is_idle p); [apply H|]. apply NoDup_app.
  split; [apply NoDup_filter, H|]. split; [|apply NoDup_singleton].
  intros x [Hx _]%elem_remove ->%list_elem_of_singleton. done.
Qed.

(** What one call of [schedule] does. *)
Definition sched_post (t : ptable) (cpu cur next : Z) (t' : ptable) : Prop :=
  exists p, procs t !! cur = Some p /\ proc_head t' = rotated t cur p /\ proc_idle t' = proc_idle t /\
    sched_ok t' cpu next /\
    (forall a q, a <> cur -> a <> next -> procs t !! a = Some q -> procs t' !! a = Some q) /\
    (forall a, is_Some (procs t' !! a) <-> is_Some (procs t !! a)) /\
    let m := <[cur := preempted p]> (procs t) in
    ((exists l1 l2 q, rotated t cur p = l1 ++ next :: l2 /\ m !! next = Some q /\ state (sched q) = PROC_RUNNABLE /\
        (forall b q, b ∈ l1 -> m !! b = Some q -> state (sched q) <> PROC_RUNNABLE)) \/
     (proc_idle t !! Z.to_nat cpu = Some next /\
        forall b q, b ∈ rotated t cur p -> m !! b = Some q -> state (sched q) <> PROC_RUNNABLE)).

Lemma preempted_not_running p : state (sched (preempted p)) <> PROC_RUNNING.
Proof. rewrite preempted_state. case_if; done. Qed.

(** The processor goes to [next] and everything else is as [preempted] left it. *)
Lemma sched_ok_switch t cpu cur p next q :
  sched_ok t cpu cur -> procs t !! cur = Some p ->
  <[cur := preempted p]> (procs t) !! next = Some q ->
  (next ∈ rotated t cur p \/ proc_idle t !! Z.to_nat cpu = Some next) ->
  forall q', is_idle q' = is_idle q ->
  sched_ok (mk_ptable (<[next := q']> (<[cur := preempted p]> (procs t))) (rotated t cur p) (proc_hash t) (proc_idle t) (ticks t)) cpu next.
Proof.
  intros H Hp Hq Hnext q' Hi. pose proof (fun a => rotated_elem t cpu cur p a H Hp) as Hel.
  assert (Hkeep : forall a r, procs t !! a = Some r -> exists r', <[next := q']> (<[cur := preempted p]> (procs t)) !! a = Some r' /\
    is_idle r' = is_idle r /\ (a <> next -> state (sched r') = PROC_RUNNING -> a <> cur /\ state (sched r) = PROC_RUNNING)).
  { intros a r Ha. destruct (decide (a = next)) as [->|Hne].
    - exists q'. rewrite lookup_insert_eq. split; [done|]. split; [|done]. rewrite Hi. destruct (decide (next = cur)) as [->|Hnc].
      + rewrite lookup_insert_eq in Hq. injection Hq as <-. simplify_eq. apply preempted_flags.
      + rewrite lookup_insert_ne in Hq by done. congruence.
    - rewrite lookup_insert_ne by done. destruct (decide (a = cur)) as [->|Hnc].
      + exists (preempted p). rewrite lookup_insert_eq. split; [done|]. simplify_eq. split; [apply preempted_flags|].
        intros _ Hr. by destruct (preempted_not_running p).
      + exists r. by rewrite lookup_insert_ne. }
  split; cbn [procs proc_head proc_idle].
  - destruct (so_idle _ _ _ H) as (ia & pi & E1 & E2 & E3 & E4). destruct (Hkeep ia pi E2) as (r' & Hr' & Hri & _).
    exists ia, r'. split; [done|]. split; [done|]. split; [congruence|]. by rewrite Hel.
  - by eapply rotated_nodup.
  - intros a Ha. rewrite Hel in Ha. destruct (so_queue _ _ _ H a Ha) as (r & Hr & Hri & Hrun).
    destruct (Hkeep a r Hr) as (r' & Hr' & Hri' & Hst). exists r'. split; [done|]. split; [congruence|].
    intros Hs. destruct (decide (a = next)) as [|Hne]; [done|]. destruct (Hst Hne Hs) as [Hnc Hs']. by destruct Hnc; apply Hrun.
  - done.
Qed.

Lemma schedule_ok t cpu cur :
  sched_ok t cpu cur -> exists next t', schedule t cpu cur = Some (next, t') /\ sched_post t cpu cur next t'.
Proof.
  intros H. assert (Hcur : exists p, procs t !! cur = Some p).
  { destruct (so_cur _ _ _ H) as [Hc|Hc]; [destruct (so_queue _ _ _ H cur Hc) as (p & ? & _); by exists p|].
    destruct (so_idle _ _ _ H) as (a & p & Ha & Hp & _). rewrite Hc in Ha. injection Ha as ->. by exists p. }
  destruct Hcur as [p Hp]. unfold schedule. rewrite Hp. some_bind. cbv zeta. fold (preempted p).
  set (m := <[cur := preempted p]> (procs t)).
  assert (Et : (if Z.land (flags (sched (preempted p))) PF_IDLE =? 0
    then set_head (set_proc t cur (preempted p)) (remove cur (proc_head (set_proc t cur (preempted p))) ++ [cur])
    else set_proc t cur (preempted p)) = mk_ptable m (rotated t cur p) (proc_hash t) (proc_idle t) (ticks t)).
  { unfold rotated. pose proof (preempted_flags p) as Hf. unfold is_idle in Hf.
    destruct (Z.land (flags (sched (preempted p))) PF_IDLE =? 0); cbn [negb] in Hf; unfold is_idle; by rewrite <- Hf. }
  rewrite Et. cbn [procs proc_head proc_idle].
  assert (Hdom : forall a, is_Some (m !! a) <-> is_Some (procs t !! a)).
  { intros a. unfold m. destruct (decide (a = cur)) as [->|]; [rewrite lookup_insert_eq, Hp; split; by eexists|by rewrite lookup_insert_ne]. }
  destruct (pick_spec m (rotated t cur p)) as (r & -> & Hr).
  { intros a Ha. apply Hdom. rewrite (rotated_elem t cpu cur p a H Hp) in Ha.
    destruct (so_queue _ _ _ H a Ha) as (q & -> & _). by eexists. }
  some_bind. destruct r as [a|].
  - destruct Hr as (l1 & l2 & q & El & Hq & Hs & Hb). rewrite Hq. some_bind. cbn [set_proc set_procs procs].
    rewrite lookup_insert_eq. some_bind. eexists _, _. split; [done|]. unfold set_proc, set_procs. cbn [procs proc_head proc_hash proc_idle ticks].
    rewrite insert_insert_eq. exists p. split; [done|]. split; [done|]. split; [done|]. split.
    { apply (sched_ok_switch t cpu cur p a q); try done. left. rewrite El. set_solver. }
    split; [|split].
    + intros b q' H1 H2 Hb'. cbn [procs]. rewrite lookup_insert_ne by done. unfold m. by rewrite lookup_insert_ne.
    + intros b. cbn [procs]. rewrite <- Hdom. destruct (decide (b = a)) as [->|]; [rewrite lookup_insert_eq, Hq; split; by eexists|by rewrite lookup_insert_ne].
    + left. by exists l1, l2, q.
  - destruct (so_idle _ _ _ H) as (ia & pi & E1 & E2 & E3 & E4). some_bind. cbn [proc_idle]. rewrite E1. some_bind. cbn [procs].
    destruct (proj2 (Hdom ia)) as [q Hq]; [by eexists|]. rewrite Hq. some_bind.
    eexists _, _. split; [done|]. unfold set_proc, set_procs. cbn [procs proc_head proc_hash proc_idle ticks].
    exists p. split; [done|]. split; [done|]. split; [done|]. split.
    { apply (sched_ok_switch t cpu cur p ia q); try done. by right. }
    split; [|split].
    + intros b q' H1 H2 Hb'. cbn [procs]. rewrite lookup_insert_ne by done. unfold m. by rewrite lookup_insert_ne.
    + intros b. cbn [procs]. rewrite <- Hdom. destruct (decide (b = ia)) as [->|]; [rewrite lookup_insert_eq, Hq; split; by eexists|by rewrite lookup_insert_ne].
    + by right.
Qed.

Lemma pick_runnable m l a p : m !! a = Some p -> pick m l = Some (Some a) -> state (sched p) = PROC_RUNNABLE.
Proof.
  intros Hp. induction l as [|x l IH]; cbn [pick]; [done|]. destruct (m !! x) as [px|] eqn:Ex; [|done]. some_bind.
  case_if; [|done]. intros E2. injection E2 as ->. rewrite Ex in Hp. by injection Hp as ->.
Qed.

(** The changes of [schedule] to the processes. *)
Lemma schedule_procs t cpu cur p next t' :
  procs t !! cur = Some p -> schedule t cpu cur = Some (next, t') ->
  let m := <[cur := preempted p]> (procs t) in
  proc_hash t' = proc_hash t /\ proc_idle t' = proc_idle t /\ exists q, m !! next = Some q /\
    (state (sched q) = PROC_RUNNABLE /\ procs t' = <[next := set_counter (set_state q PROC_RUNNING) 1]> m \/
     proc_idle t !! Z.to_nat cpu = Some next /\ procs t' = <[next := set_counter q 1]> m).
Proof.
  intros Hp. unfold schedule. rewrite Hp. some_bind. cbv zeta. fold (preempted p).
  match goal with |- context [if ?b then set_head ?x ?y else ?x] => set (t1 := if b then set_head x y else x) end.
  assert (H1 : procs t1 = <[cur := preempted p]> (procs t) /\ proc_hash t1 = proc_hash t /\ proc_idle t1 = proc_idle t) by (unfold t1; case_if; done).
  clearbody t1. destruct H1 as (<- & <- & <-). destruct (pick (procs t1) (proc_head t1)) as [[b|]|] eqn:Er; [..|done]; some_bind; cbv iota.
  - destruct (procs t1 !! b) as [pb|] eqn:Eb; [|done]. some_bind. cbn [set_proc set_procs procs]. rewrite lookup_insert_eq. some_bind.
    intros E. injection E as <- <-. split; [done|]. split; [done|]. exists pb. split; [done|]. left. split; [by eapply pick_runnable|].
    cbn [set_proc set_procs procs]. apply insert_insert_eq.
  - some_bind; cbv iota. destruct (proc_idle t1 !! Z.to_nat cpu) as [ia|] eqn:Ei; [|done]. some_bind. destruct (procs t1 !! ia) as [pi|] eqn:Epi; [|done]. some_bind.
    intros E. injection E as <- <-. split; [done|]. split; [done|]. exists pi. split; [done|]. by right.
Qed.

(** [n] calls of [schedule] in a row: the processes that get the processor. *)
Fixpoint run_schedule (n : nat) (t : ptable) (cpu cur : Z) : option (list Z) :=
  match n with
  | O => Some []
  | S n => r ← schedule t cpu cur; l ← run_schedule n r.2 cpu r.1; Some (r.1 :: l)
  end.

Lemma run_schedule_total n t cpu cur : sched_ok t cpu cur -> is_Some (run_schedule n t cpu cur).
Proof.
  revert t cur. induction n as [|n IH]; intros t cur H; cbn [run_schedule]; [by eexists|].
  destruct (schedule_ok t cpu cur H) as (next & t' & -> & p & _ & _ & _ & H' & _). some_bind. cbn [fst snd].
  destruct (IH t' next H') as [l ->]. by eexists.
Qed.

Lemma remove_app_in a l1 l2 : remove a (l1 ++ l2) = remove a l1 ++ remove a l2.
Proof. unfold remove. apply filter_app. Qed.

Lemma length_remove_lt a l : a ∈ l -> (length (remove a l) < length l)%nat.
Proof.
  induction l as [|x l IH]; [set_solver|]. intros Ha. unfold remove. rewrite filter_cons.
  destruct (decide (x <> a)) as [Hne|].
  - cbn [length]. fold (remove a l). assert (a ∈ l) by set_solver. specialize (IH H). lia.
  - fold (remove a l). pose proof (length_filter (fun x => x <> a) l). unfold remove. cbn [length]. lia.
Qed.

(** A runnable process with [k] processes before it in the queue, not counting the
    current one, runs within [k + 1] calls. *)
Lemma bounded_wait k t cpu cur a l1 l2 :
  sched_ok t cpu cur -> remove cur (proc_head t) = l1 ++ a :: l2 -> (length l1 <= k)%nat -> runnable t a ->
  exists n l, (n <= S k)%nat /\ run_schedule n t cpu cur = Some l /\ last l = Some a.
Proof.
  revert t cur l1 l2. induction k as [k IH] using lt_wf_ind. intros t cur l1 l2 H Hq Hk (pa & Hpa & Hsa).
  destruct (schedule_ok t cpu cur H) as (next & t' & Hrun & p & Hp & Hhead & Hidle & H' & Hother & _ & Hnext).
  assert (Hac : a <> cur) by (intros ->; assert (Hin : cur ∈ remove cur (proc_head t)) by (rewrite Hq; set_solver); apply elem_remove in Hin; tauto).
  assert (Hrot : exists l2', rotated t cur p = l1 ++ a :: l2').
  { unfold rotated. destruct (is_idle p) eqn:Ei; [|exists (l2 ++ [cur]); by rewrite Hq, <- app_assoc].
    exists l2. rewrite <- Hq, remove_not_in; [done|]. intros Hin. destruct (so_queue _ _ _ H cur Hin) as (q & ? & ? & _). simplify_eq. congruence. }
  destruct Hrot as [l2' Hrot].
  destruct (decide (next = a)) as [->|Hna].
  { exists 1%nat, [a]. split; [lia|]. split; [|done]. cbn [run_schedule]. rewrite Hrun. by some_bind. }
  assert (Hrun' : runnable t' a) by (exists pa; split; [by apply Hother|done]).
  assert (Hin1 : next ∈ l1).
  { destruct Hnext as [(m1 & m2 & q & Em & Hq' & Hs & Hb)|[Hn Hb]].
    - destruct (decide (next ∈ l1)) as [|Hn]; [done|]. exfalso. rewrite Hrot in Em.
      assert (Ha1 : a ∈ m1).
      { apply app_eq_inv in Em as [(k1 & E1 & E2)|(k1 & E1 & E2)]; subst.
        - destruct k1 as [|x k1]; [injection E2 as -> _; done|]. injection E2 as <- _. set_solver.
        - destruct k1 as [|x k1]; [injection E2 as <- _; done|]. injection E2 as <- _. set_solver. }
      apply (Hb a pa Ha1); [|done]. by rewrite lookup_insert_ne.
    - exfalso. apply (Hb a pa); [rewrite Hrot; set_solver|by rewrite lookup_insert_ne|done]. }
  assert (Hq2 : remove next (proc_head t') = remove next l1 ++ a :: remove next l2').
  { rewrite Hhead, Hrot, remove_app_in. f_equal. unfold remove. rewrite filter_cons, decide_True by done. done. }
  pose proof (length_remove_lt next l1 Hin1).
  destruct (IH (length (remove next l1)) ltac:(lia) t' next _ _ H' Hq2 ltac:(lia) Hrun') as (n & l & Hn & Hl & Hlast).
  exists (S n), (next :: l). split; [lia|]. split.
  - cbn [run_schedule]. rewrite Hrun. some_bind. cbn [fst snd]. rewrite Hl. by some_bind.
  - destruct l as [|x l]; [done|]. by rewrite last_cons_cons.
Qed.

(** ** Sleeping *)

Lemma update_alarm_lookup l m h hs i k a p :
  NoDup l -> a ∈ l -> m !! a = Some p ->
  procs (foldl (fun t a => match procs t !! a with Some p => set_proc t a (tick_alarm p) | None => t end) (mk_ptable m h hs i k) l) !! a
  = Some (tick_alarm p).
Proof.
  revert m. induction l as [|x l IH]; intros m Hn Ha Hm; [set_solver|].
  apply NoDup_cons in Hn as [Hx Hn]. cbn [foldl procs]. destruct (decide (a = x)) as [->|Hne].
  - rewrite Hm. clear IH Ha. unfold set_proc, set_procs. cbn [procs proc_head proc_hash proc_idle ticks].
    assert (Hm' : <[x := tick_alarm p]> m !! x = Some (tick_alarm p)) by apply lookup_insert_eq.
    revert Hm'. generalize (<[x := tick_alarm p]> m) as m'. clear m Hm. induction l as [|y l IH]; intros m' Hm'; [done|].
    apply not_elem_of_cons in Hx as [Hxy Hx]. apply NoDup_cons in Hn as [_ Hn]. cbn [foldl procs].
    destruct (m' !! y) as [py|]; [|by apply IH]. unfold set_proc, set_procs. cbn [procs proc_head proc_hash proc_idle ticks].
    apply IH; [done|done|]. by rewrite lookup_insert_ne.
  - assert (a ∈ l) by set_solver. destruct (m !! x) as [px|]; [|by apply IH].
    unfold set_proc, set_procs. cbn [procs proc_head proc_hash proc_idle ticks]. apply IH; [done|done|]. by rewrite lookup_insert_ne.
Qed.

Lemma update_alarm_head t : proc_head (update_alarm t) = proc_head t.
Proof.
  unfold update_alarm. generalize (proc_head t) at 1 as l. intros l. revert t.
  induction l as [|x l IH]; intros t; [done|]. cbn [foldl]. rewrite IH. by destruct (procs t !! x).
Qed.

(** [n] clock ticks bring the alarm of a sleeper with [n] ticks left to zero and
    its state to [PROC_RUNNING]. *)
Lemma alarm_expires n t a p :
  NoDup (proc_head t) -> a ∈ proc_head t -> procs t !! a = Some p -> alarm (sched p) = Z.of_nat (S n) ->
  exists q, procs (Nat.iter (S n) update_alarm t) !! a = Some q /\ state (sched q) = PROC_RUNNING /\ alarm (sched q) = 0.
Proof.
  revert t p. induction n as [|n IH]; intros t p Hn Ha Hp Hal;
    assert (Hstep : procs (update_alarm t) !! a = Some (tick_alarm p))
      by (destruct t as [m h hs i k]; by apply update_alarm_lookup);
    assert (Et : tick_alarm p = let q := set_alarm p (alarm (sched p) - 1) in if alarm (sched q) =? 0 then set_state q PROC_RUNNING else q)
      by (unfold tick_alarm; case_if; zbool; [lia|done]); cbv zeta in Et; cbn [set_alarm with_sched sched alarm] in Et.
  - exists (tick_alarm p). split; [exact Hstep|]. rewrite Et. case_if; zbool; [|lia]. cbn [set_state set_alarm with_sched sched state alarm].
    split; [done|]. rewrite Hal. done.
  - rewrite Nat.iter_succ_r. apply (IH _ (tick_alarm p)); [by rewrite update_alarm_head|by rewrite update_alarm_head|done|].
    rewrite Et. case_if; zbool; [lia|]. cbn [set_alarm with_sched sched alarm]. lia.
Qed.

(** A process that is not runnable is not chosen. *)
Lemma schedule_skips t cpu cur a p next t' :
  procs t !! a = Some p -> state (sched p) <> PROC_RUNNABLE -> (a = cur -> state (sched p) <> PROC_RUNNING) -> a ∉ proc_idle t ->
  schedule t cpu cur = Some (next, t') ->
  next <> a /\ proc_idle t' = proc_idle t /\ exists p', procs t' !! a = Some p' /\ state (sched p') <> PROC_RUNNABLE /\ alarm (sched p') = alarm (sched p).
Proof.
  intros Hp Hs Hcur Hi E. destruct (procs t !! cur) as [pc|] eqn:Ec; [|unfold schedule in E; by rewrite Ec in E].
  destruct (schedule_procs t cpu cur pc next t' Ec E) as (_ & Hid & q & Hq & Hor).
  assert (Ha1 : exists p1, <[cur := preempted pc]> (procs t) !! a = Some p1 /\ state (sched p1) <> PROC_RUNNABLE /\ alarm (sched p1) = alarm (sched p)).
  { destruct (decide (a = cur)) as [->|Hne]; [|exists p; by rewrite lookup_insert_ne].
    exists (preempted pc). rewrite lookup_insert_eq. split; [done|]. rewrite Ec in Hp. injection Hp as ->. split; [|unfold preempted; by case_if].
    rewrite preempted_state. case_if; [|done]. by destruct Hcur. }
  destruct Ha1 as (p1 & Ha1 & Hs1 & Hal1).
  assert (Hne : next <> a).
  { intros ->. rewrite Ha1 in Hq. injection Hq as <-. destruct Hor as [[? _]|[Hx _]]; [done|]. apply Hi. by eapply list_elem_of_lookup_2. }
  split; [done|]. split; [done|]. exists p1. destruct Hor as [[_ ->]|[_ ->]]; by rewrite lookup_insert_ne.
Qed.

(** A change of the current process that keeps its flags keeps the invariant. *)
Lemma sched_ok_same t cpu cur p1 :
  sched_ok t cpu cur -> cur ∈ proc_head t -> (exists p, procs t !! cur = Some p /\ flags (sched p1) = flags (sched p)) ->
  sched_ok (set_proc t cur p1) cpu cur.
Proof.
  intros H Hin (p & Hp & Hf). split; cbn [set_proc set_procs procs proc_head proc_idle]; [..|apply H].
  - destruct (so_idle _ _ _ H) as (a & q & Ha & Hq & Hi & Hn). exists a, q. split; [done|]. split; [|done].
    by rewrite lookup_insert_ne by congruence.
  - apply H.
  - intros a Ha. destruct (so_queue _ _ _ H a Ha) as (q & Hq & Hi & Hr). destruct (decide (a = cur)) as [->|Hne].
    + exists p1. rewrite lookup_insert_eq. split; [done|]. split; [|done]. rewrite Hp in Hq. injection Hq as ->. unfold is_idle in *. by rewrite Hf.
    + exists q. by rewrite lookup_insert_ne.
Qed.

Lemma tick_not_runnable p : state (sched p) <> PROC_RUNNABLE -> state (sched (tick_alarm p)) <> PROC_RUNNABLE.
Proof. intros H. unfold tick_alarm. repeat case_if; done. Qed.

Lemma update_alarm_skips l t a p :
  procs t !! a = Some p -> state (sched p) <> PROC_RUNNABLE ->
  exists p', procs (foldl (fun t a => match procs t !! a with Some p => set_proc t a (tick_alarm p) | None => t end) t l) !! a = Some p' /\
    state (sched p') <> PROC_RUNNABLE.
Proof.
  revert t p. induction l as [|x l IH]; intros t p Hp Hs; cbn [foldl]; [by exists p|].
  destruct (procs t !! x) as [px|] eqn:Ex; [|by apply (IH t p)]. destruct (decide (a = x)) as [->|Hne].
  - rewrite Ex in Hp. injection Hp as ->. apply (IH _ (tick_alarm p)); [apply lookup_insert_eq|by apply tick_not_runnable].
  - apply (IH _ p); [|done]. cbn [set_proc set_procs procs]. by rewrite lookup_insert_ne.
Qed.

Lemma foldl_idle l t : proc_idle (foldl (fun t a => match procs t !! a with Some p => set_proc t a (tick_alarm p) | None => t end) t l) = proc_idle t.
Proof. revert t. induction l as [|x l IH]; intros t; [done|]. cbn [foldl]. rewrite IH. by destruct (procs t !! x). Qed.

(** What happens on a processor between two system calls: clock interrupts and
    calls of [schedule]. *)
Inductive event := Tick | Resched.

(** The processes that get the processor. *)
Fixpoint run_events (evs : list event) (t : ptable) (cpu cur : Z) : option (list Z) :=
  match evs with
  | [] => Some []
  | Tick :: evs => run_events evs (update_alarm (ticks_plus t)) cpu cur
  | Resched :: evs => r ← schedule t cpu cur; l ← run_events evs r.2 cpu r.1; Some (r.1 :: l)
  end.

Lemma run_events_skips evs t cpu cur a p l :
  procs t !! a = Some p -> state (sched p) <> PROC_RUNNABLE -> a <> cur -> a ∉ proc_idle t ->
  run_events evs t cpu cur = Some l -> a ∉ l.
Proof.
  revert t cur p l. induction evs as [|[] evs IH]; intros t cur p l Hp Hs Hne Hi; cbn [run_events].
  { intros E. injection E as <-. set_solver. }
  - destruct (update_alarm_skips (proc_head t) (ticks_plus t) a p Hp Hs) as (p' & Hp' & Hs').
    apply (IH _ _ p'); [done..|]. unfold update_alarm. by rewrite foldl_idle.
  - destruct (schedule t cpu cur) as [[next t']|] eqn:E; [|done]. some_bind. cbn [fst snd].
    destruct (schedule_skips t cpu cur a p next t' Hp Hs) as (Hn & Hid & p' & Hp' & Hs' & _); [done..|].
    destruct (run_events evs t' cpu next) as [l'|] eqn:El; [|done]. some_bind. intros E'. injection E' as <-.
    apply not_elem_of_cons. split; [done|]. apply (IH t' next p' l'); [done|done|done|by rewrite Hid|done].
Qed.

(** ** Theorems *)

(** The table holds the processes of the map [M] from pids to their addresses. *)
Definition represents (t : ptable) (M : gmap Z Z) : Prop :=
  hash_ok t /\ forall p a, M !! p = Some a <-> hashed t a /\ exists q, procs t !! a = Some q /\ pid q = p.

(** The hash table of processes implements a finite map from pids: for
    nonnegative pids [map_proc] is its lookup (NULL for a pid that is not there),
    [hash_proc] of a process with a fresh pid inserts it and [unmap_proc] deletes. *)
Theorem proc_hash_refines t M :
  represents t M ->
  (forall p, 0 <= p -> map_proc t p = Some (default NULL (M !! p))) /\
  (forall a q, procs t !! a = Some q -> a <> NULL -> 0 <= pid q -> M !! pid q = None ->
    exists t', hash_proc t a = Some t' /\ represents t' (<[pid q := a]> M) /\ procs t' = procs t) /\
  (forall p, 0 <= p -> exists t', unmap_proc t p = Some t' /\ represents t' (delete p M) /\ procs t' = procs t).
Proof.
  intros [H HM]. split; [|split].
  - intros p Hp. destruct (map_proc_ok t p H Hp) as (a & -> & [[-> Hn]|(Hnz & Ha & Hq)]).
    + destruct (M !! p) as [b|] eqn:E; [|done]. apply HM in E as (Hb & q & Hq & Hpq). by destruct (Hn b q).
    + by rewrite (proj2 (HM p a) (conj Ha Hq)).
  - intros a q Hq Hnz Hp Hfresh. destruct (hash_proc_ok t a q H Hq Hnz Hp) as (t' & Ht & H' & Ep & Hin).
    { intros b r Hb Hr E. assert (Hs : M !! pid q = Some b) by (apply HM; eauto). congruence. }
    exists t'. split; [done|]. split; [|done]. split; [done|]. intros p b. rewrite Hin, Ep, lookup_insert_Some. split.
    + intros [[<- <-]|[Hne [Hb Hr]%HM]]; [by eauto|]. by eauto.
    + intros ([Hb| ->] & r & Hr & <-); [|left; by simplify_eq].
      right. assert (Hs : M !! pid r = Some b) by (apply HM; eauto). split; [|done]. congruence.
  - intros p Hp. destruct (unmap_proc_ok t p H Hp) as (t' & Ht & H' & Ep & Hin). exists t'. split; [done|]. split; [|done].
    split; [done|]. intros p' b. rewrite Ep, lookup_delete_Some. split.
    + intros [Hne (Hb & q & Hq & <-)%HM]. split; [rewrite (Hin b q Hq)|]; eauto.
    + intros (Hb & q & Hq & E). destruct (proj1 (Hin b q Hq) Hb) as [Hb' Hne]. split; [congruence|]. apply HM. eauto.
Qed.

Definition sample_proc (p st fl al : Z) : proc_t :=
  mk_proc p (mk_sched st fl 1 al) (mk_ipc 0 [] 0 (mk_message 0 0 m_none) 0) NULL [] 0 (mk_mm 0 0 [] 0 0 0 0).

(** The idle process at 0x1000 and three processes, the second one in the bucket of the first. *)
Definition sample_table : ptable :=
  mk_ptable
    (<[0x1000 := sample_proc 0 PROC_RUNNABLE (Z.lor PF_KTHREAD PF_IDLE) 0]> (<[0x2000 := sample_proc 2 PROC_RUNNING 0 0]>
      (<[0x3000 := sample_proc 258 PROC_SENDING 0 3]> {[ 0x4000 := sample_proc 1024 PROC_RUNNABLE 0 0 ]})))
    [0x2000; 0x3000; 0x4000]
    (<[0%nat := [0x4000]]> (<[2%nat := [0x2000; 0x3000]]> (replicate 256 []))) [0x1000] 0.

Definition sample_map : gmap Z Z := <[2 := 0x2000]> (<[258 := 0x3000]> {[ 1024 := 0x4000 ]}).

Lemma sample_hash_lookup k l : proc_hash sample_table !! k = Some l ->
  k = 0%nat /\ l = [0x4000] \/ k = 2%nat /\ l = [0x2000; 0x3000] \/ l = [].
Proof.
  cbn [sample_table proc_hash]. destruct (decide (k = 0%nat)) as [->|H0].
  { rewrite list_lookup_insert_eq by (rewrite length_insert, length_replicate; lia). intros E. injection E as <-. by left. }
  rewrite list_lookup_insert_ne by done. destruct (decide (k = 2%nat)) as [->|H2].
  { rewrite list_lookup_insert_eq by (rewrite length_replicate; lia). intros E. injection E as <-. right. by left. }
  rewrite list_lookup_insert_ne by done. intros [-> _]%lookup_replicate. by right; right.
Qed.

Lemma sample_hashed a : hashed sample_table a <-> a ∈ [0x2000; 0x3000; 0x4000].
Proof.
  split.
  - intros (l & [k Hk]%list_elem_of_lookup & Ha). destruct (sample_hash_lookup k l Hk) as [[-> ->]|[[-> ->]| ->]]; set_solver.
  - intros Ha. assert (Hc : a ∈ [0x2000; 0x3000] \/ a ∈ [0x4000]) by set_solver. destruct Hc as [Hc|Hc]; eexists; (split; [|exact Hc]);
      apply list_elem_of_lookup; [by exists 2%nat|by exists 0%nat].
Qed.

Lemma sample_hash_ok : hash_ok sample_table.
Proof.
  split.
  - by vm_compute.
  - intros k l a Hk Ha. destruct (sample_hash_lookup k l Hk) as [[-> ->]|[[-> ->]| ->]]; [..|set_solver];
      repeat (apply elem_of_cons in Ha as [->|Ha]); try (by apply elem_of_nil in Ha); (split; [done|]); eexists; (split; [reflexivity|reflexivity]).
  - intros k l Hk. apply (bool_decide_unpack _). destruct (sample_hash_lookup k l Hk) as [[-> ->]|[[-> ->]| ->]]; by vm_compute.
  - intros a b p q Ha%sample_hashed Hb%sample_hashed Hp Hq E.
    repeat (apply elem_of_cons in Ha as [->|Ha]); try (by apply elem_of_nil in Ha);
    repeat (apply elem_of_cons in Hb as [->|Hb]); try (by apply elem_of_nil in Hb); try done;
    vm_compute in Hp; vm_compute in Hq; simplify_eq; done.
Qed.

Lemma sample_represents : represents sample_table sample_map.
Proof.
  split; [apply sample_hash_ok|]. intros p a. unfold sample_map. rewrite sample_hashed, !lookup_insert_Some, lookup_singleton_Some. split.
  - intros [[<- <-]|[_ [[<- <-]|[_ [<- <-]]]]]; (split; [set_solver|]); eexists; (split; [reflexivity|reflexivity]).
  - intros (Ha & q & Hq & <-). repeat (apply elem_of_cons in Ha as [->|Ha]); try (by apply elem_of_nil in Ha); vm_compute in Hq; simplify_eq; cbn; lia.
Qed.

Lemma proc_hash_refines_witness :
  map_proc sample_table 258 = Some 0x3000 /\ map_proc sample_table 5 = Some NULL.
Proof.
  destruct (proc_hash_refines sample_table sample_map sample_represents) as [H _].
  split; [exact (H 258 ltac:(done))|exact (H 5 ltac:(done))].
Defined.

(** C27: [schedule] is a round robin on the processes of one processor.  It moves
    the process that gives up the processor to the end of the queue and continues
    the first runnable one of the queue, or idle when there is none; the queue keeps
    its processes and only the chosen one is marked running.  A runnable process with
    [k] others before it runs within [k + 1] calls. *)
Theorem schedule_round_robin t cpu cur :
  sched_ok t cpu cur ->
  (exists next t', schedule t cpu cur = Some (next, t') /\ sched_post t cpu cur next t') /\
  (forall a l1 l2, remove cur (proc_head t) = l1 ++ a :: l2 -> runnable t a ->
    exists n l, (n <= S (length l1))%nat /\ run_schedule n t cpu cur = Some l /\ last l = Some a).
Proof.
  intros H. split; [by apply schedule_ok|]. intros a l1 l2 Hq Hr. by apply (bounded_wait _ t cpu cur a l1 l2).
Qed.

Lemma sample_sched_ok : sched_ok sample_table 0 0x2000.
Proof.
  split.
  - eexists 0x1000, _. split; [done|]. split; [reflexivity|]. split; [done|]. apply (bool_decide_unpack _). by vm_compute.
  - apply (bool_decide_unpack _). by vm_compute.
  - intros a Ha. cbn [sample_table proc_head] in Ha. repeat (apply elem_of_cons in Ha as [->|Ha]); try (by apply elem_of_nil in Ha);
      eexists; (split; [reflexivity|]); done.
  - left. cbn [sample_table proc_head]. set_solver.
Qed.

Lemma schedule_round_robin_witness :
  exists n l, (n <= 2)%nat /\ run_schedule n sample_table 0 0x2000 = Some l /\ last l = Some 0x4000.
Proof.
  apply (proj2 (schedule_round_robin sample_table 0 0x2000 sample_sched_ok) 0x4000 [0x3000] []); [reflexivity|].
  eexists. split; [reflexivity|reflexivity].
Defined.

(** A process that calls [sys_sleep] is not continued by the clock: its alarm
    sets its state to [PROC_RUNNING], which [schedule] does not choose, so in no
    sequence of clock ticks and calls of [schedule] does it get the processor again,
    however long the sequence. *)
Theorem sleeper_not_resumed t cpu cur type n :
  sched_ok t cpu cur -> cur ∈ proc_head t -> cur ∉ proc_idle t -> type = 0 \/ type = 1 ->
  exists next t', sys_sleep t cpu cur type n = Some (0, next, t') /\ next <> cur /\
    (forall evs l, run_events evs t' cpu next = Some l -> cur ∉ l) /\
    (forall k, (if type =? 0 then u64 (n * HZ) else n / (1000 / HZ)) = Z.of_nat (S k) ->
      exists q, procs (Nat.iter (S k) update_alarm t') !! cur = Some q /\ state (sched q) = PROC_RUNNING /\ alarm (sched q) = 0).
Proof.
  intros H Hin Hi Htype. destruct (so_queue _ _ _ H cur Hin) as (p & Hp & Hidle & _). unfold sys_sleep. rewrite Hp. some_bind.
  assert (Et : (type =? 0) || (type =? 1) = true) by (destruct Htype as [-> | ->]; done). rewrite Et. cbv zeta.
  match goal with |- context [set_proc t cur ?q] => set (p1 := q) end.
  destruct (schedule_ok (set_proc t cur p1) cpu cur) as (next & t' & E & p0 & Hp0 & Hhead & _ & H' & _).
  { apply sched_ok_same; [done|done|]. by exists p. }
  rewrite E. some_bind. cbn [fst snd]. exists next, t'. split; [done|].
  destruct (schedule_skips (set_proc t cur p1) cpu cur cur p1 next t') as (Hn & Hid & q & Hq & Hs & Hal); [apply lookup_insert_eq|done|done|done|done|].
  split; [done|]. split.
  - intros evs l Hrun. apply (run_events_skips evs t' cpu next cur q l); [done|done|done|by rewrite Hid|done].
  - intros k Hk. apply (alarm_expires k t' cur q); [apply H'| |done|by rewrite Hal].
    rewrite Hhead. unfold rotated. case_if; [done|set_solver].
Qed.

Lemma sleeper_not_resumed_witness :
  exists next t', sys_sleep sample_table 0 0x2000 1 30 = Some (0, next, t') /\ next <> 0x2000 /\
    (forall evs l, run_events evs t' 0 next = Some l -> 0x2000 ∉ l) /\
    exists q, procs (Nat.iter 3 update_alarm t') !! 0x2000 = Some q /\ state (sched q) = PROC_RUNNING.
Proof.
  destruct (sleeper_not_resumed sample_table 0 0x2000 1 30) as (next & t' & H1 & H2 & H3 & H4);
    [apply sample_sched_ok|cbn [sample_table proc_head]; set_solver|cbn [sample_table proc_idle]; set_solver|by right|].
  exists next, t'. split; [exact H1|]. split; [exact H2|]. split; [exact H3|].
  destruct (H4 2%nat ltac:(done)) as (q & Hq & Hs & _). by exists q.
Defined.
