(* ===== verification/Ipc.v ===== *)
(** * Message passing: [core/ipc.c], [boot/syscall.c]

    A system call runs with interrupts disabled (the gate of vector 0x80 is an
    interrupt gate), so on one processor the code between two calls of [schedule]
    is one step.  An operation returns when it is finished, or stops at a call of
    [schedule] with the rest of its body as a continuation; [step] composes these
    pieces with the scheduler, the clock and the hardware interrupts. *)

From S2P Require Import Prelude Sched.

Definition with_ipc (p : proc_t) (i : ipc_part) : proc_t :=
  mk_proc (pid p) (sched p) i (parent p) (children p) (exit_status p) (mm p).
Definition set_wait (p : proc_t) (v : Z) : proc_t :=
  with_ipc p (mk_ipc v (wait_proc (ipc p)) (has_intr (ipc p)) (msg (ipc p)) (signal (ipc p))).
Definition set_wait_proc (p : proc_t) (l : list Z) : proc_t :=
  with_ipc p (mk_ipc (wait (ipc p)) l (has_intr (ipc p)) (msg (ipc p)) (signal (ipc p))).
Definition set_has_intr (p : proc_t) (v : Z) : proc_t :=
  with_ipc p (mk_ipc (wait (ipc p)) (wait_proc (ipc p)) v (msg (ipc p)) (signal (ipc p))).
Definition set_msg (p : proc_t) (v : message) : proc_t :=
  with_ipc p (mk_ipc (wait (ipc p)) (wait_proc (ipc p)) (has_intr (ipc p)) v (signal (ipc p))).
Definition set_signal (p : proc_t) (v : Z) : proc_t :=
  with_ipc p (mk_ipc (wait (ipc p)) (wait_proc (ipc p)) (has_intr (ipc p)) (msg (ipc p)) v).

(** ** Operations *)

(** What is left of a system call when [schedule] returns; a receive keeps the
    contents of the caller's buffer. *)
Inductive kcont :=
  | KSent (m : message)
  | KSentRecv (to : Z) (m : message)
  | KRecvAll (m : message)
  | KRecvIntr (m : message)
  | KRecvFrom (source : Z) (m : message).

(** [Ret] returns 0 with the caller's buffer; [Sched] calls [schedule]. *)
Inductive outcome :=
  | Ret (m : message) (t : ptable)
  | Sched (k : kcont) (t : ptable).

Definition update (t : ptable) (a : Z) (f : proc_t -> proc_t) : option ptable :=
  p ← procs t !! a; Some (set_proc t a (f p)).

(** A receiver that waits for [from] or for everything becomes runnable. *)
Definition wake (from : Z) (p : proc_t) : proc_t :=
  if (state (sched p) =? PROC_RECEIVING) && ((wait (ipc p) =? from) || (wait (ipc p) =? IPC_ALL))
  then set_state p PROC_RUNNABLE else p.

Definition do_send (t : ptable) (cur to : Z) (m : message) : option outcome :=
  dest ← map_proc t to;
  if src m =? IPC_INTR then
    t ← update t dest (fun p => set_has_intr p 1);
    t ← update t dest (wake IPC_INTR);
    Some (Ret m t)
  else
    t ← update t cur (fun p => set_msg p m);
    t ← update t cur (fun p => set_wait p to);
    t ← update t cur (fun p => set_state p PROC_SENDING);
    t ← update t dest (fun p => set_wait_proc p (wait_proc (ipc p) ++ [cur]));
    c ← procs t !! cur;
    t ← update t dest (wake (pid c));
    Some (Sched (KSent m) t).

Definition intr_message (m : message) : message := mk_message (src m) MSG_INTR (m_intr INTR_OK).

(** [list_del] of the source from the queue of the receiver, whose links are only
    good while it is there; then the copy and the wake-up. *)
Definition take_from (t : ptable) (cur source : Z) : option outcome :=
  c ← procs t !! cur;
  if bool_decide (source ∈ wait_proc (ipc c)) then
    t ← update t cur (fun p => set_wait_proc p (remove source (wait_proc (ipc p))));
    s ← procs t !! source;
    t ← update t cur (fun p => set_wait p IPC_NOWAIT);
    t ← update t source (fun p => set_state p PROC_RUNNABLE);
    Some (Ret (msg (ipc s)) t)
  else None.

(** Before [schedule]: [wait] and [state]. *)
Definition block (t : ptable) (cur from : Z) (k : kcont) : option outcome :=
  t ← update t cur (fun p => set_wait p from);
  t ← update t cur (fun p => set_state p PROC_RECEIVING);
  Some (Sched k t).

Definition recv_all (t : ptable) (cur : Z) (m : message) : option outcome :=
  c ← procs t !! cur;
  if negb (has_intr (ipc c) =? 0) then
    t ← update t cur (fun p => set_has_intr p 0);
    Some (Ret (intr_message m) t)
  else match wait_proc (ipc c) with
       | source :: _ => take_from t cur source
       | [] => block t cur IPC_ALL (KRecvAll m)
       end.

Definition recv_intr (t : ptable) (cur : Z) (m : message) : option outcome :=
  t ← update t cur (fun p => set_has_intr p 0);
  Some (Ret (intr_message m) t).

Definition do_recv (t : ptable) (cur from : Z) (m : message) : option outcome :=
  if from =? IPC_ALL then recv_all t cur m
  else if from =? IPC_INTR then
    c ← procs t !! cur;
    if has_intr (ipc c) =? 0 then block t cur IPC_INTR (KRecvIntr m) else recv_intr t cur m
  else
    source ← map_proc t from;
    s ← procs t !! source;
    c ← procs t !! cur;
    if negb ((state (sched s) =? PROC_SENDING) && (wait (ipc s) =? pid c))
    then block t cur from (KRecvFrom source m)
    else take_from t cur source.

Definition do_sendrecv (t : ptable) (cur to : Z) (m : message) : option outcome :=
  o ← do_send t cur to m;
  match o with
  | Ret m t => do_recv t cur to m
  | Sched _ t => Some (Sched (KSentRecv to m) t)
  end.

(** The rest of a call after [schedule]. *)
Definition resume (t : ptable) (cur : Z) (k : kcont) : option outcome :=
  match k with
  | KSent m => Some (Ret m t)
  | KSentRecv to m => do_recv t cur to m
  | KRecvAll m => recv_all t cur m
  | KRecvIntr m => recv_intr t cur m
  | KRecvFrom source _ => take_from t cur source
  end.

Definition send_signal (p : proc_t) (sg : Z) : proc_t :=
  let p := set_signal p sg in
  if (state (sched p) =? PROC_RECEIVING) && (wait (ipc p) =? IPC_SIGNAL) then set_state p PROC_RUNNABLE else p.

(** [pre_syscall] stamps the sender. *)
Definition pre_syscall (t : ptable) (cur : Z) (m : message) : option message :=
  c ← procs t !! cur; Some (mk_message (pid c) (mtype m) (body m)).

Inductive syscall := SysSend (to : Z) (m : message) | SysRecv (from : Z) (m : message) | SysSendrecv (to : Z) (m : message).

(** [sys_send], [sys_recv] and the [default] of [sys_sendrecv]; a request to
    [IPC_KERNEL] or [IPC_MM] is answered by the kernel itself. *)
Definition do_syscall (t : ptable) (cur : Z) (c : syscall) : option outcome :=
  match c with
  | SysSend to m => m ← pre_syscall t cur m; do_send t cur to m
  | SysRecv from m => m ← pre_syscall t cur m; do_recv t cur from m
  | SysSendrecv to m =>
      m ← pre_syscall t cur m;
      if (to =? IPC_KERNEL) || (to =? IPC_MM) then None else do_sendrecv t cur to m
  end.

(** ** The system *)

(** One processor: the table, the running process and what is left of the system
    calls of the processes that are inside [schedule]; a process without a
    continuation was interrupted in user mode. *)
Record world := mk_world { tab : ptable; cur : Z; conts : gmap Z kcont }.

(** What an observer of the message system sees: a message posted for a process,
    the return of a receive, an interrupt. *)
Inductive label :=
  | LSend (s q : Z) (m : message)
  | LRecv (q from : Z) (m : message)
  | LRaise (q : Z)
  | LTau.

(** The end of a step: back to user mode or to another process. *)
Definition finish (w : world) (o : outcome) : option world :=
  match o with
  | Ret _ t => Some (mk_world t (cur w) (delete (cur w) (conts w)))
  | Sched k t => r ← schedule t 0 (cur w); Some (mk_world r.2 r.1 (<[cur w := k]> (conts w)))
  end.

(** The receive a continuation is about. *)
Definition recv_label (q from : Z) (o : outcome) : label :=
  match o with Ret m _ => LRecv q from m | Sched _ _ => LTau end.

Definition call_label (t : ptable) (q : Z) (c : syscall) (o : outcome) : option label :=
  match c with
  | SysSend to m | SysSendrecv to m => d ← map_proc t to; m ← pre_syscall t q m; Some (LSend q d m)
  | SysRecv from _ => Some (recv_label q from o)
  end.

Definition resume_label (t : ptable) (q : Z) (k : kcont) (o : outcome) : option label :=
  match k with
  | KSent _ => Some LTau
  | KSentRecv to _ => Some (recv_label q to o)
  | KRecvAll _ => Some (recv_label q IPC_ALL o)
  | KRecvIntr _ => Some (recv_label q IPC_INTR o)
  | KRecvFrom s _ => p ← procs t !! s; Some (recv_label q (pid p) o)
  end.

(** The message of a hardware interrupt ([do_hwint]). *)
Definition hw_message : message := mk_message IPC_INTR MSG_INTR (m_intr INTR_OK).

(** [do_timer] followed by the return path of the interrupt, which calls
    [schedule] for [NEED_SCHEDULE]. *)
Definition timer (t : ptable) (cur : Z) : option (Z * ptable) :=
  t ← update (update_alarm (ticks_plus t)) cur (fun p => set_flags p (Z.lor (flags (sched p)) NEED_SCHEDULE));
  schedule t 0 cur.

Inductive step (w : world) : label -> world -> Prop :=
  | step_call c o l w' :
      conts w !! cur w = None -> cur w ∈ proc_head (tab w) -> do_syscall (tab w) (cur w) c = Some o ->
      call_label (tab w) (cur w) c o = Some l -> finish w o = Some w' -> step w l w'
  | step_resume k o l w' :
      conts w !! cur w = Some k -> resume (tab w) (cur w) k = Some o ->
      resume_label (tab w) (cur w) k o = Some l -> finish w o = Some w' -> step w l w'
  | step_hwint p d m t :
      conts w !! cur w = None -> map_proc (tab w) p = Some d -> do_send (tab w) (cur w) p hw_message = Some (Ret m t) ->
      step w (LRaise d) (mk_world t (cur w) (conts w))
  | step_timer c t :
      conts w !! cur w = None -> timer (tab w) (cur w) = Some (c, t) -> step w LTau (mk_world t c (conts w)).

(** ** Invariant *)

Definition active (p : proc_t) : Prop := state (sched p) = PROC_RUNNABLE \/ state (sched p) = PROC_RUNNING.

(** What a process is doing agrees with its state.  A blocked receiver has nothing
    to receive, and a receiver that was woken up has. *)
Definition proc_ok (t : ptable) (p : proc_t) (k : option kcont) : Prop :=
  match k with
  | None => active p \/ state (sched p) = PROC_STOPPED
  | Some (KSent _) => active p \/ state (sched p) = PROC_SENDING
  | Some (KSentRecv to _) => (active p \/ state (sched p) = PROC_SENDING) /\ exists s ps, hashed t s /\ procs t !! s = Some ps /\ pid ps = to
  | Some (KRecvAll _) =>
      active p \/ state (sched p) = PROC_RECEIVING /\ wait (ipc p) = IPC_ALL /\ wait_proc (ipc p) = [] /\ has_intr (ipc p) = 0
  | Some (KRecvIntr _) =>
      active p /\ has_intr (ipc p) <> 0 \/ state (sched p) = PROC_RECEIVING /\ wait (ipc p) = IPC_INTR /\ has_intr (ipc p) = 0
  | Some (KRecvFrom s _) => exists ps, hashed t s /\ procs t !! s = Some ps /\
      (active p /\ s ∈ wait_proc (ipc p) \/
       state (sched p) = PROC_RECEIVING /\ wait (ipc p) = pid ps /\ s ∉ wait_proc (ipc p))
  end.

(** The processes queued at [p] are those that are sending to it. *)
Definition queue_ok (t : ptable) (p : proc_t) : Prop :=
  NoDup (wait_proc (ipc p)) /\
  forall b, b ∈ wait_proc (ipc p) <-> hashed t b /\ exists q, procs t !! b = Some q /\ state (sched q) = PROC_SENDING /\ wait (ipc q) = pid p.

(** The part of the invariant that does not depend on who is running. *)
Record core_ok (t : ptable) (ks : gmap Z kcont) : Prop := {
  co_null : procs t !! NULL = None;
  co_hash : hash_ok t;
  co_head : forall a, a ∈ proc_head t <-> hashed t a;
  co_pid : forall a p, hashed t a -> procs t !! a = Some p -> 0 < pid p < IPC_SIGNAL /\ alarm (sched p) = 0;
  co_user : forall a, is_Some (ks !! a) -> hashed t a;
  co_queue : forall a p, hashed t a -> procs t !! a = Some p -> queue_ok t p;
  co_proc : forall a p, hashed t a -> procs t !! a = Some p -> proc_ok t p (ks !! a) }.

Definition running_ok (t : ptable) (c : Z) : Prop :=
  sched_ok t 0 c /\ (forall p, procs t !! c = Some p -> active p) /\
  (forall i p, proc_idle t !! 0%nat = Some i -> procs t !! i = Some p -> active p).

Definition ipc_ok (w : world) : Prop := core_ok (tab w) (conts w) /\ running_ok (tab w) (cur w).

(** ** Changes that keep the tables *)

(** The operations on messages change neither the lists of processes nor what the
    tables depend on, and mark nobody running. *)
Definition kept (p p' : proc_t) : Prop :=
  pid p' = pid p /\ flags (sched p') = flags (sched p) /\ alarm (sched p') = alarm (sched p) /\
  (state (sched p') = PROC_RUNNING -> state (sched p) = PROC_RUNNING).

Record same_shape (t t' : ptable) : Prop := {
  ss_head : proc_head t' = proc_head t;
  ss_hash : proc_hash t' = proc_hash t;
  ss_idle : proc_idle t' = proc_idle t;
  ss_proc : forall a p', procs t' !! a = Some p' -> exists p, procs t !! a = Some p /\ kept p p';
  ss_proc' : forall a p, procs t !! a = Some p -> exists p', procs t' !! a = Some p' /\ kept p p' }.

Lemma kept_refl p : kept p p.
Proof. by repeat split. Qed.

Lemma kept_trans p q r : kept p q -> kept q r -> kept p r.
Proof. unfold kept. intros (?&?&?&?) (?&?&?&?). repeat split; try congruence. tauto. Qed.

Lemma same_shape_refl t : same_shape t t.
Proof. split; try done; intros a p Hp; exists p; by split; [|apply kept_refl]. Qed.

Lemma same_shape_trans t1 t2 t3 : same_shape t1 t2 -> same_shape t2 t3 -> same_shape t1 t3.
Proof.
  intros [A1 A2 A3 A4 A5] [B1 B2 B3 B4 B5]. split; [congruence..| |].
  - intros a p3 (p2 & H2 & K2)%B4. destruct (A4 a p2 H2) as (p1 & H1 & K1). exists p1. split; [done|by eapply kept_trans].
  - intros a p1 (p2 & H2 & K2)%A5. destruct (B5 a p2 H2) as (p3 & H3 & K3). exists p3. split; [done|by eapply kept_trans].
Qed.

#[export] Instance same_shape_preorder : PreOrder same_shape.
Proof. split; [exact same_shape_refl|exact same_shape_trans]. Qed.

Lemma same_hashed t t' a : same_shape t t' -> hashed t' a <-> hashed t a.
Proof. intros H. unfold hashed. by rewrite (ss_hash _ _ H). Qed.

Lemma hash_ok_shape t t' : same_shape t t' -> hash_ok t -> hash_ok t'.
Proof.
  intros S [H1 H2 H3 H4]. pose proof (ss_hash _ _ S) as E. split.
  - by rewrite E.
  - rewrite E. intros k l a Hk Ha. destruct (H2 k l a Hk Ha) as [Hnz (p & Hp & Hb)]. split; [done|].
    destruct (ss_proc' _ _ S a p Hp) as (p' & Hp' & Ep & _). exists p'. split; [done|]. by rewrite Ep.
  - by rewrite E.
  - intros a b p' q' Ha Hb Hp' Hq' Epq. rewrite (same_hashed t t') in Ha, Hb by done.
    destruct (ss_proc _ _ S a p' Hp') as (p & Hp & Ep & _). destruct (ss_proc _ _ S b q' Hq') as (q & Hq & Eq & _).
    apply (H4 a b p q); [done..|congruence].
Qed.

Lemma sched_ok_shape t t' cpu c : same_shape t t' -> sched_ok t cpu c -> sched_ok t' cpu c.
Proof.
  intros S [H1 H2 H3 H4]. pose proof (ss_head _ _ S) as Eh. pose proof (ss_idle _ _ S) as Ei. split.
  - destruct H1 as (a & p & Ha & Hp & Hi & Hn). destruct (ss_proc' _ _ S a p Hp) as (p' & Hp' & _ & Ef & _).
    exists a, p'. rewrite Ei, Eh. split; [done|]. split; [done|]. split; [|done]. unfold is_idle in *. by rewrite Ef.
  - by rewrite Eh.
  - rewrite Eh. intros a Ha. destruct (H3 a Ha) as (p & Hp & Hi & Hr). destruct (ss_proc' _ _ S a p Hp) as (p' & Hp' & _ & Ef & _ & Hs).
    exists p'. split; [done|]. split; [unfold is_idle in *; by rewrite Ef|]. intros E. by apply Hr, Hs.
  - by rewrite Eh, Ei.
Qed.

Lemma proc_ok_shape t t' p k : same_shape t t' -> proc_ok t p k -> proc_ok t' p k.
Proof.
  intros S. destruct k as [[]|]; cbn [proc_ok]; try done.
  - intros [Ha (s & ps & Hs & Hps & <-)]. split; [done|]. destruct (ss_proc' _ _ S s ps Hps) as (ps' & Hps' & Ep & _).
    exists s, ps'. by rewrite (same_hashed t t').
  - intros (ps & Hs & Hps & H). destruct (ss_proc' _ _ S _ ps Hps) as (ps' & Hps' & Ep & _).
    exists ps'. rewrite (same_hashed t t'), Ep by done. done.
Qed.

(** [update] on a process that exists. *)
Lemma update_ok t a p f : procs t !! a = Some p -> (forall p, kept p (f p)) ->
  update t a f = Some (set_procs t (alter f a (procs t))) /\ same_shape t (set_procs t (alter f a (procs t))).
Proof.
  intros Hp Hf. unfold update. rewrite Hp. some_bind. split.
  { f_equal. unfold set_proc. f_equal. apply map_eq. intros b. destruct (decide (a = b)) as [<-|Hne].
    - by rewrite lookup_insert_eq, lookup_alter_eq, Hp.
    - by rewrite lookup_insert_ne, lookup_alter_ne. }
  split; try done; cbn [set_procs procs]; intros b q; destruct (decide (a = b)) as [<-|Hne].
  - rewrite lookup_alter_eq. intros (q0 & Hq0 & ->)%fmap_Some. exists q0. split; [done|apply Hf].
  - rewrite lookup_alter_ne by done. intros Hq. exists q. split; [done|apply kept_refl].
  - intros Hq. exists (f q). rewrite lookup_alter_eq, Hq. split; [done|apply Hf].
  - intros Hq. exists q. rewrite lookup_alter_ne by done. split; [done|apply kept_refl].
Qed.

Lemma alter_lookup t a b f p : procs t !! b = Some p ->
  procs (set_procs t (alter f a (procs t))) !! b = Some (if b =? a then f p else p).
Proof.
  intros Hp. cbn [set_procs procs]. destruct (b =? a) eqn:E; zbool.
  - subst b. by rewrite lookup_alter_eq, Hp.
  - by rewrite lookup_alter_ne, Hp.
Qed.

(** Performs the next [update] of the goal; the table before it is [t]. *)
Ltac do_update H S :=
  match goal with
  | |- context [update ?t ?a ?f] =>
      let E := fresh "E" in
      destruct (update_ok t a _ f H) as [E S]; [let p := fresh in intros p; by repeat split|];
      rewrite E; clear E; some_bind
  end.

Lemma wake_kept from p : kept p (wake from p).
Proof. unfold wake. case_if; by repeat split. Qed.

Lemma wake_ipc from p : ipc (wake from p) = ipc p /\ pid (wake from p) = pid p.
Proof. unfold wake. by case_if. Qed.

(** What a send does to each process. *)
Definition send_effect (c d to : Z) (m : message) (from a : Z) (p : proc_t) : proc_t :=
  let p := if a =? c then set_state (set_wait (set_msg p m) to) PROC_SENDING else p in
  if a =? d then wake from (set_wait_proc p (wait_proc (ipc p) ++ [c])) else p.

Lemma do_send_effect t c to m pc d pd :
  procs t !! c = Some pc -> map_proc t to = Some d -> procs t !! d = Some pd -> src m <> IPC_INTR ->
  exists t', do_send t c to m = Some (Sched (KSent m) t') /\ same_shape t t' /\
    forall a p, procs t !! a = Some p -> procs t' !! a = Some (send_effect c d to m (pid pc) a p).
Proof.
  intros Hc Hd Hpd Hm. unfold do_send. rewrite Hd. some_bind. rewrite (proj2 (Z.eqb_neq _ _) Hm).
  do_update Hc S1. pose proof (fun a p => alter_lookup t c a (fun p => set_msg p m) p) as L1. revert S1 L1.
  generalize (set_procs t (alter (fun p => set_msg p m) c (procs t))) as t1. intros t1 S1 L1.
  pose proof (L1 c pc Hc) as Hc1. rewrite Z.eqb_refl in Hc1.
  do_update Hc1 S2. pose proof (fun a p => alter_lookup t1 c a (fun p => set_wait p to) p) as L2. revert S2 L2.
  generalize (set_procs t1 (alter (fun p => set_wait p to) c (procs t1))) as t2. intros t2 S2 L2.
  pose proof (L2 c _ Hc1) as Hc2. rewrite Z.eqb_refl in Hc2.
  do_update Hc2 S3. pose proof (fun a p => alter_lookup t2 c a (fun p => set_state p PROC_SENDING) p) as L3. revert S3 L3.
  generalize (set_procs t2 (alter (fun p => set_state p PROC_SENDING) c (procs t2))) as t3. intros t3 S3 L3.
  assert (L13 : forall a p, procs t !! a = Some p ->
    procs t3 !! a = Some (if a =? c then set_state (set_wait (set_msg p m) to) PROC_SENDING else p)).
  { intros a p Hp. rewrite (L3 a _ (L2 a _ (L1 a p Hp))). by destruct (a =? c). }
  do_update (L13 d pd Hpd) S4.
  pose proof (fun a p => alter_lookup t3 d a (fun p => set_wait_proc p (wait_proc (ipc p) ++ [c])) p) as L4. revert S4 L4.
  generalize (set_procs t3 (alter (fun p => set_wait_proc p (wait_proc (ipc p) ++ [c])) d (procs t3))) as t4. intros t4 S4 L4.
  pose proof (L4 c _ (L13 c pc Hc)) as Hc4. rewrite Hc4. some_bind.
  assert (Epid : pid (if c =? d then set_wait_proc (if c =? c then set_state (set_wait (set_msg pc m) to) PROC_SENDING else pc)
    (wait_proc (ipc (if c =? c then set_state (set_wait (set_msg pc m) to) PROC_SENDING else pc)) ++ [c])
    else if c =? c then set_state (set_wait (set_msg pc m) to) PROC_SENDING else pc) = pid pc).
  { rewrite Z.eqb_refl. by destruct (c =? d). }
  rewrite Epid. destruct (update_ok t4 d _ (wake (pid pc)) (L4 d _ (L13 d pd Hpd)) (wake_kept (pid pc))) as [E S5]. rewrite E. some_bind.
  eexists. split; [done|]. split; [by repeat (etrans; [eassumption|])|].
  intros a p Hp. rewrite (alter_lookup t4 d a _ _ (L4 a _ (L13 a p Hp))). unfold send_effect. by destruct (a =? d).
Qed.

(** An [update] of one process, seen from every process. *)
Lemma update_effect t c pc f : procs t !! c = Some pc -> (forall p, kept p (f p)) ->
  exists t', update t c f = Some t' /\ same_shape t t' /\
    forall a p, procs t !! a = Some p -> procs t' !! a = Some (if a =? c then f p else p).
Proof.
  intros Hc Hf. destruct (update_ok t c pc f Hc Hf) as [E S]. eexists. split; [exact E|]. split; [exact S|].
  intros a p. apply alter_lookup.
Qed.

Lemma update_twice t c pc f g : procs t !! c = Some pc -> (forall p, kept p (f p)) -> (forall p, kept p (g p)) ->
  exists t1 t', update t c f = Some t1 /\ update t1 c g = Some t' /\ same_shape t t' /\
    forall a p, procs t !! a = Some p -> procs t' !! a = Some (if a =? c then g (f p) else p).
Proof.
  intros Hc Hf Hg. destruct (update_effect t c pc f Hc Hf) as (t1 & E1 & S1 & L1).
  destruct (update_effect t1 c _ g (L1 c pc Hc) Hg) as (t2 & E2 & S2 & L2).
  exists t1, t2. split; [done|]. split; [done|]. split; [by transitivity t1|].
  intros a p Hp. rewrite (L2 a _ (L1 a p Hp)). by destruct (a =? c).
Qed.

Lemma block_effect t c pc from k :
  procs t !! c = Some pc ->
  exists t', block t c from k = Some (Sched k t') /\ same_shape t t' /\
    forall a p, procs t !! a = Some p -> procs t' !! a = Some (if a =? c then set_state (set_wait p from) PROC_RECEIVING else p).
Proof.
  intros Hc. destruct (update_twice t c pc (fun p => set_wait p from) (fun p => set_state p PROC_RECEIVING) Hc)
    as (t1 & t' & E1 & E2 & S & L); [by repeat split..|].
  exists t'. unfold block. rewrite E1. some_bind. rewrite E2. by some_bind.
Qed.

Lemma recv_intr_effect t c pc m :
  procs t !! c = Some pc ->
  exists t', recv_intr t c m = Some (Ret (intr_message m) t') /\ same_shape t t' /\
    forall a p, procs t !! a = Some p -> procs t' !! a = Some (if a =? c then set_has_intr p 0 else p).
Proof.
  intros Hc. destruct (update_effect t c pc (fun p => set_has_intr p 0) Hc) as (t' & E & S & L); [by repeat split|].
  exists t'. unfold recv_intr. rewrite E. by some_bind.
Qed.

Lemma hwint_effect t c to m d pd :
  map_proc t to = Some d -> procs t !! d = Some pd -> src m = IPC_INTR ->
  exists t', do_send t c to m = Some (Ret m t') /\ same_shape t t' /\
    forall a p, procs t !! a = Some p -> procs t' !! a = Some (if a =? d then wake IPC_INTR (set_has_intr p 1) else p).
Proof.
  intros Hd Hpd Hm. destruct (update_twice t d pd (fun p => set_has_intr p 1) (wake IPC_INTR) Hpd)
    as (t1 & t' & E1 & E2 & S & L); [by repeat split|apply wake_kept|].
  exists t'. unfold do_send. rewrite Hd. some_bind. rewrite Hm. cbn [Z.eqb IPC_INTR Pos.eqb].
  rewrite E1. some_bind. rewrite E2. by some_bind.
Qed.

(** What taking the message of [s] does to each process. *)
Definition take_effect (c s a : Z) (p : proc_t) : proc_t :=
  if a =? s then set_state p PROC_RUNNABLE
  else if a =? c then set_wait (set_wait_proc p (remove s (wait_proc (ipc p)))) IPC_NOWAIT else p.

Lemma take_from_effect t c pc s ps :
  procs t !! c = Some pc -> procs t !! s = Some ps -> s ∈ wait_proc (ipc pc) -> s <> c ->
  exists t', take_from t c s = Some (Ret (msg (ipc ps)) t') /\ same_shape t t' /\
    forall a p, procs t !! a = Some p -> procs t' !! a = Some (take_effect c s a p).
Proof.
  intros Hc Hs Hin Hne. unfold take_from. rewrite Hc. some_bind. rewrite bool_decide_eq_true_2 by done.
  destruct (update_effect t c pc (fun p => set_wait_proc p (remove s (wait_proc (ipc p)))) Hc) as (t1 & E1 & S1 & L1); [by repeat split|].
  rewrite E1. some_bind. pose proof (L1 s ps Hs) as Hs1. rewrite (proj2 (Z.eqb_neq s c) Hne) in Hs1. rewrite Hs1. some_bind.
  destruct (update_effect t1 c _ (fun p => set_wait p IPC_NOWAIT) (L1 c pc Hc)) as (t2 & E2 & S2 & L2); [by repeat split|].
  rewrite E2. some_bind. pose proof (L2 s ps Hs1) as Hs2. rewrite (proj2 (Z.eqb_neq s c) Hne) in Hs2.
  destruct (update_effect t2 s ps (fun p => set_state p PROC_RUNNABLE) Hs2) as (t3 & E3 & S3 & L3); [by repeat split|].
  rewrite E3. some_bind. exists t3. split; [done|]. split; [by transitivity t1; [|transitivity t2]|].
  intros a p Hp. rewrite (L3 a _ (L2 a _ (L1 a p Hp))). unfold take_effect. destruct (a =? s) eqn:E; zbool; [subst a|].
  - by rewrite (proj2 (Z.eqb_neq s c) Hne).
  - by destruct (a =? c).
Qed.

(** ** The operations keep the invariant *)

Lemma core_ok_effect t t' ks ks' eff :
  core_ok t ks -> same_shape t t' -> (forall a p, procs t !! a = Some p -> procs t' !! a = Some (eff a p)) ->
  (forall a, is_Some (ks' !! a) -> hashed t a) ->
  (forall a p, hashed t a -> procs t !! a = Some p ->
    NoDup (wait_proc (ipc (eff a p))) /\
    forall b, b ∈ wait_proc (ipc (eff a p)) <-> hashed t b /\ exists q, procs t !! b = Some q /\
      state (sched (eff b q)) = PROC_SENDING /\ wait (ipc (eff b q)) = pid p) ->
  (forall a p, hashed t a -> procs t !! a = Some p -> proc_ok t (eff a p) (ks' !! a)) ->
  core_ok t' ks'.
Proof.
  intros H S L Hu Hq Hp. pose proof (fun a => same_hashed t t' a S) as Hh.
  assert (Hback : forall a p', procs t' !! a = Some p' -> exists p, procs t !! a = Some p /\ p' = eff a p /\ kept p p').
  { intros a p' Hp'. destruct (ss_proc _ _ S a p' Hp') as (p & Ep & K). exists p. rewrite (L a p Ep) in Hp'. injection Hp' as <-. done. }
  split.
  - destruct (procs t' !! NULL) as [p'|] eqn:En; [|done]. destruct (Hback NULL p' En) as (p & Ep & _). by rewrite (co_null _ _ H) in Ep.
  - eapply hash_ok_shape; [done|apply H].
  - intros a. rewrite Hh, (ss_head _ _ S). apply H.
  - intros a p' Ha Hp'. destruct (Hback a p' Hp') as (p & Ep & _ & K1 & _ & K2 & _). rewrite K1, K2. apply (co_pid _ _ H a p); [by apply Hh|done].
  - intros a Ha. by apply Hh, Hu.
  - intros a p' Ha Hp'. destruct (Hback a p' Hp') as (p & Ep & -> & K & _). destruct (Hq a p) as [Hn Hb]; [by apply Hh|done|].
    split; [done|]. intros b. rewrite (Hb b), Hh, K. split; intros [Hhb (q & Eq & Hs)]; (split; [done|]).
    + exists (eff b q). by rewrite (L b q Eq).
    + destruct (Hback b q Eq) as (q0 & Eq0 & -> & _). by exists q0.
  - intros a p' Ha Hp'. destruct (Hback a p' Hp') as (p & Ep & -> & _). apply (proc_ok_shape t); [done|]. apply Hp; [by apply Hh|done].
Qed.

(** A process that is not sending is in no queue. *)
Lemma not_queued t ks a p b q :
  core_ok t ks -> hashed t a -> procs t !! a = Some p -> procs t !! b = Some q -> active q -> b ∉ wait_proc (ipc p).
Proof.
  intros H Ha Hp Hq Hact Hin. destruct (co_queue _ _ H a p Ha Hp) as [_ Hb]. apply Hb in Hin as [_ (q' & Hq' & Hs & _)].
  rewrite Hq in Hq'. injection Hq' as <-. destruct Hact as [E|E]; by rewrite E in Hs.
Qed.

Lemma active_not_sending p : active p -> state (sched p) <> PROC_SENDING.
Proof. intros [E|E]; by rewrite E. Qed.

Lemma wake_cases from p :
  let cond := state (sched p) = PROC_RECEIVING /\ (wait (ipc p) = from \/ wait (ipc p) = IPC_ALL) in
  cond /\ wake from p = set_state p PROC_RUNNABLE \/ ~ cond /\ wake from p = p.
Proof.
  unfold wake. destruct (state (sched p) =? PROC_RECEIVING) eqn:E1; [|right; zbool; tauto].
  destruct (wait (ipc p) =? from) eqn:E2; [left; zbool; tauto|]. destruct (wait (ipc p) =? IPC_ALL) eqn:E3; [left; zbool; tauto|].
  right. zbool. tauto.
Qed.

Lemma wake_sending from p : state (sched (wake from p)) = PROC_SENDING <-> state (sched p) = PROC_SENDING.
Proof. destruct (wake_cases from p) as [[[E _] ->]|[_ ->]]; [|done]. cbn [set_state with_sched sched state]. by rewrite E. Qed.

(** A wake-up changes nothing for a process that is not waiting. *)
Lemma wake_other from p : state (sched p) <> PROC_RECEIVING -> wake from p = p.
Proof. intros H. destruct (wake_cases from p) as [[[E _] ->]|[_ ->]]; [by destruct H|done]. Qed.

Lemma wake_no from p : wait (ipc p) <> from -> wait (ipc p) <> IPC_ALL -> wake from p = p.
Proof. intros H1 H2. destruct (wake_cases from p) as [[[_ E] ->]|[_ ->]]; [tauto|done]. Qed.

Lemma wake_yes from p : state (sched p) = PROC_RECEIVING -> wait (ipc p) = from \/ wait (ipc p) = IPC_ALL ->
  wake from p = set_state p PROC_RUNNABLE.
Proof. intros H1 H2. destruct (wake_cases from p) as [[_ ->]|[H _]]; [done|tauto]. Qed.

Lemma active_runnable p : active (set_state p PROC_RUNNABLE).
Proof. by left. Qed.

Lemma active_not_receiving p : active p -> state (sched p) <> PROC_RECEIVING.
Proof. intros [E|E]; by rewrite E. Qed.

Lemma block_core t ks c pc from k t' :
  core_ok t ks -> hashed t c -> procs t !! c = Some pc -> active pc -> same_shape t t' ->
  (forall a p, procs t !! a = Some p -> procs t' !! a = Some (if a =? c then set_state (set_wait p from) PROC_RECEIVING else p)) ->
  proc_ok t (set_state (set_wait pc from) PROC_RECEIVING) (Some k) ->
  core_ok t' (<[c := k]> ks).
Proof.
  intros H Hc Hpc Hact S L Hk. apply (core_ok_effect t t' ks _ _ H S L).
  - intros a. destruct (decide (c = a)) as [<-|]; [done|]. rewrite lookup_insert_ne by done. apply H.
  - intros a p Ha Hp. destruct (co_queue _ _ H a p Ha Hp) as [Hn Hb].
    assert (E : wait_proc (ipc (if a =? c then set_state (set_wait p from) PROC_RECEIVING else p)) = wait_proc (ipc p)) by (by case_if).
    rewrite E. split; [done|]. intros b. rewrite Hb. split; (intros [Hhb (q & Hq & Hs & Hw)]; split; [done|]; exists q; split; [done|]; destruct (b =? c) eqn:Ebc; try done; zbool; subst b).
    rewrite Hpc in Hq. injection Hq as <-. by destruct (active_not_sending pc Hact).
  - intros a p Ha Hp. destruct (a =? c) eqn:E; zbool.
    + subst a. rewrite Hpc in Hp. injection Hp as <-. by rewrite lookup_insert_eq.
    + rewrite lookup_insert_ne by done. by apply (co_proc _ _ H).
Qed.

Lemma recv_intr_core t ks c pc t' :
  core_ok t ks -> hashed t c -> procs t !! c = Some pc -> active pc -> same_shape t t' ->
  (forall a p, procs t !! a = Some p -> procs t' !! a = Some (if a =? c then set_has_intr p 0 else p)) ->
  core_ok t' (delete c ks).
Proof.
  intros H Hc Hpc Hact S L. apply (core_ok_effect t t' ks _ _ H S L).
  - intros a [k [Hne Hk]%lookup_delete_Some]. apply (co_user _ _ H). by exists k.
  - intros a p Ha Hp. destruct (co_queue _ _ H a p Ha Hp) as [Hn Hb].
    assert (E : wait_proc (ipc (if a =? c then set_has_intr p 0 else p)) = wait_proc (ipc p)) by (by case_if).
    rewrite E. split; [done|]. intros b. rewrite Hb. split; (intros [Hhb (q & Hq & Hs & Hw)]; split; [done|]; exists q; split; [done|]; by destruct (b =? c)).
  - intros a p Ha Hp. destruct (a =? c) eqn:E; zbool.
    + subst a. rewrite Hpc in Hp. injection Hp as <-. rewrite lookup_delete_eq. left. exact Hact.
    + rewrite lookup_delete_ne by done. by apply (co_proc _ _ H).
Qed.

Lemma take_core t ks c pc s ps t' :
  core_ok t ks -> hashed t c -> procs t !! c = Some pc -> active pc -> procs t !! s = Some ps -> s ∈ wait_proc (ipc pc) ->
  same_shape t t' -> (forall a p, procs t !! a = Some p -> procs t' !! a = Some (take_effect c s a p)) ->
  core_ok t' (delete c ks).
Proof.
  intros H Hc Hpc Hact Hps Hin S L.
  destruct (co_queue _ _ H c pc Hc Hpc) as [_ Hqc]. destruct (proj1 (Hqc s) Hin) as [Hhs (ps' & Hps' & Hsend & Hwait)].
  rewrite Hps in Hps'. injection Hps' as <-.
  assert (Hsc : s <> c) by (intros ->; by apply (not_queued t ks c pc c pc)).
  apply (core_ok_effect t t' ks _ _ H S L).
  - intros a [k [Hne Hk]%lookup_delete_Some]. apply (co_user _ _ H). by exists k.
  - intros a p Ha Hp. destruct (co_queue _ _ H a p Ha Hp) as [Hn Hb].
    assert (Hmem : NoDup (wait_proc (ipc (take_effect c s a p))) /\
      forall b, b ∈ wait_proc (ipc (take_effect c s a p)) <-> b <> s /\ b ∈ wait_proc (ipc p)).
    { assert (Hs : a <> c -> s ∉ wait_proc (ipc p)).
      { intros Hac [_ (q & Hq & _ & Hw)]%Hb. apply Hac. rewrite Hps in Hq. injection Hq as <-. apply (ho_pid _ (co_hash _ _ H) a c p pc); [done..|congruence]. }
      unfold take_effect. destruct (a =? s) eqn:Eas; zbool; [|destruct (a =? c) eqn:Eac; zbool].
      - subst a. split; [done|]. intros b. cbn [set_state with_sched ipc]. specialize (Hs Hsc). split; [|tauto]. intros Hbp. split; [|done]. by intros ->.
      - subst a. cbn [set_wait set_wait_proc with_ipc ipc wait_proc]. split; [by apply NoDup_filter|]. intros b. apply elem_remove.
      - split; [done|]. intros b. specialize (Hs Eac). split; [|tauto]. intros Hbp. split; [|done]. by intros ->. }
    destruct Hmem as [Hn' Hmem]. split; [done|]. intros b. rewrite Hmem, Hb. split.
    + intros [Hbs [Hhb (q & Hq & Hs & Hw)]]. split; [done|]. exists q. split; [done|]. unfold take_effect.
      rewrite (proj2 (Z.eqb_neq b s) Hbs). destruct (b =? c) eqn:Ebc; zbool; [|done]. subst b. rewrite Hpc in Hq. injection Hq as <-.
      by destruct (active_not_sending pc Hact).
    + intros [Hhb (q & Hq & Hs & Hw)]. unfold take_effect in Hs, Hw. destruct (b =? s) eqn:Ebs; zbool; [done|]. split; [done|]. split; [done|].
      exists q. split; [done|]. destruct (b =? c) eqn:Ebc; zbool; [|done]. subst b. rewrite Hpc in Hq. injection Hq as <-.
      by destruct (active_not_sending pc Hact).
  - intros a p Ha Hp. pose proof (co_proc _ _ H a p Ha Hp) as Hok. unfold take_effect. destruct (a =? s) eqn:Eas; zbool.
    + subst a. rewrite lookup_delete_ne by done. rewrite Hps in Hp. injection Hp as <-. revert Hok.
      pose proof (active_runnable ps) as Hr. destruct (ks !! s) as [[]|]; cbn [proc_ok]; rewrite Hsend.
      * by left.
      * intros [_ ?]. split; [by left|done].
      * by left.
      * intros [[Hx _]|[Hx _]]; [by destruct (active_not_sending ps Hx)|done].
      * intros (? & _ & _ & [[Hx _]|[Hx _]]); [by destruct (active_not_sending ps Hx)|done].
      * by left.
    + destruct (a =? c) eqn:Eac; zbool.
      * subst a. rewrite lookup_delete_eq. left. rewrite Hpc in Hp. injection Hp as <-. exact Hact.
      * by rewrite lookup_delete_ne.
Qed.

Lemma hwint_core t ks d pd t' :
  core_ok t ks -> hashed t d -> procs t !! d = Some pd ->
  same_shape t t' -> (forall a p, procs t !! a = Some p -> procs t' !! a = Some (if a =? d then wake IPC_INTR (set_has_intr p 1) else p)) ->
  core_ok t' ks.
Proof.
  intros H Hd Hpd S L. apply (core_ok_effect t t' ks _ _ H S L); [apply (co_user _ _ H)|..].
  - intros a p Ha Hp. destruct (co_queue _ _ H a p Ha Hp) as [Hn Hb].
    assert (E : wait_proc (ipc (if a =? d then wake IPC_INTR (set_has_intr p 1) else p)) = wait_proc (ipc p)).
    { case_if; [|done]. by rewrite (proj1 (wake_ipc _ _)). }
    rewrite E. split; [done|]. intros b. rewrite Hb.
    split; (intros [Hhb (q & Hq & Hs & Hw)]; split; [done|]; exists q; split; [done|]; revert Hs Hw; case_if; [|done];
      rewrite wake_sending, (proj1 (wake_ipc _ _)); done).
  - intros a p Ha Hp. pose proof (co_proc _ _ H a p Ha Hp) as Hok. destruct (a =? d) eqn:Ead; zbool; [|done]. subst a.
    assert (Hwo : state (sched p) <> PROC_RECEIVING -> wake IPC_INTR (set_has_intr p 1) = set_has_intr p 1) by (intros ?; by apply wake_other).
    assert (Hact : active p -> wake IPC_INTR (set_has_intr p 1) = set_has_intr p 1) by (intros Hx%active_not_receiving; auto).
    revert Hok. destruct (ks !! d) as [[]|]; cbn [proc_ok].
    + intros Hx. assert (Hr : state (sched p) <> PROC_RECEIVING) by (destruct Hx as [Hx|Hx]; [by apply active_not_receiving|by rewrite Hx]).
      rewrite Hwo by done. exact Hx.
    + intros [Hx Hy]. assert (Hr : state (sched p) <> PROC_RECEIVING) by (destruct Hx as [Hx|Hx]; [by apply active_not_receiving|by rewrite Hx]).
      rewrite Hwo by done. by split.
    + intros [Hx|(Hr & Hw & _)]; [rewrite Hact by done; by left|]. rewrite wake_yes by (try done; by right). left. apply active_runnable.
    + intros [[Hx _]|(Hr & Hw & _)]; [rewrite Hact by done; by left|]. rewrite wake_yes by (try done; by left). left. split; [apply active_runnable|done].
    + intros (ps & Hs & Hps & Hor). exists ps. split; [done|]. split; [done|].
      destruct Hor as [[Hx Hy]|(Hr & Hw & Hy)]; [rewrite Hact by done; by left|]. destruct (co_pid _ _ H _ ps Hs Hps) as [Hpid _].
      rewrite wake_no; [by right|cbn [set_has_intr with_ipc ipc wait]; rewrite Hw; unfold IPC_SIGNAL, IPC_INTR, IPC_ALL in *; lia..].
    + intros Hx. assert (Hr : state (sched p) <> PROC_RECEIVING) by (destruct Hx as [Hx|Hx]; [by apply active_not_receiving|by rewrite Hx]).
      rewrite Hwo by done. exact Hx.
Qed.

Lemma send_effect_ipc c d to m from a p :
  pid (send_effect c d to m from a p) = pid p /\ has_intr (ipc (send_effect c d to m from a p)) = has_intr (ipc p) /\
  wait_proc (ipc (send_effect c d to m from a p)) = (if a =? d then wait_proc (ipc p) ++ [c] else wait_proc (ipc p)) /\
  wait (ipc (send_effect c d to m from a p)) = (if a =? c then to else wait (ipc p)) /\
  msg (ipc (send_effect c d to m from a p)) = (if a =? c then m else msg (ipc p)).
Proof. unfold send_effect. destruct (a =? c), (a =? d); rewrite ?(proj1 (wake_ipc _ _)), ?(proj2 (wake_ipc _ _)); done. Qed.

Lemma send_effect_sending c d to m from a p :
  state (sched (send_effect c d to m from a p)) = PROC_SENDING <-> a = c \/ state (sched p) = PROC_SENDING.
Proof.
  unfold send_effect. destruct (a =? d); rewrite ?wake_sending; destruct (a =? c) eqn:E; zbool; cbn [set_wait_proc with_ipc sched]; tauto.
Qed.

Lemma send_effect_self c d to m from p : state (sched (send_effect c d to m from c p)) = PROC_SENDING.
Proof. apply send_effect_sending. by left. Qed.

(** A process other than the sender: only a wake-up changes it. *)
Lemma send_effect_other c d to m from a p : a <> c ->
  send_effect c d to m from a p = if a =? d then wake from (set_wait_proc p (wait_proc (ipc p) ++ [c])) else p.
Proof. intros H. unfold send_effect. by rewrite (proj2 (Z.eqb_neq a c) H). Qed.

Lemma send_proc_ok t ks c pc d to m a p k :
  core_ok t ks -> hashed t c -> procs t !! c = Some pc -> hashed t a -> procs t !! a = Some p -> a <> c ->
  proc_ok t p k -> proc_ok t (send_effect c d to m (pid pc) a p) k.
Proof.
  intros H Hc Hpc Ha Hp Hne. rewrite send_effect_other by done. destruct (a =? d); [|done].
  set (p1 := set_wait_proc p (wait_proc (ipc p) ++ [c])).
  assert (Hwo : active p \/ state (sched p) = PROC_SENDING \/ state (sched p) = PROC_STOPPED -> wake (pid pc) p1 = p1).
  { intros Hx. apply wake_other. destruct Hx as [Hx|[Hx|Hx]]; [by apply active_not_receiving|..]; unfold p1; cbn [set_wait_proc with_ipc sched]; by rewrite Hx. }
  destruct k as [[]|]; cbn [proc_ok].
  - intros Hx. rewrite Hwo by tauto. exact Hx.
  - intros [Hx Hy]. rewrite Hwo by tauto. by split.
  - intros [Hx|(Hr & Hw & _)]; [rewrite Hwo by tauto; by left|]. rewrite wake_yes by (try done; by right). left. apply active_runnable.
  - destruct (co_pid _ _ H c pc Hc Hpc) as [Hpid _]. intros [[Hx Hy]|(Hr & Hw & Hi)]; [rewrite Hwo by tauto; by left|].
    rewrite wake_no; [by right|unfold p1; cbn [set_wait_proc with_ipc ipc wait]; rewrite Hw; unfold IPC_SIGNAL, IPC_INTR, IPC_ALL in *; lia..].
  - intros (ps & Hs & Hps & Hor). exists ps. split; [done|]. split; [done|]. destruct (co_pid _ _ H _ ps Hs Hps) as [Hpid _].
    destruct Hor as [[Hx Hy]|(Hr & Hw & Hy)].
    + rewrite Hwo by tauto. left. split; [done|]. unfold p1. cbn [set_wait_proc with_ipc ipc wait_proc]. set_solver.
    + destruct (decide (source = c)) as [->|Hsc].
      * rewrite Hpc in Hps. injection Hps as <-. rewrite wake_yes by (try done; by left). left. split; [apply active_runnable|].
        unfold p1. cbn [set_state with_sched set_wait_proc with_ipc ipc wait_proc]. set_solver.
      * rewrite wake_no; [|unfold p1; cbn [set_wait_proc with_ipc ipc wait]; rewrite Hw..].
        { right. split; [done|]. split; [done|]. unfold p1. cbn [set_wait_proc with_ipc ipc wait_proc]. set_solver. }
        { intros E. apply Hsc. by apply (ho_pid _ (co_hash _ _ H) source c ps pc). }
        { unfold IPC_SIGNAL, IPC_ALL in *; lia. }
  - intros Hx. rewrite Hwo by tauto. exact Hx.
Qed.

Lemma send_core t ks c pc d pd m k t' :
  core_ok t ks -> hashed t c -> procs t !! c = Some pc -> active pc -> hashed t d -> procs t !! d = Some pd ->
  same_shape t t' -> (forall a p, procs t !! a = Some p -> procs t' !! a = Some (send_effect c d (pid pd) m (pid pc) a p)) ->
  k = KSent m \/ k = KSentRecv (pid pd) m -> core_ok t' (<[c := k]> ks).
Proof.
  intros H Hc Hpc Hact Hd Hpd S L Hk. apply (core_ok_effect t t' ks _ _ H S L).
  - intros a. destruct (decide (c = a)) as [<-|]; [done|]. rewrite lookup_insert_ne by done. apply H.
  - intros a p Ha Hp. destruct (co_queue _ _ H a p Ha Hp) as [Hn Hb].
    destruct (send_effect_ipc c d (pid pd) m (pid pc) a p) as (_ & _ & Eq & _). rewrite Eq.
    assert (Hcp : c ∉ wait_proc (ipc p)) by (by apply (not_queued t ks a p c pc)).
    split.
    { destruct (a =? d); [|done]. apply NoDup_app. split; [done|]. split; [|apply NoDup_singleton]. intros x Hx ->%list_elem_of_singleton. done. }
    intros b. assert (Hsplit : b ∈ (if a =? d then wait_proc (ipc p) ++ [c] else wait_proc (ipc p)) <-> b ∈ wait_proc (ipc p) \/ b = c /\ a = d).
    { destruct (a =? d) eqn:E; zbool; rewrite ?elem_of_app, ?list_elem_of_singleton; tauto. }
    rewrite Hsplit. split.
    + intros [Hbp|[-> ->]].
      * assert (b <> c) by (intros ->; done). apply Hb in Hbp as [Hhb (q & Hq & Hs & Hw)]. split; [done|]. exists q. split; [done|].
        rewrite send_effect_sending. destruct (send_effect_ipc c d (pid pd) m (pid pc) b q) as (_ & _ & _ & -> & _).
        rewrite (proj2 (Z.eqb_neq b c)) by done. tauto.
      * split; [done|]. exists pc. split; [done|]. rewrite send_effect_sending. destruct (send_effect_ipc c d (pid pd) m (pid pc) c pc) as (_ & _ & _ & -> & _).
        rewrite Z.eqb_refl. rewrite Hpd in Hp. injection Hp as <-. tauto.
    + intros [Hhb (q & Hq & Hs & Hw)]. rewrite send_effect_sending in Hs. destruct (send_effect_ipc c d (pid pd) m (pid pc) b q) as (_ & _ & _ & Ew & _).
      rewrite Ew in Hw. destruct (b =? c) eqn:Ebc; zbool.
      * right. split; [done|]. by apply (ho_pid _ (co_hash _ _ H) a d p pd).
      * left. apply Hb. split; [done|]. exists q. split; [done|]. split; [tauto|done].
  - intros a p Ha Hp. destruct (decide (a = c)) as [->|Hne].
    + rewrite lookup_insert_eq. pose proof (send_effect_self c d (pid pd) m (pid pc) p). destruct Hk as [-> | ->]; cbn [proc_ok]; [by right|].
      split; [by right|]. by exists d, pd.
    + rewrite lookup_insert_ne by done. apply (send_proc_ok t ks); [done..|by apply (co_proc _ _ H)].
Qed.

(** ** The scheduler and the invariant *)

(** The scheduler's changes: runnable and running are exchanged. *)
Definition resched (p p' : proc_t) : Prop :=
  exists s, p' = with_sched p s /\ alarm s = alarm (sched p) /\ (state s = state (sched p) \/ active p /\ active p').

Lemma resched_refl p : resched p p.
Proof. exists (sched p). destruct p. split; [done|]. split; [done|by left]. Qed.

Lemma resched_trans p q r : resched p q -> resched q r -> resched p r.
Proof.
  intros (s & -> & E1 & H1) (s' & -> & E2 & H2). exists s'. cbn [with_sched sched] in *. split; [done|]. split; [congruence|].
  unfold active in *. cbn [with_sched sched] in *. destruct H1 as [H1|[H1 H1']], H2 as [H2|[H2 H2']].
  - left. congruence.
  - right. rewrite <- H1. tauto.
  - right. rewrite H2. tauto.
  - right. tauto.
Qed.

Record resched_table (t t' : ptable) : Prop := {
  rt_hash : proc_hash t' = proc_hash t;
  rt_head : forall a, a ∈ proc_head t' <-> a ∈ proc_head t;
  rt_proc : forall a p', procs t' !! a = Some p' -> exists p, procs t !! a = Some p /\ resched p p';
  rt_proc' : forall a p, procs t !! a = Some p -> exists p', procs t' !! a = Some p' /\ resched p p' }.

Lemma resched_active p p' : resched p p' -> active p <-> active p'.
Proof. intros (s & -> & _ & [E|E]); [|tauto]. unfold active. cbn [with_sched sched]. by rewrite E. Qed.

Lemma resched_state p p' v : resched p p' -> v <> PROC_RUNNABLE -> v <> PROC_RUNNING -> state (sched p) = v <-> state (sched p') = v.
Proof.
  intros (s & -> & _ & [E|[E1 E2]]) H1 H2; cbn [with_sched sched]; [by rewrite E|].
  destruct E1 as [E1|E1], E2 as [E2|E2]; cbn [with_sched sched] in *; rewrite E1, E2; split; congruence.
Qed.

Lemma resched_fields p p' : resched p p' -> pid p' = pid p /\ ipc p' = ipc p /\ alarm (sched p') = alarm (sched p).
Proof. by intros (s & -> & E & _). Qed.

Lemma resched_hashed t t' a : resched_table t t' -> hashed t' a <-> hashed t a.
Proof. intros S. unfold hashed. by rewrite (rt_hash _ _ S). Qed.

Lemma core_ok_resched t t' ks : resched_table t t' -> core_ok t ks -> core_ok t' ks.
Proof.
  intros S [H0 H1 H2 H3 H4 H5 H6]. pose proof (rt_hash _ _ S) as E. pose proof (fun a => resched_hashed t t' a S) as Hh. split.
  - destruct (procs t' !! NULL) as [p'|] eqn:En; [|done]. destruct (rt_proc _ _ S NULL p' En) as (p & Ep & _). by rewrite H0 in Ep.
  - destruct H1 as [A1 A2 A3 A4]. split; [by rewrite E|..|by rewrite E|].
    + rewrite E. intros k l a Hk Ha. destruct (A2 k l a Hk Ha) as [Hnz (p & Hp & Hb)]. split; [done|].
      destruct (rt_proc' _ _ S a p Hp) as (p' & Hp' & (Ep & _)%resched_fields). exists p'. by rewrite Ep.
    + intros a b p' q' Ha Hb Hp' Hq' Epq. rewrite Hh in Ha, Hb.
      destruct (rt_proc _ _ S a p' Hp') as (p & Hp & (Ep & _)%resched_fields), (rt_proc _ _ S b q' Hq') as (q & Hq & (Eq & _)%resched_fields).
      apply (A4 a b p q); [done..|congruence].
  - intros a. rewrite Hh, (rt_head _ _ S). apply H2.
  - intros a p' Ha Hp'. rewrite Hh in Ha. destruct (rt_proc _ _ S a p' Hp') as (p & Hp & (-> & _ & ->)%resched_fields). by apply (H3 a).
  - intros a. rewrite Hh. apply H4.
  - intros a p' Ha Hp'. rewrite Hh in Ha. destruct (rt_proc _ _ S a p' Hp') as (p & Hp & R). destruct (resched_fields p p' R) as (Ep & Ei & _).
    destruct (H5 a p Ha Hp) as [Hn Hb]. unfold queue_ok. rewrite Ep, Ei. split; [done|]. intros b. rewrite Hb, Hh.
    split; intros [Hhb (q & Hq & Hs & Hw)]; (split; [done|]).
    + destruct (rt_proc' _ _ S b q Hq) as (q' & Hq' & Rq). destruct (resched_fields q q' Rq) as (_ & Ei' & _).
      exists q'. split; [done|]. rewrite Ei', <- (resched_state q q') by done. done.
    + destruct (rt_proc _ _ S b q Hq) as (q' & Hq' & Rq). destruct (resched_fields q' q Rq) as (_ & Ei' & _).
      exists q'. split; [done|]. rewrite <- Ei', (resched_state q' q) by done. done.
  - intros a p' Ha Hp'. rewrite Hh in Ha. destruct (rt_proc _ _ S a p' Hp') as (p & Hp & R). destruct (resched_fields p p' R) as (Ep & Ei & _).
    specialize (H6 a p Ha Hp). revert H6. pose proof (resched_active p p' R). pose proof (resched_state p p' PROC_RECEIVING R ltac:(done) ltac:(done)).
    pose proof (resched_state p p' PROC_SENDING R ltac:(done) ltac:(done)). pose proof (resched_state p p' PROC_STOPPED R ltac:(done) ltac:(done)).
    unfold proc_ok. destruct (ks !! a) as [[]|]; rewrite ?Ei; [tauto|..|tauto].
    + intros [? (s & ps & Hs & Hps & Hto)]. split; [tauto|]. destruct (rt_proc' _ _ S s ps Hps) as (ps' & Hps' & (Eps & _)%resched_fields).
      exists s, ps'. rewrite Hh, Eps. done.
    + tauto.
    + tauto.
    + intros (ps & Hs & Hps & Hor). destruct (rt_proc' _ _ S _ ps Hps) as (ps' & Hps' & (Eps & _)%resched_fields).
      exists ps'. rewrite Hh, Eps. tauto.
Qed.

Lemma preempted_resched p : resched p (preempted p).
Proof.
  unfold preempted. case_if; eexists; (split; [reflexivity|]); (split; [done|]); [|by left].
  right. split; [by right|by left].
Qed.

Lemma schedule_resched t c next t' :
  sched_ok t 0 c -> schedule t 0 c = Some (next, t') -> resched_table t t'.
Proof.
  intros H E. destruct (schedule_ok t 0 c H) as (next' & t'' & E' & p & Hp & Hhead & _ & _ & _ & Hdom & _). rewrite E in E'. injection E' as <- <-.
  destruct (schedule_procs t 0 c p next t' Hp E) as (Hh & _ & q & Hq & Hor).
  assert (L : forall a r, procs t !! a = Some r -> exists r', procs t' !! a = Some r' /\ resched r r').
  { intros a r Hr. assert (L1 : exists r1, <[c := preempted p]> (procs t) !! a = Some r1 /\ resched r r1).
    { destruct (decide (c = a)) as [<-|Hne]; [|exists r; rewrite lookup_insert_ne by done; split; [done|apply resched_refl]].
      exists (preempted p). rewrite lookup_insert_eq. rewrite Hp in Hr. injection Hr as <-. split; [done|apply preempted_resched]. }
    destruct L1 as (r1 & Hr1 & R). destruct (decide (next = a)) as [<-|Hne].
    - rewrite Hq in Hr1. injection Hr1 as <-. destruct Hor as [[Hs ->]|[_ ->]]; rewrite lookup_insert_eq; eexists; (split; [reflexivity|]);
        (eapply resched_trans; [exact R|]); eexists; (split; [reflexivity|]); (split; [done|]); [right; split; [by left|by right]|by left].
    - exists r1. split; [|done]. destruct Hor as [[_ ->]|[_ ->]]; by rewrite lookup_insert_ne. }
  split; [done| | |exact L].
  - intros a. rewrite Hhead. by apply (rotated_elem t 0 c p a).
  - intros a p' Hp'. destruct (proj1 (Hdom a)) as [r Hr]; [by exists p'|]. exists r. split; [done|].
    destruct (L a r Hr) as (r' & Hr' & R). rewrite Hp' in Hr'. by injection Hr' as ->.
Qed.

Lemma schedule_running t c :
  sched_ok t 0 c -> (forall i p, proc_idle t !! 0%nat = Some i -> procs t !! i = Some p -> active p) ->
  exists next t', schedule t 0 c = Some (next, t') /\ running_ok t' next /\ resched_table t t'.
Proof.
  intros H Hi. destruct (schedule_ok t 0 c H) as (next & t' & E & p & Hp & _ & Hidle & Hok & _).
  pose proof (schedule_resched t c next t' H E) as R. exists next, t'. split; [done|]. split; [|done]. split; [done|].
  assert (Hi' : forall i q, proc_idle t' !! 0%nat = Some i -> procs t' !! i = Some q -> active q).
  { intros i q Hii Hq. rewrite Hidle in Hii. destruct (rt_proc _ _ R i q Hq) as (q0 & Hq0 & Rq). rewrite <- (resched_active q0 q Rq). by apply (Hi i). }
  split; [|done]. intros q Hq. destruct (schedule_procs t 0 c p next t' Hp E) as (_ & _ & q0 & _ & [[_ Et]|[Hn _]]).
  - rewrite Et, lookup_insert_eq in Hq. injection Hq as <-. by right.
  - apply (Hi' next); [|done]. by rewrite Hidle.
Qed.

(** Without alarms a tick changes no process. *)
Lemma update_alarm_none t :
  (forall a p, a ∈ proc_head t -> procs t !! a = Some p -> alarm (sched p) = 0) -> update_alarm t = t.
Proof.
  unfold update_alarm. generalize (proc_head t) as l. induction l as [|x l IH]; intros H; cbn [foldl]; [done|].
  assert (E : match procs t !! x with Some p => set_proc t x (tick_alarm p) | None => t end = t).
  { destruct (procs t !! x) as [p|] eqn:Ex; [|done]. unfold tick_alarm. rewrite (H x p) by (done || set_solver). cbn [Z.eqb].
    unfold set_proc, set_procs. rewrite insert_id by done. by destruct t. }
  rewrite E. apply IH. intros a p Ha. apply H. set_solver.
Qed.

Lemma need_schedule_idle f : Z.land (Z.lor f NEED_SCHEDULE) PF_IDLE = Z.land f PF_IDLE.
Proof. rewrite Z.land_lor_distr_l. replace (Z.land NEED_SCHEDULE PF_IDLE) with 0 by done. apply Z.lor_0_r. Qed.

Lemma resched_table_trans t1 t2 t3 : resched_table t1 t2 -> resched_table t2 t3 -> resched_table t1 t3.
Proof.
  intros R1 R2. split; [rewrite (rt_hash _ _ R2); apply R1|intros a; rewrite (rt_head _ _ R2); apply R1|..].
  - intros a q Hq. destruct (rt_proc _ _ R2 a q Hq) as (q1 & Hq1 & Ra). destruct (rt_proc _ _ R1 a q1 Hq1) as (q0 & Hq0 & Rb).
    exists q0. split; [done|by eapply resched_trans].
  - intros a q Hq. destruct (rt_proc' _ _ R1 a q Hq) as (q1 & Hq1 & Ra). destruct (rt_proc' _ _ R2 a q1 Hq1) as (q2 & Hq2 & Rb).
    exists q2. split; [done|by eapply resched_trans].
Qed.

(** The clock interrupt. *)
Lemma timer_ok t ks c :
  core_ok t ks -> running_ok t c ->
  exists next t', timer t c = Some (next, t') /\ core_ok t' ks /\ running_ok t' next /\ resched_table t t'.
Proof.
  intros H (Hs & Ha & Hi). unfold timer. rewrite update_alarm_none.
  2: { intros a p Hin Hp. apply (co_pid _ _ H a p); [by apply (co_head _ _ H)|done]. }
  assert (Hc : exists p, procs t !! c = Some p).
  { destruct (so_cur _ _ _ Hs) as [Hc|Hc]; [destruct (so_queue _ _ _ Hs c Hc) as (p & ? & _); by exists p|].
    destruct (so_idle _ _ _ Hs) as (a & p & Hx & Hp & _). rewrite Hc in Hx. injection Hx as ->. by exists p. }
  destruct Hc as [p Hp]. unfold update. change (procs (ticks_plus t)) with (procs t). rewrite Hp. some_bind.
  set (p1 := set_flags p (Z.lor (flags (sched p)) NEED_SCHEDULE)). set (t1 := set_proc (ticks_plus t) c p1).
  assert (R1 : resched p p1) by (eexists; split; [reflexivity|]; split; [done|by left]).
  assert (L1 : forall a q, procs t !! a = Some q -> procs t1 !! a = Some (if a =? c then p1 else q)).
  { intros a q Hq. unfold t1. cbn [set_proc set_procs procs ticks_plus]. destruct (a =? c) eqn:E; zbool; [subst a; by rewrite lookup_insert_eq|by rewrite lookup_insert_ne]. }
  assert (RT : resched_table t t1).
  { split; [done|done|..].
    - intros a q. unfold t1. cbn [set_proc set_procs procs ticks_plus]. destruct (decide (c = a)) as [<-|Hne].
      + rewrite lookup_insert_eq. intros Hq. injection Hq as <-. by exists p.
      + rewrite lookup_insert_ne by done. intros Hq. exists q. split; [done|apply resched_refl].
    - intros a q Hq. eexists. split; [by apply L1|]. destruct (a =? c) eqn:E; zbool; [subst a; rewrite Hp in Hq; by injection Hq as <-|apply resched_refl]. }
  assert (Hid : is_idle p1 = is_idle p) by (unfold is_idle, p1; cbn [set_flags with_sched sched flags]; by rewrite need_schedule_idle).
  assert (Hs1 : sched_ok t1 0 c).
  { destruct Hs as [S1 S2 S3 S4]. split; [..|exact S4].
    - destruct S1 as (a & q & A1 & A2 & A3 & A4). exists a. eexists. split; [done|]. split; [by apply L1|]. split; [|done].
      destruct (a =? c) eqn:E; zbool; [subst a|done]. rewrite Hp in A2. injection A2 as ->. by rewrite Hid.
    - exact S2.
    - intros a Hin. destruct (S3 a Hin) as (q & A2 & A3 & A4). eexists. split; [by apply L1|].
      destruct (a =? c) eqn:E; zbool; [subst a|done]. rewrite Hp in A2. injection A2 as ->. by rewrite Hid. }
  destruct (schedule_running t1 c Hs1) as (next & t' & E & Hr & R).
  { intros i q Hii Hq. destruct (rt_proc _ _ RT i q Hq) as (q0 & Hq0 & Rq). rewrite <- (resched_active q0 q Rq). by apply (Hi i). }
  exists next, t'. split; [done|]. split; [|split; [done|]].
  - apply (core_ok_resched t1); [done|]. by apply (core_ok_resched t).
  - by eapply resched_table_trans.
Qed.

(** ** Mailboxes *)

(** The specification: every process has the messages posted for it, in order, and
    a flag for its interrupt. *)
Definition mailbox : Type := list message * bool.

Inductive mail_step (A : gmap Z mailbox) : label -> gmap Z mailbox -> Prop :=
  | ms_send s q m l i : A !! q = Some (l, i) -> is_Some (A !! s) -> mail_step A (LSend s q m) (<[q := (l ++ [m], i)]> A)
  | ms_recv_all q m l : A !! q = Some (m :: l, false) -> mail_step A (LRecv q IPC_ALL m) (<[q := (l, false)]> A)
  | ms_recv_from q m l1 l2 i :
      A !! q = Some (l1 ++ m :: l2, i) -> (forall m', m' ∈ l1 -> src m' <> src m) -> mail_step A (LRecv q (src m) m) (<[q := (l1 ++ l2, i)]> A)
  | ms_recv_intr q from m l :
      A !! q = Some (l, true) -> from = IPC_ALL \/ from = IPC_INTR -> mtype m = MSG_INTR -> body m = m_intr INTR_OK ->
      mail_step A (LRecv q from m) (<[q := (l, false)]> A)
  | ms_raise q l i : A !! q = Some (l, i) -> mail_step A (LRaise q) (<[q := (l, true)]> A)
  | ms_tau : mail_step A LTau A.

Definition msg_of (t : ptable) (s : Z) : message :=
  match procs t !! s with Some q => msg (ipc q) | None => mk_message 0 0 m_none end.

Definition flag (p : proc_t) : bool := negb (has_intr (ipc p) =? 0).

(** The mailboxes the kernel implements; the sender of a queued message is its [src]. *)
Definition models (A : gmap Z mailbox) (t : ptable) : Prop :=
  forall a p, hashed t a -> procs t !! a = Some p ->
    A !! a = Some (msg_of t <$> wait_proc (ipc p), flag p) /\
    forall s, s ∈ wait_proc (ipc p) -> exists q, procs t !! s = Some q /\ src (msg (ipc q)) = pid q.

Lemma models_resched A t t' : resched_table t t' -> models A t -> models A t'.
Proof.
  intros R H a p' Ha Hp'. rewrite (resched_hashed t t' a R) in Ha. destruct (rt_proc _ _ R a p' Hp') as (p & Hp & (_ & Ei & _)%resched_fields).
  destruct (H a p Ha Hp) as [HA Hs]. unfold flag. rewrite Ei. split.
  - rewrite HA. f_equal. f_equal. apply list_fmap_ext. intros i s _. unfold msg_of.
    destruct (procs t !! s) as [q|] eqn:Eq.
    + destruct (rt_proc' _ _ R s q Eq) as (q' & -> & (_ & -> & _)%resched_fields). done.
    + destruct (procs t' !! s) as [q'|] eqn:Eq'; [|done]. destruct (rt_proc _ _ R s q' Eq') as (q & Hq & _). congruence.
  - intros s Hin. destruct (Hs s Hin) as (q & Hq & E). destruct (rt_proc' _ _ R s q Hq) as (q' & Hq' & (E1 & E2 & _)%resched_fields).
    exists q'. by rewrite E1, E2.
Qed.

(** An operation that changes no message in a queue. *)
Lemma models_effect A A' t t' eff :
  models A t -> same_shape t t' -> (forall a p, procs t !! a = Some p -> procs t' !! a = Some (eff a p)) ->
  (forall a p s q, hashed t a -> procs t !! a = Some p -> s ∈ wait_proc (ipc (eff a p)) -> procs t !! s = Some q ->
    src (msg (ipc (eff s q))) = pid q) ->
  (forall a p s, hashed t a -> procs t !! a = Some p -> s ∈ wait_proc (ipc (eff a p)) -> is_Some (procs t !! s)) ->
  (forall a p, hashed t a -> procs t !! a = Some p -> A' !! a = Some (msg_of t' <$> wait_proc (ipc (eff a p)), flag (eff a p))) ->
  models A' t'.
Proof.
  intros H S L Hsrc Hex HA a p' Ha Hp'. rewrite (same_hashed t t' a S) in Ha.
  destruct (ss_proc _ _ S a p' Hp') as (p & Hp & _). rewrite (L a p Hp) in Hp'. injection Hp' as <-. split; [by apply HA|].
  intros s Hs. destruct (Hex a p s Ha Hp Hs) as [q Hq]. exists (eff s q). split; [by apply L|].
  rewrite (Hsrc a p s q Ha Hp Hs Hq). destruct (ss_proc' _ _ S s q Hq) as (q' & Hq' & E & _). rewrite (L s q Hq) in Hq'. by injection Hq' as <-.
Qed.

Lemma msg_of_effect t t' eff s :
  same_shape t t' -> (forall a p, procs t !! a = Some p -> procs t' !! a = Some (eff a p)) ->
  (forall p, procs t !! s = Some p -> msg (ipc (eff s p)) = msg (ipc p)) -> msg_of t' s = msg_of t s.
Proof.
  intros S L He. unfold msg_of. destruct (procs t !! s) as [q|] eqn:Eq; [by rewrite (L s q Eq), (He q)|].
  destruct (procs t' !! s) as [q'|] eqn:Eq'; [|done]. destruct (ss_proc _ _ S s q' Eq') as (q & Hq & _). congruence.
Qed.

Lemma models_keep A A' t t' eff :
  models A t -> same_shape t t' -> (forall a p, procs t !! a = Some p -> procs t' !! a = Some (eff a p)) ->
  (forall a p, msg (ipc (eff a p)) = msg (ipc p)) -> (forall a p s, s ∈ wait_proc (ipc (eff a p)) -> s ∈ wait_proc (ipc p)) ->
  (forall a p, hashed t a -> procs t !! a = Some p -> A' !! a = Some (msg_of t <$> wait_proc (ipc (eff a p)), flag (eff a p))) ->
  models A' t'.
Proof.
  intros H S L Hm Hw HA. apply (models_effect A A' t t' eff H S L).
  - intros a p s q Ha Hp Hs Hq. destruct (H a p Ha Hp) as [_ Hsrc]. destruct (Hsrc s) as (q' & Hq' & E); [by eapply Hw|].
    rewrite Hq in Hq'. injection Hq' as <-. by rewrite Hm.
  - intros a p s Ha Hp Hs. destruct (H a p Ha Hp) as [_ Hsrc]. destruct (Hsrc s) as (q' & Hq' & E); [by eapply Hw|]. by exists q'.
  - intros a p Ha Hp. rewrite (HA a p Ha Hp). f_equal. f_equal. apply list_fmap_ext. intros i s _. symmetry.
    apply (msg_of_effect t t' eff s S L). intros q _. apply Hm.
Qed.

(** Blocking changes no mailbox. *)
Lemma block_models A t t' c from :
  models A t -> same_shape t t' ->
  (forall a p, procs t !! a = Some p -> procs t' !! a = Some (if a =? c then set_state (set_wait p from) PROC_RECEIVING else p)) -> models A t'.
Proof.
  intros H S L. apply (models_keep A A t t' _ H S L).
  - intros a p. by case_if.
  - intros a p s. by case_if.
  - intros a p Ha Hp. pose proof (proj1 (H a p Ha Hp)). by case_if.
Qed.

Lemma recv_intr_models A t t' c pc :
  models A t -> hashed t c -> procs t !! c = Some pc -> same_shape t t' ->
  (forall a p, procs t !! a = Some p -> procs t' !! a = Some (if a =? c then set_has_intr p 0 else p)) ->
  models (<[c := (msg_of t <$> wait_proc (ipc pc), false)]> A) t'.
Proof.
  intros H Hc Hpc S L. apply (models_keep A _ t t' _ H S L).
  - intros a p. by case_if.
  - intros a p s. by case_if.
  - intros a p Ha Hp. case_if.
    + subst a. rewrite Hpc in Hp. injection Hp as <-. by rewrite lookup_insert_eq.
    + rewrite lookup_insert_ne by done. exact (proj1 (H a p Ha Hp)).
Qed.

Lemma hwint_models A t t' d pd :
  models A t -> hashed t d -> procs t !! d = Some pd -> same_shape t t' ->
  (forall a p, procs t !! a = Some p -> procs t' !! a = Some (if a =? d then wake IPC_INTR (set_has_intr p 1) else p)) ->
  models (<[d := (msg_of t <$> wait_proc (ipc pd), true)]> A) t'.
Proof.
  intros H Hd Hpd S L. apply (models_keep A _ t t' _ H S L).
  - intros a p. case_if; [|done]. by rewrite (proj1 (wake_ipc _ _)).
  - intros a p s. case_if; [|done]. by rewrite (proj1 (wake_ipc _ _)).
  - intros a p Ha Hp. case_if.
    + subst a. rewrite Hpd in Hp. injection Hp as <-. unfold flag. rewrite lookup_insert_eq, (proj1 (wake_ipc _ _)). done.
    + rewrite lookup_insert_ne by done. exact (proj1 (H a p Ha Hp)).
Qed.

Lemma take_models A t t' c pc s :
  models A t -> hashed t c -> procs t !! c = Some pc -> s <> c -> same_shape t t' ->
  (forall a p, procs t !! a = Some p -> procs t' !! a = Some (take_effect c s a p)) ->
  models (<[c := (msg_of t <$> remove s (wait_proc (ipc pc)), flag pc)]> A) t'.
Proof.
  intros H Hc Hpc Hsc S L. apply (models_keep A _ t t' _ H S L).
  - intros a p. unfold take_effect. by repeat case_if.
  - intros a p x. unfold take_effect. repeat case_if; [done| |done]. cbn [set_wait set_wait_proc with_ipc ipc wait_proc]. by intros [_ ?]%elem_remove.
  - intros a p Ha Hp. unfold take_effect. destruct (a =? s) eqn:Eas; zbool; [subst a|destruct (a =? c) eqn:Eac; zbool].
    + rewrite lookup_insert_ne by done. exact (proj1 (H s p Ha Hp)).
    + subst a. rewrite Hpc in Hp. injection Hp as <-. by rewrite lookup_insert_eq.
    + rewrite lookup_insert_ne by done. exact (proj1 (H a p Ha Hp)).
Qed.

Lemma send_models A t ks t' c pc d pd m :
  core_ok t ks -> models A t -> hashed t c -> procs t !! c = Some pc -> active pc -> hashed t d -> procs t !! d = Some pd -> src m = pid pc ->
  same_shape t t' -> (forall a p, procs t !! a = Some p -> procs t' !! a = Some (send_effect c d (pid pd) m (pid pc) a p)) ->
  models (<[d := ((msg_of t <$> wait_proc (ipc pd)) ++ [m], flag pd)]> A) t'.
Proof.
  intros HK H Hc Hpc Hact Hd Hpd Hm S L.
  assert (Hmsg : forall s, s <> c -> msg_of t' s = msg_of t s).
  { intros s Hs. apply (msg_of_effect t t' _ s S L). intros p _. destruct (send_effect_ipc c d (pid pd) m (pid pc) s p) as (_ & _ & _ & _ & ->).
    by rewrite (proj2 (Z.eqb_neq s c) Hs). }
  assert (Hmc : msg_of t' c = m).
  { unfold msg_of. rewrite (L c pc Hpc). destruct (send_effect_ipc c d (pid pd) m (pid pc) c pc) as (_ & _ & _ & _ & ->). by rewrite Z.eqb_refl. }
  assert (Hold : forall a p, hashed t a -> procs t !! a = Some p -> msg_of t' <$> wait_proc (ipc p) = msg_of t <$> wait_proc (ipc p)).
  { intros a p Ha Hp. apply list_fmap_ext. intros i s Hs. apply Hmsg. intros ->. apply (not_queued t ks a p c pc); [done..|by eapply list_elem_of_lookup_2]. }
  assert (Hin : forall a p s, s ∈ wait_proc (ipc (send_effect c d (pid pd) m (pid pc) a p)) -> s ∈ wait_proc (ipc p) \/ s = c).
  { intros a p s. destruct (send_effect_ipc c d (pid pd) m (pid pc) a p) as (_ & _ & -> & _). case_if; [|tauto]. rewrite elem_of_app, list_elem_of_singleton. tauto. }
  apply (models_effect A _ t t' _ H S L).
  - intros a p s q Ha Hp Hs Hq. destruct (send_effect_ipc c d (pid pd) m (pid pc) s q) as (_ & _ & _ & _ & ->).
    destruct (s =? c) eqn:E; zbool; [subst s; congruence|]. destruct (Hin a p s Hs) as [Hs'|]; [|done].
    destruct (H a p Ha Hp) as [_ Hsrc]. destruct (Hsrc s Hs') as (q' & Hq' & Eq). congruence.
  - intros a p s Ha Hp Hs. destruct (Hin a p s Hs) as [Hs'| ->]; [|by exists pc]. destruct (H a p Ha Hp) as [_ Hsrc].
    destruct (Hsrc s Hs') as (q' & Hq' & _). by exists q'.
  - intros a p Ha Hp. destruct (send_effect_ipc c d (pid pd) m (pid pc) a p) as (_ & Ef & -> & _). unfold flag. rewrite Ef.
    destruct (a =? d) eqn:E; zbool.
    + subst a. rewrite Hpd in Hp. injection Hp as <-. rewrite lookup_insert_eq, fmap_app, (Hold d pd Hd Hpd). cbn. by rewrite Hmc.
    + rewrite lookup_insert_ne, (Hold a p Ha Hp) by done. exact (proj1 (H a p Ha Hp)).
Qed.

(** ** The steps *)

Definition good (w : world) (A : gmap Z mailbox) (o : outcome) (l : label) : Prop :=
  exists w' A', finish w o = Some w' /\ ipc_ok w' /\ mail_step A l A' /\ models A' (tab w').

(** A process inside the kernel or calling it: current, known and active. *)
Record at_kernel (w : world) (A : gmap Z mailbox) (pc : proc_t) : Prop := {
  ak_ok : ipc_ok w;
  ak_models : models A (tab w);
  ak_hashed : hashed (tab w) (cur w);
  ak_proc : procs (tab w) !! cur w = Some pc }.

Lemma ak_active w A pc : at_kernel w A pc -> active pc.
Proof. intros [[_ (_ & H & _)] _ _ Hp]. by apply H. Qed.

Lemma idle_not_hashed w i : ipc_ok w -> proc_idle (tab w) !! 0%nat = Some i -> ~ hashed (tab w) i.
Proof.
  intros [H (Hs & _)] Hi Hh. destruct (so_idle _ _ _ Hs) as (a & p & Ha & _ & _ & Hn).
  change (Z.to_nat 0) with 0%nat in Ha. rewrite Hi in Ha. injection Ha as <-. apply Hn. by apply (co_head _ _ H).
Qed.

(** The idle process is not touched by an operation on known processes. *)
Lemma idle_active w t' eff :
  ipc_ok w -> same_shape (tab w) t' -> (forall a p, procs (tab w) !! a = Some p -> procs t' !! a = Some (eff a p)) ->
  (forall a p, ~ hashed (tab w) a -> eff a p = p) ->
  forall i p, proc_idle t' !! 0%nat = Some i -> procs t' !! i = Some p -> active p.
Proof.
  intros H S L He i p' Hi Hp'. rewrite (ss_idle _ _ S) in Hi. destruct (ss_proc _ _ S i p' Hp') as (p & Hp & _).
  rewrite (L i p Hp), He in Hp' by (by eapply idle_not_hashed). injection Hp' as <-. destruct H as [_ (_ & _ & Ha)]. by apply (Ha i).
Qed.

Lemma good_sched w A A' pc k l t' eff :
  at_kernel w A pc -> same_shape (tab w) t' -> (forall a p, procs (tab w) !! a = Some p -> procs t' !! a = Some (eff a p)) ->
  (forall a p, ~ hashed (tab w) a -> eff a p = p) ->
  core_ok t' (<[cur w := k]> (conts w)) -> mail_step A l A' -> models A' t' -> good w A (Sched k t') l.
Proof.
  intros [H _ _ _] S L He Hc Hms Hm. pose proof (sched_ok_shape _ _ 0 (cur w) S (proj1 (proj2 H))) as Hs.
  destruct (schedule_running t' (cur w) Hs (idle_active w t' eff H S L He)) as (next & t2 & E & Hr & R).
  eexists (mk_world t2 next _), A'. unfold finish. rewrite E. some_bind. split; [reflexivity|]. cbn [tab cur conts].
  split; [split; [by apply (core_ok_resched t')|done]|]. split; [done|]. by apply (models_resched A' t').
Qed.

Lemma good_ret w A A' pc m l t' eff :
  at_kernel w A pc -> same_shape (tab w) t' -> (forall a p, procs (tab w) !! a = Some p -> procs t' !! a = Some (eff a p)) ->
  (forall a p, ~ hashed (tab w) a -> eff a p = p) -> active (eff (cur w) pc) ->
  core_ok t' (delete (cur w) (conts w)) -> mail_step A l A' -> models A' t' -> good w A (Ret m t') l.
Proof.
  intros [H _ _ Hpc] S L He Ha Hc Hms Hm. eexists (mk_world t' (cur w) _), A'. split; [reflexivity|]. cbn [tab cur conts].
  split; [|done]. split; [done|]. split; [exact (sched_ok_shape _ _ 0 (cur w) S (proj1 (proj2 H)))|]. split; [|by eapply idle_active].
  intros p Hp. cbn [tab cur] in Hp. rewrite (L _ pc Hpc) in Hp. by injection Hp as <-.
Qed.

Lemma eqb_hashed t a c (p q : proc_t) : ~ hashed t a -> hashed t c -> (if a =? c then q else p) = p.
Proof. intros Ha Hc. destruct (a =? c) eqn:E; zbool; [subst; done|done]. Qed.

Lemma block_good w A pc from k :
  at_kernel w A pc -> proc_ok (tab w) (set_state (set_wait pc from) PROC_RECEIVING) (Some k) ->
  exists o, block (tab w) (cur w) from k = Some o /\ (forall q f, recv_label q f o = LTau) /\ good w A o LTau.
Proof.
  intros K Hk. destruct K as [H Hm Hh Hp] eqn:EK. clear EK.
  destruct (block_effect (tab w) (cur w) pc from k Hp) as (t' & E & S & L). eexists. split; [exact E|]. split; [done|].
  apply (good_sched w A A pc k LTau t' _ K S L); [intros a p Ha; by apply (eqb_hashed (tab w))| |constructor|by apply (block_models A (tab w) t' (cur w) from)].
  apply (block_core (tab w) _ _ pc from k t'); [apply H|done|done|by eapply ak_active|done..].
Qed.

Lemma recv_intr_good w A pc m from :
  at_kernel w A pc -> has_intr (ipc pc) <> 0 -> from = IPC_ALL \/ from = IPC_INTR ->
  exists t', recv_intr (tab w) (cur w) m = Some (Ret (intr_message m) t') /\ good w A (Ret (intr_message m) t') (LRecv (cur w) from (intr_message m)).
Proof.
  intros K Hi Hf. destruct K as [H Hm Hh Hp] eqn:EK. clear EK.
  destruct (recv_intr_effect (tab w) (cur w) pc m Hp) as (t' & E & S & L). exists t'. split; [done|].
  eapply (good_ret w A _ pc _ _ t' _ K S L); [intros a p Ha; by apply (eqb_hashed (tab w))|rewrite Z.eqb_refl; exact (ak_active w A pc K)|..].
  - apply (recv_intr_core (tab w) _ _ pc t'); [apply H|done|done|by eapply ak_active|done..].
  - apply ms_recv_intr; [|done..]. destruct (Hm _ pc Hh Hp) as [HA _]. rewrite HA. unfold flag. by rewrite (proj2 (Z.eqb_neq _ _) Hi).
  - by apply recv_intr_models.
Qed.

Lemma remove_nodup s l1 l2 : NoDup (l1 ++ s :: l2) -> remove s (l1 ++ s :: l2) = l1 ++ l2.
Proof.
  intros H. apply NoDup_app in H as (_ & H1 & H2). apply NoDup_cons in H2 as [H2 _].
  rewrite remove_app_in, (remove_not_in s l1) by (intros Hs; apply (H1 s Hs); set_solver). f_equal.
  unfold remove. rewrite filter_cons, decide_False by (intros E; by apply E). by apply remove_not_in.
Qed.

(** Taking the message of a queued sender. *)
Lemma take_good w A pc s :
  at_kernel w A pc -> s ∈ wait_proc (ipc pc) ->
  exists t', take_from (tab w) (cur w) s = Some (Ret (msg_of (tab w) s) t') /\ forall l,
    mail_step A l (<[cur w := (msg_of (tab w) <$> remove s (wait_proc (ipc pc)), flag pc)]> A) -> good w A (Ret (msg_of (tab w) s) t') l.
Proof.
  intros K Hs. destruct K as [H Hm Hh Hp] eqn:EK. clear EK. pose proof (ak_active w A pc K) as Hact. destruct H as [Hc Hr] eqn:EH. clear EH.
  destruct (co_queue _ _ Hc _ pc Hh Hp) as [_ Hq]. destruct (proj1 (Hq s) Hs) as [Hhs (ps & Hps & _)].
  assert (Hne : s <> cur w) by (intros ->; by apply (not_queued (tab w) _ (cur w) pc (cur w) pc Hc)).
  destruct (take_from_effect (tab w) (cur w) pc s ps Hp Hps Hs Hne) as (t' & E & S & L). exists t'.
  replace (msg_of (tab w) s) with (msg (ipc ps)) by (unfold msg_of; by rewrite Hps). split; [done|]. intros l Hms.
  eapply (good_ret w A _ pc _ l t' _ K S L); [| | |exact Hms|].
  - intros a p Ha. unfold take_effect. rewrite (eqb_hashed (tab w) a s) by done. by apply (eqb_hashed (tab w)).
  - unfold take_effect. rewrite (proj2 (Z.eqb_neq _ s)) by done. rewrite Z.eqb_refl. exact Hact.
  - by apply (take_core (tab w) _ _ pc s ps t').
  - by apply take_models.
Qed.

Lemma take_first_good w A pc s l :
  at_kernel w A pc -> has_intr (ipc pc) = 0 -> wait_proc (ipc pc) = s :: l ->
  exists t', take_from (tab w) (cur w) s = Some (Ret (msg_of (tab w) s) t') /\
    good w A (Ret (msg_of (tab w) s) t') (LRecv (cur w) IPC_ALL (msg_of (tab w) s)).
Proof.
  intros K Hi Hl. destruct (take_good w A pc s K) as (t' & E & Hg); [rewrite Hl; set_solver|]. exists t'. split; [done|]. apply Hg.
  destruct K as [[Hc _] Hm Hh Hp]. destruct (co_queue _ _ Hc _ pc Hh Hp) as [Hn _]. rewrite Hl in Hn |- *.
  change (s :: l) with ([] ++ s :: l). rewrite (remove_nodup s [] l Hn). replace (flag pc) with false by (unfold flag; by rewrite Hi). apply ms_recv_all.
  destruct (Hm _ pc Hh Hp) as [HA _]. rewrite HA, Hl. unfold flag. by rewrite Hi.
Qed.

Lemma take_sender_good w A pc s ps :
  at_kernel w A pc -> s ∈ wait_proc (ipc pc) -> procs (tab w) !! s = Some ps ->
  exists t', take_from (tab w) (cur w) s = Some (Ret (msg_of (tab w) s) t') /\
    good w A (Ret (msg_of (tab w) s) t') (LRecv (cur w) (pid ps) (msg_of (tab w) s)).
Proof.
  intros K Hs Hps. destruct (take_good w A pc s K Hs) as (t' & E & Hg). exists t'. split; [done|]. apply Hg. clear Hg E.
  destruct K as [[Hc _] Hm Hh Hp]. destruct (co_queue _ _ Hc _ pc Hh Hp) as [Hn Hq]. destruct (Hm _ pc Hh Hp) as [HA Hsrc].
  assert (Esrc : forall x px, x ∈ wait_proc (ipc pc) -> procs (tab w) !! x = Some px -> src (msg_of (tab w) x) = pid px).
  { intros x px Hx Hpx. destruct (Hsrc x Hx) as (q & Hq' & E). unfold msg_of. rewrite Hq'. rewrite Hpx in Hq'. by injection Hq' as ->. }
  rewrite <- (Esrc s ps Hs Hps). apply list_elem_of_split in Hs as (l1 & l2 & El). rewrite El in Hn |- *. rewrite (remove_nodup s l1 l2 Hn), fmap_app.
  apply ms_recv_from; [rewrite HA, El; by rewrite fmap_app|].
  intros m' (x & -> & Hx)%list_elem_of_fmap Eq. assert (Hxq : x ∈ wait_proc (ipc pc)) by (rewrite El; set_solver).
  assert (Hsq : s ∈ wait_proc (ipc pc)) by (rewrite El; set_solver).
  destruct (proj1 (Hq x) Hxq) as [Hhx (px & Hpx & _)]. destruct (proj1 (Hq s) Hsq) as [Hhs _].
  rewrite (Esrc x px Hxq Hpx), (Esrc s ps Hsq Hps) in Eq. assert (x = s) by (by apply (ho_pid _ (co_hash _ _ Hc) x s px ps)). subst x.
  apply NoDup_app in Hn as (_ & Hn & _). apply (Hn s Hx). set_solver.
Qed.

Lemma recv_all_good w A pc m :
  at_kernel w A pc -> exists o, recv_all (tab w) (cur w) m = Some o /\ good w A o (recv_label (cur w) IPC_ALL o).
Proof.
  intros K. pose proof (ak_proc _ _ _ K) as Hp. unfold recv_all. rewrite Hp. some_bind. destruct (has_intr (ipc pc) =? 0) eqn:Ei; zbool; cbn [negb].
  - destruct (wait_proc (ipc pc)) as [|s l] eqn:Eq.
    + destruct (block_good w A pc IPC_ALL (KRecvAll m) K) as (o & -> & Hl & Hg); [by right|]. exists o. by rewrite Hl.
    + destruct (take_first_good w A pc s l K Ei Eq) as (t' & -> & Hg). eexists. split; [reflexivity|]. exact Hg.
  - destruct (recv_intr_good w A pc m IPC_ALL K Ei) as (t' & E & Hg); [by left|]. unfold recv_intr in E. rewrite E.
    eexists. split; [reflexivity|]. exact Hg.
Qed.

Lemma do_recv_good w A pc from m :
  at_kernel w A pc -> from = IPC_ALL \/ from = IPC_INTR \/ (exists s ps, hashed (tab w) s /\ procs (tab w) !! s = Some ps /\ pid ps = from) ->
  exists o, do_recv (tab w) (cur w) from m = Some o /\ good w A o (recv_label (cur w) from o).
Proof.
  intros K Hf. pose proof (ak_proc _ _ _ K) as Hp. unfold do_recv. destruct (from =? IPC_ALL) eqn:E1; zbool; [subst from; by apply recv_all_good with pc|].
  destruct (from =? IPC_INTR) eqn:E2; zbool.
  { subst from. rewrite Hp. some_bind. destruct (has_intr (ipc pc) =? 0) eqn:Ei; zbool.
    - destruct (block_good w A pc IPC_INTR (KRecvIntr m) K) as (o & -> & Hl & Hg); [by right|]. exists o. by rewrite Hl.
    - destruct (recv_intr_good w A pc m IPC_INTR K Ei) as (t' & -> & Hg); [by right|]. eexists. split; [reflexivity|]. exact Hg. }
  destruct Hf as [|[|(s & ps & Hs & Hps & <-)]]; [done..|]. destruct (ak_ok _ _ _ K) as [Hc _].
  destruct (map_proc_ok (tab w) (pid ps) (co_hash _ _ Hc)) as (a & -> & Ha).
  { destruct (co_pid _ _ Hc s ps Hs Hps). lia. }
  destruct Ha as [[_ Hn]|(_ & Ha & q & Hq & Epid)]; [by destruct (Hn s ps)|].
  assert (a = s) by (by apply (ho_pid _ (co_hash _ _ Hc) a s q ps)). subst a. rewrite Hps in Hq. injection Hq as <-.
  some_bind. rewrite Hps. some_bind. rewrite Hp. some_bind. destruct (co_queue _ _ Hc _ pc (ak_hashed _ _ _ K) Hp) as [_ Hqc].
  destruct (negb _) eqn:Ec.
  - destruct (block_good w A pc (pid ps) (KRecvFrom s m) K) as (o & -> & Hl & Hg); [|exists o; by rewrite Hl].
    exists ps. split; [done|]. split; [done|]. right. split; [done|]. split; [done|]. intros Hin. apply Hqc in Hin as [_ (q & Hq & Hst & Hw)].
    rewrite Hps in Hq. injection Hq as <-. rewrite Hst, Hw, !Z.eqb_refl in Ec. done.
  - apply negb_false_iff, andb_true_iff in Ec as [Est Ew]. zbool.
    destruct (take_sender_good w A pc s ps K) as (t' & -> & Hg); [apply Hqc; split; [done|by exists ps]|done|]. eexists. split; [reflexivity|]. exact Hg.
Qed.

(** Sending, alone or as the first half of a request. *)
Lemma send_good w A pc d pd m k :
  at_kernel w A pc -> hashed (tab w) d -> procs (tab w) !! d = Some pd -> src m = pid pc ->
  k = KSent m \/ k = KSentRecv (pid pd) m ->
  exists t', do_send (tab w) (cur w) (pid pd) m = Some (Sched (KSent m) t') /\ map_proc (tab w) (pid pd) = Some d /\
    good w A (Sched k t') (LSend (cur w) d m).
Proof.
  intros K Hd Hpd Hsrc Hk. destruct (ak_ok _ _ _ K) as [Hc Hr]. pose proof (ak_active w A pc K) as Hact.
  pose proof (ak_hashed _ _ _ K) as Hh. pose proof (ak_proc _ _ _ K) as Hp. pose proof (ak_models _ _ _ K) as Hm.
  destruct (map_proc_ok (tab w) (pid pd) (co_hash _ _ Hc)) as (a & Ea & Ha); [destruct (co_pid _ _ Hc d pd Hd Hpd); lia|].
  destruct Ha as [[_ Hn]|(_ & Ha & q & Hq & Epid)]; [by destruct (Hn d pd)|].
  assert (a = d) by (by apply (ho_pid _ (co_hash _ _ Hc) a d q pd)). subst a.
  assert (Hni : src m <> IPC_INTR) by (destruct (co_pid _ _ Hc _ pc Hh Hp); unfold IPC_SIGNAL, IPC_INTR in *; lia).
  destruct (do_send_effect (tab w) (cur w) (pid pd) m pc d pd Hp Ea Hpd Hni) as (t' & E & S & L).
  exists t'. split; [done|]. split; [done|]. eapply (good_sched w A _ pc k _ t' _ K S L).
  - intros a p Ha'. unfold send_effect. rewrite (eqb_hashed (tab w) a d) by done. by apply (eqb_hashed (tab w)).
  - by apply (send_core (tab w) _ _ pc d pd m).
  - apply ms_send; [apply (proj1 (Hm d pd Hd Hpd))|]. eexists. apply (proj1 (Hm _ pc Hh Hp)).
  - by apply (send_models A (tab w) (conts w) t' (cur w) pc d pd m).
Qed.

(** Pids the kernel can be asked for: every other one is a fault. *)
Definition known (t : ptable) (p : Z) : Prop := exists s ps, hashed t s /\ procs t !! s = Some ps /\ pid ps = p.

Definition call_ok (t : ptable) (c : syscall) : Prop :=
  match c with
  | SysSend to _ => known t to
  | SysRecv from _ => from = IPC_ALL \/ from = IPC_INTR \/ known t from
  | SysSendrecv to _ => known t to /\ to <> IPC_MM
  end.

Lemma call_good w A pc c :
  at_kernel w A pc -> call_ok (tab w) c ->
  exists o l, do_syscall (tab w) (cur w) c = Some o /\ call_label (tab w) (cur w) c o = Some l /\ good w A o l.
Proof.
  intros K Hc. pose proof (ak_proc _ _ _ K) as Hp. unfold do_syscall, call_label, pre_syscall. destruct c as [to m|from m|to m]; rewrite Hp; some_bind; cbn [call_ok] in Hc.
  - destruct Hc as (d & pd & Hd & Hpd & <-). destruct (send_good w A pc d pd (mk_message (pid pc) (mtype m) (body m)) _ K Hd Hpd eq_refl (or_introl eq_refl)) as (t' & -> & -> & Hg).
    some_bind. eexists _, _. split; [reflexivity|]. split; [reflexivity|]. exact Hg.
  - destruct (do_recv_good w A pc from (mk_message (pid pc) (mtype m) (body m)) K Hc) as (o & -> & Hg). eexists _, _. split; [reflexivity|]. split; [reflexivity|]. exact Hg.
  - destruct Hc as [(d & pd & Hd & Hpd & <-) Hmm]. destruct (ak_ok _ _ _ K) as [Hcore _]. destruct (co_pid _ _ Hcore d pd Hd Hpd) as [Hpid _].
    assert (E : (pid pd =? IPC_KERNEL) || (pid pd =? IPC_MM) = false).
    { apply orb_false_iff. split; apply Z.eqb_neq; [unfold IPC_SIGNAL, IPC_KERNEL in *; lia|done]. }
    rewrite E. unfold do_sendrecv.
    destruct (send_good w A pc d pd (mk_message (pid pc) (mtype m) (body m)) _ K Hd Hpd eq_refl (or_intror eq_refl)) as (t' & -> & -> & Hg).
    some_bind. eexists _, _. split; [reflexivity|]. split; [reflexivity|]. exact Hg.
Qed.

Lemma good_sent w A pc m :
  at_kernel w A pc -> good w A (Ret m (tab w)) LTau.
Proof.
  intros K. destruct K as [H Hm Hh Hp] eqn:EK. clear EK. destruct H as [Hc Hr] eqn:EH. clear EH.
  eapply (good_ret w A A pc m LTau (tab w) (fun _ p => p) K (same_shape_refl _)); [done|done|by eapply ak_active|..|constructor|done].
  apply (core_ok_effect (tab w) (tab w) (conts w) _ (fun _ p => p) Hc (same_shape_refl _)); [done|..].
  - intros a [k [Hne Hk]%lookup_delete_Some]. apply (co_user _ _ Hc). by exists k.
  - intros a p Ha Hpa. apply (co_queue _ _ Hc a p Ha Hpa).
  - intros a p Ha Hpa. destruct (decide (cur w = a)) as [<-|Hne].
    + rewrite lookup_delete_eq. left. rewrite Hp in Hpa. injection Hpa as <-. by eapply ak_active.
    + rewrite lookup_delete_ne by done. by apply (co_proc _ _ Hc).
Qed.

Lemma resume_good w A pc k :
  at_kernel w A pc -> conts w !! cur w = Some k ->
  exists o l, resume (tab w) (cur w) k = Some o /\ resume_label (tab w) (cur w) k o = Some l /\ good w A o l.
Proof.
  intros K Hk. pose proof (ak_proc _ _ _ K) as Hp. pose proof (ak_active w A pc K) as Hact. destruct (ak_ok _ _ _ K) as [Hc _].
  pose proof (co_proc _ _ Hc _ pc (ak_hashed _ _ _ K) Hp) as Hok. rewrite Hk in Hok. destruct k as [m|to m|m|m|s m]; cbn [resume resume_label proc_ok] in *.
  - eexists _, _. split; [reflexivity|]. split; [reflexivity|]. by apply (good_sent w A pc).
  - destruct Hok as [_ Hto]. destruct (do_recv_good w A pc to m K) as (o & -> & Hg); [by right; right|]. eexists _, _. split; [reflexivity|]. split; [reflexivity|]. exact Hg.
  - destruct (recv_all_good w A pc m K) as (o & -> & Hg). eexists _, _. split; [reflexivity|]. split; [reflexivity|]. exact Hg.
  - destruct Hok as [[_ Hi]|[Hr _]]; [|by destruct (active_not_receiving pc)].
    destruct (recv_intr_good w A pc m IPC_INTR K Hi) as (t' & -> & Hg); [by right|]. eexists _, _. split; [reflexivity|]. split; [reflexivity|]. exact Hg.
  - destruct Hok as (ps & Hs & Hps & [[_ Hin]|[Hr _]]); [|by destruct (active_not_receiving pc)].
    destruct (take_sender_good w A pc s ps K Hin Hps) as (t' & -> & Hg). rewrite Hps. some_bind. eexists _, _. split; [reflexivity|]. split; [reflexivity|]. exact Hg.
Qed.

(** ** Runs *)

Lemma find_pid_known t l p a pa : l ∈ proc_hash t -> find_pid (procs t) l p = Some a -> procs t !! a = Some pa -> procs t !! NULL = None -> known t p.
Proof.
  intros Hl Hf Ha Hn. assert (Hx : exists x q, x ∈ l /\ procs t !! x = Some q /\ pid q = p).
  { revert Hf. clear Hl. induction l as [|x l IH]; cbn [find_pid].
    - intros E. injection E as <-. congruence.
    - destruct (procs t !! x) as [q|] eqn:Ex; [|done]. some_bind. case_if; [intros _; exists x, q; set_solver|].
      intros (y & r & Hy & Hr & Hpr)%IH. exists y, r. set_solver. }
  destruct Hx as (x & q & Hx & Hq & Hp). exists x, q. split; [by exists l|done].
Qed.

Lemma map_proc_known t p a pa : map_proc t p = Some a -> procs t !! a = Some pa -> procs t !! NULL = None -> known t p.
Proof.
  unfold map_proc, bucket. case_if; [done|]. destruct (proc_hash t !! bucket_of p) as [l|] eqn:El; [|done]. some_bind.
  intros Hf. apply (find_pid_known t l p a pa); [by eapply list_elem_of_lookup_2|done].
Qed.

Lemma do_send_known t ks c to m o : core_ok t ks -> do_send t c to m = Some o -> known t to.
Proof.
  intros H E. unfold do_send in E. destruct (map_proc t to) as [d|] eqn:Ed; [|done]. revert E. some_bind.
  destruct (procs t !! d) as [pd|] eqn:Epd; [intros _; by apply (map_proc_known t to d pd Ed Epd), H|].
  assert (Hup : forall t1 f, procs t1 !! d = None -> update t1 d f = None) by (intros t1 f Hx; unfold update; by rewrite Hx).
  case_if; [by rewrite (Hup t)|].
  assert (Hpres : forall t1 t2 f, procs t1 !! d = None -> update t1 c f = Some t2 -> procs t2 !! d = None).
  { intros t1 t2 f Hx Hu. unfold update in Hu. destruct (procs t1 !! c) as [pc|] eqn:Ec; [|done]. some_bind. injection Hu as <-.
    cbn [set_proc set_procs procs]. destruct (decide (c = d)) as [->|]; [congruence|by rewrite lookup_insert_ne]. }
  destruct (update t c _) as [t1|] eqn:E1; [|done]. some_bind. destruct (update t1 c _) as [t2|] eqn:E2; [|done]. some_bind.
  destruct (update t2 c _) as [t3|] eqn:E3; [|done]. some_bind. rewrite Hup; [done|]. eauto.
Qed.

Lemma do_recv_known t ks c from m o : core_ok t ks -> do_recv t c from m = Some o -> from = IPC_ALL \/ from = IPC_INTR \/ known t from.
Proof.
  intros H E. unfold do_recv in E. destruct (from =? IPC_ALL) eqn:E1; zbool; [by left|]. destruct (from =? IPC_INTR) eqn:E2; zbool; [by right; left|].
  right. right. destruct (map_proc t from) as [s|] eqn:Es; [|done]. revert E. some_bind. destruct (procs t !! s) as [ps|] eqn:Eps; [|done].
  intros _. by apply (map_proc_known t from s ps Es Eps), H.
Qed.

Lemma call_known t ks c call o : core_ok t ks -> do_syscall t c call = Some o -> call_ok t call.
Proof.
  intros H. unfold do_syscall. destruct call as [to m|from m|to m]; destruct (pre_syscall t c m) as [m'|]; try done; some_bind; cbn [call_ok].
  - by apply (do_send_known t ks).
  - by apply (do_recv_known t ks).
  - case_if; [done|]. intros E'. split.
    + unfold do_sendrecv in E'. destruct (do_send t c to m') as [o'|] eqn:Eo; [|done]. by apply (do_send_known t ks c to m' o').
    + tauto.
Qed.

Inductive steps : world -> list label -> world -> Prop :=
  | steps_nil w : steps w [] w
  | steps_cons w l w1 tr w2 : step w l w1 -> steps w1 tr w2 -> steps w (l :: tr) w2.

Inductive mail_steps : gmap Z mailbox -> list label -> gmap Z mailbox -> Prop :=
  | mails_nil A : mail_steps A [] A
  | mails_cons A l A1 tr A2 : mail_step A l A1 -> mail_steps A1 tr A2 -> mail_steps A (l :: tr) A2.

Lemma user_proc w : ipc_ok w -> exists pc, procs (tab w) !! cur w = Some pc.
Proof.
  intros [_ (Hs & _)]. destruct (so_cur _ _ _ Hs) as [Hc|Hc]; [destruct (so_queue _ _ _ Hs _ Hc) as (p & ? & _); by exists p|].
  destruct (so_idle _ _ _ Hs) as (a & p & Hx & Hp & _). rewrite Hc in Hx. injection Hx as ->. by exists p.
Qed.

Lemma step_sim w A l w' : ipc_ok w -> models A (tab w) -> step w l w' -> ipc_ok w' /\ exists A', mail_step A l A' /\ models A' (tab w').
Proof.
  intros H Hm St. destruct (user_proc w H) as [pc Hpc]. pose proof H as [Hc Hr]. destruct St as [c o l w' Hk Hh Hcall Hl Hf|k o l w' Hk Hres Hl Hf|p d m t Hk Hd Hs|c t Hk Ht].
  - destruct (call_good w A pc c) as (o' & l' & E1 & E2 & (w2 & A' & E3 & Hok & Hms & Hm'));
      [split; [done|done|by apply (co_head _ _ Hc)|done]|by apply (call_known (tab w) (conts w) (cur w) c o)|].
    rewrite Hcall in E1. injection E1 as <-. rewrite Hl in E2. injection E2 as <-. rewrite Hf in E3. injection E3 as <-. eauto.
  - destruct (resume_good w A pc k) as (o' & l' & E1 & E2 & (w2 & A' & E3 & Hok & Hms & Hm'));
      [split; [done|done|apply (co_user _ _ Hc); by exists k|done]|done|].
    rewrite Hres in E1. injection E1 as <-. rewrite Hl in E2. injection E2 as <-. rewrite Hf in E3. injection E3 as <-. eauto.
  - destruct (do_send_known _ _ _ _ _ _ Hc Hs) as (d' & pd & Hhd & Hpd & <-).
    destruct (map_proc_ok (tab w) (pid pd) (co_hash _ _ Hc)) as (a & Ea & Ha); [destruct (co_pid _ _ Hc d' pd Hhd Hpd); lia|].
    destruct Ha as [[_ Hn]|(_ & Ha & q & Hq & Epid)]; [by destruct (Hn d' pd)|].
    assert (a = d') by (by apply (ho_pid _ (co_hash _ _ Hc) a d' q pd)). subst a. rewrite Hd in Ea. injection Ea as ->.
    destruct (hwint_effect (tab w) (cur w) (pid pd) hw_message d' pd Hd Hpd eq_refl) as (t' & E & S & L). rewrite Hs in E. injection E as -> ->.
    split.
    + split; [by apply (hwint_core (tab w) _ d' pd)|]. destruct Hr as (Hs1 & Ha1 & Hi1). split; [by apply (sched_ok_shape (tab w))|]. split.
      * intros p Hp. cbn [tab cur] in Hp. rewrite (L _ pc Hpc) in Hp. injection Hp as <-. specialize (Ha1 pc Hpc). case_if; [|done].
        rewrite wake_other by (by apply active_not_receiving). exact Ha1.
      * apply (idle_active w t' _ H S L). intros a p Hna. by apply (eqb_hashed (tab w)).
    + eexists. split; [|by apply (hwint_models A (tab w) t' d' pd)]. eapply ms_raise. apply (proj1 (Hm d' pd Hhd Hpd)).
  - destruct (timer_ok (tab w) (conts w) (cur w) Hc Hr) as (next & t' & E & Hc' & Hr' & R). rewrite Ht in E. injection E as <- <-.
    split; [by split|]. exists A. split; [constructor|by apply (models_resched A (tab w))].
Qed.

Lemma steps_sim w tr w' : steps w tr w' -> forall A, ipc_ok w -> models A (tab w) -> ipc_ok w' /\ exists A', mail_steps A tr A' /\ models A' (tab w').
Proof.
  induction 1 as [w|w l w1 tr w2 Hs _ IH]; intros A H Hm; [split; [done|]; exists A; split; [constructor|done]|].
  destruct (step_sim w A l w1 H Hm Hs) as (H1 & A1 & Hms & Hm1). destruct (IH A1 H1 Hm1) as (H2 & A2 & Hms2 & Hm2).
  split; [done|]. exists A2. split; [by econstructor|done].
Qed.

(** The steps as a function of what happens next. *)
Inductive action := ACall (c : syscall) | AResume | AHwint (p : Z) | ATimer.

Definition exec (w : world) (a : action) : option (label * world) :=
  match a, conts w !! cur w with
  | ACall c, None =>
      if bool_decide (cur w ∈ proc_head (tab w)) then
        o ← do_syscall (tab w) (cur w) c; l ← call_label (tab w) (cur w) c o; w' ← finish w o; Some (l, w')
      else None
  | AResume, Some k => o ← resume (tab w) (cur w) k; l ← resume_label (tab w) (cur w) k o; w' ← finish w o; Some (l, w')
  | AHwint p, None =>
      d ← map_proc (tab w) p; o ← do_send (tab w) (cur w) p hw_message;
      match o with Ret _ t => Some (LRaise d, mk_world t (cur w) (conts w)) | Sched _ _ => None end
  | ATimer, None => r ← timer (tab w) (cur w); Some (LTau, mk_world r.2 r.1 (conts w))
  | _, _ => None
  end.

Fixpoint exec_all (w : world) (l : list action) : option (list label * world) :=
  match l with
  | [] => Some ([], w)
  | a :: l => r ← exec w a; s ← exec_all r.2 l; Some (r.1 :: s.1, s.2)
  end.

Lemma exec_step w a l w' : exec w a = Some (l, w') -> step w l w'.
Proof.
  unfold exec. destruct a as [c| |p|], (conts w !! cur w) as [k|] eqn:Ek; try done.
  - case_bool_decide; [|done]. destruct (do_syscall _ _ c) as [o|] eqn:E1; [|done]. some_bind. destruct (call_label _ _ c o) as [l1|] eqn:E2; [|done]. some_bind.
    destruct (finish w o) as [w1|] eqn:E3; [|done]. some_bind. intros E. injection E as <- <-. by eapply step_call.
  - destruct (resume _ _ k) as [o|] eqn:E1; [|done]. some_bind. destruct (resume_label _ _ k o) as [l1|] eqn:E2; [|done]. some_bind.
    destruct (finish w o) as [w1|] eqn:E3; [|done]. some_bind. intros E. injection E as <- <-. by eapply step_resume.
  - destruct (map_proc _ p) as [d|] eqn:E1; [|done]. some_bind. destruct (do_send _ _ p hw_message) as [[m t|]|] eqn:E2; [|done|done]. some_bind.
    intros E. injection E as <- <-. by eapply step_hwint.
  - destruct (timer _ _) as [[c t]|] eqn:E1; [|done]. some_bind. intros E. injection E as <- <-. by apply step_timer.
Qed.

Lemma exec_all_steps l w tr w' : exec_all w l = Some (tr, w') -> steps w tr w'.
Proof.
  revert w tr. induction l as [|a l IH]; intros w tr; cbn [exec_all]; [intros E; injection E as <- <-; constructor|].
  destruct (exec w a) as [[l1 w1]|] eqn:E1; [|done]. some_bind. cbn [fst snd]. destruct (exec_all w1 l) as [[tr2 w2]|] eqn:E2; [|done]. some_bind.
  intros E. injection E as <- <-. econstructor; [by eapply exec_step|by apply IH].
Qed.

(** ** Theorems *)

(** C29: the kernel implements synchronous mailboxes.  In every run of system calls,
    interrupts and clock ticks, what the processes observe is a run of the
    specification: a message posted for a process stays in its mailbox in the order of
    posting until one receive returns it unchanged; a receive of everything returns
    the pending interrupt or the oldest message, a receive from a pid the message of
    that sender; and the [src] of a message is the pid of the process that sent it. *)
Theorem ipc_refines_mailboxes w tr w' A :
  ipc_ok w -> models A (tab w) -> steps w tr w' ->
  ipc_ok w' /\ exists A', mail_steps A tr A' /\ models A' (tab w').
Proof. intros H Hm Hs. by apply (steps_sim w tr w'). Qed.

(** Two servers in user mode beside the idle process. *)
Definition two_procs : ptable :=
  mk_ptable
    (<[0x1000 := sample_proc 0 PROC_RUNNABLE (Z.lor PF_KTHREAD PF_IDLE) 0]> (<[0x2000 := sample_proc 2 PROC_RUNNABLE 0 0]>
      {[ 0x3000 := sample_proc 129 PROC_RUNNING 0 0 ]}))
    [0x2000; 0x3000]
    (<[2%nat := [0x2000]]> (<[129%nat := [0x3000]]> (replicate 256 []))) [0x1000] 0.

Definition two_world : world := mk_world two_procs 0x3000 ∅.

Lemma two_hash_lookup k l : proc_hash two_procs !! k = Some l ->
  k = 2%nat /\ l = [0x2000] \/ k = 129%nat /\ l = [0x3000] \/ l = [].
Proof.
  cbn [two_procs proc_hash]. destruct (decide (k = 2%nat)) as [->|H0].
  { rewrite list_lookup_insert_eq by (rewrite length_insert, length_replicate; lia). intros E. injection E as <-. by left. }
  rewrite list_lookup_insert_ne by done. destruct (decide (k = 129%nat)) as [->|H2].
  { rewrite list_lookup_insert_eq by (rewrite length_replicate; lia). intros E. injection E as <-. right. by left. }
  rewrite list_lookup_insert_ne by done. intros [-> _]%lookup_replicate. by right; right.
Qed.

Lemma two_hashed a : hashed two_procs a <-> a = 0x2000 \/ a = 0x3000.
Proof.
  split.
  - intros (l & [k Hk]%list_elem_of_lookup & Ha). destruct (two_hash_lookup k l Hk) as [[-> ->]|[[-> ->]| ->]]; set_solver.
  - intros [-> | ->]; [exists [0x2000]|exists [0x3000]]; (split; [apply list_elem_of_lookup|set_solver]); [by exists 2%nat|by exists 129%nat].
Qed.

Lemma two_proc_of a p : hashed two_procs a -> procs two_procs !! a = Some p ->
  a = 0x2000 /\ p = sample_proc 2 PROC_RUNNABLE 0 0 \/ a = 0x3000 /\ p = sample_proc 129 PROC_RUNNING 0 0.
Proof. intros [-> | ->]%two_hashed Hp; apply (inj Some) in Hp; [left|right]; by split. Qed.

Lemma two_core_ok : core_ok two_procs ∅.
Proof.
  split.
  - done.
  - split.
    + by vm_compute.
    + intros k l a Hk Ha. destruct (two_hash_lookup k l Hk) as [[-> ->]|[[-> ->]| ->]]; [..|set_solver];
        apply list_elem_of_singleton in Ha as ->; (split; [done|]); eexists; (split; [reflexivity|reflexivity]).
    + intros k l Hk. apply (bool_decide_unpack _). destruct (two_hash_lookup k l Hk) as [[-> ->]|[[-> ->]| ->]]; by vm_compute.
    + intros a b p q Ha Hb Hp Hq E. destruct (two_proc_of a p Ha Hp) as [[-> ->]|[-> ->]], (two_proc_of b q Hb Hq) as [[-> ->]|[-> ->]]; done.
  - intros a. rewrite two_hashed. cbn [two_procs proc_head]. set_solver.
  - intros a p Ha Hp. destruct (two_proc_of a p Ha Hp) as [[-> ->]|[-> ->]]; done.
  - intros a [k Hk]. done.
  - intros a p Ha Hp. split; [destruct (two_proc_of a p Ha Hp) as [[-> ->]|[-> ->]]; apply NoDup_nil_2|].
    intros b. split; [destruct (two_proc_of a p Ha Hp) as [[-> ->]|[-> ->]]; set_solver|].
    intros [Hb (q & Hq & Hs & _)]. destruct (two_proc_of b q Hb Hq) as [[-> ->]|[-> ->]]; done.
  - intros a p Ha Hp. left. destruct (two_proc_of a p Ha Hp) as [[-> ->]|[-> ->]]; [by left|by right].
Qed.

Lemma two_ok : ipc_ok two_world.
Proof.
  split; [apply two_core_ok|]. cbn [two_world tab cur]. split; [|split].
  - split.
    + eexists 0x1000, _. split; [done|]. split; [reflexivity|]. split; [done|]. apply (bool_decide_unpack _). by vm_compute.
    + apply (bool_decide_unpack _). by vm_compute.
    + intros a Ha. cbn [two_procs proc_head] in Ha. repeat (apply elem_of_cons in Ha as [->|Ha]); try (by apply elem_of_nil in Ha);
        eexists; (split; [reflexivity|]); done.
    + left. cbn [two_procs proc_head]. set_solver.
  - intros p Hp. apply (inj Some) in Hp as <-. by right.
  - intros i p Hi Hp. apply (inj Some) in Hi as <-. apply (inj Some) in Hp as <-. by left.
Qed.

Definition two_mail : gmap Z mailbox := <[0x2000 := ([], false)]> {[ 0x3000 := ([], false) ]}.

Lemma two_models : models two_mail (tab two_world).
Proof. intros a p Ha Hp. destruct (two_proc_of a p Ha Hp) as [[-> ->]|[-> ->]]; (split; [reflexivity|set_solver]). Qed.

Definition sample_request : message := mk_message 129 MSG_GETPID m_none.

(** The client posts a request and the server receives it. *)
Lemma ipc_refines_mailboxes_witness :
  exists w' A', steps two_world [LSend 0x3000 0x2000 sample_request; LRecv 0x2000 IPC_ALL sample_request; LTau; LTau] w' /\
    mail_steps two_mail [LSend 0x3000 0x2000 sample_request; LRecv 0x2000 IPC_ALL sample_request; LTau; LTau] A' /\ ipc_ok w'.
Proof.
  assert (E : fst <$> exec_all two_world [ACall (SysSend 2 sample_request); ACall (SysRecv IPC_ALL sample_request); ATimer; AResume]
    = Some [LSend 0x3000 0x2000 sample_request; LRecv 0x2000 IPC_ALL sample_request; LTau; LTau]) by (vm_compute; reflexivity).
  apply fmap_Some in E as ([tr w'] & E & Etr). cbn [fst] in Etr. subst tr. apply exec_all_steps in E.
  destruct (ipc_refines_mailboxes two_world _ w' two_mail two_ok two_models E) as (H & A' & HA & _).
  exists w', A'. split; [exact E|]. split; [exact HA|exact H].
Defined.

(** What a mailbox has for a receive. *)
Definition can_receive (b : mailbox) (from : Z) : Prop :=
  if from =? IPC_ALL then b.2 = true \/ b.1 <> [] else if from =? IPC_INTR then b.2 = true else exists m, m ∈ b.1 /\ src m = from.

(** A receive returns if its mailbox has something for it and blocks if not. *)
Definition receive_result (A : gmap Z mailbox) (q from : Z) (o : outcome) : Prop :=
  exists b, A !! q = Some b /\
    (can_receive b from /\ (exists m t, o = Ret m t) \/
     ~ can_receive b from /\ exists k t p, o = Sched k t /\ procs t !! q = Some p /\ state (sched p) = PROC_RECEIVING /\ wait (ipc p) = from).

(** A send posts the stamped message and blocks the sender. *)
Definition send_result (t : ptable) (q to : Z) (m : message) (o : outcome) (l : label) : Prop :=
  exists pq d pd k t' p, procs t !! q = Some pq /\ hashed t d /\ procs t !! d = Some pd /\ pid pd = to /\
    l = LSend q d (mk_message (pid pq) (mtype m) (body m)) /\
    o = Sched k t' /\ procs t' !! q = Some p /\ state (sched p) = PROC_SENDING /\ wait (ipc p) = to.

Definition call_result (A : gmap Z mailbox) (t : ptable) (q : Z) (c : syscall) (o : outcome) (l : label) : Prop :=
  match c with
  | SysSend to m | SysSendrecv to m => send_result t q to m o l
  | SysRecv from _ => l = recv_label q from o /\ receive_result A q from o
  end.

(** A woken receiver of one sender or of interrupts has its message. *)
Definition resume_result (A : gmap Z mailbox) (t : ptable) (q : Z) (k : kcont) (o : outcome) (l : label) : Prop :=
  match k with
  | KSent m => o = Ret m t
  | KSentRecv to _ => l = recv_label q to o /\ receive_result A q to o
  | KRecvAll _ => l = recv_label q IPC_ALL o /\ receive_result A q IPC_ALL o
  | KRecvIntr _ => exists m t', o = Ret m t' /\ l = LRecv q IPC_INTR m
  | KRecvFrom s _ => exists ps m t', procs t !! s = Some ps /\ o = Ret m t' /\ l = LRecv q (pid ps) m
  end.

Lemma take_from_ret t c s o : take_from t c s = Some o -> exists m t', o = Ret m t'.
Proof.
  unfold take_from. destruct (procs t !! c) as [pc|]; [|done]. some_bind. case_bool_decide; [|done].
  destruct (update t c _) as [t1|]; [|done]. some_bind. destruct (procs t1 !! s) as [ps|]; [|done]. some_bind.
  destruct (update t1 c _) as [t2|]; [|done]. some_bind. destruct (update t2 s _) as [t3|]; [|done]. some_bind. intros E. injection E as <-. eauto.
Qed.

Lemma block_result t c pc from k o :
  procs t !! c = Some pc -> block t c from k = Some o ->
  exists k t' p, o = Sched k t' /\ procs t' !! c = Some p /\ state (sched p) = PROC_RECEIVING /\ wait (ipc p) = from.
Proof.
  intros Hp E. destruct (block_effect t c pc from k Hp) as (t' & E' & _ & L). rewrite E' in E. injection E as <-.
  specialize (L c pc Hp). rewrite Z.eqb_refl in L. by eexists _, _, _.
Qed.

Lemma recv_all_result w A pc m o :
  at_kernel w A pc -> recv_all (tab w) (cur w) m = Some o -> receive_result A (cur w) IPC_ALL o.
Proof.
  intros K E. pose proof (ak_proc _ _ _ K) as Hp. destruct (ak_models _ _ _ K _ pc (ak_hashed _ _ _ K) Hp) as [HA _].
  eexists. split; [exact HA|]. unfold can_receive, recv_all in *. cbn [Z.eqb Pos.eqb IPC_ALL fst snd]. rewrite Hp in E. revert E. some_bind. unfold flag.
  destruct (has_intr (ipc pc) =? 0); cbn [negb].
  - destruct (wait_proc (ipc pc)) as [|s l].
    + intros E. right. split; [by intros [|]|]. by apply (block_result _ _ _ _ _ _ Hp E).
    + intros E. left. split; [by right|]. by apply take_from_ret in E.
  - destruct (update _ _ _) as [t1|]; [|done]. some_bind. intros E. injection E as <-. left. split; [by left|]. eauto.
Qed.

(** A process waits in the queue exactly if the mailbox has a message of it. *)
Lemma queued_iff w A a p s ps :
  ipc_ok w -> models A (tab w) -> hashed (tab w) a -> procs (tab w) !! a = Some p -> hashed (tab w) s -> procs (tab w) !! s = Some ps ->
  s ∈ wait_proc (ipc p) <-> exists m, m ∈ msg_of (tab w) <$> wait_proc (ipc p) /\ src m = pid ps.
Proof.
  intros [Hc _] Hm Ha Hp Hs Hps. destruct (Hm a p Ha Hp) as [_ Hsrc]. split.
  - intros Hin. exists (msg_of (tab w) s). split; [by apply list_elem_of_fmap_2|]. destruct (Hsrc s Hin) as (q & Hq & E).
    unfold msg_of. rewrite Hps in *. by injection Hq as <-.
  - intros (m & (x & -> & Hx)%list_elem_of_fmap & E). destruct (Hsrc x Hx) as (q & Hq & Ex). unfold msg_of in E. rewrite Hq, Ex in E.
    destruct (co_queue _ _ Hc a p Ha Hp) as [_ Hqq]. destruct (proj1 (Hqq x) Hx) as [Hhx _].
    by rewrite <- (ho_pid _ (co_hash _ _ Hc) x s q ps Hhx Hs Hq Hps E).
Qed.

Lemma do_recv_result w A pc from m o :
  at_kernel w A pc -> do_recv (tab w) (cur w) from m = Some o -> receive_result A (cur w) from o.
Proof.
  intros K E. pose proof (ak_proc _ _ _ K) as Hp. destruct (ak_models _ _ _ K _ pc (ak_hashed _ _ _ K) Hp) as [HA _].
  destruct (ak_ok _ _ _ K) as [Hc _]. pose proof (do_recv_known _ _ _ _ _ _ Hc E) as Hf. unfold do_recv in E.
  destruct (from =? IPC_ALL) eqn:E1; zbool; [subst from; by apply (recv_all_result w A pc m)|].
  eexists. split; [exact HA|]. unfold can_receive. rewrite (proj2 (Z.eqb_neq _ _) E1). destruct (from =? IPC_INTR) eqn:E2; zbool.
  { subst from. rewrite Hp in E. revert E. some_bind. unfold flag. cbn [snd]. destruct (has_intr (ipc pc) =? 0); cbn [negb].
    - intros E. right. split; [done|]. by apply (block_result _ _ _ _ _ _ Hp E).
    - unfold recv_intr. destruct (update _ _ _) as [t1|]; [|done]. some_bind. intros E. injection E as <-. left. split; [done|]. eauto. }
  destruct Hf as [|[|(s & ps & Hs & Hps & <-)]]; [done..|].
  destruct (map_proc_ok (tab w) (pid ps) (co_hash _ _ Hc)) as (a & Ea & Ha); [destruct (co_pid _ _ Hc s ps Hs Hps); lia|].
  destruct Ha as [[_ Hn]|(_ & Ha & q & Hq & Epid)]; [by destruct (Hn s ps)|].
  assert (a = s) by (by apply (ho_pid _ (co_hash _ _ Hc) a s q ps)). subst a.
  rewrite Ea in E. revert E. some_bind. rewrite Hps. some_bind. rewrite Hp. some_bind. cbn [fst].
  rewrite <- (queued_iff w A (cur w) pc s ps (ak_ok _ _ _ K) (ak_models _ _ _ K) (ak_hashed _ _ _ K) Hp Hs Hps).
  destruct (co_queue _ _ Hc _ pc (ak_hashed _ _ _ K) Hp) as [_ Hqc]. destruct (negb _) eqn:Ec; intros E.
  - right. split; [|by apply (block_result _ _ _ _ _ _ Hp E)]. intros Hin. apply Hqc in Hin as [_ (q' & Hq' & Hst & Hw)].
    rewrite Hps in Hq'. injection Hq' as <-. rewrite Hst, Hw, !Z.eqb_refl in Ec. done.
  - left. apply negb_false_iff, andb_true_iff in Ec as [Est Ew]. zbool. split; [apply Hqc; split; [done|by exists ps]|]. by apply take_from_ret in E.
Qed.

Lemma do_send_result t c pc d pd to m o :
  procs t !! c = Some pc -> map_proc t to = Some d -> procs t !! d = Some pd -> src m <> IPC_INTR -> do_send t c to m = Some o ->
  exists t' p, o = Sched (KSent m) t' /\ procs t' !! c = Some p /\ state (sched p) = PROC_SENDING /\ wait (ipc p) = to.
Proof.
  intros Hp Ed Hpd Hm E. destruct (do_send_effect t c to m pc d pd Hp Ed Hpd Hm) as (t' & E' & _ & L). rewrite E' in E. injection E as <-.
  eexists _, _. split; [done|]. split; [by apply L|]. split; [apply send_effect_self|].
  unfold send_effect. rewrite Z.eqb_refl. destruct (c =? d); [|done]. by rewrite (proj1 (wake_ipc _ _)).
Qed.

Lemma call_does w A pc c :
  at_kernel w A pc -> call_ok (tab w) c ->
  exists o l, do_syscall (tab w) (cur w) c = Some o /\ call_label (tab w) (cur w) c o = Some l /\ good w A o l /\ call_result A (tab w) (cur w) c o l.
Proof.
  intros K Hc. destruct (call_good w A pc c K Hc) as (o & l & E1 & E2 & Hg). exists o, l. split; [done|]. split; [done|]. split; [done|].
  destruct (ak_ok _ _ _ K) as [Hcore _]. pose proof (ak_proc _ _ _ K) as Hp. pose proof (ak_hashed _ _ _ K) as Hh.
  assert (Hsend : forall to m, known (tab w) to -> (d ← map_proc (tab w) to; m ← pre_syscall (tab w) (cur w) m; Some (LSend (cur w) d m)) = Some l ->
    (o' ← do_send (tab w) (cur w) to (mk_message (pid pc) (mtype m) (body m)); match o' with Ret _ _ => None | Sched _ t => Some t end) =
      match o with Ret _ _ => None | Sched _ t => Some t end -> (exists k t, o = Sched k t) -> send_result (tab w) (cur w) to m o l).
  { intros to m (d & pd & Hd & Hpd & <-) El Eo (k & t' & ->).
    destruct (map_proc_ok (tab w) (pid pd) (co_hash _ _ Hcore)) as (a & Ea & Ha); [destruct (co_pid _ _ Hcore d pd Hd Hpd); lia|].
    destruct Ha as [[_ Hn]|(_ & Ha & q & Hq & Epid)]; [by destruct (Hn d pd)|].
    assert (a = d) by (by apply (ho_pid _ (co_hash _ _ Hcore) a d q pd)). subst a. rewrite Ea in El. unfold pre_syscall in El. rewrite Hp in El. cbn in El. injection El as <-.
    destruct (do_send (tab w) (cur w) (pid pd) _) as [o'|] eqn:Es; [|done].
    assert (Hni : pid pc <> IPC_INTR) by (destruct (co_pid _ _ Hcore _ pc Hh Hp); unfold IPC_SIGNAL, IPC_INTR in *; lia).
    destruct (do_send_result _ _ pc d pd _ (mk_message (pid pc) (mtype m) (body m)) _ Hp Ea Hpd Hni Es) as (t2 & p & -> & Hx & Hst & Hw).
    cbn in Eo. injection Eo as ->. exists pc, d, pd, k, t', p. by repeat split. }
  unfold do_syscall, pre_syscall in E1. destruct c as [to m|from m|to m]; cbn [call_ok call_result call_label] in *; rewrite Hp in E1; revert E1; some_bind; intros E1.
  - assert (Hx : exists k t, o = Sched k t).
    { destruct Hc as (d & pd & Hd & Hpd & <-). destruct (send_good w A pc d pd (mk_message (pid pc) (mtype m) (body m)) _ K Hd Hpd eq_refl (or_introl eq_refl)) as (t' & Es & _).
      rewrite Es in E1. injection E1 as <-. eauto. }
    apply Hsend; [done|done|by rewrite E1|done].
  - injection E2 as <-. split; [done|]. by eapply do_recv_result.
  - destruct Hc as [Hkn Hmm]. revert E1. case_if; [done|]. unfold do_sendrecv. destruct (do_send (tab w) (cur w) to _) as [o'|] eqn:Es; [|done].
    pose proof Hkn as (d & pd & Hd & Hpd & <-). destruct (send_good w A pc d pd (mk_message (pid pc) (mtype m) (body m)) _ K Hd Hpd eq_refl (or_introl eq_refl)) as (t' & Es' & _).
    rewrite Es in Es'. injection Es' as ->. cbn. intros E1. injection E1 as <-. apply Hsend; [done|done|by rewrite Es|eauto].
Qed.

Lemma resume_does w A pc k :
  at_kernel w A pc -> conts w !! cur w = Some k ->
  exists o l, resume (tab w) (cur w) k = Some o /\ resume_label (tab w) (cur w) k o = Some l /\ good w A o l /\ resume_result A (tab w) (cur w) k o l.
Proof.
  intros K Hk. destruct (resume_good w A pc k K Hk) as (o & l & E1 & E2 & Hg). exists o, l. split; [done|]. split; [done|]. split; [done|].
  destruct k as [m|to m|m|m|s m]; cbn [resume resume_label resume_result] in *.
  - by injection E1 as <-.
  - injection E2 as <-. split; [done|]. by eapply do_recv_result.
  - injection E2 as <-. split; [done|]. by eapply recv_all_result.
  - unfold recv_intr in E1. destruct (update _ _ _) as [t1|]; [|done]. cbn in E1. injection E1 as <-. injection E2 as <-. eauto.
  - destruct (procs (tab w) !! s) as [ps|] eqn:Hps; [|done]. cbn in E2. injection E2 as <-. destruct (take_from_ret _ _ _ _ E1) as (m' & t' & ->). by exists ps, m', t'.
Qed.

(** A process blocked in a receive has nothing it could return. *)
Lemma blocked_empty w A a p :
  ipc_ok w -> models A (tab w) -> hashed (tab w) a -> procs (tab w) !! a = Some p -> state (sched p) = PROC_RECEIVING ->
  exists b, A !! a = Some b /\ ~ can_receive b (wait (ipc p)).
Proof.
  intros H Hm Ha Hp Hst. pose proof H as [Hc _]. destruct (Hm a p Ha Hp) as [HA _]. eexists. split; [exact HA|].
  pose proof (co_proc _ _ Hc a p Ha Hp) as Hok. assert (Hna : ~ active p) by (intros Hx; by apply (active_not_receiving p)). unfold can_receive.
  destruct (conts w !! a) as [[]|]; cbn [proc_ok] in Hok; rewrite Hst in Hok.
  - by destruct Hok.
  - by destruct Hok as [[?|?] _].
  - destruct Hok as [|(_ & -> & -> & Hi)]; [done|]. cbn. unfold flag. rewrite Hi. by intros [|].
  - destruct Hok as [[? _]|(_ & -> & Hi)]; [done|]. cbn. unfold flag. by rewrite Hi.
  - destruct Hok as (ps & Hs & Hps & [[? _]|(_ & -> & Hn)]); [done|]. destruct (co_pid _ _ Hc _ ps Hs Hps) as [Hpid _].
    rewrite (proj2 (Z.eqb_neq (pid ps) IPC_ALL)), (proj2 (Z.eqb_neq (pid ps) IPC_INTR)) by (unfold IPC_ALL, IPC_INTR, IPC_SIGNAL in *; lia).
    cbn [fst]. by rewrite <- (queued_iff w A a p _ ps H Hm Ha Hp Hs Hps).
  - by destruct Hok.
Qed.

(** C30: the kernel loses no wake-up and every call it accepted proceeds.  In every
    state a run reaches, a process that is blocked in a receive has nothing in its
    mailbox that this receive could return, and a process is blocked in a send exactly as long as
    its message is in the mailbox of the receiver.  A send to a known pid posts the
    stamped message and blocks the sender; a receive returns at once if the mailbox
    has something for it and blocks if not; a receive of one sender or of interrupts
    that continues after [schedule] returns its message, every other call that
    continues goes on with its next part; and the clock always has a step. *)
Theorem ipc_no_lost_wakeup w0 A0 tr w :
  ipc_ok w0 -> models A0 (tab w0) -> steps w0 tr w ->
  exists A, mail_steps A0 tr A /\ models A (tab w) /\
  (forall a p, hashed (tab w) a -> procs (tab w) !! a = Some p -> state (sched p) = PROC_RECEIVING ->
    exists b, A !! a = Some b /\ ~ can_receive b (wait (ipc p))) /\
  (forall a p q pq, hashed (tab w) a -> procs (tab w) !! a = Some p -> hashed (tab w) q -> procs (tab w) !! q = Some pq ->
    state (sched p) = PROC_SENDING /\ wait (ipc p) = pid pq <-> exists l i m, A !! q = Some (l, i) /\ m ∈ l /\ src m = pid p) /\
  (forall c, conts w !! cur w = None -> cur w ∈ proc_head (tab w) -> call_ok (tab w) c ->
    exists o l w', do_syscall (tab w) (cur w) c = Some o /\ finish w o = Some w' /\ call_result A (tab w) (cur w) c o l /\
      step w l w' /\ exists A', mail_step A l A' /\ models A' (tab w')) /\
  (forall k, conts w !! cur w = Some k ->
    exists o l w', resume (tab w) (cur w) k = Some o /\ finish w o = Some w' /\ resume_result A (tab w) (cur w) k o l /\
      step w l w' /\ exists A', mail_step A l A' /\ models A' (tab w')) /\
  (conts w !! cur w = None -> exists c t, timer (tab w) (cur w) = Some (c, t) /\ step w LTau (mk_world t c (conts w))).
Proof.
  intros H0 Hm0 Hst. destruct (steps_sim w0 tr w Hst A0 H0 Hm0) as (H & A & Hms & Hm). exists A. split; [done|]. split; [done|].
  pose proof H as [Hc Hr]. destruct (user_proc w H) as [pc Hpc].
  split; [intros a p; by apply blocked_empty|]. split; [|split; [|split]].
  - intros a p q pq Ha Hp Hq Hpq. destruct (Hm q pq Hq Hpq) as [HA _]. destruct (co_queue _ _ Hc q pq Hq Hpq) as [_ Hqq].
    transitivity (a ∈ wait_proc (ipc pq)).
    + rewrite Hqq. split; [intros Hx; split; [done|by exists p]|]. intros [_ (p' & Hp' & Hx)]. rewrite Hp in Hp'. by injection Hp' as <-.
    + rewrite (queued_iff w A q pq a p H Hm Hq Hpq Ha Hp). split; [intros (m & ? & ?); by eexists _, _, m|].
      intros (l & i & m & HA' & ? & ?). rewrite HA in HA'. injection HA' as <- <-. by exists m.
  - intros c Hk Hh Hcall. destruct (call_does w A pc c) as (o & l & E1 & E2 & (w' & A' & E3 & _ & Hs & Hm') & Hres); [split; [done|done|by apply (co_head _ _ Hc)|done]|done|].
    exists o, l, w'. split; [done|]. split; [done|]. split; [done|]. split; [by eapply step_call|]. by exists A'.
  - intros k Hk. destruct (resume_does w A pc k) as (o & l & E1 & E2 & (w' & A' & E3 & _ & Hs & Hm') & Hres); [split; [done|done|apply (co_user _ _ Hc); by exists k|done]|done|].
    exists o, l, w'. split; [done|]. split; [done|]. split; [done|]. split; [by eapply step_resume|]. by exists A'.
  - intros Hk. destruct (timer_ok (tab w) (conts w) (cur w) Hc Hr) as (next & t' & E & _). exists next, t'. split; [done|]. by apply step_timer.
Qed.

(** One process posts a message; then the other one receives it, and no call is stuck. *)
Lemma ipc_no_lost_wakeup_witness :
  exists w A o l w', steps two_world [LSend 0x3000 0x2000 sample_request] w /\ models A (tab w) /\
    do_syscall (tab w) (cur w) (SysRecv IPC_ALL sample_request) = Some o /\ finish w o = Some w' /\ step w l w' /\
    receive_result A (cur w) IPC_ALL o.
Proof.
  assert (E : (fun r => (r.1, cur r.2, bool_decide (conts r.2 !! cur r.2 = None), bool_decide (cur r.2 ∈ proc_head (tab r.2)))) <$>
    exec_all two_world [ACall (SysSend 2 sample_request)] = Some ([LSend 0x3000 0x2000 sample_request], 0x2000, true, true)) by (vm_compute; reflexivity).
  apply fmap_Some in E as ([tr w] & E & Etr). cbn [fst snd] in Etr. injection Etr as <- Ecur Ek Eh. apply exec_all_steps in E.
  destruct (ipc_no_lost_wakeup two_world two_mail _ w two_ok two_models E) as (A & _ & Hm & _ & _ & H & _).
  destruct (H (SysRecv IPC_ALL sample_request)) as (o & l & w' & H1 & H2 & [_ H3] & H4 & _).
  - exact (proj1 (bool_decide_eq_true _) (eq_sym Ek)).
  - exact (proj1 (bool_decide_eq_true _) (eq_sym Eh)).
  - by left.
  - exists w, A, o, l, w'. split; [exact E|]. split; [exact Hm|]. split; [exact H1|]. split; [exact H2|]. split; [exact H4|exact H3].
Defined.
