(* ===== verification/Fork.v ===== *)
(** * Creation and end of processes: [core/fork.c], [core/sys.c], [boot/process.c]

    A process is its record in the process table of [Sched], its page tables and the
    frames below them in the words of [PageTable], and its saved context.  [do_fork],
    [do_exit] and [do_wait] stop in the middle, to ask the file server or to sleep; the
    code before and after that point is a definition each, and the second one takes the
    state the other processes left.  The addresses of [ret_from_fork] and [exec_ret],
    which are assembly, are parameters. *)

From S2P Require Import Prelude Buddy PageIface PageTable Sched Ipc.

Definition KERNEL_STACK_ORDER : Z := 1.
Definition KERNEL_STACK_SIZE : Z := 8192.
Definition SIGCHLD : Z := 17.
Definition USER_CODE_DESC : Z := 0x1b.
Definition USER_DATA_DESC : Z := 0x23.

(** ** Memory *)

(** [n] words to the kernel address [to]; [ld] loads word [k] of the source. *)
Definition copy_from (ld : gmap Z Z -> Z -> option Z) (m : gmap Z Z) (to : Z) (n : nat) : option (gmap Z Z) :=
  foldl (fun o k => m ← o; w ← ld m k; Some (set_entry m to k w)) (Some m) (seqZ 0 (Z.of_nat n)).

(** [memcpy] of [n] aligned words between kernel addresses. *)
Definition copy_words (m : gmap Z Z) (to from : Z) (n : nat) : option (gmap Z Z) :=
  copy_from (fun m k => Some (entry m from k)) m to n.

(** The word at an address of the running process, through its page table. *)
Definition load_user (m : gmap Z Z) (pgd v : Z) : option Z := a ← translate m pgd v; Some (rd m (to_vir a)).

(** [memcpy] of a page of the running process to a kernel address. *)
Definition copy_page (m : gmap Z Z) (pgd to from : Z) : option (gmap Z Z) :=
  if to =? NULL then None else copy_from (fun m k => load_user m pgd (from + 8 * k)) m to (Z.to_nat nr_entry).

(** ** Saved contexts *)

Record context := mk_context { rsp0 : Z; rsp : Z; rip : Z }.

Definition kernel_stack_top (proc : Z) : Z := proc + KERNEL_STACK_SIZE - 8.

(** [frame_t]: 21 registers; the last five are those the processor pushed. *)
Definition frame_words : Z := 21.
Definition newregs_of (proc : Z) : Z := kernel_stack_top proc - 8 * frame_words.

Section Operations.
Context {P : Type} `{!PageAllocator P}.
Context (ret_from_fork exec_ret : Z).

Record kstate := mk_ks { k_pt : pt_state P; k_tab : ptable; k_ctx : gmap Z context; global_pid : Z }.

Definition set_pt (s : kstate) (st : pt_state P) : kstate := mk_ks st (k_tab s) (k_ctx s) (global_pid s).
Definition set_tab (s : kstate) (t : ptable) : kstate := mk_ks (k_pt s) t (k_ctx s) (global_pid s).
Definition with_words (st : pt_state P) (m : gmap Z Z) : pt_state P := mk_pt (pt_pages st) m.

Definition copy_context (s : kstate) (p regs : Z) : option kstate :=
  let newregs := newregs_of p in
  m ← copy_words (pt_mem (k_pt s)) newregs regs (Z.to_nat frame_words);
  Some (mk_ks (with_words (k_pt s) m) (k_tab s) (<[p := mk_context newregs newregs ret_from_fork]> (k_ctx s)) (global_pid s)).

(** [memset] clears [sizeof(newregs)], the size of a pointer. *)
Definition setup_proc_context (s : kstate) (p entry stack_bottom : Z) : kstate :=
  let newregs := newregs_of p in
  let m := clear_words (pt_mem (k_pt s)) newregs 1 in
  let m := set_entry m newregs 16 entry in
  let m := set_entry m newregs 17 USER_CODE_DESC in
  let m := set_entry m newregs 18 (Z.lor (Z.shiftl 1 9) (Z.shiftl 3 12)) in
  let m := set_entry m newregs 19 stack_bottom in
  let m := set_entry m newregs 20 USER_DATA_DESC in
  mk_ks (with_words (k_pt s) m) (k_tab s) (<[p := mk_context newregs newregs exec_ret]> (k_ctx s)) (global_pid s).

(** ** [do_fork] *)

(** One round of the loops of [copy_mm]: the page [start] of the address space [cpgd]
    of the running process, to the address space [npgd]. *)
Definition copy_one (st : pt_state P) (cpgd npgd start : Z) : option (pt_state P) :=
  r ← map_page st npgd start;
  m ← copy_page (pt_mem r.2) cpgd r.1 start;
  Some (with_words r.2 m).

(** [while (start != end)].  The fuel is the number of pages; a range that is not a
    number of whole pages never meets its end. *)
Fixpoint copy_range (fuel : nat) (st : pt_state P) (cpgd npgd start end_ : Z) : option (pt_state P) :=
  if start =? end_ then Some st
  else match fuel with
       | O => None
       | S fuel => st ← copy_one st cpgd npgd start; copy_range fuel st cpgd npgd (u64 (start + PAGE_SIZE)) end_
       end.

Definition copy_pages (st : pt_state P) (cpgd npgd start end_ : Z) : option (pt_state P) :=
  copy_range (Z.to_nat (u64 (end_ - start) / PAGE_SIZE)) st cpgd npgd start end_.

Fixpoint copy_segs (st : pt_state P) (cpgd npgd : Z) (l : list pseg) : option (pt_state P) :=
  match l with
  | [] => Some st
  | s :: l =>
      st ← copy_pages st cpgd npgd (PAGE_LOWER_ALIGN (vstart s)) (PAGE_UPPER_ALIGN (vend s));
      copy_segs st cpgd npgd l
  end.

(** The result, the [mm] of the new process, which was zero, and the memory. *)
Definition copy_mm (st : pt_state P) (cur : proc_mm) : option (Z * proc_mm * pt_state P) :=
  r ← get_zeroed_page st;
  let '(npgd, st) := r in
  if npgd =? 0 then Some (-1, mk_mm (mm_flags cur) 0 [] 0 0 0 0, st)
  else
    m ← copy_words (pt_mem st) npgd (pgd cur) (Z.to_nat nr_entry);
    let st := with_words st (clear_words m npgd (Z.to_nat (PAGE_SIZE / 2 / 8))) in
    st ← copy_segs st (pgd cur) npgd (psegs cur);
    st ← copy_pages st (pgd cur) npgd (start_stack cur) (end_stack cur);
    st ← copy_pages st (pgd cur) npgd (start_brk cur) (brk cur);
    Some (0, mk_mm (mm_flags cur) npgd (psegs cur) (start_brk cur) (brk cur) (start_stack cur) (end_stack cur), st).

Definition alloc_pid (s : kstate) : Z * kstate :=
  let n := i32 (global_pid s + 1) in (n, mk_ks (k_pt s) (k_tab s) (k_ctx s) n).

Definition no_message : message := mk_message 0 0 m_none.

(** The record after [memset] and the assignments. *)
Definition new_proc (pid parent : Z) : proc_t :=
  mk_proc pid (mk_sched PROC_SENDING 0 1 0) (mk_ipc 0 [] 0 no_message 0) parent [] 0 (mk_mm 0 0 [] 0 0 0 0).

Definition set_mm (p : proc_t) (v : proc_mm) : proc_t :=
  mk_proc (pid p) (sched p) (ipc p) (parent p) (children p) (exit_status p) v.
Definition set_children (p : proc_t) (l : list Z) : proc_t :=
  mk_proc (pid p) (sched p) (ipc p) (parent p) l (exit_status p) (mm p).
Definition set_exit_status (p : proc_t) (v : Z) : proc_t :=
  mk_proc (pid p) (sched p) (ipc p) (parent p) (children p) v (mm p).

Definition free_block (s : kstate) (a order : Z) : option kstate :=
  p ← pa_free (pt_pages (k_pt s)) a order; Some (set_pt s (mk_pt p (pt_mem (k_pt s)))).

(** The record is gone with its pages. *)
Definition free_proc (s : kstate) (proc : Z) : option kstate :=
  s ← free_block s proc KERNEL_STACK_ORDER;
  Some (set_tab s (set_procs (k_tab s) (delete proc (procs (k_tab s))))).

(** [faild:] *)
Definition fork_failed (s : kstate) (proc : Z) : option (Z * kstate) :=
  p ← procs (k_tab s) !! proc;
  s ← (if pgd (mm p) =? 0 then Some s
       else st ← free_proc_mm (k_pt s) (pgd (mm p)); free_block (set_pt s st) (pgd (mm p)) 0);
  s ← free_proc s proc;
  Some (-1, s).

Inductive fork_outcome :=
  | ForkRet (r : Z) (s : kstate)
  | ForkSend (proc : Z) (m : message) (s : kstate).

(** The message of [copy_fs], and its result from the status of [do_sendrecv] and the
    [retval] of the answer. *)
Definition copy_fs_message (src pid : Z) : message := mk_message src MSG_FORKFS (m_forkfs pid).
Definition copy_fs (status retval : Z) : Z := if negb (status =? 0) || negb (retval =? 0) then -1 else 0.

(** Up to the message of [copy_fs] to the file server. *)
Definition fork_begin (s : kstate) (cur : Z) : option fork_outcome :=
  c ← procs (k_tab s) !! cur;
  r ← pa_alloc (pt_pages (k_pt s)) KERNEL_STACK_ORDER;
  let '(proc, p) := r in
  if proc =? NULL then Some (ForkRet NULL (set_pt s (mk_pt p (pt_mem (k_pt s)))))
  else
    let m := clear_words (pt_mem (k_pt s)) proc (Z.to_nat (PAGE_SIZE * Z.shiftl 1 KERNEL_STACK_ORDER / 8)) in
    let '(n, s) := alloc_pid (set_pt s (mk_pt p m)) in
    let t := set_proc (k_tab s) proc (new_proc n cur) in
    let t := set_proc t cur (set_children c (proc :: children c)) in
    let s := set_tab s t in
    r ← copy_mm (k_pt s) (mm c);
    let '(e, nmm, st) := r in
    let s := set_pt (set_tab s (set_proc t proc (set_mm (new_proc n cur) nmm))) st in
    if negb (e =? 0) then r ← fork_failed s proc; Some (ForkRet r.1 r.2)
    else Some (ForkSend proc (copy_fs_message (pid c) n) s).

(** After the answer: [status] of [do_sendrecv] and [retval] of the message. *)
Definition fork_end (s : kstate) (proc regs status retval : Z) : option (Z * kstate) :=
  if negb (copy_fs status retval =? 0) then fork_failed s proc
  else
    s ← copy_context s proc regs;
    let t := k_tab s in
    t ← hash_proc (set_head t (proc_head t ++ [proc])) proc;
    p ← procs t !! proc;
    Some (pid p, set_tab s (set_proc t proc (set_state p PROC_RUNNABLE))).

(** ** [do_brk] *)

Fixpoint brk_loop (n : nat) (st : pt_state P) (pgd brk : Z) : option (bool * pt_state P) :=
  match n with
  | O => Some (true, st)
  | S n => r ← map_page st pgd brk; if r.1 =? 0 then Some (false, r.2) else brk_loop n r.2 pgd (u64 (brk + PAGE_SIZE))
  end.

Definition set_brk (m : proc_mm) (v : Z) : proc_mm :=
  mk_mm (mm_flags m) (pgd m) (psegs m) (start_brk m) v (start_stack m) (end_stack m).

Definition do_brk (st : pt_state P) (m : proc_mm) (addr : Z) : option (Z * proc_mm * pt_state P) :=
  let new_brk := PAGE_UPPER_ALIGN addr in
  let nr_pages := i32 (u64 (new_brk - brk m) / PAGE_SIZE) in
  r ← brk_loop (Z.to_nat nr_pages) st (pgd m) (brk m);
  if (r.1 : bool) then Some (0, set_brk m new_brk, r.2) else Some (-1, m, r.2).

(** ** [do_exit] *)

(** Up to the message to the file server.  [list_add] puts each child in front of the
    parent's list; the list of the process itself is not used any more. *)
Definition exit_begin (s : kstate) (cur : Z) : option (message * kstate) :=
  c ← procs (k_tab s) !! cur;
  st ← free_proc_mm (k_pt s) (pgd (mm c));
  t ← update (k_tab s) (parent c) (fun p => set_children p (rev (children c) ++ children p));
  Some (mk_message (pid c) MSG_FREEFS m_none, set_tab (set_pt s st) t).

(** After the answer; the result is the process that runs next. *)
Definition exit_end (s : kstate) (cpu cur status : Z) : option (Z * kstate) :=
  c ← procs (k_tab s) !! cur;
  t ← update (k_tab s) cur (fun p => set_exit_status p status);
  t ← update t (parent c) (fun p => send_signal p SIGCHLD);
  t ← update t cur (fun p => set_state p PROC_STOPPED);
  r ← schedule t cpu cur;
  Some (r.1, set_tab s r.2).

(** ** [do_wait] *)

Inductive wait_outcome :=
  | WaitRet (r : Z) (s : kstate)
  | WaitSleep (s : kstate)
  | WaitGoOn (s : kstate).

Definition wait_begin (s : kstate) (cur : Z) : option wait_outcome :=
  c ← procs (k_tab s) !! cur;
  match children c with
  | [] => Some (WaitRet (-1) s)
  | _ =>
      if negb (signal (ipc c) =? SIGCHLD) then
        t ← update (k_tab s) cur (fun p => set_wait p IPC_SIGNAL);
        t ← update t cur (fun p => set_state p PROC_RECEIVING);
        Some (WaitSleep (set_tab s t))
      else Some (WaitGoOn s)
  end.

(** The first child that stopped. *)
Fixpoint find_stopped (m : gmap Z proc_t) (l : list Z) : option Z :=
  match l with
  | [] => Some NULL
  | a :: l => p ← m !! a; if state (sched p) =? PROC_STOPPED then Some a else find_stopped m l
  end.

(** The pid and the exit status, which goes through [statloc]. *)
Definition wait_end (s : kstate) (cur : Z) : option (Z * Z * kstate) :=
  t ← update (k_tab s) cur (fun p => set_signal p 0);
  c ← procs t !! cur;
  child ← find_stopped (procs t) (children c);
  p ← procs t !! child;
  s ← free_block (set_tab s t) (pgd (mm p)) 0;
  t ← unmap_proc (k_tab s) (pid p);
  s ← free_proc (set_tab s (set_head t (remove child (proc_head t)))) child;
  Some (pid p, exit_status p, s).
End Operations.

Arguments kstate P : clear implicits.
Arguments fork_outcome P : clear implicits.
Arguments wait_outcome P : clear implicits.
