(* ===== verification/ForkProofs.v ===== *)
(** * Proofs about [Fork]: copies of address spaces, the life of a process, the heap

    The interface of the page allocator is all that is used of it; the witnesses run on
    the buddy system of 32 pages. *)

From S2P Require Import Prelude Buddy PageIface PageTable Sched Ipc Fork.

(** ** Copies *)

Definition fill (v : Z -> Z) (m : gmap Z Z) (t : Z) (n : nat) : gmap Z Z :=
  foldl (fun m k => set_entry m t k (v k)) m (seqZ 0 (Z.of_nat n)).

(** A source that does not change while it is copied. *)
Lemma copy_from_ok ld (v : Z -> Z) m to n :
  (forall j k, (j <= n)%nat -> 0 <= k < Z.of_nat n -> ld (fill v m to j) k = Some (v k)) ->
  copy_from ld m to n = Some (fill v m to n).
Proof.
  unfold copy_from, fill. intros H. assert (Hj : forall j, (j <= n)%nat ->
    foldl (fun o k => m ← o; w ← ld m k; Some (set_entry m to k w)) (Some m) (seqZ 0 (Z.of_nat j)) =
    Some (foldl (fun m k => set_entry m to k (v k)) m (seqZ 0 (Z.of_nat j)))); [|by apply Hj].
  induction j as [|j IH]; intros Hj; [done|]. rewrite seqZ_S, !foldl_snoc, IH by lia. some_bind.
  change (0 + Z.of_nat j) with (Z.of_nat j). pose proof (H j (Z.of_nat j) ltac:(lia) ltac:(lia)) as E. unfold fill in E. rewrite E. by some_bind.
Qed.

Lemma fill_other v m t n a k :
  kernel_block t 0 -> kernel_block a 0 -> a <> t -> (n <= 512)%nat -> 0 <= k < 512 -> entry (fill v m t n) a k = entry m a k.
Proof. intros. apply fill_out. intros i Hi. apply words_apart; (done || lia). Qed.

Lemma copy_words_ok m to from :
  kernel_block to 0 -> kernel_block from 0 -> from <> to ->
  copy_words m to from (Z.to_nat nr_entry) = Some (fill (entry m from) m to (Z.to_nat nr_entry)).
Proof.
  intros Ht Hf Hne. apply copy_from_ok. intros j k Hj Hk. change (Z.of_nat (Z.to_nat nr_entry)) with 512 in Hk. f_equal.
  by apply fill_other.
Qed.

Section Spaces.
Context {P : Type} `{!PageAllocator P}.
Implicit Types (st : pt_state P) (own : gmap Z Z) (role : gmap Z (list Z)).

(** A tree does not depend on the words of other pages. *)
Lemma pt_inv_frame st st' own own' root role :
  pt_inv st own root role -> pa_inv (pt_pages st') own' -> own ⊆ own' ->
  (forall a q k, role !! a = Some q -> (length q < 4)%nat -> 0 <= k < 512 -> entry (pt_mem st') a k = entry (pt_mem st) a k) ->
  pt_inv st' own' root role.
Proof.
  intros [H1 H2 H3 H4 H5 H6] Hp Ho He. split; [done|done| |done|done|].
  - intros a q Ha. destruct (H3 a q Ha). split; [by eapply lookup_weaken|done].
  - intros a q i Ha Hl Hi. rewrite (He a q i Ha Hl (ind_ok_512 q i Hi)). by apply H6.
Qed.

(** The processor's translation and [kmap] agree on mapped pages. *)
Lemma translate_walk st own root role u f :
  pt_inv st own root role -> 0 <= u < 2 ^ 47 -> role !! f = Some (path_of u) ->
  translate (pt_mem st) root u = Some (to_phy f + u mod PAGE_SIZE).
Proof.
  intros H Hu Hf.
  destruct (pi_parent _ _ _ _ H f [_; _; _] _ Hf) as [_ (t1 & Ht1)].
  destruct (pi_parent _ _ _ _ H t1 [_; _] _ Ht1) as [_ (t2 & Ht2)].
  destruct (pi_parent _ _ _ _ H t2 [_] _ Ht2) as [_ (t3 & Ht3)].
  assert (Hp : forall b q, role !! b = Some q -> Z.testbit (to_phy b + 7) 0 = true /\ table_of (to_phy b + 7) = b).
  { intros b q Hb. pose proof (role_block _ _ _ _ _ _ H Hb) as Hk. destruct (table_entry b Hk) as (_ & _ & T & _). split; [|done].
    destruct (kernel_page_phy b Hk) as (_ & Hal & _). apply Z.mod_divide in Hal as [x ->]; [|done].
    rewrite Z.bit0_odd. replace (x * PAGE_SIZE + 7) with (1 + 2 * (x * 2048 + 3)) by (unfold PAGE_SIZE; lia). apply Z.odd_add_mul_2. }
  unfold translate. rewrite (Z.mod_small u (2 ^ 48)) by lia.
  rewrite (entry_child _ _ _ _ _ _ _ _ H (pi_root _ _ _ _ H) Ht3). destruct (Hp _ _ Ht3) as [-> ->]. some_bind.
  rewrite (entry_child _ _ _ _ _ _ _ _ H Ht3 Ht2). destruct (Hp _ _ Ht2) as [-> ->]. some_bind.
  rewrite (entry_child _ _ _ _ _ _ _ _ H Ht2 Ht1). destruct (Hp _ _ Ht1) as [-> ->]. some_bind.
  rewrite (entry_child _ _ _ _ _ _ _ _ H Ht1 Hf). destruct (Hp _ _ Hf) as [-> ->]. by some_bind.
Qed.

Lemma path_same_page u d : u mod PAGE_SIZE = 0 -> 0 <= d < PAGE_SIZE -> path_of (u + d) = path_of u /\ (u + d) mod PAGE_SIZE = d.
Proof.
  unfold PAGE_SIZE. intros Hu Hd. apply Z.mod_divide in Hu as [x ->]; [|lia].
  split; [|rewrite Z.add_comm, Z.mod_add by lia; by apply Z.mod_small].
  assert (E : forall k, 12 <= k -> (x * 4096 + d) / 2 ^ k = x * 4096 / 2 ^ k).
  { intros k Hk. replace k with (12 + (k - 12)) by lia. rewrite Z.pow_add_r, <- !Z.div_div by lia. f_equal. change (2 ^ 12) with 4096.
    rewrite Z.div_add_l, Z.div_mul, Z.div_small by lia. lia. }
  assert (D : forall y i j, 0 <= i <= j -> y mod 2 ^ j / 2 ^ i = (y / 2 ^ i) mod 2 ^ (j - i)).
  { intros y i j Hij. replace (2 ^ j) with (2 ^ i * 2 ^ (j - i)) by (rewrite <- Z.pow_add_r by lia; f_equal; lia).
    pose proof (pow2_pos i ltac:(lia)). pose proof (pow2_pos (j - i) ltac:(lia)).
    rewrite Z.rem_mul_r, Z.add_comm, Z.mul_comm, Z.div_add_l by lia. rewrite (Z.div_small (y mod 2 ^ i)) by (by apply Z.mod_pos_bound). lia. }
  unfold path_of. rewrite !D by lia. by rewrite !E by lia.
Qed.

(** A load from a mapped page is a load from its frame. *)
Lemma load_user_ok st own root role u f k :
  pt_inv st own root role -> 0 <= u < 2 ^ 47 -> u mod PAGE_SIZE = 0 -> role !! f = Some (path_of u) -> 0 <= k < 512 ->
  load_user (pt_mem st) root (u + 8 * k) = Some (entry (pt_mem st) f k).
Proof.
  intros H Hu Hal Hf Hk. destruct (path_same_page u (8 * k) Hal) as [Hp Hm]; [unfold PAGE_SIZE; lia|]. unfold load_user.
  assert (Hr : 0 <= u + 8 * k < 2 ^ 47).
  { split; [lia|]. apply Z.mod_divide in Hal as [x ->]; [|done]. unfold PAGE_SIZE in *. change (2 ^ 47) with (2 ^ 35 * 4096) in *. lia. }
  rewrite (translate_walk _ _ _ _ (u + 8 * k) f H Hr) by (by rewrite Hp). some_bind. rewrite Hm.
  pose proof (role_block _ _ _ _ _ _ H Hf) as Hb. destruct (kernel_page_phy f Hb) as (? & ? & ? & Ep).
  apply kernel_page in Hb as (? & ? & ?). unfold entry. do 2 f_equal. rewrite Ep. rewrite to_vir_low by (unfold KERNEL_OFFSET in *; lia). lia.
Qed.
End Spaces.

(** ** Copies of address spaces

    [st0] is the memory when the copy began; the running process has the tree [crole]
    at [cpgd] and the new one the tree [nrole] at [npgd]. *)

Section CopySpace.
Context {P : Type} `{!PageAllocator P}.
Context (st0 : pt_state P) (own0 : gmap Z Z) (cpgd : Z) (crole : gmap Z (list Z)) (npgd : Z).
Context (H0 : pt_inv st0 own0 cpgd crole).
Implicit Types (st : pt_state P) (own : gmap Z Z) (role : gmap Z (list Z)).

(** The frame [f'] holds the words that [f] had. *)
Definition same_words st (f f' : Z) : Prop := forall k, 0 <= k < 512 -> entry (pt_mem st) f' k = entry (pt_mem st0) f k.

(** Both trees are good, no page of the new one was allocated before, the pages
    allocated before are unchanged, and the new tree maps exactly the pages [done], to
    copies of the frames of the running process. *)
Record copying st own nrole (done : list Z) : Prop := {
  cp_cur : pt_inv st own cpgd crole;
  cp_new : pt_inv st own npgd nrole;
  cp_own : own0 ⊆ own;
  cp_fresh : forall a q, nrole !! a = Some q -> own0 !! a = None;
  cp_kernel : forall k, 256 <= k < 512 -> entry (pt_mem st) npgd k = entry (pt_mem st0) cpgd k;
  cp_words : forall a k, own0 !! a = Some 0 -> 0 <= k < 512 -> entry (pt_mem st) a k = entry (pt_mem st0) a k;
  cp_done : forall u, u ∈ done -> exists f f', crole !! f = Some (path_of u) /\ nrole !! f' = Some (path_of u) /\ same_words st f f';
  cp_only : forall u f', nrole !! f' = Some (path_of u) -> exists v, v ∈ done /\ path_of v = path_of u }.

Lemma cur_own a q : crole !! a = Some q -> own0 !! a = Some 0.
Proof. intros Ha. by destruct (pi_own _ _ _ _ H0 a q Ha). Qed.

(** The copy into a frame of the new tree. *)
Lemma copy_page_ok st own nrole page u f :
  pt_inv st own cpgd crole -> pt_inv st own npgd nrole -> (forall a q, nrole !! a = Some q -> own0 !! a = None) ->
  nrole !! page = Some (path_of u) -> crole !! f = Some (path_of u) -> 0 <= u < 2 ^ 47 -> u mod PAGE_SIZE = 0 ->
  exists m', copy_page (pt_mem st) cpgd page u = Some m' /\
    pt_inv (with_words st m') own cpgd crole /\ pt_inv (with_words st m') own npgd nrole /\
    (forall k, 0 <= k < 512 -> entry m' page k = entry (pt_mem st) f k) /\
    (forall a k, own !! a = Some 0 -> a <> page -> 0 <= k < 512 -> entry m' a k = entry (pt_mem st) a k).
Proof.
  intros Hc Hn Hfr Hp Hf Hu Hal. pose proof (role_block _ _ _ _ _ _ Hn Hp) as Hpb. destruct (kernel_page page Hpb) as (Hlow & _).
  assert (Hapart : forall a q, crole !! a = Some q -> a <> page) by (intros a q Ha ->; pose proof (cur_own _ _ Ha); pose proof (Hfr _ _ Hp); congruence).
  assert (Hother : forall v j a k, own !! a = Some 0 -> a <> page -> (j <= 512)%nat -> 0 <= k < 512 -> entry (fill v (pt_mem st) page j) a k = entry (pt_mem st) a k).
  { intros v j a k Ha Hne Hj Hk. apply fill_other; try done. by eapply pa_inv_blocks; [apply Hc|]. }
  assert (Hcur : forall v j, (j <= 512)%nat -> pt_inv (with_words st (fill v (pt_mem st) page j)) own cpgd crole).
  { intros v j Hj. apply (pt_inv_frame st _ own); [done|apply Hc|done|]. intros a q k Ha _ Hk. cbn [with_words pt_mem].
    apply Hother; [by destruct (pi_own _ _ _ _ Hc a q Ha)|by eapply Hapart|done|done]. }
  exists (fill (entry (pt_mem st) f) (pt_mem st) page 512). split; [|split; [by apply Hcur|split; [|split]]].
  - unfold copy_page. rewrite (proj2 (Z.eqb_neq page NULL)) by (unfold NULL, KERNEL_OFFSET in *; lia).
    apply copy_from_ok. intros j k Hj Hk. change (Z.of_nat (Z.to_nat nr_entry)) with 512 in Hk.
    pose proof (load_user_ok _ _ _ _ u f k (Hcur (entry (pt_mem st) f) j Hj) Hu Hal Hf Hk) as E. cbn [with_words pt_mem] in E. rewrite E.
    f_equal. apply Hother; [by destruct (pi_own _ _ _ _ Hc f _ Hf)|by eapply Hapart|done|done].
  - apply (pt_inv_frame st _ own); [done|apply Hc|done|]. intros a q k Ha Hl Hk. cbn [with_words pt_mem].
    apply Hother; [by destruct (pi_own _ _ _ _ Hn a q Ha)| |done|done]. intros ->. rewrite Hp in Ha. injection Ha as <-. cbn in Hl. lia.
  - intros k Hk. by apply fill_in.
  - intros a k Ha Hne Hk. by apply Hother.
Qed.

(** One page. *)
Lemma copy_one_ok n st own nrole done u f :
  copying st own nrole done -> crole !! f = Some (path_of u) -> 0 <= u < 2 ^ 47 -> u mod PAGE_SIZE = 0 -> enough (4 + n) (pt_pages st) ->
  exists st' own' nrole', copy_one st cpgd npgd u = Some st' /\ copying st' own' nrole' (u :: done) /\ enough n (pt_pages st').
Proof.
  intros [C1 C2 C3 C4 CK C5 C6 C7] Hf Hu Hal Hen.
  destruct (map_page_new n st own npgd nrole u C2 Hu Hen) as (page & st1 & own1 & nrole1 & Hrun & (N1 & (Go & Gr & Gn & Gf) & Giff & _) & Hen1).
  assert (Hfr1 : forall a q, nrole1 !! a = Some q -> own0 !! a = None).
  { intros a q Ha. destruct (Gn a q Ha) as [Ha'|Ha']; [by eapply C4|]. destruct (own0 !! a) eqn:E; [|done]. pose proof (lookup_weaken _ _ _ _ E C3). congruence. }
  assert (Hkeep : forall a k, own0 !! a = Some 0 -> 0 <= k < 512 -> entry (pt_mem st1) a k = entry (pt_mem st) a k).
  { intros a k Ha Hk. apply Gf; [by eapply lookup_weaken| |done]. intros q Hq. pose proof (C4 _ _ Hq). congruence. }
  assert (Hc1 : pt_inv st1 own1 cpgd crole).
  { apply (pt_inv_frame st _ own); [done|apply N1|done|]. intros a q k Ha _ Hk. apply Hkeep; [by eapply cur_own|done]. }
  assert (Hp : nrole1 !! page = Some (path_of u)) by (apply Giff; by right).
  destruct (copy_page_ok st1 own1 nrole1 page u f Hc1 N1 Hfr1 Hp Hf Hu Hal) as (m' & Hcp & Hc2 & N2 & Hin & Hout).
  exists (with_words st1 m'), own1, nrole1. unfold copy_one. rewrite Hrun. some_bind. cbn [fst snd]. rewrite Hcp. some_bind.
  split; [done|]. split; [|done]. assert (Hsame : same_words (with_words st1 m') f page).
  { intros k Hk. cbn [with_words pt_mem]. pose proof (cur_own _ _ Hf). rewrite Hin, Hkeep by done. by apply C5. }
  assert (Hroot : npgd <> page) by (intros E; rewrite <- E, (pi_root _ _ _ _ N1) in Hp; discriminate Hp).
  destruct (pi_own _ _ _ _ C2 npgd _ (pi_root _ _ _ _ C2)) as [Hrown _].
  split; [done|done|by etransitivity|done|..].
  - intros k Hk. cbn [with_words pt_mem]. rewrite Hout; [|by eapply lookup_weaken|done|lia]. rewrite Gf; [by apply CK|done| |lia].
    intros q Hq. rewrite (pi_root _ _ _ _ C2) in Hq. injection Hq as <-. right. split; [done|lia].
  - intros a k Ha Hk. cbn [with_words pt_mem]. rewrite Hout; [by rewrite Hkeep, C5|by do 2 (eapply lookup_weaken; [|eassumption])| |done].
    intros ->. pose proof (Hfr1 _ _ Hp). congruence.
  - intros w [->|Hw]%elem_of_cons; [by exists f, page|]. destruct (C6 w Hw) as (g & g' & Hg & Hg' & Hs).
    assert (Hg1 : nrole1 !! g' = Some (path_of w)) by (by eapply lookup_weaken). exists g, g'. split; [done|]. split; [done|].
    destruct (decide (g' = page)) as [->|Hne].
    + rewrite Hp in Hg1. apply (inj Some) in Hg1. rewrite <- Hg1 in Hg. by rewrite (pi_inj _ _ _ _ H0 g f _ Hg Hf).
    + destruct (pi_own _ _ _ _ C2 g' _ Hg') as [Hog _]. intros k Hk. cbn [with_words pt_mem]. rewrite Hout; [|by eapply lookup_weaken|done|done].
      rewrite Gf; [by apply Hs|done| |done]. intros q Hq. rewrite Hg' in Hq. apply (inj Some) in Hq as <-. by left.
  - intros w f' Hw. apply Giff in Hw as [Hw|[E _]]; [|exists u; split; [by left|done]].
    destruct (C7 w f' Hw) as (v & Hv & E). exists v. split; [by right|done].
Qed.

(** Whole pages of user memory that the running process has mapped. *)
Definition pages (start : Z) (n : nat) : list Z := (fun k => start + PAGE_SIZE * k) <$> seqZ 0 (Z.of_nat n).

Definition range_ok (start end_ : Z) : Prop :=
  0 <= start <= end_ /\ end_ <= 2 ^ 47 /\ start mod PAGE_SIZE = 0 /\ end_ mod PAGE_SIZE = 0 /\
  forall u, start <= u < end_ -> u mod PAGE_SIZE = 0 -> exists f, crole !! f = Some (path_of u).

Definition nr_pages (start end_ : Z) : nat := Z.to_nat ((end_ - start) / PAGE_SIZE).

Lemma pages_cons start n : pages start (S n) = start :: pages (start + PAGE_SIZE) n.
Proof.
  unfold pages. replace (Z.of_nat (S n)) with (Z.succ (Z.of_nat n)) by lia. rewrite seqZ_cons by lia. rewrite Z.pred_succ. cbn [fmap list_fmap]. f_equal; [lia|].
  change (Z.succ 0) with (1 + 0). rewrite <- (fmap_add_seqZ 1 0). rewrite <- list_fmap_compose. apply list_fmap_ext. intros i x _. cbn. lia.
Qed.

Lemma copying_perm st own nrole d d' : (forall u, u ∈ d <-> u ∈ d') -> copying st own nrole d -> copying st own nrole d'.
Proof.
  intros E [C1 C2 C3 C4 CK C5 C6 C7]. split; try done.
  - intros u Hu. by apply C6, E.
  - intros u f Hu. destruct (C7 u f Hu) as (v & Hv & ?). exists v. by rewrite <- E.
Qed.

Lemma copy_range_ok k : forall n st own nrole d start,
  copying st own nrole d -> range_ok start (start + PAGE_SIZE * Z.of_nat k) -> enough (4 * k + n) (pt_pages st) ->
  exists st' own' nrole', copy_range k st cpgd npgd start (start + PAGE_SIZE * Z.of_nat k) = Some st' /\
    copying st' own' nrole' (d ++ pages start k) /\ enough n (pt_pages st').
Proof.
  induction k as [|k IH]; intros n st own nrole d start Hc (Hs & He & Ha & Hb & Hm) Hen.
  - exists st, own, nrole. cbn [copy_range]. replace (start + PAGE_SIZE * Z.of_nat 0) with start by lia. rewrite Z.eqb_refl. split; [done|].
    split; [|by replace n with (4 * 0 + n)%nat by lia]. unfold pages. cbn. by rewrite app_nil_r.
  - unfold PAGE_SIZE in *. destruct (Hm start ltac:(lia) Ha) as [f Hf].
    destruct (copy_one_ok (4 * k + n) st own nrole d start f Hc Hf ltac:(lia) Ha) as (st1 & own1 & nrole1 & E1 & Hc1 & Hen1).
    { by replace (4 + (4 * k + n))%nat with (4 * S k + n)%nat by lia. }
    assert (Hne : (start =? start + 4096 * Z.of_nat (S k)) = false) by (apply Z.eqb_neq; lia).
    cbn [copy_range]. rewrite Hne, E1. some_bind. unfold PAGE_SIZE. rewrite u64_small by lia.
    replace (start + 4096 * Z.of_nat (S k)) with (start + 4096 + 4096 * Z.of_nat k) in * by lia.
    destruct (IH n st1 own1 nrole1 (start :: d) (start + 4096) Hc1) as (st2 & own2 & nrole2 & E2 & Hc2 & Hen2); [|done|].
    { unfold range_ok, PAGE_SIZE. split; [lia|]. split; [lia|]. split; [by rewrite Z.add_mod, Ha by lia|]. split; [done|]. intros u Hu. apply Hm. lia. }
    exists st2, own2, nrole2. split; [done|]. split; [|done]. rewrite pages_cons. eapply copying_perm; [|exact Hc2]. intros u. cbn [app].
    rewrite !elem_of_cons, !elem_of_app, elem_of_cons. tauto.
Qed.

Lemma copy_pages_ok n st own nrole d start end_ :
  copying st own nrole d -> range_ok start end_ -> enough (4 * nr_pages start end_ + n) (pt_pages st) ->
  exists st' own' nrole', copy_pages st cpgd npgd start end_ = Some st' /\
    copying st' own' nrole' (d ++ pages start (nr_pages start end_)) /\ enough n (pt_pages st').
Proof.
  intros Hc Hr Hen. pose proof Hr as (Hs & He & Ha & Hb & _). unfold copy_pages. rewrite u64_small by lia.
  assert (E : end_ = start + PAGE_SIZE * Z.of_nat (nr_pages start end_)).
  { unfold nr_pages. rewrite Z2Nat.id by (apply Z.div_pos; unfold PAGE_SIZE; lia). apply Z.mod_divide in Ha as [x ->]; [|done]. apply Z.mod_divide in Hb as [y ->]; [|done].
    rewrite <- Z.mul_sub_distr_r, Z.div_mul by done. lia. }
  pose proof (copy_range_ok (nr_pages start end_) n st own nrole d start Hc) as Hgo. rewrite <- E in Hgo. by apply Hgo.
Qed.
End CopySpace.

(** ** [copy_mm] *)

(** The ranges of pages that belong to an address space. *)
Definition ranges (m : proc_mm) : list (Z * Z) :=
  ((fun s => (PAGE_LOWER_ALIGN (vstart s), PAGE_UPPER_ALIGN (vend s))) <$> psegs m) ++ [(start_stack m, end_stack m); (start_brk m, brk m)].
Definition range_pages (r : Z * Z) : list Z := pages r.1 (nr_pages r.1 r.2).
Definition user_pages (m : proc_mm) : list Z := ranges m ≫= range_pages.

(** All of them are mapped. *)
Definition space_ok (role : gmap Z (list Z)) (m : proc_mm) : Prop := Forall (fun r => range_ok role r.1 r.2) (ranges m).

Section Fork.
Context {P : Type} `{!PageAllocator P}.
Context (ret_from_fork : Z).
Implicit Types (st : pt_state P) (own : gmap Z Z) (role : gmap Z (list Z)) (s : kstate P).

Lemma range_pages_len r : length (range_pages r) = nr_pages r.1 r.2.
Proof. unfold range_pages, pages. rewrite length_fmap, length_seqZ. lia. Qed.

Lemma user_pages_eq m :
  user_pages m = (psegs m ≫= (fun g => range_pages (PAGE_LOWER_ALIGN (vstart g), PAGE_UPPER_ALIGN (vend g)))) ++
    range_pages (start_stack m, end_stack m) ++ range_pages (start_brk m, brk m).
Proof.
  unfold user_pages, ranges. rewrite bind_app. f_equal; [|cbn [mbind list_bind]; by rewrite app_nil_r].
  induction (psegs m) as [|x l IH]; [done|]. cbn [fmap list_fmap mbind list_bind]. f_equal. exact IH.
Qed.

Lemma copy_segs_ok st0 own0 cpgd crole npgd (l : list pseg) : forall n st own nrole d,
  pt_inv st0 own0 cpgd crole -> copying st0 own0 cpgd crole npgd st own nrole d ->
  Forall (fun g => range_ok crole (PAGE_LOWER_ALIGN (vstart g)) (PAGE_UPPER_ALIGN (vend g))) l ->
  let ps := l ≫= (fun g => range_pages (PAGE_LOWER_ALIGN (vstart g), PAGE_UPPER_ALIGN (vend g))) in
  enough (4 * length ps + n) (pt_pages st) ->
  exists st' own' nrole', copy_segs st cpgd npgd l = Some st' /\ copying st0 own0 cpgd crole npgd st' own' nrole' (d ++ ps) /\ enough n (pt_pages st').
Proof.
  induction l as [|g l IH]; intros n st own nrole d H0 Hc Hl ps Hen.
  - exists st, own, nrole. unfold ps. cbn. rewrite app_nil_r. done.
  - apply Forall_cons in Hl as [Hs Hl]. unfold ps in *. cbn [mbind list_bind] in *. rewrite length_app, range_pages_len in Hen. cbn [fst snd] in Hen. cbn [copy_segs].
    edestruct (copy_pages_ok st0 own0 cpgd crole npgd H0) as (st1 & own1 & nrole1 & -> & Hc1 & Hen1); [exact Hc|exact Hs| |some_bind].
    { erewrite (Nat.mul_add_distr_l 4), <- Nat.add_assoc in Hen. exact Hen. }
    destruct (IH n st1 own1 nrole1 _ H0 Hc1 Hl Hen1) as (st2 & own2 & nrole2 & -> & Hc2 & Hen2).
    exists st2, own2, nrole2. split; [done|]. split; [|done]. by rewrite app_assoc.
Qed.

(** The new root: the kernel half of the old one and an empty user half. *)
Lemma new_root st own cpgd crole npgd p' :
  pt_inv st own cpgd crole -> own !! npgd = None -> kernel_block npgd 0 -> pa_inv p' (<[npgd := 0]> own) ->
  let m := clear_words (pt_mem st) npgd (Z.to_nat (PAGE_SIZE / 8)) in
  exists m', copy_words m npgd cpgd (Z.to_nat nr_entry) = Some m' /\
    copying st own cpgd crole npgd (mk_pt p' (clear_words m' npgd (Z.to_nat (PAGE_SIZE / 2 / 8)))) (<[npgd := 0]> own) {[npgd := []]} [].
Proof.
  intros H Hn Hb Hp m. pose proof (role_block _ _ _ _ _ _ H (pi_root _ _ _ _ H)) as Hcb. destruct (pi_own _ _ _ _ H cpgd _ (pi_root _ _ _ _ H)) as [Hco _].
  assert (Hne : cpgd <> npgd) by congruence. rewrite (copy_words_ok m npgd cpgd Hb Hcb Hne). eexists. split; [done|].
  set (m' := clear_words _ npgd (Z.to_nat (PAGE_SIZE / 2 / 8))).
  assert (Hw : forall a k, own !! a = Some 0 -> 0 <= k < 512 -> entry m' a k = entry (pt_mem st) a k).
  { intros a k Ha Hk. assert (kernel_block a 0) by (eapply pa_inv_blocks; [apply H|done]). assert (a <> npgd) by congruence.
    assert (F : forall v (n : nat) m1, (n <= 512)%nat -> entry (fill v m1 npgd n) a k = entry m1 a k) by (intros; by apply fill_other).
    etransitivity; [apply (F (fun _ => 0) 256%nat); lia|]. etransitivity; [apply F; change (Z.to_nat nr_entry) with 512%nat; lia|]. apply (F (fun _ => 0) 512%nat). lia. }
  split; cbn [pt_mem pt_pages].
  - apply (pt_inv_frame st _ own); [done|done|by apply insert_subseteq|]. intros a q k Ha _ Hk. apply Hw; [by destruct (pi_own _ _ _ _ H a q Ha)|done].
  - split; cbn [pt_pages pt_mem]; [done|apply lookup_insert_eq|..].
    + intros a q [<- <-]%lookup_singleton_Some. split; [apply lookup_insert_eq|cbn; lia].
    + intros a b q [<- _]%lookup_singleton_Some [<- _]%lookup_singleton_Some. done.
    + intros b q i [_ E]%lookup_singleton_Some. by destruct q.
    + intros a q i [<- <-]%lookup_singleton_Some _ Hi. left. split; [|by intros b [_ E]%lookup_singleton_Some].
      apply (fill_in (fun _ => 0) _ npgd (Z.to_nat (PAGE_SIZE / 2 / 8))). exact Hi.
  - by apply insert_subseteq.
  - intros a q [<- _]%lookup_singleton_Some. done.
  - intros k Hk. unfold m'. etransitivity; [apply (fill_out (fun _ => 0))|].
    { change (Z.of_nat (Z.to_nat (PAGE_SIZE / 2 / 8))) with 256. lia. }
    etransitivity; [apply (fill_in (entry m cpgd)); change (Z.of_nat (Z.to_nat nr_entry)) with 512; lia|].
    apply (fill_other (fun _ => 0) _ npgd 512 cpgd k); done || lia.
  - done.
  - by intros u ?%elem_of_nil.
  - intros u f' [_ E]%lookup_singleton_Some. discriminate E.
Qed.

Lemma copy_mm_ok n st own crole c npgd p' :
  pt_inv st own (pgd c) crole -> space_ok crole c -> pa_alloc (pt_pages st) 0 = Some (npgd, p') -> npgd <> 0 ->
  enough (4 * length (user_pages c) + n) p' ->
  exists st' own' nrole',
    copy_mm st c = Some (0, mk_mm (mm_flags c) npgd (psegs c) (start_brk c) (brk c) (start_stack c) (end_stack c), st') /\
    copying st own (pgd c) crole npgd st' own' nrole' (user_pages c) /\ enough n (pt_pages st').
Proof.
  intros H Hsp Ha Hnz Hen. destruct (pa_alloc_ok (pt_pages st) own 0 (pi_pages _ _ _ _ H)) as (a & q & Ha' & _ & Hr); [unfold MAX_ORDER; lia|].
  rewrite Ha in Ha'. injection Ha' as <- <-. destruct Hr as [[? _]|(Hb & _ & Hn & Hp)]; [done|].
  destruct (new_root st own (pgd c) crole npgd p' H Hn Hb Hp) as (m' & Hm & Hc0).
  unfold copy_mm, get_zeroed_page. rewrite Ha. run_bind. rewrite (proj2 (Z.eqb_neq npgd 0)) by done. run_bind. rewrite (proj2 (Z.eqb_neq npgd 0)) by done.
  cbn [pt_mem pt_pages]. rewrite Hm. some_bind. unfold with_words. cbn [pt_pages].
  unfold space_ok, ranges in Hsp. apply Forall_app in Hsp as [Hseg Hst]. apply Forall_fmap in Hseg. apply Forall_cons in Hst as [Hst Hbr]. apply Forall_cons in Hbr as [Hbr _].
  pose proof (user_pages_eq c) as Eu.
  rewrite Eu in Hen. rewrite !length_app, !range_pages_len in Hen. cbn [fst snd] in Hen, Hst, Hbr.
  set (ps := psegs c ≫= _) in *. set (n1 := nr_pages (start_stack c) _) in *. set (n2 := nr_pages (start_brk c) _) in *.
  destruct (copy_segs_ok st own (pgd c) crole npgd (psegs c) (4 * n1 + (4 * n2 + n)) _ _ _ [] H Hc0 Hseg) as (st1 & own1 & r1 & -> & Hc1 & Hen1).
  { cbn [pt_pages]. fold ps. by replace (4 * length ps + (4 * n1 + (4 * n2 + n)))%nat with (4 * (length ps + (n1 + n2)) + n)%nat by lia. }
  some_bind. destruct (copy_pages_ok st own (pgd c) crole npgd H (4 * n2 + n) _ _ _ _ _ _ Hc1 Hst Hen1) as (st2 & own2 & r2 & -> & Hc2 & Hen2).
  some_bind. destruct (copy_pages_ok st own (pgd c) crole npgd H n _ _ _ _ _ _ Hc2 Hbr Hen2) as (st3 & own3 & r3 & -> & Hc3 & Hen3).
  some_bind. exists st3, own3, r3. split; [done|]. split; [|done]. rewrite Eu, app_assoc. exact Hc3.
Qed.

(** ** [do_fork] up to the message *)

Lemma alloc_clear st own root role a o p' n :
  pt_inv st own root role -> fresh_block own a o -> kernel_block a o -> own !! a = None -> pa_inv p' (<[a := o]> own) ->
  8 * Z.of_nat n <= PAGE_SIZE * 2 ^ o ->
  pt_inv (mk_pt p' (clear_words (pt_mem st) a n)) (<[a := o]> own) root role /\
  forall b k, own !! b = Some 0 -> 0 <= k < 512 -> entry (clear_words (pt_mem st) a n) b k = entry (pt_mem st) b k.
Proof.
  intros H Hfr Hb Hn Hp Hl.
  assert (Hw : forall b k, own !! b = Some 0 -> 0 <= k < 512 -> entry (clear_words (pt_mem st) a n) b k = entry (pt_mem st) b k).
  { intros b k Hob Hk. apply (fill_out (fun _ => 0)). intros i Hi E. apply (Hfr b 0 (b + 8 * k) Hob); unfold in_block; change (PAGE_SIZE * 2 ^ 0) with 4096; lia. }
  split; [|done]. apply (pt_inv_frame st _ own); [done|done|by apply insert_subseteq|].
  intros b q k Hr _ Hk. cbn [pt_mem]. apply Hw; [by destruct (pi_own _ _ _ _ H b q Hr)|done].
Qed.

(** A copy can be counted from an earlier moment with the same pages. *)
Lemma copying_rebase st0 own0 st1 own1 cpgd crole npgd st own nrole d :
  pt_inv st0 own0 cpgd crole -> own0 ⊆ own1 ->
  (forall a k, own0 !! a = Some 0 -> 0 <= k < 512 -> entry (pt_mem st1) a k = entry (pt_mem st0) a k) ->
  copying st1 own1 cpgd crole npgd st own nrole d -> copying st0 own0 cpgd crole npgd st own nrole d.
Proof.
  intros H0 Ho Hw [C1 C2 C3 C4 CK C5 C6 C7]. destruct (pi_own _ _ _ _ H0 cpgd _ (pi_root _ _ _ _ H0)) as [Hc _]. split; try done.
  - by etransitivity.
  - intros a q Ha. destruct (own0 !! a) eqn:E; [|done]. pose proof (lookup_weaken _ _ _ _ E Ho). pose proof (C4 a q Ha). congruence.
  - intros k Hk. rewrite CK by done. apply Hw; [done|lia].
  - intros a k Ha Hk. rewrite C5; [by apply Hw|by eapply lookup_weaken|done].
  - intros u Hu. destruct (C6 u Hu) as (f & f' & Hf & Hf' & Hs). exists f, f'. split; [done|]. split; [done|].
    intros k Hk. rewrite Hs by done. apply Hw; [by destruct (pi_own _ _ _ _ H0 f _ Hf)|done].
Qed.

Lemma user_page_ok role m u : space_ok role m -> u ∈ user_pages m -> 0 <= u < 2 ^ 47 /\ u mod PAGE_SIZE = 0.
Proof.
  intros Hsp Hu. apply list_elem_of_bind in Hu as (r & Hu & Hr). apply (proj1 (Forall_forall _ _) Hsp) in Hr as (Hs & He & Ha & Hb & _).
  unfold range_pages, pages in Hu. apply list_elem_of_fmap in Hu as (k & -> & Hk%elem_of_seqZ). unfold nr_pages in Hk. unfold PAGE_SIZE in *.
  assert (Hd : (r.2 - r.1) / 4096 * 4096 <= r.2 - r.1) by (rewrite Z.mul_comm; apply Z.mul_div_le; lia).
  assert (0 <= (r.2 - r.1) / 4096) by (apply Z.div_pos; lia). rewrite Z2Nat.id in Hk by done. split; [lia|].
  rewrite (Z.mul_comm 4096), Z.mod_add by lia. done.
Qed.

(** The child loads what its parent loaded, and so does the parent. *)
Lemma copying_loads st0 own0 cpgd crole npgd st own nrole m u k :
  pt_inv st0 own0 cpgd crole -> space_ok crole m -> copying st0 own0 cpgd crole npgd st own nrole (user_pages m) ->
  u ∈ user_pages m -> 0 <= k < 512 ->
  exists w, load_user (pt_mem st0) cpgd (u + 8 * k) = Some w /\ load_user (pt_mem st) npgd (u + 8 * k) = Some w /\
    load_user (pt_mem st) cpgd (u + 8 * k) = Some w.
Proof.
  intros H0 Hsp [C1 C2 _ _ _ C5 C6 _] Hu Hk. destruct (user_page_ok _ _ _ Hsp Hu) as [Hr Hal]. destruct (C6 u Hu) as (f & f' & Hf & Hf' & Hs).
  exists (entry (pt_mem st0) f k). split; [by apply (load_user_ok _ own0 _ crole)|]. rewrite <- (Hs k Hk). split; [by apply (load_user_ok _ own _ nrole)|].
  rewrite Hs by done. rewrite <- (C5 f k) by (done || by destruct (pi_own _ _ _ _ H0 f _ Hf)). by apply (load_user_ok _ own _ crole).
Qed.

(** The record of the child. *)
Definition forked (c : proc_t) (cur n npgd : Z) : proc_t :=
  set_mm (new_proc n cur) (mk_mm (mm_flags (mm c)) npgd (psegs (mm c)) (start_brk (mm c)) (brk (mm c)) (start_stack (mm c)) (end_stack (mm c))).

Lemma fork_begin_ok s cur c own role proc p1 npgd p2 :
  procs (k_tab s) !! cur = Some c -> own !! cur = Some KERNEL_STACK_ORDER -> pt_inv (k_pt s) own (pgd (mm c)) role -> space_ok role (mm c) ->
  0 <= global_pid s < 2 ^ 31 - 1 ->
  pa_alloc (pt_pages (k_pt s)) KERNEL_STACK_ORDER = Some (proc, p1) -> proc <> NULL ->
  pa_alloc p1 0 = Some (npgd, p2) -> npgd <> NULL -> enough (4 * length (user_pages (mm c))) p2 ->
  exists s' own' nrole,
    fork_begin s cur = Some (ForkSend proc (mk_message (pid c) MSG_FORKFS (m_forkfs (global_pid s + 1))) s') /\
    global_pid s' = global_pid s + 1 /\
    k_tab s' = set_procs (k_tab s) (<[proc := forked c cur (global_pid s + 1) npgd]> (<[cur := set_children c (proc :: children c)]> (procs (k_tab s)))) /\
    own !! proc = None /\ own' !! proc = Some KERNEL_STACK_ORDER /\
    copying (k_pt s) own (pgd (mm c)) role npgd (k_pt s') own' nrole (user_pages (mm c)).
Proof.
  intros Hc Hoc H Hsp Hg Ha Hnz Ha2 Hnz2 Hen.
  destruct (pa_alloc_ok _ own KERNEL_STACK_ORDER (pi_pages _ _ _ _ H)) as (a & q & Ha' & _ & Hr); [unfold MAX_ORDER, KERNEL_STACK_ORDER; lia|].
  rewrite Ha in Ha'. injection Ha' as <- <-. destruct Hr as [[? _]|(Hb & Hfr & Hn & Hp)]; [done|].
  set (n := Z.to_nat (PAGE_SIZE * Z.shiftl 1 KERNEL_STACK_ORDER / 8)).
  destruct (alloc_clear _ _ _ _ proc KERNEL_STACK_ORDER p1 n H Hfr Hb Hn Hp) as [H1 Hw]; [done|].
  destruct (copy_mm_ok 0 _ _ _ (mm c) npgd p2 H1 Hsp Ha2 Hnz2) as (st' & own' & nrole & Hcm & Hcp & _); [by rewrite Nat.add_0_r|].
  unfold fork_begin. rewrite Hc. some_bind. rewrite Ha. run_bind. rewrite (proj2 (Z.eqb_neq proc NULL)) by done.
  cbn [alloc_pid set_pt k_pt k_tab global_pid k_ctx set_tab]. fold n. rewrite i32_small by lia. rewrite Hcm. run_bind. cbn [Z.eqb negb].
  eexists _, own', nrole. split; [done|]. cbn [set_tab set_pt k_tab k_pt global_pid]. split; [done|]. split; [|split; [done|]].
  - assert (proc <> cur) by congruence. unfold set_proc, set_procs. cbn [procs proc_head proc_hash proc_idle ticks]. f_equal.
    rewrite (insert_insert_ne _ proc cur) by done. rewrite insert_insert_eq. by apply insert_insert_ne.
  - split; [eapply lookup_weaken; [apply lookup_insert_eq|apply Hcp]|].
    eapply copying_rebase; [done| | |exact Hcp]; [by apply insert_subseteq|exact Hw].
Qed.

(** ** [do_fork] after the answer *)

Lemma hash_ok_ext t t' : procs t' = procs t -> proc_hash t' = proc_hash t -> hash_ok t -> hash_ok t'.
Proof. intros Ep Eh [H1 H2 H3 H4]. split; unfold hashed in *; rewrite ?Ep, ?Eh; done. Qed.

Lemma hash_proc_head t a t' : hash_proc t a = Some t' -> proc_head t' = proc_head t.
Proof. unfold hash_proc. destruct (procs t !! a) as [p|]; [|done]. some_bind. destruct (bucket t (pid p)); [|done]. some_bind. by intros [= <-]. Qed.

Lemma unmap_proc_head t n t' : unmap_proc t n = Some t' -> proc_head t' = proc_head t.
Proof.
  unfold unmap_proc. destruct (map_proc t n) as [a|]; [|done]. some_bind. case_if; [by intros [= <-]|].
  destruct (bucket t n); [|done]. some_bind. by intros [= <-].
Qed.

(** The state of a process is not part of the hash table. *)
Lemma hash_ok_set_state t a p v : procs t !! a = Some p -> hash_ok t -> hash_ok (set_proc t a (set_state p v)).
Proof.
  intros Ha [H1 H2 H3 H4]. assert (Hl : forall b q, procs (set_proc t a (set_state p v)) !! b = Some q -> exists q0, procs t !! b = Some q0 /\ pid q = pid q0).
  { intros b q. cbn. intros [[<- <-]|[_ Hb]]%lookup_insert_Some; [by exists p|by exists q]. }
  split; [done| |done|].
  - intros k l b Hk Hb. destruct (H2 k l b Hk Hb) as [Hnz (q & Hq & Hbq)]. split; [done|]. cbn. destruct (decide (a = b)) as [<-|Hne].
    + exists (set_state p v). rewrite lookup_insert_eq. split; [done|]. by simplify_eq.
    + exists q. by rewrite lookup_insert_ne.
  - intros b d q r Hb Hd Hq Hr E. destruct (Hl b q Hq) as (q0 & Hq0 & E1). destruct (Hl d r Hr) as (r0 & Hr0 & E2).
    apply (H4 b d q0 r0); [done..|congruence].
Qed.

Lemma fork_end_ok s proc p regs :
  procs (k_tab s) !! proc = Some p -> hash_ok (k_tab s) -> proc <> NULL -> 0 <= pid p ->
  (forall b q, hashed (k_tab s) b -> procs (k_tab s) !! b = Some q -> pid q <> pid p) ->
  (forall i j, 0 <= i < frame_words -> 0 <= j < frame_words -> regs + 8 * i <> newregs_of proc + 8 * j) ->
  exists s', fork_end ret_from_fork s proc regs 0 0 = Some (pid p, s') /\
    hash_ok (k_tab s') /\ (forall b, hashed (k_tab s') b <-> hashed (k_tab s) b \/ b = proc) /\
    proc_head (k_tab s') = proc_head (k_tab s) ++ [proc] /\
    procs (k_tab s') = <[proc := set_state p PROC_RUNNABLE]> (procs (k_tab s)) /\
    k_ctx s' !! proc = Some (mk_context (newregs_of proc) (newregs_of proc) ret_from_fork) /\
    pt_pages (k_pt s') = pt_pages (k_pt s) /\
    (forall k, 0 <= k < frame_words -> entry (pt_mem (k_pt s')) (newregs_of proc) k = entry (pt_mem (k_pt s)) regs k) /\
    (forall a, (forall k, 0 <= k < frame_words -> a <> newregs_of proc + 8 * k) -> rd (pt_mem (k_pt s')) a = rd (pt_mem (k_pt s)) a).
Proof.
  intros Hp Hh Hnz H0 Hfr Hap. unfold fork_end, copy_fs. cbn [Z.eqb negb orb]. unfold copy_context.
  assert (Hcw : copy_words (pt_mem (k_pt s)) (newregs_of proc) regs (Z.to_nat frame_words) =
    Some (fill (entry (pt_mem (k_pt s)) regs) (pt_mem (k_pt s)) (newregs_of proc) (Z.to_nat frame_words))).
  { apply copy_from_ok. intros j k Hj Hk. f_equal. apply fill_out. intros i Hi. unfold frame_words in *. apply Hap; lia. }
  rewrite Hcw. some_bind. cbn [k_tab].
  set (t1 := set_head (k_tab s) (proc_head (k_tab s) ++ [proc])).
  destruct (hash_proc_ok t1 proc p) as (t2 & Ht2 & Hok & Epr & Hin); try done; [by apply (hash_ok_ext (k_tab s))|].
  pose proof (hash_proc_head _ _ _ Ht2) as Ehd. rewrite Ht2. some_bind. rewrite Epr. cbn [t1 set_head procs]. rewrite Hp. some_bind.
  eexists. split; [done|]. cbn [set_tab k_tab k_pt k_ctx with_words pt_pages pt_mem].
  split; [apply hash_ok_set_state; [by rewrite Epr|done]|]. split; [exact Hin|]. split; [exact Ehd|]. split; [cbn; by rewrite Epr|].
  split; [apply lookup_insert_eq|]. split; [done|]. split.
  - intros k Hk. apply fill_in. unfold frame_words in *. lia.
  - intros a Ha. apply fill_out. intros k Hk. apply Ha. unfold frame_words in *. lia.
Qed.

(** The pages of the child go back; nobody takes it off the list of its parent. *)
Lemma fork_failed_ok s proc p own nrole :
  procs (k_tab s) !! proc = Some p -> pt_inv (k_pt s) own (pgd (mm p)) nrole -> pgd (mm p) <> 0 -> own !! proc = Some KERNEL_STACK_ORDER ->
  exists s' own', fork_failed s proc = Some (-1, s') /\ pa_inv (pt_pages (k_pt s')) own' /\
    (forall a, own' !! a = if decide (a = proc \/ is_Some (nrole !! a)) then None else own !! a) /\
    procs (k_tab s') = delete proc (procs (k_tab s)).
Proof.
  intros Hp H Hnz Ho. unfold fork_failed. rewrite Hp. some_bind. rewrite (proj2 (Z.eqb_neq _ 0)) by done.
  destruct (free_proc_mm_ok _ _ _ _ H) as (st1 & own1 & -> & H1 & Hown). some_bind. unfold free_block. cbn [set_pt k_pt].
  destruct (pi_own _ _ _ _ H1 _ _ (pi_root _ _ _ _ H1)) as [Hr _].
  destruct (pa_free_ok _ _ _ 0 (pi_pages _ _ _ _ H1) Hr) as (p2 & -> & Hp2 & _). some_bind. unfold free_proc, free_block. cbn [set_pt k_pt pt_pages].
  assert (Hpr : nrole !! proc = None).
  { destruct (nrole !! proc) as [q|] eqn:E; [|done]. destruct (pi_own _ _ _ _ H proc q E). unfold KERNEL_STACK_ORDER in *. congruence. }
  assert (Hne : proc <> pgd (mm p)) by (intros ->; rewrite (pi_root _ _ _ _ H) in Hpr; discriminate Hpr).
  destruct (pa_free_ok p2 (delete (pgd (mm p)) own1) proc KERNEL_STACK_ORDER Hp2) as (p3 & -> & Hp3 & _).
  { rewrite lookup_delete_ne, Hown by done. rewrite decide_False; [done|]. intros [_ [q Hq]]. congruence. }
  some_bind. eexists _, _. split; [done|]. cbn [set_tab set_pt k_pt pt_pages k_tab]. split; [exact Hp3|]. split; [|done].
  intros a. destruct (decide (a = proc)) as [->|Hap]; [rewrite lookup_delete_eq; by rewrite decide_True by (by left)|]. rewrite lookup_delete_ne by done.
  destruct (decide (a = pgd (mm p))) as [->|Hag].
  - rewrite lookup_delete_eq, decide_True; [done|]. right. rewrite (pi_root _ _ _ _ H). by eexists.
  - rewrite lookup_delete_ne, Hown by done. repeat case_decide; tauto.
Qed.

(** ** [do_brk] *)

(** The frame of [u] after an extension: the old one, or a new page of zeros. *)
Definition has_frame own role st' role' (u : Z) : Prop :=
  exists f, role' !! f = Some (path_of u) /\
    (role !! f = Some (path_of u) \/ own !! f = None /\ forall k, 0 <= k < 512 -> entry (pt_mem st') f k = 0).

Lemma space_grows_refl st own role : grows st st own own role role.
Proof. split; [done|]. split; [done|]. split; [by left|]. by intros a k. Qed.

Lemma brk_loop_ok n : forall st own root role b,
  pt_inv st own root role -> 0 <= b -> b mod PAGE_SIZE = 0 -> b + PAGE_SIZE * Z.of_nat n <= 2 ^ 47 -> enough (4 * n) (pt_pages st) ->
  exists st' own' role', brk_loop n st root b = Some (true, st') /\ pt_inv st' own' root role' /\ grows st st' own own' role role' /\
    (forall u, u ∈ pages b n -> has_frame own role st' role' u) /\
    (forall v f, role' !! f = Some (path_of v) -> role !! f = Some (path_of v) \/ exists u, u ∈ pages b n /\ path_of v = path_of u).
Proof.
  induction n as [|n IH]; intros st own root role b H Hb Ha Hm Hen.
  { exists st, own, role. split; [done|]. split; [done|]. split; [apply space_grows_refl|]. split; [intros u Hu; by apply elem_of_nil in Hu|by left]. }
  destruct (map_page_new (4 * n) st own root role b H) as (page & st1 & own1 & role1 & E1 & (H1 & G1 & Hiff & Hz) & Hen1); [unfold PAGE_SIZE in *; lia| |].
  { by replace (4 + 4 * n)%nat with (4 * S n)%nat by lia. }
  assert (Hp : role1 !! page = Some (path_of b)) by (apply Hiff; by right).
  pose proof (role_block _ _ _ _ _ _ H1 Hp) as Hpb. apply kernel_page in Hpb as (Hlow & _).
  cbn [brk_loop]. rewrite E1. some_bind. cbn [fst snd]. rewrite (proj2 (Z.eqb_neq page 0)) by (unfold KERNEL_OFFSET in *; lia).
  rewrite u64_small by (unfold PAGE_SIZE in *; lia).
  destruct (IH st1 own1 root role1 (b + PAGE_SIZE) H1) as (st2 & own2 & role2 & E2 & H2 & G2 & Hf2 & Ho2); [unfold PAGE_SIZE; lia| |unfold PAGE_SIZE in *; lia|done|].
  { unfold PAGE_SIZE in *. by rewrite Z.add_mod, Ha by lia. }
  exists st2, own2, role2. split; [done|]. split; [done|]. split; [by eapply space_grows_trans|]. rewrite pages_cons.
  pose proof G1 as (O1 & R1 & N1 & F1). pose proof G2 as (O2 & R2 & N2 & F2). split.
  - assert (Hpage : has_frame own role st2 role2 b).
    { exists page. split; [by eapply lookup_weaken|]. destruct Hz as [Hz|[Hz Hk]]; [by left|]. right. split; [done|]. intros k Hk'.
      rewrite F2; [by apply Hk|by destruct (pi_own _ _ _ _ H1 page _ Hp)| |done]. intros q Hq. rewrite Hp in Hq. apply (inj Some) in Hq as <-. by left. }
    intros u [->|Hu]%elem_of_cons; [done|]. destruct (Hf2 u Hu) as (f & Hf & [[Hold|[Eu _]]%Hiff|[Hnew Hk]]).
      * exists f. split; [done|by left].
      * unfold has_frame. by rewrite Eu.
      * exists f. split; [done|]. right. split; [|done]. destruct (own !! f) eqn:E; [|done]. pose proof (lookup_weaken _ _ _ _ E O1). congruence.
  - intros v f Hv. destruct (Ho2 v f Hv) as [Hv1|(u & Hu & Eu)]; [|right; exists u; split; [by right|done]].
    apply Hiff in Hv1 as [Hv1|[Eu _]]; [by left|]. right. exists b. split; [by left|done].
Qed.

Lemma range_ok_grow role role' a b : role ⊆ role' -> range_ok role a b -> range_ok role' a b.
Proof.
  intros Hr (H1 & H2 & H3 & H4 & Hm). split; [done|]. split; [done|]. split; [done|]. split; [done|].
  intros u Hu Hal. destruct (Hm u Hu Hal) as [f Hf]. exists f. by eapply lookup_weaken.
Qed.

Lemma upper_align_ok a : 0 <= a <= 2 ^ 47 -> a <= PAGE_UPPER_ALIGN a <= 2 ^ 47 /\ PAGE_UPPER_ALIGN a mod PAGE_SIZE = 0.
Proof.
  intros Ha. unfold PAGE_UPPER_ALIGN. pose proof (upper_div_spec a PAGE_SIZE ltac:(done) ltac:(lia)) as Hs.
  assert (upper_div a PAGE_SIZE * PAGE_SIZE <= 2 ^ 47) by (unfold PAGE_SIZE in *; change (2 ^ 47) with (2 ^ 35 * 4096) in *; lia).
  rewrite u64_small by lia. split; [lia|]. apply Z.mod_mul. done.
Qed.

Lemma elem_pages u b e : 0 <= b <= e -> b mod PAGE_SIZE = 0 -> e mod PAGE_SIZE = 0 ->
  u ∈ pages b (nr_pages b e) <-> b <= u < e /\ u mod PAGE_SIZE = 0.
Proof.
  intros Hbe Hb He. unfold nr_pages, pages, PAGE_SIZE in *. apply Z.mod_divide in Hb as [x ->]; [|lia]. apply Z.mod_divide in He as [y ->]; [|lia].
  rewrite <- Z.mul_sub_distr_r, Z.div_mul by lia. rewrite Z2Nat.id by lia. rewrite list_elem_of_fmap. split.
  - intros (k & -> & Hk%elem_of_seqZ). split; [lia|]. replace (x * 4096 + 4096 * k) with ((x + k) * 4096) by lia. apply Z.mod_mul. lia.
  - intros [Hu Hm]. apply Z.mod_divide in Hm as [z ->]; [|lia]. exists (z - x). split; [lia|]. apply elem_of_seqZ. lia.
Qed.

(** The number of pages of a heap that shrinks is negative. *)
Lemma shrink_pages b e : 0 <= e <= b -> b - e < 2 ^ 43 -> b mod PAGE_SIZE = 0 -> e mod PAGE_SIZE = 0 -> i32 (u64 (e - b) / PAGE_SIZE) <= 0.
Proof.
  intros Hbe Hd Hb He. unfold PAGE_SIZE in *. apply Z.mod_divide in Hb as [x ->]; [|lia]. apply Z.mod_divide in He as [y ->]; [|lia].
  destruct (decide (x = y)) as [->|Hne]; [by rewrite Z.sub_diag|].
  assert (E : u64 (y * 4096 - x * 4096) = (2 ^ 52 - (x - y)) * 4096).
  { unfold u64, uwrap. replace (y * 4096 - x * 4096) with ((2 ^ 52 - (x - y)) * 4096 + (-1) * 2 ^ 64) by lia. rewrite Z.mod_add by lia. apply Z.mod_small. lia. }
  rewrite E, Z.div_mul by lia. unfold i32, swrap. replace (2 ^ 52 - (x - y) + 2 ^ (32 - 1)) with (2 ^ 31 - (x - y) + 2 ^ 20 * 2 ^ 32) by lia.
  rewrite Z.mod_add by lia. rewrite Z.mod_small by lia. lia.
Qed.

Lemma do_brk_ok st own role m addr :
  pt_inv st own (pgd m) role -> space_ok role m -> start_brk m <= addr <= 2 ^ 47 -> Z.abs (PAGE_UPPER_ALIGN addr - brk m) < 2 ^ 43 ->
  enough (4 * nr_pages (brk m) (PAGE_UPPER_ALIGN addr)) (pt_pages st) ->
  exists st' own' role', do_brk st m addr = Some (0, set_brk m (PAGE_UPPER_ALIGN addr), st') /\
    pt_inv st' own' (pgd m) role' /\ space_ok role' (set_brk m (PAGE_UPPER_ALIGN addr)) /\ grows st st' own own' role role' /\
    (forall u, brk m <= u < PAGE_UPPER_ALIGN addr -> u mod PAGE_SIZE = 0 -> has_frame own role st' role' u) /\
    (PAGE_UPPER_ALIGN addr <= brk m -> st' = st).
Proof.
  intros H Hsp Hadr Hsm Hen. set (nb := PAGE_UPPER_ALIGN addr) in *. pose proof Hsp as Hsp'. unfold space_ok, ranges in Hsp'.
  apply Forall_app in Hsp' as [Hseg Hrest]. apply Forall_cons in Hrest as [Hst Hrest]. apply Forall_cons in Hrest as [Hbr _]. cbn [fst snd] in *.
  pose proof Hbr as (B1 & B2 & B3 & B4 & B5). destruct (upper_align_ok addr ltac:(lia)) as [Hnb Hal]. fold nb in Hnb, Hal.
  assert (Hn : Z.to_nat (i32 (u64 (nb - brk m) / PAGE_SIZE)) = nr_pages (brk m) nb).
  { unfold nr_pages. destruct (Z_le_gt_dec nb (brk m)).
    - pose proof (shrink_pages (brk m) nb ltac:(lia) ltac:(lia) B4 Hal). assert ((nb - brk m) / PAGE_SIZE <= 0) by (apply Z.div_le_upper_bound; unfold PAGE_SIZE; lia). lia.
    - rewrite u64_small by lia. rewrite i32_small; [done|]. split; [assert (0 <= (nb - brk m) / PAGE_SIZE) by (apply Z.div_pos; unfold PAGE_SIZE; lia); lia|].
      apply Z.div_lt_upper_bound; unfold PAGE_SIZE; lia. }
  unfold do_brk. fold nb. rewrite Hn.
  assert (Hbound : brk m + PAGE_SIZE * Z.of_nat (nr_pages (brk m) nb) <= 2 ^ 47).
  { unfold nr_pages, PAGE_SIZE. destruct (Z_le_gt_dec nb (brk m)).
    - assert ((nb - brk m) / 4096 <= 0) by (apply Z.div_le_upper_bound; lia). lia.
    - rewrite Z2Nat.id by (apply Z.div_pos; lia). pose proof (Z.mul_div_le (nb - brk m) 4096 ltac:(lia)). lia. }
  destruct (brk_loop_ok (nr_pages (brk m) nb) st own (pgd m) role (brk m) H ltac:(lia) B4 Hbound Hen) as (st' & own' & role' & E & H' & G & Hf & _).
  rewrite E. some_bind. cbn [fst snd]. exists st', own', role'. split; [done|]. split; [done|].
  assert (Hfr : forall u, brk m <= u < nb -> u mod PAGE_SIZE = 0 -> has_frame own role st' role' u).
  { intros u Hu Hu'. apply Hf. apply elem_pages; (done || lia). }
  split; [|split; [done|split; [exact Hfr|]]].
  - destruct G as (_ & R & _). unfold space_ok, ranges. cbn [set_brk psegs start_stack end_stack start_brk brk]. apply Forall_app. split.
    { eapply Forall_impl; [exact Hseg|]. intros r. by apply range_ok_grow. }
    apply Forall_cons. split; [by apply (range_ok_grow role)|]. apply Forall_cons. split; [|done]. cbn [fst snd].
    split; [lia|]. split; [lia|]. split; [done|]. split; [done|]. intros u Hu Hua. destruct (Z_lt_le_dec u (brk m)).
    + destruct (B5 u ltac:(lia) Hua) as [f ?]. exists f. by eapply lookup_weaken.
    + destruct (Hfr u ltac:(lia) Hua) as (f & ? & _). by exists f.
  - intros Hle. assert (En : nr_pages (brk m) nb = 0%nat).
    { unfold nr_pages. assert ((nb - brk m) / PAGE_SIZE <= 0) by (apply Z.div_le_upper_bound; unfold PAGE_SIZE; lia). lia. }
    rewrite En in E. by injection E.
Qed.

(** ** [do_wait] *)

Lemma hash_ok_delete t a : hash_ok t -> ~ hashed t a -> hash_ok (set_procs t (delete a (procs t))).
Proof.
  intros [H1 H2 H3 H4] Ha. split; [done| |done|].
  - intros k l b Hk Hb. destruct (H2 k l b Hk Hb) as [? (q & Hq & ?)]. split; [done|]. exists q. split; [|done]. cbn. rewrite lookup_delete_ne; [done|].
    intros ->. apply Ha. exists l. split; [by eapply list_elem_of_lookup_2|done].
  - intros b d q r Hb Hd Hq Hr. cbn in Hq, Hr. apply lookup_delete_Some in Hq as [_ Hq], Hr as [_ Hr]. by apply H4.
Qed.

Lemma hashed_proc t b : hash_ok t -> hashed t b -> exists q, procs t !! b = Some q.
Proof.
  intros H (l & Hl & Hb). apply list_elem_of_lookup in Hl as [k Hl]. destruct (ho_in _ H k l b Hl Hb) as [_ (q & Hq & _)]. by exists q.
Qed.

Lemma find_stopped_app m pre a post :
  (forall b, b ∈ pre -> exists q, m !! b = Some q /\ state (sched q) <> PROC_STOPPED) ->
  find_stopped m (pre ++ a :: post) = (p ← m !! a; if state (sched p) =? PROC_STOPPED then Some a else find_stopped m post).
Proof.
  induction pre as [|x pre IH]; intros H; [done|]. cbn [app find_stopped]. destruct (H x ltac:(set_solver)) as (q & -> & Hq). some_bind.
  rewrite (proj2 (Z.eqb_neq _ _)) by done. apply IH. set_solver.
Qed.

Lemma wait_end_ok s cur c pre a post p own :
  procs (k_tab s) !! cur = Some c -> children c = pre ++ a :: post -> a <> cur ->
  (forall b, b ∈ pre -> b <> a /\ exists q, procs (k_tab s) !! b = Some q /\ state (sched q) <> PROC_STOPPED) ->
  procs (k_tab s) !! a = Some p -> state (sched p) = PROC_STOPPED -> 0 <= pid p -> hash_ok (k_tab s) -> hashed (k_tab s) a ->
  pa_inv (pt_pages (k_pt s)) own -> own !! pgd (mm p) = Some 0 -> own !! a = Some KERNEL_STACK_ORDER ->
  exists s', wait_end s cur = Some (pid p, exit_status p, s') /\
    pa_inv (pt_pages (k_pt s')) (delete a (delete (pgd (mm p)) own)) /\
    hash_ok (k_tab s') /\ (forall b, hashed (k_tab s') b <-> hashed (k_tab s) b /\ b <> a) /\
    proc_head (k_tab s') = remove a (proc_head (k_tab s)) /\ procs (k_tab s') !! a = None /\
    (exists c', procs (k_tab s') !! cur = Some c' /\ children c' = children c) /\ wait_end s' cur = None.
Proof.
  intros Hc Hch Hne Hpre Hp Hst Hpid Hh Hha Hpa Hpg Ha.
  assert (Hk : forall q, kept q (set_signal q 0)) by (intros q; by repeat split).
  destruct (update_effect (k_tab s) cur c (fun q => set_signal q 0) Hc Hk) as (t1 & E1 & S1 & L1).
  assert (Hpre1 : forall b, b ∈ pre -> exists q, procs t1 !! b = Some q /\ state (sched q) <> PROC_STOPPED).
  { intros b Hb. destruct (Hpre b Hb) as (_ & q & Hq & Hs). eexists. split; [by apply L1|]. by case_if. }
  pose proof (L1 cur c Hc) as Hc1. rewrite Z.eqb_refl in Hc1. pose proof (L1 a p Hp) as Hp1. rewrite (proj2 (Z.eqb_neq a cur)) in Hp1 by done.
  unfold wait_end. rewrite E1. some_bind. rewrite Hc1. some_bind. cbn [set_signal with_ipc children]. rewrite Hch, find_stopped_app, Hp1 by done. some_bind.
  rewrite Hst. change (PROC_STOPPED =? PROC_STOPPED) with true. cbv iota. some_bind. rewrite Hp1. some_bind.
  unfold free_block. cbn [set_tab k_pt k_tab set_pt]. destruct (pa_free_ok _ _ _ 0 Hpa Hpg) as (p2 & -> & Hp2 & _). some_bind. cbn [set_tab k_pt k_tab set_pt pt_mem].
  destruct (unmap_proc_ok t1 (pid p) (hash_ok_shape _ _ S1 Hh) Hpid) as (t2 & E2 & Hh2 & Epr2 & Hin2). rewrite E2. some_bind.
  pose proof (unmap_proc_head _ _ _ E2) as Eh2. unfold free_proc, free_block. cbn [set_tab k_pt k_tab set_pt pt_pages pt_mem].
  assert (Hag : a <> pgd (mm p)) by (intros ->; unfold KERNEL_STACK_ORDER in *; congruence).
  destruct (pa_free_ok p2 (delete (pgd (mm p)) own) a KERNEL_STACK_ORDER Hp2) as (p3 & -> & Hp3 & _); [by rewrite lookup_delete_ne by done|].
  some_bind. eexists. split; [done|]. cbn [set_tab k_pt k_tab set_pt pt_pages set_procs set_head procs proc_head].
  assert (Hh1 : forall b, hashed t1 b <-> hashed (k_tab s) b) by (intros b; by apply same_hashed).
  assert (Hhs : forall b, hashed t2 b <-> hashed (k_tab s) b /\ b <> a).
  { intros b. split.
    - intros Hb. destruct (hashed_proc t2 b Hh2 Hb) as [q Hq].
      rewrite Epr2 in Hq. destruct (proj1 (Hin2 b q Hq) Hb) as [Hb1 Hpq]. split; [by apply Hh1|]. intros ->. rewrite Hp1 in Hq. by injection Hq as <-.
    - intros [Hb Hba]. destruct (hashed_proc (k_tab s) b Hh Hb) as [q Hq].
      apply (Hin2 b _ (L1 b q Hq)). split; [by apply Hh1|]. intros Epq. apply Hba, (ho_pid _ Hh b a q p Hb Hha Hq Hp). rewrite <- Epq. by case_if. }
  assert (Hcur : delete a (procs t2) !! cur = Some (set_signal c 0)) by (rewrite lookup_delete_ne, Epr2; done).
  split; [exact Hp3|]. split.
  { apply (hash_ok_ext (set_procs t2 (delete a (procs t2)))); [done|done|]. apply hash_ok_delete; [done|]. intros [_ []]%Hhs. done. }
  split; [exact Hhs|]. split; [by rewrite Eh2, (ss_head _ _ S1)|]. split; [apply lookup_delete_eq|]. split; [by exists (set_signal c 0)|].
  unfold wait_end, update. cbn [set_tab k_pt k_tab set_pt pt_pages set_procs set_head procs set_proc]. rewrite Hcur. some_bind.
  cbn [set_tab k_pt k_tab set_pt pt_pages set_procs set_head procs set_proc]. rewrite lookup_insert_eq. some_bind. cbn [set_signal with_ipc children].
  rewrite Hch, find_stopped_app.
  - by rewrite lookup_insert_ne, lookup_delete_eq by done.
  - intros b Hb. destruct (Hpre b Hb) as [Hba _]. destruct (Hpre1 b Hb) as (q & Hq & Hs). destruct (decide (b = cur)) as [->|Hbc].
    + rewrite lookup_insert_eq. eexists. split; [done|]. rewrite Hc1 in Hq. injection Hq as <-. exact Hs.
    + exists q. rewrite lookup_insert_ne, lookup_delete_ne, Epr2 by done. done.
Qed.

(** ** [do_exit] *)

Lemma exit_begin_ok s cur c pp own role :
  procs (k_tab s) !! cur = Some c -> procs (k_tab s) !! parent c = Some pp -> pt_inv (k_pt s) own (pgd (mm c)) role ->
  exists s' own', exit_begin s cur = Some (mk_message (pid c) MSG_FREEFS m_none, s') /\
    pt_inv (k_pt s') own' (pgd (mm c)) {[pgd (mm c) := []]} /\
    (forall a, own' !! a = if decide (a <> pgd (mm c) /\ is_Some (role !! a)) then None else own !! a) /\
    k_tab s' = set_proc (k_tab s) (parent c) (set_children pp (rev (children c) ++ children pp)).
Proof.
  intros Hc Hpp H. unfold exit_begin. rewrite Hc. some_bind. destruct (free_proc_mm_ok _ _ _ _ H) as (st1 & own1 & -> & H1 & Hown). some_bind.
  unfold update. rewrite Hpp. some_bind. by eexists _, own1.
Qed.

Lemma send_signal_kept p sg : kept p (send_signal p sg).
Proof. unfold send_signal. case_if; by repeat split. Qed.

Lemma exit_end_ok s cpu cur c pp status :
  procs (k_tab s) !! cur = Some c -> procs (k_tab s) !! parent c = Some pp -> parent c <> cur -> cur ∉ proc_idle (k_tab s) ->
  sched_ok (k_tab s) cpu cur ->
  exists next s' q q', exit_end s cpu cur status = Some (next, s') /\ next <> cur /\ sched_ok (k_tab s') cpu next /\ k_pt s' = k_pt s /\
    procs (k_tab s') !! cur = Some q /\ state (sched q) = PROC_STOPPED /\ exit_status q = status /\
    procs (k_tab s') !! parent c = Some q' /\ signal (ipc q') = SIGCHLD /\
    (state (sched pp) = PROC_RECEIVING -> wait (ipc pp) = IPC_SIGNAL -> active q').
Proof.
  intros Hc Hpp Hne Hid Hs. unfold exit_end. rewrite Hc. some_bind.
  destruct (update_effect (k_tab s) cur c (fun p => set_exit_status p status) Hc) as (t1 & -> & S1 & L1); [intros p; by repeat split|]. some_bind.
  pose proof (L1 cur c Hc) as C1. rewrite Z.eqb_refl in C1. pose proof (L1 _ pp Hpp) as P1. rewrite (proj2 (Z.eqb_neq _ cur)) in P1 by done.
  destruct (update_effect t1 (parent c) pp (fun p => send_signal p SIGCHLD) P1) as (t2 & -> & S2 & L2); [intros p; apply send_signal_kept|]. some_bind.
  pose proof (L2 cur _ C1) as C2. rewrite (proj2 (Z.eqb_neq cur _)) in C2 by done. pose proof (L2 _ pp P1) as P2. rewrite Z.eqb_refl in P2.
  destruct (update_effect t2 cur _ (fun p => set_state p PROC_STOPPED) C2) as (t3 & -> & S3 & L3); [intros p; by repeat split|]. some_bind.
  pose proof (L3 cur _ C2) as C3. rewrite Z.eqb_refl in C3. pose proof (L3 _ _ P2) as P3. rewrite (proj2 (Z.eqb_neq _ cur)) in P3 by done.
  pose proof (same_shape_trans _ _ _ (same_shape_trans _ _ _ S1 S2) S3) as S. pose proof (sched_ok_shape _ _ cpu cur S Hs) as Hs3.
  destruct (schedule_ok t3 cpu cur Hs3) as (next & t' & E & p0 & _ & _ & _ & Hs' & _). rewrite E. some_bind. cbn [fst snd].
  destruct (schedule_skips t3 cpu cur cur _ next t' C3) as (Hn & _); [done|done|by rewrite (ss_idle _ _ S)|done|].
  destruct (schedule_procs t3 cpu cur _ next t' C3 E) as (_ & _ & qn & Hqn & Hor).
  assert (Hother : forall a, a <> next -> procs t' !! a = <[cur := preempted (set_state (set_exit_status c status) PROC_STOPPED)]> (procs t3) !! a).
  { intros a Ha. destruct Hor as [[_ ->]|[_ ->]]; by rewrite lookup_insert_ne. }
  assert (Hsig : signal (ipc (send_signal pp SIGCHLD)) = SIGCHLD) by (unfold send_signal; by case_if).
  assert (Hact : state (sched pp) = PROC_RECEIVING -> wait (ipc pp) = IPC_SIGNAL -> active (send_signal pp SIGCHLD)).
  { intros E1 E2. unfold send_signal. cbn [set_signal with_ipc sched ipc wait]. rewrite E1, E2. cbn. by left. }
  assert (exists q', procs t' !! parent c = Some q' /\ signal (ipc q') = SIGCHLD /\
    (state (sched pp) = PROC_RECEIVING -> wait (ipc pp) = IPC_SIGNAL -> active q')) as (q' & Q1 & Q2 & Q3).
  { destruct (decide (parent c = next)) as [En|En].
    - rewrite <- En in Hqn, Hor. rewrite lookup_insert_ne, P3 in Hqn by done. injection Hqn as <-.
      destruct Hor as [[_ ->]|[_ ->]]; rewrite lookup_insert_eq; eexists; (split; [done|]); (split; [exact Hsig|]); [intros _ _; by right|exact Hact].
    - rewrite Hother, lookup_insert_ne, P3 by done. by eexists. }
  eexists next, _, _, q'. split; [done|]. cbn [set_tab k_tab k_pt]. split; [done|]. split; [done|]. split; [done|].
  split; [by rewrite Hother, lookup_insert_eq|]. split; [rewrite preempted_state; done|]. split; [unfold preempted; by case_if|done].
Qed.
End Fork.

(** ** The properties *)

(** C6: [do_fork] copies the address space.  With enough pages it builds, up to its
    message to the file server, a process with a new pid, the running one as parent and
    the same segments, heap and stack, whose page table is disjoint from everything that
    was allocated, shares the kernel half of its parent's and maps exactly the pages of
    those ranges: every word of them is the same for the child and for the parent, before
    and after, and no page allocated before is changed. *)
Theorem fork_copies_space {P : Type} `{!PageAllocator P} (s : kstate P) cur c own role proc p1 npgd p2 :
  procs (k_tab s) !! cur = Some c -> own !! cur = Some KERNEL_STACK_ORDER ->
  pt_inv (k_pt s) own (pgd (mm c)) role -> space_ok role (mm c) -> 0 <= global_pid s < 2 ^ 31 - 1 ->
  pa_alloc (pt_pages (k_pt s)) KERNEL_STACK_ORDER = Some (proc, p1) -> proc <> NULL ->
  pa_alloc p1 0 = Some (npgd, p2) -> npgd <> NULL -> enough (4 * length (user_pages (mm c))) p2 ->
  exists s' own' nrole,
    fork_begin s cur = Some (ForkSend proc (mk_message (pid c) MSG_FORKFS (m_forkfs (global_pid s + 1))) s') /\
    global_pid s' = global_pid s + 1 /\
    k_tab s' = set_procs (k_tab s) (<[proc := forked c cur (global_pid s + 1) npgd]> (<[cur := set_children c (proc :: children c)]> (procs (k_tab s)))) /\
    own !! proc = None /\ own' !! proc = Some KERNEL_STACK_ORDER /\
    copying (k_pt s) own (pgd (mm c)) role npgd (k_pt s') own' nrole (user_pages (mm c)) /\
    forall u k, u ∈ user_pages (mm c) -> 0 <= k < 512 ->
      exists w, load_user (pt_mem (k_pt s)) (pgd (mm c)) (u + 8 * k) = Some w /\
        load_user (pt_mem (k_pt s')) npgd (u + 8 * k) = Some w /\ load_user (pt_mem (k_pt s')) (pgd (mm c)) (u + 8 * k) = Some w.
Proof.
  intros Hc Hoc H Hsp Hg Ha Hnz Ha2 Hnz2 Hen.
  destruct (fork_begin_ok s cur c own role proc p1 npgd p2 Hc Hoc H Hsp Hg Ha Hnz Ha2 Hnz2 Hen) as (s' & own' & nrole & E & Eg & Et & Hn & Ho & Hcp).
  exists s', own', nrole. split_and!; try done. intros u k Hu Hk. by apply (copying_loads (k_pt s) own _ role npgd (k_pt s') own' nrole (mm c)).
Qed.

(** C21: the end of [do_fork].  When the file server agrees, the child gets a copy of
    the caller's registers, is appended to the queue and entered in the hash table under
    its pid, runnable, and nothing else changes.  When it refuses, the result is -1 and
    every page of the child goes back, but no record of another process changes: the
    parent keeps on its list of children a block that is free. *)
Theorem fork_end_correct {P : Type} `{!PageAllocator P} (ret_from_fork : Z) (s : kstate P) proc p own nrole regs :
  procs (k_tab s) !! proc = Some p -> hash_ok (k_tab s) -> proc <> NULL -> 0 <= pid p ->
  (forall b q, hashed (k_tab s) b -> procs (k_tab s) !! b = Some q -> pid q <> pid p) ->
  (forall i j, 0 <= i < frame_words -> 0 <= j < frame_words -> regs + 8 * i <> newregs_of proc + 8 * j) ->
  pt_inv (k_pt s) own (pgd (mm p)) nrole -> pgd (mm p) <> 0 -> own !! proc = Some KERNEL_STACK_ORDER ->
  (exists s', fork_end ret_from_fork s proc regs 0 0 = Some (pid p, s') /\
    hash_ok (k_tab s') /\ (forall b, hashed (k_tab s') b <-> hashed (k_tab s) b \/ b = proc) /\
    proc_head (k_tab s') = proc_head (k_tab s) ++ [proc] /\
    procs (k_tab s') = <[proc := set_state p PROC_RUNNABLE]> (procs (k_tab s)) /\
    k_ctx s' !! proc = Some (mk_context (newregs_of proc) (newregs_of proc) ret_from_fork) /\
    pt_pages (k_pt s') = pt_pages (k_pt s) /\
    (forall k, 0 <= k < frame_words -> entry (pt_mem (k_pt s')) (newregs_of proc) k = entry (pt_mem (k_pt s)) regs k) /\
    (forall a, (forall k, 0 <= k < frame_words -> a <> newregs_of proc + 8 * k) -> rd (pt_mem (k_pt s')) a = rd (pt_mem (k_pt s)) a)) /\
  (forall status retval, status <> 0 \/ retval <> 0 ->
    exists s' own', fork_end ret_from_fork s proc regs status retval = Some (-1, s') /\ pa_inv (pt_pages (k_pt s')) own' /\
      (forall a, own' !! a = if decide (a = proc \/ is_Some (nrole !! a)) then None else own !! a) /\
      procs (k_tab s') = delete proc (procs (k_tab s))).
Proof.
  intros Hp Hh Hnz H0 Hfr Hap H Hg Ho. split; [by apply fork_end_ok|]. intros status retval Hf. unfold fork_end, copy_fs.
  assert (E : negb (status =? 0) || negb (retval =? 0) = true).
  { apply orb_true_iff. destruct Hf; [left|right]; apply negb_true_iff; by apply Z.eqb_neq. }
  rewrite E. cbn [Z.eqb negb]. by apply (fork_failed_ok s proc p own nrole).
Qed.

(** C25: the end of a process.  [do_exit] gives its frames and tables back, hands its
    children to its parent, records the status, signals the parent, which runs again if
    it waits for that, and never continues.  [do_wait] of the parent returns pid and
    status of the first stopped child and frees its root table and its record, but the
    child stays on the list: the next [do_wait] reads the freed record. *)
Theorem process_end_correct {P : Type} `{!PageAllocator P} (s : kstate P) cur c own :
  procs (k_tab s) !! cur = Some c ->
  (forall pp role, procs (k_tab s) !! parent c = Some pp -> pt_inv (k_pt s) own (pgd (mm c)) role ->
    exists s' own', exit_begin s cur = Some (mk_message (pid c) MSG_FREEFS m_none, s') /\
      pt_inv (k_pt s') own' (pgd (mm c)) {[pgd (mm c) := []]} /\
      (forall a, own' !! a = if decide (a <> pgd (mm c) /\ is_Some (role !! a)) then None else own !! a) /\
      k_tab s' = set_proc (k_tab s) (parent c) (set_children pp (rev (children c) ++ children pp))) /\
  (forall cpu pp status, procs (k_tab s) !! parent c = Some pp -> parent c <> cur -> cur ∉ proc_idle (k_tab s) -> sched_ok (k_tab s) cpu cur ->
    exists next s' q q', exit_end s cpu cur status = Some (next, s') /\ next <> cur /\ sched_ok (k_tab s') cpu next /\ k_pt s' = k_pt s /\
      procs (k_tab s') !! cur = Some q /\ state (sched q) = PROC_STOPPED /\ exit_status q = status /\
      procs (k_tab s') !! parent c = Some q' /\ signal (ipc q') = SIGCHLD /\
      (state (sched pp) = PROC_RECEIVING -> wait (ipc pp) = IPC_SIGNAL -> active q')) /\
  (forall pre a post p, children c = pre ++ a :: post -> a <> cur ->
    (forall b, b ∈ pre -> b <> a /\ exists q, procs (k_tab s) !! b = Some q /\ state (sched q) <> PROC_STOPPED) ->
    procs (k_tab s) !! a = Some p -> state (sched p) = PROC_STOPPED -> 0 <= pid p -> hash_ok (k_tab s) -> hashed (k_tab s) a ->
    pa_inv (pt_pages (k_pt s)) own -> own !! pgd (mm p) = Some 0 -> own !! a = Some KERNEL_STACK_ORDER ->
    exists s', wait_end s cur = Some (pid p, exit_status p, s') /\
      pa_inv (pt_pages (k_pt s')) (delete a (delete (pgd (mm p)) own)) /\
      hash_ok (k_tab s') /\ (forall b, hashed (k_tab s') b <-> hashed (k_tab s) b /\ b <> a) /\
      proc_head (k_tab s') = remove a (proc_head (k_tab s)) /\ procs (k_tab s') !! a = None /\
      (exists c', procs (k_tab s') !! cur = Some c' /\ children c' = children c) /\ wait_end s' cur = None).
Proof.
  intros Hc. split; [|split].
  - intros pp role Hpp H. by apply (exit_begin_ok s cur c pp own role).
  - intros cpu pp status Hpp Hne Hid Hs. by apply exit_end_ok.
  - intros pre a post p. by apply wait_end_ok.
Qed.

(** [do_brk] keeps the address space well formed.  The heap ends at the next page
    boundary, its new pages are mapped, to pages of zeros unless they were mapped before,
    no other mapping and no other page changes, and a smaller heap changes no memory. *)
Theorem do_brk_correct {P : Type} `{!PageAllocator P} (st : pt_state P) own role m addr :
  pt_inv st own (pgd m) role -> space_ok role m -> start_brk m <= addr <= 2 ^ 47 -> Z.abs (PAGE_UPPER_ALIGN addr - brk m) < 2 ^ 43 ->
  enough (4 * nr_pages (brk m) (PAGE_UPPER_ALIGN addr)) (pt_pages st) ->
  exists st' own' role', do_brk st m addr = Some (0, set_brk m (PAGE_UPPER_ALIGN addr), st') /\
    pt_inv st' own' (pgd m) role' /\ space_ok role' (set_brk m (PAGE_UPPER_ALIGN addr)) /\ grows st st' own own' role role' /\
    (forall u, brk m <= u < PAGE_UPPER_ALIGN addr -> u mod PAGE_SIZE = 0 -> has_frame own role st' role' u) /\
    (PAGE_UPPER_ALIGN addr <= brk m -> st' = st).
Proof. apply do_brk_ok. Qed.

(** ** Witnesses: a process with one page of stack on 32 pages *)

Definition pages32 : list page :=
  (fun i => mk_page (if i =? 0 then PF_RESERVE else 0) 0 0 (to_vir (i * PAGE_SIZE))) <$> seqZ 0 32.
Definition boot32 : mm_state := Buddy.mk_mm pages32 (mk_buddy [] [] 0).
Definition ready32 : mm_state := default boot32 (buddy_system_init boot32 32).

#[local] Instance fork_pages32 : PageAllocator mm_state := buddy_allocator 32.

Lemma ready32_inv : pa_inv ready32 ∅.
Proof.
  destruct (mm_wf_boot boot32 32) as (s' & Hs & Hw); [lia|unfold PAGE_SIZE; lia| |done|].
  { intros p Hp. unfold page_at. cbn [boot32 mem_map]. unfold pages32. rewrite list_lookup_fmap, lookup_seqZ_lt by lia. rewrite Z2Nat.id by lia.
    eexists. split; [reflexivity|done]. }
  unfold ready32. rewrite Hs. cbn [default]. exists ∅. split; [exact Hw|]. intros a o. rewrite lookup_empty. split; [done|].
  intros (p & _ & Hp). by rewrite lookup_empty in Hp.
Qed.

(** The block of the process, its root table and its stack. *)
Definition proc32 : Z := KERNEL_OFFSET + 2 * PAGE_SIZE.
Definition root32 : Z := KERNEL_OFFSET + PAGE_SIZE.
Definition alloc32 (p : mm_state) (o : Z) : mm_state := default p (snd <$> pa_alloc p o).
Definition empty32 : pt_state mm_state := mk_pt (alloc32 (alloc32 ready32 1) 0) ∅.
Definition stack32 : Z := 0x7fffffffe000.
Definition mapped32 : Z * pt_state mm_state := default (0, empty32) (map_page empty32 root32 stack32).
Definition space32 : pt_state mm_state := with_words mapped32.2 (set_entry (pt_mem mapped32.2) mapped32.1 5 42).

Lemma alloc32_ok p own o a : pa_inv p own -> 0 <= o < MAX_ORDER -> fst <$> pa_alloc p o = Some a -> a <> 0 ->
  own !! a = None /\ pa_inv (alloc32 p o) (<[a := o]> own).
Proof.
  intros Hp Ho E Hnz. destruct (pa_alloc_ok p own o Hp Ho) as (b & p' & Hr & _ & Hor). unfold alloc32. rewrite Hr in *. cbn in *. injection E as ->.
  by destruct Hor as [[? _]|(_ & _ & Hn & Hi)].
Qed.

Lemma empty32_inv : pt_inv empty32 (<[root32 := 0]> {[proc32 := 1]}) root32 {[root32 := []]}.
Proof.
  destruct (alloc32_ok ready32 ∅ 1 proc32 ready32_inv) as [_ H1]; [unfold MAX_ORDER; lia|vm_compute; reflexivity|done|].
  destruct (alloc32_ok _ _ 0 root32 H1) as [_ H2]; [unfold MAX_ORDER; lia|vm_compute; reflexivity|done|].
  split; unfold empty32; cbn [pt_pages pt_mem]; [done|apply lookup_insert_eq|..].
  - intros a q [<- <-]%lookup_singleton_Some. split; [apply lookup_insert_eq|cbn; lia].
  - intros a b q [<- _]%lookup_singleton_Some [<- _]%lookup_singleton_Some. done.
  - intros b q i [_ E]%lookup_singleton_Some. by destruct q.
  - intros a q i [<- <-]%lookup_singleton_Some _ Hi. left. split; [unfold entry, rd; by rewrite lookup_empty|].
    intros b [_ E]%lookup_singleton_Some. done.
Qed.

Ltac enough32 := repeat (eexists _, _; split; [vm_compute; reflexivity|split; [discriminate|]]); exact I.

Lemma space32_ok : exists own role page, map_page empty32 root32 stack32 = Some (page, mapped32.2) /\ mapped32.1 = page /\
  pt_inv space32 own root32 role /\ own !! proc32 = Some 1 /\ role !! page = Some (path_of stack32).
Proof.
  destruct (map_page_new 0 empty32 _ root32 _ stack32 empty32_inv) as (page & st & own & role & E & (H & (Ho & _) & Hiff & _) & _); [done|enough32|].
  exists own, role, page. unfold space32, mapped32. rewrite E. change (default (0, empty32) (Some (page, st))) with (page, st). cbn [fst snd]. split; [done|]. split; [done|].
  assert (Hp : role !! page = Some (path_of stack32)) by (apply (proj2 (Hiff stack32 page)); right; split; reflexivity). split; [|split; [|done]].
  - apply (pt_inv_frame st _ own); [done|apply H|done|]. intros a q k Ha Hl Hk. cbn [with_words pt_mem]. rewrite entry_set, decide_False; [done|].
    apply words_apart; try lia; [by eapply role_block|by eapply role_block|]. intros ->. rewrite Hp in Ha. injection Ha as <-. cbn in Hl. lia.
  - eapply lookup_weaken; [|exact Ho]. by rewrite lookup_insert_ne.
Qed.

Definition mm32 : proc_mm := Sched.mk_mm 0 root32 [] 0x700000000000 0x700000000000 stack32 (stack32 + PAGE_SIZE).
Definition cur32 : proc_t := mk_proc 7 (mk_sched PROC_RUNNING 0 1 0) (mk_ipc 0 [] 0 no_message 0) 0 [] 0 mm32.
Definition tab32 : ptable := mk_ptable {[proc32 := cur32]} [proc32] (replicate 256 []) [] 0.
Definition kernel32 : kstate mm_state := mk_ks space32 tab32 ∅ 128.

Lemma mm32_ok role page : role !! page = Some (path_of stack32) -> space_ok role mm32.
Proof.
  intros Hp. unfold space_ok, ranges. cbn [mm32 psegs start_stack end_stack start_brk brk fmap list_fmap app].
  apply Forall_cons. split; [|apply Forall_cons; split; [|done]]; cbn [fst snd]; unfold range_ok, stack32, PAGE_SIZE.
  - split; [lia|]. split; [lia|]. split; [done|]. split; [done|]. intros u Hu Hm. exists page. rewrite Hp. f_equal.
    assert (u = 0x7fffffffe000) as ->; [|done]. apply Z.mod_divide in Hm as [x ->]; [|lia]. lia.
  - split; [lia|]. split; [lia|]. split; [done|]. split; [done|]. intros u Hu. lia.
Qed.

Lemma fork_copies_space_witness : exists proc npgd s', fork_begin kernel32 proc32 =
    Some (ForkSend proc (mk_message 7 MSG_FORKFS (m_forkfs 129)) s') /\ npgd <> root32 /\ load_user (pt_mem (k_pt s')) npgd (stack32 + 8 * 5) = Some 42.
Proof.
  destruct space32_ok as (own & role & page & _ & _ & H & Ho & Hp).
  assert (Hs : space_ok role (mm cur32)) by (change (mm cur32) with mm32; exact (mm32_ok role page Hp)).
  assert (Hup : user_pages (mm cur32) = [stack32]) by (vm_compute; reflexivity).
  edestruct (fork_copies_space kernel32 proc32 cur32 own role) as (s' & own' & nrole & E & _ & _ & _ & _ & Hcp & Hl);
    [apply lookup_insert_eq|exact Ho|exact H|exact Hs|cbn; lia|vm_compute; reflexivity|discriminate|vm_compute; reflexivity|discriminate| |].
  { rewrite Hup. cbn [length Nat.mul Nat.add]. enough32. }
  destruct (Hl stack32 5) as (w & L1 & L2 & _); [rewrite Hup; by left|lia|].
  assert (E42 : load_user (pt_mem (k_pt kernel32)) (pgd (mm cur32)) (stack32 + 8 * 5) = Some 42) by (vm_compute; reflexivity).
  rewrite E42 in L1. injection L1 as <-. eexists _, _, s'. split; [exact E|]. split; [|exact L2]. discriminate.
Defined.

Lemma do_brk_correct_witness : exists st', do_brk space32 mm32 0x700000000001 = Some (0, set_brk mm32 0x700000001000, st') /\
  exists own role', pt_inv st' own root32 role' /\ space_ok role' (set_brk mm32 0x700000001000).
Proof.
  destruct space32_ok as (own & role & page & _ & _ & H & _ & Hp).
  pose proof (do_brk_correct space32 own role mm32 0x700000000001 H (mm32_ok role page Hp)) as Hb.
  assert (En : PAGE_UPPER_ALIGN 0x700000000001 = 0x700000001000) by reflexivity. rewrite En in Hb.
  assert (Enr : nr_pages (brk mm32) 0x700000001000 = 1%nat) by (vm_compute; reflexivity). rewrite Enr in Hb.
  destruct Hb as (st' & own' & role' & E & H' & Hs & _); [cbn; lia|vm_compute; reflexivity|cbn [Nat.mul Nat.add]; enough32|].
  exists st'. split; [exact E|]. exists own', role'. split; [exact H'|exact Hs].
Defined.

(** ** Witnesses: a parent and its child *)

Definition parent32 : proc_t := mk_proc 6 (mk_sched PROC_RUNNING 0 1 0) (mk_ipc 0 [] 0 no_message SIGCHLD) 0 [proc32] 0 (Sched.mk_mm 0 0 [] 0 0 0 0).
Definition child32 (st : Z) : proc_t := mk_proc 7 (mk_sched st 0 1 0) (mk_ipc 0 [] 0 no_message 0) 0x2000 [] 3 mm32.
Definition family32 (st : Z) : kstate mm_state :=
  mk_ks space32 (mk_ptable (<[proc32 := child32 st]> {[0x2000 := parent32]}) [0x2000] (replicate 256 []) [] 0) ∅ 129.

Lemma empty_hash_ok t : proc_hash t = replicate 256 [] -> hash_ok t /\ forall a, ~ hashed t a.
Proof.
  intros E. assert (Hno : forall k l, proc_hash t !! k = Some l -> l = []) by (intros k l; rewrite E; by intros [-> _]%lookup_replicate).
  assert (Hh : forall a, ~ hashed t a).
  { intros a (l & Hl & Ha). apply list_elem_of_lookup in Hl as [k Hl]. rewrite (Hno k l Hl) in Ha. by apply elem_of_nil in Ha. }
  split; [|exact Hh]. split.
  - by rewrite E, length_replicate.
  - intros k l a Hl Ha. rewrite (Hno k l Hl) in Ha. by apply elem_of_nil in Ha.
  - intros k l Hl. rewrite (Hno k l Hl). apply NoDup_nil_2.
  - intros a b p q Ha. by destruct (Hh a).
Qed.

Lemma fork_end_correct_witness : exists s', fork_end 0xf0 (family32 PROC_SENDING) proc32 0x9000 0 0 = Some (7, s') /\ proc_head (k_tab s') = [0x2000; proc32].
Proof.
  destruct space32_ok as (own & role & page & _ & _ & H & Ho & _).
  destruct (empty_hash_ok (k_tab (family32 PROC_SENDING)) eq_refl) as [Hok Hno].
  destruct (fork_end_correct 0xf0 (family32 PROC_SENDING) proc32 (child32 PROC_SENDING) own role 0x9000) as [(s' & E & _ & _ & Eh & _) _];
    [apply lookup_insert_eq|exact Hok|discriminate|cbn; lia|by intros b q Hb; destruct (Hno b)| |exact H|discriminate|exact Ho|].
  { intros i j. unfold newregs_of, kernel_stack_top, frame_words, proc32, KERNEL_OFFSET, KERNEL_STACK_SIZE, PAGE_SIZE. lia. }
  exists s'. split; [exact E|exact Eh].
Defined.

Lemma process_end_correct_witness : exists s s', hashed (k_tab s) proc32 /\ wait_end s 0x2000 = Some (7, 3, s') /\ ~ hashed (k_tab s') proc32 /\ wait_end s' 0x2000 = None.
Proof.
  destruct space32_ok as (own & role & page & _ & _ & H & Ho & _).
  destruct (empty_hash_ok (k_tab (family32 PROC_STOPPED)) eq_refl) as [Hok Hno].
  destruct (hash_proc_ok (k_tab (family32 PROC_STOPPED)) proc32 (child32 PROC_STOPPED) Hok) as (t & _ & Hok' & Ep & Hin);
    [apply lookup_insert_eq|discriminate|cbn; lia|by intros b q Hb; destruct (Hno b)|].
  set (s := set_tab (family32 PROC_STOPPED) t).
  assert (Hp : procs (k_tab s) !! proc32 = Some (child32 PROC_STOPPED)) by (cbn [s set_tab k_tab]; rewrite Ep; apply lookup_insert_eq).
  assert (Hc : procs (k_tab s) !! 0x2000 = Some parent32) by (cbn [s set_tab k_tab]; rewrite Ep; reflexivity).
  assert (Hh : hashed (k_tab s) proc32) by (apply Hin; right; reflexivity).
  destruct (proj2 (proj2 (process_end_correct s 0x2000 parent32 own Hc)) [] proc32 [] (child32 PROC_STOPPED)) as (s' & E & _ & _ & Hb & _ & _ & _ & E2);
    [reflexivity|discriminate|by intros b Hb%elem_of_nil|exact Hp|reflexivity|cbn; lia|exact Hok'|exact Hh|apply H| |exact Ho|].
  { exact (proj1 (pi_own _ _ _ _ H root32 [] (pi_root _ _ _ _ H))). }
  exists s, s'. split; [exact Hh|]. split; [exact E|]. split; [|exact E2]. intros [_ Hne]%Hb. by apply Hne.
Defined.
