(* ===== verification/Irq.v ===== *)
(** * Interrupts: [boot/irq.c], [boot/apic.c]

    The table of gates, the owners of the hardware interrupts and the registers of the
    interrupt controllers.  The controllers and the ports are hardware behind the class
    [ApicHardware]; [ApicLaws] says what their documentation promises of the registers
    of the I/O APIC.  The routines of [entry.S] are the addresses that the linker gives
    them. *)

From S2P Require Import Prelude Sched Ipc.

Definition NR_HW_IRQ : Z := 0x10.
Definition KERNEL_CODE_DESC : Z := 0x08.
Definition IOAPIC_IRQ_BASE : Z := 0x20.
Definition APIC_TIMER_IRQ : Z := 0x20.
Definition APIC_IRQ_ERROR : Z := 0x30.
Definition APIC_IRQ_SPURIOUS : Z := 0x3f.
Definition IOREGSEL : Z := 0x00.
Definition IOWIN : Z := 0x10.
Definition IOAPIC_ID : Z := 0x00.
Definition IOAPIC_VER : Z := 0x01.
Definition IOAPIC_REDTBL : Z := 0x10.
Definition IOAPIC_RED_MASK : Z := 0x10000.
Definition APIC_LVR : Z := 0x30.
Definition APIC_TPR : Z := 0x80.
Definition APIC_EOI : Z := 0xb0.
Definition APIC_SVR : Z := 0xf0.
Definition APIC_SVR_ENABLE : Z := 0x100.
Definition APIC_ESR : Z := 0x280.
Definition APIC_LVTT : Z := 0x320.
Definition APIC_LVTT_PERIODIC : Z := Z.shiftl 1 17.
Definition APIC_LVTPC : Z := 0x340.
Definition APIC_LVTLINE0 : Z := 0x350.
Definition APIC_LVTLINE1 : Z := 0x360.
Definition APCI_LVTER : Z := 0x370.
Definition APIC_TICR : Z := 0x380.
Definition APIC_TDCR : Z := 0x3e0.
Definition APIC_TDCR_D1 : Z := 0xb.
Definition APIC_LVT_MASK : Z := Z.shiftl 1 16.
Definition APIC_TIMER_INIT_COUNT : Z := 10000000.

(** ** Gates *)

(** The fields of a gate that [setup_idt_desc] stores, and those it leaves. *)
Record gate_struct := mk_gate {
  offset0 : Z; segment : Z; ist : Z; zeros_of : Z; gate_type : Z; dpl : Z; present : Z; offset1 : Z; offset2 : Z }.

Definition setup_idt_desc (nr addr d : Z) (idt : gmap Z gate_struct) : gmap Z gate_struct :=
  alter (fun g => mk_gate (Z.land addr 0xffff) KERNEL_CODE_DESC (ist g) (zeros_of g) 0xe (Z.land d 3) 1 (Z.land (Z.shiftr addr 16) 0xffff) (u32 (Z.shiftr addr 32))) nr idt.

(** The routines of [entry.S]. *)
Inductive routine :=
  | divide_error | single_step_exception | nmi | breakpoint_exception | overflow | bounds_check | inval_opcode | copr_not_available
  | double_fault | copr_seg_overrun | inval_tss | segment_not_present | stack_exception | general_protection | page_fault | copr_error
  | apic_timer | hwint (vector : Z) | spurious_intr | apic_error | system_call.

Definition gates : list (Z * routine * Z) :=
  [(0x00, divide_error, 0); (0x01, single_step_exception, 0); (0x02, nmi, 0); (0x03, breakpoint_exception, 3); (0x04, overflow, 3);
   (0x05, bounds_check, 0); (0x06, inval_opcode, 0); (0x07, copr_not_available, 0); (0x08, double_fault, 0); (0x09, copr_seg_overrun, 0);
   (0x0a, inval_tss, 0); (0x0b, segment_not_present, 0); (0x0c, stack_exception, 0); (0x0d, general_protection, 0); (0x0e, page_fault, 0);
   (0x10, copr_error, 0);
   (0x20, apic_timer, 0); (0x21, hwint 0x21, 0); (0x22, hwint 0x22, 0); (0x23, hwint 0x23, 0); (0x24, hwint 0x24, 0); (0x25, hwint 0x25, 0);
   (0x26, hwint 0x26, 0); (0x27, hwint 0x27, 0); (0x28, hwint 0x28, 0); (0x29, hwint 0x29, 0); (0x2a, hwint 0x2a, 0); (0x2b, hwint 0x2b, 0);
   (0x2c, hwint 0x2c, 0); (0x2d, hwint 0x2d, 0); (0x2e, hwint 0x2e, 0); (0x2f, hwint 0x2f, 0);
   (APIC_IRQ_SPURIOUS, spurious_intr, 0); (APIC_IRQ_ERROR, apic_error, 0); (0x80, system_call, 3)].

Definition setup_irq (address : routine -> Z) (idt : gmap Z gate_struct) : gmap Z gate_struct :=
  foldl (fun idt '(nr, r, d) => setup_idt_desc nr (address r) d idt) idt gates.

(** ** The controllers *)

(** 32-bit accesses to the pages of the local and the I/O APIC, and byte ports. *)
Class ApicHardware (D : Type) := {
  lapic_load : Z -> D -> Z * D;
  lapic_store : Z -> Z -> D -> D;
  io_load : Z -> D -> Z * D;
  io_store : Z -> Z -> D -> D;
  port_in : Z -> D -> Z * D;
  port_out : Z -> Z -> D -> D }.

(** [hw_proc] has the pid that gets each interrupt, or 0. *)
Record irqs (D : Type) := mk_irqs { hw_proc : list Z; ioapic_maxintr : Z; hardware : D }.
Arguments mk_irqs {D}.
Arguments hw_proc {D}.
Arguments ioapic_maxintr {D}.
Arguments hardware {D}.

Section Irq.
Context {D : Type} `{!ApicHardware D}.

Definition apic_read (off : Z) (d : D) : Z * D := lapic_load off d.
Definition apic_write (off value : Z) (d : D) : D := lapic_store off (u32 value) d.

Definition ioapic_read (reg : Z) (d : D) : Z * D := io_load IOWIN (io_store IOREGSEL (u32 reg) d).
Definition ioapic_write (reg value : Z) (d : D) : D := io_store IOWIN (u32 value) (io_store IOREGSEL (u32 reg) d).

Definition get_apic_version (d : D) : Z * D := let '(v, d) := apic_read APIC_LVR d in (Z.land v 0xff, d).
Definition get_maxlvt (d : D) : Z * D := let '(v, d) := apic_read APIC_LVR d in (Z.land (Z.shiftr v 16) 0xff, d).

(** The loop that masks the pins from [i] on. *)
Fixpoint init_pins (n : nat) (i : Z) (d : D) : D :=
  match n with
  | O => d
  | S n =>
      let d := ioapic_write (IOAPIC_REDTBL + 2 * i) (Z.lor IOAPIC_RED_MASK (IOAPIC_IRQ_BASE + i)) d in
      let d := ioapic_write (IOAPIC_REDTBL + 2 * i + 1) 0 d in
      init_pins n (i + 1) d
  end.

(** [ioapicid] comes from the tables of the BIOS; [panic] prints and goes on. *)
Definition ioapic_init (ioapicid : Z) (s : irqs D) : Z * irqs D :=
  let '(version, d) := ioapic_read IOAPIC_VER (hardware s) in
  let maxintr := Z.land (Z.shiftr version 16) 0xff in
  let '(v, d) := ioapic_read IOAPIC_ID d in
  if negb (Z.shiftr v 24 =? ioapicid) then (-1, mk_irqs (hw_proc s) maxintr d)
  else (0, mk_irqs (hw_proc s) maxintr (init_pins (Z.to_nat maxintr) 0 d)).

Definition lapic_init (d : D) : Z * D :=
  let '(maxlvt, d) := get_maxlvt d in
  let d := apic_write APIC_SVR (Z.lor APIC_SVR_ENABLE APIC_IRQ_SPURIOUS) d in
  let d := apic_write APIC_TDCR APIC_TDCR_D1 d in
  let d := apic_write APIC_LVTT (Z.lor APIC_LVTT_PERIODIC APIC_TIMER_IRQ) d in
  let d := apic_write APIC_TICR APIC_TIMER_INIT_COUNT d in
  let d := apic_write APIC_LVTLINE0 APIC_LVT_MASK d in
  let d := apic_write APIC_LVTLINE1 APIC_LVT_MASK d in
  let d := if 4 <=? maxlvt then apic_write APIC_LVTPC APIC_LVT_MASK d else d in
  let d := apic_write APCI_LVTER APIC_IRQ_ERROR d in
  let d := apic_write APIC_ESR 0 d in
  let d := apic_write APIC_ESR 0 d in
  let d := apic_write APIC_EOI 0 d in
  let d := apic_write APIC_TPR 0 d in
  (0, d).

(** [edx] is what [cpuid] answered; whether it returns or stops in [cpu_idle]. *)
Definition apic_init (edx ioapicid : Z) (s : irqs D) : bool * irqs D :=
  if negb (Z.testbit edx 9) then (false, s)
  else
    let d := port_out 0x22 0x70 (hardware s) in
    let '(v, d) := port_in 0x23 d in
    let d := port_out 0x23 (Z.lor v 1) d in
    let '(version, d) := get_apic_version d in
    let s := mk_irqs (hw_proc s) (ioapic_maxintr s) d in
    if version <? 0x10 then (false, s)
    else
      let '(r, d) := lapic_init (hardware s) in
      let s := mk_irqs (hw_proc s) (ioapic_maxintr s) d in
      if negb (r =? 0) then (false, s)
      else let '(r, s) := ioapic_init ioapicid s in (r =? 0, s).

(** ** Owners *)

Definition irq_init (address : routine -> Z) (idt : gmap Z gate_struct) (s : irqs D) : gmap Z gate_struct * irqs D :=
  (setup_irq address idt, mk_irqs (replicate (Z.to_nat NR_HW_IRQ) 0) (ioapic_maxintr s) (hardware s)).

Definition no_such_irq (vector : Z) (s : irqs D) : bool := (IOAPIC_IRQ_BASE + ioapic_maxintr s <=? vector) || (vector <=? IOAPIC_IRQ_BASE).

(** An index outside [hw_proc] touches other data: no result. *)
Definition register_irq (vector pid : Z) (s : irqs D) : option (Z * irqs D) :=
  if no_such_irq vector s then Some (-1, s)
  else
    let i := vector - IOAPIC_IRQ_BASE in
    owner ← hw_proc s !! Z.to_nat i;
    if negb (owner =? 0) then Some (-1, s)
    else
      let d := ioapic_write (IOAPIC_REDTBL + i * 2 + 1) 0 (hardware s) in
      let d := ioapic_write (IOAPIC_REDTBL + i * 2) vector d in
      Some (0, mk_irqs (<[Z.to_nat i := pid]> (hw_proc s)) (ioapic_maxintr s) d).

Definition unregister_irq (vector : Z) (s : irqs D) : option (Z * irqs D) :=
  if no_such_irq vector s then Some (-1, s)
  else
    let i := vector - IOAPIC_IRQ_BASE in
    _ ← hw_proc s !! Z.to_nat i;
    let d := ioapic_write (IOAPIC_REDTBL + i * 2 + 1) 0 (hardware s) in
    let d := ioapic_write (IOAPIC_REDTBL + i * 2) IOAPIC_RED_MASK d in
    Some (0, mk_irqs (<[Z.to_nat i := 0]> (hw_proc s)) (ioapic_maxintr s) d).

(** ** Delivery *)

Definition do_hwint (s : irqs D) (t : ptable) (cur nr : Z) : option ptable :=
  owner ← hw_proc s !! Z.to_nat (nr - 0x20);
  if owner =? 0 then Some t
  else o ← do_send t cur owner hw_message; Some (match o with Ret _ t => t | Ipc.Sched _ t => t end).

(** Exceptions are printed. *)
Definition do_IRQ (s : irqs D) (t : ptable) (cur vector : Z) : option ptable :=
  if (0 <=? vector) && (vector <=? 0x10) then Some t
  else if (0x21 <=? vector) && (vector <=? 0x2f) then do_hwint s t cur vector
  else Some t.
End Irq.

(** ** What the controller promises *)

(** A store to [IOREGSEL] selects a register and one to [IOWIN] changes the selected
    one, if it is in the redirection table; loads change nothing. *)
Class ApicLaws (D : Type) `{!ApicHardware D} := {
  io_sel : D -> Z;
  io_reg : D -> Z -> Z;
  aw_select v d : io_sel (io_store IOREGSEL v d) = v /\ forall r, io_reg (io_store IOREGSEL v d) r = io_reg d r;
  aw_store v d : IOAPIC_REDTBL <= io_sel d -> forall r, io_reg (io_store IOWIN v d) r = if r =? io_sel d then v else io_reg d r;
  aw_load d : (io_load IOWIN d).1 = io_reg d (io_sel d) /\ forall r, io_reg (io_load IOWIN d).2 r = io_reg d r }.

Section Proofs.
Context {D : Type} `{!ApicHardware D, !ApicLaws D}.
Implicit Types (s : irqs D).

Lemma ioapic_write_reg reg v (d : D) r : IOAPIC_REDTBL <= reg < 2 ^ 32 -> 0 <= v < 2 ^ 32 -> io_reg (ioapic_write reg v d) r = if r =? reg then v else io_reg d r.
Proof.
  intros Hr Hv. unfold ioapic_write, u32, uwrap. rewrite !Z.mod_small by (unfold IOAPIC_REDTBL in *; lia).
  destruct (aw_select reg d) as [Es Er]. rewrite aw_store, Es, Er by (rewrite Es; lia). done.
Qed.

Lemma ioapic_read_reg reg (d : D) : 0 <= reg < 2 ^ 32 -> (ioapic_read reg d).1 = io_reg d reg /\ forall r, io_reg (ioapic_read reg d).2 r = io_reg d r.
Proof.
  intros Hr. unfold ioapic_read, u32, uwrap. rewrite Z.mod_small by lia. destruct (aw_select reg d) as [Es Er]. destruct (aw_load (io_store IOREGSEL reg d)) as [E1 E2].
  rewrite E1, Es, Er. split; [done|]. intros r. by rewrite E2, Er.
Qed.

(** The entry of a pin in the redirection table. *)
Definition pin_low (d : D) (i : Z) : Z := io_reg d (IOAPIC_REDTBL + 2 * i).
Definition pin_high (d : D) (i : Z) : Z := io_reg d (IOAPIC_REDTBL + 2 * i + 1).
Definition masked (v : Z) : Prop := Z.testbit v 16 = true.

Lemma write_pin i lo (d : D) j : 0 <= i < 256 -> 0 <= lo < 2 ^ 32 ->
  let d' := ioapic_write (IOAPIC_REDTBL + i * 2) lo (ioapic_write (IOAPIC_REDTBL + i * 2 + 1) 0 d) in
  pin_low d' j = (if j =? i then lo else pin_low d j) /\ pin_high d' j = (if j =? i then 0 else pin_high d j).
Proof.
  intros Hi Hl d'. unfold d', pin_low, pin_high, IOAPIC_REDTBL. rewrite !ioapic_write_reg by (unfold IOAPIC_REDTBL; lia).
  destruct (j =? i) eqn:E; zbool.
  - subst j. rewrite (proj2 (Z.eqb_eq (16 + 2 * i) (16 + i * 2))), (proj2 (Z.eqb_neq (16 + 2 * i + 1) (16 + i * 2))), (proj2 (Z.eqb_eq (16 + 2 * i + 1) (16 + i * 2 + 1))) by lia. done.
  - rewrite (proj2 (Z.eqb_neq (16 + 2 * j) _)), (proj2 (Z.eqb_neq (16 + 2 * j) _)), (proj2 (Z.eqb_neq (16 + 2 * j + 1) _)), (proj2 (Z.eqb_neq (16 + 2 * j + 1) _)) by lia. done.
Qed.

(** A pin with an owner delivers its vector to processor 0, one without is masked. *)
Definition pin_ok (d : D) (i owner : Z) : Prop :=
  (owner = 0 -> masked (pin_low d i)) /\ (owner <> 0 -> pin_low d i = IOAPIC_IRQ_BASE + i /\ pin_high d i = 0).

(** The controller has [ioapic_maxintr] + 1 pins, since its version register gives the
    index of the last one; [hw_proc] has an entry for the first sixteen.  [last] is the
    entry of the last pin as the firmware left it. *)
Record irq_ok (last : Z * Z) s : Prop := {
  iq_len : length (hw_proc s) = Z.to_nat NR_HW_IRQ;
  iq_max : 0 <= ioapic_maxintr s <= 255;
  iq_pins : forall i o, 0 <= i < ioapic_maxintr s -> hw_proc s !! Z.to_nat i = Some o -> pin_ok (hardware s) i o;
  iq_rest : forall i, NR_HW_IRQ <= i < ioapic_maxintr s -> masked (pin_low (hardware s) i);
  iq_last : (pin_low (hardware s) (ioapic_maxintr s), pin_high (hardware s) (ioapic_maxintr s)) = last }.

Lemma init_pins_ok n : forall i (d : D) j, 0 <= i -> i + Z.of_nat n <= 255 ->
  pin_low (init_pins n i d) j = (if (i <=? j) && (j <? i + Z.of_nat n) then Z.lor IOAPIC_RED_MASK (IOAPIC_IRQ_BASE + j) else pin_low d j).
Proof.
  induction n as [|n IH]; intros i d j Hi Hn; cbn [init_pins]; [case_if; [zbool; lia|done]|]. rewrite IH by lia.
  assert (Hb : 0 <= Z.lor IOAPIC_RED_MASK (IOAPIC_IRQ_BASE + i) < 2 ^ 32).
  { split; [apply Z.lor_nonneg; unfold IOAPIC_IRQ_BASE, IOAPIC_RED_MASK; lia|]. apply Z.log2_lt_cancel. rewrite Z.log2_lor by (unfold IOAPIC_IRQ_BASE, IOAPIC_RED_MASK; lia).
    change (Z.log2 (2 ^ 32)) with 32. change (Z.log2 IOAPIC_RED_MASK) with 16. pose proof (Z.log2_le_mono (IOAPIC_IRQ_BASE + i) 512 ltac:(unfold IOAPIC_IRQ_BASE; lia)) as Hl. change (Z.log2 512) with 9 in Hl. lia. }
  unfold pin_low at 1. rewrite !ioapic_write_reg by (unfold IOAPIC_REDTBL; lia). unfold IOAPIC_REDTBL. rewrite (proj2 (Z.eqb_neq (16 + 2 * j) (16 + 2 * i + 1))) by lia.
  destruct ((i + 1 <=? j) && (j <? i + 1 + Z.of_nat n)) eqn:E1; destruct ((i <=? j) && (j <? i + Z.of_nat (S n))) eqn:E2; zbool; destruct_or?; zbool; try lia; try done.
  - assert (j = i) as -> by lia. by rewrite Z.eqb_refl.
  - rewrite (proj2 (Z.eqb_neq (16 + 2 * j) (16 + 2 * i))) by lia. done.
  - rewrite (proj2 (Z.eqb_neq (16 + 2 * j) (16 + 2 * i))) by lia. done.
Qed.

Lemma init_pins_high n : forall i (d : D) j, 0 <= i -> i + Z.of_nat n <= 255 -> i + Z.of_nat n <= j ->
  pin_high (init_pins n i d) j = pin_high d j.
Proof.
  induction n as [|n IH]; intros i d j Hi Hn Hj; cbn [init_pins]; [done|]. rewrite IH by lia. unfold pin_high at 1.
  rewrite ioapic_write_reg by (unfold IOAPIC_REDTBL; lia). rewrite (proj2 (Z.eqb_neq _ _)) by lia.
  destruct (aw_select (u32 (IOAPIC_REDTBL + 2 * i)) d) as [Es Er]. unfold ioapic_write. rewrite aw_store, Es, Er.
  - rewrite u32_small by (unfold IOAPIC_REDTBL; lia). by rewrite (proj2 (Z.eqb_neq _ _)) by lia.
  - rewrite Es, u32_small by (unfold IOAPIC_REDTBL; lia). lia.
Qed.

Lemma mask_bit j : 0 <= j < 256 -> masked (Z.lor IOAPIC_RED_MASK (IOAPIC_IRQ_BASE + j)).
Proof. intros Hj. unfold masked. rewrite Z.lor_spec. done. Qed.

Lemma version_max v : 0 <= Z.land (Z.shiftr v 16) 0xff <= 255.
Proof. change (Z.land (Z.shiftr v 16) 0xff) with (Z.land (Z.shiftr v 16) (Z.ones 8)). rewrite Z.land_ones by lia. pose proof (Z.mod_pos_bound (Z.shiftr v 16) (2 ^ 8) ltac:(lia)). lia. Qed.

(** After [irq_init] and [ioapic_init] every pin but the last is masked, and the last is
    as the firmware left it. *)
Lemma irq_start_ok ioapicid s :
  let mx := Z.land (Z.shiftr (io_reg (hardware s) IOAPIC_VER) 16) 0xff in
  hw_proc s = replicate (Z.to_nat NR_HW_IRQ) 0 -> Z.shiftr (io_reg (hardware s) IOAPIC_ID) 24 = ioapicid ->
  (ioapic_init ioapicid s).1 = 0 /\ ioapic_maxintr (ioapic_init ioapicid s).2 = mx /\
  irq_ok (pin_low (hardware s) mx, pin_high (hardware s) mx) (ioapic_init ioapicid s).2.
Proof.
  intros mx Hp Hid. unfold ioapic_init. destruct (ioapic_read_reg IOAPIC_VER (hardware s) ltac:(done)) as [E1 F1]. destruct (ioapic_read IOAPIC_VER (hardware s)) as [v d]. cbn [fst snd] in *.
  destruct (ioapic_read_reg IOAPIC_ID d ltac:(done)) as [E2 F2]. destruct (ioapic_read IOAPIC_ID d) as [w d']. cbn [fst snd] in *. subst v. rewrite F1 in E2. subst w.
  rewrite (proj2 (Z.eqb_eq _ _) Hid). cbn [negb fst snd]. split; [done|]. pose proof (version_max (io_reg (hardware s) IOAPIC_VER)) as Hm. fold mx in Hm |- *. split; [done|].
  assert (Hmask : forall i, 0 <= i < mx -> masked (pin_low (init_pins (Z.to_nat mx) 0 d') i)).
  { intros i Hi. rewrite init_pins_ok by lia. rewrite (proj2 (Z.leb_le _ _)), (proj2 (Z.ltb_lt _ _)) by lia. apply mask_bit. lia. }
  split; cbn [hw_proc ioapic_maxintr hardware].
  - rewrite Hp. apply length_replicate.
  - lia.
  - intros i o Hi Ho. rewrite Hp in Ho. apply lookup_replicate in Ho as [-> _]. split; [|done]. intros _. by apply Hmask.
  - intros i Hi. apply Hmask. unfold NR_HW_IRQ in *. lia.
  - rewrite init_pins_ok, init_pins_high by lia. rewrite (proj2 (Z.leb_le _ _)), (proj2 (Z.ltb_ge _ _)) by lia. cbn [andb].
    unfold pin_low, pin_high. by rewrite !F2, !F1.
Qed.

Lemma no_such vector s : no_such_irq vector s = true <-> ~ (IOAPIC_IRQ_BASE < vector < IOAPIC_IRQ_BASE + ioapic_maxintr s).
Proof. unfold no_such_irq. rewrite orb_true_iff, !Z.leb_le. lia. Qed.

(** Storing the entry of one pin with its owner. *)
Lemma set_pin_ok last s i o lo : irq_ok last s -> 0 <= i < ioapic_maxintr s -> i < NR_HW_IRQ -> 0 <= lo < 2 ^ 32 ->
  (o = 0 -> masked lo) -> (o <> 0 -> lo = IOAPIC_IRQ_BASE + i) ->
  irq_ok last (mk_irqs (<[Z.to_nat i := o]> (hw_proc s)) (ioapic_maxintr s)
    (ioapic_write (IOAPIC_REDTBL + i * 2) lo (ioapic_write (IOAPIC_REDTBL + i * 2 + 1) 0 (hardware s)))).
Proof.
  intros [Hl Hm Hp Hr Hlast] Hi Hi' Hlo H0 H1. pose proof (fun j => write_pin i lo (hardware s) j ltac:(lia) Hlo) as Hw.
  split; cbn [hw_proc ioapic_maxintr hardware]; unfold NR_HW_IRQ in *.
  - by rewrite length_insert.
  - done.
  - intros j oj Hj Hoj. destruct (Hw j) as [El Eh]. unfold pin_ok. rewrite El, Eh. destruct (j =? i) eqn:E; zbool.
    + subst j. rewrite list_lookup_insert_eq in Hoj by lia. injection Hoj as <-. split; [done|]. intros Hn. split; [by apply H1|done].
    + rewrite list_lookup_insert_ne in Hoj by lia. by apply Hp.
  - intros j Hj. destruct (Hw j) as [-> _]. rewrite (proj2 (Z.eqb_neq j i)) by lia. by apply Hr.
  - destruct (Hw (ioapic_maxintr s)) as [-> ->]. by rewrite (proj2 (Z.eqb_neq (ioapic_maxintr s) i)) by lia.
Qed.

(** What a call may do to the owners: the pin [i] belongs to [o], or nothing changed. *)
Definition owner_set s s' (i o : Z) : Prop := hw_proc s' = <[Z.to_nat i := o]> (hw_proc s) /\ ioapic_maxintr s' = ioapic_maxintr s.

(** The vectors that pass the test of the code, and those it handles: an accepted one
    from 0x30 on has no entry in [hw_proc]. *)
Definition has_pin s (vector : Z) : Prop := IOAPIC_IRQ_BASE < vector < IOAPIC_IRQ_BASE + ioapic_maxintr s.
Definition handled s (vector : Z) : Prop := vector < IOAPIC_IRQ_BASE + NR_HW_IRQ \/ IOAPIC_IRQ_BASE + ioapic_maxintr s <= vector.

Lemma pin_slot last s vector : irq_ok last s -> handled s vector -> has_pin s vector ->
  0 <= vector - IOAPIC_IRQ_BASE < ioapic_maxintr s /\ vector - IOAPIC_IRQ_BASE < NR_HW_IRQ /\ 0 <= vector < 2 ^ 32 /\
  exists o, hw_proc s !! Z.to_nat (vector - IOAPIC_IRQ_BASE) = Some o.
Proof.
  intros [Hl Hm _ _ _] Hh Hp. unfold handled, has_pin, NR_HW_IRQ, IOAPIC_IRQ_BASE in *. split; [lia|]. split; [lia|]. split; [lia|].
  apply lookup_lt_is_Some_2. lia.
Qed.

Lemma not_handled last s vector : irq_ok last s -> ~ handled s vector -> no_such_irq vector s = false /\ hw_proc s !! Z.to_nat (vector - IOAPIC_IRQ_BASE) = None.
Proof.
  intros [Hl _ _ _ _] Hn. unfold handled, no_such_irq, IOAPIC_IRQ_BASE, NR_HW_IRQ in *. rewrite (proj2 (Z.leb_gt _ _)), (proj2 (Z.leb_gt _ _)) by lia. split; [done|].
  apply lookup_ge_None_2. rewrite Hl. lia.
Qed.

(** The calls on the owners. *)
Lemma register_ok last s vector pid : irq_ok last s -> pid <> 0 -> handled s vector -> exists r s', register_irq vector pid s = Some (r, s') /\ irq_ok last s' /\
  (r = 0 /\ has_pin s vector /\ hw_proc s !! Z.to_nat (vector - IOAPIC_IRQ_BASE) = Some 0 /\ owner_set s s' (vector - IOAPIC_IRQ_BASE) pid \/
   r = -1 /\ s' = s /\ (~ has_pin s vector \/ exists o, o <> 0 /\ hw_proc s !! Z.to_nat (vector - IOAPIC_IRQ_BASE) = Some o)).
Proof.
  intros H Hp Hh. unfold register_irq. destruct (no_such_irq vector s) eqn:En.
  { exists (-1), s. split; [done|]. split; [done|]. right. split; [done|]. split; [done|]. left. by apply no_such. }
  assert (Hin : has_pin s vector) by (unfold has_pin, no_such_irq in *; zbool; lia). destruct (pin_slot last s vector H Hh Hin) as (Hi & Hi' & Hv & o & Ho). rewrite Ho. some_bind.
  destruct (o =? 0) eqn:Eo; cbn [negb]; zbool.
  - subst o. eexists 0, _. split; [done|]. split; [|left; do 3 (split; [done|]); by split]. apply set_pin_ok; try done. lia.
  - exists (-1), s. split; [done|]. split; [done|]. right. split; [done|]. split; [done|]. right. by exists o.
Qed.

Lemma unregister_ok last s vector : irq_ok last s -> handled s vector -> exists r s', unregister_irq vector s = Some (r, s') /\ irq_ok last s' /\
  (r = 0 /\ has_pin s vector /\ owner_set s s' (vector - IOAPIC_IRQ_BASE) 0 \/ r = -1 /\ s' = s /\ ~ has_pin s vector).
Proof.
  intros H Hh. unfold unregister_irq. destruct (no_such_irq vector s) eqn:En.
  { exists (-1), s. split; [done|]. split; [done|]. right. split; [done|]. split; [done|]. by apply no_such. }
  assert (Hin : has_pin s vector) by (unfold has_pin, no_such_irq in *; zbool; lia). destruct (pin_slot last s vector H Hh Hin) as (Hi & Hi' & Hv & o & Ho). rewrite Ho. some_bind.
  eexists 0, _. split; [done|]. split; [|left; do 2 (split; [done|]); by split]. by apply set_pin_ok.
Qed.

Lemma do_IRQ_ok s t cur vector o : 0x21 <= vector <= 0x2f -> hw_proc s !! Z.to_nat (vector - 0x20) = Some o ->
  (o = 0 -> do_IRQ s t cur vector = Some t) /\
  (forall d p, o <> 0 -> map_proc t o = Some d -> procs t !! d = Some p ->
    exists t', do_IRQ s t cur vector = Some t' /\ forall a q, procs t !! a = Some q -> procs t' !! a = Some (if a =? d then wake IPC_INTR (set_has_intr q 1) else q)).
Proof.
  intros Hv Ho. unfold do_IRQ, do_hwint. rewrite (proj2 (Z.leb_gt vector 0x10)), andb_false_r by lia. rewrite (proj2 (Z.leb_le 0x21 vector)), (proj2 (Z.leb_le vector 0x2f)) by lia. cbn [andb].
  rewrite Ho. some_bind. split; [by intros ->|]. intros d p Hn Hd Hp. rewrite (proj2 (Z.eqb_neq o 0) Hn).
  destruct (hwint_effect t cur o hw_message d p Hd Hp eq_refl) as (t' & -> & _ & L). some_bind. by exists t'.
Qed.

End Proofs.

(** ** Gates *)

(** The address that a gate transfers to. *)
Definition gate_addr (g : gate_struct) : Z := offset0 g + 2 ^ 16 * offset1 g + 2 ^ 32 * offset2 g.

Lemma addr_split a : 0 <= a < 2 ^ 64 -> Z.land a 0xffff + 2 ^ 16 * Z.land (Z.shiftr a 16) 0xffff + 2 ^ 32 * u32 (Z.shiftr a 32) = a.
Proof.
  intros Ha. change 0xffff with (Z.ones 16). rewrite !Z.land_ones, !Z.shiftr_div_pow2 by lia. unfold u32, uwrap.
  pose proof (Z.div_mod a (2 ^ 16) ltac:(lia)). pose proof (Z.div_mod (a / 2 ^ 16) (2 ^ 16) ltac:(lia)) as H2. rewrite Z.div_div in H2 by lia. change (2 ^ 16 * 2 ^ 16) with (2 ^ 32) in H2.
  rewrite (Z.mod_small (a / 2 ^ 32)) by (split; [apply Z.div_pos; lia|apply Z.div_lt_upper_bound; lia]). lia.
Qed.

Definition gate_for (address : routine -> Z) (old : gate_struct) (r : routine) (d : Z) (g : gate_struct) : Prop :=
  gate_addr g = address r /\ segment g = KERNEL_CODE_DESC /\ gate_type g = 0xe /\ dpl g = d /\ present g = 1 /\ ist g = ist old /\ zeros_of g = zeros_of old.

(** What the table has for a vector. *)
Fixpoint gate_of (l : list (Z * routine * Z)) (nr : Z) : option (routine * Z) :=
  match l with [] => None | (n, r, d) :: l => if n =? nr then Some (r, d) else gate_of l nr end.

Lemma setup_gates address l : forall idt nr, (forall r, 0 <= address r < 2 ^ 64) -> Forall (fun e => 0 <= e.2 < 4) l -> NoDup l.*1.*1 ->
  match gate_of l nr, idt !! nr with
  | Some (r, d), Some old => exists g, foldl (fun idt '(nr, r, d) => setup_idt_desc nr (address r) d idt) idt l !! nr = Some g /\ gate_for address old r d g
  | _, o => foldl (fun idt '(nr, r, d) => setup_idt_desc nr (address r) d idt) idt l !! nr = o
  end.
Proof.
  induction l as [|[[n r] d] l IH]; intros idt nr Ha Hd Hn; cbn [gate_of foldl]; [by destruct (idt !! nr)|].
  apply Forall_cons in Hd as [Hd Hl]. cbn in Hd, Hn. apply NoDup_cons in Hn as [Hnin Hn]. specialize (IH (setup_idt_desc n (address r) d idt) nr Ha Hl Hn).
  destruct (n =? nr) eqn:E; zbool.
  - subst n. assert (Hg : gate_of l nr = None).
    { clear -Hnin. induction l as [|[[n r'] d'] l IH]; cbn in *; [done|]. apply not_elem_of_cons in Hnin as [Hne Hn]. rewrite (proj2 (Z.eqb_neq _ _)) by congruence. by apply IH. }
    rewrite Hg in IH. rewrite (lookup_alter_eq _ idt nr : setup_idt_desc nr (address r) d idt !! nr = _) in IH. destruct (idt !! nr) as [old|]; [|done]. cbn in IH. eexists. split; [exact IH|].
    repeat split; [by apply addr_split|]. cbn. change 3 with (Z.ones 2). rewrite Z.land_ones by lia. by apply Z.mod_small.
  - rewrite (lookup_alter_ne _ idt n nr E : setup_idt_desc n (address r) d idt !! nr = _) in IH. exact IH.
Qed.

(** The gates.  After [setup_irq] the entry of every vector it names leads to its routine,
    with interrupts disabled, in the code segment of the kernel; a program can raise only 3,
    4 and 0x80 itself; and all other entries are as before. *)
Theorem setup_irq_correct address idt nr : (forall r, 0 <= address r < 2 ^ 64) ->
  match gate_of gates nr, idt !! nr with
  | Some (r, d), Some old => (exists g, setup_irq address idt !! nr = Some g /\ gate_for address old r d g) /\ (d = 3 <-> nr = 3 \/ nr = 4 \/ nr = 0x80) /\ (d = 0 \/ d = 3)
  | _, o => setup_irq address idt !! nr = o
  end.
Proof.
  intros Ha. pose proof (setup_gates address gates idt nr Ha ltac:(repeat constructor; cbn; lia) ltac:(apply (bool_decide_unpack _); vm_compute; exact I)) as H.
  destruct (gate_of gates nr) as [[r d]|] eqn:E; [|done]. destruct (idt !! nr) as [old|]; [|done]. split; [exact H|]. clear H.
  unfold gates, APIC_IRQ_SPURIOUS, APIC_IRQ_ERROR in E. cbn [gate_of] in E. repeat (match type of E with (if ?b then _ else _) = _ => destruct b eqn:? end; zbool; [injection E as <- <-; subst; lia|]). done.
Qed.

(** ** Witness: a controller with its registers in a map *)

#[local] Instance map_hardware : ApicHardware (Z * gmap Z Z) := {
  lapic_load _ d := (0, d);
  lapic_store _ _ d := d;
  io_load _ d := (default 0 (d.2 !! d.1), d);
  io_store off v d := if off =? IOREGSEL then (v, d.2) else if IOAPIC_REDTBL <=? d.1 then (d.1, <[d.1 := v]> d.2) else d;
  port_in _ d := (0, d);
  port_out _ _ d := d }.

#[local] Instance map_laws : ApicLaws (Z * gmap Z Z).
Proof.
  refine {| io_sel d := d.1; io_reg d r := default 0 (d.2 !! r) |}.
  - done.
  - intros v d Hd r. cbn. rewrite (proj2 (Z.leb_le _ _) Hd). cbn. destruct (r =? d.1) eqn:E; zbool; [subst r; by rewrite lookup_insert_eq|by rewrite lookup_insert_ne].
  - done.
Defined.

(** Before [ioapic_init], with the version register of a controller of [n] + 1 pins,
    whose last pin the firmware left with vector 8. *)
Definition cold (n : Z) : irqs (Z * gmap Z Z) :=
  mk_irqs (replicate 16 0) n (0, <[IOAPIC_REDTBL + 2 * n := 8]> {[IOAPIC_VER := Z.lor (Z.shiftl n 16) 0x11]}).

