(* ===== verification/Smp.v ===== *)
(** * The other processors: [boot/smp.c] and [boot/cpu.c]

    The boot processor starts the others one by one.  What a new processor needs, its
    number and its stack, is in the variables [current_boot_cpu] and [init_stack] that all
    processors share, and [smp_booting] tells the boot processor when it may change them.
    A wait is [nop], which is the instruction [hlt] ([cpu.h]), and runs with interrupts
    disabled: a boot processor that has to wait stops for good.  A state is the shared memory, the registers of the processors and where each of them
    is; the steps of the processors interleave. *)

From S2P Require Import Prelude Fork.

(** ** [cpu.c] *)

(** The fields of [struct tss_desc_struct]. *)
Record tss_desc := mk_desc { limit0 : Z; base0 : Z; base1 : Z; type_ : Z; dpl : Z; p_ : Z; limit1 : Z; g_ : Z; base2 : Z; base3 : Z }.

Definition setup_tss_desc (addr size : Z) : tss_desc :=
  mk_desc (Z.land size 0xffff) (Z.land addr 0xffff) (u8 (Z.land (Z.shiftr addr 16) 0xffff)) 0x9 0 1
    (Z.land (Z.shiftr size 16) 0xf) 0 (Z.land (Z.shiftr addr 24) 0xff) (u32 (Z.shiftr addr 32)).

(** How the processor reads a descriptor. *)
Definition desc_base (d : tss_desc) : Z := base0 d + base1 d * 2 ^ 16 + base2 d * 2 ^ 24 + base3 d * 2 ^ 32.
Definition desc_limit (d : tss_desc) : Z := limit0 d + limit1 d * 2 ^ 16.

Definition SIZEOF_TSS : Z := 232.
Definition IO_BITMAP_BASE : Z := 104.
Definition IO_BITMAP_SIZE : Z := 32.
Definition SIZEOF_CPU_INFO : Z := 24.
Definition GDT_TSS : Z := 48.

(** The fields of [struct tss_struct] that are set. *)
Record tss := mk_tss { rsp0 : Z; io_map_base : Z; io_bitmap : list Z }.

(** The registers of a processor that the code sets up. *)
Record regs := mk_regs { r_rsp : Z; r_tr : Z; r_gs : Z }.

(** ** The state *)

(** The boot processor in [smp_init] and [do_smp_boot]: at the head of the loop, waiting
    at the test of the delivery of the first and of the second message, at the test of
    [smp_booting], behind the loop, and stopped by [hlt] in a wait, before or after it started the
    processor. *)
Inductive bsp_pc := BNext (apicid : Z) | BInit (apicid : Z) | BStart (apicid : Z) | BWait (apicid : Z) | BDone | BHalt (apicid : Z) (started : bool).
(** Another processor: off, in the code of [smpboot.S] and [head.S], in [smp_boot_main],
    behind [cpu_init], and idle. *)
Inductive ap_pc := AOff | AHead | AMain | AInit | AIdle.

#[global] Instance bsp_pc_eq_dec : EqDecision bsp_pc.
Proof. solve_decision. Defined.
#[global] Instance ap_pc_eq_dec : EqDecision ap_pc.
Proof. solve_decision. Defined.

(** [proc_idle] without an entry is NULL; [pages] are the blocks that [__get_free_pages]
    returns next, [icr] the messages sent. *)
Record smp := mk_smp {
  smp_booting : bool; current_boot_cpu : Z; init_stack : Z; global_page_table : Z; boot_code : list Z;
  proc_idle : gmap Z Z; pages : list Z; init_tss : gmap Z tss; gdt_tss : gmap Z tss_desc; icr : list (Z * Z);
  bsp : bsp_pc; aps : gmap Z ap_pc; cpus : gmap Z regs }.

Section Smp.
(** Number of processors, the id of the boot processor, the addresses of [init_tss] and
    [cpu_info], the root table and the code of [smpboot.S]. *)
Variables (nr_cpu boot_apic_id tss_base cpu_info pgd : Z) (smp_boot : list Z).

Definition tss_addr (i : Z) : Z := tss_base + SIZEOF_TSS * i.

(** [cpu_init] on the processor [id]. *)
Definition cpu_init (id : Z) (s : smp) : smp :=
  let cur := current_boot_cpu s in
  mk_smp (smp_booting s) cur (init_stack s) (global_page_table s) (boot_code s) (proc_idle s) (pages s)
    (<[cur := mk_tss (init_stack s) IO_BITMAP_BASE (replicate (Z.to_nat IO_BITMAP_SIZE) 0xffffffff)]> (init_tss s))
    (<[cur := setup_tss_desc (tss_addr cur) SIZEOF_TSS]> (gdt_tss s)) (icr s) (bsp s) (aps s)
    (<[id := mk_regs (from_option r_rsp 0 (cpus s !! id)) (GDT_TSS + 16 * cur) (cpu_info + SIZEOF_CPU_INFO * cur)]> (cpus s)).

(** ** The boot processor *)

Definition set_bsp (pc : bsp_pc) (s : smp) : smp := mk_smp (smp_booting s) (current_boot_cpu s) (init_stack s) (global_page_table s) (boot_code s) (proc_idle s) (pages s) (init_tss s) (gdt_tss s) (icr s) pc (aps s) (cpus s).
Definition set_ap (id : Z) (pc : ap_pc) (s : smp) : smp := mk_smp (smp_booting s) (current_boot_cpu s) (init_stack s) (global_page_table s) (boot_code s) (proc_idle s) (pages s) (init_tss s) (gdt_tss s) (icr s) (bsp s) (<[id := pc]> (aps s)) (cpus s).
Definition ap_of (s : smp) (id : Z) : ap_pc := default AOff (aps s !! id).

Definition APIC_ICR_INIT : Z := 0x500 + 0x8000 + 0x4000.
Definition APIC_ICR_STARTUP : Z := 0x600 + 0x8.

(** [smp_init] before its loop. *)
Definition smp_init (s : smp) : smp :=
  if nr_cpu <=? 1 then set_bsp BDone s
  else mk_smp (smp_booting s) (current_boot_cpu s) (init_stack s) (to_phy pgd) smp_boot (proc_idle s) (pages s) (init_tss s) (gdt_tss s) (icr s) (BNext 0) (aps s) (cpus s).

(** [do_smp_boot] with [make_idle] up to the first wait; NULL as the new idle process
    faults. *)
Definition do_smp_boot (id : Z) (s : smp) : option smp :=
  r ← match proc_idle s !! id with
      | Some idle => Some (idle, proc_idle s, pages s)
      | None => match pages s with idle :: rest => if idle =? 0 then None else Some (idle, <[id := idle]> (proc_idle s), rest) | [] => None end
      end;
  let '(idle, idles, rest) := r in
  Some (mk_smp true id (idle + KERNEL_STACK_SIZE - 8) (global_page_table s) (boot_code s) idles rest (init_tss s) (gdt_tss s) (icr s ++ [(id, APIC_ICR_INIT)]) (BInit id) (aps s) (cpus s)).

(** The second message starts a processor that is there and off. *)
Definition send_startup (id : Z) (s : smp) : smp :=
  let s := mk_smp (smp_booting s) (current_boot_cpu s) (init_stack s) (global_page_table s) (boot_code s) (proc_idle s) (pages s) (init_tss s) (gdt_tss s) (icr s ++ [(id, APIC_ICR_STARTUP)]) (BStart id) (aps s) (cpus s) in
  match aps s !! id with Some AOff => set_ap id AHead s | _ => s end.

(** A step; [busy] is the delivery status that the local APIC answers. *)
Definition bsp_step (busy : bool) (s : smp) : option smp :=
  match bsp s with
  | BNext id =>
      if negb (id <? nr_cpu) then Some (set_bsp BDone s)
      else if id =? boot_apic_id then Some (set_bsp (BNext (id + 1)) s)
      else do_smp_boot id s
  | BInit id => if busy then Some (set_bsp (BHalt id false) s) else Some (send_startup id s)
  | BStart id => if busy then Some (set_bsp (BHalt id true) s) else Some (set_bsp (BWait id) s)
  | BWait id => if smp_booting s then Some (set_bsp (BHalt id true) s) else Some (set_bsp (BNext (id + 1)) s)
  | BDone | BHalt _ _ => None
  end.

(** ** The new processor *)

(** [head.S] takes the stack from [init_stack]; [smp_boot_main] calls [cpu_init], sets up
    its interrupts and clears [smp_booting]. *)
Definition ap_step (id : Z) (s : smp) : option smp :=
  match ap_of s id with
  | AHead => Some (set_ap id AMain (mk_smp (smp_booting s) (current_boot_cpu s) (init_stack s) (global_page_table s) (boot_code s) (proc_idle s) (pages s) (init_tss s) (gdt_tss s) (icr s) (bsp s) (aps s) (<[id := mk_regs (init_stack s) 0 0]> (cpus s))))
  | AMain => Some (set_ap id AInit (cpu_init id s))
  | AInit => Some (set_ap id AIdle (mk_smp false (current_boot_cpu s) (init_stack s) (global_page_table s) (boot_code s) (proc_idle s) (pages s) (init_tss s) (gdt_tss s) (icr s) (bsp s) (aps s) (cpus s)))
  | AOff | AIdle => None
  end.

Inductive step : smp -> smp -> Prop :=
| step_bsp busy s s' : bsp_step busy s = Some s' -> step s s'
| step_ap id s s' : ap_step id s = Some s' -> step s s'.

(** ** What holds *)

(** The first state: the boot processor went through [cpu_init] on the stack of the first
    idle process [idle0]; the processors of [present] are off. *)
Definition boot_state (idle0 : Z) (free : list Z) (present : list Z) : smp :=
  cpu_init boot_apic_id (mk_smp false 0 (idle0 + KERNEL_STACK_SIZE - 8) 0 [] {[0 := idle0]} free ∅ ∅ [] BDone (list_to_map ((fun i => (i, AOff)) <$> present)) {[boot_apic_id := mk_regs (idle0 + KERNEL_STACK_SIZE - 8) 0 0]}).

(** The slot of a processor and its registers. *)
Definition slot_regs (a id : Z) : regs := mk_regs (a + KERNEL_STACK_SIZE - 8) (GDT_TSS + 16 * id) (cpu_info + SIZEOF_CPU_INFO * id).
Definition slot (s : smp) (a id : Z) : Prop :=
  init_tss s !! id = Some (mk_tss (a + KERNEL_STACK_SIZE - 8) IO_BITMAP_BASE (replicate (Z.to_nat IO_BITMAP_SIZE) 0xffffffff)) /\ gdt_tss s !! id = Some (setup_tss_desc (tss_addr id) SIZEOF_TSS).
Definition own (s : smp) (id : Z) : Prop := exists a, proc_idle s !! id = Some a /\ cpus s !! id = Some (slot_regs a id) /\ slot s a id.

Definition up (pc : ap_pc) : Prop := pc = AInit \/ pc = AIdle.
Definition bound (pc : bsp_pc) : Z := match pc with BNext n | BInit n | BStart n | BWait n | BHalt n _ => n | BDone => nr_cpu end.
Definition current (pc : bsp_pc) : option Z := match pc with BInit n | BStart n | BWait n | BHalt n _ => Some n | _ => None end.
Definition needed (pc : bsp_pc) : Z := match pc with BNext n => nr_cpu - n | BInit n | BStart n | BWait n | BHalt n _ => nr_cpu - n - 1 | BDone => 0 end.
(** Before the message that starts the processor. *)
Definition not_started (pc : bsp_pc) : bool := match pc with BInit _ | BHalt _ false => true | _ => false end.
Definition halted (s : smp) : Prop := exists n st, bsp s = BHalt n st.
Definition member (id : Z) : Prop := 0 <= id < nr_cpu /\ id <> boot_apic_id.

Record inv (idle0 : Z) (s : smp) : Prop := {
  i_inj : forall i j a, proc_idle s !! i = Some a -> proc_idle s !! j = Some a -> i = j;
  i_fresh : forall i a, proc_idle s !! i = Some a -> a ∉ pages s;
  i_pages : NoDup (pages s) /\ Forall (fun a => a <> 0) (pages s) /\ needed (bsp s) <= Z.of_nat (length (pages s));
  i_boot : proc_idle s !! 0 = Some idle0 /\ cpus s !! boot_apic_id = Some (slot_regs idle0 0) /\ slot s idle0 0;
  i_up : forall id, up (ap_of s id) -> own s id;
  i_main : forall id, ap_of s id = AMain -> from_option r_rsp 0 (cpus s !! id) = init_stack s;
  i_member : forall id, is_Some (aps s !! id) <-> member id;
  i_past : forall id, 0 <= id < bound (bsp s) -> id <> boot_apic_id -> ap_of s id = AIdle;
  i_future : forall id, bound (bsp s) <= id -> current (bsp s) <> Some id -> ap_of s id = AOff;
  i_bound : 0 <= bound (bsp s) <= nr_cpu;
  i_cur : forall n, current (bsp s) = Some n -> member n /\ current_boot_cpu s = n /\ (exists a, proc_idle s !! n = Some a /\ init_stack s = a + KERNEL_STACK_SIZE - 8) /\
    (smp_booting s = false <-> ap_of s n = AIdle) /\ (ap_of s n = AOff <-> not_started (bsp s) = true) }.

Lemma ap_of_set id pc s j : ap_of (set_ap id pc s) j = if decide (j = id) then pc else ap_of s j.
Proof. unfold ap_of, set_ap. cbn [aps]. case_decide; subst; [by rewrite lookup_insert_eq|by rewrite lookup_insert_ne]. Qed.

Lemma off_member s id : ap_of s id <> AOff -> is_Some (aps s !! id).
Proof. unfold ap_of. destruct (aps s !! id); [by eexists|done]. Qed.

Lemma not_member_off idle0 s id : inv idle0 s -> ~ member id -> ap_of s id = AOff.
Proof. intros Hi Hn. destruct (decide (ap_of s id = AOff)) as [|H]; [done|]. apply off_member in H. by apply (i_member _ _ Hi) in H. Qed.

Lemma next_keeps idle0 s n : inv idle0 s -> bsp s = BNext n -> n = boot_apic_id \/ nr_cpu <= n -> inv idle0 (set_bsp (if n <? nr_cpu then BNext (n + 1) else BDone) s).
Proof.
  intros Hi Eb Hn. assert (Hoff : forall id, ~ member id -> ap_of s id = AOff) by (intros id; by apply (not_member_off idle0)). destruct Hi as [V1 V2 (V3 & V4 & V5) V6 V7 V8 V9 V10 V11 V12 V13]. rewrite Eb in *. cbn [bound current needed] in *.
  case_if; zbool; (split; cbn [set_bsp bsp bound current needed proc_idle pages]; try done; [split; [done|split; [done|lia]]| | |lia]).
  - intros id Hid Hne. apply V10; [lia|done].
  - intros id Hid _. by apply V11; [lia|].
  - intros id Hid Hne. apply V10; [lia|done].
  - intros id Hid _. apply Hoff. intros [? _]. lia.
Qed.

Lemma boot_keeps idle0 s s' n : inv idle0 s -> bsp s = BNext n -> member n -> do_smp_boot n s = Some s' -> inv idle0 s'.
Proof.
  intros [V1 V2 (V3 & V4 & V5) V6 V7 V8 V9 V10 V11 V12 V13] Eb Hm E. rewrite Eb in *. cbn [bound current needed] in *. unfold do_smp_boot in E. apply option.bind_Some in E as ([[a idles] rest] & Er & E). injection E as <-.
  assert (Hn : ap_of s n = AOff) by (by apply V11). assert (Hnm : ap_of s boot_apic_id <> AOff -> False) by (intros H; apply off_member, V9 in H; by destruct H).
  assert (Hidle : idles !! n = Some a /\ (forall j, j <> n -> idles !! j = proc_idle s !! j) /\ (forall i b, idles !! i = Some b -> b ∉ rest) /\ NoDup rest /\ Forall (fun x => x <> 0) rest /\ nr_cpu - n - 1 <= Z.of_nat (length rest) /\
    (forall i j b, idles !! i = Some b -> idles !! j = Some b -> i = j) /\ forall j b, proc_idle s !! j = Some b -> idles !! j = Some b).
  { destruct (proc_idle s !! n) as [b|] eqn:Ei.
    - injection Er as <- <- <-. do 5 (split; [done|]). split; [lia|]. done.
    - destruct (pages s) as [|p ps] eqn:Ep; [done|]. case_in Er; [done|]. injection Er as <- <- <-. apply NoDup_cons in V3 as [Vp V3]. apply Forall_cons in V4 as [_ V4].
      split; [apply lookup_insert_eq|]. split; [intros j Hj; by rewrite lookup_insert_ne|].
      assert (Hnew : forall i b, <[n := p]> (proc_idle s) !! i = Some b -> i = n /\ b = p \/ i <> n /\ proc_idle s !! i = Some b) by (intros i b Hi; apply lookup_insert_Some in Hi as [[<- <-]|[Hne Hi]]; [by left|by right]).
      split; [intros i b [[-> ->]|[_ H]]%Hnew; [done|]; apply V2 in H; set_solver|]. split; [done|]. split; [done|]. split; [cbn [length] in V5; lia|]. split.
      + intros i j b [[-> ->]|[Hi1 Hi2]]%Hnew [[-> Hb]|[Hj1 Hj2]]%Hnew; try done; [| |by apply (V1 i j b)]; exfalso; [apply V2 in Hj2|subst b; apply V2 in Hi2]; set_solver.
      + intros j b Hj. rewrite lookup_insert_ne; [done|congruence]. }
  destruct Hidle as (I1 & I2 & I3 & I4 & I5 & I6 & I7 & I8). split; cbn [bsp bound current needed proc_idle pages cpus init_tss gdt_tss aps smp_booting current_boot_cpu init_stack]; try done.
  - destruct V6 as (B1 & B2 & B3). split; [by apply I8|done].
  - intros id Hu. destruct (V7 id Hu) as (b & H1 & H2). exists b. split; [by apply I8|done].
  - intros id H. change (ap_of s id = AMain) in H. assert (ap_of s id <> AMain); [|done]. destruct (decide (n <= id)) as [|Hlt]; [by rewrite V11|]. destruct (decide (0 <= id /\ id <> boot_apic_id)) as [[? ?]|Hno]; [rewrite V10 by (done || lia); done|].
    assert (Ho : ap_of s id = AOff); [|by rewrite Ho]. destruct (decide (ap_of s id = AOff)) as [|Hx]; [done|]. apply off_member, V9 in Hx. destruct Hx as [? ?]. tauto || lia.
  - intros id Hid Hc. by apply V11.
  - intros k [= <-]. split; [done|]. split; [done|]. split; [by exists a|]. change (ap_of _ n) with (ap_of s n). rewrite Hn. split; done.
Qed.

Lemma startup_keeps idle0 s n : inv idle0 s -> bsp s = BInit n -> inv idle0 (send_startup n s).
Proof.
  intros [V1 V2 (V3 & V4 & V5) V6 V7 V8 V9 V10 V11 V12 V13] Eb. rewrite Eb in *. cbn [bound current needed] in *. destruct (V13 n eq_refl) as (Hm & Hc & Hs & Hb & Hoff).
  assert (Hn : ap_of s n = AOff) by (by apply Hoff). unfold send_startup. cbn [aps]. assert (En : aps s !! n = Some AOff) by (destruct (proj2 (V9 n) Hm) as [pc Hpc]; unfold ap_of in Hn; rewrite Hpc in *; cbn in Hn; by subst).
  rewrite En. set (s1 := mk_smp _ _ _ _ _ _ _ _ _ _ _ _ _). assert (Ha : forall id, ap_of (set_ap n AHead s1) id = if decide (id = n) then AHead else ap_of s id) by (intros id; by rewrite ap_of_set).
  split; try (intros id; rewrite ?Ha); cbn [set_ap s1 bsp bound current needed proc_idle pages cpus init_tss gdt_tss aps smp_booting current_boot_cpu init_stack]; try done.
  - exact (V1 id).
  - exact (V2 id).
  - case_decide; [by intros [?|?]|by apply V7].
  - case_decide; [done|by apply V8].
  - rewrite <- V9. destruct (decide (id = n)) as [->|Hne]; [rewrite lookup_insert_eq, En; split; by eexists|by rewrite lookup_insert_ne].
  - intros Hid Hne. rewrite decide_False by lia. by apply V10.
  - intros Hid Hcur. case_decide; [by subst|]. by apply V11.
  - intros [= <-]. rewrite decide_True by done. split; [done|]. split; [done|]. split; [done|]. split; [|done]. rewrite Hb, Hn. done.
Qed.

(** The steps that only move on. *)
Lemma move_keeps idle0 s n pc : inv idle0 s -> current (bsp s) = Some n -> current pc = Some n -> not_started pc = not_started (bsp s) -> inv idle0 (set_bsp pc s).
Proof.
  intros [V1 V2 V3 V6 V7 V8 V9 V10 V11 V12 V13] Eb Ep En.
  assert (Hb : bound pc = bound (bsp s) /\ needed pc = needed (bsp s)) by (destruct pc, (bsp s); cbn in *; simplify_eq; done). destruct Hb as [Hb Hn].
  split; cbn [set_bsp bsp proc_idle pages]; rewrite ?Hb, ?Hn, ?En, ?Ep, ?Eb in *; try done.
Qed.

Lemma done_keeps idle0 s n : inv idle0 s -> bsp s = BWait n -> smp_booting s = false -> inv idle0 (set_bsp (BNext (n + 1)) s).
Proof.
  intros [V1 V2 (V3 & V4 & V5) V6 V7 V8 V9 V10 V11 V12 V13] Eb Hf. rewrite Eb in *. cbn [bound current needed] in *. destruct (V13 n eq_refl) as (Hm & _ & _ & Hb & _). assert (Hn : ap_of s n = AIdle) by (by apply Hb).
  split; cbn [set_bsp bsp bound current needed proc_idle pages]; try done.
  - split; [done|]. split; [done|lia].
  - intros id Hid Hne. destruct (decide (id = n)) as [->|]; [done|]. apply V10; [lia|done].
  - intros id Hid _. apply V11; [lia|]. intros [= ->]. lia.
  - destruct Hm. lia.
Qed.

(** Only the processor that is being started moves. *)
Lemma mover idle0 s id s' : inv idle0 s -> ap_step id s = Some s' -> current (bsp s) = Some id.
Proof.
  intros Hi E. destruct (decide (current (bsp s) = Some id)) as [|Hc]; [done|]. exfalso. unfold ap_step in E.
  assert (H : ap_of s id = AOff \/ ap_of s id = AIdle); [|by destruct H as [H|H]; rewrite H in E]. destruct (decide (bound (bsp s) <= id)) as [Hb|Hb]; [left; by apply (i_future _ _ Hi)|].
  destruct (decide (member id)) as [[H1 H2]|Hm]; [right; apply (i_past _ _ Hi); [lia|done]|left; by apply (not_member_off idle0)].
Qed.

Lemma ap_keeps idle0 s id s' : inv idle0 s -> ap_step id s = Some s' -> inv idle0 s'.
Proof.
  intros Hi E. pose proof (mover idle0 s id s' Hi E) as Hc. destruct Hi as [V1 V2 V3 V6 V7 V8 V9 V10 V11 V12 V13]. destruct (V13 id Hc) as (Hm & Hcur & (a & Ha & Hst) & Hb & Hoff).
  assert (Hbound : bound (bsp s) = id) by (by destruct (bsp s) as [n|n|n|n| |n st]; cbn in *; congruence). destruct V6 as (B1 & B2 & B3).
  assert (Hnb : boot_apic_id <> id) by (by destruct Hm as [_ Hm]; congruence). assert (Hin : is_Some (aps s !! id)) by (by apply V9).
  assert (Hmem : forall j pc, is_Some (<[id := pc]> (aps s) !! j) <-> member j) by (intros j pc; rewrite <- V9; destruct (decide (j = id)) as [->|Hne]; [rewrite lookup_insert_eq; split; [done|by eexists]|by rewrite lookup_insert_ne]).
  assert (Hni : not_started (bsp s) <> true) by (intros H; apply Hoff in H; unfold ap_step in E; by rewrite H in E).
  unfold ap_step in E. destruct (ap_of s id) eqn:Ea; try done; injection E as <-;
    (split; try (intros j; rewrite ?ap_of_set); cbn [set_ap cpu_init bsp bound current needed proc_idle pages cpus init_tss gdt_tss aps smp_booting current_boot_cpu init_stack]; try done;
     try exact (V1 j); try exact (V2 j); try (by apply Hmem);
     try (intros Hj Hne; rewrite decide_False by lia; by apply V10);
     try (intros Hj Hne; rewrite decide_False by congruence; by apply V11);
     try (rewrite Hc; intros [= <-]; rewrite decide_True by done; split; [done|]; split; [done|]; split; [by exists a|]; split; [first [done | rewrite Hb; done]|done])).
  - split; [done|]. split; [by rewrite lookup_insert_ne|done].
  - case_decide; [by intros [?|?]|]. intros Hu. destruct (V7 j Hu) as (b & H1 & H2 & H3). exists b. split; [done|]. split; [|done]. cbn [set_ap cpu_init cpus]. by rewrite lookup_insert_ne.
  - case_decide; [subst; intros _; by rewrite lookup_insert_eq|]. intros Hj. rewrite lookup_insert_ne by done. by apply V8.
  - split; [done|]. split; [by rewrite lookup_insert_ne|]. unfold slot. cbn [set_ap cpu_init init_tss gdt_tss]. rewrite Hcur. destruct (decide (id = 0)) as [->|Hne]; [rewrite !lookup_insert_eq; rewrite Hst; by simplify_eq|by rewrite !lookup_insert_ne].
  - case_decide.
    + subst j. intros _. exists a. cbn [set_ap cpu_init proc_idle cpus]. split; [done|]. rewrite lookup_insert_eq, Hcur, (V8 id Ea), Hst. split; [done|]. unfold slot. cbn [set_ap cpu_init init_tss gdt_tss]. by rewrite Hcur, !lookup_insert_eq, Hst.
    + intros Hu. destruct (V7 j Hu) as (b & H1 & H2 & H3). exists b. split; [done|]. cbn [set_ap cpu_init cpus]. rewrite lookup_insert_ne by done. split; [done|]. unfold slot. cbn [set_ap cpu_init init_tss gdt_tss]. rewrite Hcur. by rewrite !lookup_insert_ne.
  - case_decide; [done|]. intros Hj. rewrite lookup_insert_ne by done. by apply V8.
  - case_decide; [subst; intros _; apply V7; by left|]. apply V7.
  - case_decide; [done|]. apply V8.
Qed.

Lemma step_keeps idle0 s s' : inv idle0 s -> step s s' -> inv idle0 s'.
Proof.
  intros Hi Hs. revert Hi. destruct Hs as [busy s1 s2 E|id s1 s2 E]; intros Hi; [|by eapply ap_keeps]. unfold bsp_step in E. destruct (bsp s1) as [n|n|n|n| |n st] eqn:Eb; [| | | |done|done].
  - case_in E; zbool; [injection E as <-; pose proof (next_keeps idle0 s1 n Hi Eb ltac:(right; lia)) as H; by rewrite (proj2 (Z.ltb_ge n nr_cpu)) in H|]. case_in E; zbool.
    + injection E as <-. pose proof (next_keeps idle0 s1 n Hi Eb ltac:(by left)) as H. by rewrite (proj2 (Z.ltb_lt n nr_cpu)) in H.
    + eapply boot_keeps; [done|done| |done]. pose proof (i_bound _ _ Hi) as Hb. rewrite Eb in Hb. cbn in Hb. split; [lia|done].
  - case_in E; injection E as <-; [by apply (move_keeps idle0 s1 n); rewrite ?Eb|by apply startup_keeps].
  - case_in E; injection E as <-; by apply (move_keeps idle0 s1 n); rewrite ?Eb.
  - case_in E; injection E as <-; [by apply (move_keeps idle0 s1 n); rewrite ?Eb|by apply done_keeps].
Qed.

(** ** Progress *)

Definition ap_rank (pc : ap_pc) : Z := match pc with AOff | AHead => 3 | AMain => 2 | AInit => 1 | AIdle => 0 end.
Definition rank (s : smp) : Z :=
  match bsp s with
  | BNext n => 10 * (nr_cpu + 1 - n) + 9
  | BInit n => 10 * (nr_cpu + 1 - n) + 8
  | BStart n => 10 * (nr_cpu + 1 - n) + 4 + ap_rank (ap_of s n)
  | BWait n => 10 * (nr_cpu + 1 - n) + ap_rank (ap_of s n)
  | BDone => 0
  | BHalt n started => if started then ap_rank (ap_of s n) else 0
  end.

Lemma ap_rank_bounds pc : 0 <= ap_rank pc <= 3.
Proof. destruct pc; cbn; lia. Qed.

Lemma ap_step_rank id s s' : ap_step id s = Some s' -> bsp s' = bsp s /\ ap_rank (ap_of s' id) < ap_rank (ap_of s id).
Proof. unfold ap_step. intros E. destruct (ap_of s id) eqn:Ea; try done; injection E as <-; rewrite ap_of_set, decide_True by done; done. Qed.

Lemma step_rank idle0 s s' : inv idle0 s -> step s s' -> 0 <= rank s' < rank s.
Proof.
  intros Hi Hs. revert Hi. destruct Hs as [busy s s' E|id s s' E]; intros Hi; pose proof (i_bound _ _ Hi) as Hle.
  - assert (Hmem : forall n, current (bsp s) = Some n -> n < nr_cpu) by (intros n Hc; destruct (i_cur _ _ Hi n Hc) as ([? _] & _); lia).
    assert (Ha : forall n pc, 0 <= ap_rank (ap_of (set_bsp pc s) n) <= 3) by (intros; apply ap_rank_bounds). pose proof (fun n => ap_rank_bounds (ap_of s n)) as Ha'.
    unfold bsp_step in E. unfold rank. destruct (bsp s) as [n|n|n|n| |n st] eqn:Eb; [| | | |done|done]; cbn [bound current] in *.
    + case_in E; [injection E as <-; cbn; lia|]. zbool. case_in E; [injection E as <-; cbn [set_bsp bsp]; lia|]. unfold do_smp_boot in E. apply option.bind_Some in E as ([[a i] r] & _ & E). injection E as <-. cbn [bsp]. lia.
    + specialize (Hmem n eq_refl). case_in E; injection E as <-; [cbn [set_bsp bsp]; lia|]. assert (Hb : bsp (send_startup n s) = BStart n) by (unfold send_startup; cbn [aps]; by destruct (aps s !! n) as [[]|]). rewrite Hb. pose proof (ap_rank_bounds (ap_of (send_startup n s) n)). lia.
    + specialize (Hmem n eq_refl). case_in E; injection E as <-; cbn [set_bsp bsp]; change (ap_of (set_bsp _ s) n) with (ap_of s n); specialize (Ha' n); lia.
    + specialize (Hmem n eq_refl). case_in E; injection E as <-; cbn [set_bsp bsp]; change (ap_of (set_bsp _ s) n) with (ap_of s n); specialize (Ha' n); lia.
  - pose proof (mover idle0 s id s' Hi E) as Hc. destruct (ap_step_rank id s s' E) as [Hb Hr]. unfold rank. rewrite Hb. pose proof (ap_rank_bounds (ap_of s' id)). destruct (i_cur _ _ Hi id Hc) as ([? _] & _ & _ & _ & Hoff).
    assert (Hst : not_started (bsp s) <> true) by (intros Hx; unfold ap_step in E; by rewrite (proj2 Hoff Hx) in E).
    destruct (bsp s) as [n|n|n|n| |n []] eqn:Eb; cbn in Hc, Hst; try done; injection Hc as ->; lia.
Qed.

(** A boot processor that did not stop can go on without stopping: the new processor
    goes first. *)
Lemma can_go_on idle0 s : inv idle0 s -> bsp s <> BDone -> ~ halted s -> exists s', step s s' /\ ~ halted s'.
Proof.
  intros Hi Hn Hh. destruct (bsp s) as [n|n|n|n| |n st] eqn:Eb; [| | | |done|by destruct Hh; exists n, st].
  - destruct (bsp_step false s) as [s'|] eqn:E.
    + exists s'. split; [by apply (step_bsp false)|]. unfold bsp_step in E. rewrite Eb in E. case_in E; [injection E as <-; by intros (? & ? & ?)|]. case_in E; [injection E as <-; by intros (? & ? & ?)|].
      unfold do_smp_boot in E. apply option.bind_Some in E as ([[a i] r] & _ & E). injection E as <-. by intros (? & ? & ?).
    + exfalso. unfold bsp_step in E. rewrite Eb in E. case_in E; [done|]. case_in E; [done|]. zbool. unfold do_smp_boot in E.
      destruct (proc_idle s !! n); [done|]. pose proof (i_pages _ _ Hi) as (_ & Hp & Hl). rewrite Eb in Hl. cbn [needed] in Hl. destruct (pages s) as [|p ps]; [cbn in Hl; lia|]. apply Forall_cons in Hp as [Hp _]. by rewrite (proj2 (Z.eqb_neq p 0) Hp) in E.
  - eexists. split; [apply (step_bsp false); unfold bsp_step; by rewrite Eb|]. assert (Hb : bsp (send_startup n s) = BStart n) by (unfold send_startup; cbn [aps]; by destruct (aps s !! n) as [[]|]). intros (? & ? & Hx). by rewrite Hb in Hx.
  - eexists. split; [apply (step_bsp false); unfold bsp_step; by rewrite Eb|]. by intros (? & ? & ?).
  - destruct (smp_booting s) eqn:Es; [|eexists; split; [apply (step_bsp false); unfold bsp_step; by rewrite Eb, Es|by intros (? & ? & ?)]].
    destruct (i_cur _ _ Hi n) as (_ & _ & _ & Hb & Hoff); [by rewrite Eb|].
    destruct (ap_step n s) as [s'|] eqn:E; [exists s'; split; [by apply (step_ap n)|]; destruct (ap_step_rank n s s' E) as [Hx _]; intros (? & ? & Hy); by rewrite Hx, Eb in Hy|].
    exfalso. unfold ap_step in E. destruct (ap_of s n) eqn:Ea; try done; [by rewrite Eb in Hoff; apply proj1 in Hoff; specialize (Hoff eq_refl)|].
    rewrite Es in Hb. by apply proj2 in Hb; specialize (Hb eq_refl).
Qed.

Lemma can_finish idle0 s : inv idle0 s -> ~ halted s -> exists s', rtc step s s' /\ bsp s' = BDone.
Proof.
  remember (Z.to_nat (rank s)) as m eqn:Em. revert s Em. induction (lt_wf m) as [m _ IH]. intros s -> Hi Hh.
  destruct (decide (bsp s = BDone)) as [Hd|Hd]; [by exists s|]. destruct (can_go_on idle0 s Hi Hd Hh) as (s1 & Hs & Hh1). pose proof (step_rank idle0 s s1 Hi Hs) as Hr.
  destruct (IH (Z.to_nat (rank s1)) ltac:(lia) s1 eq_refl (step_keeps idle0 s s1 Hi Hs) Hh1) as (s' & Hs' & Hd'). exists s'. split; [by eapply rtc_l|done].
Qed.

(** A stopped boot processor stays so, and the processors behind the one it started stay off. *)
Lemma halted_stays idle0 s s' n st : inv idle0 s -> bsp s = BHalt n st -> rtc step s s' -> bsp s' = BHalt n st /\ forall id, n < id -> ap_of s' id = AOff.
Proof.
  intros Hi Hb Hr. revert Hi Hb. induction Hr as [s|s s1 s2 Hs _ IH]; intros Hi Hb.
  - split; [done|]. intros id Hid. apply (i_future _ _ Hi); rewrite Hb; cbn; [lia|]. intros [= ->]. lia.
  - apply IH; [by eapply step_keeps|]. destruct Hs as [busy s s1 E|id s s1 E]; [unfold bsp_step in E; by rewrite Hb in E|]. destruct (ap_step_rank id s s1 E) as [Hx _]. by rewrite Hx.
Qed.

(** Where it stops: at the wait for a processor that is not yet up. *)
Lemma wait_test idle0 s n busy : inv idle0 s -> bsp s = BWait n ->
  exists s', bsp_step busy s = Some s' /\ (bsp s' = BHalt n true <-> ap_of s n <> AIdle) /\ (bsp s' = BNext (n + 1) <-> ap_of s n = AIdle).
Proof.
  intros Hi Eb. destruct (i_cur _ _ Hi n) as (_ & _ & _ & Hb & _); [by rewrite Eb|]. unfold bsp_step. rewrite Eb.
  destruct (smp_booting s); (eexists; split; [reflexivity|]); cbn [set_bsp bsp].
  - assert (Hn : ap_of s n <> AIdle) by (intros Hx; by apply Hb in Hx). split; split; done.
  - assert (Hn : ap_of s n = AIdle) by (by apply Hb). split; split; done.
Qed.

(** ** The start *)

Definition others : list Z := filter (fun i => i <> boot_apic_id) (seqZ 0 nr_cpu).

Lemma others_member id : id ∈ others <-> member id.
Proof. unfold others, member. rewrite list_elem_of_filter, elem_of_seqZ. lia. Qed.

Lemma off_lookup (l : list Z) id : (list_to_map ((fun i => (i, AOff)) <$> l) : gmap Z ap_pc) !! id = if decide (id ∈ l) then Some AOff else None.
Proof.
  induction l as [|x l IH]; cbn [fmap list_fmap list_to_map foldr]; [by rewrite lookup_empty|]. destruct (decide (id = x)) as [->|Hne].
  - cbn [uncurry]. rewrite lookup_insert_eq, decide_True by set_solver. done.
  - cbn [uncurry]. rewrite lookup_insert_ne, IH by done. destruct (decide (id ∈ l)); [by rewrite decide_True by set_solver|by rewrite decide_False by set_solver].
Qed.

Lemma start_inv idle0 free : 1 < nr_cpu -> NoDup (idle0 :: free) -> Forall (fun a => a <> 0) free -> nr_cpu <= Z.of_nat (length free) -> inv idle0 (smp_init (boot_state idle0 free others)).
Proof.
  intros Hnr [Hf Hd]%NoDup_cons Hz Hl. unfold smp_init. rewrite (proj2 (Z.leb_gt nr_cpu 1)) by done.
  set (s0 := boot_state idle0 free others). assert (Hap : forall id, default AOff (aps s0 !! id) = AOff) by (intros id; unfold s0, boot_state, cpu_init; cbn [aps]; rewrite off_lookup; by case_decide).
  split; unfold ap_of; try (intros id; rewrite ?Hap); cbn [s0 boot_state cpu_init bsp bound current needed proc_idle pages cpus init_tss gdt_tss aps smp_booting current_boot_cpu init_stack]; try done.
  - intros j a [<- <-]%lookup_singleton_Some [<- _]%lookup_singleton_Some. done.
  - intros a [_ <-]%lookup_singleton_Some. done.
  - split; [done|]. split; [done|lia].
  - split; [apply lookup_singleton_eq|]. split; [rewrite lookup_insert_eq; by rewrite lookup_singleton_eq|]. unfold slot. cbn [init_tss gdt_tss]. by rewrite !lookup_insert_eq.
  - by intros [?|?].
  - rewrite off_lookup, <- others_member. case_decide as Hc; split; try done; by eexists.
  - lia.
  - lia.
Qed.

(** A schedule: the boot processor, whose messages are delivered at once, or another one. *)
Fixpoint run (l : list (option Z)) (s : smp) : option smp :=
  match l with
  | [] => Some s
  | None :: l => s ← bsp_step false s; run l s
  | Some id :: l => s ← ap_step id s; run l s
  end.

Lemma run_steps l : forall s s', run l s = Some s' -> rtc step s s'.
Proof.
  induction l as [|[id|] l IH]; intros s s' E; cbn [run] in E; [by injection E as <-|apply option.bind_Some in E as (s1 & E1 & E); eapply rtc_l; [|by apply IH]..]; [by apply (step_ap id)|by apply (step_bsp false)].
Qed.

Lemma tss_desc_ok addr size : 0 <= addr < 2 ^ 64 -> 0 <= size < 2 ^ 20 -> desc_base (setup_tss_desc addr size) = addr /\ desc_limit (setup_tss_desc addr size) = size.
Proof.
  intros Ha Hs. unfold desc_base, desc_limit, setup_tss_desc. cbn [base0 base1 base2 base3 limit0 limit1]. change 0xffff with (Z.ones 16). change 0xff with (Z.ones 8). change 0xf with (Z.ones 4).
  rewrite !Z.land_ones, !Z.shiftr_div_pow2 by lia. unfold u8, u32, uwrap. split; Z.to_euclidean_division_equations; lia.
Qed.

End Smp.

(** ** Witness: two processors *)

Definition two_cpus : list (option Z) := [None; None; None; Some 1; None; Some 1; Some 1; None; None].

