(* ===== verification/CString.v ===== *)
(** * Bytes and strings: [include/libc/string.h], [include/boot/string.h],
      [include/kernel/string.h], [libc/ctype.c], [include/kernel/ctypes.h],
      [atoi] of [stdlib.h]

    The kernel's and the C library's copies of these functions have the same text.
    Memory maps addresses to bytes; an address that is not in the map faults
    ([None]).  A [char] is signed.  Loops that stop at a zero byte run with one
    unit of fuel per byte of memory and one more: a loop that reads further has
    left the memory. *)

From S2P Require Import Prelude Vsprintf.

#[local] Notation "'mem'" := (gmap Z Z).

Definition store_byte (m : mem) (a v : Z) : option mem :=
  match m !! a with Some _ => Some (<[a := v]> m) | None => None end.

Definition fuel_of (m : mem) : nat := S (size m).

(** ** Characters *)

Definition isalpha (c : Z) : bool :=
  if (0x61 <=? c) && (c <=? 0x7a) then true else if (0x41 <=? c) && (c <=? 0x5a) then true else false.
Definition isblank (c : Z) : bool := (c =? 0x20) || (c =? 0x09).
Definition isspace (c : Z) : bool :=
  (c =? 0x20) || (c =? 0x09) || (c =? 0x0a) || (c =? 0x0b) || (c =? 0x0c) || (c =? 0x0d).
Definition isalnum (c : Z) : bool := isalpha c || isdigit c.
Definition isprint (c : Z) : bool := (0x20 <=? c) && (c <=? 0x7e).
Definition iscntrl (c : Z) : bool := ((0x00 <=? c) && (c <=? 0x1f)) || (c =? 0x7f).
Definition ispunct (c : Z) : bool :=
  ((0x21 <=? c) && (c <=? 0x2f)) || ((0x3a <=? c) && (c <=? 0x40)) || ((0x5b <=? c) && (c <=? 0x60)) || ((0x7b <=? c) && (c <=? 0x7e)).
Definition islower (c : Z) : bool := (0x61 <=? c) && (c <=? 0x7a).
Definition isupper (c : Z) : bool := (0x41 <=? c) && (c <=? 0x5a).
Definition isxdigit (c : Z) : bool :=
  ((0x30 <=? c) && (c <=? 0x39)) || ((0x41 <=? c) && (c <=? 0x46)) || ((0x61 <=? c) && (c <=? 0x66)).
Definition tolower (c : Z) : Z := if (0x41 <=? c) && (c <=? 0x5a) then c + (0x61 - 0x41) else c.
Definition toupper (c : Z) : Z := if (0x61 <=? c) && (c <=? 0x7a) then c - (0x61 - 0x41) else c.

(** ** Memory *)

(** [rep movsb] *)
Fixpoint memcpy_loop (n : nat) (m : mem) (to from : Z) : option mem :=
  match n with
  | O => Some m
  | S n => v ← m !! from; m ← store_byte m to v; memcpy_loop n m (to + 1) (from + 1)
  end.

Definition memcpy (m : mem) (to from n : Z) : option mem := memcpy_loop (Z.to_nat n) m to from.

(** The loop tests its counter after the first store, so 0 counts as 2^64. *)
Fixpoint memset_loop (fuel : nat) (m : mem) (a v n : Z) : option mem :=
  match fuel with
  | O => None
  | S fuel =>
      m ← store_byte m a v;
      let n := u64 (n - 1) in
      if n =? 0 then Some m else memset_loop fuel m (a + 1) v n
  end.

Definition memset (m : mem) (a v n : Z) : option mem := memset_loop (fuel_of m) m a (u8 v) n.

(** ** Strings *)

Fixpoint strcpy_loop (fuel : nat) (m : mem) (dest src : Z) : option mem :=
  match fuel with
  | O => None
  | S fuel =>
      v ← m !! src;
      m ← store_byte m dest v;
      if v =? 0 then Some m else strcpy_loop fuel m (dest + 1) (src + 1)
  end.

Definition strcpy (m : mem) (dest src : Z) : option mem := strcpy_loop (fuel_of m) m dest src.

Fixpoint strncpy_loop (n : nat) (m : mem) (dest src : Z) : option mem :=
  match n with
  | O => Some m
  | S n =>
      v ← m !! src;
      if v =? 0 then Some m else m ← store_byte m dest v; strncpy_loop n m (dest + 1) (src + 1)
  end.

Definition strncpy (m : mem) (dest src n : Z) : option mem := strncpy_loop (Z.to_nat n) m dest src.

Fixpoint strlen_loop (fuel : nat) (m : mem) (s count : Z) : option Z :=
  match fuel with
  | O => None
  | S fuel => v ← m !! s; if v =? 0 then Some count else strlen_loop fuel m (s + 1) (u64 (count + 1))
  end.

(** The count goes through an [int]. *)
Definition strlen (m : mem) (s : Z) : option Z := c ← strlen_loop (fuel_of m) m s 0; Some (u64 (i32 c)).

(** [lodsb; scasb; jne]: the difference is that of unsigned bytes. *)
Fixpoint strcmp_loop (fuel : nat) (m : mem) (s1 s2 : Z) : option Z :=
  match fuel with
  | O => None
  | S fuel =>
      a ← m !! s1; b ← m !! s2;
      if negb (a =? b) then Some (if a <? b then -1 else 1)
      else if a =? 0 then Some 0 else strcmp_loop fuel m (s1 + 1) (s2 + 1)
  end.

Definition strcmp (m : mem) (s1 s2 : Z) : option Z := strcmp_loop (fuel_of m) m s1 s2.

(** [retval] is not initialised: a comparison of no characters has no value. *)
Fixpoint strncmp_loop (n : nat) (m : mem) (s1 s2 : Z) (retval : option Z) : option (option Z) :=
  match n with
  | O => Some retval
  | S n =>
      a ← m !! s1; b ← m !! s2;
      let d := i8 a - i8 b in
      if negb (d =? 0) then Some (Some d) else strncmp_loop n m (s1 + 1) (s2 + 1) (Some d)
  end.

Definition strncmp (m : mem) (s1 s2 n : Z) : option Z := r ← strncmp_loop (Z.to_nat n) m s1 s2 None; r.

Fixpoint strstr_loop (fuel : nat) (m : mem) (s1 s2 len2 : Z) : option Z :=
  match fuel with
  | O => None
  | S fuel =>
      a ← m !! s1;
      if a =? 0 then Some NULL
      else
        b ← m !! s2;
        found ← (if a =? b then r ← strncmp m s1 s2 len2; Some (r =? 0) else Some false);
        if (found : bool) then Some s1 else strstr_loop fuel m (s1 + 1) s2 len2
  end.

(** [len2] is an [int]; passed to [strncmp] it becomes a [size_t] again. *)
Definition strstr (m : mem) (s1 s2 : Z) : option Z :=
  n ← strlen m s2;
  let len2 := i32 n in
  if len2 =? 0 then Some s1 else strstr_loop (fuel_of m) m s1 s2 (u64 len2).

Fixpoint find_end (fuel : nat) (m : mem) (s : Z) : option Z :=
  match fuel with
  | O => None
  | S fuel => v ← m !! s; if v =? 0 then Some s else find_end fuel m (s + 1)
  end.

Fixpoint append_loop (fuel : nat) (m : mem) (dest str : Z) : option (Z * mem) :=
  match fuel with
  | O => None
  | S fuel =>
      v ← m !! str;
      if v =? 0 then Some (dest, m) else m ← store_byte m dest v; append_loop fuel m (dest + 1) (str + 1)
  end.

(** The result is the end of the string, not its beginning. *)
Definition strcat (m : mem) (dest str : Z) : option (Z * mem) :=
  e ← find_end (fuel_of m) m dest;
  r ← append_loop (fuel_of m) m e str;
  m ← store_byte r.2 r.1 0;
  Some (r.1, m).

(** ** [atoi] *)

Fixpoint skip_space (fuel : nat) (m : mem) (p : Z) : option Z :=
  match fuel with
  | O => None
  | S fuel => v ← m !! p; if isspace (i8 v) then skip_space fuel m (p + 1) else Some p
  end.

Fixpoint atoi_loop (fuel : nat) (m : mem) (p n minus : Z) : option Z :=
  match fuel with
  | O => None
  | S fuel =>
      v ← m !! p;
      let c := i8 v in
      if (c =? 0) || (c =? 0x2e) then Some (i32 (minus * n))
      else if negb (isdigit c) then Some 0
      else atoi_loop fuel m (p + 1) (i32 (n * 10 + c - 0x30)) minus
  end.

Definition atoi (m : mem) (nptr : Z) : option Z :=
  p ← skip_space (fuel_of m) m nptr;
  v ← m !! p;
  if i8 v =? 0x2d then atoi_loop (fuel_of m) m (p + 1) 0 (-1) else atoi_loop (fuel_of m) m p 0 1.

(** ** Specification *)

(** The zero-terminated string [l] at [a]. *)
Fixpoint cstr (m : mem) (a : Z) (l : list Z) : Prop :=
  match l with
  | [] => m !! a = Some 0
  | c :: l => m !! a = Some c /\ 0 < c < 256 /\ cstr m (a + 1) l
  end.

(** [l] written from [a] on. *)
Fixpoint write (m : mem) (a : Z) (l : list Z) : mem :=
  match l with [] => m | c :: l => write (<[a := c]> m) (a + 1) l end.

Definition mapped (m : mem) (a n : Z) : Prop := forall x, a <= x < a + n -> is_Some (m !! x).

Definition len (l : list Z) : Z := Z.of_nat (length l).

(** Comparison of unsigned bytes. *)
Fixpoint lex (l1 l2 : list Z) : Z :=
  match l1, l2 with
  | [], [] => 0
  | [], _ => -1
  | _, [] => 1
  | a :: l1, b :: l2 => if a <? b then -1 else if b <? a then 1 else lex l1 l2
  end.

Lemma lex_eq l1 l2 : lex l1 l2 = 0 <-> l1 = l2.
Proof.
  revert l2. induction l1 as [|a l1 IH]; intros [|b l2]; cbn [lex]; try done.
  case_if; [split; [done|]; intros E2; injection E2 as -> _; lia|]. case_if; [split; [done|]; intros E2; injection E2 as -> _; lia|].
  rewrite IH. assert (a = b) by lia. subst b. split; [by intros ->|by intros E2; injection E2].
Qed.

Lemma len_cons c l : len (c :: l) = 1 + len l.
Proof. unfold len. cbn [length]. lia. Qed.

Lemma len_nonneg l : 0 <= len l.
Proof. unfold len. lia. Qed.

Lemma len_app l1 l2 : len (l1 ++ l2) = len l1 + len l2.
Proof. unfold len. rewrite length_app. lia. Qed.

Lemma cstr_frame m m' a l : cstr m a l -> (forall x, a <= x <= a + len l -> m' !! x = m !! x) -> cstr m' a l.
Proof.
  revert a. induction l as [|c l IH]; intros a; cbn [cstr].
  - intros H He. rewrite He; [done|]. unfold len. cbn. lia.
  - intros (H1 & H2 & H3) He. rewrite len_cons in He. pose proof (len_nonneg l). split; [rewrite He by lia; done|]. split; [done|].
    apply IH; [done|]. intros x Hx. apply He. lia.
Qed.

(** The memory holds a string, so the fuel is enough for it. *)
Lemma cstr_fuel m a l : cstr m a l -> (length l < size m)%nat.
Proof.
  revert m a. induction l as [|c l IH]; intros m a; cbn [cstr length].
  - intros H. assert (size m <> 0%nat); [|lia]. intros E. apply map_size_empty_inv in E. by rewrite E, lookup_empty in H.
  - intros (H1 & H2 & H3). assert (Hd : cstr (delete a m) (a + 1) l).
    { apply (cstr_frame m); [done|]. intros x Hx. by rewrite lookup_delete_ne by lia. }
    apply IH in Hd. rewrite map_size_delete, H1 in Hd. lia.
Qed.

Lemma cstr_fuel_of m a l : cstr m a l -> (length l < fuel_of m)%nat.
Proof. intros H%cstr_fuel. unfold fuel_of. lia. Qed.

Lemma cstr_head m a l : cstr m a l -> exists v, m !! a = Some v /\ v = default 0 (head l) /\ 0 <= v < 256.
Proof. destruct l as [|c l]; cbn; [intros H; exists 0|intros (H & ? & _); exists c]; repeat split; (done || lia). Qed.

Lemma write_lookup l : forall m a x,
  write m a l !! x = if (a <=? x) && (x <? a + len l) then l !! Z.to_nat (x - a) else m !! x.
Proof.
  induction l as [|c l IH]; intros m a x; cbn [write].
  - destruct (_ && _) eqn:E; [|done]. unfold len in E. cbn in E. zbool. lia.
  - rewrite IH, len_cons. pose proof (len_nonneg l). destruct (decide (x = a)) as [->|Hne].
    + replace (a - a) with 0 by lia. cbn [Z.to_nat lookup list_lookup].
      rewrite (proj2 (Z.leb_gt (a + 1) a)) by lia. cbn [andb]. rewrite lookup_insert_eq.
      rewrite (proj2 (Z.leb_le a a)), (proj2 (Z.ltb_lt a (a + (1 + len l)))) by lia. done.
    + rewrite lookup_insert_ne by done.
      destruct ((a + 1 <=? x) && (x <? a + 1 + len l)) eqn:E1; destruct ((a <=? x) && (x <? a + (1 + len l))) eqn:E2.
      * apply andb_true_iff in E1 as [E1 _]. zbool. replace (Z.to_nat (x - a)) with (S (Z.to_nat (x - (a + 1)))) by lia. done.
      * apply andb_true_iff in E1 as [E1 E1']. apply andb_false_iff in E2 as [E2|E2]; zbool; lia.
      * apply andb_true_iff in E2 as [E2 E2']. apply andb_false_iff in E1 as [E1|E1]; zbool; lia.
      * done.
Qed.

Lemma write_in l m a i v : l !! i = Some v -> write m a l !! (a + Z.of_nat i) = Some v.
Proof.
  intros H. pose proof (lookup_lt_Some _ _ _ H). rewrite write_lookup. unfold len.
  rewrite (proj2 (Z.leb_le _ _)), (proj2 (Z.ltb_lt _ _)) by lia. cbn [andb]. by replace (Z.to_nat (a + Z.of_nat i - a)) with i by lia.
Qed.

Lemma write_out l m a x : x < a \/ a + len l <= x -> write m a l !! x = m !! x.
Proof. intros H. rewrite write_lookup. destruct (_ && _) eqn:E; [|done]. zbool. lia. Qed.

Lemma write_app l1 l2 m a : write m a (l1 ++ l2) = write (write m a l1) (a + len l1) l2.
Proof.
  revert m a. induction l1 as [|c l1 IH]; intros m a; cbn [write app]; [unfold len; cbn; by rewrite Z.add_0_r|].
  rewrite IH, len_cons. f_equal. lia.
Qed.

Lemma write_cstr l m a : Forall (fun c => 0 < c < 256) l -> cstr (write m a (l ++ [0])) a l.
Proof.
  revert m a. induction l as [|c l IH]; intros m a H; cbn [write app cstr].
  - apply lookup_insert_eq.
  - apply Forall_cons in H as [Hc H]. split; [|split; [done|by apply IH]]. rewrite write_out by lia. apply lookup_insert_eq.
Qed.

Lemma store_ok m a v : is_Some (m !! a) -> store_byte m a v = Some (<[a := v]> m).
Proof. intros [x Hx]. unfold store_byte. by rewrite Hx. Qed.

Lemma mapped_insert m a n x v : mapped m a n -> mapped (<[x := v]> m) a n.
Proof. intros H y Hy. destruct (decide (x = y)) as [->|]; [rewrite lookup_insert_eq; by eexists|rewrite lookup_insert_ne by done; auto]. Qed.

Lemma mapped_tail m a n : mapped m a (1 + n) -> 0 <= n -> is_Some (m !! a) /\ mapped m (a + 1) n.
Proof. intros H Hn. split; [apply H; lia|]. intros x Hx. apply H. lia. Qed.

(** ** Queries *)

Lemma strlen_loop_ok l : forall fuel m a n,
  (length l < fuel)%nat -> cstr m a l -> 0 <= n -> n + len l < 2 ^ 64 -> strlen_loop fuel m a n = Some (n + len l).
Proof.
  induction l as [|c l IH]; intros [|fuel] m a n Hf Hc Hn Hl; cbn [length] in Hf; try lia; cbn [strlen_loop cstr] in *.
  - rewrite Hc. some_bind. unfold len. cbn. f_equal. lia.
  - destruct Hc as (Hc & Hr & H). rewrite Hc. some_bind. rewrite (proj2 (Z.eqb_neq c 0)) by lia. rewrite len_cons in *. pose proof (len_nonneg l).
    rewrite u64_small by lia. rewrite IH by (done || lia). f_equal. lia.
Qed.

Lemma strlen_ok m a l : cstr m a l -> len l < 2 ^ 31 -> strlen m a = Some (len l).
Proof.
  intros H Hl. unfold strlen. pose proof (len_nonneg l). rewrite (strlen_loop_ok l) by (try done; try lia; by apply (cstr_fuel_of _ _ _ H)). some_bind.
  rewrite i32_small by lia. rewrite u64_small by lia. f_equal.
Qed.

Lemma strcmp_loop_ok l1 : forall fuel m a b l2,
  (length l1 < fuel)%nat -> cstr m a l1 -> cstr m b l2 -> strcmp_loop fuel m a b = Some (lex l1 l2).
Proof.
  induction l1 as [|c l1 IH]; intros [|fuel] m a b l2 Hf H1 H2; cbn [length] in Hf; try lia; cbn [strcmp_loop cstr] in *.
  - rewrite H1. some_bind. destruct l2 as [|d l2]; cbn [cstr] in H2; [rewrite H2; by some_bind|]. destruct H2 as (Hd & Hr & _). rewrite Hd. some_bind.
    rewrite (proj2 (Z.eqb_neq 0 d)) by lia. cbn [negb]. rewrite (proj2 (Z.ltb_lt 0 d)) by lia. done.
  - destruct H1 as (Hc & Hr & H1). rewrite Hc. some_bind. destruct l2 as [|d l2]; cbn [cstr] in H2.
    + rewrite H2. some_bind. rewrite (proj2 (Z.eqb_neq c 0)) by lia. cbn [negb]. rewrite (proj2 (Z.ltb_ge c 0)) by lia. done.
    + destruct H2 as (Hd & Hr' & H2). rewrite Hd. some_bind. cbn [lex]. destruct (c =? d) eqn:E; zbool; cbn [negb].
      * subst d. rewrite (proj2 (Z.eqb_neq c 0)) by lia. rewrite Z.ltb_irrefl. apply IH; [lia|done|done].
      * destruct (c <? d) eqn:E1; zbool; [done|]. by rewrite (proj2 (Z.ltb_lt d c)) by lia.
Qed.

Lemma strcmp_ok m a b l1 l2 : cstr m a l1 -> cstr m b l2 -> strcmp m a b = Some (lex l1 l2).
Proof. intros H1 H2. apply strcmp_loop_ok; [by apply (cstr_fuel_of _ _ _ H1)|done|done]. Qed.

Lemma i8_inj a b : 0 <= a < 256 -> 0 <= b < 256 -> i8 a - i8 b = 0 -> a = b.
Proof.
  intros Ha Hb. unfold i8, swrap. intros E.
  assert (E' : forall x, 0 <= x < 256 -> (x + 2 ^ (8 - 1)) mod 2 ^ 8 - 2 ^ (8 - 1) = if x <? 128 then x else x - 256).
  { intros x Hx. change (2 ^ (8 - 1)) with 128. change (2 ^ 8) with 256. destruct (x <? 128) eqn:Ex; zbool; [rewrite Z.mod_small by lia; lia|].
    replace (x + 128) with ((x - 128) + 1 * 256) by lia. rewrite Z_mod_plus_full, Z.mod_small by lia. lia. }
  rewrite !E' in E by done. destruct (a <? 128) eqn:E1, (b <? 128) eqn:E2; zbool; lia.
Qed.

(** [strncmp] over the length of its second string: equality is that it is a prefix. *)
Lemma strncmp_loop_prefix l2 : forall m a b l1,
  cstr m a l1 -> cstr m b l2 ->
  exists d, strncmp_loop (length l2) m a b (Some 0) = Some (Some d) /\ (d = 0 <-> l2 `prefix_of` l1).
Proof.
  induction l2 as [|c l2 IH]; intros m a b l1 H1 H2; cbn [length strncmp_loop].
  { exists 0. split; [done|]. split; [intros _; apply prefix_nil|done]. }
  cbn [cstr] in H2. destruct H2 as (Hb & Hr & H2). destruct (cstr_head m a l1 H1) as (v & Hv & Ev & Hvr). rewrite Hv, Hb. some_bind.
  destruct (i8 v - i8 c =? 0) eqn:E; zbool; cbn [negb].
  - assert (v = c) by (apply i8_inj; lia). subst v. destruct l1 as [|c1 l1]; [cbn in H; lia|]. cbn in H. subst c1. cbn [cstr] in H1.
    rewrite E. destruct (IH m (a + 1) (b + 1) l1) as (d & -> & Hiff); [apply H1|done|]. exists d. split; [done|]. rewrite Hiff.
    split; [apply prefix_cons|by intros ?%prefix_cons_inv_2].
  - eexists. split; [reflexivity|]. split; [done|]. intros Hp. destruct l1 as [|c1 l1]; [by apply prefix_nil_not in Hp|].
    apply prefix_cons_inv_1 in Hp. subst c1. cbn in Ev. subst v. lia.
Qed.

Lemma strncmp_prefix m a b l1 l2 : cstr m a l1 -> cstr m b l2 -> l2 <> [] ->
  exists d, strncmp m a b (len l2) = Some d /\ (d = 0 <-> l2 `prefix_of` l1).
Proof.
  intros H1 H2 Hn. destruct (strncmp_loop_prefix l2 m a b l1 H1 H2) as (d & Hd & Hiff). exists d. split; [|done].
  unfold strncmp, len. rewrite Nat2Z.id. destruct l2 as [|c l2]; [done|]. cbn [length strncmp_loop] in *. by rewrite Hd.
Qed.

(** The first suffix of [l1] that begins with [l2]. *)
Fixpoint find_sub (l1 l2 : list Z) : option nat :=
  match l1 with
  | [] => None
  | _ :: l1' => if decide (l2 `prefix_of` l1) then Some 0%nat else S <$> find_sub l1' l2
  end.

Lemma strstr_loop_ok l1 : forall fuel m a b l2,
  (length l1 < fuel)%nat -> cstr m a l1 -> cstr m b l2 -> l2 <> [] ->
  strstr_loop fuel m a b (len l2) = Some (match find_sub l1 l2 with Some i => a + Z.of_nat i | None => NULL end).
Proof.
  induction l1 as [|c l1 IH]; intros [|fuel] m a b l2 Hf H1 H2 Hn; cbn [length] in Hf; try lia; cbn [strstr_loop].
  { cbn [cstr] in H1. rewrite H1. by some_bind. }
  pose proof H1 as (Hc & Hr & H1'). rewrite Hc. some_bind. rewrite (proj2 (Z.eqb_neq c 0)) by lia.
  destruct (cstr_head m b l2 H2) as (v & Hv & Ev & Hvr). rewrite Hv. some_bind. cbn [find_sub].
  assert (Hrest : strstr_loop fuel m (a + 1) b (len l2) = Some (match S <$> find_sub l1 l2 with Some i => a + Z.of_nat i | None => NULL end)).
  { rewrite (IH fuel m (a + 1) b l2) by (done || lia). destruct (find_sub l1 l2) as [i|]; cbn; [|done]. f_equal. lia. }
  destruct (c =? v) eqn:E; zbool.
  - destruct (strncmp_prefix m a b (c :: l1) l2 H1 H2 Hn) as (d & -> & Hiff). some_bind. destruct (d =? 0) eqn:Ed; zbool.
    + rewrite decide_True by (by apply Hiff). f_equal. lia.
    + rewrite decide_False by tauto. exact Hrest.
  - some_bind. rewrite decide_False; [exact Hrest|]. destruct l2 as [|c2 l2]; [done|]. cbn in Ev. subst c2. by intros ?%prefix_cons_inv_1.
Qed.

Lemma strstr_ok m a b l1 l2 : cstr m a l1 -> cstr m b l2 -> len l2 < 2 ^ 31 ->
  strstr m a b = Some (if decide (l2 = []) then a else match find_sub l1 l2 with Some i => a + Z.of_nat i | None => NULL end).
Proof.
  intros H1 H2 Hl. unfold strstr. rewrite (strlen_ok m b l2 H2 Hl). some_bind. pose proof (len_nonneg l2). rewrite i32_small by lia.
  destruct (decide (l2 = [])) as [->|Hn]; [done|]. assert (len l2 <> 0) by (destruct l2; [done|]; rewrite len_cons; pose proof (len_nonneg l2); lia).
  rewrite (proj2 (Z.eqb_neq (len l2) 0)) by done. rewrite u64_small by lia. apply strstr_loop_ok; [by apply (cstr_fuel_of _ _ _ H1)|done..].
Qed.

(** ** Copies *)

(** The bytes [l] from [a] on. *)
Fixpoint holds_at (m : mem) (a : Z) (l : list Z) : Prop :=
  match l with [] => True | c :: l => m !! a = Some c /\ holds_at m (a + 1) l end.

Lemma holds_at_frame m m' a l : holds_at m a l -> (forall x, a <= x < a + len l -> m' !! x = m !! x) -> holds_at m' a l.
Proof.
  revert a. induction l as [|c l IH]; intros a; cbn [holds_at]; [done|]. intros [H1 H2] He. rewrite len_cons in He. pose proof (len_nonneg l).
  split; [rewrite He by lia; done|]. apply IH; [done|]. intros x Hx. apply He. lia.
Qed.

(** Regions of [n] bytes that do not overlap. *)
Definition disjoint_from (a b n : Z) : Prop := a + n <= b \/ b + n <= a.

Lemma memcpy_ok l : forall m to from,
  holds_at m from l -> mapped m to (len l) -> disjoint_from to from (len l) -> memcpy_loop (length l) m to from = Some (write m to l).
Proof.
  induction l as [|c l IH]; intros m to from H Hm Hd; cbn [length memcpy_loop write holds_at] in *; [done|]. destruct H as [Hc H]. rewrite Hc. some_bind.
  rewrite len_cons in *. pose proof (len_nonneg l). destruct (mapped_tail m to (len l) Hm ltac:(lia)) as [Hs Hm']. rewrite store_ok by done. some_bind.
  apply IH; [|by apply mapped_insert|unfold disjoint_from in *; lia].
  apply (holds_at_frame m); [done|]. intros x Hx. rewrite lookup_insert_ne; [done|]. unfold disjoint_from in Hd. lia.
Qed.

Lemma memset_loop_ok n : forall fuel m a v,
  (n < fuel)%nat -> Z.of_nat (S n) < 2 ^ 64 -> mapped m a (Z.of_nat (S n)) ->
  memset_loop fuel m a v (Z.of_nat (S n)) = Some (write m a (replicate (S n) v)).
Proof.
  induction n as [|n IH]; intros [|fuel] m a v Hf Hn Hm; try lia; cbn [memset_loop].
  - destruct (mapped_tail m a 0 Hm ltac:(lia)) as [Hs _]. rewrite store_ok by done. some_bind. done.
  - destruct (mapped_tail m a (Z.of_nat (S n))) as [Hs Hm']; [replace (1 + Z.of_nat (S n)) with (Z.of_nat (S (S n))) by lia; done|lia|].
    rewrite store_ok by done. some_bind. replace (Z.of_nat (S (S n)) - 1) with (Z.of_nat (S n)) by lia. rewrite u64_small by lia.
    rewrite (proj2 (Z.eqb_neq (Z.of_nat (S n)) 0)) by lia. cbn [replicate write]. apply IH; [lia|lia|by apply mapped_insert].
Qed.

(** A mapped region is not larger than the memory. *)
Lemma mapped_size n : forall m a, mapped m a (Z.of_nat n) -> (n <= size m)%nat.
Proof.
  induction n as [|n IH]; intros m a H; [lia|]. destruct (mapped_tail m a (Z.of_nat n)) as [[v Hv] Hm]; [by replace (1 + Z.of_nat n) with (Z.of_nat (S n)) by lia|lia|].
  assert (Hd : mapped (delete a m) (a + 1) (Z.of_nat n)) by (intros x Hx; rewrite lookup_delete_ne by lia; by apply Hm).
  apply IH in Hd. rewrite map_size_delete, Hv in Hd. assert (size m <> 0%nat); [|lia].
  intros E. apply map_size_empty_inv in E. by rewrite E, lookup_empty in Hv.
Qed.

Lemma memset_ok m a v n : 0 < n < 2 ^ 64 -> mapped m a n -> memset m a v n = Some (write m a (replicate (Z.to_nat n) (u8 v))).
Proof.
  intros Hn Hm. destruct (Z.to_nat n) as [|k] eqn:Ek; [lia|]. assert (En : n = Z.of_nat (S k)) by lia. subst n.
  apply memset_loop_ok; [|lia|done]. apply mapped_size in Hm. unfold fuel_of. lia.
Qed.

Lemma memset_0 m a n : 0 < n < 2 ^ 64 -> mapped m a n -> memset m a 0 n = Some (write m a (replicate (Z.to_nat n) 0)).
Proof. intros Hn Hm. by rewrite memset_ok. Qed.

(** Without a byte to set, the loop runs on until it leaves the memory. *)
Lemma memset_loop_runs_on fuel : forall m a v n,
  0 <= n < 2 ^ 64 -> Z.of_nat fuel <= u64 (n - 1) -> memset_loop fuel m a v n = None.
Proof.
  induction fuel as [|fuel IH]; intros m a v n Hn Hf; [done|]. cbn [memset_loop]. destruct (store_byte m a v) as [m'|]; [|done]. some_bind.
  rewrite (proj2 (Z.eqb_neq (u64 (n - 1)) 0)) by lia. pose proof (Z.mod_pos_bound (n - 1) (2 ^ 64) ltac:(lia)) as Hb. change ((n - 1) mod 2 ^ 64) with (u64 (n - 1)) in Hb.
  apply IH; [exact Hb|]. rewrite (u64_small (u64 (n - 1) - 1)) by lia. lia.
Qed.

(** A byte in its way that is not in memory faults. *)
Lemma memset_loop_faults fuel : forall m a v n k,
  0 <= n < 2 ^ 64 -> 0 <= k < (if n =? 0 then 2 ^ 64 else n) -> m !! (a + k) = None -> memset_loop fuel m a v n = None.
Proof.
  induction fuel as [|fuel IH]; intros m a v n k Hn Hk Hm; [done|]. cbn [memset_loop]. unfold store_byte. destruct (m !! a) as [b|] eqn:E; [|done]. some_bind.
  assert (k <> 0) by (intros ->; rewrite Z.add_0_r in Hm; congruence).
  assert (Eu : u64 (n - 1) = if n =? 0 then 2 ^ 64 - 1 else n - 1) by (destruct (n =? 0) eqn:Ez; zbool; [by subst n|apply u64_small; lia]).
  rewrite Eu. assert (Hk' : 0 < k <= (if n =? 0 then 2 ^ 64 - 1 else n - 1)) by (destruct (n =? 0); lia). set (n' := if n =? 0 then 2 ^ 64 - 1 else n - 1) in *.
  assert (n' < 2 ^ 64) by (unfold n'; case_if; lia). rewrite (proj2 (Z.eqb_neq n' 0)) by lia. apply (IH _ _ _ _ (k - 1)); [lia| |].
  - rewrite (proj2 (Z.eqb_neq n' 0)) by lia. lia.
  - rewrite lookup_insert_ne by lia. by replace (a + 1 + (k - 1)) with (a + k) by lia.
Qed.

Lemma memset_zero m a v : Z.of_nat (size m) < 2 ^ 64 - 1 -> memset m a v 0 = None.
Proof. intros H. apply memset_loop_runs_on; [lia|]. change (u64 (0 - 1)) with (2 ^ 64 - 1). unfold fuel_of. lia. Qed.

Lemma strcpy_loop_ok l : forall fuel m d s,
  (length l < fuel)%nat -> cstr m s l -> mapped m d (1 + len l) -> disjoint_from d s (1 + len l) ->
  strcpy_loop fuel m d s = Some (write m d (l ++ [0])).
Proof.
  induction l as [|c l IH]; intros [|fuel] m d s Hf H Hm Hd; cbn [length] in Hf; try lia; cbn [strcpy_loop cstr app write] in *.
  - rewrite H. some_bind. rewrite store_ok by (apply Hm; unfold len; cbn; lia). by some_bind.
  - destruct H as (Hc & Hr & H). rewrite Hc. some_bind. rewrite len_cons in *. pose proof (len_nonneg l).
    destruct (mapped_tail m d (1 + len l) Hm ltac:(lia)) as [Hs Hm']. rewrite store_ok by done. some_bind. rewrite (proj2 (Z.eqb_neq c 0)) by lia.
    apply IH; [lia| |by apply mapped_insert|unfold disjoint_from in *; lia].
    apply (cstr_frame m); [done|]. intros x Hx. rewrite lookup_insert_ne; [done|]. unfold disjoint_from in Hd. lia.
Qed.

Lemma strcpy_ok m d s l : cstr m s l -> mapped m d (1 + len l) -> disjoint_from d s (1 + len l) -> strcpy m d s = Some (write m d (l ++ [0])).
Proof. intros H Hm Hd. apply strcpy_loop_ok; [by apply (cstr_fuel_of _ _ _ H)|done..]. Qed.

Lemma strncpy_loop_ok l : forall n m d s,
  cstr m s l -> mapped m d (Z.min (Z.of_nat n) (len l)) -> disjoint_from d s (1 + len l) ->
  strncpy_loop n m d s = Some (write m d (take n l)).
Proof.
  induction l as [|c l IH]; intros [|n] m d s H Hm Hd; cbn [strncpy_loop take write cstr] in *; try done.
  - rewrite H. by some_bind.
  - destruct H as (Hc & Hr & H). rewrite Hc. some_bind. rewrite (proj2 (Z.eqb_neq c 0)) by lia. rewrite len_cons in *. pose proof (len_nonneg l).
    destruct (mapped_tail m d (Z.min (Z.of_nat n) (len l))) as [Hs Hm']; [by replace (1 + Z.min (Z.of_nat n) (len l)) with (Z.min (Z.of_nat (S n)) (1 + len l)) by lia|lia|].
    rewrite store_ok by done. some_bind. apply IH; [|by apply mapped_insert|unfold disjoint_from in *; lia].
    apply (cstr_frame m); [done|]. intros x Hx. rewrite lookup_insert_ne; [done|]. unfold disjoint_from in Hd. lia.
Qed.

Lemma find_end_ok l : forall fuel m a, (length l < fuel)%nat -> cstr m a l -> find_end fuel m a = Some (a + len l).
Proof.
  induction l as [|c l IH]; intros [|fuel] m a Hf H; cbn [length] in Hf; try lia; cbn [find_end cstr] in *.
  - rewrite H. some_bind. cbn. f_equal. unfold len. cbn. lia.
  - destruct H as (Hc & Hr & H). rewrite Hc. some_bind. rewrite (proj2 (Z.eqb_neq c 0)) by lia. rewrite (IH fuel m (a + 1)) by (done || lia).
    f_equal. rewrite len_cons. lia.
Qed.

Lemma append_loop_ok l : forall fuel m d s,
  (length l < fuel)%nat -> cstr m s l -> mapped m d (len l) -> disjoint_from d s (1 + len l) ->
  append_loop fuel m d s = Some (d + len l, write m d l).
Proof.
  induction l as [|c l IH]; intros [|fuel] m d s Hf H Hm Hd; cbn [length] in Hf; try lia; cbn [append_loop cstr write] in *.
  - rewrite H. some_bind. cbn. do 2 f_equal. unfold len. cbn. lia.
  - destruct H as (Hc & Hr & H). rewrite Hc. some_bind. rewrite (proj2 (Z.eqb_neq c 0)) by lia. rewrite len_cons in *. pose proof (len_nonneg l).
    destruct (mapped_tail m d (len l) Hm ltac:(lia)) as [Hs Hm']. rewrite store_ok by done. some_bind.
    rewrite (IH fuel (<[d := c]> m) (d + 1) (s + 1)); [do 2 f_equal; lia|lia| |by apply mapped_insert|unfold disjoint_from in *; lia].
    apply (cstr_frame m); [done|]. intros x Hx. rewrite lookup_insert_ne; [done|]. unfold disjoint_from in Hd. lia.
Qed.

Lemma mapped_write m a n b l : mapped m a n -> mapped (write m b l) a n.
Proof.
  revert m b. induction l as [|c l IH]; intros m b H; cbn [write]; [done|]. by apply IH, mapped_insert.
Qed.

(** The string [l1] at [d] is followed by room for [l2] and its end. *)
Lemma strcat_ok m d s l1 l2 :
  cstr m d l1 -> cstr m s l2 -> mapped m d (1 + len l1 + len l2) -> disjoint_from (d + len l1) s (1 + len l2) ->
  strcat m d s = Some (d + len l1 + len l2, write m (d + len l1) (l2 ++ [0])).
Proof.
  intros H1 H2 Hm Hd. unfold strcat. pose proof (len_nonneg l1). pose proof (len_nonneg l2).
  rewrite (find_end_ok l1) by (try done; by apply (cstr_fuel_of _ _ _ H1)). some_bind.
  rewrite (append_loop_ok l2); [|by apply (cstr_fuel_of _ _ _ H2)|done|intros x Hx; apply Hm; lia|done]. some_bind. cbn [fst snd].
  rewrite store_ok. { some_bind. do 2 f_equal. by rewrite write_app. }
  apply (mapped_write m d (1 + len l1 + len l2)); [done|]. lia.
Qed.

(** ** Numbers *)

Lemma i8_ascii c : 0 <= c < 128 -> i8 c = c.
Proof. intros. unfold i8, swrap. change (2 ^ (8 - 1)) with 128. change (2 ^ 8) with 256. rewrite Z.mod_small by lia. lia. Qed.

Definition digits (l : list Z) : Prop := Forall (fun c => 0x30 <= c <= 0x39) l.

Lemma digit_value_ascii c : 0x30 <= c <= 0x39 -> digit_value c = c - 0x30.
Proof. intros H. unfold digit_value. rewrite (proj2 (Z.leb_le _ _)), (proj2 (Z.leb_le _ _)) by lia. done. Qed.

Lemma value_from n ds : foldl (fun a c => a * 10 + digit_value c) n ds = n * 10 ^ len ds + value 10 ds.
Proof.
  unfold value. revert n. induction ds as [|c ds IH] using rev_ind; intros n; [cbn [foldl]; change (10 ^ len []) with 1; lia|].
  rewrite !foldl_snoc, IH, (IH 0), len_app. replace (len [c]) with 1 by done. rewrite Z.pow_add_r by (apply len_nonneg || lia).
  change (10 ^ 1) with 10. lia.
Qed.

Lemma value_nonneg ds : digits ds -> 0 <= value 10 ds.
Proof.
  induction ds as [|c ds IH] using rev_ind; intros H; [done|]. unfold digits in *. rewrite Forall_app, Forall_singleton in H. destruct H as [H Hc].
  rewrite value_snoc, digit_value_ascii by done. specialize (IH H). lia.
Qed.

Lemma atoi_loop_ok ds : forall fuel m p n minus,
  (length ds < fuel)%nat -> cstr m p ds -> digits ds -> 0 <= n -> foldl (fun a c => a * 10 + digit_value c) n ds < 2 ^ 31 -> minus = 1 \/ minus = -1 ->
  atoi_loop fuel m p n minus = Some (minus * foldl (fun a c => a * 10 + digit_value c) n ds).
Proof.
  induction ds as [|c ds IH]; intros [|fuel] m p n minus Hf H Hds Hn Hlt Hm; cbn [length] in Hf; try lia; cbn [atoi_loop cstr foldl] in *.
  - rewrite H. some_bind. change (i8 0) with 0. cbn [Z.eqb orb]. rewrite i32_small by lia. done.
  - destruct H as (Hc & Hr & H). apply Forall_cons in Hds as [Hcd Hds]. rewrite Hc. some_bind. rewrite i8_ascii by lia.
    rewrite (proj2 (Z.eqb_neq c 0)), (proj2 (Z.eqb_neq c 0x2e)) by lia. cbn [orb]. unfold isdigit.
    rewrite (proj2 (Z.leb_le 0x30 c)), (proj2 (Z.leb_le c 0x39)) by lia. cbn [andb negb].
    rewrite digit_value_ascii in * by done. rewrite value_from in Hlt. pose proof (value_nonneg ds Hds). pose proof (Z.pow_pos_nonneg 10 (len ds) ltac:(lia) (len_nonneg ds)).
    replace (n * 10 + c - 48) with (n * 10 + (c - 0x30)) by lia. rewrite i32_small by nia. apply IH; [lia|done|done|lia| |done]. by rewrite value_from.
Qed.

Lemma skip_space_ok sp : forall fuel m p l,
  (length sp < fuel)%nat -> Forall (fun c => isspace c = true) sp -> (forall c rest, l = c :: rest -> isspace (i8 c) = false) ->
  cstr m p (sp ++ l) -> skip_space fuel m p = Some (p + len sp) /\ cstr m (p + len sp) l.
Proof.
  induction sp as [|c sp IH]; intros [|fuel] m p l Hf Hsp Hl H; cbn [length] in Hf; try lia; cbn [skip_space app] in *.
  - unfold len. cbn [length Z.of_nat]. rewrite Z.add_0_r. split; [|done]. destruct l as [|c l]; cbn [cstr] in H.
    + rewrite H. by some_bind.
    + destruct H as (Hc & _). rewrite Hc. some_bind. by rewrite (Hl c l eq_refl).
  - destruct H as (Hc & Hr & H). apply Forall_cons in Hsp as [Hsc Hsp]. rewrite Hc. some_bind.
    assert (Ha : c < 128) by (unfold isspace in Hsc; zbool; repeat match goal with Hx : _ \/ _ |- _ => destruct Hx as [Hx|Hx]; zbool end; lia).
    rewrite i8_ascii by lia. rewrite Hsc. destruct (IH fuel m (p + 1) l) as [-> H']; [lia|done..|]. rewrite len_cons. replace (p + (1 + len sp)) with (p + 1 + len sp) by lia. done.
Qed.

(** White space, a sign and digits. *)
Lemma atoi_ok m a sp (neg : bool) ds :
  Forall (fun c => isspace c = true) sp -> digits ds -> ds <> [] -> cstr m a (sp ++ (if neg then [0x2d] else []) ++ ds) -> value 10 ds < 2 ^ 31 ->
  atoi m a = Some (if neg then - value 10 ds else value 10 ds).
Proof.
  intros Hsp Hds Hne H Hv. unfold atoi.
  assert (Hfuel : (length sp + length ds < fuel_of m)%nat).
  { pose proof (cstr_fuel_of _ _ _ H) as Hf. rewrite !length_app in Hf. lia. }
  assert (Hfirst : forall c rest, (if neg then [0x2d] else []) ++ ds = c :: rest -> isspace (i8 c) = false).
  { intros c rest E. destruct neg; [injection E as <- _; done|]. cbn [app] in E. subst ds. apply Forall_cons in Hds as [Hc _].
    rewrite i8_ascii by lia. unfold isspace. repeat (rewrite (proj2 (Z.eqb_neq c _)) by lia). done. }
  destruct (skip_space_ok sp (fuel_of m) m a _ ltac:(lia) Hsp Hfirst H) as [-> H']. some_bind.
  destruct neg; cbn [app] in H'.
  - destruct H' as (Hm & _ & H'). rewrite Hm. some_bind. change (i8 0x2d =? 0x2d) with true. cbn [andb].
    rewrite (atoi_loop_ok ds) by (try done; lia || (by right)). done.
  - destruct (cstr_head _ _ _ H') as (v & Hv' & Ev & Hvr). rewrite Hv'. some_bind. destruct ds as [|c ds]; [done|]. cbn in Ev. subst v.
    pose proof Hds as [Hc _]%Forall_cons. rewrite i8_ascii by lia. rewrite (proj2 (Z.eqb_neq c 0x2d)) by lia.
    rewrite (atoi_loop_ok (c :: ds)) by (try done; (cbn [length] in *; lia) || (by left)). apply f_equal. unfold value. lia.
Qed.

Lemma cstr_holds_at m a l : cstr m a l -> holds_at m a (l ++ [0]).
Proof. revert a. induction l as [|c l IH]; intros a; cbn [cstr app holds_at]; [done|]. intros (H1 & _ & H2). auto. Qed.

(** A string whose end is overwritten by another one. *)
Lemma cstr_app_write m a l1 b l2 : cstr m a l1 -> cstr m b l2 -> cstr (write m (a + len l1) (l2 ++ [0])) a (l1 ++ l2).
Proof.
  intros H1 H2. assert (Hr : Forall (fun c => 0 < c < 256) l2).
  { clear H1. revert b H2. induction l2 as [|c l2 IH]; intros b; cbn [cstr]; [constructor|]. intros (_ & ? & ?). constructor; eauto. }
  revert a m H1 H2. induction l1 as [|c l1 IH]; intros a m H1 H2; cbn [app cstr] in *.
  - change (len []) with 0. rewrite Z.add_0_r. by apply write_cstr.
  - destruct H1 as (Hc & Hcr & H1). rewrite len_cons. pose proof (len_nonneg l1). split; [rewrite write_out by lia; done|]. split; [done|].
    replace (a + (1 + len l1)) with (a + 1 + len l1) by lia. by apply IH.
Qed.

(** The buffer of [sprintf] holds a string. *)
Lemma holds_cstr_from b l k : forall n,
  (forall i, (i < length l)%nat -> b !! (n + Z.of_nat i) = l !! i) -> b !! (n + Z.of_nat (length l)) = Some 0 -> Forall (fun c => 0 < c < 256) l ->
  k = n -> cstr b k l.
Proof.
  revert k. induction l as [|c l IH]; intros k n H1 H2 Hl ->; cbn [cstr length] in *.
  - by rewrite Z.add_0_r in H2.
  - apply Forall_cons in Hl as [Hc Hl]. split; [|split; [done|]].
    + rewrite <- (Z.add_0_r n). exact (H1 0%nat ltac:(lia)).
    + apply (IH (n + 1) (n + 1)); [|by replace (n + 1 + Z.of_nat (length l)) with (n + Z.of_nat (S (length l))) by lia|done|done].
      intros i Hi. replace (n + 1 + Z.of_nat i) with (n + Z.of_nat (S i)) by lia. apply (H1 (S i)). lia.
Qed.

Lemma holds_cstr b l : holds b l -> Forall (fun c => 0 < c < 256) l -> cstr b 0 l.
Proof. intros (H1 & H2 & _) Hl. by apply (holds_cstr_from b l 0 0). Qed.

Lemma digit_ascii d : 0 <= d < 10 -> digit SIGN d = 0x30 + d.
Proof.
  intros Hd. assert (H : Forall (fun d => digit SIGN d = 0x30 + d) (seqZ 0 10)) by (apply (bool_decide_unpack _); by vm_compute).
  rewrite Forall_forall in H. apply H, elem_of_seqZ. lia.
Qed.

(** ** Theorems *)

(** C31: on zero-terminated strings the functions of string.h terminate and are
    what their names say: [strlen] is the length, [strcmp] the comparison of unsigned
    bytes (0 exactly for equal strings), [strstr] the first occurrence; [memcpy],
    [memset], [strcpy], [strncpy] and [strcat] store exactly the bytes of the result
    into their destination, where the regions are mapped and do not overlap.  Not so
    at the edges: [strcat] returns the end of the string, [strncpy] stores no final
    zero, and [memset] of no bytes runs out of the memory. *)
Theorem string_functions_correct (m : gmap Z Z) a b l1 l2 :
  cstr m a l1 -> cstr m b l2 -> len l1 < 2 ^ 31 -> len l2 < 2 ^ 31 ->
  strlen m a = Some (len l1) /\
  strcmp m a b = Some (lex l1 l2) /\ (lex l1 l2 = 0 <-> l1 = l2) /\
  strstr m a b = Some (if decide (l2 = []) then a else match find_sub l1 l2 with Some i => a + Z.of_nat i | None => NULL end) /\
  (forall d, mapped m d (1 + len l1) -> disjoint_from d a (1 + len l1) ->
    strcpy m d a = Some (write m d (l1 ++ [0])) /\
    (forall n, 0 <= n -> strncpy m d a n = Some (write m d (take (Z.to_nat n) l1))) /\
    memcpy m d a (1 + len l1) = Some (write m d (l1 ++ [0])) /\
    forall v, memset m d v (1 + len l1) = Some (write m d (replicate (Z.to_nat (1 + len l1)) (u8 v)))) /\
  (mapped m a (1 + len l1 + len l2) -> disjoint_from (a + len l1) b (1 + len l2) ->
    strcat m a b = Some (a + len l1 + len l2, write m (a + len l1) (l2 ++ [0])) /\
    cstr (write m (a + len l1) (l2 ++ [0])) a (l1 ++ l2)) /\
  (forall d v, Z.of_nat (size m) < 2 ^ 64 - 1 -> memset m d v 0 = None).
Proof.
  intros H1 H2 Hl1 Hl2. pose proof (len_nonneg l1). pose proof (len_nonneg l2).
  split; [by apply strlen_ok|]. split; [by apply strcmp_ok|]. split; [apply lex_eq|]. split; [by apply strstr_ok|].
  split; [|split; [|intros d v Hs; by apply memset_zero]].
  - intros d Hm Hd. split; [by apply strcpy_ok|]. split; [|split].
    + intros n Hn. unfold strncpy. apply (strncpy_loop_ok l1); [done| |done]. intros x Hx. apply Hm. lia.
    + unfold memcpy. replace (Z.to_nat (1 + len l1)) with (length (l1 ++ [0])) by (rewrite length_app; unfold len; cbn; lia).
      apply memcpy_ok; [by apply cstr_holds_at|..]; (rewrite len_app; change (len [0]) with 1; by rewrite Z.add_comm).
    + intros v. apply memset_ok; [lia|done].
  - intros Hm Hd. split; [by apply strcat_ok|]. by apply (cstr_app_write m a l1 b l2).
Qed.

Definition sample_mem : gmap Z Z := write (write (write ∅ 0 (replicate 16 0)) 32 [0x61; 0x62; 0]) 64 [0x62; 0].

(** "ab" and "b" *)
Lemma string_functions_correct_witness :
  strlen sample_mem 32 = Some 2 /\ strcmp sample_mem 32 64 = Some (-1) /\ strstr sample_mem 32 64 = Some 33.
Proof.
  destruct (string_functions_correct sample_mem 32 64 [0x61; 0x62] [0x62]) as (H1 & H2 & _ & H3 & _);
    [repeat split; (reflexivity || lia)|repeat split; (reflexivity || lia)|reflexivity|reflexivity|].
  split; [exact H1|]. split; [exact H2|exact H3].
Defined.

(** [atoi] reads back what percent-d of [sprintf] wrote: for every int that is
    not negative the text is a decimal string and its value is the number; and
    [atoi] of white space, an optional sign and digits is the signed value, for
    values that fit an int. *)
Theorem atoi_sprintf_roundtrip :
  (forall strings n, 0 <= n < 2 ^ 31 ->
    exists k b, sprintf isdigit strings [0x25; 0x64] [n] = Some (k, b) /\ atoi b 0 = Some n) /\
  (forall (m : gmap Z Z) a sp (neg : bool) ds,
    Forall (fun c => isspace c = true) sp -> digits ds -> ds <> [] -> cstr m a (sp ++ (if neg then [0x2d] else []) ++ ds) -> value 10 ds < 2 ^ 31 ->
    atoi m a = Some (if neg then - value 10 ds else value 10 ds)).
Proof.
  split; [|apply atoi_ok]. intros strings n Hn.
  destruct (percent_d_ok isdigit strings INT_MAX n eq_refl ltac:(unfold INT_MAX; lia)) as (ds & b & Hrun & Hb & Hv & Hin & Hne).
  rewrite u32_small in Hv by lia. exists (Z.of_nat (length ds)), b. split; [exact Hrun|].
  assert (Hds : digits ds) by (apply Forall_forall; intros c (d & Hd & ->)%Hin; rewrite digit_ascii by done; lia).
  rewrite <- Hv. apply (atoi_ok b 0 [] false ds); [constructor|done|done| |lia]. cbn [app].
  apply holds_cstr; [done|]. eapply Forall_impl; [exact Hds|]. intros c Hc. cbn in Hc. lia.
Qed.

Lemma atoi_sprintf_roundtrip_witness :
  exists k b, sprintf isdigit (fun _ => None) [0x25; 0x64] [1024] = Some (k, b) /\ atoi b 0 = Some 1024.
Proof. exact (proj1 atoi_sprintf_roundtrip (fun _ => None) 1024 ltac:(lia)). Defined.
