(* ===== verification/Words.v ===== *)
(** * Numbers in memory

    Loads and stores of several bytes, the least significant first, in the memory of
    [CString]. *)

From S2P Require Import Prelude Bytes Vsprintf CString.

#[local] Notation "'mem'" := (gmap Z Z).

Fixpoint load_bytes (n : nat) (m : mem) (a : Z) : option (list Z) :=
  match n with
  | O => Some []
  | S n => b ← m !! a; l ← load_bytes n m (a + 1); Some (b :: l)
  end.
Fixpoint store_bytes (m : mem) (a : Z) (l : list Z) : option mem :=
  match l with
  | [] => Some m
  | b :: l => m ← store_byte m a b; store_bytes m (a + 1) l
  end.
(** An unsigned number of [n] bytes. *)
Definition ld (n : nat) (m : mem) (a : Z) : option Z := l ← load_bytes n m a; Some (le_val l).

Definition ld64 (m : mem) (a : Z) : option Z := ld 8 m a.
Definition st64 (m : mem) (a v : Z) : option mem := store_bytes m a (enc 8 v).

Lemma load_bytes_ok l : forall m a, holds_at m a l -> load_bytes (length l) m a = Some l.
Proof.
  induction l as [|c l IH]; intros m a H; cbn [length load_bytes holds_at] in *; [done|]. destruct H as [-> H]. some_bind. rewrite (IH m (a + 1) H). by some_bind.
Qed.

Lemma store_bytes_ok l : forall m a, mapped m a (len l) -> store_bytes m a l = Some (write m a l).
Proof.
  induction l as [|c l IH]; intros m a H; cbn [store_bytes write]; [done|]. rewrite len_cons in H. pose proof (len_nonneg l).
  destruct (mapped_tail m a (len l) H ltac:(lia)) as [Hs Hm]. rewrite store_ok by done. some_bind. apply IH. by apply mapped_insert.
Qed.

Lemma load_bytes_ext n : forall m m' a, (forall x, a <= x < a + Z.of_nat n -> m' !! x = m !! x) -> load_bytes n m' a = load_bytes n m a.
Proof.
  induction n as [|n IH]; intros m m' a H; cbn [load_bytes]; [done|]. rewrite (H a) by lia. rewrite (IH m m' (a + 1)); [done|]. intros x Hx. apply H. lia.
Qed.

Lemma ld64_ext m m' a : (forall x, a <= x < a + 8 -> m' !! x = m !! x) -> ld64 m' a = ld64 m a.
Proof. intros H. unfold ld64, ld. by rewrite (load_bytes_ext 8 m m' a). Qed.

Lemma write_holds l : forall m a, holds_at (write m a l) a l.
Proof.
  induction l as [|c l IH]; intros m a; cbn [write holds_at]; [done|]. split; [|apply IH]. rewrite write_out by lia. apply lookup_insert_eq.
Qed.

Lemma len_enc8 v : len (enc 8 v) = 8.
Proof. done. Qed.

Lemma st64_ok m a v : mapped m a 8 -> st64 m a v = Some (write m a (enc 8 v)).
Proof. intros H. by apply store_bytes_ok. Qed.

Lemma ld64_write m a v : 0 <= v < 2 ^ 64 -> ld64 (write m a (enc 8 v)) a = Some v.
Proof.
  intros Hv. unfold ld64, ld. pose proof (load_bytes_ok (enc 8 v) (write m a (enc 8 v)) a (write_holds _ _ _)) as E. rewrite enc_length in E. rewrite E. some_bind.
  rewrite le_val_enc. f_equal. by apply Z.mod_small.
Qed.

Lemma cstr_holds l : forall m a, cstr m a l -> holds_at m a (l ++ [0]).
Proof. induction l as [|c l IH]; intros m a; cbn [cstr holds_at app]; [done|]. intros (H1 & _ & H2). split; [done|by apply IH]. Qed.

Lemma load_bytes_mapped n : forall m a l, load_bytes n m a = Some l -> mapped m a (Z.of_nat n).
Proof.
  induction n as [|n IH]; intros m a l H x Hx; [lia|]. cbn [load_bytes] in H. destruct (m !! a) as [b|] eqn:E; [|done].
  destruct (load_bytes n m (a + 1)) as [l'|] eqn:E'; [|done]. destruct (decide (x = a)) as [->|]; [by eexists|]. apply (IH m (a + 1) l' E'). lia.
Qed.

Lemma ld64_mapped m a v : ld64 m a = Some v -> mapped m a 8.
Proof. unfold ld64, ld. destruct (load_bytes 8 m a) as [l|] eqn:E; [|done]. intros _. by apply (load_bytes_mapped 8 m a l). Qed.


Lemma holds_at_app l1 : forall m a l2, holds_at m a (l1 ++ l2) <-> holds_at m a l1 /\ holds_at m (a + len l1) l2.
Proof.
  induction l1 as [|c l1 IH]; intros m a l2; cbn [holds_at app]; [unfold len; cbn; rewrite Z.add_0_r; tauto|]. rewrite IH, len_cons. replace (a + 1 + len l1) with (a + (1 + len l1)) by lia. tauto.
Qed.

(** A number that memory holds. *)
Lemma ld_enc n m a v : holds_at m a (enc n v) -> 0 <= v < 256 ^ Z.of_nat n -> ld n m a = Some v.
Proof.
  intros H Hv. unfold ld. pose proof (load_bytes_ok (enc n v) m a H) as E. rewrite enc_length in E. rewrite E. some_bind. rewrite le_val_enc. f_equal. by apply Z.mod_small.
Qed.

Lemma ld_byte m a v : m !! a = Some v -> ld 1 m a = Some v.
Proof. intros H. unfold ld. cbn [load_bytes]. rewrite H. some_bind. unfold le_val. cbn [foldr]. f_equal. lia. Qed.

Lemma load_bytes_some n : forall m a, mapped m a (Z.of_nat n) -> exists l, load_bytes n m a = Some l /\ holds_at m a l /\ length l = n.
Proof.
  induction n as [|n IH]; intros m a Hm; [by exists []|]. rewrite Nat2Z.inj_succ, <- Z.add_1_l in Hm. destruct (mapped_tail m a (Z.of_nat n) Hm ltac:(lia)) as [[v Hv] Hm'].
  destruct (IH m (a + 1) Hm') as (l & E & Hl & Hn). exists (v :: l). cbn [load_bytes]. rewrite Hv. some_bind. rewrite E. some_bind. split; [done|]. split; [done|]. cbn. by rewrite Hn.
Qed.

Lemma holds_at_lookup l : forall m a i v, holds_at m a l -> l !! i = Some v -> m !! (a + Z.of_nat i) = Some v.
Proof.
  induction l as [|c l IH]; intros m a [|i] v H Hv; try done; destruct H as [H1 H2]; [rewrite Z.add_0_r; by injection Hv as <-|].
  replace (a + Z.of_nat (S i)) with (a + 1 + Z.of_nat i) by lia. by apply IH.
Qed.

Lemma cstr_app (m : mem) l1 : forall a l2, cstr m a (l1 ++ l2) <-> holds_at m a l1 /\ Forall (fun c => 0 < c < 256) l1 /\ cstr m (a + len l1) l2.
Proof.
  induction l1 as [|c l1 IH]; intros a l2; cbn [app cstr holds_at]; [unfold len; cbn; rewrite Z.add_0_r; split; [by intros|tauto]|].
  rewrite IH, len_cons, Forall_cons. replace (a + 1 + len l1) with (a + (1 + len l1)) by lia. tauto.
Qed.
