(* ===== verification/BootInfo.v ===== *)
(** * Tables of the firmware and the boot loader: [boot/mptable.c], [core/multiboot.c]

    [mp_init] reads the multiprocessor tables of the BIOS, [scan_boot_info] the tags of
    the boot loader.  Memory maps virtual addresses to bytes.  [panic] and [assert]
    print and go on. *)

From S2P Require Import Prelude Bytes Vsprintf CString Words Memory.

#[local] Notation "'mem'" := (gmap Z Z).

(** ** [boot/mptable.c] *)

Definition NR_CPUS : Z := 4.
Definition MP_PROCESSOR : Z := 0.
Definition MP_BUS : Z := 1.
Definition MP_IOAPIC : Z := 2.
Definition MP_INTSRC : Z := 3.
Definition MP_LINTSRC : Z := 4.
Definition CPU_ENABLED : Z := 1.
Definition CPU_BOOTPROC : Z := 2.
Definition MPF_SIGNATURE : list Z := [0x5f; 0x4d; 0x50; 0x5f].
Definition MPC_SIGNATURE : list Z := [0x50; 0x43; 0x4d; 0x50].
Definition sizeof_mpf : Z := 16.
Definition sizeof_mpc : Z := 44.
Definition sizeof_processor : Z := 20.
Definition sizeof_ioapic : Z := 8.

(** [apicids] are the entries of [cpu_info] in use; [nr_cpu] is their number. *)
Record mp_state := mk_mp { apicids : list Z; boot_apic_id : Z; apic_base : Z; ioapicid : Z; ioapic_base : Z }.

Fixpoint checksum_loop (n : nat) (m : mem) (addr sum : Z) : option Z :=
  match n with
  | O => Some sum
  | S n => b ← m !! addr; checksum_loop n m (addr + 1) (i32 (sum + b))
  end.
Definition checksum (m : mem) (addr length : Z) : option Z := s ← checksum_loop (Z.to_nat length) m addr 0; Some (uwrap 8 s).

(** [strncmp] with a literal, over its length, is 0. *)
Fixpoint same_as (m : mem) (addr : Z) (lit : list Z) : option bool :=
  match lit with
  | [] => Some true
  | c :: lit => b ← m !! addr; if b =? c then same_as m (addr + 1) lit else Some false
  end.

Fixpoint scan_loop (n : nat) (m : mem) (addr : Z) : option Z :=
  match n with
  | O => Some 0
  | S n =>
      sig ← same_as m addr MPF_SIGNATURE;
      found ← (if (sig : bool) then c ← checksum m addr sizeof_mpf; Some (c =? 0) else Some false);
      if (found : bool) then Some addr else scan_loop n m (addr + sizeof_mpf)
  end.
Definition scan_mp_table (m : mem) (base length : Z) : option Z := scan_loop (Z.to_nat (upper_div length sizeof_mpf)) m (to_vir base).

Definition find_mp_table (m : mem) : option Z :=
  mp ← scan_mp_table m 0 0x400;
  if negb (mp =? 0) then Some mp
  else
    mp ← scan_mp_table m 0x9fc00 0x400;
    if negb (mp =? 0) then Some mp
    else
      mp ← scan_mp_table m 0xf0000 0x10000;
      if negb (mp =? 0) then Some mp else Some 0.

Definition get_mp_config (m : mem) (mp : Z) : option Z :=
  p ← ld 4 m (mp + 4);
  let mpconfig := to_vir p in
  sig ← same_as m mpconfig MPC_SIGNATURE;
  if negb sig then Some 0
  else
    spec ← ld 1 m (mpconfig + 6);
    if negb (i8 spec =? 1) && negb (i8 spec =? 4) then Some 0 else Some mpconfig.

Definition add_cpu (id : Z) (s : mp_state) : mp_state :=
  if Z.of_nat (length (apicids s)) <? NR_CPUS then mk_mp (apicids s ++ [id]) (boot_apic_id s) (apic_base s) (ioapicid s) (ioapic_base s) else s.
Definition set_boot_cpu (id : Z) (s : mp_state) : mp_state := mk_mp (apicids s) id (apic_base s) (ioapicid s) (ioapic_base s).
Definition set_ioapic (id base : Z) (s : mp_state) : mp_state := mk_mp (apicids s) (boot_apic_id s) (apic_base s) id base.

(** The loop over the entries.  A processor that is disabled and an unknown type are not
    skipped. *)
Fixpoint mp_loop (fuel : nat) (m : mem) (addr end_ : Z) (s : mp_state) : option mp_state :=
  match fuel with
  | O => None
  | S fuel =>
      if addr <? end_ then
        type ← ld 1 m addr;
        if type =? MP_PROCESSOR then
          flag ← ld 1 m (addr + 3);
          if Z.land flag CPU_ENABLED =? 0 then mp_loop fuel m addr end_ s
          else
            id ← ld 1 m (addr + 1);
            let s := add_cpu id s in
            let s := if negb (Z.land flag CPU_BOOTPROC =? 0) then set_boot_cpu id s else s in
            mp_loop fuel m (addr + sizeof_processor) end_ s
        else if type =? MP_IOAPIC then
          id ← ld 1 m (addr + 1);
          base ← ld 4 m (addr + 4);
          mp_loop fuel m (addr + sizeof_ioapic) end_ (set_ioapic id (to_vir base) s)
        else if (type =? MP_BUS) || (type =? MP_INTSRC) || (type =? MP_LINTSRC) then mp_loop fuel m (addr + 8) end_ s
        else mp_loop fuel m addr end_ s
      else Some s
  end.

Definition mp_init (fuel : nat) (m : mem) (s : mp_state) : option mp_state :=
  mp ← find_mp_table m;
  if mp =? 0 then Some s
  else
    mpconfig ← get_mp_config m mp;
    if mpconfig =? 0 then Some s
    else
      lapic ← ld 4 m (mpconfig + 36);
      length ← ld 2 m (mpconfig + 4);
      mp_loop fuel m (mpconfig + sizeof_mpc) (mpconfig + length) (mk_mp (apicids s) (boot_apic_id s) (to_vir lapic) (ioapicid s) (ioapic_base s)).

(** ** [core/multiboot.c] *)

Definition KINFO_MEMMAP_SIZE : Z := 16.
Definition KINFO_MODULE_SIZE : Z := 8.
Definition MULTIBOOT_MODULE_CMD_LEN : Z := 32.
Definition MULTIBOOT_TAG_TYPE_END : Z := 0.
Definition MULTIBOOT_TAG_TYPE_MODULE : Z := 3.
Definition MULTIBOOT_TAG_TYPE_BOOTDEV : Z := 5.
Definition MULTIBOOT_TAG_TYPE_MMAP : Z := 6.

(** A store behind the end of an array of [kinfo] overwrites other fields: no result. *)
Definition add_mmap (e : multiboot_memory_map_t) (k : kinfo_t) : option kinfo_t :=
  if Z.of_nat (length (mmap k)) <? KINFO_MEMMAP_SIZE then
    Some (mk_kinfo (mmap k ++ [e]) (module k) (module_mmap k) (kernel_end k) (global_pgd_start k) (global_pgd_end k) (mem_map_start k) (mem_map_end k) (mmio_start k) (mmio_end k) (bootdev k) (bootpart k) (subpart k))
  else None.

Definition add_module (d : multiboot_module) (z : module_mmap_t) (k : kinfo_t) : option kinfo_t :=
  if (Z.of_nat (length (module k)) <? KINFO_MODULE_SIZE) && (Z.of_nat (length (cmdline d)) <? MULTIBOOT_MODULE_CMD_LEN) then
    Some (mk_kinfo (mmap k) (module k ++ [d]) (module_mmap k ++ [z]) (kernel_end k) (global_pgd_start k) (global_pgd_end k) (mem_map_start k) (mem_map_end k) (mmio_start k) (mmio_end k) (bootdev k) (bootpart k) (subpart k))
  else None.

Definition set_bootdev (dev slice part : Z) (k : kinfo_t) : kinfo_t :=
  mk_kinfo (mmap k) (module k) (module_mmap k) (kernel_end k) (global_pgd_start k) (global_pgd_end k) (mem_map_start k) (mem_map_end k) (mmio_start k) (mmio_end k) dev slice part.

(** The entries of a memory map up to [end_]. *)
Fixpoint scan_mmap (fuel : nat) (m : mem) (mmap end_ entry_size : Z) (k : kinfo_t) : option kinfo_t :=
  match fuel with
  | O => None
  | S fuel =>
      if mmap <? end_ then
        addr ← ld 8 m mmap; len ← ld 8 m (mmap + 8); type ← ld 4 m (mmap + 16);
        k ← add_mmap (mk_mmap addr len type) k;
        scan_mmap fuel m (mmap + entry_size) end_ entry_size k
      else Some k
  end.

(** The bytes of a string up to its zero. *)
Fixpoint read_string (fuel : nat) (m : mem) (a : Z) : option (list Z) :=
  match fuel with
  | O => None
  | S fuel => b ← m !! a; if b =? 0 then Some [] else l ← read_string fuel m (a + 1); Some (b :: l)
  end.

(** The length of a module's region is [mod_end - mod_end]. *)
Definition scan_module (m : mem) (tag : Z) (k : kinfo_t) : option kinfo_t :=
  mod_start ← ld 4 m (tag + 8); mod_end ← ld 4 m (tag + 12);
  cmd ← read_string (fuel_of m) m (tag + 16);
  add_module (mk_module mod_start mod_end cmd) (mk_module_mmap mod_start (mod_end - mod_end)) k.

Definition scan_bootdev (m : mem) (tag : Z) (k : kinfo_t) : option kinfo_t :=
  dev ← ld 4 m (tag + 8); slice ← ld 4 m (tag + 12); part ← ld 4 m (tag + 16); Some (set_bootdev dev slice part k).

(** The distance to the next tag. *)
Definition tag_step (size : Z) : Z := Z.land (u32 (size + 7)) (Z.lnot 7).

Fixpoint scan_tags (fuel : nat) (m : mem) (tag : Z) (k : kinfo_t) : option kinfo_t :=
  match fuel with
  | O => None
  | S fuel' =>
      type ← ld 4 m tag;
      if type =? MULTIBOOT_TAG_TYPE_END then Some k
      else
        size ← ld 4 m (tag + 4);
        k ← (if type =? MULTIBOOT_TAG_TYPE_MMAP then entry_size ← ld 4 m (tag + 8); scan_mmap fuel' m (tag + 16) (tag + size) entry_size k
             else if type =? MULTIBOOT_TAG_TYPE_MODULE then scan_module m tag k
             else if type =? MULTIBOOT_TAG_TYPE_BOOTDEV then scan_bootdev m tag k
             else Some k);
        scan_tags fuel' m (tag + tag_step size) k
  end.

Definition scan_boot_info (fuel : nat) (m : mem) (addr : Z) (k : kinfo_t) : option kinfo_t :=
  if negb (Z.land addr 7 =? 0) then Some k else scan_tags fuel m (addr + 8) k.

(** ** Literals and checksums *)

(** [same_as] is [strncmp] with the literal in memory. *)
Lemma same_as_strncmp m lit : forall a b, Forall (fun c => 0 <= c < 256) lit -> (forall x v, m !! x = Some v -> 0 <= v < 256) -> holds_at m b lit -> lit <> [] ->
  same_as m a lit = (r ← strncmp m a b (len lit); Some (r =? 0)).
Proof.
  intros a b Hl Hm Hb Hn. unfold strncmp, len. rewrite Nat2Z.id. revert a b Hb. generalize (None : option Z) as o. revert Hn.
  induction Hl as [|c lit Hc Hl IH]; intros Hn o a b Hb; [done|]. destruct Hb as [Hb Hbs]. cbn [same_as length strncmp_loop]. destruct (m !! a) as [v|] eqn:Ea; [|done]. some_bind. rewrite Hb. some_bind.
  pose proof (Hm a v Ea) as Hv. assert (Ed : (i8 v - i8 c =? 0) = (v =? c)).
  { destruct (v =? c) eqn:E; zbool; [subst; apply Z.eqb_eq; lia|]. apply Z.eqb_neq. intros Ei. apply E. apply i8_inj; [done..|lia]. }
  rewrite Ed. destruct (v =? c) eqn:E; cbn [negb].
  - destruct lit as [|c' lit]; [cbn; by rewrite Ed|]. by apply IH.
  - cbn. by rewrite Ed.
Qed.

Lemma same_as_ok m lit : forall a, mapped m a (len lit) -> same_as m a lit = Some (bool_decide (load_bytes (length lit) m a = Some lit)).
Proof.
  induction lit as [|c lit IH]; intros a Hm; [done|]. rewrite len_cons in Hm. destruct (mapped_tail m a (len lit) Hm (len_nonneg lit)) as [[v Hv] Hm']. cbn [same_as length load_bytes].
  rewrite Hv. some_bind. destruct (v =? c) eqn:E; zbool.
  - subst v. rewrite IH by done. f_equal. apply bool_decide_ext. destruct (load_bytes (length lit) m (a + 1)) as [l|]; [|split; discriminate]. some_bind. split; [by intros [= ->]|by intros [= ->]].
  - symmetry. f_equal. apply bool_decide_false. intros H. destruct (load_bytes (length lit) m (a + 1)); [|done]. injection H. congruence.
Qed.

Definition sum_bytes (l : list Z) : Z := foldr Z.add 0 l.

Lemma checksum_loop_ok l : forall m a s, holds_at m a l -> Forall (fun b => 0 <= b < 256) l -> 0 <= s -> s + 256 * Z.of_nat (length l) < 2 ^ 31 -> checksum_loop (length l) m a s = Some (s + sum_bytes l).
Proof.
  induction l as [|c l IH]; intros m a s H Hb Hs Hl; cbn [checksum_loop length sum_bytes foldr]; [f_equal; lia|]. destruct H as [-> H]. some_bind. apply Forall_cons in Hb as [Hc Hb]. cbn [length] in Hl.
  rewrite i32_small by lia. rewrite IH by (done || lia). unfold sum_bytes. f_equal. lia.
Qed.

(** ** The floating pointer *)

(** The sixteen bytes at [a] are a floating pointer: the signature and a sum of 0. *)
Definition floating (m : mem) (a : Z) : Prop := exists l, load_bytes 16 m a = Some l /\ take 4 l = MPF_SIGNATURE /\ sum_bytes l mod 256 = 0.

Definition bytes_ok (m : mem) : Prop := forall x v, m !! x = Some v -> 0 <= v < 256.

Lemma holds_bytes m l : forall a, bytes_ok m -> holds_at m a l -> Forall (fun b => 0 <= b < 256) l.
Proof. induction l as [|c l IH]; intros a Hm H; [constructor|]. destruct H as [H1 H2]. constructor; [by apply (Hm a)|by apply (IH (a + 1))]. Qed.

Lemma load_take k n m a l : (k <= n)%nat -> load_bytes n m a = Some l -> load_bytes k m a = Some (take k l).
Proof.
  revert n a l. induction k as [|k IH]; intros [|n] a l Hk H; cbn [load_bytes] in *; try lia; [by rewrite take_0..|]. destruct (m !! a) as [v|]; [|done]. destruct (load_bytes n m (a + 1)) as [l'|] eqn:E; [|done].
  injection H as <-. some_bind. rewrite (IH n (a + 1) l') by (done || lia). done.
Qed.

(** The test at one address decides [floating]. *)
Lemma scan_test m a : bytes_ok m -> mapped m a 16 ->
  exists b : bool, (sig ← same_as m a MPF_SIGNATURE; if (sig : bool) then c ← checksum m a sizeof_mpf; Some (c =? 0) else Some false) = Some b /\ (b = true <-> floating m a).
Proof.
  intros Hb Hm. destruct (load_bytes_some 16 m a Hm) as (l & El & Hl & Hn). rewrite same_as_ok by (intros x Hx; apply Hm; unfold len in Hx; cbn in Hx; lia). some_bind.
  change (length MPF_SIGNATURE) with 4%nat. rewrite (load_take 4 16 m a l) by (done || lia). case_bool_decide as Es.
  - unfold checksum. change (Z.to_nat sizeof_mpf) with 16%nat. rewrite <- Hn, checksum_loop_ok by (try done; try (by apply (holds_bytes m l a)); rewrite Hn; lia). some_bind. eexists. split; [done|].
    rewrite Z.eqb_eq. unfold uwrap. rewrite Z.add_0_l. change (2 ^ 8) with 256. split.
    + intros H0. exists l. split; [done|]. split; [by injection Es|done].
    + intros (l' & El' & _ & H0). rewrite El in El'. by injection El' as <-.
  - exists false. split; [done|]. split; [done|]. intros (l' & El' & Ht & _). rewrite El in El'. injection El' as <-. by rewrite Ht in Es.
Qed.

(** The places of a scan; a search for the first address with [P], or 0. *)
Fixpoint places (n : nat) (a : Z) : list Z := match n with O => [] | S n => a :: places n (a + sizeof_mpf) end.

Definition search (P : Z -> Prop) (l : list Z) (r : Z) : Prop :=
  (exists l1 l2, l = l1 ++ r :: l2 /\ r <> 0 /\ P r /\ Forall (fun x => ~ P x) l1) \/ r = 0 /\ Forall (fun x => ~ P x) l.

Lemma search_app P l1 l2 r r' : search P l1 r -> search P l2 r' -> search P (l1 ++ l2) (if negb (r =? 0) then r else r').
Proof.
  intros [(k1 & k2 & -> & Hr & HP & Hk)|[-> Hf]] H2.
  - rewrite (proj2 (Z.eqb_neq r 0) Hr). left. exists k1, (k2 ++ l2). rewrite <- app_assoc. done.
  - cbn. destruct H2 as [(k1 & k2 & -> & Hr & HP & Hk)|[-> Hf2]]; [left|right].
    + exists (l1 ++ k1), k2. rewrite <- app_assoc. split; [done|]. split; [done|]. split; [done|]. by apply Forall_app.
    + split; [done|]. by apply Forall_app.
Qed.

Lemma scan_loop_ok n : forall m a, bytes_ok m -> mapped m a (16 * Z.of_nat n) -> 0 < a -> exists r, scan_loop n m a = Some r /\ search (floating m) (places n a) r.
Proof.
  induction n as [|n IH]; intros m a Hb Hm Ha; [exists 0; split; [done|]; by right|]. cbn [scan_loop].
  destruct (scan_test m a Hb ltac:(intros x Hx; apply Hm; lia)) as (b & E & Hd). destruct (same_as m a MPF_SIGNATURE) as [sig|]; [|done]. revert E. some_bind. intros ->. some_bind. destruct b.
  - exists a. split; [done|]. left. exists [], (places n (a + sizeof_mpf)). split; [done|]. split; [lia|]. split; [by apply Hd|constructor].
  - assert (Hno : ~ floating m a) by (intros Hf; by apply Hd in Hf). unfold sizeof_mpf. destruct (IH m (a + 16) Hb ltac:(intros x Hx; apply Hm; lia) ltac:(lia)) as (r & -> & Hr). exists r. split; [done|].
    destruct Hr as [(k1 & k2 & E & Hr)|[-> Hf]]; [left; exists (a :: k1), k2|right; split; [done|by constructor]]. cbn [places]. unfold sizeof_mpf in *. rewrite E. split; [done|].
    destruct Hr as (? & ? & ?). split; [done|]. split; [done|]. by constructor.
Qed.

(** The three areas of the search, and that they are in memory. *)
Definition bios_places : list Z := places 64 (to_vir 0) ++ places 64 (to_vir 0x9fc00) ++ places 4096 (to_vir 0xf0000).
Definition bios_mapped (m : mem) : Prop := mapped m (to_vir 0) 0x400 /\ mapped m (to_vir 0x9fc00) 0x400 /\ mapped m (to_vir 0xf0000) 0x10000.

Lemma find_mp_table_ok m : bytes_ok m -> bios_mapped m -> exists r, find_mp_table m = Some r /\ search (floating m) bios_places r.
Proof.
  intros Hb (H1 & H2 & H3). unfold find_mp_table, scan_mp_table.
  change (Z.to_nat (upper_div 0x400 sizeof_mpf)) with 64%nat. change (Z.to_nat (upper_div 0x10000 sizeof_mpf)) with (Z.to_nat 4096).
  destruct (scan_loop_ok 64 m (to_vir 0) Hb H1 ltac:(done)) as (r1 & -> & S1). some_bind.
  destruct (scan_loop_ok 64 m (to_vir 0x9fc00) Hb H2 ltac:(done)) as (r2 & -> & S2). some_bind.
  destruct (scan_loop_ok 4096 m (to_vir 0xf0000) Hb H3 ltac:(done)) as (r3 & E3 & S3). pose proof (search_app _ _ _ _ _ S1 (search_app _ _ _ _ _ S2 S3)) as HS. unfold bios_places.
  destruct (r1 =? 0) eqn:Z1; cbn [negb] in *; [|by exists r1]. destruct (r2 =? 0) eqn:Z2; cbn [negb] in *; [|by exists r2].
  change (Z.to_nat 4096) with 4096%nat. rewrite E3. some_bind. destruct (r3 =? 0) eqn:Z3; cbn [negb]; [|by exists r3]. zbool. subst r3. by exists 0.
Qed.

(** ** The configuration table *)

(** Its entries, what they look like and what they mean. *)
Inductive mp_entry :=
  | Processor (id ver flag : Z) (features : list Z)
  | IoApic (id ver flag addr : Z)
  | Other (type : Z) (rest : list Z).

Definition encode_entry (e : mp_entry) : list Z :=
  match e with
  | Processor id ver flag features => MP_PROCESSOR :: id :: ver :: flag :: features
  | IoApic id ver flag addr => MP_IOAPIC :: id :: ver :: flag :: enc 4 addr
  | Other type rest => type :: rest
  end.

Definition entry_ok (e : mp_entry) : Prop :=
  match e with
  | Processor id ver flag features => length features = 16%nat /\ Z.land flag CPU_ENABLED <> 0
  | IoApic id ver flag addr => 0 <= addr < 2 ^ 32
  | Other type rest => (type = MP_BUS \/ type = MP_INTSRC \/ type = MP_LINTSRC) /\ length rest = 7%nat
  end.

Definition apply_entry (s : mp_state) (e : mp_entry) : mp_state :=
  match e with
  | Processor id _ flag _ => let s := add_cpu id s in if negb (Z.land flag CPU_BOOTPROC =? 0) then set_boot_cpu id s else s
  | IoApic id _ _ addr => set_ioapic id (to_vir addr) s
  | Other _ _ => s
  end.

Lemma entry_len e : entry_ok e -> len (encode_entry e) = match e with Processor _ _ _ _ => sizeof_processor | IoApic _ _ _ _ => sizeof_ioapic | Other _ _ => 8 end.
Proof. destruct e as [id ver flag features|id ver flag addr|type rest]; cbn [encode_entry entry_ok]; unfold len; cbn [length]; [intros [-> _]; done|done|intros [_ ->]; done]. Qed.

(** One round of the loop reads one entry. *)
Lemma mp_step fuel m a end_ s e : entry_ok e -> holds_at m a (encode_entry e) -> a < end_ ->
  mp_loop (S fuel) m a end_ s = mp_loop fuel m (a + len (encode_entry e)) end_ (apply_entry s e).
Proof.
  intros He Hm Ha. rewrite (entry_len e He). cbn [mp_loop]. rewrite (proj2 (Z.ltb_lt a end_) Ha).
  destruct e as [id ver flag features|id ver flag addr|type rest]; cbn [encode_entry entry_ok holds_at apply_entry] in *.
  - destruct Hm as (H0 & H1 & H2 & H3 & _). destruct He as [_ He]. rewrite (ld_byte _ _ _ H0). some_bind. rewrite (ld_byte m (a + 3) flag) by (by replace (a + 3) with (a + 1 + 1 + 1) by lia).
    some_bind. change (MP_PROCESSOR =? MP_PROCESSOR) with true. rewrite (proj2 (Z.eqb_neq _ 0) He). rewrite (ld_byte _ _ _ H1). by some_bind.
  - destruct Hm as (H0 & H1 & H2 & H3 & H4). rewrite (ld_byte _ _ _ H0). some_bind. rewrite (ld_byte _ _ _ H1). some_bind. change (MP_IOAPIC =? MP_PROCESSOR) with false. change (MP_IOAPIC =? MP_IOAPIC) with true.
    rewrite (ld_enc 4 m (a + 4) addr) by (done || by replace (a + 4) with (a + 1 + 1 + 1 + 1) by lia). by some_bind.
  - destruct Hm as (H0 & _). rewrite (ld_byte _ _ _ H0). some_bind. destruct He as [[->|[->| ->]] _]; done.
Qed.

Lemma mp_loop_ok es : forall fuel m a s, Forall entry_ok es -> holds_at m a (concat (encode_entry <$> es)) -> (length es < fuel)%nat ->
  mp_loop fuel m a (a + len (concat (encode_entry <$> es))) s = Some (foldl apply_entry s es).
Proof.
  induction es as [|e es IH]; intros [|fuel] m a s He Hm Hf; cbn [length] in Hf; try lia.
  - cbn [mp_loop fmap list_fmap concat foldl]. change (len []) with 0. by rewrite Z.add_0_r, Z.ltb_irrefl.
  - apply Forall_cons in He as [He Hes]. cbn [fmap list_fmap concat foldl] in *. apply holds_at_app in Hm as [Hm Hms]. rewrite len_app in *. pose proof (entry_len e He) as Hlen.
    pose proof (len_nonneg (concat (encode_entry <$> es))). rewrite (mp_step _ _ _ _ _ e) by (try done; rewrite Hlen; destruct e; unfold sizeof_processor, sizeof_ioapic in *; lia).
    rewrite Z.add_assoc. apply IH; [done|done|lia].
Qed.

(** An entry that the loop does not pass: a processor that is disabled or an unknown type. *)
Definition stuck_entry (m : mem) (a : Z) : Prop :=
  (m !! a = Some MP_PROCESSOR /\ exists f, m !! (a + 3) = Some f /\ Z.land f CPU_ENABLED = 0) \/ (exists t, m !! a = Some t /\ (t < 0 \/ 4 < t)).

Lemma mp_loop_stuck fuel : forall m a end_ s, a < end_ -> stuck_entry m a -> mp_loop fuel m a end_ s = None.
Proof.
  induction fuel as [|fuel IH]; intros m a end_ s Ha H; [done|]. cbn [mp_loop]. rewrite (proj2 (Z.ltb_lt a end_) Ha). pose proof (IH m a end_ s Ha H) as E.
  destruct H as [(H0 & f & Hf & Hz)|(t & Ht & Hr)].
  - rewrite (ld_byte _ _ _ H0). some_bind. change (MP_PROCESSOR =? MP_PROCESSOR) with true. rewrite (ld_byte _ _ _ Hf). some_bind. by rewrite Hz.
  - rewrite (ld_byte _ _ _ Ht). some_bind. unfold MP_PROCESSOR, MP_IOAPIC, MP_BUS, MP_INTSRC, MP_LINTSRC. rewrite !(proj2 (Z.eqb_neq t _)) by lia. done.
Qed.

(** The table that the floating pointer at [r] leads to. *)
Record config_at (m : mem) (r : Z) (es : list mp_entry) (lapic : Z) : Prop := {
  ca_phys : exists p, holds_at m (r + 4) (enc 4 p) /\ 0 <= p < 2 ^ 32 /\ exists mid rest,
    holds_at m (to_vir p) (MPC_SIGNATURE ++ enc 2 (44 + len (concat (encode_entry <$> es))) ++ [1] ++ mid ++ enc 4 lapic ++ rest ++ concat (encode_entry <$> es)) /\
    length mid = 29%nat /\ length rest = 4%nat;
  ca_ok : Forall entry_ok es /\ 44 + len (concat (encode_entry <$> es)) < 2 ^ 16 /\ 0 <= lapic < 2 ^ 32 }.

Definition cpu_ids (es : list mp_entry) : list Z := omap (fun e => match e with Processor id _ _ _ => Some id | _ => None end) es.

(** The first four processors are kept. *)
Lemma apicids_ok es : forall s, (length (apicids s) <= 4)%nat -> apicids (foldl apply_entry s es) = take 4 (apicids s ++ cpu_ids es).
Proof.
  induction es as [|e es IH]; intros s Hl; cbn [foldl]; [cbn; by rewrite app_nil_r, take_ge|].
  destruct e as [id ver flag features|id ver flag addr|type rest]; cbn [apply_entry cpu_ids omap list_omap]; [|by rewrite IH..].
  assert (Ha : forall s', apicids (if negb (Z.land flag CPU_BOOTPROC =? 0) then set_boot_cpu id s' else s') = apicids s') by (intros s'; by destruct (negb _)).
  rewrite IH by (rewrite Ha; unfold add_cpu, NR_CPUS; case_if; cbn [apicids]; rewrite ?length_app; cbn; lia). rewrite Ha. unfold add_cpu, NR_CPUS. case_if; cbn [apicids].
  - by rewrite <- app_assoc.
  - assert (length (apicids s) = 4%nat) as E4 by lia. rewrite !take_app_le by lia. done.
Qed.

Lemma mp_loop_stuck_after es : forall fuel m a end_ s, Forall entry_ok es -> holds_at m a (concat (encode_entry <$> es)) ->
  a + len (concat (encode_entry <$> es)) < end_ -> stuck_entry m (a + len (concat (encode_entry <$> es))) -> mp_loop fuel m a end_ s = None.
Proof.
  induction es as [|e es IH]; intros fuel m a end_ s He Hm Hend Hst; cbn [fmap list_fmap concat] in *.
  - change (len []) with 0 in *. rewrite Z.add_0_r in *. by apply mp_loop_stuck.
  - destruct fuel as [|fuel]; [done|]. apply Forall_cons in He as [He Hes]. apply holds_at_app in Hm as [Hm Hms]. rewrite len_app, Z.add_assoc in *.
    pose proof (len_nonneg (concat (encode_entry <$> es))). pose proof (len_nonneg (encode_entry e)). rewrite (mp_step _ _ _ _ _ e) by (done || lia). by apply IH.
Qed.

Lemma get_config_ok m r es lapic : config_at m r es lapic -> exists c, get_mp_config m r = Some c /\ c <> 0 /\ ld 4 m (c + 36) = Some lapic /\
  ld 2 m (c + 4) = Some (44 + len (concat (encode_entry <$> es))) /\ holds_at m (c + sizeof_mpc) (concat (encode_entry <$> es)).
Proof.
  intros [(p & Hp & Hpr & mid & rest & Hc & Lm & Lr) (_ & Hsz & Hla)]. set (es' := concat (encode_entry <$> es)) in *. set (c := to_vir p) in *.
  assert (Ec : c = p + KERNEL_OFFSET) by (unfold c, to_vir; apply u64_small; unfold KERNEL_OFFSET; lia).
  assert (Em : len mid = 29) by (unfold len; by rewrite Lm). assert (Er : len rest = 4) by (unfold len; by rewrite Lr).
  assert (E2 : forall v, len (enc 2 v) = 2) by done. assert (E4 : forall v, len (enc 4 v) = 4) by done.
  repeat rewrite holds_at_app in Hc. rewrite E2, E4, Em, Er in Hc. change (len [1]) with 1 in Hc. change (len MPC_SIGNATURE) with 4 in Hc. destruct Hc as (S1 & S2 & S3 & S4 & S5 & S6 & S7).
  exists c. unfold get_mp_config. rewrite (ld_enc 4 m (r + 4) p Hp Hpr). some_bind. fold c.
  assert (Hs : same_as m c MPC_SIGNATURE = Some true).
  { destruct S1 as (A1 & A2 & A3 & A4 & _). cbn [same_as MPC_SIGNATURE]. rewrite A1. some_bind. rewrite Z.eqb_refl, A2. some_bind. rewrite Z.eqb_refl, A3. some_bind. rewrite Z.eqb_refl, A4. some_bind. by rewrite Z.eqb_refl. }
  rewrite Hs. some_bind. cbn [negb]. rewrite (ld_byte m (c + 6) 1) by (destruct S3 as [S3 _]; by replace (c + 6) with (c + 4 + 2) by lia). some_bind. split; [done|].
  split; [unfold KERNEL_OFFSET in Ec; lia|]. pose proof (len_nonneg es').
  split; [apply ld_enc; [by replace (c + 36) with (c + 4 + 2 + 1 + 29) by lia|lia]|]. split; [apply ld_enc; [done|lia]|]. by replace (c + sizeof_mpc) with (c + 4 + 2 + 1 + 29 + 4 + 4) by (unfold sizeof_mpc; lia).
Qed.

(** C7: reading the tables of the BIOS.  The search terminates and finds the first address
    of the three areas with the signature and a checksum of 0; without one nothing changes.
    For a table of entries for enabled processors, I/O APICs, buses and interrupts the loop
    ends and has the first four processors, the boot processor and the addresses of the
    controllers.  At an entry for a processor that is disabled, or of an unknown type, it
    never ends. *)
Theorem mp_init_correct m :
  bytes_ok m -> bios_mapped m ->
  exists r, search (floating m) bios_places r /\ find_mp_table m = Some r /\
    (r = 0 -> forall fuel s, mp_init fuel m s = Some s) /\
    (forall es lapic, r <> 0 -> config_at m r es lapic -> forall fuel s, (length es < fuel)%nat -> (length (apicids s) <= 4)%nat ->
      exists s', mp_init fuel m s = Some s' /\ s' = foldl apply_entry (mk_mp (apicids s) (boot_apic_id s) (to_vir lapic) (ioapicid s) (ioapic_base s)) es /\
        apicids s' = take 4 (apicids s ++ cpu_ids es)) /\
    (forall es a end_ fuel s, Forall entry_ok es -> holds_at m a (concat (encode_entry <$> es)) ->
      a + len (concat (encode_entry <$> es)) < end_ -> stuck_entry m (a + len (concat (encode_entry <$> es))) -> mp_loop fuel m a end_ s = None).
Proof.
  intros Hb Hm. destruct (find_mp_table_ok m Hb Hm) as (r & Er & Hs). exists r. split; [done|]. split; [done|]. split; [|split].
  - intros -> fuel s. unfold mp_init. rewrite Er. by some_bind.
  - intros es lapic Hr Hc fuel s Hf Hl. destruct (get_config_ok m r es lapic Hc) as (c & Eg & Hcz & El & En & He). destruct Hc as [_ (Hok & _)].
    unfold mp_init. rewrite Er. some_bind. rewrite (proj2 (Z.eqb_neq r 0) Hr), Eg. some_bind. rewrite (proj2 (Z.eqb_neq c 0) Hcz), El. some_bind. rewrite En. some_bind.
    replace (c + (44 + len (concat (encode_entry <$> es)))) with (c + sizeof_mpc + len (concat (encode_entry <$> es))) by (unfold sizeof_mpc; lia).
    rewrite mp_loop_ok by done. eexists. split; [done|]. split; [done|]. by rewrite apicids_ok.
  - intros es a end_ fuel s. apply mp_loop_stuck_after.
Qed.

(** ** Witness: two processors and an I/O APIC *)

Definition mp_entries : list mp_entry := [Processor 0 0x14 3 (replicate 16 0); Processor 1 0x14 1 (replicate 16 0); IoApic 2 0x11 1 0xfec00000].
Definition mp_floating : list Z := MPF_SIGNATURE ++ enc 4 0x1000 ++ [1; 4; 0x90; 0; 0; 0; 0; 0].
Definition mp_config : list Z :=
  MPC_SIGNATURE ++ enc 2 (44 + len (concat (encode_entry <$> mp_entries))) ++ [1] ++ replicate 29 0 ++ enc 4 0xfee00000 ++ replicate 4 0 ++ concat (encode_entry <$> mp_entries).
Definition bios_area (n a : Z) (m : mem) : mem := write m (to_vir a) (replicate (Z.to_nat n) 0).
Definition bios : mem :=
  write (write (bios_area 0x400 0 (bios_area 0x400 0x9fc00 (bios_area 0x10000 0xf0000 ∅))) (to_vir 0x1000) mp_config) (to_vir 0) mp_floating.

Lemma write_bytes_ok m a l : bytes_ok m -> Forall (fun b => 0 <= b < 256) l -> bytes_ok (write m a l).
Proof. intros Hm Hl x v. rewrite write_lookup. destruct (_ && _); [|apply Hm]. intros H. exact (Forall_lookup_1 _ _ _ _ Hl H). Qed.

Lemma area_ok n a m : 0 <= n -> bytes_ok m -> bytes_ok (bios_area n a m) /\ mapped (bios_area n a m) (to_vir a) n.
Proof.
  intros Hn Hm. split.
  - apply write_bytes_ok; [done|]. apply Forall_replicate. lia.
  - intros x Hx. unfold bios_area. rewrite write_lookup. unfold len. rewrite length_replicate, Z2Nat.id by lia. rewrite (proj2 (Z.leb_le _ _)), (proj2 (Z.ltb_lt _ _)) by lia. cbn [andb].
    apply lookup_lt_is_Some_2. rewrite length_replicate. lia.
Qed.

Lemma bios_ok : bytes_ok bios /\ bios_mapped bios.
Proof.
  assert (B0 : bytes_ok ∅) by (intros x v Hx; by rewrite lookup_empty in Hx).
  destruct (area_ok 0x10000 0xf0000 ∅ ltac:(lia) B0) as [B1 M1]. destruct (area_ok 0x400 0x9fc00 _ ltac:(lia) B1) as [B2 M2]. destruct (area_ok 0x400 0 _ ltac:(lia) B2) as [B3 M3].
  assert (K : forall m b n, mapped m b n -> mapped (write (write m (to_vir 0x1000) mp_config) (to_vir 0) mp_floating) b n) by (intros; by apply mapped_write, mapped_write).
  assert (A : forall k a m b n, mapped m b n -> mapped (bios_area k a m) b n) by (intros; by apply mapped_write).
  split; [|split; [exact (K _ _ _ M3)|split; [exact (K _ _ _ (A _ _ _ _ _ M2))|exact (K _ _ _ (A _ _ _ _ _ (A _ _ _ _ _ M1)))]]].
  apply write_bytes_ok; [apply write_bytes_ok; [exact B3|]|]; apply (bool_decide_unpack _); vm_compute; exact I.
Qed.

Lemma search_head P a l r : P a -> search P (a :: l) r -> r = a.
Proof. intros Ha [([|b l1] & l2 & E & _ & _ & Hf)|[_ Hf]]; [by injection E|injection E as -> _|]; apply Forall_cons in Hf as [Hf _]; done. Qed.

Lemma bios_floating : floating bios (to_vir 0).
Proof. exists mp_floating. split; [exact (load_bytes_ok mp_floating _ _ (write_holds _ _ _))|]. split; reflexivity. Qed.

Lemma bios_config : config_at bios (to_vir 0) mp_entries 0xfee00000.
Proof.
  split.
  - exists 0x1000. split.
    { pose proof (write_holds mp_floating (write (bios_area 0x400 0 (bios_area 0x400 0x9fc00 (bios_area 0x10000 0xf0000 ∅))) (to_vir 0x1000) mp_config) (to_vir 0)) as H.
      unfold mp_floating in H at 2. apply holds_at_app in H as [_ H]. apply holds_at_app in H as [H _]. exact H. }
    split; [lia|]. exists (replicate 29 0), (replicate 4 0). split; [|done]. eapply holds_at_frame; [apply write_holds|]. intros x Hx. apply write_out. right.
    change (len mp_floating) with 16. unfold to_vir in *. change (u64 (0x1000 + KERNEL_OFFSET)) with (0x1000 + KERNEL_OFFSET) in Hx. change (u64 (0 + KERNEL_OFFSET)) with KERNEL_OFFSET. lia.
  - split; [repeat constructor; vm_compute; (discriminate || reflexivity)|]. split; vm_compute; [reflexivity|split; [discriminate|reflexivity]].
Qed.

Lemma mp_init_correct_witness : exists s', mp_init 4 bios (mk_mp [] 0 0 0 0) = Some s' /\ apicids s' = [0; 1] /\ ioapic_base s' = to_vir 0xfec00000.
Proof.
  destruct (mp_init_correct bios (proj1 bios_ok) (proj2 bios_ok)) as (r & Hs & _ & _ & Hc & _).
  assert (E : r = to_vir 0) by exact (search_head _ _ _ _ bios_floating Hs).
  assert (Hr : r <> 0) by (rewrite E; vm_compute; discriminate).
  assert (Hcfg : config_at bios r mp_entries 0xfee00000) by (rewrite E; exact bios_config).
  destruct (Hc mp_entries 0xfee00000 Hr Hcfg 4%nat (mk_mp [] 0 0 0 0)) as (s' & Hi & Es & Ha); [cbn; lia|cbn; lia|].
  exists s'. split; [exact Hi|]. split; [exact Ha|]. rewrite Es. reflexivity.
Defined.

(** ** Tags of the boot loader *)

Inductive boot_tag :=
  | TMmap (version : Z) (l : list multiboot_memory_map_t)
  | TModule (start end_ : Z) (cmd : list Z)
  | TBootdev (dev slice part : Z)
  | TOther (type : Z) (body : list Z).

Definition encode_region (r : multiboot_memory_map_t) : list Z := enc 8 (mmap_addr r) ++ enc 8 (mmap_len r) ++ enc 4 (mmap_type r) ++ enc 4 0.

(** The fields that follow the size of a tag. *)
Definition tag_body (t : boot_tag) : list Z :=
  match t with
  | TMmap version l => enc 4 24 ++ enc 4 version ++ concat (encode_region <$> l)
  | TModule start end_ cmd => enc 4 start ++ enc 4 end_ ++ cmd ++ [0]
  | TBootdev dev slice part => enc 4 dev ++ enc 4 slice ++ enc 4 part
  | TOther _ body => body
  end.
Definition tag_type (t : boot_tag) : Z :=
  match t with TMmap _ _ => MULTIBOOT_TAG_TYPE_MMAP | TModule _ _ _ => MULTIBOOT_TAG_TYPE_MODULE | TBootdev _ _ _ => MULTIBOOT_TAG_TYPE_BOOTDEV | TOther type _ => type end.
Definition tag_size (t : boot_tag) : Z := 8 + len (tag_body t).
Definition encode_tag (t : boot_tag) : list Z := enc 4 (tag_type t) ++ enc 4 (tag_size t) ++ tag_body t.

(** Tags from [a] on, each at a multiple of 8, and the one that ends them. *)
Fixpoint tags_at (m : mem) (a : Z) (ts : list boot_tag) : Prop :=
  match ts with
  | [] => holds_at m a (enc 4 MULTIBOOT_TAG_TYPE_END)
  | t :: ts => holds_at m a (encode_tag t) /\ tags_at m (a + 8 * upper_div (tag_size t) 8) ts
  end.

Definition u32_ok (v : Z) : Prop := 0 <= v < 2 ^ 32.
Definition region_ok (r : multiboot_memory_map_t) : Prop := 0 <= mmap_addr r < 2 ^ 64 /\ 0 <= mmap_len r < 2 ^ 64 /\ u32_ok (mmap_type r).
Definition tag_ok (t : boot_tag) : Prop :=
  tag_size t < 2 ^ 31 /\
  match t with
  | TMmap version l => u32_ok version /\ Forall region_ok l
  | TModule start end_ cmd => u32_ok start /\ u32_ok end_ /\ Forall (fun c => 0 < c < 256) cmd
  | TBootdev dev slice part => u32_ok dev /\ u32_ok slice /\ u32_ok part
  | TOther type body => u32_ok type /\ type <> MULTIBOOT_TAG_TYPE_END /\ type <> MULTIBOOT_TAG_TYPE_MMAP /\ type <> MULTIBOOT_TAG_TYPE_MODULE /\ type <> MULTIBOOT_TAG_TYPE_BOOTDEV
  end.

(** What a tag means. *)
Definition apply_tag (k : kinfo_t) (t : boot_tag) : option kinfo_t :=
  match t with
  | TMmap _ l => foldl (fun o r => k ← o; add_mmap r k) (Some k) l
  | TModule start end_ cmd => add_module (mk_module start end_ cmd) (mk_module_mmap start 0) k
  | TBootdev dev slice part => Some (set_bootdev dev slice part k)
  | TOther _ _ => Some k
  end.
Definition apply_tags (k : kinfo_t) (ts : list boot_tag) : option kinfo_t := foldl (fun o t => k ← o; apply_tag k t) (Some k) ts.

(** Rounds of the loops. *)
Definition tag_work (t : boot_tag) : nat := match t with TMmap _ l => S (length l) | _ => 1 end.
Definition work (ts : list boot_tag) : nat := foldr (fun t n => tag_work t + n)%nat 0%nat ts.

Lemma tag_step_ok size : 0 <= size < 2 ^ 31 -> tag_step size = 8 * upper_div size 8.
Proof.
  intros Hs. unfold tag_step. assert (E : u32 (size + 7) = size + 7) by (apply Z.mod_small; lia). rewrite E. rewrite <- Z.ldiff_land. change 7 with (Z.ones 3) at 2.
  rewrite Z.ldiff_ones_r, Z.shiftl_mul_pow2, Z.shiftr_div_pow2 by lia. change (2 ^ 3) with 8. unfold upper_div. pose proof (Z.div_mod size 8 ltac:(lia)). pose proof (Z.mod_pos_bound size 8 ltac:(lia)).
  case_if; [assert ((size + 7) / 8 = size / 8 + 1) as -> by (symmetry; apply Z.div_unique with (size mod 8 - 1); lia); lia|].
  assert ((size + 7) / 8 = size / 8) as -> by (symmetry; apply Z.div_unique with 7; lia). lia.
Qed.

Lemma fold_none {A B} (f : A -> B -> option A) l : foldl (fun o x => a ← o; f a x) None l = None.
Proof. by induction l. Qed.

Lemma len_region r : len (encode_region r) = 24.
Proof. done. Qed.

Lemma scan_mmap_ok l : forall fuel m a k, Forall region_ok l -> holds_at m a (concat (encode_region <$> l)) -> (length l < fuel)%nat ->
  scan_mmap fuel m a (a + len (concat (encode_region <$> l))) 24 k = foldl (fun o r => k ← o; add_mmap r k) (Some k) l.
Proof.
  induction l as [|r l IH]; intros [|fuel] m a k Hr Hm Hf; cbn [length] in Hf; try lia; cbn [scan_mmap fmap list_fmap concat foldl] in *.
  - change (len []) with 0. by rewrite Z.add_0_r, Z.ltb_irrefl.
  - apply Forall_cons in Hr as [(R1 & R2 & R3) Hr]. rewrite len_app, len_region in *. pose proof (len_nonneg (concat (encode_region <$> l))). apply holds_at_app in Hm as [Hm Hms]. rewrite len_region in Hms.
    rewrite (proj2 (Z.ltb_lt a _)) by lia. unfold encode_region in Hm. repeat rewrite holds_at_app in Hm. destruct Hm as (H1 & H2 & H3 & _). rewrite !len_enc8 in *.
    rewrite (ld_enc 8 m a _ H1) by done. some_bind. rewrite (ld_enc 8 m (a + 8) _ H2) by done. some_bind.
    rewrite (ld_enc 4 m (a + 16) (mmap_type r)) by (done || by replace (a + 16) with (a + 8 + 8) by lia). some_bind. destruct r as [ra rl rt]; cbn [mmap_addr mmap_len mmap_type].
    destruct (add_mmap (mk_mmap ra rl rt) k) as [k'|]; [some_bind|by rewrite fold_none]. replace (a + (24 + len (concat (encode_region <$> l)))) with (a + 24 + len (concat (encode_region <$> l))) by lia.
    by apply IH; [|done|lia].
Qed.

Lemma read_string_ok l : forall fuel m a, cstr m a l -> (length l < fuel)%nat -> read_string fuel m a = Some l.
Proof.
  induction l as [|c l IH]; intros [|fuel] m a H Hf; cbn [length] in Hf; try lia; cbn [read_string cstr] in *; [rewrite H; by some_bind|].
  destruct H as (-> & Hc & H). some_bind. rewrite (proj2 (Z.eqb_neq c 0)) by lia. rewrite IH by (done || lia). by some_bind.
Qed.

Lemma holds_cstr_at l : forall m a, holds_at m a (l ++ [0]) -> Forall (fun c => 0 < c < 256) l -> cstr m a l.
Proof. induction l as [|c l IH]; intros m a H Hl; cbn [cstr app holds_at] in *; [by destruct H|]. apply Forall_cons in Hl as [Hc Hl]. destruct H as [H1 H2]. split; [done|]. split; [done|by apply IH]. Qed.

Lemma len_enc4 v : len (enc 4 v) = 4.
Proof. done. Qed.

(** One round of the loop reads one tag. *)
Lemma scan_tag fuel m a k t : tag_ok t -> holds_at m a (encode_tag t) -> (tag_work t <= fuel)%nat ->
  scan_tags (S fuel) m a k = (k ← apply_tag k t; scan_tags fuel m (a + 8 * upper_div (tag_size t) 8) k).
Proof.
  intros [Hsz Ht] Hm Hf. unfold encode_tag in Hm. repeat rewrite holds_at_app in Hm. rewrite !len_enc4 in Hm. destruct Hm as (M1 & M2 & M3). replace (a + 4 + 4) with (a + 8) in M3 by lia.
  assert (Htt : u32_ok (tag_type t)) by (destruct t; [done..|apply Ht]). assert (Hs0 : 0 <= tag_size t) by (unfold tag_size; pose proof (len_nonneg (tag_body t)); lia).
  cbn [scan_tags]. rewrite (ld_enc 4 m a _ M1 Htt). some_bind. rewrite (ld_enc 4 m (a + 4) (tag_size t)) by (done || lia). rewrite <- (tag_step_ok (tag_size t)) by lia.
  destruct t as [version l|start end_ cmd|dev slice part|type body]; cbn [tag_type tag_body apply_tag tag_work] in *; repeat rewrite holds_at_app in M3; rewrite ?len_enc4 in M3.
  - destruct M3 as (M3 & M4 & M5). destruct Ht as [_ Hr]. change (MULTIBOOT_TAG_TYPE_MMAP =? MULTIBOOT_TAG_TYPE_END) with false. change (MULTIBOOT_TAG_TYPE_MMAP =? MULTIBOOT_TAG_TYPE_MMAP) with true. some_bind.
    rewrite (ld_enc 4 m (a + 8) 24 M3) by lia. some_bind. unfold tag_size. cbn [tag_body]. rewrite !len_app, !len_enc4.
    replace (a + (8 + (4 + (4 + len (concat (encode_region <$> l)))))) with (a + 16 + len (concat (encode_region <$> l))) by lia.
    rewrite scan_mmap_ok; [done|done|by replace (a + 16) with (a + 8 + 4 + 4) by lia|lia].
  - destruct M3 as (M3 & M4 & M5). destruct Ht as (H1 & H2 & Hc). assert (Hcs : cstr m (a + 16) cmd) by (apply holds_cstr_at; [|done]; apply holds_at_app; replace (a + 16) with (a + 8 + 4 + 4) by lia; done).
    change (MULTIBOOT_TAG_TYPE_MODULE =? MULTIBOOT_TAG_TYPE_END) with false. change (MULTIBOOT_TAG_TYPE_MODULE =? MULTIBOOT_TAG_TYPE_MMAP) with false. change (MULTIBOOT_TAG_TYPE_MODULE =? MULTIBOOT_TAG_TYPE_MODULE) with true.
    some_bind. unfold scan_module. rewrite (ld_enc 4 m (a + 8) start M3 H1). some_bind. rewrite (ld_enc 4 m (a + 12) end_) by (done || by replace (a + 12) with (a + 8 + 4) by lia). some_bind.
    rewrite (read_string_ok cmd _ m (a + 16) Hcs (cstr_fuel_of _ _ _ Hcs)). some_bind. by rewrite Z.sub_diag.
  - destruct M3 as (M3 & M4 & M5). destruct Ht as (H1 & H2 & H3).
    change (MULTIBOOT_TAG_TYPE_BOOTDEV =? MULTIBOOT_TAG_TYPE_END) with false. change (MULTIBOOT_TAG_TYPE_BOOTDEV =? MULTIBOOT_TAG_TYPE_MMAP) with false. change (MULTIBOOT_TAG_TYPE_BOOTDEV =? MULTIBOOT_TAG_TYPE_MODULE) with false.
    change (MULTIBOOT_TAG_TYPE_BOOTDEV =? MULTIBOOT_TAG_TYPE_BOOTDEV) with true. some_bind. unfold scan_bootdev. rewrite (ld_enc 4 m (a + 8) dev M3 H1). some_bind.
    rewrite (ld_enc 4 m (a + 12) slice) by (done || by replace (a + 12) with (a + 8 + 4) by lia). some_bind. rewrite (ld_enc 4 m (a + 16) part) by (done || by replace (a + 16) with (a + 8 + 4 + 4) by lia). by some_bind.
  - destruct Ht as (_ & N1 & N2 & N3 & N4). rewrite !(proj2 (Z.eqb_neq type _)) by done. by some_bind.
Qed.

Lemma scan_tags_ok ts : forall fuel m a k, Forall tag_ok ts -> tags_at m a ts -> (work ts < fuel)%nat -> scan_tags fuel m a k = apply_tags k ts.
Proof.
  induction ts as [|t ts IH]; intros [|fuel] m a k Ht Hm Hf; cbn [work foldr] in Hf; try lia.
  - cbn [scan_tags tags_at] in *. rewrite (ld_enc 4 m a _ Hm) by done. by some_bind.
  - apply Forall_cons in Ht as [Ht Hts]. destruct Hm as [Hm Hms]. assert (1 <= tag_work t)%nat by (destruct t; cbn; lia). fold (work ts) in Hf. rewrite (scan_tag fuel m a k t) by (done || lia).
    unfold apply_tags. cbn [foldl]. some_bind. destruct (apply_tag k t) as [k'|]; [some_bind|by rewrite fold_none]. apply IH; [done|done|lia].
Qed.

(** What a list of tags adds up to. *)
Definition regions (ts : list boot_tag) : list multiboot_memory_map_t := ts ≫= (fun t => match t with TMmap _ l => l | _ => [] end).
Definition modules (ts : list boot_tag) : list multiboot_module := ts ≫= (fun t => match t with TModule s e c => [mk_module s e c] | _ => [] end).

Lemma add_mmaps_ok l : forall k, (length (mmap k) + length l <= 16)%nat ->
  exists k', foldl (fun o r => k ← o; add_mmap r k) (Some k) l = Some k' /\ mmap k' = mmap k ++ l /\ module k' = module k /\ module_mmap k' = module_mmap k.
Proof.
  induction l as [|r l IH]; intros k Hl; cbn [foldl length] in *; [exists k; by rewrite app_nil_r|]. some_bind. unfold add_mmap at 2, KINFO_MEMMAP_SIZE. rewrite (proj2 (Z.ltb_lt _ _)) by lia.
  match goal with |- context [foldl _ (Some ?k1) l] => destruct (IH k1) as (k' & -> & E1 & E2 & E3) end; [cbn [mmap]; rewrite length_app; cbn; lia|].
  exists k'. split; [done|]. rewrite E1, E2, E3. cbn [mmap module module_mmap]. by rewrite <- app_assoc.
Qed.

Lemma apply_tags_ok ts : forall k, (length (mmap k) + length (regions ts) <= 16)%nat -> (length (module k) + length (modules ts) <= 8)%nat -> Forall (fun d => length (cmdline d) < 32)%nat (modules ts) ->
  exists k', apply_tags k ts = Some k' /\ mmap k' = mmap k ++ regions ts /\ module k' = module k ++ modules ts /\
    module_mmap k' = module_mmap k ++ ((fun d => mk_module_mmap (mod_start d) 0) <$> modules ts).
Proof.
  induction ts as [|t ts IH]; intros k H1 H2 H3; [exists k; cbn; by rewrite !app_nil_r|]. unfold apply_tags. cbn [foldl]. some_bind.
  cbn [regions modules mbind list_bind] in *. fold (regions ts) in *. fold (modules ts) in *. rewrite length_app in H1, H2. apply Forall_app in H3 as [H3 H4].
  assert (Hgo : forall k1, mmap k1 = mmap k ++ (match t with TMmap _ l => l | _ => [] end) -> module k1 = module k ++ (match t with TModule s e c => [mk_module s e c] | _ => [] end) ->
    module_mmap k1 = module_mmap k ++ ((fun d => mk_module_mmap (mod_start d) 0) <$> (match t with TModule s e c => [mk_module s e c] | _ => [] end)) -> apply_tag k t = Some k1 ->
    exists k', foldl (fun o t => k ← o; apply_tag k t) (apply_tag k t) ts = Some k' /\ mmap k' = mmap k ++ (match t with TMmap _ l => l | _ => [] end) ++ regions ts /\
      module k' = module k ++ (match t with TModule s e c => [mk_module s e c] | _ => [] end) ++ modules ts /\
      module_mmap k' = module_mmap k ++ ((fun d => mk_module_mmap (mod_start d) 0) <$> (match t with TModule s e c => [mk_module s e c] | _ => [] end) ++ modules ts)).
  { intros k1 E1 E2 E3 ->. destruct (IH k1) as (k' & Ek & F1 & F2 & F3); [rewrite E1, length_app; lia|rewrite E2, length_app; lia|done|]. exists k'. split; [exact Ek|].
    rewrite F1, F2, F3, E1, E2, E3. rewrite fmap_app. by rewrite <- !app_assoc. }
  destruct t as [version l|start end_ cmd|dev slice part|type body]; cbn [apply_tag] in *.
  - destruct (add_mmaps_ok l k ltac:(lia)) as (k1 & E & E1 & E2 & E3). apply (Hgo k1); [done|by rewrite app_nil_r|cbn; by rewrite app_nil_r|done].
  - apply Forall_cons in H3 as [H3 _]. cbn [cmdline length] in *. unfold add_module, KINFO_MODULE_SIZE, MULTIBOOT_MODULE_CMD_LEN in *. cbn [cmdline] in *.
    rewrite (proj2 (Z.ltb_lt (Z.of_nat (length (module k))) 8)), (proj2 (Z.ltb_lt (Z.of_nat (length cmd)) 32)) in * by lia. cbn [andb] in *. refine (Hgo _ _ _ _ eq_refl); cbn [mmap module module_mmap]; [by rewrite app_nil_r|done|done].
  - refine (Hgo _ _ _ _ eq_refl); cbn [mmap module module_mmap set_bootdev]; [by rewrite app_nil_r|by rewrite app_nil_r|cbn; by rewrite app_nil_r].
  - apply (Hgo k); [by rewrite app_nil_r|by rewrite app_nil_r|cbn; by rewrite app_nil_r|done].
Qed.

(** A list of tags that is read has its regions in the array. *)
Lemma apply_tags_room ts : forall k k', apply_tags k ts = Some k' -> (length (mmap k) <= 16)%nat -> (length (mmap k) + length (regions ts) <= 16)%nat.
Proof.
  assert (HF : forall l k k', foldl (fun o r => k ← o; add_mmap r k) (Some k) l = Some k' -> (length (mmap k) <= 16)%nat -> length (mmap k') = (length (mmap k) + length l)%nat /\ (length (mmap k') <= 16)%nat).
  { induction l as [|r l IH]; intros k k' E Hl; cbn [foldl length] in *; [injection E as <-; lia|]. revert E. some_bind. destruct (add_mmap r k) as [k1|] eqn:E1; [|by rewrite fold_none]. intros E.
    unfold add_mmap, KINFO_MEMMAP_SIZE in E1. destruct (_ <? 16) eqn:E16; [|done]. zbool. injection E1 as <-. apply IH in E; cbn [mmap] in *; rewrite length_app in *; cbn [length] in *; lia. }
  induction ts as [|t ts IH]; intros k k' E Hl; [cbn; lia|]. unfold apply_tags in E. cbn [foldl] in E. revert E. some_bind. destruct (apply_tag k t) as [k1|] eqn:E1; [|by rewrite fold_none]. intros E.
  cbn [regions mbind list_bind]. fold (regions ts). rewrite length_app.
  assert (H1 : length (mmap k1) = (length (mmap k) + length (match t with TMmap _ l => l | _ => [] end))%nat /\ (length (mmap k1) <= 16)%nat).
  { destruct t as [version l|start end_ cmd|dev slice part|type body]; cbn [apply_tag length] in *; [by apply HF|..]; [|injection E1 as <-; cbn; lia..]. unfold add_module in E1. destruct (_ && _); [|done]. injection E1 as <-. cbn. lia. }
  apply IH in E; lia.
Qed.

(** C14: the information of the boot loader.  From tags that follow one another at
    multiples of 8, in any number and order and of any type, the scan terminates and takes
    over exactly the memory regions and the modules, in their order, if there is room for
    them; more than sixteen regions are stored behind their array; an address that is not a
    multiple of 8 changes nothing.  The region of every module has length 0, not the size
    of the module. *)
Theorem scan_boot_info_correct fuel m addr k ts :
  (Z.land addr 7 <> 0 -> scan_boot_info fuel m addr k = Some k) /\
  (Z.land addr 7 = 0 -> Forall tag_ok ts -> tags_at m (addr + 8) ts -> (work ts < fuel)%nat ->
    ((length (mmap k) + length (regions ts) <= 16)%nat -> (length (module k) + length (modules ts) <= 8)%nat -> Forall (fun d => length (cmdline d) < 32)%nat (modules ts) ->
      exists k', scan_boot_info fuel m addr k = Some k' /\ mmap k' = mmap k ++ regions ts /\ module k' = module k ++ modules ts /\
        module_mmap k' = module_mmap k ++ ((fun d => mk_module_mmap (mod_start d) 0) <$> modules ts)) /\
    ((length (mmap k) <= 16)%nat -> (16 < length (mmap k) + length (regions ts))%nat -> scan_boot_info fuel m addr k = None)).
Proof.
  unfold scan_boot_info. split; [intros Ha; by rewrite (proj2 (Z.eqb_neq _ _) Ha)|]. intros -> Ht Hm Hf. cbn [Z.eqb negb]. rewrite (scan_tags_ok ts) by done. split; [apply apply_tags_ok|].
  intros Hl Hr. destruct (apply_tags k ts) as [k'|] eqn:E; [|done]. apply apply_tags_room in E; [lia|done].
Qed.

(** ** Witness: one region and one module *)

Definition loader_tags : list boot_tag := [TMmap 0 [mk_mmap 0 0x9fc00 1]; TModule 0x100000 0x104000 [0x33]].
Definition loader : mem := write (write (write ∅ 0x10008 (encode_tag (TMmap 0 [mk_mmap 0 0x9fc00 1]))) 0x10030 (encode_tag (TModule 0x100000 0x104000 [0x33]))) 0x10048 (enc 4 0).
Definition no_kinfo : kinfo_t := mk_kinfo [] [] [] 0 0 0 0 0 0 0 0 0 0.

Lemma scan_boot_info_correct_witness : exists k', scan_boot_info 5 loader 0x10000 no_kinfo = Some k' /\ mmap k' = [mk_mmap 0 0x9fc00 1] /\ module k' = [mk_module 0x100000 0x104000 [0x33]].
Proof.
  assert (Ht : Forall tag_ok loader_tags) by (repeat constructor; vm_compute; (discriminate || reflexivity)).
  assert (Hm : tags_at loader (0x10000 + 8) loader_tags) by (vm_compute; repeat split).
  destruct (proj1 (proj2 (scan_boot_info_correct 5 loader 0x10000 no_kinfo loader_tags) eq_refl Ht Hm ltac:(vm_compute; lia))) as (k' & E & E1 & E2 & _);
    [vm_compute; lia|vm_compute; lia|repeat constructor; vm_compute; lia|].
  exists k'. split; [exact E|]. split; [exact E1|exact E2].
Defined.
