(* ===== verification/UserMem.v ===== *)
(** * Address spaces: what page tables mean for a program

    A program sees bytes at virtual addresses.  An address space is the finite map of
    the bytes that are mapped; [map_page] adds a page of zeros to it, [free_proc_mm]
    empties its user half, a store changes a byte.  The page tables of [PageTable] with
    the processor's translation implement it. *)

From S2P Require Import Prelude Bytes Buddy PageIface PageTable CString Fork ForkProofs.

(** ** Address spaces *)

Definition page_start (x : Z) : Z := x - x mod PAGE_SIZE.

(** [map_page] of a page that is mapped changes nothing. *)
Definition u_map (m : gmap Z Z) (a : Z) : gmap Z Z :=
  match m !! page_start a with Some _ => m | None => write m (page_start a) (replicate (Z.to_nat PAGE_SIZE) 0) end.

(** [free_proc_mm]: the user half is gone. *)
Definition u_clear (m : gmap Z Z) : gmap Z Z := filter (fun kv => 2 ^ 47 <= kv.1) m.

(** ** The processor's view of memory words *)

Definition ubyte (m : gmap Z Z) (root x : Z) : option Z :=
  a ← translate m root x; enc 8 (rd m (to_vir (a - a mod 8))) !! Z.to_nat (a mod 8).

Definition ustore (m : gmap Z Z) (root x b : Z) : option (gmap Z Z) :=
  a ← translate m root x;
  let w := to_vir (a - a mod 8) in Some (<[w := le_val (<[Z.to_nat (a mod 8) := b]> (enc 8 (rd m w)))]> m).

(** ** Paths and pages *)

Lemma path_page u : 0 <= u ->
  u = u / 2 ^ 39 * 2 ^ 39 + u mod 2 ^ 39 / 2 ^ 30 * 2 ^ 30 + u mod 2 ^ 30 / 2 ^ 21 * 2 ^ 21 + u mod 2 ^ 21 / 2 ^ 12 * 2 ^ 12 + u mod PAGE_SIZE.
Proof.
  intros Hu. change PAGE_SIZE with (2 ^ 12). pose proof (Z.div_mod u (2 ^ 39) ltac:(lia)). pose proof (Z.div_mod (u mod 2 ^ 39) (2 ^ 30) ltac:(lia)) as H3.
  pose proof (Z.div_mod (u mod 2 ^ 30) (2 ^ 21) ltac:(lia)) as H2. pose proof (Z.div_mod (u mod 2 ^ 21) (2 ^ 12) ltac:(lia)) as H1.
  rewrite mod_pow2_mod in H1, H2, H3 by lia. lia.
Qed.

Lemma path_of_page x y : 0 <= x -> 0 <= y -> path_of x = path_of y <-> page_start x = page_start y.
Proof.
  intros Hx Hy. unfold page_start. split.
  - intros E. injection E as E1 E2 E3 E4. pose proof (path_page x Hx). pose proof (path_page y Hy). rewrite E1, E2, E3, E4 in *. lia.
  - intros E. assert (P : forall z, (z - z mod PAGE_SIZE) mod PAGE_SIZE = 0) by (intros z; rewrite Zminus_mod_idemp_r, Z.sub_diag; done).
    assert (B : forall z, 0 <= z mod PAGE_SIZE < PAGE_SIZE) by (intros z; by apply Z.mod_pos_bound).
    pose proof (proj1 (path_same_page _ _ (P x) (B x))) as Px. pose proof (proj1 (path_same_page _ _ (P y) (B y))) as Py.
    rewrite Z.sub_add in Px, Py. rewrite Px, Py. by rewrite E.
Qed.

Lemma page_start_of x : page_start (page_start x) = page_start x /\ page_start x <= x < page_start x + PAGE_SIZE /\ page_start x mod PAGE_SIZE = 0.
Proof.
  unfold page_start. assert (E : (x - x mod PAGE_SIZE) mod PAGE_SIZE = 0) by (rewrite Zminus_mod_idemp_r, Z.sub_diag; done).
  pose proof (Z.mod_pos_bound x PAGE_SIZE ltac:(done)). rewrite E. split; [lia|]. split; [lia|done].
Qed.

Lemma in_page a x : page_start a = a -> page_start x = a <-> a <= x < a + PAGE_SIZE.
Proof.
  unfold page_start, PAGE_SIZE. intros Ha. assert (Em : a mod 4096 = 0) by lia. apply Z.mod_divide in Em as [k ->]; [|lia].
  pose proof (Z.div_mod x 4096 ltac:(lia)). pose proof (Z.mod_pos_bound x 4096 ltac:(lia)). lia.
Qed.

Lemma u_map_lookup m a x :
  (forall y, page_start y = page_start a -> m !! y = None <-> m !! page_start a = None) ->
  u_map m a !! x = match m !! x with Some v => Some v | None => if decide (page_start x = page_start a) then Some 0 else None end.
Proof.
  intros H. destruct (page_start_of a) as (Ep & _). pose proof (in_page (page_start a) x Ep) as Hin. unfold u_map.
  assert (El : len (replicate (Z.to_nat PAGE_SIZE) 0) = PAGE_SIZE) by (unfold len; rewrite length_replicate; done).
  destruct (m !! page_start a) as [v|] eqn:E.
  - case_decide as Hx; [|by destruct (m !! x)]. destruct (m !! x) eqn:Ex; [done|]. apply (H x Hx) in Ex. congruence.
  - rewrite write_lookup, El. case_decide as Hx.
    + apply Hin in Hx as Hr. rewrite (proj2 (Z.leb_le _ _)), (proj2 (Z.ltb_lt _ _)) by lia. cbn [andb].
      rewrite (proj2 (H x Hx) eq_refl). apply lookup_replicate_2. unfold PAGE_SIZE in *. lia.
    + rewrite Hin in Hx. destruct ((page_start a <=? x) && (x <? page_start a + PAGE_SIZE)) eqn:Eb; [zbool; lia|]. by destruct (m !! x).
Qed.

Section Refine.
Context {P : Type} `{!PageAllocator P}.
Implicit Types (st : pt_state P) (own : gmap Z Z) (role : gmap Z (list Z)) (m : gmap Z Z).

(** ** Translation of unmapped pages *)

Lemma present_zero : Z.testbit 0 0 = false.
Proof. done. Qed.

Lemma present_child b : kernel_block b 0 -> Z.testbit (to_phy b + 7) 0 = true /\ table_of (to_phy b + 7) = b.
Proof.
  intros Hk. destruct (table_entry b Hk) as (_ & _ & T & _). split; [|done]. destruct (kernel_page_phy b Hk) as (_ & Hal & _).
  apply Z.mod_divide in Hal as [x ->]; [|done]. rewrite Z.bit0_odd. replace (x * PAGE_SIZE + 7) with (1 + 2 * (x * 2048 + 3)) by (unfold PAGE_SIZE; lia).
  apply Z.odd_add_mul_2.
Qed.

Lemma translate_none st own root role u :
  pt_inv st own root role -> 0 <= u < 2 ^ 47 -> (forall f, role !! f <> Some (path_of u)) -> translate (pt_mem st) root u = None.
Proof.
  intros H Hu Hno. destruct (path_ok u Hu) as (I4 & I3 & I2 & I1). unfold translate. rewrite (Z.mod_small u (2 ^ 48)) by lia.
  destruct (pi_entry _ _ _ _ H root [] (u / 2 ^ 39) (pi_root _ _ _ _ H)) as [[-> _]|(t3 & H3 & ->)]; [cbn; lia|done|by rewrite present_zero|].
  destruct (present_child t3 (role_block _ _ _ _ _ _ H H3)) as [-> ->]. some_bind.
  destruct (pi_entry _ _ _ _ H t3 _ (u mod 2 ^ 39 / 2 ^ 30) H3) as [[-> _]|(t2 & H2 & ->)]; [cbn; lia|apply I3|by rewrite present_zero|].
  destruct (present_child t2 (role_block _ _ _ _ _ _ H H2)) as [-> ->]. some_bind.
  destruct (pi_entry _ _ _ _ H t2 _ (u mod 2 ^ 30 / 2 ^ 21) H2) as [[-> _]|(t1 & H1 & ->)]; [cbn; lia|apply I2|by rewrite present_zero|].
  destruct (present_child t1 (role_block _ _ _ _ _ _ H H1)) as [-> ->]. some_bind.
  destruct (pi_entry _ _ _ _ H t1 _ (u mod 2 ^ 21 / 2 ^ 12) H1) as [[-> _]|(f & Hf & _)]; [cbn; lia|apply I1|by rewrite present_zero|].
  by destruct (Hno f).
Qed.

(** The word and the byte of it that a mapped address designates. *)
Lemma translate_word st own root role x f :
  pt_inv st own root role -> 0 <= x < 2 ^ 47 -> role !! f = Some (path_of x) ->
  exists a, translate (pt_mem st) root x = Some a /\ to_vir (a - a mod 8) = f + 8 * (x mod PAGE_SIZE / 8) /\ a mod 8 = x mod 8 /\ 0 <= x mod PAGE_SIZE / 8 < 512.
Proof.
  intros H Hx Hf. rewrite (translate_walk _ _ _ _ x f H Hx Hf). eexists. split; [done|].
  pose proof (role_block _ _ _ _ _ _ H Hf) as Hb. destruct (kernel_page_phy f Hb) as (Hr & Hal & _ & Ep). apply kernel_page in Hb as (? & ? & ?).
  unfold PAGE_SIZE in *. pose proof (Z.mod_pos_bound x 4096 ltac:(lia)).
  assert (E8 : x mod 8 = (x mod 4096) mod 8) by (symmetry; apply (mod_pow2_mod x 3 12); lia).
  assert (Ea : (to_phy f + x mod 4096) mod 8 = (x mod 4096) mod 8).
  { apply Z.mod_divide in Hal as [k ->]; [|lia]. replace (k * 4096) with (k * 512 * 8) by lia. rewrite Z.add_comm, Z.mod_add by lia. done. }
  pose proof (Z.div_mod (x mod 4096) 8 ltac:(lia)). pose proof (Z.mod_pos_bound (x mod 4096) 8 ltac:(lia)).
  split; [|split; [by rewrite Ea, E8|lia]]. rewrite Ea, Ep, to_vir_low by (unfold KERNEL_OFFSET in *; lia). lia.
Qed.

Lemma ubyte_walk st own root role x f :
  pt_inv st own root role -> 0 <= x < 2 ^ 47 -> role !! f = Some (path_of x) ->
  ubyte (pt_mem st) root x = enc 8 (entry (pt_mem st) f (x mod PAGE_SIZE / 8)) !! Z.to_nat (x mod 8) /\ is_Some (ubyte (pt_mem st) root x).
Proof.
  intros H Hx Hf. destruct (translate_word st own root role x f H Hx Hf) as (a & Et & Ew & E8 & _). unfold ubyte. rewrite Et. some_bind. rewrite Ew, E8.
  split; [done|]. apply lookup_lt_is_Some_2. rewrite enc_length. pose proof (Z.mod_pos_bound x 8 ltac:(lia)). lia.
Qed.

(** ** Refinement *)

(** The tables at [root] implement the user half of [m]. *)
Record represents_space st own (root : Z) role m : Prop := {
  rs_inv : pt_inv st own root role;
  rs_bytes : forall x, 0 <= x < 2 ^ 47 -> m !! x = ubyte (pt_mem st) root x }.

Lemma role_or_none role (q : list Z) : (exists f, role !! f = Some q) \/ (forall f, role !! f <> Some q).
Proof.
  destruct (decide (Exists (fun fp : Z * list Z => fp.2 = q) (map_to_list role))) as [He|Hn].
  - left. apply Exists_exists in He as ((f & q') & Hin%elem_of_map_to_list & Eq). cbn in Eq. exists f. by rewrite <- Eq.
  - right. intros f Hf. apply Hn. apply Exists_exists. exists (f, q). split; [by apply elem_of_map_to_list|done].
Qed.

Lemma space_mapped st own root role m x : represents_space st own root role m -> 0 <= x < 2 ^ 47 ->
  is_Some (m !! x) <-> exists f, role !! f = Some (path_of x).
Proof.
  intros [H Hb] Hx. rewrite (Hb x Hx). split; [|intros [f Hf]; by apply (ubyte_walk st own root role x f)].
  intros [v Hv]. destruct (role_or_none role (path_of x)) as [|Hn]; [done|]. unfold ubyte in Hv. by rewrite (translate_none st own root role x H Hx Hn) in Hv.
Qed.

Lemma user_page_bound a x : 0 <= a < 2 ^ 47 -> page_start x = page_start a -> 0 <= x < 2 ^ 47.
Proof.
  intros Ha E. destruct (page_start_of a) as (_ & Hr & Hm). destruct (page_start_of x) as (_ & Hx & _). rewrite E in Hx.
  apply Z.mod_divide in Hm as [k Hk]; [|done]. unfold PAGE_SIZE in *. change (2 ^ 47) with (2 ^ 35 * 4096) in *. lia.
Qed.

Lemma map_refines st own root role m u :
  represents_space st own root role m -> 0 <= u < 2 ^ 47 -> enough 4 (pt_pages st) ->
  exists page st' own' role', map_page st root u = Some (page, st') /\ represents_space st' own' root role' (u_map m u) /\ own ⊆ own'.
Proof.
  intros Hrep Hu Hen. pose proof Hrep as [H Hb].
  destruct (map_page_new 0 st own root role u H Hu Hen) as (page & st' & own' & role' & Hrun & (H' & (Ho & Hr & _ & Hk) & Hiff & Hz) & _).
  exists page, st', own', role'. split; [done|]. split; [|done]. split; [done|]. intros x Hx. rewrite u_map_lookup.
  2: { intros y Hy. pose proof (user_page_bound u y Hu Hy) as Hyb. pose proof (user_page_bound u (page_start u) Hu (proj1 (page_start_of u))) as Hpb.
       rewrite !eq_None_not_Some, (space_mapped _ _ _ _ _ y Hrep Hyb), (space_mapped _ _ _ _ _ _ Hrep Hpb).
       assert (path_of y = path_of (page_start u)) as ->; [|done]. apply path_of_page; [lia|lia|]. rewrite Hy. symmetry. apply (page_start_of u). }
  destruct (m !! x) as [v|] eqn:Ex.
  - destruct (proj1 (space_mapped _ _ _ _ _ x Hrep Hx) (mk_is_Some _ _ Ex)) as [f Hf]. rewrite (Hb x Hx) in Ex.
    rewrite (proj1 (ubyte_walk st own root role x f H Hx Hf)) in Ex. rewrite <- Ex.
    assert (Hf' : role' !! f = Some (path_of x)) by (by eapply lookup_weaken). rewrite (proj1 (ubyte_walk st' own' root role' x f H' Hx Hf')).
    destruct (translate_word st own root role x f H Hx Hf) as (_ & _ & _ & _ & Hi). rewrite Hk; [done|by destruct (pi_own _ _ _ _ H f _ Hf)| |done].
    intros q Hq. rewrite Hf in Hq. apply (inj Some) in Hq as <-. by left.
  - assert (Hno : forall f, role !! f <> Some (path_of x)).
    { intros f Hf. destruct (proj2 (space_mapped _ _ _ _ _ x Hrep Hx) (ex_intro _ f Hf)). congruence. }
    case_decide as Hp.
    + assert (Ep : path_of x = path_of u) by (apply path_of_page; [lia|lia|done]).
      assert (Hf : role' !! page = Some (path_of x)) by (apply (proj2 (Hiff x page)); by right).
      rewrite (proj1 (ubyte_walk st' own' root role' x page H' Hx Hf)). destruct (translate_word st' own' root role' x page H' Hx Hf) as (_ & _ & _ & _ & Hi).
      destruct Hz as [Hz|[_ Hz]]; [rewrite <- Ep in Hz; by destruct (Hno page)|]. rewrite Hz by done.
      change (enc 8 0) with (replicate 8 0). symmetry. apply lookup_replicate_2. pose proof (Z.mod_pos_bound x 8 ltac:(lia)). lia.
    + symmetry. unfold ubyte. rewrite (translate_none st' own' root role' x H' Hx); [done|]. intros f Hf. apply Hiff in Hf as [Hf|[Ep _]]; [by destruct (Hno f)|].
      apply Hp. apply path_of_page; [lia|lia|done].
Qed.

Lemma store_refines st own root role m x b :
  represents_space st own root role m -> 0 <= x < 2 ^ 47 -> 0 <= b < 256 -> is_Some (m !! x) ->
  exists w, ustore (pt_mem st) root x b = Some w /\ represents_space (with_words st w) own root role (<[x := b]> m).
Proof.
  intros Hrep Hx Hbr Hm. pose proof Hrep as [H Hb]. destruct (proj1 (space_mapped _ _ _ _ _ x Hrep Hx) Hm) as [f Hf].
  destruct (translate_word st own root role x f H Hx Hf) as (a & Et & Ew & E8 & Hi). unfold ustore. rewrite Et. some_bind. rewrite Ew, E8. eexists. split; [done|].
  set (l := <[Z.to_nat (x mod 8) := b]> (enc 8 (rd (pt_mem st) (f + 8 * (x mod PAGE_SIZE / 8))))).
  fold (set_entry (pt_mem st) f (x mod PAGE_SIZE / 8) (le_val l)). pose proof (role_block _ _ _ _ _ _ H Hf) as Hfb.
  assert (H' : pt_inv (with_words st (set_entry (pt_mem st) f (x mod PAGE_SIZE / 8) (le_val l))) own root role).
  { apply (pt_inv_frame st _ own); [done|apply H|done|]. intros c q k Hc Hl Hk. cbn [with_words pt_mem]. rewrite entry_set, decide_False; [done|].
    apply words_apart; try done; [by eapply role_block|]. intros ->. rewrite Hf in Hc. apply (inj Some) in Hc as <-. cbn in Hl. lia. }
  split; [done|]. intros y Hy.
  assert (Hl : enc 8 (le_val l) = l).
  { replace 8%nat with (length l) at 1 by (unfold l; by rewrite length_insert, enc_length). apply enc_le_val. unfold l. apply Forall_insert; [apply enc_bytes|done]. }
  destruct (role_or_none role (path_of y)) as [[g Hg]|Hno].
  2: { rewrite lookup_insert_ne by (intros ->; by destruct (Hno f)). rewrite (Hb y Hy). unfold ubyte. by rewrite !(translate_none _ own root role y). }
  rewrite (proj1 (ubyte_walk _ own root role y g H' Hy Hg)). cbn [with_words pt_mem]. destruct (translate_word st own root role y g H Hy Hg) as (_ & _ & _ & _ & Hiy).
  pose proof (Hb y Hy) as Ey. rewrite (proj1 (ubyte_walk _ own root role y g H Hy Hg)) in Ey. rewrite entry_set.
  pose proof (Z.mod_pos_bound x 8 ltac:(lia)). pose proof (Z.mod_pos_bound y 8 ltac:(lia)). case_decide as Ed.
  - assert (f = g) as <- by (destruct (decide (f = g)); [done|]; exfalso; revert Ed; apply words_apart; try done; by eapply role_block).
    assert (Epg : path_of y = path_of x) by congruence. apply path_of_page in Epg; [|lia|lia].
    assert (Eyx : y - y mod 8 = x - x mod 8).
    { unfold page_start, PAGE_SIZE in *. assert (E : forall z, z mod 8 = (z mod 4096) mod 8) by (intros z; symmetry; apply (mod_pow2_mod z 3 12); lia).
      rewrite (E x), (E y). pose proof (Z.div_mod (x mod 4096) 8 ltac:(lia)). pose proof (Z.div_mod (y mod 4096) 8 ltac:(lia)). lia. }
    rewrite Hl. destruct (decide (y = x)) as [->|Hne].
    + rewrite lookup_insert_eq. unfold l. rewrite list_lookup_insert_eq; [done|]. rewrite enc_length. lia.
    + rewrite lookup_insert_ne by done. unfold l. rewrite list_lookup_insert_ne by lia. rewrite Ey. unfold entry. by rewrite <- Ed.
  - rewrite lookup_insert_ne; [done|]. intros ->. apply Ed. by rewrite (pi_inj _ _ _ _ H f g _ Hf Hg).
Qed.

Lemma clear_refines st own root role m :
  represents_space st own root role m ->
  exists st' own', free_proc_mm st root = Some st' /\ represents_space st' own' root {[root := []]} (u_clear m).
Proof.
  intros [H Hb]. destruct (free_proc_mm_ok st own root role H) as (st' & own' & E & H' & _). exists st', own'. split; [done|]. split; [done|].
  intros x Hx. unfold u_clear, ubyte. rewrite (translate_none st' own' root {[root := []]} x H' Hx) by (by intros f [_ ?]%lookup_singleton_Some).
  apply map_lookup_filter_None_2. right. intros v _. cbn. lia.
Qed.
End Refine.

(** ** The property *)

(** C24: page tables implement address spaces.  When the translation of a tree of tables
    gives the user bytes of [m], then after [map_page] it gives those of [m] with a page
    of zeros added unless it was there, after a store through the translation those of
    [m] with this byte changed, after [free_proc_mm] none, and an address outside [m]
    faults. *)
Theorem page_tables_refine_space {P : Type} `{!PageAllocator P} (st : pt_state P) own root role m :
  represents_space st own root role m ->
  (forall u, 0 <= u < 2 ^ 47 -> enough 4 (pt_pages st) ->
    exists page st' own' role', map_page st root u = Some (page, st') /\ represents_space st' own' root role' (u_map m u) /\ own ⊆ own') /\
  (forall x b, 0 <= x < 2 ^ 47 -> 0 <= b < 256 -> is_Some (m !! x) ->
    exists w, ustore (pt_mem st) root x b = Some w /\ represents_space (with_words st w) own root role (<[x := b]> m)) /\
  (forall x, 0 <= x < 2 ^ 47 -> m !! x = None -> translate (pt_mem st) root x = None) /\
  (exists st' own', free_proc_mm st root = Some st' /\ represents_space st' own' root {[root := []]} (u_clear m)).
Proof.
  intros H. split; [|split; [|split]].
  - intros u. by apply (map_refines st own root role m u).
  - intros x b. by apply (store_refines st own root role m x b).
  - intros x Hx Hm. destruct (role_or_none role (path_of x)) as [Hf|Hn]; [|by apply (translate_none st own root role x (rs_inv _ _ _ _ _ H))].
    apply (space_mapped _ _ _ _ _ x H Hx) in Hf as [? ?]. congruence.
  - exact (clear_refines st own root role m H).
Qed.

(** ** Witness: an empty address space on 32 pages *)

#[local] Existing Instance fork_pages32.

Lemma empty_space32 : represents_space empty32 (<[root32 := 0]> {[proc32 := 1]}) root32 {[root32 := []]} ∅.
Proof.
  split; [exact empty32_inv|]. intros x Hx. rewrite lookup_empty. unfold ubyte.
  by rewrite (translate_none _ _ _ _ x empty32_inv Hx) by (by intros f [_ ?]%lookup_singleton_Some).
Qed.

Lemma page_tables_refine_space_witness : exists page st' own' role',
  map_page empty32 root32 0x400123 = Some (page, st') /\ represents_space st' own' root32 role' (u_map ∅ 0x400123).
Proof.
  destruct (proj1 (page_tables_refine_space empty32 _ root32 _ ∅ empty_space32) 0x400123) as (page & st' & own' & role' & E & H & _); [lia|enough32|].
  exists page, st', own', role'. split; [exact E|exact H].
Defined.
