(* ===== verification/KernelMsg.v ===== *)
(** * Requests to the kernel: [process_kernel_message], [process_mm_message] and [ipc_kmap]
      of [core/ipc.c]

    A [sendrecv] to [IPC_KERNEL] or [IPC_MM] is a call into the kernel.  The answer goes
    into the message of the caller; a request that has to wait for the file server or to
    sleep goes on later with the rest of [Fork], and [execve] is the subject of [Exec]. *)

From S2P Require Import Prelude Buddy PageIface PageTable Sched Ipc Fork ForkProofs Irq UserMem.

Section KernelMessages.
Context {P D : Type} `{!PageAllocator P, !ApicHardware D}.

Record kernel := mk_kernel { k_state : kstate P; k_irqs : irqs D }.

(** [Answer] returns 0 with [retval], which has no value if no request stored one, and
    the message; [Refuse] returns -1.  The others are requests that are not finished. *)
Inductive kanswer :=
  | Answer (retval : option Z) (m : message) (k : kernel)
  | Refuse (k : kernel)
  | Exiting (status : Z) (to_vfs : message) (k : kernel)
  | Waiting (asleep : bool) (k : kernel)
  | Forking (proc : Z) (to_vfs : message) (k : kernel)
  | Execve (pathname argv envp : Z) (k : kernel).

Definition with_state (k : kernel) (s : kstate P) : kernel := mk_kernel s (k_irqs k).

(** [irq_no] is an [int], the vector unsigned. *)
Definition irq_request (k : kernel) (cur type irq_no : Z) (m : message) : option kanswer :=
  c ← procs (k_tab (k_state k)) !! cur;
  if type =? IRQ_REGISTER then r ← register_irq (u32 irq_no) (pid c) (k_irqs k); Some (Answer (Some r.1) m (mk_kernel (k_state k) r.2))
  else if type =? IRQ_UNREGISTER then r ← unregister_irq (u32 irq_no) (k_irqs k); Some (Answer (Some r.1) m (mk_kernel (k_state k) r.2))
  else Some (Refuse k).

(** The arms read the member of the union that belongs to their type. *)
Definition process_kernel_message (k : kernel) (cur : Z) (m : message) : option kanswer :=
  if mtype m =? MSG_IRQ then match body m with m_irq type irq_no => irq_request k cur type irq_no m | _ => None end
  else if mtype m =? MSG_GETPID then c ← procs (k_tab (k_state k)) !! cur; Some (Answer (Some (pid c)) m k)
  else if mtype m =? MSG_EXIT then
    match body m with
    | m_exit status => r ← exit_begin (k_state k) cur; Some (Exiting status r.1 (with_state k r.2))
    | _ => None
    end
  else if mtype m =? MSG_WAIT then
    o ← wait_begin (k_state k) cur;
    Some (match o with WaitRet r s => Answer (Some r) m (with_state k s) | WaitSleep s => Waiting true (with_state k s) | WaitGoOn s => Waiting false (with_state k s) end)
  else Some (Answer None m k).

Definition ipc_kmap (words : gmap Z Z) (pgd : Z) (m : message) : option message :=
  match body m with
  | m_kmap a1 a2 a3 =>
      let f a := if a =? 0 then a else kmap words pgd a in
      Some (mk_message (src m) (mtype m) (m_kmap (f a1) (f a2) (f a3)))
  | _ => None
  end.

Definition process_mm_message (k : kernel) (cur : Z) (m : message) : option kanswer :=
  let s := k_state k in
  c ← procs (k_tab s) !! cur;
  if mtype m =? MSG_BRK then
    match body m with
    | m_brk addr =>
        r ← do_brk (k_pt s) (mm c) addr;
        let '(r, mm', st) := r in
        Some (Answer (Some r) m (with_state k (set_tab (set_pt s st) (set_proc (k_tab s) cur (set_mm c mm')))))
    | _ => None
    end
  else if mtype m =? MSG_FORK then
    o ← fork_begin s cur;
    Some (match o with ForkRet r s => Answer (Some r) m (with_state k s) | ForkSend proc q s => Forking proc q (with_state k s) end)
  else if mtype m =? MSG_EXECVE then match body m with m_execve pathname argv envp => Some (Execve pathname argv envp k) | _ => None end
  else if mtype m =? MSG_KMAP then m' ← ipc_kmap (pt_mem (k_pt s)) (pgd (mm c)) m; Some (Answer (Some 0) m' k)
  else Some (Answer None m k).

(** [sys_sendrecv] for the two receivers. *)
Definition kernel_request (k : kernel) (cur who : Z) (m : message) : option kanswer :=
  m ← pre_syscall (k_tab (k_state k)) cur m;
  if who =? IPC_KERNEL then process_kernel_message k cur m
  else if who =? IPC_MM then process_mm_message k cur m
  else None.

(** ** Properties *)

(** What [kmap] makes of an address: a kernel address stays, a mapped user address becomes
    the kernel's address of the same byte. *)
Definition kernel_view (words : gmap Z Z) (root a b : Z) : Prop :=
  (a = 0 /\ b = 0) \/ (Z.land a (u64 (Z.shiftl 0xffff 48)) <> 0 /\ b = a) \/ (exists p, translate words root a = Some p /\ b = to_vir p).

Lemma kmap_view st own root role a : pt_inv st own root role ->
  (0 <= a < 2 ^ 47 /\ (exists f, role !! f = Some (path_of a))) \/ Z.land a (u64 (Z.shiftl 0xffff 48)) <> 0 ->
  kernel_view (pt_mem st) root a (if a =? 0 then a else kmap (pt_mem st) root a).
Proof.
  intros H Ha. destruct (a =? 0) eqn:E; zbool; [subst a; by left|]. right. destruct Ha as [(Hr & f & Hf)|Hk].
  - right. rewrite (kmap_walk st own root role a f H Hr Hf). rewrite (translate_walk st own root role a f H Hr Hf). eexists. split; [done|].
    pose proof (role_block _ _ _ _ _ _ H Hf) as Hb. destruct (kernel_page_phy f Hb) as (P1 & P2 & P3 & P4). apply kernel_page in Hb as (? & ? & ?). pose proof (Z.mod_pos_bound a PAGE_SIZE ltac:(done)).
    rewrite to_vir_low by (unfold PAGE_SIZE, KERNEL_OFFSET in *; lia). unfold PAGE_SIZE, KERNEL_OFFSET in *. lia.
  - left. split; [done|]. unfold kmap. by rewrite (proj2 (Z.eqb_neq _ 0) Hk).
Qed.

(** An address that a request to map memory may hold. *)
Definition mappable (role : gmap Z (list Z)) (a : Z) : Prop :=
  (0 <= a < 2 ^ 47 /\ (exists f, role !! f = Some (path_of a))) \/ Z.land a (u64 (Z.shiftl 0xffff 48)) <> 0.

Lemma irq_request_ok `{!ApicLaws D} (k : kernel) cur c m last type n :
  procs (k_tab (k_state k)) !! cur = Some c -> pid c <> 0 -> irq_ok last (k_irqs k) ->
  let i := u32 n - IOAPIC_IRQ_BASE in
  let run := irq_request k cur type n m in
  (type <> IRQ_REGISTER -> type <> IRQ_UNREGISTER -> run = Some (Refuse k)) /\
  (~ handled (k_irqs k) (u32 n) -> type = IRQ_REGISTER \/ type = IRQ_UNREGISTER -> run = None) /\
  (handled (k_irqs k) (u32 n) -> type = IRQ_REGISTER \/ type = IRQ_UNREGISTER ->
    let o := if type =? IRQ_REGISTER then pid c else 0 in
    let granted := has_pin (k_irqs k) (u32 n) /\ (type = IRQ_REGISTER -> hw_proc (k_irqs k) !! Z.to_nat i = Some 0) in
    (granted -> exists s', run = Some (Answer (Some 0) m (mk_kernel (k_state k) s')) /\ irq_ok last s' /\ owner_set (k_irqs k) s' i o) /\
    (~ granted -> run = Some (Answer (Some (-1)) m k))).
Proof.
  intros Hc Hp Hi i run. unfold run, irq_request. rewrite Hc. some_bind. split; [|split].
  - intros H1 H2. by rewrite (proj2 (Z.eqb_neq _ _) H1), (proj2 (Z.eqb_neq _ _) H2).
  - intros Hn Ht. destruct (not_handled last (k_irqs k) (u32 n) Hi Hn) as [E1 E2]. unfold register_irq, unregister_irq. rewrite E1, E2.
    by destruct Ht as [->| ->].
  - intros Hh [->| ->].
    + change (IRQ_REGISTER =? IRQ_REGISTER) with true. destruct (register_ok last (k_irqs k) (u32 n) (pid c) Hi Hp Hh) as (r & s' & -> & Hok & Hor). some_bind. cbn [fst snd].
      destruct Hor as [(-> & Hpin & Hfree & Ho)|(-> & -> & Hno)]; (split; [intros [Hp1 Hp2]|intros Hng]).
      * by exists s'.
      * by destruct Hng.
      * destruct Hno as [|(o & Ho & Hx)]; [done|]. fold i in Hx. rewrite (Hp2 eq_refl) in Hx. by injection Hx as <-.
      * by destruct k.
    + change (IRQ_UNREGISTER =? IRQ_REGISTER) with false. change (IRQ_UNREGISTER =? IRQ_UNREGISTER) with true. cbv iota.
      destruct (unregister_ok last (k_irqs k) (u32 n) Hi Hh) as (r & s' & -> & Hok & Hor). some_bind. cbn [fst snd].
      destruct Hor as [(-> & Hpin & Ho)|(-> & -> & Hno)]; (split; [intros [Hp1 Hp2]|intros Hng]); [by exists s'|by destruct Hng|done|by destruct k].
Qed.

(** The requests the two functions have an arm for. *)
Definition kernel_types : list Z := [MSG_IRQ; MSG_GETPID; MSG_EXIT; MSG_WAIT].
Definition mm_types : list Z := [MSG_BRK; MSG_FORK; MSG_EXECVE; MSG_KMAP].

(** C11: requests to the kernel.  They are answered for the caller, whatever sender the
    message names.  [MSG_GETPID] answers its pid; [MSG_IRQ] makes the caller, and nobody else, the
    owner of a free interrupt of the controller and keeps the table of owners, refuses exactly
    an interrupt that does not exist or has an owner, and gives up any existing one (vectors from
    0x30 on leave the table); [MSG_KMAP] replaces each address
    by the kernel's address of the same byte, so that a server sees the caller's memory;
    [MSG_BRK] moves the end of the caller's heap to the next page boundary and keeps its
    address space well formed; a request of any type without an arm returns success without any
    value. *)
Theorem kernel_answers `{!ApicLaws D} (k : kernel) cur c m own role last :
  procs (k_tab (k_state k)) !! cur = Some c -> pid c <> 0 -> irq_ok last (k_irqs k) -> pt_inv (k_pt (k_state k)) own (pgd (mm c)) role ->
  let m' := mk_message (pid c) (mtype m) (body m) in
  (mtype m = MSG_GETPID -> kernel_request k cur IPC_KERNEL m = Some (Answer (Some (pid c)) m' k)) /\
  (forall type n, mtype m = MSG_IRQ -> body m = m_irq type n ->
    let i := u32 n - IOAPIC_IRQ_BASE in
    (type <> IRQ_REGISTER -> type <> IRQ_UNREGISTER -> kernel_request k cur IPC_KERNEL m = Some (Refuse k)) /\
    (~ handled (k_irqs k) (u32 n) -> type = IRQ_REGISTER \/ type = IRQ_UNREGISTER -> kernel_request k cur IPC_KERNEL m = None) /\
    (handled (k_irqs k) (u32 n) -> type = IRQ_REGISTER \/ type = IRQ_UNREGISTER ->
      let o := if type =? IRQ_REGISTER then pid c else 0 in
      let granted := has_pin (k_irqs k) (u32 n) /\ (type = IRQ_REGISTER -> hw_proc (k_irqs k) !! Z.to_nat i = Some 0) in
      (granted -> exists s', kernel_request k cur IPC_KERNEL m = Some (Answer (Some 0) m' (mk_kernel (k_state k) s')) /\ irq_ok last s' /\ owner_set (k_irqs k) s' i o) /\
      (~ granted -> kernel_request k cur IPC_KERNEL m = Some (Answer (Some (-1)) m' k)))) /\
  (forall a1 a2 a3, mtype m = MSG_KMAP -> body m = m_kmap a1 a2 a3 -> mappable role a1 \/ a1 = 0 -> mappable role a2 \/ a2 = 0 -> mappable role a3 \/ a3 = 0 ->
    exists b1 b2 b3, kernel_request k cur IPC_MM m = Some (Answer (Some 0) (mk_message (pid c) MSG_KMAP (m_kmap b1 b2 b3)) k) /\
      let view := kernel_view (pt_mem (k_pt (k_state k))) (pgd (mm c)) in view a1 b1 /\ view a2 b2 /\ view a3 b3) /\
  (forall addr, mtype m = MSG_BRK -> body m = m_brk addr -> space_ok role (mm c) -> start_brk (mm c) <= addr <= 2 ^ 47 -> Z.abs (PAGE_UPPER_ALIGN addr - brk (mm c)) < 2 ^ 43 ->
    enough (4 * nr_pages (brk (mm c)) (PAGE_UPPER_ALIGN addr)) (pt_pages (k_pt (k_state k))) ->
    exists s' own' role', kernel_request k cur IPC_MM m = Some (Answer (Some 0) m' (with_state k s')) /\ pt_inv (k_pt s') own' (pgd (mm c)) role' /\
      procs (k_tab s') = <[cur := set_mm c (set_brk (mm c) (PAGE_UPPER_ALIGN addr))]> (procs (k_tab (k_state k))) /\ space_ok role' (set_brk (mm c) (PAGE_UPPER_ALIGN addr))) /\
  (mtype m ∉ kernel_types -> kernel_request k cur IPC_KERNEL m = Some (Answer None m' k)) /\
  (mtype m ∉ mm_types -> kernel_request k cur IPC_MM m = Some (Answer None m' k)).
Proof.
  intros Hc Hp Hi Hpt m'. assert (Hpre : pre_syscall (k_tab (k_state k)) cur m = Some m') by (unfold pre_syscall; rewrite Hc; by some_bind).
  assert (K1 : kernel_request k cur IPC_KERNEL m = process_kernel_message k cur m') by (unfold kernel_request; rewrite Hpre; by some_bind).
  assert (K2 : kernel_request k cur IPC_MM m = process_mm_message k cur m') by (unfold kernel_request; rewrite Hpre; by some_bind).
  assert (Hmt : mtype m' = mtype m) by done. assert (Hbd : body m' = body m) by done. rewrite K1, K2. unfold process_kernel_message, process_mm_message. rewrite Hmt, Hbd, Hc.
  split; [|split; [|split; [|split; [|split]]]].
  - intros ->. by some_bind.
  - intros type n -> ->. rewrite Z.eqb_refl. by apply irq_request_ok.
  - intros a1 a2 a3 Em Eb H1 H2 H3. rewrite Em. some_bind. change (MSG_KMAP =? MSG_BRK) with false. change (MSG_KMAP =? MSG_FORK) with false. change (MSG_KMAP =? MSG_EXECVE) with false. change (MSG_KMAP =? MSG_KMAP) with true.
    unfold ipc_kmap. rewrite Hbd, Eb. some_bind. rewrite Hmt, Em. eexists _, _, _. split; [done|].
    assert (Hv : forall a, mappable role a \/ a = 0 -> kernel_view (pt_mem (k_pt (k_state k))) (pgd (mm c)) a (if a =? 0 then a else kmap (pt_mem (k_pt (k_state k))) (pgd (mm c)) a)).
    { intros a [Ha| ->]; [by apply (kmap_view _ own _ role)|by left]. }
    split; [by apply Hv|]. split; by apply Hv.
  - intros addr -> -> Hsp Ha Hd He. some_bind. change (MSG_BRK =? MSG_BRK) with true.
    destruct (do_brk_ok (k_pt (k_state k)) own role (mm c) addr Hpt Hsp Ha Hd He) as (st' & own' & role' & E & H' & Hs' & _). rewrite E. run_bind.
    eexists _, own', role'. split; [reflexivity|]. split; [done|]. split; [done|done].
  - intros Hn. unfold kernel_types in Hn. rewrite !not_elem_of_cons in Hn. destruct Hn as (H1 & H2 & H3 & H4 & _).
    by rewrite (proj2 (Z.eqb_neq _ _) H1), (proj2 (Z.eqb_neq _ _) H2), (proj2 (Z.eqb_neq _ _) H3), (proj2 (Z.eqb_neq _ _) H4).
  - intros Hn. unfold mm_types in Hn. rewrite !not_elem_of_cons in Hn. destruct Hn as (H1 & H2 & H3 & H4 & _). some_bind.
    by rewrite (proj2 (Z.eqb_neq _ _) H1), (proj2 (Z.eqb_neq _ _) H2), (proj2 (Z.eqb_neq _ _) H3), (proj2 (Z.eqb_neq _ _) H4).
Qed.
End KernelMessages.

Arguments kernel P D : clear implicits.
Arguments kanswer P D : clear implicits.

(** ** Witness: the process of [ForkProofs] asks for its stack *)

#[local] Existing Instance fork_pages32.
#[local] Existing Instance map_hardware.
#[local] Existing Instance map_laws.

Lemma kernel_answers_witness :
  let k := mk_kernel kernel32 (ioapic_init 0 (cold 15)).2 in
  kernel_request k proc32 IPC_KERNEL (mk_message 0 MSG_GETPID m_none) = Some (Answer (Some 7) (mk_message 7 MSG_GETPID m_none) k) /\
  exists b, kernel_request k proc32 IPC_MM (mk_message 0 MSG_KMAP (m_kmap stack32 0 0)) = Some (Answer (Some 0) (mk_message 7 MSG_KMAP (m_kmap b 0 0)) k) /\
    kernel_view (pt_mem (k_pt kernel32)) root32 stack32 b.
Proof.
  intros k. destruct space32_ok as (own & role & page & _ & _ & H & Ho & Hp).
  assert (Hi : irq_ok (8, 0) (k_irqs k)) by (destruct (irq_start_ok 0 (cold 15)) as (_ & _ & Hi); [reflexivity|reflexivity|exact Hi]).
  assert (Hc : procs (k_tab (k_state k)) !! proc32 = Some cur32) by apply lookup_insert_eq.
  split.
  - exact (proj1 (kernel_answers k proc32 cur32 (mk_message 0 MSG_GETPID m_none) own role (8, 0) Hc ltac:(discriminate) Hi H) eq_refl).
  - destruct (proj1 (proj2 (proj2 (kernel_answers k proc32 cur32 (mk_message 0 MSG_KMAP (m_kmap stack32 0 0)) own role (8, 0) Hc ltac:(discriminate) Hi H))) stack32 0 0 eq_refl eq_refl)
      as (b1 & b2 & b3 & E & V1 & V2 & V3); [left; left; split; [unfold stack32; lia|by exists page]|by right|by right|].
    assert (Hz : forall b, kernel_view (pt_mem (k_pt (k_state k))) (pgd (mm cur32)) 0 b -> b = 0).
    { intros b [[_ Eb]|[[Hn _]|(p & Et & _)]]; [exact Eb|destruct Hn; reflexivity|]. vm_compute in Et. discriminate. }
    rewrite (Hz b2 V2), (Hz b3 V3) in E. exists b1. split; [exact E|exact V1].
Defined.
