(* ===== verification/MsgFormat.v ===== *)
(** * The memory of a message: [include/kernel/ipc.h] and [include/libc/sys/ipc.h]

    Each header declares the structure, one for the kernel and one for the programs and
    servers.  A message is 56 bytes: the sender, a word
    that is the type of a request and the value of an answer, and a union with a member
    for every kind of message.  The other files pass messages with a tagged body; here is
    what the tag means.  A sender that fills the member of its type into whatever the
    memory held gives the receiver of that type the values it wrote. *)

From S2P Require Import Prelude Bytes Sched CString.

(** ** Types and their places *)

(** The types of the machine. *)
Inductive ctype := CInt | CUint | CLong | CUlong.

#[global] Instance ctype_eq_dec : EqDecision ctype.
Proof. solve_decision. Defined.

Definition sizeof (t : ctype) : Z := match t with CInt | CUint => 4 | CLong | CUlong => 8 end.

(** The value of the type that the bytes of a number designate. *)
Definition conv (t : ctype) (v : Z) : Z :=
  match t with CInt => i32 v | CUint => u32 v | CLong => i64 v | CUlong => u64 v end.

(** The first multiple of [n] from [off] on, and the places of the fields of a structure. *)
Definition align (off n : Z) : Z := (off + n - 1) / n * n.

Fixpoint place (off : Z) (l : list ctype) : list (Z * ctype) :=
  match l with
  | [] => []
  | t :: l => let o := align off (sizeof t) in (o, t) :: place (o + sizeof t) l
  end.

Definition get (t : ctype) (off : Z) (m : list Z) : Z := conv t (le (sizeof t) off m).
Definition put (t : ctype) (off v : Z) (m : list Z) : list Z := splice off (enc (Z.to_nat (sizeof t)) v) m.

(** ** The members of the union *)

(** The types as the headers write them, and the two [types.h] that define them. *)
Inductive decl := D_int | D_ulong | D_size_t | D_off_t | D_mode_t | D_pid_t | D_ino_t | D_pointer.

Definition kernel_type (d : decl) : ctype :=
  match d with
  | D_int => CInt | D_ulong => CUlong | D_size_t => CUlong | D_off_t => CLong
  | D_mode_t => CUint | D_pid_t => CInt | D_ino_t => CUlong | D_pointer => CUlong
  end.

Definition libc_type (d : decl) : ctype :=
  match d with
  | D_int => CInt | D_ulong => CUlong | D_size_t => CUlong | D_off_t => CLong
  | D_mode_t => CUint | D_pid_t => CInt | D_ino_t => CUlong | D_pointer => CUlong
  end.

(** The members in [include/kernel/ipc.h]. *)
Definition kernel_members (b : msg_body) : list decl :=
  match b with
  | m_none => []
  | m_read _ _ _ => [D_int; D_pointer; D_size_t]
  | m_write _ _ _ => [D_int; D_pointer; D_size_t]
  | m_open _ _ _ => [D_pointer; D_int; D_mode_t]
  | m_close _ => [D_int]
  | m_lseek _ _ _ => [D_int; D_off_t; D_int]
  | m_execve _ _ _ => [D_pointer; D_pointer; D_pointer]
  | m_exit _ => [D_int]
  | m_wait _ => [D_int]
  | m_brk _ => [D_ulong]
  | m_getcwd _ _ => [D_pointer; D_size_t]
  | m_chdir _ => [D_pointer]
  | m_stat _ _ => [D_pointer; D_pointer]
  | m_getdents _ _ _ => [D_int; D_pointer; D_ulong]
  | m_mkdir _ _ => [D_pointer; D_mode_t]
  | m_bdev_transfer _ _ _ _ => [D_ulong; D_pointer; D_size_t; D_int]
  | m_bdev_part _ _ _ _ => [D_int; D_ulong; D_pointer; D_size_t]
  | m_irq _ _ => [D_int; D_int]
  | m_intr _ => [D_int]
  | m_fs_mnt _ _ => [D_int; D_pointer]
  | m_fs_read _ _ _ _ _ => [D_ino_t; D_size_t; D_off_t; D_pointer; D_size_t]
  | m_fs_write _ _ _ _ _ => [D_ino_t; D_size_t; D_off_t; D_pointer; D_size_t]
  | m_fs_lookup _ _ _ => [D_ino_t; D_pointer; D_pointer]
  | m_fs_stat _ _ => [D_ino_t; D_pointer]
  | m_fs_getdents _ _ _ _ => [D_ino_t; D_size_t; D_off_t; D_pointer]
  | m_fs_mkdir _ _ _ => [D_ino_t; D_pointer; D_mode_t]
  | m_forkfs _ => [D_pid_t]
  | m_kmap _ _ _ => [D_pointer; D_pointer; D_pointer]
  end.

(** The members in [include/libc/sys/ipc.h]. *)
Definition libc_members (b : msg_body) : list decl :=
  match b with
  | m_none => []
  | m_read _ _ _ => [D_int; D_pointer; D_size_t]
  | m_write _ _ _ => [D_int; D_pointer; D_size_t]
  | m_open _ _ _ => [D_pointer; D_int; D_mode_t]
  | m_close _ => [D_int]
  | m_lseek _ _ _ => [D_int; D_off_t; D_int]
  | m_execve _ _ _ => [D_pointer; D_pointer; D_pointer]
  | m_exit _ => [D_int]
  | m_wait _ => [D_int]
  | m_brk _ => [D_ulong]
  | m_getcwd _ _ => [D_pointer; D_size_t]
  | m_chdir _ => [D_pointer]
  | m_stat _ _ => [D_pointer; D_pointer]
  | m_getdents _ _ _ => [D_int; D_pointer; D_ulong]
  | m_mkdir _ _ => [D_pointer; D_mode_t]
  | m_bdev_transfer _ _ _ _ => [D_ulong; D_pointer; D_size_t; D_int]
  | m_bdev_part _ _ _ _ => [D_int; D_ulong; D_pointer; D_size_t]
  | m_irq _ _ => [D_int; D_int]
  | m_intr _ => [D_int]
  | m_fs_mnt _ _ => [D_int; D_pointer]
  | m_fs_read _ _ _ _ _ => [D_ino_t; D_size_t; D_off_t; D_pointer; D_size_t]
  | m_fs_write _ _ _ _ _ => [D_ino_t; D_size_t; D_off_t; D_pointer; D_size_t]
  | m_fs_lookup _ _ _ => [D_ino_t; D_pointer; D_pointer]
  | m_fs_stat _ _ => [D_ino_t; D_pointer]
  | m_fs_getdents _ _ _ _ => [D_ino_t; D_size_t; D_off_t; D_pointer]
  | m_fs_mkdir _ _ _ => [D_ino_t; D_pointer; D_mode_t]
  | m_forkfs _ => [D_pid_t]
  | m_kmap _ _ _ => [D_pointer; D_pointer; D_pointer]
  end.

Inductive header := KernelHeader | LibcHeader.

Definition types_of (h : header) (b : msg_body) : list ctype :=
  match h with KernelHeader => map kernel_type (kernel_members b) | LibcHeader => map libc_type (libc_members b) end.

(** The values of a member. *)
Definition values (b : msg_body) : list Z :=
  match b with
  | m_none => []
  | m_read fd buf size => [fd; buf; size]
  | m_write fd buf size => [fd; buf; size]
  | m_open filepath oflag mode => [filepath; oflag; mode]
  | m_close fd => [fd]
  | m_lseek fd offset whence => [fd; offset; whence]
  | m_execve pathname argv envp => [pathname; argv; envp]
  | m_exit status => [status]
  | m_wait statloc => [statloc]
  | m_brk addr => [addr]
  | m_getcwd buf size => [buf; size]
  | m_chdir pathname => [pathname]
  | m_stat pathname buf => [pathname; buf]
  | m_getdents fd dirp count => [fd; dirp; count]
  | m_mkdir name mode => [name; mode]
  | m_bdev_transfer pos buffer size write => [pos; buffer; size; write]
  | m_bdev_part part pos buffer size => [part; pos; buffer; size]
  | m_irq type irq_no => [type; irq_no]
  | m_intr type => [type]
  | m_fs_mnt part dentry => [part; dentry]
  | m_fs_read inode fsize offset buf size => [inode; fsize; offset; buf; size]
  | m_fs_write inode fsize offset buf size => [inode; fsize; offset; buf; size]
  | m_fs_lookup pino filename dentry => [pino; filename; dentry]
  | m_fs_stat inode buf => [inode; buf]
  | m_fs_getdents inode nbytes offset buf => [inode; nbytes; offset; buf]
  | m_fs_mkdir ino name mode => [ino; name; mode]
  | m_forkfs pid => [pid]
  | m_kmap addr1 addr2 addr3 => [addr1; addr2; addr3]
  end.

(** The fields with their types for the programs. *)
Definition member (b : msg_body) : list (ctype * Z) := zip (types_of LibcHeader b) (values b).

(** The same member with other values. *)
Definition rebuild (b : msg_body) (l : list Z) : msg_body :=
  match b, l with
  | m_read _ _ _, [x; y; z] => m_read x y z
  | m_write _ _ _, [x; y; z] => m_write x y z
  | m_open _ _ _, [x; y; z] => m_open x y z
  | m_close _, [x] => m_close x
  | m_lseek _ _ _, [x; y; z] => m_lseek x y z
  | m_execve _ _ _, [x; y; z] => m_execve x y z
  | m_exit _, [x] => m_exit x
  | m_wait _, [x] => m_wait x
  | m_brk _, [x] => m_brk x
  | m_getcwd _ _, [x; y] => m_getcwd x y
  | m_chdir _, [x] => m_chdir x
  | m_stat _ _, [x; y] => m_stat x y
  | m_getdents _ _ _, [x; y; z] => m_getdents x y z
  | m_mkdir _ _, [x; y] => m_mkdir x y
  | m_bdev_transfer _ _ _ _, [x; y; z; t] => m_bdev_transfer x y z t
  | m_bdev_part _ _ _ _, [x; y; z; t] => m_bdev_part x y z t
  | m_irq _ _, [x; y] => m_irq x y
  | m_intr _, [x] => m_intr x
  | m_fs_mnt _ _, [x; y] => m_fs_mnt x y
  | m_fs_read _ _ _ _ _, [x; y; z; t; u] => m_fs_read x y z t u
  | m_fs_write _ _ _ _ _, [x; y; z; t; u] => m_fs_write x y z t u
  | m_fs_lookup _ _ _, [x; y; z] => m_fs_lookup x y z
  | m_fs_stat _ _, [x; y] => m_fs_stat x y
  | m_fs_getdents _ _ _ _, [x; y; z; t] => m_fs_getdents x y z t
  | m_fs_mkdir _ _ _, [x; y; z] => m_fs_mkdir x y z
  | m_forkfs _, [x] => m_forkfs x
  | m_kmap _ _ _, [x; y; z] => m_kmap x y z
  | _, _ => m_none
  end.

(** ** Messages *)

Definition SRC_OFF : Z := 0.
Definition TYPE_OFF : Z := 8.
Definition BODY_OFF : Z := 16.
Definition SIZEOF_MESSAGE : Z := 56.

Definition get_src (m : list Z) : Z := get CInt SRC_OFF m.
Definition put_src (v : Z) (m : list Z) : list Z := put CInt SRC_OFF v m.
Definition get_type (m : list Z) : Z := get CInt TYPE_OFF m.
Definition put_type (v : Z) (m : list Z) : list Z := put CInt TYPE_OFF v m.
Definition get_retval (m : list Z) : Z := get CLong TYPE_OFF m.
Definition put_retval (v : Z) (m : list Z) : list Z := put CLong TYPE_OFF v m.

(** The fields of a member with their places, as a header has them. *)
Definition places_in (h : header) (b : msg_body) : list (Z * ctype) := place BODY_OFF (types_of h b).
Definition field_places (b : msg_body) : list (Z * ctype) := places_in LibcHeader b.

Definition store_fields (fs : list (Z * ctype * Z)) (m : list Z) : list Z := foldl (fun m '(o, t, v) => put t o v m) m fs.

(** Writing and reading a member with the declarations of a header; the other files use
    those of the programs. *)
Definition put_in (h : header) (b : msg_body) (m : list Z) : list Z := store_fields (zip (places_in h b) (values b)) m.
Definition get_in (h : header) (b : msg_body) (m : list Z) : msg_body := rebuild b (map (fun '(o, t) => get t o m) (places_in h b)).
Definition put_body : msg_body -> list Z -> list Z := put_in LibcHeader.
Definition get_body : msg_body -> list Z -> msg_body := get_in LibcHeader.

(** The values that fit their fields are those [conv] leaves alone. *)
Definition canon (b : msg_body) : msg_body := rebuild b (map (fun '(t, v) => conv t v) (member b)).
Definition fits (b : msg_body) : Prop := Forall (fun '(t, v) => conv t v = v) (member b).

(** ** The interface

    What the callers rely on, written without the headers: the offset and the size of
    every field, and the values that the types of the parameters of the calls can hold. *)

Definition abi (b : msg_body) : list (Z * Z) :=
  match b with
  | m_none => []
  | m_read _ _ _ => [(16, 4); (24, 8); (32, 8)]
  | m_write _ _ _ => [(16, 4); (24, 8); (32, 8)]
  | m_open _ _ _ => [(16, 8); (24, 4); (28, 4)]
  | m_close _ => [(16, 4)]
  | m_lseek _ _ _ => [(16, 4); (24, 8); (32, 4)]
  | m_execve _ _ _ => [(16, 8); (24, 8); (32, 8)]
  | m_exit _ => [(16, 4)]
  | m_wait _ => [(16, 4)]
  | m_brk _ => [(16, 8)]
  | m_getcwd _ _ => [(16, 8); (24, 8)]
  | m_chdir _ => [(16, 8)]
  | m_stat _ _ => [(16, 8); (24, 8)]
  | m_getdents _ _ _ => [(16, 4); (24, 8); (32, 8)]
  | m_mkdir _ _ => [(16, 8); (24, 4)]
  | m_bdev_transfer _ _ _ _ => [(16, 8); (24, 8); (32, 8); (40, 4)]
  | m_bdev_part _ _ _ _ => [(16, 4); (24, 8); (32, 8); (40, 8)]
  | m_irq _ _ => [(16, 4); (20, 4)]
  | m_intr _ => [(16, 4)]
  | m_fs_mnt _ _ => [(16, 4); (24, 8)]
  | m_fs_read _ _ _ _ _ => [(16, 8); (24, 8); (32, 8); (40, 8); (48, 8)]
  | m_fs_write _ _ _ _ _ => [(16, 8); (24, 8); (32, 8); (40, 8); (48, 8)]
  | m_fs_lookup _ _ _ => [(16, 8); (24, 8); (32, 8)]
  | m_fs_stat _ _ => [(16, 8); (24, 8)]
  | m_fs_getdents _ _ _ _ => [(16, 8); (24, 8); (32, 8); (40, 8)]
  | m_fs_mkdir _ _ _ => [(16, 8); (24, 8); (32, 4)]
  | m_forkfs _ => [(16, 4)]
  | m_kmap _ _ _ => [(16, 8); (24, 8); (32, 8)]
  end.

Definition int_v (v : Z) : Prop := - 2 ^ 31 <= v < 2 ^ 31.
Definition uint_v (v : Z) : Prop := 0 <= v < 2 ^ 32.
Definition long_v (v : Z) : Prop := - 2 ^ 63 <= v < 2 ^ 63.
Definition word_v (v : Z) : Prop := 0 <= v < 2 ^ 64.

Definition in_range (b : msg_body) : Prop :=
  match b with
  | m_none => True
  | m_read fd buf size => int_v fd /\ word_v buf /\ word_v size
  | m_write fd buf size => int_v fd /\ word_v buf /\ word_v size
  | m_open filepath oflag mode => word_v filepath /\ int_v oflag /\ uint_v mode
  | m_close fd => int_v fd
  | m_lseek fd offset whence => int_v fd /\ long_v offset /\ int_v whence
  | m_execve pathname argv envp => word_v pathname /\ word_v argv /\ word_v envp
  | m_exit status => int_v status
  | m_wait statloc => int_v statloc
  | m_brk addr => word_v addr
  | m_getcwd buf size => word_v buf /\ word_v size
  | m_chdir pathname => word_v pathname
  | m_stat pathname buf => word_v pathname /\ word_v buf
  | m_getdents fd dirp count => int_v fd /\ word_v dirp /\ word_v count
  | m_mkdir name mode => word_v name /\ uint_v mode
  | m_bdev_transfer pos buffer size write => word_v pos /\ word_v buffer /\ word_v size /\ int_v write
  | m_bdev_part part pos buffer size => int_v part /\ word_v pos /\ word_v buffer /\ word_v size
  | m_irq type irq_no => int_v type /\ int_v irq_no
  | m_intr type => int_v type
  | m_fs_mnt part dentry => int_v part /\ word_v dentry
  | m_fs_read inode fsize offset buf size => word_v inode /\ word_v fsize /\ long_v offset /\ word_v buf /\ word_v size
  | m_fs_write inode fsize offset buf size => word_v inode /\ word_v fsize /\ long_v offset /\ word_v buf /\ word_v size
  | m_fs_lookup pino filename dentry => word_v pino /\ word_v filename /\ word_v dentry
  | m_fs_stat inode buf => word_v inode /\ word_v buf
  | m_fs_getdents inode nbytes offset buf => word_v inode /\ word_v nbytes /\ long_v offset /\ word_v buf
  | m_fs_mkdir ino name mode => word_v ino /\ word_v name /\ uint_v mode
  | m_forkfs pid => int_v pid
  | m_kmap addr1 addr2 addr3 => word_v addr1 /\ word_v addr2 /\ word_v addr3
  end.

(** ** One field *)

Lemma sizeof_pos t : 0 < sizeof t.
Proof. by destruct t. Qed.

Lemma conv_bytes t v : conv t (v mod 256 ^ sizeof t) = conv t v.
Proof.
  destruct t; cbn [conv sizeof]; unfold i32, u32, i64, u64, swrap, uwrap.
  - change (256 ^ 4) with (2 ^ 32). by rewrite Zplus_mod_idemp_l.
  - change (256 ^ 4) with (2 ^ 32). by rewrite Zmod_mod.
  - change (256 ^ 8) with (2 ^ 64). by rewrite Zplus_mod_idemp_l.
  - change (256 ^ 8) with (2 ^ 64). by rewrite Zmod_mod.
Qed.

Lemma put_length t off v m : 0 <= off -> off + sizeof t <= len m -> len (put t off v m) = len m.
Proof.
  intros Ho Hl. pose proof (sizeof_pos t). unfold len, put in *. rewrite splice_length; rewrite ?enc_length; lia.
Qed.

Lemma get_put t off v m : 0 <= off -> off + sizeof t <= len m -> get t off (put t off v m) = conv t v.
Proof.
  intros Ho Hl. pose proof (sizeof_pos t). unfold get, put. rewrite le_splice by (unfold len in *; lia). apply conv_bytes.
Qed.

Lemma get_put_other t off t' o v m : 0 <= off -> 0 <= o -> o + sizeof t' <= len m -> off + sizeof t <= o \/ o + sizeof t' <= off ->
  get t off (put t' o v m) = get t off m.
Proof.
  intros Ho Ho' Hl Hd. pose proof (sizeof_pos t). pose proof (sizeof_pos t'). unfold get, put, len in *. rewrite le_splice_other; rewrite ?enc_length; (done || lia).
Qed.

Lemma put_lookup_other t off v m i : 0 <= off -> off + sizeof t <= len m -> Z.of_nat i < off \/ off + sizeof t <= Z.of_nat i -> put t off v m !! i = m !! i.
Proof.
  intros Ho Hl Hd. pose proof (sizeof_pos t). unfold put, len in *. rewrite splice_lookup by (rewrite ?enc_length; lia). rewrite enc_length.
  destruct ((off <=? Z.of_nat i) && (Z.of_nat i <? off + Z.of_nat (Z.to_nat (sizeof t)))) eqn:E; [zbool; lia|done].
Qed.

(** ** The fields of a member *)

(** Fields one after the other between [lo] and [hi], each aligned to its size. *)
Fixpoint ordered (lo hi : Z) (ps : list (Z * ctype)) : Prop :=
  match ps with
  | [] => lo <= hi
  | (o, t) :: ps => lo <= o /\ o mod sizeof t = 0 /\ ordered (o + sizeof t) hi ps
  end.

Lemma ordered_le ps : forall lo hi, ordered lo hi ps -> lo <= hi.
Proof.
  induction ps as [|[o t] ps IH]; intros lo hi H; [done|]. destruct H as (H1 & _ & H2). apply IH in H2. pose proof (sizeof_pos t). lia.
Qed.

Lemma store_fields_ok ps : forall vs lo hi m, length vs = length ps -> ordered lo hi ps -> 0 <= lo -> hi <= len m ->
  let m' := store_fields (zip ps vs) m in
  len m' = len m /\ map (fun '(o, t) => get t o m') ps = zip_with (fun '(_, t) v => conv t v) ps vs /\
  (forall t off, 0 <= off -> off + sizeof t <= lo \/ hi <= off -> get t off m' = get t off m) /\
  (forall i, Z.of_nat i < lo \/ hi <= Z.of_nat i -> m' !! i = m !! i).
Proof.
  induction ps as [|[o t] ps IH]; intros [|v vs] lo hi m Hn Ho Hlo Hhi; try done. destruct Ho as (H1 & Ha & H2). injection Hn as Hn.
  pose proof (sizeof_pos t). pose proof (ordered_le _ _ _ H2) as Hle. cbn [zip zip_with]. unfold store_fields. cbn [foldl]. fold (store_fields (zip ps vs) (put t o v m)).
  pose proof (put_length t o v m ltac:(lia) ltac:(lia)) as Hl.
  destruct (IH vs (o + sizeof t) hi (put t o v m) Hn H2 ltac:(lia) ltac:(lia)) as (L & G & F & B). split; [lia|]. split; [|split].
  - cbn [map zip_with]. rewrite G. f_equal. rewrite F by lia. apply get_put; lia.
  - intros t' off Ho Hd. pose proof (sizeof_pos t'). rewrite F by lia. apply get_put_other; lia.
  - intros i Hi. rewrite B by lia. apply put_lookup_other; lia.
Qed.

Lemma places_ordered b : ordered BODY_OFF SIZEOF_MESSAGE (field_places b).
Proof. destruct b; vm_compute; repeat split; (done || discriminate). Qed.

Lemma places_length b : length (values b) = length (field_places b).
Proof. by destruct b. Qed.

Lemma canon_places b : rebuild b (zip_with (fun '(_, t) v => conv t v) (field_places b) (values b)) = canon b.
Proof. by destruct b. Qed.

Lemma canon_fits b : fits b -> canon b = b.
Proof.
  unfold canon, fits. intros H. assert (E : map (fun '(t, v) => conv t v) (member b) = map snd (member b)).
  { induction H as [|[t v] l E _ IH]; [done|]. cbn [map snd]. by rewrite E, IH. }
  rewrite E. by destruct b.
Qed.

(** The two headers agree, with each other and with the interface. *)
Lemma headers_agree b : types_of KernelHeader b = types_of LibcHeader b.
Proof. by destruct b. Qed.

Lemma places_agree h b : places_in h b = field_places b.
Proof. unfold field_places, places_in. destruct h; [by rewrite headers_agree|done]. Qed.

Lemma put_agree h b m : put_in h b m = put_body b m.
Proof. unfold put_body, put_in. by rewrite !places_agree. Qed.

Lemma get_agree h b m : get_in h b m = get_body b m.
Proof. unfold get_body, get_in. by rewrite !places_agree. Qed.

Lemma places_abi b : map (fun '(o, t) => (o, sizeof t)) (field_places b) = abi b.
Proof. by destruct b. Qed.

Lemma range_fits b : in_range b -> fits b.
Proof.
  unfold fits, member, int_v, uint_v, long_v, word_v, in_range. destruct b; cbn [types_of libc_members map zip zip_with values libc_type]; intros H; destruct_and?;
    repeat constructor; cbn [conv]; first [by apply i32_small | by apply u32_small | by apply i64_small | by apply u64_small].
Qed.

Lemma put_body_ok b m : SIZEOF_MESSAGE <= len m ->
  len (put_body b m) = len m /\ get_body b (put_body b m) = canon b /\
  (forall t off, 0 <= off -> off + sizeof t <= BODY_OFF -> get t off (put_body b m) = get t off m) /\
  (forall i, Z.of_nat i < BODY_OFF \/ SIZEOF_MESSAGE <= Z.of_nat i -> put_body b m !! i = m !! i).
Proof.
  intros Hm. destruct (store_fields_ok (field_places b) (values b) BODY_OFF SIZEOF_MESSAGE m (places_length b) (places_ordered b) ltac:(done) Hm) as (L & G & F & B).
  split; [exact L|]. split; [unfold get_body, put_body, get_in, put_in; fold (field_places b); by rewrite G, canon_places|]. split; [intros; apply F; auto|done].
Qed.

Lemma ordered_elem ps : forall lo hi o t, ordered lo hi ps -> In (o, t) ps -> lo <= o /\ o + sizeof t <= hi.
Proof.
  induction ps as [|[o' t'] ps IH]; intros lo hi o t H Hin; [done|]. destruct H as (H1 & _ & H2). pose proof (sizeof_pos t'). destruct Hin as [E|Hin].
  - injection E as -> ->. pose proof (ordered_le _ _ _ H2). lia.
  - destruct (IH _ _ _ _ H2 Hin). lia.
Qed.

(** A member does not depend on the header. *)
Lemma get_body_header b t off v m : 0 <= off -> off + sizeof t <= BODY_OFF -> SIZEOF_MESSAGE <= len m -> get_body b (put t off v m) = get_body b m.
Proof.
  intros Ho Hle Hm. unfold get_body, get_in. f_equal. apply map_ext_in. intros [o t'] Hin.
  destruct (ordered_elem _ _ _ _ _ (places_ordered b) Hin). apply get_put_other; unfold SIZEOF_MESSAGE, BODY_OFF in *; lia.
Qed.

(** ** The property *)

Ltac fields := unfold get_src, put_src, get_type, put_type, get_retval, put_retval, SRC_OFF, TYPE_OFF, BODY_OFF, SIZEOF_MESSAGE in *.

Lemma get_type_retval r m : SIZEOF_MESSAGE <= len m -> get_type (put_retval r m) = i32 r.
Proof.
  intros Hm. fields. unfold get, put, sizeof, le, conv. change (Z.to_nat 8) with 8%nat. unfold len in Hm.
  assert (E : slice 8 4 (splice 8 (enc 8 r) m) = enc 4 r).
  { apply list_eq. intros i. destruct (decide (i < 4)%nat) as [Hi|Hi].
    - rewrite slice_lookup by lia. rewrite splice_lookup by (rewrite ?enc_length; lia). rewrite enc_length.
      destruct ((8 <=? Z.of_nat (Z.to_nat 8 + i)) && (Z.of_nat (Z.to_nat 8 + i) <? 8 + Z.of_nat 8)) eqn:Eb; [|zbool; destruct_or?; zbool; lia].
      replace (Z.to_nat _) with i by lia. by repeat (destruct i as [|i]; [done|]); lia.
    - rewrite !lookup_ge_None_2; [done|rewrite enc_length; lia|]. unfold slice. rewrite length_take. lia. }
  rewrite E, le_val_enc. change (256 ^ Z.of_nat 4) with (256 ^ sizeof CInt). apply (conv_bytes CInt).
Qed.


