(* ===== verification/Syscalls.v ===== *)
(** * System calls of the C library: [libc/syscall.c]

    A wrapper fills a message and sends it; a wrapper with a pointer first asks the kernel
    for its own address of the memory, which is what the server gets.  The messages are the
    bytes of [MsgFormat]: a variable [message m] holds whatever the stack held, the
    parameter [m0]. *)

From S2P Require Import Prelude Bytes Sched Irq CString MsgFormat.

(** ** Numbers of [include/libc/sys/ipc.h] *)

Definition MSG_READ : Z := 1.
Definition MSG_WRITE : Z := 2.
Definition MSG_OPEN : Z := 3.
Definition MSG_CLOSE : Z := 4.
Definition MSG_LSEEK : Z := 7.
Definition MSG_GETCWD : Z := 12.
Definition MSG_CHDIR : Z := 13.
Definition MSG_STAT : Z := 14.
Definition MSG_GETDENTS : Z := 15.
Definition MSG_MKDIR : Z := 16.
Definition MSG_BDEV_TRANSFER : Z := 257.
Definition MSG_EXECFS : Z := 266.
Definition MSG_BDEV_PART : Z := 269.
Definition O_CREAT : Z := 0x40.

(** [_sendrecv] of [libc/entry.S]: the status of the system call and the message after it. *)
Class MessageSystem (K : Type) := { _sendrecv : Z -> list Z -> SO K (Z * list Z) }.

Section Wrappers.
Context {K : Type} `{!MessageSystem K}.

Definition _syscall (who type : Z) (msg : list Z) : SO K (Z * list Z) :=
  '(status, msg) ← _sendrecv who (put_type type msg);
  if negb (status =? 0) then mret (-1, msg) else mret (i32 (get_retval msg), msg).

(** The arguments are NULL or the pointers they point to. *)
Definition put_ptr (off : Z) (a : option Z) (m : list Z) : list Z := match a with Some v => put CUlong off v m | None => m end.
Definition get_ptr (off : Z) (a : option Z) (m : list Z) : option Z := match a with Some _ => Some (get CUlong off m) | None => None end.

Definition _kmap (addr1 addr2 addr3 : option Z) : SO K (Z * option Z * option Z * option Z) :=
  let m := replicate (Z.to_nat SIZEOF_MESSAGE) 0 in
  let m := put_ptr 32 addr3 (put_ptr 24 addr2 (put_ptr 16 addr1 m)) in
  '(r, m) ← _syscall IPC_MM MSG_KMAP m;
  if negb (r =? 0) then mret (-1, addr1, addr2, addr3)
  else mret (0, get_ptr 16 addr1 m, get_ptr 24 addr2 m, get_ptr 32 addr3 m).

(** [_kmap(&p, NULL, NULL)]: the status and [p] after it. *)
Definition kmap_one (p : Z) : SO K (Z * Z) := '(r, a, _, _) ← _kmap (Some p) None None; mret (r, default p a).

Context (m0 : list Z).

Definition read (fd buf nbytes : Z) : SO K Z :=
  '(r, buf) ← kmap_one buf;
  if negb (r =? 0) then mret (-1) else '(r, _) ← _syscall IPC_VFS MSG_READ (put_body (m_read fd buf nbytes) m0); mret r.

Definition write (fd buf nbytes : Z) : SO K Z :=
  '(r, buf) ← kmap_one buf;
  if negb (r =? 0) then mret (-1) else '(r, _) ← _syscall IPC_VFS MSG_WRITE (put_body (m_write fd buf nbytes) m0); mret r.

(** Without [O_CREAT] the field [mode] keeps what it held. *)
Definition open (path oflag mode : Z) : SO K Z :=
  '(r, path) ← kmap_one path;
  if negb (r =? 0) then mret (-1)
  else
    let m := put CInt 24 oflag (put CUlong 16 path m0) in
    let m := if Z.land oflag O_CREAT =? 0 then m else put CUint 28 mode m in
    '(r, _) ← _syscall IPC_VFS MSG_OPEN m; mret r.

Definition close (fd : Z) : SO K Z := '(r, _) ← _syscall IPC_VFS MSG_CLOSE (put_body (m_close fd) m0); mret r.

Definition lseek (fd offset whence : Z) : SO K Z := '(r, _) ← _syscall IPC_VFS MSG_LSEEK (put_body (m_lseek fd offset whence) m0); mret r.

Definition fork : SO K Z := '(r, _) ← _syscall IPC_MM MSG_FORK m0; mret r.

Definition exit (status : Z) : SO K unit := _syscall IPC_KERNEL MSG_EXIT (put_body (m_exit status) m0);; mret tt.

Definition execve (pathname argv envp : Z) : SO K Z := '(r, _) ← _syscall IPC_MM MSG_EXECVE (put_body (m_execve pathname argv envp) m0); mret r.

Definition brk (addr : Z) : SO K Z := '(r, _) ← _syscall IPC_MM MSG_BRK (put_body (m_brk addr) m0); mret r.

(** The result and what is stored at [statloc], if it is not NULL. *)
Definition wait (statloc : bool) : SO K (Z * option Z) :=
  '(status, m) ← _syscall IPC_KERNEL MSG_WAIT m0;
  if status <=? 0 then mret (status, None) else mret (status, if statloc then Some (get CInt 16 m) else None).

Definition getpid : SO K Z := '(r, _) ← _syscall IPC_KERNEL MSG_GETPID m0; mret r.

Definition getcwd (buf size : Z) : SO K Z :=
  let oldbuf := buf in
  '(r, buf) ← kmap_one buf;
  if negb (r =? 0) then mret NULL
  else '(r, _) ← _syscall IPC_VFS MSG_GETCWD (put_body (m_getcwd buf size) m0); mret (if negb (r =? 0) then NULL else oldbuf).

Definition chdir (pathname : Z) : SO K Z :=
  '(r, pathname) ← kmap_one pathname;
  if negb (r =? 0) then mret (-1) else '(r, _) ← _syscall IPC_VFS MSG_CHDIR (put_body (m_chdir pathname) m0); mret r.

Definition stat (pathname buf : Z) : SO K Z :=
  '(r, p, b, _) ← _kmap (Some pathname) (Some buf) None;
  if negb (r =? 0) then mret (-1)
  else '(r, _) ← _syscall IPC_VFS MSG_STAT (put_body (m_stat (default pathname p) (default buf b)) m0); mret r.

Definition getdents (fd dirp nbytes : Z) : SO K Z :=
  '(r, dirp) ← kmap_one dirp;
  if negb (r =? 0) then mret 0 else '(r, _) ← _syscall IPC_VFS MSG_GETDENTS (put_body (m_getdents fd dirp nbytes) m0); mret r.

Definition mkdir (name mode : Z) : SO K Z :=
  '(r, name) ← kmap_one name;
  if negb (r =? 0) then mret (-1) else '(r, _) ← _syscall IPC_VFS MSG_MKDIR (put_body (m_mkdir name mode) m0); mret r.

(** The wrappers that return [retval]: an [int], except for [bdev_part_read]. *)
Definition sendrecv_long (who type : Z) (b : msg_body) : SO K Z :=
  '(status, m) ← _sendrecv who (put_body b (put_type type m0));
  if negb (status =? 0) then mret (-1) else mret (get_retval m).
Definition sendrecv_int (who type : Z) (b : msg_body) : SO K Z := r ← sendrecv_long who type b; mret (i32 r).

Definition register_irq (no_intr : Z) : SO K Z := sendrecv_int IPC_KERNEL MSG_IRQ (m_irq IRQ_REGISTER no_intr).
Definition unregister_irq (no_intr : Z) : SO K Z := sendrecv_int IPC_KERNEL MSG_IRQ (m_irq IRQ_UNREGISTER no_intr).

Definition bdev_read (pos buf size : Z) : SO K Z :=
  '(r, buf) ← kmap_one buf;
  if negb (r =? 0) then mret (-1) else sendrecv_int IPC_DISK MSG_BDEV_TRANSFER (m_bdev_transfer pos buf size 0).
Definition bdev_write (pos buf size : Z) : SO K Z :=
  '(r, buf) ← kmap_one buf;
  if negb (r =? 0) then mret (-1) else sendrecv_int IPC_DISK MSG_BDEV_TRANSFER (m_bdev_transfer pos buf size 1).
Definition bdev_part_read (part pos buf size : Z) : SO K Z :=
  '(r, buf) ← kmap_one buf;
  if negb (r =? 0) then mret (-1) else sendrecv_long IPC_DISK MSG_BDEV_PART (m_bdev_part part pos buf size).
End Wrappers.

(** ** What the receivers read

    The member of the union that a receiver reads for a type of request. *)

Definition kernel_member (type : Z) : msg_body :=
  if type =? MSG_IRQ then m_irq 0 0 else if type =? MSG_EXIT then m_exit 0 else if type =? MSG_WAIT then m_wait 0 else m_none.

Definition mm_member (type : Z) : msg_body :=
  if type =? MSG_BRK then m_brk 0 else if type =? MSG_EXECVE then m_execve 0 0 0 else if type =? MSG_KMAP then m_kmap 0 0 0 else m_none.

Definition vfs_member (type : Z) : msg_body :=
  if type =? MSG_READ then m_read 0 0 0
  else if type =? MSG_WRITE then m_write 0 0 0
  else if type =? MSG_OPEN then m_open 0 0 0
  else if type =? MSG_CLOSE then m_close 0
  else if type =? MSG_LSEEK then m_lseek 0 0 0
  else if type =? MSG_GETCWD then m_getcwd 0 0
  else if type =? MSG_CHDIR then m_chdir 0
  else if type =? MSG_STAT then m_stat 0 0
  else if type =? MSG_GETDENTS then m_getdents 0 0 0
  else if type =? MSG_MKDIR then m_mkdir 0 0
  else if type =? MSG_FORKFS then m_forkfs 0
  else m_none.

Definition disk_member (type : Z) : msg_body :=
  if type =? MSG_BDEV_TRANSFER then m_bdev_transfer 0 0 0 0 else if type =? MSG_BDEV_PART then m_bdev_part 0 0 0 0 else m_none.

Definition request_member (who type : Z) : msg_body :=
  if who =? IPC_KERNEL then kernel_member type
  else if who =? IPC_MM then mm_member type
  else if who =? IPC_VFS then vfs_member type
  else if who =? IPC_DISK then disk_member type
  else m_none.

(** Receivers that take and give tagged messages: the status of the system call, the value
    of the answer and its member.  [kmap] answers in the member of the request, [wait] in
    [m_wait]. *)
Class TypedSystem (T : Type) := { answer : Z -> Z -> msg_body -> SO T (Z * Z * msg_body) }.

Class TypedLaws (T : Type) `{!TypedSystem T} := {
  kmap_answer a1 a2 a3 t r b t' : answer IPC_MM MSG_KMAP (m_kmap a1 a2 a3) t = Some ((0, r, b), t') -> exists b1 b2 b3, b = m_kmap b1 b2 b3;
  wait_answer x t r b t' : answer IPC_KERNEL MSG_WAIT (m_wait x) t = Some ((0, r, b), t') -> exists st, b = m_wait st }.

(** The same system on the bytes of messages. *)
#[global] Instance message_system {T} `{!TypedSystem T} : MessageSystem T := {|
  _sendrecv who m :=
    let type := get_type m in
    '(status, r, b) ← answer who type (get_body (request_member who type) m);
    if status =? 0 then mret (0, put_retval r (put_body b m)) else mret (status, m) |}.

(** ** The wrappers on tagged messages *)

Section Typed.
Context {T : Type} `{!TypedSystem T}.

(** One request and its answer. *)
Definition typed_call (who type : Z) (b : msg_body) : SO T (Z * msg_body) :=
  '(status, r, b) ← answer who type b; mret (if status =? 0 then i32 r else -1, b).

Definition ask (who type : Z) (b : msg_body) : SO T Z := '(r, _) ← typed_call who type b; mret r.

(** A result that is not cut to an [int]. *)
Definition ask_long (who type : Z) (b : msg_body) : SO T Z := '(status, r, _) ← answer who type b; mret (if status =? 0 then i64 r else -1).

(** [f] of the kernel's address of [p], or [fail]. *)
Definition with_ptr (fail p : Z) (f : Z -> SO T Z) : SO T Z :=
  '(r, b) ← typed_call IPC_MM MSG_KMAP (m_kmap p 0 0);
  if negb (r =? 0) then mret fail else match b with m_kmap a _ _ => f (u64 a) | _ => lift None end.

Definition with_ptrs (fail p q : Z) (f : Z -> Z -> SO T Z) : SO T Z :=
  '(r, b) ← typed_call IPC_MM MSG_KMAP (m_kmap p q 0);
  if negb (r =? 0) then mret fail else match b with m_kmap a c _ => f (u64 a) (u64 c) | _ => lift None end.

(** The same member with zeros, which is what the receivers' tables name. *)
Definition skel (b : msg_body) : msg_body := rebuild b (map (fun _ => 0) (member b)).

Lemma get_body_skel b m : get_body (skel b) m = get_body b m.
Proof. by destruct b. Qed.

Lemma i32_i64 r : i32 (i64 r) = i32 r.
Proof.
  unfold i32, i64, swrap. change (64 - 1) with 63. change (32 - 1) with 31. f_equal. set (k := r + 2 ^ 63). replace (k mod 2 ^ 64 - 2 ^ 63 + 2 ^ 31) with (k mod 2 ^ 64 + (- 2 ^ 63 + 2 ^ 31)) by lia.
  rewrite Z.add_mod, mod_pow2_mod, <- Z.add_mod by lia. unfold k. replace (r + 2 ^ 63 + (- 2 ^ 63 + 2 ^ 31)) with (r + 2 ^ 31) by lia. done.
Qed.

Lemma len_put_type type m : SIZEOF_MESSAGE <= len m -> len (put_type type m) = len m.
Proof. intros. unfold put_type. apply put_length; fields; cbn; lia. Qed.

Lemma get_retval_put r m : SIZEOF_MESSAGE <= len m -> get_retval (put_retval r m) = i64 r.
Proof. intros. unfold get_retval, put_retval. apply get_put; fields; cbn; lia. Qed.

(** A request on bytes is the request that the receiver reads. *)
Lemma sendrecv_typed who type b m t : SIZEOF_MESSAGE <= len m -> i32 type = type -> request_member who type = skel b -> get_body b m = b ->
  _sendrecv who (put_type type m) t =
  ('(status, r, b') ← answer who type b; if status =? 0 then mret (0, put_retval r (put_body b' (put_type type m))) else mret (status, put_type type m)) t.
Proof.
  intros Hm Ht Hs Hb. assert (E : get_type (put_type type m) = type) by (unfold get_type, put_type; rewrite get_put by (fields; cbn; lia); exact Ht).
  cbn [_sendrecv message_system]. rewrite E, Hs, get_body_skel. unfold put_type. rewrite get_body_header by (fields; cbn; lia). by rewrite Hb.
Qed.

Lemma syscall_typed who type b m t : SIZEOF_MESSAGE <= len m -> i32 type = type -> request_member who type = skel b -> get_body b m = b ->
  _syscall who type m t =
  ('(status, r, b') ← answer who type b;
   mret (if status =? 0 then i32 r else -1, if status =? 0 then put_retval r (put_body b' (put_type type m)) else put_type type m)) t.
Proof.
  intros Hm Ht Hs Hb. unfold _syscall, mbind, SO_bind. rewrite (sendrecv_typed who type b m t Hm Ht Hs Hb). unfold mbind, SO_bind.
  destruct (answer who type b t) as [[[[st r] b'] t']|]; [|done]. destruct (st =? 0) eqn:E; unfold mret, SO_ret; [|by rewrite E]. cbn [Z.eqb negb].
  rewrite get_retval_put, i32_i64; [done|]. destruct (put_body_ok b' (put_type type m)) as (L & _); rewrite ?L, len_put_type; lia.
Qed.

Lemma ask_typed who type b m t : SIZEOF_MESSAGE <= len m -> i32 type = type -> request_member who type = skel b -> get_body b m = b ->
  ('(r, _) ← _syscall who type m; mret r) t = ask who type b t.
Proof.
  intros Hm Ht Hs Hb. unfold ask, typed_call, mbind, SO_bind. rewrite (syscall_typed who type b m t Hm Ht Hs Hb). unfold mbind, SO_bind. by destruct (answer who type b t) as [[[[st r] b'] t']|].
Qed.

Lemma filled b m : SIZEOF_MESSAGE <= len m -> fits b -> SIZEOF_MESSAGE <= len (put_body b m) /\ get_body b (put_body b m) = b.
Proof. intros Hm Hf. destruct (put_body_ok b m Hm) as (L & G & _). rewrite L, G. split; [done|by apply canon_fits]. Qed.

Lemma ask_filled who type b m t : SIZEOF_MESSAGE <= len m -> i32 type = type -> request_member who type = skel b -> fits b ->
  ('(r, _) ← _syscall who type (put_body b m); mret r) t = ask who type b t.
Proof. intros Hm Ht Hs Hf. destruct (filled b m Hm Hf). by apply ask_typed. Qed.

Lemma u64_u64 a : u64 (u64 a) = u64 a.
Proof. unfold u64, uwrap. apply Zmod_mod. Qed.

(** ** [_kmap] *)

Definition kmap_zero : list Z := replicate (Z.to_nat SIZEOF_MESSAGE) 0.

Lemma kmap_fill p q : u64 p = p -> u64 (default 0 q) = default 0 q ->
  let m := put_ptr 24 q (put CUlong 16 p kmap_zero) in SIZEOF_MESSAGE <= len m /\ get_body (m_kmap p (default 0 q) 0) m = m_kmap p (default 0 q) 0.
Proof.
  intros Hp Hq m. assert (L0 : len kmap_zero = 56) by done. assert (L1 : len (put CUlong 16 p kmap_zero) = 56) by (rewrite put_length; cbn [sizeof]; lia).
  assert (L : len m = 56) by (unfold m, put_ptr; destruct q; [rewrite put_length; cbn [sizeof]; lia|done]). split; [unfold SIZEOF_MESSAGE; lia|].
  change (m_kmap (get CUlong 16 m) (get CUlong 24 m) (get CUlong 32 m) = m_kmap p (default 0 q) 0). unfold m, put_ptr. destruct q as [q|]; cbn [default from_option id] in *.
  - rewrite (get_put_other CUlong 16), (get_put CUlong 16), (get_put CUlong 24), (get_put_other CUlong 32 CUlong 24), (get_put_other CUlong 32 CUlong 16) by (cbn [sizeof]; lia). cbn [conv]. by rewrite Hp, Hq.
  - rewrite (get_put CUlong 16), (get_put_other CUlong 24), (get_put_other CUlong 32 CUlong 16) by (cbn [sizeof]; lia). cbn [conv]. by rewrite Hp.
Qed.

Lemma kmap_typed `{!TypedLaws T} p q t : u64 p = p -> u64 (default 0 q) = default 0 q ->
  _kmap (Some p) q None t =
  ('(r, b) ← typed_call IPC_MM MSG_KMAP (m_kmap p (default 0 q) 0);
   if negb (r =? 0) then mret (-1, Some p, q, None)
   else match b with m_kmap a c _ => mret (0, Some (u64 a), (fun _ => u64 c) <$> q, None) | _ => lift None end) t.
Proof.
  intros Hp Hq. destruct (kmap_fill p q Hp Hq) as [L G]. unfold _kmap. fold kmap_zero. change (put_ptr 32 None ?m) with m. change (put_ptr 16 (Some p) kmap_zero) with (put CUlong 16 p kmap_zero).
  set (m := put_ptr 24 q (put CUlong 16 p kmap_zero)) in *. unfold typed_call, mbind, SO_bind. rewrite (syscall_typed IPC_MM MSG_KMAP (m_kmap p (default 0 q) 0) m t L eq_refl eq_refl G). unfold mbind, SO_bind.
  destruct (answer IPC_MM MSG_KMAP _ t) as [[[[st r] b] t']|] eqn:E; [|done]. unfold mret, SO_ret. destruct (st =? 0) eqn:Es; [|done]. zbool. subst st.
  destruct (i32 r =? 0) eqn:Er; [|done]. cbn [negb]. destruct (kmap_answer _ _ _ _ _ _ _ E) as (b1 & b2 & b3 & ->).
  assert (L2 : SIZEOF_MESSAGE <= len (put_type MSG_KMAP m)) by (rewrite len_put_type; done). destruct (put_body_ok (m_kmap b1 b2 b3) _ L2) as (L3 & G3 & _).
  assert (G4 : get_body (m_kmap b1 b2 b3) (put_retval r (put_body (m_kmap b1 b2 b3) (put_type MSG_KMAP m))) = canon (m_kmap b1 b2 b3)).
  { unfold put_retval. rewrite get_body_header; [done|fields; cbn; lia|fields; cbn; lia|lia]. }
  set (M := put_retval _ _) in *. 
  assert (G5 : m_kmap (get CUlong 16 M) (get CUlong 24 M) (get CUlong 32 M) = m_kmap (u64 b1) (u64 b2) (u64 b3)) by exact G4. 
  assert (E1 : get CUlong 16 M = u64 b1) by congruence. assert (E2 : get CUlong 24 M = u64 b2) by congruence. unfold get_ptr. rewrite E1. destruct q as [q|]; cbn [fmap option_fmap option_map]; [|done]. by rewrite E2.
Qed.

Lemma kmap_one_typed `{!TypedLaws T} p fail f t : u64 p = p ->
  ('(r, a) ← kmap_one p; if negb (r =? 0) then mret fail else f a) t = with_ptr fail p f t.
Proof.
  intros Hp. unfold kmap_one, with_ptr, mbind, SO_bind. rewrite (kmap_typed p None t Hp eq_refl). unfold mbind, SO_bind. change (default 0 None) with 0.
  destruct (typed_call IPC_MM MSG_KMAP (m_kmap p 0 0) t) as [[[r b] t']|]; [|done]. destruct (r =? 0) eqn:E; cbn [negb]; [|done]. by destruct b.
Qed.

Lemma kmap_two_typed `{!TypedLaws T} p q fail f t : u64 p = p -> u64 q = q ->
  ('(r, a, c, _) ← _kmap (Some p) (Some q) None; if negb (r =? 0) then mret fail else f (default p a) (default q c)) t = with_ptrs fail p q f t.
Proof.
  intros Hp Hq. unfold with_ptrs, mbind, SO_bind. rewrite (kmap_typed p (Some q) t Hp Hq). unfold mbind, SO_bind. change (default 0 (Some q)) with q.
  destruct (typed_call IPC_MM MSG_KMAP (m_kmap p q 0) t) as [[[r b] t']|]; [|done]. destruct (r =? 0) eqn:E; cbn [negb]; [|done]. by destruct b.
Qed.

(** The continuation may use that the address is a pointer. *)
Lemma with_ptr_ext fail p f g t : (forall a t, f (u64 a) t = g (u64 a) t) -> with_ptr fail p f t = with_ptr fail p g t.
Proof.
  intros H. unfold with_ptr, mbind, SO_bind. destruct (typed_call IPC_MM MSG_KMAP (m_kmap p 0 0) t) as [[[r b] t']|]; [|done]. destruct (negb (r =? 0)); [done|]. destruct b; auto.
Qed.

Lemma with_ptrs_ext fail p q f g t : (forall a c t, f (u64 a) (u64 c) t = g (u64 a) (u64 c) t) -> with_ptrs fail p q f t = with_ptrs fail p q g t.
Proof.
  intros H. unfold with_ptrs, mbind, SO_bind. destruct (typed_call IPC_MM MSG_KMAP (m_kmap p q 0) t) as [[[r b] t']|]; [|done]. destruct (negb (r =? 0)); [done|]. destruct b; auto.
Qed.

(** What [wait] returns and stores. *)
Definition ask_wait (x : Z) (statloc : bool) : SO T (Z * option Z) :=
  '(r, b) ← typed_call IPC_KERNEL MSG_WAIT (m_wait x);
  if r <=? 0 then mret (r, None) else match b with m_wait st => mret (r, if statloc then Some (i32 st) else None) | _ => lift None end.

Lemma wait_typed `{!TypedLaws T} m0 statloc t : SIZEOF_MESSAGE <= len m0 -> wait m0 statloc t = ask_wait (get CInt 16 m0) statloc t.
Proof.
  intros Hm. unfold wait, ask_wait, typed_call, mbind, SO_bind. rewrite (syscall_typed IPC_KERNEL MSG_WAIT (m_wait (get CInt 16 m0)) m0 t Hm eq_refl eq_refl eq_refl). unfold mbind, SO_bind.
  destruct (answer IPC_KERNEL MSG_WAIT _ t) as [[[[st r] b] t']|] eqn:E; [|done]. unfold mret, SO_ret. destruct (st =? 0) eqn:Es; [|done]. zbool. subst st.
  destruct (i32 r <=? 0); [done|]. destruct (wait_answer _ _ _ _ _ E) as [x ->]. set (m := put_type MSG_WAIT m0). assert (L : SIZEOF_MESSAGE <= len m) by (unfold m; by rewrite len_put_type).
  destruct (put_body_ok (m_wait x) m L) as (L3 & G3 & _). assert (G4 : m_wait (get CInt 16 (put_retval r (put_body (m_wait x) m))) = m_wait (i32 x)); [|by destruct statloc; congruence].
  change (get_body (m_wait x) (put_retval r (put_body (m_wait x) m)) = canon (m_wait x)). unfold put_retval. rewrite get_body_header; [done|fields; cbn; lia|fields; cbn; lia|lia].
Qed.

Lemma open_fill a oflag mode m0 : SIZEOF_MESSAGE <= len m0 -> i32 oflag = oflag -> u32 mode = mode ->
  let m := put CInt 24 oflag (put CUlong 16 (u64 a) m0) in
  SIZEOF_MESSAGE <= len m /\ SIZEOF_MESSAGE <= len (put CUint 28 mode m) /\
  get_body (m_open (u64 a) oflag (get CUint 28 m0)) m = m_open (u64 a) oflag (get CUint 28 m0) /\
  get_body (m_open (u64 a) oflag mode) (put CUint 28 mode m) = m_open (u64 a) oflag mode.
Proof.
  intros Hm Ho Hmo m. unfold SIZEOF_MESSAGE in *. assert (L1 : len (put CUlong 16 (u64 a) m0) = len m0) by (rewrite put_length; cbn [sizeof]; lia).
  assert (L2 : len m = len m0) by (unfold m; rewrite put_length; cbn [sizeof]; lia). assert (L3 : len (put CUint 28 mode m) = len m0) by (rewrite put_length; cbn [sizeof]; lia).
  assert (G1 : get CUlong 16 m = u64 a) by (unfold m; rewrite get_put_other, get_put by (cbn [sizeof]; lia); apply u64_u64).
  assert (G2 : get CInt 24 m = oflag) by (unfold m; rewrite get_put by (cbn [sizeof]; lia); exact Ho).
  assert (G3 : get CUint 28 m = get CUint 28 m0) by (unfold m; rewrite !get_put_other by (cbn [sizeof]; lia); done).
  split; [lia|]. split; [lia|]. split.
  - change (m_open (get CUlong 16 m) (get CInt 24 m) (get CUint 28 m) = m_open (u64 a) oflag (get CUint 28 m0)). by rewrite G1, G2, G3.
  - set (m' := put CUint 28 mode m). change (m_open (get CUlong 16 m') (get CInt 24 m') (get CUint 28 m') = m_open (u64 a) oflag mode). unfold m'.
    rewrite (get_put_other CUlong 16), (get_put_other CInt 24), (get_put CUint 28), G1, G2 by (cbn [sizeof]; lia). cbn [conv]. by rewrite Hmo.
Qed.

Lemma ask_long_typed who type b m0 t : SIZEOF_MESSAGE <= len m0 -> i32 type = type -> request_member who type = skel b -> fits b ->
  sendrecv_long m0 who type b t = ask_long who type b t /\ sendrecv_int m0 who type b t = ask who type b t.
Proof.
  intros Hm Ht Hs Hf. assert (E : sendrecv_long m0 who type b t = ask_long who type b t); [|split; [done|unfold sendrecv_int, mbind, SO_bind; rewrite E]].
  - unfold sendrecv_long, ask_long, mbind, SO_bind. pose proof (len_put_type type m0 Hm) as L1. destruct (filled b (put_type type m0) ltac:(lia) Hf) as [L2 G2].
    destruct (put_body_ok b (put_type type m0) ltac:(lia)) as (L3 & _ & F & _).
    assert (Ety : get_type (put_body b (put_type type m0)) = type) by (unfold get_type; rewrite F by (fields; cbn; lia); unfold put_type; rewrite get_put by (fields; cbn; lia); exact Ht).
    cbn [_sendrecv message_system]. rewrite Ety, Hs, get_body_skel, G2. unfold mbind, SO_bind. destruct (answer who type b t) as [[[[st r] b'] t']|]; [|done].
    destruct (st =? 0) eqn:Es; unfold mret, SO_ret; [|by rewrite Es]. cbn [Z.eqb negb]. destruct (put_body_ok b' (put_body b (put_type type m0)) L2) as (L4 & _). rewrite get_retval_put by lia. done.
  - unfold ask_long, ask, typed_call, mbind, SO_bind. destruct (answer who type b t) as [[[[st r] b'] t']|]; [|done]. unfold mret, SO_ret. destruct (st =? 0); [by rewrite i32_i64|done].
Qed.
End Typed.

(** ** The property *)

Ltac solve_fits := unfold fits, member; repeat first [apply Forall_nil_2 | apply Forall_cons_2]; cbn [conv]; first [assumption | apply u64_u64 | reflexivity].
Ltac one_ptr := rewrite kmap_one_typed by assumption; apply with_ptr_ext; intros.
Ltac one_ask := first [apply ask_filled | apply ask_long_typed]; [assumption|reflexivity|reflexivity|first [solve_fits | reflexivity]].

(** The calls on files. *)
Section FileWrappers.
Context {T : Type} `{!TypedSystem T, !TypedLaws T} (m0 : list Z) (t : T).
Hypothesis Hm : SIZEOF_MESSAGE <= len m0.

Lemma read_typed fd p size : i32 fd = fd -> u64 p = p -> u64 size = size -> read m0 fd p size t = with_ptr (-1) p (fun a => ask IPC_VFS MSG_READ (m_read fd a size)) t.
Proof. intros. unfold read. one_ptr. one_ask. Qed.

Lemma write_typed fd p size : i32 fd = fd -> u64 p = p -> u64 size = size -> write m0 fd p size t = with_ptr (-1) p (fun a => ask IPC_VFS MSG_WRITE (m_write fd a size)) t.
Proof. intros. unfold write. one_ptr. one_ask. Qed.

Lemma open_typed p oflag mode : u64 p = p -> i32 oflag = oflag -> u32 mode = mode ->
  open m0 p oflag mode t = with_ptr (-1) p (fun a => ask IPC_VFS MSG_OPEN (m_open a oflag (if Z.land oflag O_CREAT =? 0 then get CUint 28 m0 else mode))) t.
Proof.
  intros Hp Ho Hmo. unfold open. one_ptr. destruct (open_fill a oflag mode m0 Hm Ho Hmo) as (L1 & L2 & G1 & G2). destruct (Z.land oflag O_CREAT =? 0); by apply ask_typed.
Qed.

Lemma close_typed fd : i32 fd = fd -> close m0 fd t = ask IPC_VFS MSG_CLOSE (m_close fd) t.
Proof. intros. unfold close. one_ask. Qed.

Lemma lseek_typed fd offset whence : i32 fd = fd -> i64 offset = offset -> i32 whence = whence -> lseek m0 fd offset whence t = ask IPC_VFS MSG_LSEEK (m_lseek fd offset whence) t.
Proof. intros. unfold lseek. one_ask. Qed.

Lemma chdir_typed p : u64 p = p -> chdir m0 p t = with_ptr (-1) p (fun a => ask IPC_VFS MSG_CHDIR (m_chdir a)) t.
Proof. intros. unfold chdir. one_ptr. one_ask. Qed.

Lemma stat_typed p q : u64 p = p -> u64 q = q -> stat m0 p q t = with_ptrs (-1) p q (fun a b => ask IPC_VFS MSG_STAT (m_stat a b)) t.
Proof.
  intros Hp Hq. etransitivity; [exact (kmap_two_typed p q (-1) (fun a b => '(r, _) ← _syscall IPC_VFS MSG_STAT (put_body (m_stat a b) m0); mret r) t Hp Hq)|].
  apply with_ptrs_ext. intros. one_ask.
Qed.

Lemma mkdir_typed p mode : u64 p = p -> u32 mode = mode -> mkdir m0 p mode t = with_ptr (-1) p (fun a => ask IPC_VFS MSG_MKDIR (m_mkdir a mode)) t.
Proof. intros. unfold mkdir. one_ptr. one_ask. Qed.
End FileWrappers.

(** C9: the wrappers of the C library on bytes are requests of tagged messages.  Whatever
    the variable of the message held, the receiver reads the arguments of the call in the
    member of its type, with the pointers replaced by the kernel's addresses, which are
    asked for first; a refusal of them is the failure of the call and nothing is sent.
    The result is the answer cut to an [int] (also for [read], [write] and [lseek], which
    return [long]), or -1 if the system call failed.  Only [bdev_part_read] returns the
    whole answer.  Without [O_CREAT] the mode of [open] is what the memory held. *)
Theorem wrappers_correct {T : Type} `{!TypedSystem T, !TypedLaws T} (m0 : list Z) (fd n1 p q size mode offset : Z) (t : T) :
  SIZEOF_MESSAGE <= len m0 -> i32 fd = fd -> i32 n1 = n1 -> u64 p = p -> u64 q = q -> u64 size = size -> u32 mode = mode -> i64 offset = offset ->
  let vfs := ask IPC_VFS in
  (read m0 fd p size t = with_ptr (-1) p (fun a => vfs MSG_READ (m_read fd a size)) t /\
   write m0 fd p size t = with_ptr (-1) p (fun a => vfs MSG_WRITE (m_write fd a size)) t /\
   open m0 p n1 mode t = with_ptr (-1) p (fun a => vfs MSG_OPEN (m_open a n1 (if Z.land n1 O_CREAT =? 0 then get CUint 28 m0 else mode))) t /\
   close m0 fd t = vfs MSG_CLOSE (m_close fd) t /\
   lseek m0 fd offset n1 t = vfs MSG_LSEEK (m_lseek fd offset n1) t /\
   getcwd m0 p size t = with_ptr NULL p (fun a => r ← vfs MSG_GETCWD (m_getcwd a size); mret (if r =? 0 then p else NULL)) t /\
   chdir m0 p t = with_ptr (-1) p (fun a => vfs MSG_CHDIR (m_chdir a)) t /\
   stat m0 p q t = with_ptrs (-1) p q (fun a b => vfs MSG_STAT (m_stat a b)) t /\
   getdents m0 fd p size t = with_ptr 0 p (fun a => vfs MSG_GETDENTS (m_getdents fd a size)) t /\
   mkdir m0 p mode t = with_ptr (-1) p (fun a => vfs MSG_MKDIR (m_mkdir a mode)) t) /\
  (fork m0 t = ask IPC_MM MSG_FORK m_none t /\
   execve m0 p q size t = ask IPC_MM MSG_EXECVE (m_execve p q size) t /\
   brk m0 p t = ask IPC_MM MSG_BRK (m_brk p) t /\
   exit m0 n1 t = (ask IPC_KERNEL MSG_EXIT (m_exit n1);; mret tt) t /\
   (forall statloc, wait m0 statloc t = ask_wait (get CInt 16 m0) statloc t) /\
   getpid m0 t = ask IPC_KERNEL MSG_GETPID m_none t /\
   register_irq m0 n1 t = ask IPC_KERNEL MSG_IRQ (m_irq IRQ_REGISTER n1) t /\
   unregister_irq m0 n1 t = ask IPC_KERNEL MSG_IRQ (m_irq IRQ_UNREGISTER n1) t) /\
  (bdev_read m0 q p size t = with_ptr (-1) p (fun a => ask IPC_DISK MSG_BDEV_TRANSFER (m_bdev_transfer q a size 0)) t /\
   bdev_write m0 q p size t = with_ptr (-1) p (fun a => ask IPC_DISK MSG_BDEV_TRANSFER (m_bdev_transfer q a size 1)) t /\
   bdev_part_read m0 n1 q p size t = with_ptr (-1) p (fun a => ask_long IPC_DISK MSG_BDEV_PART (m_bdev_part n1 q a size)) t).
Proof.
  intros Hm Hfd Hn1 Hp Hq Hs Hmo Hoff vfs. subst vfs. split; [|split].
  - split; [by apply read_typed|]. split; [by apply write_typed|]. split; [by apply open_typed|]. split; [by apply close_typed|]. split; [by apply lseek_typed|]. split.
    { unfold getcwd. one_ptr. unfold mbind at 2, SO_bind. rewrite <- (ask_filled IPC_VFS MSG_GETCWD _ m0); [|done..|solve_fits]. unfold mbind, SO_bind.
      destruct (_syscall _ _ _ _) as [[[r m] t']|]; [|done]. unfold mret, SO_ret. by destruct (r =? 0). }
    split; [by apply chdir_typed|]. split; [by apply stat_typed|]. split; [unfold getdents; one_ptr; one_ask|by apply mkdir_typed].
  - split; [by apply ask_typed|]. split; [unfold execve; one_ask|]. split; [unfold brk; one_ask|]. split.
    { unfold exit, mbind, SO_bind. rewrite <- (ask_filled IPC_KERNEL MSG_EXIT _ m0); [|done..|solve_fits]. unfold mbind, SO_bind. by destruct (_syscall _ _ _ _) as [[[r m] t']|]. }
    split; [intros; by apply wait_typed|]. split; [by apply ask_typed|]. split; one_ask.
  - split; [unfold bdev_read; one_ptr; one_ask|]. split; [unfold bdev_write; one_ptr; one_ask|unfold bdev_part_read; one_ptr; one_ask].
Qed.

(** ** Witness: receivers that answer every request with 5, after the kernel's addresses *)

#[local] Instance five : TypedSystem (list msg_body) := {|
  answer who type b t :=
    Some (0, if type =? MSG_KMAP then 0 else 5, match b with m_kmap x y z => m_kmap (x + KERNEL_OFFSET) y z | b => b end, t ++ [b]) |}.

#[local] Instance five_laws : TypedLaws (list msg_body).
Proof. split; intros * E; injection E as _ <- _; eauto. Qed.

Lemma wrappers_correct_witness : read (replicate 56 0xcc) 3 0x1000 100 [] = Some (5, [m_kmap 0x1000 0 0; m_read 3 (0x1000 + KERNEL_OFFSET) 100]).
Proof.
  etransitivity; [exact (proj1 (proj1 (wrappers_correct (replicate 56 0xcc) 3 0 0x1000 0 100 0 0 [] ltac:(discriminate) eq_refl eq_refl eq_refl eq_refl eq_refl eq_refl eq_refl)))|].
  reflexivity.
Defined.
