(* ===== verification/Exec.v ===== *)
(** * Starting programs: [core/exec.c], [include/kernel/elf.h]

    The memory that [do_execve] works on is the bytes by virtual address: the user half
    of the running process, which [map_page] and [free_proc_mm] change as [UserMem]
    shows, and the kernel buffers.  The file server answers through the class
    [FileServer]; the assertions on its answers print and go on. *)

From S2P Require Import Prelude Bytes Vsprintf CString Words Sched UserMem.

#[local] Notation "'mem'" := (gmap Z Z).

(** ** Arguments *)

Fixpoint count_loop (fuel : nat) (m : mem) (arg nr : Z) : option Z :=
  match fuel with
  | O => None
  | S fuel =>
      if arg =? NULL then Some nr
      else v ← ld64 m (arg + 8 * nr); if v =? 0 then Some nr else count_loop fuel m arg (i32 (nr + 1))
  end.
Definition count (m : mem) (arg : Z) : option Z := count_loop (fuel_of m) m arg 0.

(** [bufsz - (argc + envc + 2) * sizeof(char * )], which is unsigned. *)
Definition minus_tables (bufsz argc envc : Z) : Z := u64 (u64 bufsz - u64 (u64 (i32 (argc + envc + 2)) * 8)).

(** The loops over [argv] and [envp]: [dup_args] goes [up] from [buf], [setup_args]
    down from it.  The result says whether the strings fitted. *)
Fixpoint copy_strings (up : bool) (n : nat) (m : mem) (i argv newargv buf bufsz : Z) : option (bool * mem * Z * Z) :=
  match n with
  | O => Some (true, m, buf, bufsz)
  | S n =>
      s ← ld64 m (argv + 8 * i);
      l ← strlen m s;
      let len := i32 (l + 1) in
      if i32 (bufsz - len) <? 0 then Some (false, m, buf, bufsz)
      else
        let dest := if up then buf else buf - len in
        m ← memcpy m dest s (u64 len);
        m ← st64 m (newargv + 8 * i) dest;
        copy_strings up n m (i + 1) argv newargv (if up then buf + len else dest) (i32 (bufsz - len))
  end.

(** Both loops, each with the NULL that ends its vector: how many of them were done. *)
Definition copy_both (up : bool) (m : mem) (argc envc argv envp newargv newenvp buf bufsz : Z) : option (Z * mem * Z * Z) :=
  r ← copy_strings up (Z.to_nat argc) m 0 argv newargv buf bufsz;
  let '(ok, m, buf, bufsz) := r in
  if negb ok then Some (0, m, buf, bufsz)
  else
    m ← st64 m (newargv + 8 * argc) NULL;
    r ← copy_strings up (Z.to_nat envc) m 0 envp newenvp buf bufsz;
    let '(ok, m, buf, bufsz) := r in
    if negb ok then Some (1, m, buf, bufsz)
    else m ← st64 m (newenvp + 8 * envc) NULL; Some (2, m, buf, bufsz).

(** The result, what [*ptr_argv] and [*ptr_envp] are afterwards, and the memory. *)
Definition dup_args (m : mem) (argv envp buf bufsz : Z) : option (Z * Z * Z * mem) :=
  argc ← count m argv;
  envc ← count m envp;
  if minus_tables bufsz argc envc <? 0 then Some (-1, argv, envp, m)
  else
    let newargv := buf in
    let buf := buf + 8 * (argc + 1) in
    let newenvp := buf in
    let buf := buf + 8 * (envc + 1) in
    let bufsz := i32 (minus_tables bufsz argc envc) in
    r ← copy_both true m argc envc argv envp newargv newenvp buf bufsz;
    let '(n, m, _, _) := r in
    if n =? 0 then Some (-1, argv, envp, m)
    else if n =? 1 then Some (-1, newargv, envp, m)
    else Some (0, newargv, newenvp, m).

Definition setup_args (m : mem) (argv envp bufend bufsize : Z) : option (Z * mem) :=
  argc ← count m argv;
  envc ← count m envp;
  if minus_tables bufsize argc envc <? 0 then Some (NULL, m)
  else
    let newargv := bufend - 8 * (argc + 1) in
    let newenvp := newargv - 8 * (envc + 1) in
    let bufsize := i32 (minus_tables bufsize argc envc) in
    r ← copy_both false m argc envc argv envp newargv newenvp newenvp bufsize;
    let '(n, m, bufend, bufsize) := r in
    if n <? 2 then Some (NULL, m)
    else
      let bufend := bufend - Z.land bufend 7 in
      let bufsize := bufsize - Z.land bufsize 7 in
      if u64 (u64 bufsize - 3 * 8) <? 0 then Some (NULL, m)
      else
        let bufend := bufend - 3 * 8 in
        m ← st64 m bufend (u64 argc);
        m ← st64 m (bufend + 8) newargv;
        m ← st64 m (bufend + 16) newenvp;
        Some (bufend, m).

(** ** ELF headers *)

Definition EI_CLASS : Z := 4.
Definition ELFMAG0 : Z := 0x7f.
Definition ELFMAG1 : Z := 0x45.
Definition ELFMAG2 : Z := 0x4c.
Definition ELFMAG3 : Z := 0x46.
Definition ELFCLASS64 : Z := 2.
Definition ET_EXEC : Z := 2.
Definition EM_X86_64 : Z := 62.
Definition PT_LOAD : Z := 1.
Definition PROC_MM_SEG_SIZE : Z := 8.
Definition USER_STACK_END : Z := 0x7ffffffff000.
Definition USER_STACK_ORDER : Z := 1.
Definition USER_BRK_START : Z := 0x700000000000.

(** A field of a structure in a buffer. *)
Definition field (n off : Z) (l : list Z) : option Z :=
  if off + n <=? Z.of_nat (length l) then Some (le n off l) else None.

Record Elf64_Ehdr := mk_ehdr { e_ident : list Z; e_type : Z; e_machine : Z; e_entry : Z; e_phoff : Z; e_phnum : Z }.

Definition sizeof_ehdr : Z := 64.
Definition ehdr_of (l : list Z) : option Elf64_Ehdr :=
  type ← field 2 16 l; machine ← field 2 18 l; entry ← field 8 24 l; phoff ← field 8 32 l; phnum ← field 2 56 l;
  Some (mk_ehdr (slice 0 16 l) type machine entry phoff phnum).

Record Elf64_Phdr := mk_phdr { p_type : Z; p_flags : Z; p_offset : Z; p_vaddr : Z; p_filesz : Z; p_memsz : Z }.

Definition sizeof_phdr : Z := 56.
Definition phdr_of (l : list Z) (i : Z) : option Elf64_Phdr :=
  let o := sizeof_phdr * i in
  type ← field 4 o l; flags ← field 4 (o + 4) l; offset ← field 8 (o + 8) l; vaddr ← field 8 (o + 16) l;
  filesz ← field 8 (o + 32) l; memsz ← field 8 (o + 40) l;
  Some (mk_phdr type flags offset vaddr filesz memsz).

Definition ident (h : Elf64_Ehdr) (i : Z) : Z := default 0 (e_ident h !! Z.to_nat i).

Definition verify_ehdr (h : Elf64_Ehdr) : bool :=
  if negb (ident h 0 =? ELFMAG0) || negb (ident h 1 =? ELFMAG1) || negb (ident h 2 =? ELFMAG2) || negb (ident h 3 =? ELFMAG3) then false
  else if negb (ident h EI_CLASS =? ELFCLASS64) then false
  else if negb (e_type h =? ET_EXEC) then false
  else if negb (e_machine h =? EM_X86_64) then false
  else true.

(** ** The file server *)

(** The status of [do_sendrecv], the [retval] of the answer, and for a read the bytes
    the server stored into the buffer. *)
Class FileServer (F : Type) := {
  srv_open : list Z -> F -> Z * Z * F;
  srv_read : Z -> Z -> F -> Z * Z * list Z * F;
  srv_lseek : Z -> Z -> Z -> F -> Z * Z * F }.

Section Exec.
Context {F : Type} `{!FileServer F}.

Definition open_exec (pathname : list Z) (f : F) : Z * F :=
  let '(status, retval, f) := srv_open pathname f in (if negb (status =? 0) then -1 else retval, f).

Definition read_exec (fd nbytes : Z) (f : F) : Z * list Z * F :=
  let '(status, retval, data, f) := srv_read fd nbytes f in (if negb (status =? 0) then -1 else retval, data, f).

Definition lseek_exec (fd offset whence : Z) (f : F) : Z * F :=
  let '(status, retval, f) := srv_lseek fd offset whence f in (if negb (status =? 0) then -1 else retval, f).

(** ** [do_execve] *)

(** The round of the loop over the pages of a segment: what there is of the file, and
    zeros after its end. *)
Definition copy_part (m : mem) (f : F) (fd seg_start filesz copyaddr : Z) : option (mem * F * Z * Z) :=
  if 0 <? filesz then
    let copysz := if filesz <? u64 (seg_start - copyaddr) then filesz else u64 (seg_start - copyaddr) in
    let '(_, data, f) := read_exec fd copysz f in
    m ← store_bytes m copyaddr data;
    Some (m, f, filesz - copysz, copyaddr + copysz)
  else Some (m, f, filesz, copyaddr).

Definition fill_page (m : mem) (f : F) (fd seg_start filesz copyaddr : Z) : option (mem * F * Z * Z) :=
  r ← copy_part m f fd seg_start filesz copyaddr;
  let '(m, f, filesz, copyaddr) := r in
  if filesz =? 0 then
    let copysz := u64 (seg_start - copyaddr) in
    m ← memset m copyaddr 0 copysz;
    Some (m, f, filesz, copyaddr + copysz)
  else Some (m, f, filesz, copyaddr).

(** [while (page_num--)] *)
Fixpoint load_pages (n : nat) (m : mem) (f : F) (fd seg_start filesz copyaddr : Z) : option (mem * F) :=
  match n with
  | O => Some (m, f)
  | S n =>
      let m := u_map m seg_start in
      let seg_start := u64 (seg_start + PAGE_SIZE) in
      r ← fill_page m f fd seg_start filesz copyaddr;
      let '(m, f, filesz, copyaddr) := r in
      load_pages n m f fd seg_start filesz copyaddr
  end.

Definition load_segment (m : mem) (f : F) (fd : Z) (ph : Elf64_Phdr) : option (mem * F) :=
  let seg_start := PAGE_LOWER_ALIGN (p_vaddr ph) in
  let seg_end := PAGE_UPPER_ALIGN (u64 (p_vaddr ph + p_memsz ph)) in
  let page_num := u64 (seg_end - seg_start) / PAGE_SIZE in
  let '(_, f) := lseek_exec fd (p_offset ph) 0 f in
  load_pages (Z.to_nat page_num) m f fd seg_start (p_filesz ph) (p_vaddr ph).

(** The loop over the program headers; there is room for eight segments. *)
Fixpoint load_segments (n : nat) (m : mem) (f : F) (fd : Z) (table : list Z) (i : Z) (segs : list pseg) : option (list pseg * mem * F) :=
  match n with
  | O => Some (segs, m, f)
  | S n =>
      ph ← phdr_of table i;
      if negb (p_type ph =? PT_LOAD) then load_segments n m f fd table (i + 1) segs
      else if Z.of_nat (length segs) <? PROC_MM_SEG_SIZE then
        let segs := segs ++ [mk_pseg (p_flags ph) (p_vaddr ph) (u64 (p_vaddr ph + p_memsz ph))] in
        r ← load_segment m f fd ph;
        load_segments n r.1 r.2 fd table (i + 1) segs
      else None
  end.

(** The stack: [1 << USER_STACK_ORDER] pages below its end. *)
Fixpoint map_stack (n : nat) (m : mem) (start_stack : Z) : mem * Z :=
  match n with
  | O => (m, start_stack)
  | S n => let start_stack := start_stack - PAGE_SIZE in map_stack n (u_map m start_stack) start_stack
  end.

(** A call that fails returns -1 to its caller, one that succeeds runs the program: its
    entry, its stack pointer and its address space. *)
Inductive exec_outcome :=
  | ExecFail (m : mem) (f : F)
  | ExecRun (entry end_stack : Z) (space : proc_mm) (m : mem) (f : F).

(** The arguments go to the page [argsbuf], which [get_zeroed_page] returned, the old
    address space goes, and they go on to the new stack.  The result is whether they
    fitted, the start of the stack and the stack pointer, which nothing checks. *)
Definition move_args (m : mem) (argv envp argsbuf : Z) : option (bool * Z * Z * mem) :=
  let m := write m argsbuf (replicate (Z.to_nat PAGE_SIZE) 0) in
  r ← dup_args m argv envp argsbuf PAGE_SIZE;
  let '(r, argv, envp, m) := r in
  if negb (r =? 0) then Some (false, NULL, NULL, m)
  else
    let m := u_clear m in
    let '(m, start_stack) := map_stack (Z.to_nat (Z.shiftl 1 USER_STACK_ORDER)) m USER_STACK_END in
    r ← setup_args m argv envp USER_STACK_END PAGE_SIZE;
    Some (true, start_stack, r.1, r.2).

(** The kernel buffers of the headers are their bytes. *)
Definition do_execve (m : mem) (f : F) (space : proc_mm) (pathname : list Z) (argv envp argsbuf : Z) : option exec_outcome :=
  let '(fd, f) := open_exec pathname f in
  if fd <? 0 then Some (ExecFail m f)
  else
    let '(n, data, f) := read_exec fd sizeof_ehdr f in
    if negb (n =? sizeof_ehdr) then Some (ExecFail m f)
    else
      ehdr ← ehdr_of data;
      if negb (verify_ehdr ehdr) then Some (ExecFail m f)
      else
        r ← move_args m argv envp argsbuf;
        let '(ok, start_stack, end_stack, m) := r in
        if negb ok then Some (ExecFail m f)
        else
          let '(_, f) := lseek_exec fd (e_phoff ehdr) 0 f in
          let '(_, table, f) := read_exec fd (e_phnum ehdr * sizeof_phdr) f in
          r ← load_segments (Z.to_nat (e_phnum ehdr)) m f fd table 0 [];
          let '(segs, m, f) := r in
          Some (ExecRun (e_entry ehdr) end_stack
            (mk_mm (mm_flags space) (pgd space) segs USER_BRK_START USER_BRK_START start_stack USER_STACK_END) m f).
End Exec.

Arguments exec_outcome F : clear implicits.
