(* ===== verification/ExecProofs.v ===== *)
(** * Proofs about [Exec]: arguments and segments of a new program *)

From S2P Require Import Prelude Bytes Vsprintf CString Words Sched ForkProofs UserMem Exec.

#[local] Notation "'mem'" := (gmap Z Z).

(** ** Vectors of strings *)

(** The pointers [ps] from [a] on. *)
Fixpoint ptrs (m : mem) (a : Z) (ps : list Z) : Prop :=
  match ps with [] => True | p :: ps => ld64 m a = Some p /\ p <> 0 /\ ptrs m (a + 8) ps end.

(** A vector of strings as [argv] is: pointers to them and a NULL; NULL is an empty one. *)
Definition args_at (m : mem) (a : Z) (ps : list Z) (ls : list (list Z)) : Prop :=
  ptrs m a ps /\ ld64 m (a + 8 * len ps) = Some 0 /\ Forall2 (cstr m) ps ls.
Definition args (m : mem) (a : Z) (ps : list Z) (ls : list (list Z)) : Prop :=
  a = NULL /\ ps = [] /\ ls = [] \/ a <> NULL /\ args_at m a ps ls.

(** The bytes of the strings with their zeros. *)
Definition total (ls : list (list Z)) : Z := foldr (fun l n => len l + 1 + n) 0 ls.

Lemma total_nonneg ls : 0 <= total ls.
Proof. induction ls as [|l ls IH]; cbn [total foldr]; [lia|]. pose proof (len_nonneg l). unfold total in IH. lia. Qed.

Lemma total_cons l ls : total (l :: ls) = len l + 1 + total ls.
Proof. done. Qed.

Lemma ptrs_ext m m' ps : forall a, (forall x, a <= x < a + 8 * len ps -> m' !! x = m !! x) -> ptrs m a ps -> ptrs m' a ps.
Proof.
  induction ps as [|p ps IH]; intros a He; cbn [ptrs]; [done|]. rewrite len_cons in He. pose proof (len_nonneg ps). intros (H1 & H2 & H3).
  split; [rewrite <- H1; apply ld64_ext; intros x Hx; apply He; lia|]. split; [done|]. apply IH; [|done]. intros x Hx. apply He. lia.
Qed.

Lemma count_loop_ok m ps : forall fuel a nr,
  (length ps < fuel)%nat -> a <> NULL -> 0 <= nr -> nr + len ps < 2 ^ 31 -> ptrs m (a + 8 * nr) ps -> ld64 m (a + 8 * (nr + len ps)) = Some 0 ->
  count_loop fuel m a nr = Some (nr + len ps).
Proof.
  induction ps as [|p ps IH]; intros [|fuel] a nr Hf Ha Hn Hb Hp Hz; cbn [length] in Hf; try lia; cbn [count_loop]; rewrite (proj2 (Z.eqb_neq a NULL)) by done.
  - rewrite Z.add_0_r in *. rewrite Hz. by some_bind.
  - rewrite len_cons in *. pose proof (len_nonneg ps). destruct Hp as (-> & Hnz & Hp). some_bind. rewrite (proj2 (Z.eqb_neq p 0)) by done.
    rewrite i32_small by lia. rewrite IH; [f_equal; lia|lia|done|lia|lia| |].
    + by replace (a + 8 * (nr + 1)) with (a + 8 * nr + 8) by lia.
    + by replace (nr + 1 + len ps) with (nr + (1 + len ps)) by lia.
Qed.

Lemma ptrs_mapped m ps : forall a, ptrs m a ps -> mapped m a (8 * len ps).
Proof.
  induction ps as [|p ps IH]; intros a; cbn [ptrs]; [intros _ x Hx; unfold len in Hx; cbn in Hx; lia|]. intros (H1 & _ & H2) x Hx. rewrite len_cons in Hx.
  destruct (Z_lt_le_dec x (a + 8)); [apply (ld64_mapped m a p H1); lia|apply (IH (a + 8) H2); lia].
Qed.

(** The pointers are in memory, so the fuel is enough. *)
Lemma ptrs_size m a ps : ptrs m a ps -> (length ps <= size m)%nat.
Proof. intros H. apply (mapped_size (length ps) m a). intros x Hx. apply (ptrs_mapped m ps a H). unfold len. lia. Qed.

Lemma count_ok m a ps ls : args m a ps ls -> len ps < 2 ^ 31 -> count m a = Some (len ps).
Proof.
  intros [(-> & -> & ->)|(Ha & Hp & Hz & _)] Hb; unfold count; [done|]. rewrite (count_loop_ok m ps); [done|pose proof (ptrs_size m a ps Hp); unfold fuel_of; lia|done|lia|lia| |].
  - by rewrite Z.mul_0_r, Z.add_0_r.
  - by rewrite Z.add_0_l.
Qed.

Lemma Forall2_both {A B} (R S : A -> B -> Prop) l k : Forall2 R l k -> Forall2 S l k -> Forall2 (fun x y => R x y /\ S x y) l k.
Proof. induction 1 as [|x y l k Hx Hl IH]; intros HS; [constructor|]. apply Forall2_cons in HS as [Hy HS]. constructor; [done|by apply IH]. Qed.

(** ** The loops over the strings *)

(** [n] bytes from [buf] upwards or downwards. *)
Definition area (up : bool) (buf n x : Z) : Prop := if up then buf <= x < buf + n else buf - n <= x < buf.

(** The words of the new vector. *)
Definition table (newargv i n x : Z) : Prop := newargv + 8 * i <= x < newargv + 8 * (i + n).

Definition string_area (p : Z) (l : list Z) (x : Z) : Prop := p <= x <= p + len l.

(** What the loop needs: the strings [ls] at [ps], none of them nor their vector where
    the loop writes, and this in memory if there is room at all. *)
Record loop_pre (up : bool) (m : mem) (i argv newargv buf bufsz : Z) (ps : list Z) (ls : list (list Z)) : Prop := {
  lp_ptrs : ptrs m (argv + 8 * i) ps;
  lp_strs : Forall2 (cstr m) ps ls;
  lp_apart : 0 <= bufsz -> forall x, table newargv i (len ps) x -> ~ area up buf bufsz x;
  lp_src : 0 <= bufsz -> forall x, table argv i (len ps) x -> ~ (table newargv i (len ps) x \/ area up buf bufsz x);
  lp_src_strs : 0 <= bufsz -> Forall2 (fun p l => forall x, string_area p l x -> ~ (table newargv i (len ps) x \/ area up buf bufsz x)) ps ls;
  lp_mapped : 0 <= bufsz -> forall x, table newargv i (len ps) x \/ area up buf bufsz x -> is_Some (m !! x);
  lp_addr : 0 <= bufsz -> forall x, area up buf bufsz x -> 0 < x < 2 ^ 64;
  lp_size : - 2 ^ 30 <= bufsz < 2 ^ 30;
  lp_total : total ls < 2 ^ 30 }.

(** What it leaves: the strings fitted exactly if there was room, and then the new
    vector has them, in the bytes they need. *)
Record loop_post (up : bool) (m : mem) (i newargv buf bufsz : Z) (ps : list Z) (ls : list (list Z)) (ok : bool) (m' : mem) (buf' bufsz' : Z) : Prop := {
  lo_frame : forall x, ~ (table newargv i (len ps) x \/ area up buf bufsz x) -> m' !! x = m !! x;
  lo_none : bufsz < 0 -> m' = m;
  lo_dom : forall x, is_Some (m !! x) -> is_Some (m' !! x);
  lo_ok : ok = true <-> ls = [] \/ total ls <= bufsz;
  lo_buf : ok = true -> buf' = (if up then buf + total ls else buf - total ls) /\ bufsz' = bufsz - total ls;
  lo_used : ok = true -> forall x, ~ table newargv i (len ps) x -> ~ area up buf (total ls) x -> m' !! x = m !! x;
  lo_strs : ok = true -> exists ps', length ps' = length ps /\ ptrs m' (newargv + 8 * i) ps' /\ Forall2 (cstr m') ps' ls /\
    Forall2 (fun p l => forall x, string_area p l x -> area up buf (total ls) x) ps' ls }.

(** One string: its copy and the pointer to it. *)
Lemma copy_string_ok (m : mem) p l dest w :
  cstr m p l -> (forall x, dest <= x < dest + (len l + 1) -> ~ string_area p l x) -> mapped m dest (len l + 1) -> mapped m w 8 ->
  (forall x, w <= x < w + 8 -> ~ (dest <= x < dest + (len l + 1))) -> 0 < dest < 2 ^ 64 -> len l + 1 < 2 ^ 31 ->
  exists m1 m2, memcpy m dest p (u64 (len l + 1)) = Some m1 /\ st64 m1 w dest = Some m2 /\
    ld64 m2 w = Some dest /\ cstr m2 dest l /\ (forall x, is_Some (m !! x) -> is_Some (m2 !! x)) /\
    forall x, ~ (w <= x < w + 8) -> ~ (dest <= x < dest + (len l + 1)) -> m2 !! x = m !! x.
Proof.
  intros Hs Hap Hd Hw Hwd Hr Hl. pose proof (len_nonneg l) as Hl0.
  assert (E1 : memcpy m dest p (u64 (len l + 1)) = Some (write m dest (l ++ [0]))).
  { unfold memcpy. rewrite u64_small by lia. replace (Z.to_nat (len l + 1)) with (length (l ++ [0])) by (rewrite length_app; unfold len; cbn; lia).
    assert (El : len (l ++ [0]) = len l + 1) by (by rewrite len_app). apply memcpy_ok; [by apply cstr_holds|by rewrite El|].
    unfold disjoint_from. rewrite El. specialize (Hap (Z.max p dest)). unfold string_area in Hap. lia. }
  exists (write m dest (l ++ [0])), (write (write m dest (l ++ [0])) w (enc 8 dest)). split; [done|].
  split; [apply st64_ok; by apply mapped_write|]. split; [by apply ld64_write; lia|].
  assert (El : len (l ++ [0]) = len l + 1) by (by rewrite len_app).
  split; [|split].
  - apply (cstr_frame (write m dest (l ++ [0]))).
    + apply write_cstr. clear -Hs. revert p Hs. induction l as [|c l IH]; intros p; cbn [cstr]; [constructor|]. intros (_ & ? & H). constructor; [done|by apply (IH (p + 1))].
    + intros x Hx. apply write_out. rewrite len_enc8. destruct (Z_lt_le_dec x w); [by left|]. destruct (Z_lt_le_dec x (w + 8)); [|right; lia].
      exfalso. apply (Hwd x); lia.
  - intros x Hx. pose proof (enc_length 8 dest). rewrite !write_lookup. repeat case_if; try done; zbool; apply lookup_lt_is_Some_2; unfold len in *; lia.
  - intros x H1 H2. rewrite !write_out; [done|rewrite El; lia|rewrite len_enc8; lia].
Qed.

Lemma copy_strings_ok up ls : forall m i argv newargv buf bufsz ps,
  loop_pre up m i argv newargv buf bufsz ps ls ->
  exists ok m' buf' bufsz', copy_strings up (length ps) m i argv newargv buf bufsz = Some (ok, m', buf', bufsz') /\
    loop_post up m i newargv buf bufsz ps ls ok m' buf' bufsz'.
Proof.
  induction ls as [|l ls IH]; intros m i argv newargv buf bufsz ps [Hp Hs Hap Hsrc Hstr Hmp Had Hsz Htot].
  { apply Forall2_nil_inv_r in Hs as ->. exists true, m, buf, bufsz. split; [done|]. split; try done.
    - split; [by left|done].
    - intros _. change (total []) with 0. destruct up; split; lia.
    - intros _. exists []. by repeat split. }
  destruct ps as [|p ps]; [by inversion Hs|]. apply Forall2_cons in Hs as [Hl Hs]. destruct Hp as (Hld & Hpz & Hp).
  rewrite len_cons in *. rewrite total_cons in *. pose proof (len_nonneg l). pose proof (len_nonneg ps). pose proof (total_nonneg ls). set (k := len l + 1) in *. assert (Ek : k = len l + 1) by done.
  cbn [copy_strings length]. rewrite Hld. some_bind. rewrite (strlen_ok m p l Hl) by lia. some_bind. fold k. rewrite (i32_small k), (i32_small (bufsz - k)) by lia.
  destruct (bufsz - k <? 0) eqn:Eb; zbool.
  { exists false, m, buf, bufsz. split; [done|]. split; try done. split; [done|]. intros [?|Ht]; [done|rewrite total_cons in Ht; lia]. }
  assert (Hb0 : 0 <= bufsz) by lia. specialize (Hap Hb0). specialize (Hsrc Hb0). specialize (Hstr Hb0). specialize (Hmp Hb0). specialize (Had Hb0).
  apply Forall2_cons in Hstr as [Hlx Hstr].
  set (dest := if up then buf else buf - k). set (buf2 := if up then buf + k else dest).
  assert (HD : forall x, dest <= x < dest + k -> area up buf bufsz x) by (unfold dest, area; destruct up; lia).
  assert (HW : forall x, newargv + 8 * i <= x < newargv + 8 * i + 8 -> table newargv i (1 + len ps) x) by (unfold table; lia).
  assert (HA : forall x, table newargv (i + 1) (len ps) x \/ area up buf2 (bufsz - k) x -> table newargv i (1 + len ps) x \/ area up buf bufsz x).
  { unfold table, area, buf2, dest. destruct up; lia. }
  assert (HDW : forall x, newargv + 8 * i <= x < newargv + 8 * i + 8 -> ~ (dest <= x < dest + k)) by (intros x Hx Hd; by apply (Hap x (HW x Hx)), HD).
  destruct (copy_string_ok m p l dest (newargv + 8 * i) Hl) as (m1 & m2 & E1 & E2 & Hld2 & Hc2 & Hdom2 & Hfr2); try done.
  { intros x Hx Hin. apply (Hlx x Hin). right. by apply HD. }
  { intros x Hx. apply Hmp. right. by apply HD. }
  { intros x Hx. apply Hmp. left. by apply HW. }
  { apply Had, HD. lia. }
  { fold k. lia. }
  fold k in E1, Hfr2. rewrite E1. some_bind. rewrite E2. some_bind.
  assert (Hkeep : forall x, ~ (table newargv i (1 + len ps) x \/ area up buf bufsz x) -> m2 !! x = m !! x).
  { intros x Hx. apply Hfr2; intros Hy; apply Hx; [left; by apply HW|right; by apply HD]. }
  destruct (IH m2 (i + 1) argv newargv buf2 (bufsz - k) ps) as (ok & m' & buf' & bufsz' & E & [Q1 Q0 Q2 Q3 Q4 Q5 Q6]).
  { split; try lia.
    - apply (ptrs_ext m); [|by replace (argv + 8 * (i + 1)) with (argv + 8 * i + 8) by lia]. intros x Hx. apply Hkeep, Hsrc. unfold table. lia.
    - eapply Forall2_impl; [exact (Forall2_both _ _ _ _ Hs Hstr)|]. intros q s [Hq Hqx]. apply (cstr_frame m); [done|]. intros x Hx. apply Hkeep, Hqx. unfold string_area. lia.
    - intros _ x Hx. unfold table, area, buf2, dest in *. specialize (Hap x ltac:(lia)). destruct up; lia.
    - intros _ x Hx Hin. apply (Hsrc x); [unfold table in *; lia|by apply HA].
    - intros _. eapply Forall2_impl; [exact Hstr|]. intros q s Hq x Hx Hin. by apply (Hq x Hx), HA.
    - intros _ x Hx. by apply Hdom2, Hmp, HA.
    - intros _ x Hx. apply Had. unfold area, buf2, dest in *. destruct up; lia. }
  exists ok, m', buf', bufsz'. split; [exact E|].
  assert (Hok : ok = true -> total ls <= bufsz - k) by (intros Eo; apply Q3 in Eo as [->|?]; [change (total []) with 0; lia|done]).
  assert (Hold : forall x, dest <= x < dest + k \/ newargv + 8 * i <= x < newargv + 8 * i + 8 -> ok = true -> m' !! x = m2 !! x).
  { intros x Hx Eo. apply Q5; [done| |].
    - destruct Hx as [Hx|Hx]; [|unfold table; lia]. intros Ht. apply (Hap x); [unfold table in *; lia|by apply HD].
    - pose proof (Hok Eo). destruct Hx as [Hx|Hx].
      + unfold area, buf2, dest in *. destruct up; lia.
      + intros Hin. apply (Hap x (HW x Hx)). unfold area, buf2, dest in *. destruct up; lia. }
  split; rewrite ?len_cons, ?total_cons; fold k.
  - intros x Hx. rewrite Q1; [by apply Hkeep|]. intros Hin. by apply Hx, HA.
  - lia.
  - intros x Hx. by apply Q2, Hdom2.
  - split; [intros Eo; right; pose proof (Hok Eo); lia|]. intros [?|?]; [done|]. apply Q3. right. lia.
  - intros Eo. destruct (Q4 Eo) as [-> ->]. unfold buf2, dest. destruct up; split; lia.
  - intros Eo x Ht Hx. pose proof (Hok Eo). rewrite Q5; [|done|unfold table in *; lia|unfold area, buf2, dest in *; destruct up; lia].
    apply Hfr2; [intros Hy; by apply Ht, HW|]. unfold area, dest in *. destruct up; lia.
  - intros Eo. destruct (Q6 Eo) as (ps' & El & Hps & Hcs & Har). exists (dest :: ps'). split; [cbn; lia|].
    assert (Hdp : 0 < dest < 2 ^ 64) by (apply Had, HD; lia). split; [|split].
    + cbn [ptrs]. split; [rewrite <- Hld2; apply ld64_ext; intros x Hx; apply Hold; [by right|done]|]. split; [lia|].
      by replace (newargv + 8 * i + 8) with (newargv + 8 * (i + 1)) by lia.
    + constructor; [|done]. apply (cstr_frame m2); [done|]. intros x Hx. apply Hold; [left; lia|done].
    + constructor.
      * intros x Hx. unfold string_area, area, dest in *. destruct up; lia.
      * eapply Forall2_impl; [exact Har|]. intros q s Hq x Hx. specialize (Hq x Hx). unfold area, buf2, dest in *. destruct up; lia.
Qed.

(** ** Both vectors *)

(** The sources of a vector lie outside the buffer [lo, hi). *)
Definition outside (lo hi argv : Z) (ps : list Z) (ls : list (list Z)) : Prop :=
  (forall x, table argv 0 (len ps) x -> ~ lo <= x < hi) /\ Forall2 (fun p l => forall x, string_area p l x -> ~ lo <= x < hi) ps ls.

Lemma args_parts m a ps ls : args m a ps ls -> ptrs m (a + 8 * 0) ps /\ Forall2 (cstr m) ps ls /\ (ls = [] <-> ps = []).
Proof.
  rewrite Z.mul_0_r, Z.add_0_r. intros [(-> & -> & ->)|(_ & H1 & _ & H2)]; [by repeat split|]. split; [done|]. split; [done|].
  split; intros ->; [by apply Forall2_nil_inv_r in H2|by apply Forall2_nil_inv_l in H2].
Qed.

(** Where the new vectors and the strings go. *)
Record layout (up : bool) (lo hi newargv newenvp buf bufsz na ne : Z) : Prop := {
  ly_tabs : 0 <= bufsz -> lo <= newargv /\ newargv + 8 * (na + 1) <= hi /\ lo <= newenvp /\ newenvp + 8 * (ne + 1) <= hi;
  ly_first : na = 0 -> lo <= newargv /\ newargv + 8 <= hi;
  ly_area : forall x, area up buf bufsz x -> lo <= x < hi;
  ly_apart : newargv + 8 * (na + 1) <= newenvp \/ newenvp + 8 * (ne + 1) <= newargv;
  ly_area_apart : forall x, area up buf bufsz x -> ~ table newargv 0 (na + 1) x /\ ~ table newenvp 0 (ne + 1) x }.

(** The first loop and its NULL: the strings [ls] from [ps], at [newargv]. *)
Lemma copy_vector_ok up lo hi m argv ps ls newargv buf bufsz :
  args m argv ps ls -> outside lo hi argv ps ls -> mapped m lo (hi - lo) -> 0 < lo -> hi <= 2 ^ 64 ->
  (0 <= bufsz \/ ps = [] -> lo <= newargv /\ newargv + 8 * (len ps + 1) <= hi) ->
  (forall x, area up buf bufsz x -> lo <= x < hi /\ ~ table newargv 0 (len ps + 1) x) ->
  - 2 ^ 30 <= bufsz < 2 ^ 30 -> total ls < 2 ^ 30 ->
  exists ok m1 buf' bufsz', copy_strings up (length ps) m 0 argv newargv buf bufsz = Some (ok, m1, buf', bufsz') /\
    (ok = true <-> ls = [] \/ total ls <= bufsz) /\ (forall x, ~ lo <= x < hi -> m1 !! x = m !! x) /\ (forall x, is_Some (m !! x) -> is_Some (m1 !! x)) /\
    (ok = true -> exists m2 ps', st64 m1 (newargv + 8 * len ps) NULL = Some m2 /\ buf' = (if up then buf + total ls else buf - total ls) /\ bufsz' = bufsz - total ls /\
      length ps' = length ps /\ args_at m2 newargv ps' ls /\ (forall x, is_Some (m !! x) -> is_Some (m2 !! x)) /\
      (forall x, ~ lo <= x < hi -> m2 !! x = m !! x) /\
      (forall x, ~ table newargv 0 (len ps + 1) x -> ~ area up buf (total ls) x -> m2 !! x = m !! x) /\
      Forall2 (fun p l => forall x, string_area p l x -> area up buf (total ls) x) ps' ls).
Proof.
  intros Hargs [Ho1 Ho2] Hm Hlo Hhi Htab Harea Hsz Htot. destruct (args_parts m argv ps ls Hargs) as (Hp & Hs & Hnil). pose proof (len_nonneg ps).
  assert (Hin : 0 <= bufsz -> forall x, table newargv 0 (len ps) x \/ area up buf bufsz x -> lo <= x < hi).
  { intros Hb x [Hx|Hx]; [|by apply Harea]. specialize (Htab (or_introl Hb)). unfold table in Hx. lia. }
  destruct (copy_strings_ok up ls m 0 argv newargv buf bufsz ps) as (ok & m1 & buf' & bufsz' & E & [Q1 Q0 Q2 Q3 Q4 Q5 Q6]).
  { split; try done.
    - intros _ x Hx Ha. destruct (Harea x Ha) as [_ Hn]. apply Hn. unfold table in *. lia.
    - intros Hb x Hx Hy. by apply (Ho1 x Hx), Hin.
    - intros Hb. eapply Forall2_impl; [exact Ho2|]. intros p l Hpl x Hx Hy. by apply (Hpl x Hx), Hin.
    - intros Hb x Hx. apply Hm. specialize (Hin Hb x Hx). lia.
    - intros Hb x Hx. destruct (Harea x Hx) as [? _]. lia. }
  assert (Hfr : forall x, ~ lo <= x < hi -> m1 !! x = m !! x).
  { intros x Hx. destruct (Z_lt_le_dec bufsz 0) as [Hb|Hb]; [by rewrite Q0|]. apply Q1. intros Hy. by apply Hx, (Hin Hb). }
  exists ok, m1, buf', bufsz'. split; [done|]. split; [done|]. split; [done|]. split; [done|]. intros Eo. destruct (Q4 Eo) as [-> ->]. destruct (Q6 Eo) as (ps' & El & Hps & Hcs & Har).
  assert (Hroom : 0 <= bufsz \/ ps = []) by (apply Q3 in Eo as [?|?]; [right; by apply Hnil|left; pose proof (total_nonneg ls); lia]).
  destruct (Htab Hroom) as [Ht1 Ht2]. rewrite st64_ok by (intros x Hx; apply Q2, Hm; lia). eexists _, ps'. split; [done|]. split; [done|]. split; [done|]. split; [done|].
  assert (Elen : len ps' = len ps) by (unfold len; by rewrite El). rewrite Z.mul_0_r, Z.add_0_r in Hps.
  assert (Hle : ls = [] \/ total ls <= bufsz) by (by apply Q3).
  assert (Hsub : forall x, area up buf (total ls) x -> area up buf bufsz x).
  { intros x Hx. destruct Hle as [->|?]; [change (total []) with 0 in Hx|]; unfold area in *; destruct up; lia. }
  assert (Hout : forall x, ~ (newargv + 8 * len ps <= x < newargv + 8 * len ps + 8) -> write m1 (newargv + 8 * len ps) (enc 8 NULL) !! x = m1 !! x) by (intros x Hx; apply write_out; rewrite len_enc8; lia).
  split; [|split; [|split; [|split; [|done]]]].
  - split; [apply (ptrs_ext m1); [|done]; intros x Hx; apply Hout; lia|]. rewrite Elen. split; [by apply ld64_write|].
    eapply Forall2_impl; [exact (Forall2_both _ _ _ _ Hcs Har)|]. intros p l [Hpl Hx]. apply (cstr_frame m1); [done|]. intros x Hr. apply Hout. intros Hy.
    destruct (Harea x (Hsub x (Hx x Hr))) as [_ Hn]. apply Hn. unfold table. lia.
  - intros x Hx. apply Q2 in Hx. rewrite write_lookup. case_if; [|done]. zbool. apply lookup_lt_is_Some_2. rewrite enc_length. unfold len in *. rewrite enc_length in *. lia.
  - intros x Hx. rewrite Hout by lia. by apply Hfr.
  - intros x Hx Hy. rewrite Hout by (unfold table in Hx; lia). apply Q5; [done| |done]. unfold table in *. lia.
Qed.

Lemma args_frame lo hi m m' argv ps ls :
  args m argv ps ls -> outside lo hi argv ps ls -> (argv <> NULL -> ~ (argv + 8 * len ps < hi /\ lo < argv + 8 * len ps + 8)) ->
  (forall x, ~ lo <= x < hi -> m' !! x = m !! x) -> args m' argv ps ls.
Proof.
  intros [?|(Hn & Hp & Hz & Hs)] [Ho1 Ho2] Ht Hf; [by left|]. right. split; [done|]. specialize (Ht Hn). split; [|split].
  - apply (ptrs_ext m); [|done]. intros x Hx. apply Hf, Ho1. unfold table. lia.
  - rewrite <- Hz. apply ld64_ext. intros x Hx. apply Hf. lia.
  - eapply Forall2_impl; [exact (Forall2_both _ _ _ _ Hs Ho2)|]. intros p l [Hpl Hx]. apply (cstr_frame m); [done|]. intros x Hr. apply Hf, Hx. unfold string_area. lia.
Qed.

(** A vector whose bytes stay is still there. *)
Lemma args_at_keep m m' a ps ls (used : Z -> Prop) :
  args_at m a ps ls -> Forall2 (fun p l => forall x, string_area p l x -> used x) ps ls ->
  (forall x, table a 0 (len ps + 1) x \/ used x -> m' !! x = m !! x) -> args_at m' a ps ls.
Proof.
  intros (Hp & Hz & Hs) Hu Hk. split; [|split].
  - apply (ptrs_ext m); [|done]. intros x Hx. apply Hk. left. unfold table. lia.
  - rewrite <- Hz. apply ld64_ext. intros x Hx. apply Hk. left. unfold table. pose proof (len_nonneg ps). lia.
  - eapply Forall2_impl; [exact (Forall2_both _ _ _ _ Hs Hu)|]. intros p l [Hpl Hx]. apply (cstr_frame m); [done|]. intros x Hr. apply Hk. right. apply Hx. unfold string_area. lia.
Qed.

Record both_pre (up : bool) (lo hi : Z) (m : mem) (argv envp : Z) (pa pe : list Z) (A E : list (list Z)) (newargv newenvp buf bufsz : Z) : Prop := {
  bp_args : args m argv pa A;
  bp_envs : args m envp pe E;
  bp_argv : outside lo hi argv pa A;
  bp_envp : outside lo hi envp pe E /\ (envp <> NULL -> ~ (envp + 8 * len pe < hi /\ lo < envp + 8 * len pe + 8));
  bp_buf : mapped m lo (hi - lo) /\ 0 < lo /\ hi <= 2 ^ 64;
  bp_layout : layout up lo hi newargv newenvp buf bufsz (len pa) (len pe);
  bp_size : - 2 ^ 30 <= bufsz < 2 ^ 30 /\ total A + total E < 2 ^ 30;
  bp_room : bufsz < 0 -> A <> [] \/ E <> [] }.

(** The strings fit exactly if there is room for all of them. *)
Lemma copy_both_ok up lo hi m argv envp pa pe A E newargv newenvp buf bufsz :
  both_pre up lo hi m argv envp pa pe A E newargv newenvp buf bufsz ->
  exists n m' buf' bufsz', copy_both up m (len pa) (len pe) argv envp newargv newenvp buf bufsz = Some (n, m', buf', bufsz') /\ 0 <= n <= 2 /\
    (n = 2 <-> total A + total E <= bufsz) /\ (forall x, ~ lo <= x < hi -> m' !! x = m !! x) /\ (forall x, is_Some (m !! x) -> is_Some (m' !! x)) /\
    (n = 2 -> let t := total A + total E in
      buf' = (if up then buf + t else buf - t) /\ bufsz' = bufsz - t /\
      (forall x, ~ table newargv 0 (len pa + 1) x -> ~ table newenvp 0 (len pe + 1) x -> ~ area up buf t x -> m' !! x = m !! x) /\
      exists pa' pe', len pa' = len pa /\ len pe' = len pe /\ args_at m' newargv pa' A /\ args_at m' newenvp pe' E /\
        Forall2 (fun p l => forall x, string_area p l x -> area up buf t x) pa' A /\ Forall2 (fun p l => forall x, string_area p l x -> area up buf t x) pe' E).
Proof.
  intros [Ha He Hoa [Hoe Hte] (Hm & Hlo & Hhi) [L1 L2 L3 L4 L5] [Hsz Htot] Hroom].
  pose proof (total_nonneg A). pose proof (total_nonneg E). pose proof (len_nonneg pa). pose proof (len_nonneg pe).
  destruct (copy_vector_ok up lo hi m argv pa A newargv buf bufsz Ha Hoa Hm Hlo Hhi) as (ok & m1 & buf1 & sz1 & E1 & Hok & Hf1 & Hd1 & Hgo).
  { intros [Hb| ->]; [specialize (L1 Hb); lia|]. specialize (L2 eq_refl). change (len []) with 0. lia. }
  { intros x Hx. split; [by apply L3|]. by apply (L5 x Hx). }
  { done. }
  { lia. }
  unfold copy_both. rewrite <- (Nat2Z.id (length pa)) in E1. change (Z.of_nat (length pa)) with (len pa) in E1. rewrite E1. run_bind.
  destruct ok; cbn [negb].
  2: { exists 0, m1, buf1, sz1. split; [done|]. split; [lia|]. split; [|split; [done|split; [done|lia]]]. split; [lia|]. intros Hfit.
       assert (false = true) as [=]. apply Hok. right. lia. }
  destruct (Hgo eq_refl) as (m2 & pa' & E2 & -> & -> & Ela & Haa & Hd2 & Hf2 & Hu2 & Har). rewrite E2. some_bind.
  assert (HokA : A = [] \/ total A <= bufsz) by (by apply Hok).
  set (buf1 := if up then buf + total A else buf - total A).
  assert (Hsub : forall x, area up buf1 (bufsz - total A) x -> area up buf bufsz x) by (intros x; unfold area, buf1; destruct up; lia).
  assert (Hneg : bufsz - total A < 0 -> bufsz < 0 /\ E <> []).
  { intros Hn. destruct HokA as [EA|?]; [|lia]. rewrite EA in *. change (total []) with 0 in Hn. split; [lia|]. destruct (Hroom ltac:(lia)); done. }
  destruct (copy_vector_ok up lo hi m2 envp pe E newenvp buf1 (bufsz - total A)) as (ok & m3 & buf3 & sz3 & E3 & Hok3 & Hf3 & Hd3 & Hgo3).
  { by apply (args_frame lo hi m). }
  { done. }
  { intros x Hx. by apply Hd2, Hm. }
  { done. }
  { done. }
  { intros [Hb| ->]; [assert (Hb' : 0 <= bufsz) by lia; specialize (L1 Hb'); lia|]. destruct (Z_lt_le_dec bufsz 0) as [Hn|Hb]; [|specialize (L1 Hb); lia].
    destruct (args_parts _ _ _ _ He) as (_ & _ & Hnil). destruct (Hneg ltac:(lia)) as [_ Hne]. by destruct Hne; apply Hnil. }
  { intros x Hx. split; [by apply L3, Hsub|]. by apply (L5 x), Hsub. }
  { split; [|lia]. destruct HokA as [->|?]; [change (total []) with 0|]; lia. }
  { lia. }
  rewrite <- (Nat2Z.id (length pe)) in E3. change (Z.of_nat (length pe)) with (len pe) in E3. rewrite E3. run_bind. destruct ok; cbn [negb].
  2: { exists 1, m3, buf3, sz3. split; [done|]. split; [lia|]. split; [|split; [|split; [|lia]]].
       - split; [lia|]. intros Hfit. assert (false = true) as [=]. apply Hok3. right. lia.
       - intros x Hx. by rewrite Hf3, Hf2.
       - intros x Hx. by apply Hd3, Hd2. }
  destruct (Hgo3 eq_refl) as (m4 & pe' & E4 & -> & -> & Ele & Hae & Hd4 & Hf4 & Hu4 & Har4). rewrite E4. some_bind.
  assert (Hfit : total A + total E <= bufsz).
  { destruct (proj1 Hok3 eq_refl) as [EE|?]; [|lia]. rewrite EE in *. change (total []) with 0 in *. destruct (Z_lt_le_dec (bufsz - total A) 0) as [Hn|?]; [|lia]. by destruct (Hneg Hn). }
  eexists 2, m4, _, _. split; [done|]. split; [lia|]. split; [done|]. split; [intros x Hx; by rewrite Hf4, Hf2|]. split; [intros x Hx; by apply Hd4, Hd2|]. intros _. set (t := total A + total E).
  split; [unfold buf1, t; destruct up; lia|]. split; [unfold t; lia|].
  assert (Hs1 : forall x, area up buf (total A) x -> area up buf t x) by (intros x; unfold area, t; destruct up; lia).
  assert (Hs2 : forall x, area up buf1 (total E) x -> area up buf t x) by (intros x; unfold area, buf1, t; destruct up; lia).
  assert (Hst : forall x, area up buf t x -> area up buf bufsz x) by (intros x; unfold area, t; destruct up; lia).
  assert (Elpa : len pa' = len pa) by (unfold len; by rewrite Ela).
  split.
  - intros x X1 X2 X3. rewrite Hu4; [|done|intros Hy; by apply X3, Hs2]. apply Hu2; [done|]. intros Hy. by apply X3, Hs1.
  - exists pa', pe'. split; [done|]. split; [unfold len; by rewrite Ele|]. split; [|split; [done|split]].
    + apply (args_at_keep m2 m4 newargv pa' A (area up buf (total A))); [done|done|]. rewrite Elpa. intros x Hx. apply Hu4.
      * destruct Hx as [Hx|Hx]; [unfold table in *; lia|]. by apply (L5 x), Hst, Hs1.
      * destruct Hx as [Hx|Hx]; [intros Hy; by apply (proj1 (L5 x (Hst x (Hs2 x Hy))))|]. unfold area, buf1 in *. destruct up; lia.
    + eapply Forall2_impl; [exact Har|]. intros p l Hpl x Hx. by apply Hs1, Hpl.
    + eapply Forall2_impl; [exact Har4|]. intros p l Hpl x Hx. by apply Hs2, Hpl.
Qed.

(** ** [dup_args] and [setup_args] *)

Lemma i32_u64 z : i32 (u64 z) = i32 z.
Proof. unfold i32, u64, swrap, uwrap. rewrite <- (Zplus_mod_idemp_l (z mod 2 ^ 64)), (mod_pow2_mod z 32 64) by lia. by rewrite Zplus_mod_idemp_l. Qed.

Lemma minus_tables_ok size na ne : 0 <= na -> 0 <= ne -> 8 * (na + ne + 2) < 2 ^ 30 -> 0 <= size < 2 ^ 30 ->
  (minus_tables size na ne <? 0) = false /\ i32 (minus_tables size na ne) = size - 8 * (na + ne + 2).
Proof.
  intros Ha He Hn Hs. split.
  - apply Z.ltb_ge. unfold minus_tables. apply uwrap_range. lia.
  - unfold minus_tables. rewrite i32_u64. rewrite (i32_small (na + ne + 2)), (u64_small (na + ne + 2)), (u64_small size), u64_small by lia. rewrite i32_small by lia. lia.
Qed.

(** The bytes that vectors and strings take. *)
Definition needed (pa pe : list Z) (A E : list (list Z)) : Z := 8 * (len pa + len pe + 2) + total A + total E.

(** What the caller passes, and a buffer [lo, hi) apart from it. *)
Record args_pre (m : mem) (argv envp : Z) (pa pe : list Z) (A E : list (list Z)) (lo hi : Z) : Prop := {
  ap_args : args m argv pa A;
  ap_envs : args m envp pe E;
  ap_argv : outside lo hi argv pa A;
  ap_envp : outside lo hi envp pe E;
  ap_null : envp <> NULL -> ~ (envp + 8 * len pe < hi /\ lo < envp + 8 * len pe + 8);
  ap_buf : mapped m lo (hi - lo) /\ 0 < lo /\ hi <= 2 ^ 64;
  ap_needed : needed pa pe A E < 2 ^ 30 }.

Lemma counts_ok m argv envp pa pe A E lo hi : args_pre m argv envp pa pe A E lo hi ->
  count m argv = Some (len pa) /\ count m envp = Some (len pe) /\ 0 <= len pa /\ 0 <= len pe /\ 0 <= total A /\ 0 <= total E /\ 8 * (len pa + len pe + 2) + total A + total E < 2 ^ 30.
Proof.
  intros [Ha He _ _ _ _ Hn]. unfold needed in Hn. pose proof (len_nonneg pa). pose proof (len_nonneg pe). pose proof (total_nonneg A). pose proof (total_nonneg E).
  split; [apply (count_ok m argv pa A); [done|lia]|]. split; [apply (count_ok m envp pe E); [done|lia]|]. repeat split; (done || lia).
Qed.

Lemma empty_args m a ps ls : args m a ps ls -> len ps = 0 <-> ls = [].
Proof. intros H. destruct (args_parts _ _ _ _ H) as (_ & _ & Hn). rewrite Hn. unfold len. destruct ps; cbn; split; (done || lia). Qed.

Lemma dup_args_ok m argv envp pa pe A E buf size :
  args_pre m argv envp pa pe A E buf (buf + size) -> 16 <= size < 2 ^ 30 ->
  exists r a e m', dup_args m argv envp buf size = Some (r, a, e, m') /\
    (forall x, ~ buf <= x < buf + size -> m' !! x = m !! x) /\ (forall x, is_Some (m !! x) -> is_Some (m' !! x)) /\
    (size < needed pa pe A E -> r = -1) /\
    (needed pa pe A E <= size -> r = 0 /\ exists pa' pe', len pa' = len pa /\ len pe' = len pe /\ args_at m' a pa' A /\ args_at m' e pe' E /\
      buf <= a /\ a + 8 * (len pa + 1) <= buf + size /\ buf <= e /\ e + 8 * (len pe + 1) <= buf + size /\
      Forall2 (fun p l => forall x, string_area p l x -> buf <= x < buf + size) pa' A /\ Forall2 (fun p l => forall x, string_area p l x -> buf <= x < buf + size) pe' E).
Proof.
  intros Hpre Hs. destruct (counts_ok _ _ _ _ _ _ _ _ _ Hpre) as (Ca & Ce & N1 & N2 & T1 & T2 & Hn). pose proof Hpre as [Ha He Hoa Hoe Hnull Hbuf _].
  destruct (minus_tables_ok size (len pa) (len pe)) as [M1 M2]; [lia..|].
  unfold dup_args. rewrite Ca. some_bind. rewrite Ce. some_bind. rewrite M1, M2. set (sz := size - 8 * (len pa + len pe + 2)).
  assert (Esz : sz = size - 8 * (len pa + len pe + 2)) by done.
  destruct (copy_both_ok true buf (buf + size) m argv envp pa pe A E buf (buf + 8 * (len pa + 1)) (buf + 8 * (len pa + 1) + 8 * (len pe + 1)) sz) as
    (n & m' & buf' & sz' & E1 & Hn2 & Hfit & Hfr & Hdom & Hgo).
  { split; try done; [|lia|].
    - split; [lia|lia|intros x; unfold area; lia|lia|intros x; unfold area, table; lia].
    - intros Hneg. destruct (decide (A = [])) as [EA|]; [|by left]. right. intros EE. apply (empty_args _ _ _ _ Ha) in EA. apply (empty_args _ _ _ _ He) in EE. lia. }
  rewrite E1. run_bind. unfold needed. destruct (decide (n = 2)) as [->|Hne].
  - pose proof (proj1 Hfit eq_refl). destruct (Hgo eq_refl) as (_ & _ & _ & pa' & pe' & La & Le & Aa & Ae & Sa & Se).
    eexists _, _, _, m'. split; [reflexivity|]. split; [done|]. split; [done|]. split; [lia|]. intros _. split; [done|]. exists pa', pe'.
    assert (Hin : forall x, area true (buf + 8 * (len pa + 1) + 8 * (len pe + 1)) (total A + total E) x -> buf <= x < buf + size) by (unfold area; lia).
    do 4 (split; [done|]). do 4 (split; [lia|]). split; (eapply Forall2_impl; [eassumption|]); intros p l Hpl x Hx; by apply Hin, Hpl.
  - assert (Hnf : ~ total A + total E <= sz) by (rewrite <- Hfit; done).
    assert (exists a e, (if n =? 0 then Some (-1, argv, envp, m') else if n =? 1 then Some (-1, buf, envp, m') else Some (0, buf, buf + 8 * (len pa + 1), m')) = Some (-1, a, e, m')) as (a & e & ->).
    { destruct (n =? 0) eqn:E0; [by eexists _, _|]. destruct (n =? 1) eqn:E2; [by eexists _, _|]. zbool. lia. }
    exists (-1), a, e, m'. split; [done|]. split; [done|]. split; [done|]. split; [done|lia].
Qed.

Lemma land7 z : Z.land z 7 = z mod 8.
Proof. change 7 with (Z.ones 3). by apply Z.land_ones. Qed.

Lemma setup_args_ok m argv envp pa pe A E top size :
  args_pre m argv envp pa pe A E (top - size - 24) top -> 16 <= size < 2 ^ 30 -> size mod 8 = 0 -> top mod 8 = 0 ->
  (size < needed pa pe A E -> exists m', setup_args m argv envp top size = Some (NULL, m')) /\
  (needed pa pe A E <= size -> exists sp m' a e pa' pe', setup_args m argv envp top size = Some (sp, m') /\
    top - size - 24 <= sp /\ sp mod 8 = 0 /\ sp + 24 <= e /\ e < a < top /\
    ld64 m' sp = Some (len pa) /\ ld64 m' (sp + 8) = Some a /\ ld64 m' (sp + 16) = Some e /\
    len pa' = len pa /\ len pe' = len pe /\ args_at m' a pa' A /\ args_at m' e pe' E /\
    (forall x, is_Some (m !! x) -> is_Some (m' !! x)) /\ (forall x, ~ sp <= x < top -> m' !! x = m !! x) /\
    Forall2 (fun p l => forall x, string_area p l x -> sp <= x) pa' A /\ Forall2 (fun p l => forall x, string_area p l x -> sp <= x) pe' E).
Proof.
  intros Hpre Hs Hs8 Ht8. destruct (counts_ok _ _ _ _ _ _ _ _ _ Hpre) as (Ca & Ce & N1 & N2 & T1 & T2 & Hn). pose proof Hpre as [Ha He Hoa Hoe Hnull Hbuf _].
  destruct (proj2 Hbuf) as [Hlo Hhi].
  destruct (minus_tables_ok size (len pa) (len pe)) as [M1 M2]; [lia..|].
  unfold setup_args. rewrite Ca. some_bind. rewrite Ce. some_bind. rewrite M1, M2. set (sz := size - 8 * (len pa + len pe + 2)).
  assert (Esz : sz = size - 8 * (len pa + len pe + 2)) by done. set (newargv := top - 8 * (len pa + 1)). set (newenvp := newargv - 8 * (len pe + 1)).
  assert (Ena : newargv = top - 8 * (len pa + 1)) by done. assert (Ene : newenvp = newargv - 8 * (len pe + 1)) by done.
  destruct (copy_both_ok false (top - size - 24) top m argv envp pa pe A E newargv newenvp newenvp sz) as (n & m' & buf' & sz' & E1 & Hn2 & Hfit & Hfr & Hdom & Hgo).
  { split; try done; [|lia|].
    - split; [lia|lia|intros x; unfold area; lia|lia|intros x; unfold area, table; lia].
    - intros Hneg. destruct (decide (A = [])) as [EA|]; [|by left]. right. intros EE. apply (empty_args _ _ _ _ Ha) in EA. apply (empty_args _ _ _ _ He) in EE. lia. }
  rewrite E1. run_bind. unfold needed. split.
  { intros Hlt. assert (n <> 2) by (intros E2; apply Hfit in E2; lia). rewrite (proj2 (Z.ltb_lt n 2)) by lia. by exists m'. }
  intros Hle. assert (n = 2) as -> by (apply Hfit; lia). destruct (Hgo eq_refl) as (-> & -> & Hused & pa' & pe' & La & Le & Aa & Ae & Sa & Se). clear Hgo.
  change (2 <? 2) with false. cbv iota. set (t := total A + total E) in *. rewrite !land7. set (be := newenvp - t). assert (Ebe : be = newenvp - t) by done.
  pose proof (Z.mod_pos_bound be 8 ltac:(lia)). pose proof (Z.mod_pos_bound (sz - t) 8 ltac:(lia)).
  assert (Em : (sz - t) mod 8 = be mod 8).
  { apply Z.mod_divide in Hs8 as [ks Hks]; [|lia]. apply Z.mod_divide in Ht8 as [kt Hkt]; [|lia].
    replace be with ((sz - t) + (kt - ks) * 8) by lia. by rewrite Z.mod_add by lia. }
  rewrite (proj2 (Z.ltb_ge _ 0)) by (apply uwrap_range; lia). set (sp := be - be mod 8 - 3 * 8). assert (Esp : sp = be - be mod 8 - 24) by done.
  assert (Et : t = total A + total E) by done. pose proof (Z.mod_le (sz - t) 8 ltac:(lia) ltac:(lia)). assert (Hsp : top - size - 24 <= sp) by lia.
  assert (Hmp : forall x, sp <= x < sp + 24 -> is_Some (m' !! x)) by (intros x Hx; apply Hdom; apply (proj1 Hbuf); lia).
  assert (Hw : forall a m1, sp <= a -> a + 8 <= sp + 24 -> (forall x, is_Some (m' !! x) -> is_Some (m1 !! x)) -> mapped m1 a 8) by (intros a m1 X1 X2 Hd x Hx; apply Hd, Hmp; lia).
  assert (Hdw : forall m1 a v x, is_Some (m1 !! x) -> is_Some (write m1 a (enc 8 v) !! x)).
  { intros m1 a v x Hx. rewrite write_lookup. case_if; [|done]. zbool. apply lookup_lt_is_Some_2. rewrite enc_length. rewrite len_enc8 in *. lia. }
  rewrite st64_ok by (apply (Hw sp m'); [lia|lia|done]). some_bind. rewrite st64_ok by (apply Hw; [lia|lia|intros x Hx; by apply Hdw]). some_bind.
  rewrite st64_ok by (apply Hw; [lia|lia|intros x Hx; by apply Hdw, Hdw]). some_bind.
  set (m4 := write _ (sp + 16) _). assert (H4 : forall x, ~ sp <= x < sp + 24 -> m4 !! x = m' !! x) by (intros x Hx; unfold m4; rewrite !write_out by (rewrite len_enc8; lia); done).
  exists sp, m4, newargv, newenvp, pa', pe'. split; [done|]. split; [done|].
  split. { rewrite Esp. pose proof (Z.div_mod be 8 ltac:(lia)). replace (be - be mod 8 - 24) with ((be / 8 - 3) * 8) by lia. apply Z.mod_mul. lia. }
  split; [lia|]. split; [lia|]. split; [|split; [|split; [|split; [done|split; [done|split; [|split; [|split; [|split; [|split]]]]]]]]].
  - transitivity (ld64 (write m' sp (enc 8 (u64 (len pa)))) sp).
    + apply ld64_ext. intros x Hx. unfold m4. by rewrite !(write_out _ _ (sp + _)) by (rewrite len_enc8; lia).
    + rewrite u64_small by lia. apply ld64_write. lia.
  - unfold m4. etransitivity; [apply ld64_ext; intros x Hx; apply write_out; rewrite len_enc8; lia|]. apply ld64_write. lia.
  - apply ld64_write. lia.
  - apply (args_at_keep m' m4 newargv pa' A _ Aa Sa). rewrite La. intros x Hx. apply H4. unfold table, area in Hx. lia.
  - apply (args_at_keep m' m4 newenvp pe' E _ Ae Se). rewrite Le. intros x Hx. apply H4. unfold table, area in Hx. lia.
  - intros x Hx. by apply Hdw, Hdw, Hdw, Hdom.
  - intros x Hx. rewrite H4 by lia. apply Hused; unfold table, area; lia.
  - eapply Forall2_impl; [exact Sa|]. intros p l Hpl x Hx. apply Hpl in Hx. unfold area in Hx. lia.
  - eapply Forall2_impl; [exact Se|]. intros p l Hpl x Hx. apply Hpl in Hx. unfold area in Hx. lia.
Qed.

(** ** From the caller to the new stack *)

Definition zeros : list Z := replicate (Z.to_nat PAGE_SIZE) 0.

Lemma len_zeros : len zeros = PAGE_SIZE.
Proof. unfold len, zeros. rewrite length_replicate. done. Qed.

Lemma write_zeros (m : mem) a x : write m a zeros !! x = if (a <=? x) && (x <? a + PAGE_SIZE) then Some 0 else m !! x.
Proof. rewrite write_lookup, len_zeros. case_if; [|done]. zbool. apply lookup_replicate_2. lia. Qed.

Definition stack_start : Z := USER_STACK_END - 2 * PAGE_SIZE.

(** The new stack in an address space that was emptied. *)
Lemma map_stack_ok m : exists m', map_stack (Z.to_nat (Z.shiftl 1 USER_STACK_ORDER)) (u_clear m) USER_STACK_END = (m', stack_start) /\
  (forall x, stack_start <= x < USER_STACK_END -> m' !! x = Some 0) /\ (forall x, 2 ^ 47 <= x -> m' !! x = m !! x) /\
  (forall x, x < 2 ^ 47 -> ~ stack_start <= x < USER_STACK_END -> m' !! x = None).
Proof.
  set (p1 := USER_STACK_END - PAGE_SIZE). set (p2 := p1 - PAGE_SIZE).
  assert (Hc : forall x, x < 2 ^ 47 -> u_clear m !! x = None) by (intros x Hx; apply map_lookup_filter_None_2; right; intros v _; cbn; lia).
  assert (Hk : forall x, 2 ^ 47 <= x -> u_clear m !! x = m !! x).
  { intros x Hx. unfold u_clear. rewrite map_lookup_filter. destruct (m !! x) as [v|]; [|done]. cbn. by case_guard. }
  assert (E1 : u_map (u_clear m) p1 = write (u_clear m) p1 zeros).
  { unfold u_map. change (page_start p1) with p1. by rewrite Hc by done. }
  assert (E2 : u_map (write (u_clear m) p1 zeros) p2 = write (write (u_clear m) p1 zeros) p2 zeros).
  { unfold u_map. change (page_start p2) with p2. rewrite write_out by (left; done). by rewrite Hc by done. }
  exists (write (write (u_clear m) p1 zeros) p2 zeros). split.
  { change (Z.to_nat (Z.shiftl 1 USER_STACK_ORDER)) with 2%nat. cbn [map_stack]. fold p1. rewrite E1. fold p2. rewrite E2. done. }
  unfold stack_start, p2, p1, PAGE_SIZE, USER_STACK_END in *. split; [|split]; intros x Hx.
  - do 2 (rewrite write_zeros; unfold PAGE_SIZE; case_if; [done|]). zbool. lia.
  - do 2 (rewrite write_zeros; unfold PAGE_SIZE; case_if; [zbool; lia|]). by apply Hk.
  - intros Hn. do 2 (rewrite write_zeros; unfold PAGE_SIZE; case_if; [zbool; lia|]). by apply Hc.
Qed.

(** What the caller passes to [do_execve] is outside the page that [get_zeroed_page]
    returned, which is in the kernel half. *)
Record exec_pre (m : mem) (argv envp : Z) (pa pe : list Z) (A E : list (list Z)) (argsbuf : Z) : Prop := {
  ep_args : args m argv pa A;
  ep_envs : args m envp pe E;
  ep_argv : outside argsbuf (argsbuf + PAGE_SIZE) argv pa A /\ (argv <> NULL -> ~ (argv + 8 * len pa < argsbuf + PAGE_SIZE /\ argsbuf < argv + 8 * len pa + 8));
  ep_envp : outside argsbuf (argsbuf + PAGE_SIZE) envp pe E /\ (envp <> NULL -> ~ (envp + 8 * len pe < argsbuf + PAGE_SIZE /\ argsbuf < envp + 8 * len pe + 8));
  ep_buf : 2 ^ 47 <= argsbuf /\ argsbuf + PAGE_SIZE <= 2 ^ 64;
  ep_needed : needed pa pe A E < 2 ^ 30 }.

Lemma dup_pre m argv envp pa pe A E argsbuf : exec_pre m argv envp pa pe A E argsbuf ->
  args_pre (write m argsbuf zeros) argv envp pa pe A E argsbuf (argsbuf + PAGE_SIZE).
Proof.
  intros [Ha He [Hoa Hna] [Hoe Hne] [Hb1 Hb2] Hn].
  assert (Hf : forall x, ~ argsbuf <= x < argsbuf + PAGE_SIZE -> write m argsbuf zeros !! x = m !! x) by (intros x Hx; apply write_out; rewrite len_zeros; lia).
  split; try done; [by apply (args_frame _ _ _ _ _ _ _ Ha Hoa)|by apply (args_frame _ _ _ _ _ _ _ He Hoe)|].
  split; [|lia]. intros x Hx. rewrite write_zeros, (proj2 (Z.leb_le _ _)), (proj2 (Z.ltb_lt _ _)) by lia. by eexists.
Qed.

(** A vector in the kernel's page is outside the stack. *)
Lemma page_outside_stack buf a ps ls : 2 ^ 47 <= buf -> buf <= a -> a + 8 * (len ps + 1) <= buf + PAGE_SIZE ->
  Forall2 (fun p l => forall x, string_area p l x -> buf <= x < buf + PAGE_SIZE) ps ls ->
  outside (USER_STACK_END - PAGE_SIZE - 24) USER_STACK_END a ps ls /\ ~ (a + 8 * len ps < USER_STACK_END /\ USER_STACK_END - PAGE_SIZE - 24 < a + 8 * len ps + 8).
Proof.
  intros Hb Ha Ht Hs. pose proof (len_nonneg ps). unfold USER_STACK_END, outside, table in *. split; [|lia]. split; [lia|].
  eapply Forall2_impl; [exact Hs|]. intros p l Hpl x Hx. specialize (Hpl x Hx). lia.
Qed.

Lemma exec_args_moved m argv envp pa pe A E argsbuf :
  exec_pre m argv envp pa pe A E argsbuf ->
  exists ok start sp m', move_args m argv envp argsbuf = Some (ok, start, sp, m') /\ (ok = true <-> needed pa pe A E <= PAGE_SIZE) /\
    (ok = false -> forall x, ~ argsbuf <= x < argsbuf + PAGE_SIZE -> m' !! x = m !! x) /\
    (ok = true -> start = USER_STACK_END - 2 * PAGE_SIZE /\ start <= sp < USER_STACK_END /\ sp mod 8 = 0 /\
      (exists a e pa' pe', ld64 m' sp = Some (Z.of_nat (length A)) /\ ld64 m' (sp + 8) = Some a /\ ld64 m' (sp + 16) = Some e /\
        args_at m' a pa' A /\ args_at m' e pe' E) /\
      (forall x, x < 2 ^ 47 -> is_Some (m' !! x) <-> start <= x < USER_STACK_END) /\
      (forall x, 2 ^ 47 <= x -> ~ argsbuf <= x < argsbuf + PAGE_SIZE -> m' !! x = m !! x)).
Proof.
  intros Hpre. pose proof Hpre as [Ha _ _ _ [Hb1 Hb2] Hneed]. destruct (args_parts _ _ _ _ Ha) as (_ & HsA & _).
  destruct (dup_args_ok _ _ _ _ _ _ _ _ PAGE_SIZE (dup_pre _ _ _ _ _ _ _ _ Hpre)) as (r & a & e & m1 & E1 & Hf & Hd & Hbig & Hfit); [done|].
  assert (Hf' : forall x, ~ argsbuf <= x < argsbuf + PAGE_SIZE -> m1 !! x = m !! x) by (intros x Hx; rewrite Hf by done; apply write_out; rewrite len_zeros; lia).
  unfold move_args. fold zeros. rewrite E1. run_bind. destruct (Z_lt_le_dec PAGE_SIZE (needed pa pe A E)) as [Hlt|Hle].
  { rewrite (Hbig Hlt). exists false, NULL, NULL, m1. split; [done|]. split; [|split; done]. split; [done|lia]. }
  destruct (Hfit Hle) as (-> & pa1 & pe1 & La & Le & Aa & Ae & A1 & A2 & A3 & A4 & Sa & Se). cbn [negb Z.eqb].
  destruct (map_stack_ok m1) as (m2 & -> & Hz & Hk & Hu).
  assert (Hkeep : forall b ps ls, args_at m1 b ps ls -> argsbuf <= b -> b + 8 * (len ps + 1) <= argsbuf + PAGE_SIZE ->
    Forall2 (fun p l => forall x, string_area p l x -> argsbuf <= x < argsbuf + PAGE_SIZE) ps ls -> args m2 b ps ls).
  { intros b ps ls Hb X1 X2 X3. right. split; [unfold NULL; lia|]. apply (args_at_keep m1 m2 b ps ls _ Hb X3). intros x Hx. apply Hk. unfold table in Hx. lia. }
  rewrite <- La in A2. rewrite <- Le in A4.
  destruct (page_outside_stack argsbuf a pa1 A) as [Oa _]; [done..|]. destruct (page_outside_stack argsbuf e pe1 E) as [Oe Oe0]; [done..|].
  destruct (setup_args_ok m2 a e pa1 pe1 A E USER_STACK_END PAGE_SIZE) as [_ Hset]; [|done..|].
  { split; try done; [by apply Hkeep|by apply Hkeep| |by unfold needed in *; rewrite La, Le].
    split; [|done]. intros x Hx. rewrite Hz; [by eexists|]. unfold stack_start, PAGE_SIZE in *. lia. }
  destruct Hset as (sp & m3 & a' & e' & pa2 & pe2 & -> & B1 & B2 & B3 & B4 & W0 & W1 & W2 & L1 & L2 & Va & Ve & Hd3 & Hf3 & _); [by unfold needed in *; rewrite La, Le|].
  run_bind. exists true, stack_start, sp, m3. cbn [fst snd]. split; [done|]. split; [done|]. split; [done|]. intros _. split; [done|].
  assert (len pa1 = Z.of_nat (length A)) as ElA by (rewrite La; unfold len; by rewrite (Forall2_length _ _ _ HsA)).
  split; [unfold stack_start, PAGE_SIZE in *; lia|]. split; [done|]. split; [exists a', e', pa2, pe2; by rewrite <- ElA|]. split.
  - intros x Hx. destruct (decide (stack_start <= x < USER_STACK_END)) as [Hin|Hn].
    + split; [done|]. intros _. apply Hd3. rewrite Hz by done. by eexists.
    + split; [|done]. rewrite Hf3 by (unfold stack_start, PAGE_SIZE in *; lia). rewrite Hu by done. by intros [? ?].
  - intros x Hx Hn. rewrite Hf3 by (unfold USER_STACK_END in *; lia). rewrite Hk by done. by apply Hf'.
Qed.

(** C13: the arguments of a program survive [execve].  [argv] and [envp], any vectors of
    strings, are moved through a kernel page while the old address space goes.  This
    fails exactly if their strings and tables need more than the page, nothing outside it
    is written then, and the call to [setup_args], whose result nobody checks, does not
    fail any more.  The stack of two pages is then all that is mapped for the user; the
    stack pointer is aligned and in it, with [argc] and pointers to vectors that have the
    same strings in the same order; the rest of the kernel half is untouched. *)
Theorem exec_args_survive m argv envp pa pe A E argsbuf :
  exec_pre m argv envp pa pe A E argsbuf ->
  exists ok start sp m', move_args m argv envp argsbuf = Some (ok, start, sp, m') /\ (ok = true <-> needed pa pe A E <= PAGE_SIZE) /\
    (ok = false -> forall x, ~ argsbuf <= x < argsbuf + PAGE_SIZE -> m' !! x = m !! x) /\
    (ok = true -> start = USER_STACK_END - 2 * PAGE_SIZE /\ start <= sp < USER_STACK_END /\ sp mod 8 = 0 /\
      (exists a e pa' pe', ld64 m' sp = Some (Z.of_nat (length A)) /\ ld64 m' (sp + 8) = Some a /\ ld64 m' (sp + 16) = Some e /\
        args_at m' a pa' A /\ args_at m' e pe' E) /\
      (forall x, x < 2 ^ 47 -> is_Some (m' !! x) <-> start <= x < USER_STACK_END) /\
      (forall x, 2 ^ 47 <= x -> ~ argsbuf <= x < argsbuf + PAGE_SIZE -> m' !! x = m !! x)).
Proof. apply exec_args_moved. Qed.

(** ** Witness: the call with the one argument [a] *)

Definition caller : mem := write (write ∅ 0x1000 (enc 8 0x2000 ++ enc 8 0)) 0x2000 [0x61; 0].

Lemma caller_pre : exec_pre caller 0x1000 NULL [0x2000] [] [[0x61]] [] (2 ^ 47).
Proof.
  split.
  - right. split; [done|]. split; [|split].
    + split; [by vm_compute|]. done.
    + by vm_compute.
    + repeat constructor; vm_compute; done.
  - by left.
  - split; [|intros _; change (len [0x2000]) with 1; unfold PAGE_SIZE; lia]. split; [intros x; unfold table; change (len [0x2000]) with 1; unfold PAGE_SIZE; lia|].
    repeat constructor. intros x. unfold string_area. change (len [0x61]) with 1. unfold PAGE_SIZE. lia.
  - split; [|done]. split; [intros x; unfold table; change (len []) with 0; lia|constructor].
  - unfold PAGE_SIZE. lia.
  - done.
Qed.

Lemma exec_args_survive_witness : exists sp m' a pa', move_args caller 0x1000 NULL (2 ^ 47) = Some (true, USER_STACK_END - 2 * PAGE_SIZE, sp, m') /\
  ld64 m' sp = Some 1 /\ ld64 m' (sp + 8) = Some a /\ args_at m' a pa' [[0x61]].
Proof.
  destruct (exec_args_survive _ _ _ _ _ _ _ _ caller_pre) as (ok & start & sp & m' & Hrun & Hok & _ & Hgo).
  assert (E : ok = true) by (apply Hok; vm_compute; discriminate). destruct (Hgo E) as (Es & _ & _ & (a & e & pa' & pe' & W0 & W1 & _ & Va & _) & _).
  exists sp, m', a, pa'. rewrite Hrun, E, Es. split; [reflexivity|]. split; [exact W0|]. split; [exact W1|exact Va].
Defined.

(** ** Segments *)

(** What [do_execve] relies on: a seek and a read of a file that is long enough. *)
Class FileServerLaws (F : Type) `{!FileServer F} := {
  file_at : F -> Z -> list Z -> Z -> Prop;
  lseek_law f fd data pos off : file_at f fd data pos -> 0 <= off <= len data ->
    exists f', srv_lseek fd off 0 f = (0, off, f') /\ file_at f' fd data off;
  read_law f fd data pos n : file_at f fd data pos -> 0 <= pos -> 0 < n -> pos + n <= len data ->
    exists f', srv_read fd n f = (0, n, slice pos n data, f') /\ file_at f' fd data (pos + n) }.

Section Segments.
Context {F : Type} `{!FileServer F, !FileServerLaws F}.
Implicit Types (m : mem) (f : F) (data : list Z).

(** User memory is mapped by pages. *)
Definition whole_pages m : Prop := forall x y, x < 2 ^ 47 -> page_start x = page_start y -> m !! x = None -> m !! y = None.

(** The byte at [x] when [filesz] bytes of a file were stored at [c], zeros after them up
    to [hi], and the pages from [lo] on mapped. *)
Definition seg_byte data (pos c filesz lo hi : Z) m (x : Z) : option Z :=
  if (c <=? x) && (x <? c + filesz) then data !! Z.to_nat (pos + (x - c))
  else if (c + filesz <=? x) && (x <? hi) then Some 0
  else if (lo <=? x) && (x <? c) then Some (default 0 (m !! x))
  else m !! x.

Lemma page_aligned a : a mod PAGE_SIZE = 0 -> page_start a = a.
Proof. unfold page_start. intros ->. lia. Qed.

Lemma map_whole m a x : whole_pages m -> page_start a = a -> 0 <= a < 2 ^ 47 ->
  u_map m a !! x = if (a <=? x) && (x <? a + PAGE_SIZE) then Some (default 0 (m !! x)) else m !! x.
Proof.
  intros Hw Ha Hr. rewrite u_map_lookup by (intros y Hy; pose proof (user_page_bound a y Hr Hy); split; apply Hw; rewrite ?Ha; (lia || by rewrite Hy, ?Ha)). rewrite Ha. pose proof (in_page a x Ha) as Hin.
  destruct (m !! x) as [v|] eqn:E; [by destruct (_ && _)|]. case_decide as Hd.
  - apply Hin in Hd. rewrite (proj2 (Z.leb_le _ _)), (proj2 (Z.ltb_lt _ _)) by lia. done.
  - rewrite Hin in Hd. destruct ((a <=? x) && (x <? a + PAGE_SIZE)) eqn:Eb; [zbool; lia|done].
Qed.

(** What a read stores. *)
Lemma write_slice data pos c k m x : 0 <= pos -> 0 <= k -> pos + k <= len data ->
  write m c (slice pos k data) !! x = if (c <=? x) && (x <? c + k) then data !! Z.to_nat (pos + (x - c)) else m !! x.
Proof.
  intros Hp Hk Hd. assert (El : len (slice pos k data) = k) by (unfold len in *; rewrite slice_length by lia; lia). rewrite write_lookup, El.
  destruct ((c <=? x) && (x <? c + k)) eqn:Eb; [|done]. zbool. rewrite slice_lookup by lia. f_equal. lia.
Qed.

(** One page: the part of the file that is in it, and zeros. *)
Lemma copy_part_ok m f fd data pos s filesz c :
  file_at f fd data pos -> 0 <= pos -> 0 <= filesz -> pos + filesz <= len data -> 0 <= s -> s + PAGE_SIZE <= 2 ^ 47 -> s <= c < s + PAGE_SIZE -> mapped m s PAGE_SIZE ->
  let k := Z.min filesz (s + PAGE_SIZE - c) in
  exists m' f', copy_part m f fd (s + PAGE_SIZE) filesz c = Some (m', f', filesz - k, c + k) /\ file_at f' fd data (pos + k) /\ mapped m' s PAGE_SIZE /\
    forall x, m' !! x = if (c <=? x) && (x <? c + k) then data !! Z.to_nat (pos + (x - c)) else m !! x.
Proof.
  intros Hf Hp Hz Hd Hs Hs2 Hc Hm k. unfold PAGE_SIZE in *. unfold copy_part. rewrite (u64_small (s + 4096 - c)) by lia. destruct (0 <? filesz) eqn:Ez; zbool.
  - replace (if filesz <? s + 4096 - c then filesz else s + 4096 - c) with k by (unfold k; case_if; zbool; lia). cbv zeta.
    destruct (read_law f fd data pos k Hf) as (f1 & Er & Hf1); [lia..|]. unfold read_exec. rewrite Er. run_bind.
    rewrite store_bytes_ok by (intros x Hx; apply Hm; unfold len in *; rewrite slice_length in Hx by lia; lia). run_bind.
    exists (write m c (slice pos k data)), f1. split; [done|]. split; [done|]. split; [by apply mapped_write|]. intros x. apply write_slice; lia.
  - assert (filesz = 0) as -> by lia. assert (k = 0) as -> by lia. exists m, f. rewrite Z.sub_0_r, !Z.add_0_r. do 3 (split; [done|]). intros x. case_if; [zbool; lia|done].
Qed.

Lemma fill_page_ok m f fd data pos s filesz c :
  file_at f fd data pos -> 0 <= pos -> 0 <= filesz -> pos + filesz <= len data -> 0 <= s -> s + PAGE_SIZE <= 2 ^ 47 -> s <= c < s + PAGE_SIZE -> mapped m s PAGE_SIZE ->
  filesz = 0 \/ c + filesz <> s + PAGE_SIZE ->
  let k := Z.min filesz (s + PAGE_SIZE - c) in
  exists m' f', fill_page m f fd (s + PAGE_SIZE) filesz c = Some (m', f', filesz - k, s + PAGE_SIZE) /\ file_at f' fd data (pos + k) /\
    forall x, m' !! x = if (c <=? x) && (x <? c + k) then data !! Z.to_nat (pos + (x - c)) else if (c + k <=? x) && (x <? s + PAGE_SIZE) then Some 0 else m !! x.
Proof.
  intros Hf Hp Hz Hd Hs Hs2 Hc Hm Hal k. destruct (copy_part_ok m f fd data pos s filesz c Hf Hp Hz Hd Hs Hs2 Hc Hm) as (m1 & f1 & E & Hf1 & Hm1 & Hx1). fold k in E, Hf1, Hx1.
  unfold fill_page. rewrite E. run_bind. unfold PAGE_SIZE in *. destruct (filesz - k =? 0) eqn:Ek; zbool.
  - rewrite (u64_small (s + 4096 - (c + k))) by lia. rewrite memset_0 by (try (intros x Hx; apply Hm1; lia); lia). run_bind. eexists _, f1.
    split; [by replace (c + k + (s + 4096 - (c + k))) with (s + 4096) by lia|]. split; [done|]. intros x. rewrite write_lookup. unfold len. rewrite length_replicate. rewrite Z2Nat.id by lia.
    replace (c + k + (s + 4096 - (c + k))) with (s + 4096) by lia. destruct ((c + k <=? x) && (x <? s + 4096)) eqn:Eb.
    + zbool. case_if; [zbool; lia|]. apply lookup_replicate_2. lia.
    + rewrite Hx1. by case_if.
  - exists m1, f1. split; [by replace (c + k) with (s + 4096) by lia|]. split; [done|]. intros x. rewrite Hx1. case_if; [done|]. case_if; [zbool; lia|done].
Qed.

Lemma whole_grow m m' lo n : whole_pages m -> lo mod PAGE_SIZE = 0 -> 0 <= n ->
  (forall x, is_Some (m' !! x) <-> is_Some (m !! x) \/ lo <= x < lo + n * PAGE_SIZE) -> whole_pages m'.
Proof.
  intros Hw Hlo Hn Hd x y Hx47 Hxy Hx. apply eq_None_not_Some. intros Hy. apply Hd in Hy as [Hy|Hy].
  - assert (Hnx : m !! x = None). { apply eq_None_not_Some. intros Hs. assert (is_Some (m' !! x)) by (apply Hd; by left). rewrite Hx in *. by destruct (is_Some_None (A:=Z)). }
    apply (Hw x y Hx47 Hxy) in Hnx. rewrite Hnx in Hy. by apply is_Some_None in Hy.
  - assert (is_Some (m' !! x)) as Hs; [|rewrite Hx in Hs; by apply is_Some_None in Hs]. apply Hd. right. apply Z.mod_divide in Hlo as [k ->]; [|done].
    destruct (page_start_of x) as (_ & Rx & Mx). destruct (page_start_of y) as (_ & Ry & _). rewrite Hxy in *. apply Z.mod_divide in Mx as [j Ej]; [|done]. unfold PAGE_SIZE in *. lia.
Qed.

Lemma seg_byte_dom data pos c filesz lo hi m x : 0 <= pos -> 0 <= filesz -> pos + filesz <= len data -> lo <= c -> c + filesz <= hi ->
  is_Some (seg_byte data pos c filesz lo hi m x) <-> is_Some (m !! x) \/ lo <= x < hi.
Proof.
  intros Hp Hf Hd Hl Hh. unfold seg_byte. repeat case_if; zbool.
  - split; [lia|]. intros _. apply lookup_lt_is_Some_2. unfold len in Hd. lia.
  - split; [lia|by eexists].
  - split; [lia|by eexists].
  - split; [by left|]. intros [?|?]; [done|lia].
Qed.

(** The pages of a segment from [s] on. *)
Lemma load_pages_ok n : forall m f fd data pos s filesz c,
  whole_pages m -> file_at f fd data pos -> 0 <= pos -> 0 <= filesz -> pos + filesz <= len data ->
  0 <= s -> s mod PAGE_SIZE = 0 -> s + Z.of_nat n * PAGE_SIZE <= 2 ^ 47 -> s <= c < s + PAGE_SIZE -> c + filesz <= s + Z.of_nat n * PAGE_SIZE ->
  filesz = 0 \/ (c + filesz) mod PAGE_SIZE <> 0 ->
  exists m' f', load_pages n m f fd s filesz c = Some (m', f') /\ file_at f' fd data (pos + filesz) /\
    forall x, m' !! x = seg_byte data pos c filesz s (s + Z.of_nat n * PAGE_SIZE) m x.
Proof.
  induction n as [|n IH]; intros m f fd data pos s filesz c Hw Hf Hp Hz Hd Hs Hs0 Hhi Hc Hce Hal.
  { assert (filesz = 0) as -> by lia. exists m, f. split; [done|]. rewrite Z.add_0_r. split; [done|]. intros x. unfold seg_byte. repeat case_if; zbool; (done || lia). }
  cbn [load_pages]. rewrite Nat2Z.inj_succ, Z.mul_succ_l in *. rewrite u64_small by (unfold PAGE_SIZE in *; lia). pose proof (page_aligned s Hs0) as Hps.
  assert (Hmap : forall x, u_map m s !! x = if (s <=? x) && (x <? s + PAGE_SIZE) then Some (default 0 (m !! x)) else m !! x) by (intros x; apply map_whole; [done|done|unfold PAGE_SIZE in *; lia]).
  set (m1 := u_map m s) in *. assert (Hn : 0 <= Z.of_nat n * PAGE_SIZE) by (unfold PAGE_SIZE; lia).
  destruct (fill_page_ok m1 f fd data pos s filesz c) as (m2 & f2 & E & Hf2 & Hx2); try done; [unfold PAGE_SIZE in *; lia| | |].
  { intros x Hx. rewrite Hmap. rewrite (proj2 (Z.leb_le _ _)), (proj2 (Z.ltb_lt _ _)) by lia. by eexists. }
  { destruct Hal as [?|Hal]; [by left|]. right. intros Hq. apply Hal. rewrite Hq. rewrite <- Z.add_mod_idemp_l by done. by rewrite Hs0. }
  set (k := Z.min filesz (s + PAGE_SIZE - c)) in *. rewrite E. run_bind.
  assert (Hx : forall x, m2 !! x = seg_byte data pos c k s (s + PAGE_SIZE) m x).
  { intros x. rewrite Hx2, Hmap. unfold seg_byte. repeat case_if; zbool; (done || lia). }
  destruct (IH m2 f2 fd data (pos + k) (s + PAGE_SIZE) (filesz - k) (s + PAGE_SIZE)) as (m' & f' & E' & Hf' & Hx'); try (unfold PAGE_SIZE in *; lia); try done.
  { apply (whole_grow m m2 s 1 Hw Hs0); [lia|]. intros x. rewrite Hx, Z.mul_1_l. apply seg_byte_dom; lia. }
  { rewrite <- Z.add_mod_idemp_l by done. by rewrite Hs0. }
  { destruct (decide (filesz - k = 0)); [by left|]. right. destruct Hal as [?|Hal]; [lia|]. by replace (s + PAGE_SIZE + (filesz - k)) with (c + filesz) by lia. }
  exists m', f'. split; [done|]. split; [by replace (pos + filesz) with (pos + k + (filesz - k)) by lia|]. intros x. rewrite Hx'. unfold seg_byte at 1. rewrite Hx. unfold seg_byte.
  repeat case_if; zbool; try done; try lia. f_equal. lia.
Qed.

(** A file part that ends with its page leaves [memset] no byte to clear, and it clears
    all memory up to an address that faults. *)
Lemma load_pages_fault n : forall m f fd data pos s filesz c y,
  whole_pages m -> file_at f fd data pos -> 0 <= pos -> 0 < filesz -> pos + filesz <= len data ->
  0 <= s -> s mod PAGE_SIZE = 0 -> s + Z.of_nat n * PAGE_SIZE <= 2 ^ 47 -> s <= c < s + PAGE_SIZE -> c + filesz <= s + Z.of_nat n * PAGE_SIZE ->
  (c + filesz) mod PAGE_SIZE = 0 -> s + Z.of_nat n * PAGE_SIZE <= y < 2 ^ 64 -> m !! y = None ->
  load_pages n m f fd s filesz c = None.
Proof.
  induction n as [|n IH]; intros m f fd data pos s filesz c y Hw Hf Hp Hz Hd Hs Hs0 Hhi Hc Hce Hal Hy Hm; [lia|].
  cbn [load_pages]. rewrite Nat2Z.inj_succ, Z.mul_succ_l in *. rewrite u64_small by (unfold PAGE_SIZE in *; lia). pose proof (page_aligned s Hs0) as Hps.
  assert (Hmap : forall x, u_map m s !! x = if (s <=? x) && (x <? s + PAGE_SIZE) then Some (default 0 (m !! x)) else m !! x) by (intros x; apply map_whole; [done|done|unfold PAGE_SIZE in *; lia]).
  set (m1 := u_map m s) in *. assert (Hn : 0 <= Z.of_nat n * PAGE_SIZE) by (unfold PAGE_SIZE; lia).
  assert (Hm1 : mapped m1 s PAGE_SIZE).
  { intros x Hx. rewrite Hmap. rewrite (proj2 (Z.leb_le _ _)), (proj2 (Z.ltb_lt _ _)) by lia. by eexists. }
  assert (Hy1 : m1 !! y = None) by (rewrite Hmap; case_if; [zbool; lia|done]).
  destruct (decide (c + filesz = s + PAGE_SIZE)) as [He|He].
  - destruct (copy_part_ok m1 f fd data pos s filesz c) as (m2 & f2 & E & _ & _ & Hx2); try done; [lia|unfold PAGE_SIZE in *; lia|].
    unfold fill_page. rewrite E. run_bind. replace (Z.min filesz (s + PAGE_SIZE - c)) with filesz in * by lia. rewrite Z.sub_diag, He, Z.sub_diag. cbn [Z.eqb].
    unfold memset. rewrite (memset_loop_faults _ m2 (s + PAGE_SIZE) (u8 0) (u64 0) (y - (s + PAGE_SIZE))); [done|done|change (if u64 0 =? 0 then 2 ^ 64 else u64 0) with (2 ^ 64); unfold PAGE_SIZE in *; lia|].
    rewrite Hx2. replace (s + PAGE_SIZE + (y - (s + PAGE_SIZE))) with y by lia. case_if; [zbool; lia|done].
  - destruct (fill_page_ok m1 f fd data pos s filesz c) as (m2 & f2 & E & Hf2 & Hx2); try done; [lia|unfold PAGE_SIZE in *; lia|by right|].
    set (k := Z.min filesz (s + PAGE_SIZE - c)) in *. rewrite E. run_bind.
    assert (Hx : forall x, m2 !! x = seg_byte data pos c k s (s + PAGE_SIZE) m x).
    { intros x. rewrite Hx2, Hmap. unfold seg_byte. repeat case_if; zbool; (done || lia). }
    assert (k < filesz).
    { destruct (decide (k = filesz)) as [Ek|]; [|lia]. exfalso. apply Z.mod_divide in Hal as [j Hj]; [|done]. apply Z.mod_divide in Hs0 as [i Hi]; [|done].
      unfold k in Ek. clearbody k. unfold PAGE_SIZE in *. lia. }
    apply (IH m2 f2 fd data (pos + k) (s + PAGE_SIZE) (filesz - k) (s + PAGE_SIZE) y); try (unfold PAGE_SIZE in *; lia); try done.
    + apply (whole_grow m m2 s 1 Hw Hs0); [lia|]. intros x. rewrite Hx, Z.mul_1_l. apply seg_byte_dom; lia.
    + rewrite <- Z.add_mod_idemp_l by done. by rewrite Hs0.
    + by replace (s + PAGE_SIZE + (filesz - k)) with (c + filesz) by lia.
    + rewrite Hx. unfold seg_byte. repeat case_if; zbool; (done || lia).
Qed.

Lemma segment_pages v size : 0 <= v -> 0 <= size -> v + size <= 2 ^ 47 ->
  let lo := PAGE_LOWER_ALIGN v in let hi := PAGE_UPPER_ALIGN (u64 (v + size)) in
  0 <= lo /\ lo mod PAGE_SIZE = 0 /\ lo <= v < lo + PAGE_SIZE /\ v + size <= hi <= 2 ^ 47 /\
  lo + Z.of_nat (Z.to_nat (u64 (hi - lo) / PAGE_SIZE)) * PAGE_SIZE = hi.
Proof.
  intros Hv Hz Hh lo hi. pose proof (upper_align_ok (v + size) ltac:(lia)) as [Hu Hm]. unfold hi. rewrite (u64_small (v + size)) by lia.
  assert (El : lo = v / PAGE_SIZE * PAGE_SIZE) by (unfold lo, PAGE_LOWER_ALIGN, lower_div; apply u64_small; unfold PAGE_SIZE; pose proof (Z.div_mod v 4096); pose proof (Z.mod_pos_bound v 4096); lia).
  pose proof (Z.div_mod v PAGE_SIZE ltac:(done)). pose proof (Z.mod_pos_bound v PAGE_SIZE ltac:(done)). pose proof (Z.div_pos v PAGE_SIZE Hv ltac:(done)).
  set (h := PAGE_UPPER_ALIGN (v + size)) in *. apply Z.mod_divide in Hm as [j Hj]; [|done]. rewrite u64_small by (unfold PAGE_SIZE in *; lia).
  replace (h - lo) with ((j - v / PAGE_SIZE) * PAGE_SIZE) by lia. rewrite Z.div_mul by done. rewrite El, Z.mod_mul by done. unfold PAGE_SIZE in *. lia.
Qed.

Lemma load_segment_ok m f fd data pos ph :
  whole_pages m -> file_at f fd data pos -> 0 <= p_vaddr ph -> 0 <= p_filesz ph <= p_memsz ph -> p_vaddr ph + p_memsz ph <= 2 ^ 47 ->
  0 <= p_offset ph -> p_offset ph + p_filesz ph <= len data ->
  let lo := PAGE_LOWER_ALIGN (p_vaddr ph) in let hi := PAGE_UPPER_ALIGN (u64 (p_vaddr ph + p_memsz ph)) in
  p_filesz ph = 0 \/ (p_vaddr ph + p_filesz ph) mod PAGE_SIZE <> 0 ->
  exists m' f', load_segment m f fd ph = Some (m', f') /\ file_at f' fd data (p_offset ph + p_filesz ph) /\
    forall x, m' !! x = seg_byte data (p_offset ph) (p_vaddr ph) (p_filesz ph) lo hi m x.
Proof.
  intros Hw Hf Hv Hz Hh Ho Hd lo hi Hal. destruct (segment_pages (p_vaddr ph) (p_memsz ph) Hv ltac:(lia) Hh) as (L0 & L1 & L2 & L3 & L4). fold lo hi in L0, L1, L2, L3, L4.
  unfold load_segment. fold lo hi. destruct (lseek_law f fd data pos (p_offset ph) Hf) as (f1 & El & Hf1); [lia|]. unfold lseek_exec. rewrite El. cbv beta iota zeta.
  destruct (load_pages_ok (Z.to_nat (u64 (hi - lo) / PAGE_SIZE)) m f1 fd data (p_offset ph) lo (p_filesz ph) (p_vaddr ph)) as (m' & f' & E & Hf' & Hx); try done; try lia.
  exists m', f'. rewrite L4 in Hx. done.
Qed.

(** C10: a segment of a program is loaded where its header says.  The bytes of the file
    from [p_offset] on are at [p_vaddr], zeros follow them up to the end of the last page,
    also where pages were mapped before, and what precedes the segment in its first page
    and all other memory is kept; the file is at the end of the part.  This holds unless
    the part ends exactly at the end of a page: then [memset] is called for 0 bytes,
    which it takes for 2^64, and the kernel faults. *)
Theorem exec_loads_segment m f fd data pos ph :
  whole_pages m -> file_at f fd data pos -> 0 <= p_vaddr ph -> 0 <= p_filesz ph <= p_memsz ph -> p_vaddr ph + p_memsz ph <= 2 ^ 47 ->
  0 <= p_offset ph -> p_offset ph + p_filesz ph <= len data ->
  let lo := PAGE_LOWER_ALIGN (p_vaddr ph) in let hi := PAGE_UPPER_ALIGN (u64 (p_vaddr ph + p_memsz ph)) in
  (p_filesz ph = 0 \/ (p_vaddr ph + p_filesz ph) mod PAGE_SIZE <> 0 ->
    exists m' f', load_segment m f fd ph = Some (m', f') /\ file_at f' fd data (p_offset ph + p_filesz ph) /\
      forall x, m' !! x = seg_byte data (p_offset ph) (p_vaddr ph) (p_filesz ph) lo hi m x) /\
  (0 < p_filesz ph -> (p_vaddr ph + p_filesz ph) mod PAGE_SIZE = 0 -> (exists y, hi <= y < 2 ^ 64 /\ m !! y = None) -> load_segment m f fd ph = None).
Proof.
  intros Hw Hf Hv Hz Hh Ho Hd lo hi. split; [by apply load_segment_ok with pos|].
  destruct (segment_pages (p_vaddr ph) (p_memsz ph) Hv ltac:(lia) Hh) as (L0 & L1 & L2 & L3 & L4). fold lo hi in L0, L1, L2, L3, L4.
  unfold load_segment. fold lo hi. destruct (lseek_law f fd data pos (p_offset ph) Hf) as (f1 & El & Hf1); [lia|]. unfold lseek_exec. rewrite El. cbv beta iota zeta.
  intros Hpos Hal (y & Hy & Hm). apply (load_pages_fault _ m f1 fd data (p_offset ph) lo (p_filesz ph) (p_vaddr ph) y); try done; lia.
Qed.
End Segments.

(** ** [do_execve] *)

(** The last page of a segment below the stack is below it. *)
Lemma segment_end e : 0 <= e <= stack_start -> PAGE_UPPER_ALIGN (u64 e) <= stack_start.
Proof.
  intros He. assert (stack_start < 2 ^ 47) by done. rewrite u64_small by lia. unfold PAGE_UPPER_ALIGN. pose proof (upper_div_spec e PAGE_SIZE ltac:(done) ltac:(lia)) as Hu.
  rewrite u64_small by (unfold PAGE_SIZE in *; lia). change stack_start with (0x7fffffffd * PAGE_SIZE) in *. unfold PAGE_SIZE in *. lia.
Qed.

(** Memory that only grew has the vectors it had. *)
Lemma ld64_grow (m m' : mem) a v : (forall x w, m !! x = Some w -> m' !! x = Some w) -> ld64 m a = Some v -> ld64 m' a = Some v.
Proof.
  intros Hs E. rewrite <- E. apply ld64_ext. intros x Hx. destruct (ld64_mapped m a v E x Hx) as [w Hw]. by rewrite Hw, (Hs x w).
Qed.

Lemma args_at_grow (m m' : mem) a ps ls : (forall x w, m !! x = Some w -> m' !! x = Some w) -> args_at m a ps ls -> args_at m' a ps ls.
Proof.
  intros Hs (Hp & Hz & Hl). split; [|split; [by apply (ld64_grow m)|]].
  - clear Hz Hl. revert a Hp. induction ps as [|p ps IH]; intros a Hp; [done|]. destruct Hp as (H1 & H2 & H3). split; [by apply (ld64_grow m)|]. split; [done|by apply IH].
  - eapply Forall2_impl; [exact Hl|]. intros p l. revert p. induction l as [|c l IH]; intros p; cbn [cstr]; [by apply Hs|]. intros (H1 & H2 & H3). split; [by apply Hs|]. split; [done|by apply IH].
Qed.

(** *** What the bytes of a file say *)

(** The magic number and the class, the type and the machine. *)
Definition is_program (data : list Z) : Prop := slice 0 5 data = [0x7f; 0x45; 0x4c; 0x46; 2] /\ le 2 16 data = 2 /\ le 2 18 data = 62.

Definition file_entry (data : list Z) : Z := le 8 24 data.
Definition file_phoff (data : list Z) : Z := le 8 32 data.
Definition file_phnum (data : list Z) : Z := le 2 56 data.

(** The program headers, of 56 bytes each, and the ones that are loaded. *)
Definition file_phdr (data : list Z) (i : Z) : Elf64_Phdr :=
  let o := file_phoff data + 56 * i in
  mk_phdr (le 4 o data) (le 4 (o + 4) data) (le 8 (o + 8) data) (le 8 (o + 16) data) (le 8 (o + 32) data) (le 8 (o + 40) data).
Definition file_phdrs (data : list Z) : list Elf64_Phdr := file_phdr data <$> seqZ 0 (file_phnum data).
Definition loads (phs : list Elf64_Phdr) : list Elf64_Phdr := filter (fun ph => p_type ph = 1) phs.
Definition file_segs (data : list Z) : list Elf64_Phdr := loads (file_phdrs data).

Definition pseg_of (ph : Elf64_Phdr) : pseg := mk_pseg (p_flags ph) (p_vaddr ph) (p_vaddr ph + p_memsz ph).

(** A segment in the file and in the user half below the stack; its part of the file does
    not end with a page. *)
Definition seg_fits (data : list Z) (ph : Elf64_Phdr) : Prop :=
  p_filesz ph <= p_memsz ph /\ p_vaddr ph + p_memsz ph <= USER_STACK_END - 2 * PAGE_SIZE /\ p_offset ph + p_filesz ph <= len data /\
  (p_filesz ph = 0 \/ (p_vaddr ph + p_filesz ph) mod PAGE_SIZE <> 0).

Record program_ok (data : list Z) : Prop := {
  po_bytes : Forall (fun b => 0 <= b < 256) data;
  po_table : 0 < file_phnum data /\ file_phoff data + 56 * file_phnum data <= len data;
  po_segs : Forall (seg_fits data) (file_segs data);
  po_max : (length (file_segs data) <= 8)%nat }.

(** The pages of a segment, and the byte that belongs at an address of it. *)
Definition in_pages (ph : Elf64_Phdr) (x : Z) : Prop := PAGE_LOWER_ALIGN (p_vaddr ph) <= x < PAGE_UPPER_ALIGN (p_vaddr ph + p_memsz ph).
Definition file_byte (data : list Z) (ph : Elf64_Phdr) (x : Z) : option Z :=
  if x <? p_vaddr ph + p_filesz ph then data !! Z.to_nat (p_offset ph + (x - p_vaddr ph)) else Some 0.

(** The program headers in the order of the table: the last one that covers a byte has it. *)
Definition loaded (data : list Z) (segs : list Elf64_Phdr) (m : mem) : Prop :=
  forall l1 ph l2 x, segs = l1 ++ ph :: l2 -> p_vaddr ph <= x -> in_pages ph x -> Forall (fun q => ~ in_pages q x) l2 -> m !! x = file_byte data ph x.

Lemma phdr_bounds data i : Forall (fun b => 0 <= b < 256) data -> 0 <= p_offset (file_phdr data i) /\ 0 <= p_vaddr (file_phdr data i) /\ 0 <= p_filesz (file_phdr data i).
Proof. intros Hb. unfold file_phdr. cbn [p_offset p_vaddr p_filesz]. split; [|split]; apply le_bounds; (done || lia). Qed.

Lemma segs_bounds data : Forall (fun b => 0 <= b < 256) data -> Forall (fun ph => 0 <= p_vaddr ph /\ 0 <= p_memsz ph) (file_segs data).
Proof.
  intros Hb. apply Forall_forall. intros ph [_ Hin]%list_elem_of_filter. unfold file_phdrs in Hin. apply list_elem_of_fmap in Hin as (i & -> & _).
  unfold file_phdr. cbn [p_vaddr p_memsz]. split; apply le_bounds; (done || lia).
Qed.

Section Execve.
Context {F : Type} `{!FileServer F, !FileServerLaws F}.

Lemma load_segments_ok fd data table phs : forall m (f : F) pos i segs,
  (forall k ph, phs !! k = Some ph -> phdr_of table (i + Z.of_nat k) = Some ph) ->
  Forall (fun ph => 0 <= p_offset ph /\ 0 <= p_vaddr ph /\ 0 <= p_filesz ph) phs -> Forall (seg_fits data) (loads phs) ->
  (length segs + length (loads phs) <= 8)%nat -> whole_pages m -> file_at f fd data pos ->
  exists m' f', load_segments (length phs) m f fd table i segs = Some (segs ++ (pseg_of <$> loads phs), m', f') /\
    (forall x, Forall (fun q => ~ in_pages q x) (loads phs) -> m' !! x = m !! x) /\ loaded data (loads phs) m'.
Proof.
  induction phs as [|ph phs IH]; intros m f pos i segs Ht Hb Hfit H8 Hw Hf; cbn [length load_segments].
  { exists m, f. cbn. rewrite app_nil_r. split; [done|]. split; [done|]. intros l1 q l2 x E. by destruct l1. }
  pose proof (Ht 0%nat ph eq_refl) as Hph. rewrite Z.add_0_r in Hph. rewrite Hph. some_bind. apply Forall_cons in Hb as [(B1 & B2 & B3) Hb].
  assert (Ht' : forall k q, phs !! k = Some q -> phdr_of table (i + 1 + Z.of_nat k) = Some q).
  { intros k q Hk. replace (i + 1 + Z.of_nat k) with (i + Z.of_nat (S k)) by lia. by apply Ht. }
  unfold loads in *. rewrite filter_cons in *. fold (loads phs) in *. unfold PT_LOAD. destruct (decide (p_type ph = 1)) as [Ep|Ep].
  2: { rewrite (proj2 (Z.eqb_neq _ _) Ep). cbn [negb]. by apply (IH m f pos). }
  rewrite (proj2 (Z.eqb_eq _ _) Ep). cbn [negb]. apply Forall_cons in Hfit as [(F1 & F2 & F3 & F4) Hfit]. cbn [length] in H8. unfold PROC_MM_SEG_SIZE. rewrite (proj2 (Z.ltb_lt _ _)) by lia.
  fold stack_start in F2. assert (H47 : stack_start < 2 ^ 47) by done. rewrite (u64_small (p_vaddr ph + p_memsz ph)) by lia.
  destruct (load_segment_ok m f fd data pos ph Hw Hf) as (m1 & f1 & -> & Hf1 & Hx); try done; try lia. some_bind. cbn [fst snd].
  destruct (segment_pages (p_vaddr ph) (p_memsz ph) B2 ltac:(lia) ltac:(lia)) as (L0 & L1 & L2 & L3 & L4). rewrite (u64_small (p_vaddr ph + p_memsz ph)) in L3, L4, Hx by lia.
  set (lo := PAGE_LOWER_ALIGN (p_vaddr ph)) in *. set (hi := PAGE_UPPER_ALIGN (p_vaddr ph + p_memsz ph)) in *.
  destruct (IH m1 f1 (p_offset ph + p_filesz ph) (i + 1) (segs ++ [pseg_of ph])) as (m' & f' & E & Hk & Hl); try done.
  { rewrite length_app. cbn. lia. }
  { apply (whole_grow m m1 lo (Z.of_nat (Z.to_nat (u64 (hi - lo) / PAGE_SIZE))) Hw L1); [lia|]. intros x. rewrite Hx, L4. apply seg_byte_dom; lia. }
  assert (Hout : forall x, ~ in_pages ph x -> m1 !! x = m !! x).
  { intros x Hn. rewrite Hx. unfold in_pages in Hn. fold lo hi in Hn. unfold seg_byte. repeat case_if; zbool; (done || lia). }
  assert (Hin : forall x, p_vaddr ph <= x -> in_pages ph x -> m1 !! x = file_byte data ph x).
  { intros x Hv Hp. unfold in_pages in Hp. fold lo hi in Hp. rewrite Hx. unfold seg_byte, file_byte. rewrite (proj2 (Z.leb_le _ x)) by lia. cbn [andb].
    destruct (x <? p_vaddr ph + p_filesz ph) eqn:E1; [done|]. zbool. rewrite (proj2 (Z.leb_le _ x)), (proj2 (Z.ltb_lt x hi)) by lia. done. }
  exists m', f'. split; [fold (pseg_of ph); rewrite E, <- app_assoc; done|]. split.
  - intros x [Hn Hns]%Forall_cons. rewrite Hk by done. by apply Hout.
  - intros l1 q l2 x El Hv Hp Hl2. destruct l1 as [|q1 l1]; cbn [app] in El; injection El as <- El.
    + subst l2. rewrite Hk by done. by apply Hin.
    + by apply (Hl l1 q l2).
Qed.

Lemma header_read data : 64 <= len data ->
  ehdr_of (slice 0 64 data) = Some (mk_ehdr (slice 0 16 data) (le 2 16 data) (le 2 18 data) (file_entry data) (file_phoff data) (file_phnum data)).
Proof.
  intros Hl. assert (El : Z.of_nat (length (slice 0 64 data)) = 64) by (rewrite slice_length; unfold len in *; lia).
  unfold ehdr_of, field. rewrite El. cbn [Z.leb Z.compare Z.add Pos.add Pos.succ Pos.compare Pos.compare_cont]. some_bind. rewrite !le_slice, slice_slice by lia. done.
Qed.

Lemma verify_program data t p : 64 <= len data ->
  verify_ehdr (mk_ehdr (slice 0 16 data) (le 2 16 data) (le 2 18 data) (file_entry data) t p) = true <-> is_program data.
Proof.
  intros Hl. unfold is_program, verify_ehdr, ident, ET_EXEC, EM_X86_64, EI_CLASS, ELFCLASS64, ELFMAG0, ELFMAG1, ELFMAG2, ELFMAG3. cbn [e_ident e_type e_machine].
  unfold len in Hl. destruct data as [|b0 [|b1 [|b2 [|b3 [|b4 data]]]]]; [cbn [length] in Hl; lia..|].
  generalize (le 2 16 (b0 :: b1 :: b2 :: b3 :: b4 :: data)) as ty, (le 2 18 (b0 :: b1 :: b2 :: b3 :: b4 :: data)) as ma. intros ty ma.
  change (slice 0 5 (b0 :: b1 :: b2 :: b3 :: b4 :: data)) with [b0; b1; b2; b3; b4]. change (slice 0 16 (b0 :: b1 :: b2 :: b3 :: b4 :: data)) with (b0 :: b1 :: b2 :: b3 :: b4 :: take 11 data).
  set (l := b0 :: b1 :: b2 :: b3 :: b4 :: take 11 data). change (default 0 (l !! Z.to_nat 0)) with b0. change (default 0 (l !! Z.to_nat 1)) with b1. change (default 0 (l !! Z.to_nat 2)) with b2.
  change (default 0 (l !! Z.to_nat 3)) with b3. change (default 0 (l !! Z.to_nat 4)) with b4. clear.
  destruct (b0 =? 0x7f) eqn:E0, (b1 =? 0x45) eqn:E1, (b2 =? 0x4c) eqn:E2, (b3 =? 0x46) eqn:E3, (b4 =? 2) eqn:E4, (ty =? 2) eqn:E5, (ma =? 62) eqn:E6; cbn [negb orb]; zbool; subst;
    (split; [intros H; try discriminate H; by repeat split|intros (H1 & H2 & H3); simplify_eq; try done; congruence]).
Qed.

Lemma table_read data k ph : program_ok data -> file_phdrs data !! k = Some ph ->
  phdr_of (slice (file_phoff data) (file_phnum data * sizeof_phdr) data) (0 + Z.of_nat k) = Some ph.
Proof.
  intros [Hb [Hn Ht] _ _] Hk. unfold file_phdrs in Hk. apply list_lookup_fmap_Some in Hk as (i & -> & Hi). apply lookup_seqZ in Hi as [-> Hi].
  pose proof (le_bounds 8 32 data Hb ltac:(lia)) as [Hp _]. fold (file_phoff data) in Hp. unfold sizeof_phdr.
  assert (El : Z.of_nat (length (slice (file_phoff data) (file_phnum data * 56) data)) = file_phnum data * 56) by (rewrite slice_length; unfold len in *; lia).
  unfold phdr_of, field, sizeof_phdr. rewrite El. rewrite !(proj2 (Z.leb_le _ _)) by lia. some_bind. rewrite !le_slice by lia. unfold file_phdr. rewrite !Z.add_0_l, ?Z.add_assoc. done.
Qed.

(** The user half after [move_args] is the stack, which is whole pages. *)
Lemma stack_whole (m : mem) : (forall x, x < 2 ^ 47 -> is_Some (m !! x) <-> stack_start <= x < USER_STACK_END) -> whole_pages m.
Proof.
  intros Hdom x y Hx Hxy Hnone. apply eq_None_not_Some. intros Hy. destruct (page_start_of x) as (_ & Rx & Mx). destruct (page_start_of y) as (_ & Ry & _). rewrite Hxy in *.
  apply Z.mod_divide in Mx as [j Ej]; [|done]. assert (H47 : y < 2 ^ 47) by (change (2 ^ 47) with (2 ^ 35 * PAGE_SIZE) in *; unfold PAGE_SIZE in *; lia).
  apply Hdom in Hy; [|done]. assert (is_Some (m !! x)) as [v Hv]; [|congruence]. apply Hdom; [done|].
  change stack_start with (0x7fffffffd * PAGE_SIZE) in *. change USER_STACK_END with (0x7ffffffff * PAGE_SIZE) in *. unfold PAGE_SIZE in *. lia.
Qed.

(** C22: [execve] fails early or not at all.  It returns -1 if the file server refuses to
    open the file or does not give 64 bytes, if these are not the header of a
    64-bit x86 ELF program, or if the arguments do not fit into a page, and then no byte outside
    that page has changed.  Otherwise, for a file whose program headers and segments lie in it and
    below the stack (at most eight segments, none whose part of the file ends with a
    page), it always runs the program: at the entry of the header, with the page table of the old one, an empty
    heap, a stack of two pages with the arguments, exactly the segments of the
    program headers of the file, whose bytes are those of the file, zeros after them, and
    nothing else of the user half mapped. *)
Theorem execve_fails_early m (f : F) space pathname argv envp argsbuf pa pe A E :
  exec_pre m argv envp pa pe A E argsbuf ->
  let run := do_execve m f space pathname argv envp argsbuf in
  let '(fd, f1) := open_exec pathname f in
  (fd < 0 -> run = Some (ExecFail m f1)) /\
  (0 <= fd -> let '(n, _, f2) := read_exec fd 64 f1 in n <> 64 -> run = Some (ExecFail m f2)) /\
  (0 <= fd -> forall data, file_at f1 fd data 0 -> 64 <= len data ->
    (~ is_program data -> exists f', run = Some (ExecFail m f')) /\
    (is_program data -> PAGE_SIZE < needed pa pe A E ->
      exists m' f', run = Some (ExecFail m' f') /\ forall x, ~ argsbuf <= x < argsbuf + PAGE_SIZE -> m' !! x = m !! x) /\
    (is_program data -> needed pa pe A E <= PAGE_SIZE -> program_ok data ->
      exists sp m' f', run = Some (ExecRun (file_entry data) sp
          (mk_mm (mm_flags space) (pgd space) (pseg_of <$> file_segs data) USER_BRK_START USER_BRK_START (USER_STACK_END - 2 * PAGE_SIZE) USER_STACK_END) m' f') /\
        USER_STACK_END - 2 * PAGE_SIZE <= sp < USER_STACK_END /\ sp mod 8 = 0 /\
        (exists a e pa' pe', ld64 m' sp = Some (Z.of_nat (length A)) /\ ld64 m' (sp + 8) = Some a /\ ld64 m' (sp + 16) = Some e /\ args_at m' a pa' A /\ args_at m' e pe' E) /\
        loaded data (file_segs data) m' /\
        (forall x, x < USER_STACK_END - 2 * PAGE_SIZE -> Forall (fun ph => ~ in_pages ph x) (file_segs data) -> m' !! x = None))).
Proof.
  intros Hpre run. unfold run, do_execve. clear run. destruct (open_exec pathname f) as [fd f1]. split; [|split].
  - intros Hfd. by rewrite (proj2 (Z.ltb_lt fd 0) Hfd).
  - intros Hfd. rewrite (proj2 (Z.ltb_ge fd 0) Hfd). unfold sizeof_ehdr. destruct (read_exec fd 64 f1) as [[n d] f2]. intros Hn. by rewrite (proj2 (Z.eqb_neq n 64) Hn).
  - intros Hfd data Hf Hl. rewrite (proj2 (Z.ltb_ge fd 0) Hfd). destruct (read_law f1 fd data 0 64 Hf) as (f2 & Er & Hf2); [lia..|]. unfold sizeof_ehdr.
    assert (Er' : read_exec fd 64 f1 = (64, slice 0 64 data, f2)) by (unfold read_exec; by rewrite Er). rewrite Er'. cbn [Z.eqb Pos.eqb negb].
    rewrite header_read by done. some_bind. pose proof (verify_program data (file_phoff data) (file_phnum data) Hl) as Hv. set (h := mk_ehdr _ _ _ _ _ _) in *.
    destruct (exec_args_moved m argv envp pa pe A E argsbuf Hpre) as (ok & start & sp & m1 & Em & Hok & Hfail & Hgo). split; [|split].
    + intros Hn. assert (Ev : verify_ehdr h = false) by (apply not_true_iff_false; by rewrite Hv). rewrite Ev. by exists f2.
    + intros Hp Hbig. rewrite (proj2 Hv Hp). cbn [negb]. rewrite Em. run_bind. destruct ok; [exfalso; pose proof (proj1 Hok eq_refl); lia|]. exists m1, f2. split; [done|]. by apply Hfail.
    + intros Hp Hfit Hpo. rewrite (proj2 Hv Hp). cbn [negb]. rewrite Em. run_bind. assert (ok = true) as -> by (by apply Hok). cbn [negb].
      destruct (Hgo eq_refl) as (-> & Hsp & Hal & (a & e & pa' & pe' & W0 & W1 & W2 & Va & Ve) & Hdom & _). pose proof Hpo as [Hb [Hn Ht] Hs H8]. cbn [h e_phoff e_phnum e_entry].
      pose proof (le_bounds 8 32 data Hb ltac:(lia)) as [Hpo0 _]. fold (file_phoff data) in Hpo0.
      destruct (lseek_law f2 fd data (0 + 64) (file_phoff data) Hf2) as (f3 & El & Hf3); [lia|]. unfold lseek_exec. rewrite El. cbv beta iota zeta.
      destruct (read_law f3 fd data (file_phoff data) (file_phnum data * sizeof_phdr) Hf3) as (f4 & Et & Hf4); [lia|unfold sizeof_phdr; lia|unfold sizeof_phdr; lia|].
      unfold read_exec. rewrite Et. cbv beta iota zeta. assert (Elen : Z.to_nat (file_phnum data) = length (file_phdrs data)) by (unfold file_phdrs; rewrite length_fmap, length_seqZ; done). rewrite Elen.
      destruct (load_segments_ok fd data (slice (file_phoff data) (file_phnum data * sizeof_phdr) data) (file_phdrs data) m1 f4 (file_phoff data + file_phnum data * sizeof_phdr) 0 [])
        as (m' & f' & Els & Hk & Hld); try done.
      { intros k ph. by apply table_read. }
      { apply Forall_fmap, Forall_forall. intros i _. by apply phdr_bounds. }
      { apply stack_whole. intros x Hx. by apply Hdom. }
      rewrite Els. run_bind. fold (file_segs data) in *. exists sp, m', f'. split; [done|]. split; [done|]. split; [done|].
      assert (Hhi : forall x, ~ x < stack_start -> Forall (fun q => ~ in_pages q x) (file_segs data)).
      { intros x Hx. eapply Forall_impl; [apply Forall_and; exact (conj Hs (segs_bounds data Hb))|]. intros ph [(F1 & F2 & F3 & F4) Hv0] [_ Hp2]. fold stack_start in F2.
        pose proof (segment_end (p_vaddr ph + p_memsz ph) ltac:(lia)) as He. rewrite u64_small in He by (assert (stack_start < 2 ^ 47) by done; lia). lia. }
      assert (Hgrow : forall x w, m1 !! x = Some w -> m' !! x = Some w).
      { intros x w Hw. rewrite Hk; [done|]. apply Hhi. intros Hlt. assert (is_Some (m1 !! x)) as Hsome by (by exists w). apply Hdom in Hsome; [unfold stack_start in *; lia|]. assert (stack_start < 2 ^ 47) by done. lia. }
      split; [exists a, e, pa', pe'; do 3 (split; [by apply (ld64_grow m1)|]); split; by apply (args_at_grow m1)|]. split; [done|].
      intros x Hx Hno. rewrite Hk by done. apply eq_None_not_Some. intros Hsome. assert (x < 2 ^ 47) by (unfold USER_STACK_END, PAGE_SIZE in Hx; lia). apply Hdom in Hsome; [lia|done].
Qed.
End Execve.

(** ** Witness: a file in memory *)

(** The one file, open as descriptor 3: its bytes and its position. *)
#[local] Instance ram_file : FileServer (list Z * Z) := {
  srv_open _ f := (0, 3, f);
  srv_read _ n f := let l := slice f.2 n f.1 in (0, len l, l, (f.1, f.2 + len l));
  srv_lseek _ off _ f := (0, off, (f.1, off)) }.

Lemma ram_read (data : list Z) pos n : 0 <= pos -> 0 < n -> pos + n <= len data -> len (slice pos n data) = n.
Proof. intros. unfold len in *. rewrite slice_length by lia. lia. Qed.

#[local] Instance ram_file_laws : FileServerLaws (list Z * Z).
Proof.
  refine {| file_at (f : list Z * Z) (_ : Z) data pos := f = (data, pos) |}.
  - intros f fd data pos off -> _. by eexists.
  - intros f fd data pos n -> Hp Hn Hl. cbn. rewrite ram_read by done. by eexists.
Defined.

Lemma exec_loads_segment_witness :
  (exists m' f', load_segment ∅ ([9; 7; 8], 0) 3 (mk_phdr PT_LOAD 5 1 0x400001 2 4) = Some (m', f') /\
    m' !! 0x400001 = Some 7 /\ m' !! 0x400002 = Some 8 /\ m' !! 0x400003 = Some 0 /\ m' !! 0x401000 = None) /\
  load_segment ∅ ([9; 7; 8], 0) 3 (mk_phdr PT_LOAD 5 1 0x400ffe 2 4) = None.
Proof.
  assert (Hw : whole_pages ∅) by (intros x y _ _ _; apply lookup_empty). assert (Hf : file_at ([9; 7; 8], 0) 3 [9; 7; 8] 0) by reflexivity. split.
  - destruct (proj1 (exec_loads_segment ∅ ([9; 7; 8], 0) 3 [9; 7; 8] 0 (mk_phdr PT_LOAD 5 1 0x400001 2 4) Hw Hf ltac:(done) ltac:(done) ltac:(done) ltac:(done) ltac:(done))) as
      (m' & f' & E & _ & Hx); [right; by vm_compute|]. exists m', f'. split; [exact E|]. clear E. rewrite !Hx. repeat split; vm_compute; reflexivity.
  - apply (proj2 (exec_loads_segment ∅ ([9; 7; 8], 0) 3 [9; 7; 8] 0 (mk_phdr PT_LOAD 5 1 0x400ffe 2 4) Hw Hf ltac:(done) ltac:(done) ltac:(done) ltac:(done) ltac:(done))); [done|done|].
    exists (2 ^ 47). split; [by vm_compute|]. apply lookup_empty.
Defined.

(** A program with one segment of two bytes. *)
Definition program : list Z :=
  [0x7f; 0x45; 0x4c; 0x46; 2] ++ replicate 11 0 ++ enc 2 ET_EXEC ++ enc 2 EM_X86_64 ++ enc 4 1 ++ enc 8 0x400000 ++ enc 8 64 ++ enc 8 0 ++ enc 4 0 ++
  enc 2 64 ++ enc 2 56 ++ enc 2 1 ++ replicate 6 0 ++
  enc 4 PT_LOAD ++ enc 4 5 ++ enc 8 120 ++ enc 8 0x400000 ++ enc 8 0 ++ enc 8 2 ++ enc 8 4 ++ enc 8 PAGE_SIZE ++ [7; 8].

Definition old_space : proc_mm := mk_mm 0 (2 ^ 48) [] 0 0 0 0.

Lemma program_fits : program_ok program /\ is_program program.
Proof.
  split; [|split; [reflexivity|split; reflexivity]]. split.
  - apply (bool_decide_unpack _). vm_compute. exact I.
  - vm_compute. split; [reflexivity|discriminate].
  - assert (E : file_segs program = [mk_phdr 1 5 120 0x400000 2 4]) by (vm_compute; reflexivity). rewrite E. constructor; [|constructor].
    unfold seg_fits. cbn [p_filesz p_memsz p_vaddr p_offset]. split; [lia|]. split; [vm_compute; discriminate|]. split; [vm_compute; discriminate|]. right. vm_compute. discriminate.
  - apply Nat.leb_le. vm_compute. reflexivity.
Qed.

Lemma execve_fails_early_witness :
  (exists f', do_execve caller (replicate 64 0, 0) old_space [0x61] 0x1000 NULL (2 ^ 47) = Some (ExecFail caller f')) /\
  (exists sp space' m' f', do_execve caller (program, 0) old_space [0x61] 0x1000 NULL (2 ^ 47) = Some (ExecRun 0x400000 sp space' m' f') /\
    psegs space' = [mk_pseg 5 0x400000 0x400004] /\ m' !! 0x400001 = Some 8).
Proof.
  split.
  - destruct (execve_fails_early caller (replicate 64 0, 0) old_space [0x61] 0x1000 NULL (2 ^ 47) _ _ _ _ caller_pre) as (_ & _ & H).
    apply (H ltac:(vm_compute; discriminate) (replicate 64 0) eq_refl ltac:(vm_compute; discriminate)). intros [H1 _]. vm_compute in H1. discriminate.
  - destruct (execve_fails_early caller (program, 0) old_space [0x61] 0x1000 NULL (2 ^ 47) _ _ _ _ caller_pre) as (_ & _ & H). destruct program_fits as [Hok Hp].
    destruct (H ltac:(vm_compute; discriminate) program eq_refl ltac:(vm_compute; discriminate)) as (_ & _ & Hrun).
    destruct (Hrun Hp ltac:(vm_compute; discriminate) Hok) as (sp & m' & f' & E & _ & _ & _ & Hl & _). eexists sp, _, m', f'. split; [exact E|]. split; [vm_compute; reflexivity|].
    assert (Es : file_segs program = [mk_phdr 1 5 120 0x400000 2 4]) by (vm_compute; reflexivity). rewrite Es in Hl.
    rewrite (Hl [] (mk_phdr 1 5 120 0x400000 2 4) [] 0x400001 eq_refl ltac:(cbn; lia) ltac:(vm_compute; split; [discriminate|reflexivity]) ltac:(constructor)). vm_compute. reflexivity.
Defined.
