(* ===== verification/Modules.v ===== *)
(** * The first processes: [module_proc] and [proc_init] of [core/sched.c]

    The boot loader leaves the servers as ELF files in memory.  [module_proc] builds an
    address space for one of them.  While the page table of the new process is loaded the
    user half of memory is the new one and the kernel half is shared, so memory is one map
    as in [Exec], with an empty user half at the start.  The pages of the process and of
    its root table are there; [mm] of the result has the address of the latter. *)

From S2P Require Import Prelude Bytes Vsprintf CString Words Sched Fork ForkProofs UserMem Exec ExecProofs.

#[local] Notation "'mem'" := (gmap Z Z).

Definition phdr_at (m : mem) (table i : Z) : option Elf64_Phdr := l ← load_bytes (Z.to_nat sizeof_phdr) m (table + sizeof_phdr * i); phdr_of l 0.

(** [while (page_num--)] *)
Fixpoint map_pages (n : nat) (m : mem) (seg_start : Z) : mem :=
  match n with
  | O => m
  | S n => map_pages n (u_map m seg_start) (u64 (seg_start + PAGE_SIZE))
  end.

Definition map_segment (m : mem) (ph : Elf64_Phdr) : mem :=
  let seg_start := PAGE_LOWER_ALIGN (p_vaddr ph) in
  let seg_end := PAGE_UPPER_ALIGN (u64 (p_vaddr ph + p_memsz ph)) in
  map_pages (Z.to_nat (u64 (seg_end - seg_start) / PAGE_SIZE)) m seg_start.

(** The first loop over the program headers. *)
Fixpoint map_segments (n : nat) (m : mem) (table i : Z) (segs : list pseg) : option (list pseg * mem) :=
  match n with
  | O => Some (segs, m)
  | S n =>
      ph ← phdr_at m table i;
      if negb (p_type ph =? PT_LOAD) then map_segments n m table (i + 1) segs
      else if Z.of_nat (length segs) <? PROC_MM_SEG_SIZE then
        map_segments n (map_segment m ph) table (i + 1) (segs ++ [mk_pseg (p_flags ph) (p_vaddr ph) (u64 (p_vaddr ph + p_memsz ph))])
      else None
  end.

Definition copy_segment (m : mem) (module_start : Z) (ph : Elf64_Phdr) : option mem :=
  m ← memcpy m (p_vaddr ph) (u64 (module_start + p_offset ph)) (p_filesz ph);
  if p_filesz ph <? p_memsz ph then memset m (u64 (p_vaddr ph + p_filesz ph)) 0 (p_memsz ph - p_filesz ph) else Some m.

(** The second one. *)
Fixpoint copy_segments (n : nat) (m : mem) (module_start table i : Z) : option mem :=
  match n with
  | O => Some m
  | S n =>
      ph ← phdr_at m table i;
      if negb (p_type ph =? PT_LOAD) then copy_segments n m module_start table (i + 1)
      else m ← copy_segment m module_start ph; copy_segments n m module_start table (i + 1)
  end.

(** The process, its entry and stack pointer, and the memory as it sees it; nothing if
    the header is refused. *)
Definition module_proc (m : mem) (init pgd module_start argv envp : Z) : option (option (proc_t * Z * Z * mem)) :=
  data ← load_bytes (Z.to_nat sizeof_ehdr) m module_start;
  ehdr ← ehdr_of data;
  if negb (verify_ehdr ehdr) then Some None
  else
    let '(m, start_stack) := map_stack (Z.to_nat (Z.shiftl 1 USER_STACK_ORDER)) (u_clear m) USER_STACK_END in
    r ← setup_args m argv envp USER_STACK_END PAGE_SIZE;
    let '(end_stack, m) := r in
    let table := u64 (module_start + e_phoff ehdr) in
    r ← map_segments (Z.to_nat (e_phnum ehdr)) m table 0 [];
    let '(segs, m) := r in
    m ← copy_segments (Z.to_nat (e_phnum ehdr)) m module_start table 0;
    let space := mk_mm 0 pgd segs USER_BRK_START USER_BRK_START start_stack USER_STACK_END in
    Some (Some (set_state (set_mm (new_proc 0 init) space) PROC_RUNNABLE, e_entry ehdr, end_stack, m)).

(** ** [proc_init] *)

(** The command line of a module is its pid. *)
Definition module_pid (cmd : list Z) : option Z := atoi (write ∅ 0 (cmd ++ [0])) 0.

Definition set_pid (p : proc_t) (v : Z) : proc_t := mk_proc v (sched p) (ipc p) (parent p) (children p) (exit_status p) (mm p).

(** The loop over the modules (address and command line).  [pages] are the addresses of
    the process and of its root table that the allocator returns, [argvs] and [envps] the
    tables of [init_srv_args]; the result has the memory of each process. *)
Fixpoint start_modules (m : mem) (init argvs envps : Z) (mods : list (Z * list Z)) (pages : list (Z * Z)) (t : ptable) : option (ptable * list (Z * Z * mem)) :=
  match mods, pages with
  | [], _ => Some (t, [])
  | (start, cmd) :: mods, (proc, pgd) :: pages =>
      pid ← module_pid cmd;
      argv ← ld64 m (argvs + 8 * pid);
      envp ← ld64 m (envps + 8 * pid);
      r ← module_proc m init pgd (to_vir start) argv envp;
      r ← r;
      let '(p, entry, sp, space) := r in
      let t := set_proc t proc (set_pid p pid) in
      let t := set_head t (proc_head t ++ [proc]) in
      t ← hash_proc t proc;
      r ← start_modules m init argvs envps mods pages t;
      Some (r.1, (entry, sp, space) :: r.2)
  | _ :: _, [] => None
  end.

Definition proc_init (m : mem) (init argvs envps idle : Z) (mods : list (Z * list Z)) (pages : list (Z * Z)) (procs : gmap Z proc_t) : option (ptable * list (Z * Z * mem)) :=
  start_modules m init argvs envps mods pages (mk_ptable procs [] (replicate (Z.to_nat PROC_HASH_MAP_SIZE) []) [idle] 0).

(** ** Segments *)

(** The pages from [s] on. *)
Lemma map_pages_ok n : forall m s, whole_pages m -> 0 <= s -> s mod PAGE_SIZE = 0 -> s + Z.of_nat n * PAGE_SIZE <= 2 ^ 47 ->
  whole_pages (map_pages n m s) /\ forall x, map_pages n m s !! x = if (s <=? x) && (x <? s + Z.of_nat n * PAGE_SIZE) then Some (default 0 (m !! x)) else m !! x.
Proof.
  induction n as [|n IH]; intros m s Hw Hs H0 Hh; cbn [map_pages].
  { split; [done|]. intros x. case_if; [zbool; lia|done]. }
  rewrite Nat2Z.inj_succ, Z.mul_succ_l in *. assert (0 <= Z.of_nat n * PAGE_SIZE) by (unfold PAGE_SIZE; lia). rewrite u64_small by (unfold PAGE_SIZE in *; lia).
  assert (Hmap : forall x, u_map m s !! x = if (s <=? x) && (x <? s + PAGE_SIZE) then Some (default 0 (m !! x)) else m !! x).
  { intros x. apply map_whole; [done|by apply page_aligned|unfold PAGE_SIZE in *; lia]. }
  destruct (IH (u_map m s) (s + PAGE_SIZE)) as [Hw' Hx]; [|unfold PAGE_SIZE; lia|by rewrite <- Z.add_mod_idemp_l, H0 by done|lia|].
  { apply (whole_grow m _ s 1 Hw H0); [lia|]. intros x. rewrite Hmap, Z.mul_1_l. destruct ((s <=? x) && (x <? s + PAGE_SIZE)) eqn:E; zbool; [split; [right; lia|by eexists]|].
    split; [by left|]. intros [?|?]; [done|lia]. }
  split; [done|]. intros x. rewrite Hx, Hmap. destruct ((s <=? x) && (x <? s + PAGE_SIZE)) eqn:E1; destruct ((s + PAGE_SIZE <=? x) && (x <? s + PAGE_SIZE + Z.of_nat n * PAGE_SIZE)) eqn:E2;
    destruct ((s <=? x) && (x <? s + (Z.of_nat n * PAGE_SIZE + PAGE_SIZE))) eqn:E3; zbool; destruct_or?; zbool; unfold PAGE_SIZE in *; try lia; done.
Qed.

(** A segment inside the user half below the stack. *)
Record seg_ok (m : mem) (module_start : Z) (ph : Elf64_Phdr) : Prop := {
  so_addr : 0 <= p_vaddr ph /\ 0 <= p_filesz ph <= p_memsz ph /\ p_vaddr ph + p_memsz ph <= stack_start;
  so_src : 0 <= p_offset ph /\ 2 ^ 47 <= module_start /\ module_start + p_offset ph + p_filesz ph < 2 ^ 64 /\ mapped m (module_start + p_offset ph) (p_filesz ph) }.

Definition in_seg (ph : Elf64_Phdr) (x : Z) : bool := (p_type ph =? PT_LOAD) && ((p_vaddr ph <=? x) && (x <? p_vaddr ph + p_memsz ph)).

(** The byte of the module or the zero that belongs to [x]. *)
Definition seg_content (m : mem) (module_start : Z) (ph : Elf64_Phdr) (x : Z) : option Z :=
  if x <? p_vaddr ph + p_filesz ph then m !! (module_start + p_offset ph + (x - p_vaddr ph)) else Some 0.

(** The segment that was copied last has the byte. *)
Definition image (m : mem) (module_start : Z) (phs : list Elf64_Phdr) (o : option Z) (x : Z) : option Z :=
  foldl (fun o ph => if in_seg ph x then seg_content m module_start ph x else o) o phs.

(** [u] is the memory of the new process at some point of its construction. *)
Definition same_kernel (m u : mem) : Prop := forall x, 2 ^ 47 <= x -> u !! x = m !! x.

Lemma map_segment_ok m u module_start ph : seg_ok m module_start ph -> whole_pages u ->
  whole_pages (map_segment u ph) /\ (forall x, 2 ^ 47 <= x -> map_segment u ph !! x = u !! x) /\ (forall x v, u !! x = Some v -> map_segment u ph !! x = Some v) /\
  (forall x, p_vaddr ph <= x < p_vaddr ph + p_memsz ph -> is_Some (map_segment u ph !! x)) /\ (forall x, stack_start <= x -> map_segment u ph !! x = u !! x).
Proof.
  intros [(H1 & H2 & H3) _] Hw. assert (H47 : stack_start <= 2 ^ 47) by done. destruct (segment_pages (p_vaddr ph) (p_memsz ph) H1 ltac:(lia) ltac:(lia)) as (L0 & L1 & L2 & L3 & L4).
  unfold map_segment. set (lo := PAGE_LOWER_ALIGN (p_vaddr ph)) in *. set (hi := PAGE_UPPER_ALIGN (u64 (p_vaddr ph + p_memsz ph))) in *.
  destruct (map_pages_ok (Z.to_nat (u64 (hi - lo) / PAGE_SIZE)) u lo Hw L0 L1 ltac:(lia)) as [Hw' Hx]. rewrite L4 in Hx.
  assert (Hhi : hi <= stack_start) by (apply segment_end; lia). split; [done|]. split; [|split; [|split]].
  - intros x Hk. rewrite Hx. case_if; [zbool; lia|done].
  - intros x v Hv. rewrite Hx, Hv. by case_if.
  - intros x Hr. rewrite Hx. rewrite (proj2 (Z.leb_le _ _)), (proj2 (Z.ltb_lt _ _)) by lia. by eexists.
  - intros x Hr. rewrite Hx. case_if; [zbool; lia|done].
Qed.

Lemma phdr_at_ext m u table i : 2 ^ 47 <= table -> 0 <= i -> same_kernel m u -> phdr_at u table i = phdr_at m table i.
Proof. intros Ht Hi Hk. unfold phdr_at. rewrite (load_bytes_ext _ m u); [done|]. intros x Hx. apply Hk. unfold sizeof_phdr in *. lia. Qed.

(** The program headers [phs] from number [i] on. *)
Fixpoint headers_at (m : mem) (table i : Z) (phs : list Elf64_Phdr) : Prop :=
  match phs with [] => True | ph :: phs => phdr_at m table i = Some ph /\ headers_at m table (i + 1) phs end.

Definition seg_list (phs : list Elf64_Phdr) : list pseg :=
  omap (fun ph => if p_type ph =? PT_LOAD then Some (mk_pseg (p_flags ph) (p_vaddr ph) (u64 (p_vaddr ph + p_memsz ph))) else None) phs.

Definition segs_ok (m : mem) (module_start : Z) (phs : list Elf64_Phdr) : Prop := Forall (fun ph => p_type ph = PT_LOAD -> seg_ok m module_start ph) phs.

Lemma map_segments_ok m module_start table phs : 2 ^ 47 <= table -> forall u i segs, same_kernel m u -> whole_pages u -> 0 <= i -> headers_at m table i phs -> segs_ok m module_start phs ->
  (length segs + length (seg_list phs) <= 8)%nat ->
  exists u', map_segments (length phs) u table i segs = Some (segs ++ seg_list phs, u') /\ whole_pages u' /\ same_kernel m u' /\ (forall x v, u !! x = Some v -> u' !! x = Some v) /\
    (forall x, stack_start <= x -> u' !! x = u !! x) /\ forall ph x, ph ∈ phs -> in_seg ph x = true -> is_Some (u' !! x).
Proof.
  intros Ht. induction phs as [|ph phs IH]; intros u i segs Hk Hw Hi Hh Hok H8.
  { exists u. cbn. rewrite app_nil_r. split; [done|]. split; [done|]. split; [done|]. split; [done|]. split; [done|]. intros ph x Hin. by apply elem_of_nil in Hin. }
  cbn [length map_segments]. destruct Hh as [Hph Hh]. apply Forall_cons in Hok as [Hok Hoks]. rewrite (phdr_at_ext m u) by done. rewrite Hph. some_bind. cbn [seg_list omap list_omap] in *. fold (seg_list phs) in *.
  destruct (p_type ph =? PT_LOAD) eqn:Ep; cbn [negb] in *.
  - zbool. destruct (map_segment_ok m u module_start ph (Hok Ep) Hw) as (Hw1 & Hk1 & Hs1 & Hd1 & Ht1). cbn [length] in H8. unfold PROC_MM_SEG_SIZE. rewrite (proj2 (Z.ltb_lt _ _)) by lia.
    destruct (IH (map_segment u ph) (i + 1) (segs ++ [mk_pseg (p_flags ph) (p_vaddr ph) (u64 (p_vaddr ph + p_memsz ph))])) as (u' & -> & W & K & S & T & D); try done; [|lia|rewrite length_app; cbn; lia|].
    { intros x Hx. rewrite Hk1 by done. by apply Hk. }
    exists u'. rewrite <- app_assoc. split; [done|]. split; [done|]. split; [done|]. split; [intros x v Hv; by apply S, Hs1|]. split; [intros x Hx; by rewrite T, Ht1|]. intros q x [->|Hq]%elem_of_cons Hx; [|by apply (D q x)].
    unfold in_seg in Hx. zbool. destruct (Hd1 x) as [v Hv]; [lia|]. exists v. by apply S.
  - destruct (IH u (i + 1) segs) as (u' & -> & W & K & S & T & D); try done; [lia|]. exists u'. split; [done|]. split; [done|]. split; [done|]. split; [done|]. split; [done|].
    intros q x [->|Hq]%elem_of_cons Hx; [|by apply (D q x)]. unfold in_seg in Hx. by rewrite Ep in Hx.
Qed.

Lemma copy_segment_ok m u module_start ph : seg_ok m module_start ph -> same_kernel m u -> mapped u (p_vaddr ph) (p_memsz ph) ->
  exists u', copy_segment u module_start ph = Some u' /\ same_kernel m u' /\
    forall x, u' !! x = if (p_vaddr ph <=? x) && (x <? p_vaddr ph + p_memsz ph) then seg_content m module_start ph x else u !! x.
Proof.
  intros [(H1 & H2 & H3) (H4 & H5 & H6 & H7)] Hk Hm. assert (H47 : stack_start <= 2 ^ 47) by done. set (src := module_start + p_offset ph) in *.
  destruct (load_bytes_some (Z.to_nat (p_filesz ph)) u src) as (l & _ & Hl & Ln); [intros x Hx; rewrite Hk by lia; apply H7; lia|].
  assert (El : len l = p_filesz ph) by (unfold len; lia). unfold copy_segment, memcpy. fold src. rewrite (u64_small src) by lia.
  rewrite <- Ln, memcpy_ok; [|done|rewrite El; intros x Hx; apply Hm; lia|unfold disjoint_from; rewrite El; lia]. some_bind. rewrite (u64_small (p_vaddr ph + p_filesz ph)) by lia.
  assert (Hb : forall x, p_vaddr ph <= x < p_vaddr ph + p_filesz ph -> l !! Z.to_nat (x - p_vaddr ph) = m !! (src + (x - p_vaddr ph))).
  { intros x Hx. destruct (lookup_lt_is_Some_2 l (Z.to_nat (x - p_vaddr ph))) as [v Hv]; [lia|]. rewrite Hv. pose proof (holds_at_lookup l u src _ v Hl Hv) as Hu. rewrite Z2Nat.id in Hu by lia. by rewrite Hk in Hu by lia. }
  assert (Hw : forall x, write u (p_vaddr ph) l !! x = if (p_vaddr ph <=? x) && (x <? p_vaddr ph + p_filesz ph) then m !! (src + (x - p_vaddr ph)) else u !! x).
  { intros x. rewrite write_lookup, El. destruct ((p_vaddr ph <=? x) && (x <? p_vaddr ph + p_filesz ph)) eqn:E; [|done]. zbool. by apply Hb. }
  destruct (p_filesz ph <? p_memsz ph) eqn:Ez; zbool.
  - rewrite memset_0; [|lia|apply mapped_write; intros x Hx; apply Hm; lia]. eexists. split; [done|].
    assert (Hx : forall x, write (write u (p_vaddr ph) l) (p_vaddr ph + p_filesz ph) (replicate (Z.to_nat (p_memsz ph - p_filesz ph)) 0) !! x =
      if (p_vaddr ph <=? x) && (x <? p_vaddr ph + p_memsz ph) then seg_content m module_start ph x else u !! x).
    { intros x. rewrite write_lookup. unfold len. rewrite length_replicate, Z2Nat.id by lia. replace (p_vaddr ph + p_filesz ph + (p_memsz ph - p_filesz ph)) with (p_vaddr ph + p_memsz ph) by lia.
      destruct ((p_vaddr ph + p_filesz ph <=? x) && (x <? p_vaddr ph + p_memsz ph)) eqn:E1.
      - zbool. rewrite (proj2 (Z.leb_le _ x)), (proj2 (Z.ltb_lt x _)) by lia. cbn [andb]. unfold seg_content. rewrite (proj2 (Z.ltb_ge x _)) by lia. apply lookup_replicate_2. lia.
      - rewrite Hw. destruct ((p_vaddr ph <=? x) && (x <? p_vaddr ph + p_filesz ph)) eqn:E2.
        + zbool. rewrite (proj2 (Z.leb_le _ x)), (proj2 (Z.ltb_lt x (_ + p_memsz ph))) by lia. cbn [andb]. unfold seg_content. rewrite (proj2 (Z.ltb_lt x _)) by lia. done.
        + destruct ((p_vaddr ph <=? x) && (x <? p_vaddr ph + p_memsz ph)) eqn:E3; [|done]. zbool. destruct_or?; zbool; lia. }
    split; [|done]. intros x Hx'. rewrite Hx. case_if; [zbool; lia|]. by apply Hk.
  - assert (p_memsz ph = p_filesz ph) as Em by lia. eexists. split; [done|]. rewrite Em. split.
    + intros x Hx. rewrite Hw. case_if; [zbool; lia|]. by apply Hk.
    + intros x. rewrite Hw. destruct ((p_vaddr ph <=? x) && (x <? p_vaddr ph + p_filesz ph)) eqn:E; [|done]. zbool. unfold seg_content. by rewrite (proj2 (Z.ltb_lt x _)) by lia.
Qed.

Lemma copy_segments_ok m module_start table phs : 2 ^ 47 <= table -> forall u i, same_kernel m u -> 0 <= i -> headers_at m table i phs -> segs_ok m module_start phs ->
  (forall ph x, ph ∈ phs -> in_seg ph x = true -> is_Some (u !! x)) ->
  exists u', copy_segments (length phs) u module_start table i = Some u' /\ same_kernel m u' /\ forall x, u' !! x = image m module_start phs (u !! x) x.
Proof.
  intros Ht. induction phs as [|ph phs IH]; intros u i Hk Hi Hh Hok Hm; [by exists u|].
  cbn [length copy_segments]. destruct Hh as [Hph Hh]. apply Forall_cons in Hok as [Hok Hoks]. rewrite (phdr_at_ext m u) by done. rewrite Hph. some_bind. unfold image. cbn [foldl].
  assert (Hrest : forall q x, q ∈ phs -> in_seg q x = true -> is_Some (u !! x)) by (intros q x Hq; apply Hm; by apply elem_of_cons; right).
  destruct (p_type ph =? PT_LOAD) eqn:Ep; cbn [negb] in *.
  - zbool. destruct (copy_segment_ok m u module_start ph (Hok Ep) Hk) as (u1 & -> & Hk1 & Hx1).
    { intros x Hx. apply (Hm ph x); [apply elem_of_cons; by left|]. unfold in_seg. rewrite (proj2 (Z.eqb_eq _ _) Ep), (proj2 (Z.leb_le _ _)), (proj2 (Z.ltb_lt _ _)) by lia. done. }
    some_bind. destruct (IH u1 (i + 1)) as (u' & -> & K & X); try done; [lia| |].
    { intros q x Hq Hx. rewrite Hx1. destruct ((p_vaddr ph <=? x) && (x <? p_vaddr ph + p_memsz ph)) eqn:E; [|by apply (Hrest q x)]. unfold seg_content. destruct (x <? p_vaddr ph + p_filesz ph) eqn:Ef; [|by eexists].
      destruct (Hok Ep) as [(A1 & A2 & _) (B1 & _ & _ & B2)]. zbool. apply B2. lia. }
    exists u'. split; [done|]. split; [done|]. intros x. rewrite X, Hx1. unfold image. f_equal. unfold in_seg. by rewrite (proj2 (Z.eqb_eq _ _) Ep).
  - destruct (IH u (i + 1)) as (u' & -> & K & X); try done; [lia|]. exists u'. split; [done|]. split; [done|]. intros x. rewrite X. unfold image. f_equal. unfold in_seg. by rewrite Ep.
Qed.

(** ** [module_proc] *)

Lemma image_outside m module_start phs x : segs_ok m module_start phs -> ~ x < stack_start -> forall o, image m module_start phs o x = o.
Proof.
  intros Hok Hx. induction Hok as [|ph phs Hp Hok IH]; intros o; [done|]. unfold image in *. cbn [foldl]. rewrite IH. destruct (in_seg ph x) eqn:E; [|done]. unfold in_seg in E. zbool.
  destruct (Hp H) as [(_ & _ & A) _]. lia.
Qed.

(** What the boot loader leaves at [module_start]: an ELF file with the program headers
    [phs], in the kernel half. *)
Record module_at (m : mem) (module_start : Z) (h : Elf64_Ehdr) (phs : list Elf64_Phdr) : Prop := {
  ma_header : exists data, load_bytes (Z.to_nat sizeof_ehdr) m module_start = Some data /\ ehdr_of data = Some h;
  ma_table : 2 ^ 47 <= module_start /\ 0 <= e_phoff h /\ module_start + e_phoff h < 2 ^ 64;
  ma_phdrs : e_phnum h = Z.of_nat (length phs) /\ headers_at m (module_start + e_phoff h) 0 phs;
  ma_segs : segs_ok m module_start phs /\ (length (seg_list phs) <= 8)%nat }.

(** The arguments of a server are in the kernel's memory. *)
Record server_args (m : mem) (argv envp : Z) (pa pe : list Z) (A E : list (list Z)) : Prop := {
  sa_argv : args m argv pa A /\ (argv <> NULL -> 2 ^ 47 <= argv) /\ Forall (fun p => 2 ^ 47 <= p) pa;
  sa_envp : args m envp pe E /\ (envp <> NULL -> 2 ^ 47 <= envp) /\ Forall (fun p => 2 ^ 47 <= p) pe;
  sa_fit : needed pa pe A E <= PAGE_SIZE }.

Lemma kernel_args m u argv ps ls : same_kernel m u -> args m argv ps ls -> (argv <> NULL -> 2 ^ 47 <= argv) -> Forall (fun p => 2 ^ 47 <= p) ps -> args u argv ps ls.
Proof.
  intros Hk [?|(Hn & Hp & Hz & Hs)] Ha Hps; [by left|]. right. specialize (Ha Hn). pose proof (len_nonneg ps). split; [done|]. split; [|split].
  - apply (ptrs_ext m); [|done]. intros x Hx. apply Hk. lia.
  - rewrite <- Hz. apply ld64_ext. intros x Hx. apply Hk. lia.
  - clear -Hk Hs Hps. induction Hs as [|p l ps ls Hp Hs IH]; [constructor|]. apply Forall_cons in Hps as [H1 H2]. constructor; [|by apply IH]. apply (cstr_frame m); [done|]. intros x Hx. apply Hk. lia.
Qed.

Lemma kernel_outside lo hi argv ps ls : hi <= 2 ^ 47 -> (argv <> NULL -> 2 ^ 47 <= argv) -> (argv = NULL -> ps = []) -> Forall (fun p => 2 ^ 47 <= p) ps -> length ps = length ls ->
  outside lo hi argv ps ls.
Proof.
  intros Hh Ha Hn Hps El. split.
  - intros x Hx. destruct (decide (argv = NULL)) as [E|E]; [rewrite (Hn E) in Hx; unfold table, len in Hx; cbn in Hx; lia|]. specialize (Ha E). unfold table in Hx. lia.
  - revert ls El. induction Hps as [|p ps Hp Hps IH]; intros [|l ls] El; try done; constructor; [|apply IH; [|by injection El]].
    + intros x Hx. unfold string_area in Hx. lia.
    + intros E. specialize (Hn E). done.
Qed.

Lemma image_covered m module_start phs x o o' : Exists (fun ph => in_seg ph x = true) phs -> image m module_start phs o x = image m module_start phs o' x.
Proof.
  revert o o'. induction phs as [|ph phs IH]; intros o o' H; [by apply Exists_nil in H|]. unfold image in *. cbn [foldl]. destruct (in_seg ph x) eqn:E; [done|].
  apply IH. apply Exists_cons in H as [H|H]; [congruence|done].
Qed.

Lemma image_some m module_start phs x : segs_ok m module_start phs -> forall o, is_Some o \/ Exists (fun ph => in_seg ph x = true) phs -> is_Some (image m module_start phs o x).
Proof.
  intros Hok. induction Hok as [|ph phs Hp Hok IH]; intros o Ho; [destruct Ho as [?|Ho]; [done|by apply Exists_nil in Ho]|]. unfold image in *. cbn [foldl]. apply IH.
  destruct (in_seg ph x) eqn:E; [left|destruct Ho as [?|Ho]; [by left|right; apply Exists_cons in Ho as [?|?]; [congruence|done]]].
  unfold in_seg in E. zbool. destruct (Hp H) as [(A1 & A2 & _) (B1 & _ & _ & B2)]. unfold seg_content. destruct (x <? p_vaddr ph + p_filesz ph) eqn:Ef; zbool; [apply B2; lia|by eexists].
Qed.

(** A process with its arguments: the stack pointer and what is above it. *)
Definition args_on_stack (u : mem) (sp : Z) (A E : list (list Z)) : Prop :=
  stack_start <= sp < USER_STACK_END /\ sp mod 8 = 0 /\ exists a e pa pe,
    ld64 u sp = Some (Z.of_nat (length A)) /\ ld64 u (sp + 8) = Some a /\ ld64 u (sp + 16) = Some e /\ args_at u a pa A /\ args_at u e pe E /\ sp <= e < a /\
    Forall2 (fun p l => forall x, string_area p l x -> sp <= x) pa A /\ Forall2 (fun p l => forall x, string_area p l x -> sp <= x) pe E.

Lemma args_stay u u' sp A E : args_on_stack u sp A E -> (forall x, stack_start <= x -> u' !! x = u !! x) -> args_on_stack u' sp A E.
Proof.
  intros (Hs & Hm & a & e & pa & pe & W0 & W1 & W2 & Va & Ve & Hae & Fa & Fe) Hk. split; [done|]. split; [done|]. exists a, e, pa, pe.
  split; [rewrite <- W0; apply ld64_ext; intros x Hx; apply Hk; lia|]. split; [rewrite <- W1; apply ld64_ext; intros x Hx; apply Hk; lia|]. split; [rewrite <- W2; apply ld64_ext; intros x Hx; apply Hk; lia|].
  split; [|split; [|done]].
  - apply (args_at_keep u u' a pa A _ Va Fa). intros x Hx. apply Hk. unfold table in Hx. lia.
  - apply (args_at_keep u u' e pe E _ Ve Fe). intros x Hx. apply Hk. unfold table in Hx. lia.
Qed.

Lemma server_stack m argv envp pa pe A E : server_args m argv envp pa pe A E ->
  exists u1 sp u, map_stack (Z.to_nat (Z.shiftl 1 USER_STACK_ORDER)) (u_clear m) USER_STACK_END = (u1, stack_start) /\ setup_args u1 argv envp USER_STACK_END PAGE_SIZE = Some (sp, u) /\
    args_on_stack u sp A E /\ same_kernel m u /\ whole_pages u.
Proof.
  intros [(Ha & Ka & Pa) (He & Ke & Pe) Hfit]. destruct (map_stack_ok m) as (u1 & E1 & Hz & Hk & Hu).
  assert (Hn : forall b ps ls, args m b ps ls -> (b = NULL -> ps = []) /\ length ps = length ls).
  { intros b ps ls [(_ & -> & ->)|(Hb & _ & _ & Hs)]; [done|]. split; [done|]. by apply Forall2_length in Hs. }
  destruct (Hn _ _ _ Ha) as [Na La]. destruct (Hn _ _ _ He) as [Ne Le]. pose proof (len_nonneg pe).
  destruct (setup_args_ok u1 argv envp pa pe A E USER_STACK_END PAGE_SIZE) as [_ Hset]; [|done..|].
  { split; try done; [by apply (kernel_args m)|by apply (kernel_args m)|by apply kernel_outside|by apply kernel_outside| | |unfold PAGE_SIZE in Hfit; lia].
    - intros Hb. specialize (Ke Hb). unfold USER_STACK_END. lia.
    - split; [|done]. intros x Hx. rewrite Hz; [by eexists|]. unfold stack_start, PAGE_SIZE in *. lia. }
  destruct (Hset Hfit) as (sp & u & a & e & pa' & pe' & E2 & B1 & B2 & B3 & B4 & W0 & W1 & W2 & _ & _ & Va & Ve & Hd & Hf & Fa & Fe).
  exists u1, sp, u. split; [done|]. split; [done|]. split; [|split].
  - split; [unfold stack_start, PAGE_SIZE in *; lia|]. split; [done|]. exists a, e, pa', pe'. rewrite <- La. split; [done|]. split; [done|]. split; [done|]. split; [done|]. split; [done|]. split; [lia|done].
  - intros x Hx. rewrite Hf by (unfold USER_STACK_END; lia). by apply Hk.
  - assert (Hdom : forall x, x < 2 ^ 47 -> is_Some (u !! x) <-> stack_start <= x < USER_STACK_END).
    { intros x Hx. destruct (decide (stack_start <= x < USER_STACK_END)) as [Hin|Hno].
      - split; [done|]. intros _. apply Hd. rewrite Hz by done. by eexists.
      - split; [|done]. rewrite Hf by (unfold stack_start, PAGE_SIZE in *; lia). rewrite Hu by done. by intros [? ?]. }
    intros x y Hx Hxy Hnone. destruct (decide (stack_start <= y < USER_STACK_END)) as [Hy|Hy].
    + exfalso. assert (is_Some (u !! x)) as [v Hv]; [|congruence]. apply Hdom; [done|]. destruct (page_start_of x) as (_ & Rx & Mx). destruct (page_start_of y) as (_ & Ry & _). rewrite Hxy in *.
      apply Z.mod_divide in Mx as [j Ej]; [|done]. change stack_start with (0x7fffffffd * PAGE_SIZE) in *. change USER_STACK_END with (0x7ffffffff * PAGE_SIZE) in *. unfold PAGE_SIZE in *. lia.
    + destruct (Z_lt_le_dec y (2 ^ 47)) as [Hl|Hl].
      * apply eq_None_not_Some. intros Hs. apply Hdom in Hs; [done|done].
      * exfalso. destruct (page_start_of x) as (_ & Rx & Mx). destruct (page_start_of y) as (_ & Ry & _). rewrite Hxy in *. apply Z.mod_divide in Mx as [j Ej]; [|done].
        change (2 ^ 47) with (2 ^ 35 * PAGE_SIZE) in *. unfold PAGE_SIZE in *. lia.
Qed.

(** C19: the first processes.  [module_proc] refuses what is not an ELF program.  For a
    module whose segments are in the user half below the stack it returns a runnable
    process with exactly these segments, an empty heap and its arguments on a stack of two
    pages; every address of a segment holds the byte of the module that its header assigns
    to it, or zero behind the part of the file, also where that part ends with a page; and
    the kernel half, with the module in it, is unchanged. *)
Theorem module_proc_correct m init root module_start argv envp h phs pa pe A E :
  (forall data h', load_bytes (Z.to_nat sizeof_ehdr) m module_start = Some data -> ehdr_of data = Some h' -> verify_ehdr h' = false ->
    module_proc m init root module_start argv envp = Some None) /\
  (module_at m module_start h phs -> verify_ehdr h = true -> server_args m argv envp pa pe A E ->
    exists p sp u, module_proc m init root module_start argv envp = Some (Some (p, e_entry h, sp, u)) /\
      state (sched p) = PROC_RUNNABLE /\ mm p = mk_mm 0 root (seg_list phs) USER_BRK_START USER_BRK_START stack_start USER_STACK_END /\
      args_on_stack u sp A E /\
      (forall ph x, ph ∈ phs -> in_seg ph x = true -> u !! x = image m module_start phs None x /\ is_Some (u !! x)) /\
      forall x, 2 ^ 47 <= x -> u !! x = m !! x).
Proof.
  split.
  { intros data h' Hl He Hv. unfold module_proc. rewrite Hl. some_bind. rewrite He. some_bind. by rewrite Hv. }
  intros [(data & Hl & He) (T1 & T2 & T3) (Hn & Hh) (Hok & H8)] Hv Hargs. unfold module_proc. rewrite Hl. some_bind. rewrite He. some_bind. rewrite Hv. cbn [negb].
  destruct (server_stack m argv envp pa pe A E Hargs) as (u1 & sp & u & -> & -> & Hst & Hk & Hw). run_bind. rewrite (u64_small (module_start + e_phoff h)) by lia. rewrite Hn, Nat2Z.id.
  destruct (map_segments_ok m module_start (module_start + e_phoff h) phs ltac:(lia) u 0 [] Hk Hw ltac:(lia) Hh Hok H8) as (u2 & -> & _ & K2 & S2 & T2' & D2). run_bind.
  destruct (copy_segments_ok m module_start (module_start + e_phoff h) phs ltac:(lia) u2 0 K2 ltac:(lia) Hh Hok D2) as (u3 & -> & K3 & X3). run_bind.
  eexists _, sp, u3. split; [reflexivity|]. split; [done|]. split; [done|].
  split; [|split; [|done]].
  - apply (args_stay u); [done|]. intros x Hx. rewrite X3, (image_outside m module_start phs x Hok) by lia. by apply T2'.
  - intros ph x Hin Hx. rewrite X3. assert (Hex : Exists (fun ph => in_seg ph x = true) phs) by (apply Exists_exists; by exists ph).
    split; [by apply image_covered|]. apply image_some; [done|by right].
Qed.

(** ** Witness: the program of [ExecProofs] as a module *)

Definition boot_memory : mem := write ∅ (2 ^ 47) program.
Definition boot_header : Elf64_Ehdr := mk_ehdr (slice 0 16 program) ET_EXEC EM_X86_64 0x400000 64 1.
Definition boot_phdr : Elf64_Phdr := mk_phdr PT_LOAD 5 120 0x400000 2 4.

Lemma boot_module : module_at boot_memory (2 ^ 47) boot_header [boot_phdr].
Proof.
  split.
  - exists (take 64 program). split; vm_compute; reflexivity.
  - cbn. lia.
  - split; [reflexivity|]. split; [vm_compute; reflexivity|exact I].
  - split; [|cbn; lia]. constructor; [|constructor]. intros _. split; cbn [p_vaddr p_filesz p_memsz p_offset boot_phdr]; [unfold stack_start, USER_STACK_END, PAGE_SIZE; lia|].
    split; [lia|]. split; [lia|]. split; [lia|]. intros x Hx. assert (x = 2 ^ 47 + 120 \/ x = 2 ^ 47 + 121) as [-> | ->] by lia; eexists; vm_compute; reflexivity.
Qed.

Lemma module_proc_correct_witness : exists p sp u, module_proc boot_memory 0x1000 0x2000 (2 ^ 47) NULL NULL = Some (Some (p, 0x400000, sp, u)) /\
  state (sched p) = PROC_RUNNABLE /\ u !! 0x400001 = Some 8 /\ u !! 0x400002 = Some 0 /\ ld64 u sp = Some 0.
Proof.
  assert (Ha : server_args boot_memory NULL NULL [] [] [] []) by (split; [split; [left; done|split; [done|constructor]]..|vm_compute; discriminate]).
  destruct (proj2 (module_proc_correct boot_memory 0x1000 0x2000 (2 ^ 47) NULL NULL boot_header [boot_phdr] [] [] [] []) boot_module ltac:(vm_compute; reflexivity) Ha)
    as (p & sp & u & Hrun & Hst & _ & (_ & _ & a & e & pa & pe & W0 & _) & Hx & _).
  exists p, sp, u. split; [exact Hrun|]. split; [exact Hst|]. clear Hrun.
  split; [|split; [|exact W0]].
  - rewrite (proj1 (Hx boot_phdr 0x400001 ltac:(constructor) ltac:(reflexivity))). vm_compute. reflexivity.
  - rewrite (proj1 (Hx boot_phdr 0x400002 ltac:(constructor) ltac:(reflexivity))). vm_compute. reflexivity.
Defined.
