(* ===== verification/SrvArgs.v ===== *)
(** * The arguments of the servers: [core/sched.c] and [main] of [srv/vfs/vfs.c]

    The kernel writes the boot device, the partition and its part as strings into memory,
    a table of which goes to the file server; the file server looks for the partition in
    its arguments.  [Exec] and [Modules] copy the strings from the one to the other. *)

From S2P Require Import Prelude Bytes Vsprintf CString Words Sched Exec ExecProofs.

#[local] Notation "'mem'" := (gmap Z Z).

(** ** The kernel *)

Definition NR_SRV : Z := 16.
Definition SRV_ARG_SIZE : Z := 64.
Definition fmt_bootdev : list Z := [0x62; 0x6f; 0x6f; 0x74; 0x64; 0x65; 0x76; 0x3d].
Definition fmt_part : list Z := [0x70; 0x61; 0x72; 0x74; 0x3d].
Definition fmt_subpart : list Z := [0x73; 0x75; 0x62; 0x70; 0x61; 0x72; 0x74; 0x3d].
Definition percent_d : list Z := [0x25; 0x64].

(** [sprintf] to an address. *)
Definition sprintf_at (m : mem) (a : Z) (fmt vals : list Z) : option mem :=
  r ← sprintf isdigit (fun _ => None) fmt vals;
  store_bytes m a (bytes r.2 0 (r.1 + 1)).

(** The addresses are the results of [kmalloc]: the two tables, the arguments of the file
    server and the three strings.  The assertions only print. *)
Record srv_blocks := mk_blocks { srv_argvs : Z; srv_envps : Z; b_argv : Z; b_arg0 : Z; b_arg1 : Z; b_arg2 : Z }.

Definition init_srv_args (m : mem) (b : srv_blocks) (bootdev bootpart subpart : Z) : option mem :=
  m ← memset m (srv_argvs b) 0 (NR_SRV * 8);
  m ← memset m (srv_envps b) 0 (NR_SRV * 8);
  m ← memset m (b_argv b) 0 (4 * 8);
  m ← st64 m (b_argv b) (b_arg0 b);
  m ← st64 m (b_argv b + 8) (b_arg1 b);
  m ← st64 m (b_argv b + 16) (b_arg2 b);
  m ← sprintf_at m (b_arg0 b) (fmt_bootdev ++ percent_d) [bootdev];
  m ← sprintf_at m (b_arg1 b) (fmt_part ++ percent_d) [bootpart];
  m ← sprintf_at m (b_arg2 b) (fmt_subpart ++ percent_d) [subpart];
  st64 m (srv_argvs b + 8 * IPC_VFS) (b_argv b).

(** [free_srv_argv]: the addresses passed to [kfree], in order. *)
Fixpoint free_args (fuel : nat) (m : mem) (argv i : Z) : option (list Z) :=
  match fuel with
  | O => None
  | S fuel => a ← ld64 m (argv + 8 * i); if a =? 0 then Some [] else l ← free_args fuel m argv (i + 1); Some (a :: l)
  end.
Definition free_srv_argv (m : mem) (srv_argvs srv_envps : Z) : option (list Z) :=
  argv ← ld64 m (srv_argvs + 8 * IPC_VFS);
  l ← free_args (fuel_of m) m argv 0;
  Some (l ++ [argv; srv_argvs; srv_envps]).

(** ** The file server *)

(** The loop over the arguments; the result is [part], which no argument may have set.
    [lit] and [eq] are the strings part and =. *)
Fixpoint find_part (n : nat) (m : mem) (lit eq argv i : Z) : option (option Z) :=
  match n with
  | O => Some None
  | S n =>
      a ← ld64 m (argv + 8 * i);
      r ← strncmp m a lit 4;
      if r =? 0 then q ← strstr m a eq; v ← atoi m (q + 1); Some (Some v)
      else find_part n m lit eq argv (i + 1)
  end.
Definition vfs_part (m : mem) (lit eq argc argv : Z) : option (option Z) := find_part (Z.to_nat argc) m lit eq argv 0.

(** ** The text of a number *)

Definition dec (v : Z) : list Z := number_text (u32 v) 10 0 SIGN.
Definition arg_texts (bootdev bootpart subpart : Z) : list (list Z) := [fmt_bootdev ++ dec bootdev; fmt_part ++ dec bootpart; fmt_subpart ++ dec subpart].

Lemma value_leading c ds : digits (c :: ds) -> c <> 0x30 -> 10 ^ len ds <= value 10 (c :: ds).
Proof.
  intros [Hc Hds]%Forall_cons Hn. unfold value. cbn [foldl]. rewrite value_from, digit_value_ascii by done. pose proof (value_nonneg ds Hds). assert (0 < 10 ^ len ds) by (apply Z.pow_pos_nonneg; [lia|apply len_nonneg]). nia.
Qed.

Lemma dec_ok v : 0 <= v < 2 ^ 32 -> digits (dec v) /\ dec v <> [] /\ value 10 (dec v) = v /\ len (dec v) <= 10.
Proof.
  intros Hv. unfold dec. rewrite u32_small by done. unfold number_text. rewrite padded_wide by lia. destruct (number_tmp_text v 10 SIGN ltac:(lia) ltac:(lia)) as (ds & E & Hval & Hin & Hl).
  rewrite i64_small in E, Hval by lia. rewrite (proj2 (Z.ltb_ge v 0)) in E, Hval by lia. rewrite andb_false_r in E, Hval. change (prefix 10 SIGN) with (@nil Z) in E. cbn [app] in E. rewrite E.
  assert (Hd : digits ds) by (apply Forall_forall; intros c (d & Hd & ->)%Hin; rewrite digit_ascii by done; lia). split; [done|].
  destruct ds as [|c ds].
  - exfalso. unfold value in Hval. cbn in Hval. subst v. vm_compute in E. done.
  - split; [done|]. split; [done|]. destruct Hl as [->|(c' & ds' & [= <- <-] & Hl)]; [done|]. pose proof (value_leading c ds Hd Hl) as Hp. rewrite Hval in Hp. rewrite len_cons.
    destruct (decide (len ds <= 9)) as [|Hb]; [lia|]. assert (10 ^ 10 <= 10 ^ len ds) by (apply Z.pow_le_mono_r; lia). lia.
Qed.

Lemma text_chars pre v : Forall (fun c => 0 < c < 256) pre -> 0 <= v < 2 ^ 32 -> Forall (fun c => 0 < c < 256) (pre ++ dec v).
Proof. intros Hp Hv. apply Forall_app. split; [done|]. destruct (dec_ok v Hv) as [Hd _]. eapply Forall_impl; [exact Hd|]. intros c Hc. cbn in Hc. lia. Qed.

Lemma render_dec pre v : Forall (fun c => c <> 0x25) pre -> render isdigit (fun _ => None) (S (length (pre ++ percent_d))) (pre ++ percent_d) [v] = Some (pre ++ dec v).
Proof.
  induction 1 as [|c pre Hc _ IH].
  - change (render isdigit (fun _ => None) (S (length ([] ++ percent_d))) ([] ++ percent_d) [v]) with (l ← Some (@nil Z); Some (number_text (u32 v) 10 0 SIGN ++ l)). some_bind. by rewrite app_nil_r.
  - cbn [app length]. change (render isdigit (fun _ => None) (S (S (length (pre ++ percent_d)))) (c :: pre ++ percent_d) [v]) with
      (if c =? 0x25 then r ← render_one isdigit (fun _ => None) (pre ++ percent_d) [v]; let '(t, fmt, args) := r in l ← render isdigit (fun _ => None) (S (length (pre ++ percent_d))) fmt args; Some (t ++ l)
       else l ← render isdigit (fun _ => None) (S (length (pre ++ percent_d))) (pre ++ percent_d) [v]; Some (c :: l)).
    rewrite (proj2 (Z.eqb_neq c 0x25)) by done. rewrite IH. by some_bind.
Qed.

Lemma bytes_text b l : holds b l -> bytes b 0 (len l + 1) = l ++ [0].
Proof.
  intros (H & H0 & _). apply list_eq. intros i. unfold bytes. rewrite list_lookup_fmap. unfold len. destruct (decide (i < length l)%nat) as [Hi|Hi].
  - rewrite lookup_seqZ_lt by lia. cbn [fmap option_fmap option_map]. rewrite !Z.add_0_l, H by done. rewrite lookup_app_l by done. destruct (lookup_lt_is_Some_2 l i Hi) as [v ->]. done.
  - rewrite lookup_app_r by lia. destruct (decide (i = length l)) as [->|Hne].
    + rewrite lookup_seqZ_lt by lia. cbn [fmap option_fmap option_map]. rewrite !Z.add_0_l, H0, Nat.sub_diag. done.
    + rewrite lookup_seqZ_ge by lia. cbn. symmetry. apply lookup_ge_None_2. cbn [length]. lia.
Qed.

Lemma sprintf_at_ok m a pre v : Forall (fun c => c <> 0x25) pre -> 0 <= v < 2 ^ 32 -> len pre + 11 <= SRV_ARG_SIZE -> mapped m a SRV_ARG_SIZE ->
  sprintf_at m a (pre ++ percent_d) [v] = Some (write m a ((pre ++ dec v) ++ [0])) /\ len ((pre ++ dec v) ++ [0]) <= SRV_ARG_SIZE.
Proof.
  intros Hp Hv Hl Hm. destruct (dec_ok v Hv) as (_ & _ & _ & Hd). assert (Hlen : len ((pre ++ dec v) ++ [0]) <= SRV_ARG_SIZE) by (rewrite !len_app; change (len [0]) with 1; lia). split; [|done].
  unfold sprintf_at, sprintf. pose proof (len_nonneg (pre ++ dec v)). unfold SRV_ARG_SIZE in *.
  destruct (vsnprintf_ok isdigit (fun _ => None) INT_MAX (pre ++ percent_d) [v] (pre ++ dec v) (render_dec pre v Hp)) as (b & -> & Hb); [rewrite len_app in Hlen; change (len [0]) with 1 in Hlen; unfold INT_MAX, len in *; lia|].
  some_bind. cbn [fst snd]. fold (len (pre ++ dec v)). rewrite bytes_text by done. apply store_bytes_ok. intros x Hx. apply Hm. lia.
Qed.

(** ** Blocks of memory *)

Definition area : Type := Z * Z.
Definition apart2 (x y : area) : Prop := x.1 + x.2 <= y.1 \/ y.1 + y.2 <= x.1.
Definition inside (x : area) (a : Z) (l : list Z) : Prop := x.1 <= a /\ a + len l <= x.1 + x.2.
Definition outside_of (x : area) (a : Z) : Prop := a < x.1 \/ x.1 + x.2 <= a.

Definition areas (b : srv_blocks) : list area :=
  [(srv_argvs b, NR_SRV * 8); (srv_envps b, NR_SRV * 8); (b_argv b, 32); (b_arg0 b, SRV_ARG_SIZE); (b_arg1 b, SRV_ARG_SIZE); (b_arg2 b, SRV_ARG_SIZE)].

(** What [kmalloc] promises of its results. *)
Record blocks_ok (m : mem) (b : srv_blocks) : Prop := {
  bo_apart : forall i j x y, areas b !! i = Some x -> areas b !! j = Some y -> i <> j -> apart2 x y;
  bo_mapped : Forall (fun x => 0 < x.1 < 2 ^ 64 /\ mapped m x.1 x.2) (areas b) }.

Lemma write_keeps x y m a l c k : apart2 x y -> inside x a l -> inside y c k -> holds_at m a l -> holds_at (write m c k) a l.
Proof. intros Hd Ha Hc H. apply (holds_at_frame m); [done|]. intros z Hz. apply write_out. unfold apart2, inside in *. lia. Qed.

Lemma write_after m a l c k : a + len l <= c -> holds_at m a l -> holds_at (write m c k) a l.
Proof. intros Hc H. apply (holds_at_frame m); [done|]. intros z Hz. apply write_out. lia. Qed.

Lemma write_outside y m c k z : inside y c k -> outside_of y z -> write m c k !! z = m !! z.
Proof. intros Hc Hz. apply write_out. unfold inside, outside_of in *. lia. Qed.

Definition words (ws : list Z) : list Z := concat (enc 8 <$> ws).

Lemma words_lookup ws : forall m a i v, holds_at m a (words ws) -> ws !! i = Some v -> 0 <= v < 2 ^ 64 -> ld64 m (a + 8 * Z.of_nat i) = Some v.
Proof.
  induction ws as [|w ws IH]; intros m a [|i] v H Hi Hv; try done; unfold words in H; cbn [fmap list_fmap concat] in H; apply holds_at_app in H as [H1 H2]; rewrite len_enc8 in H2.
  - injection Hi as ->. rewrite Z.add_0_r. by apply (ld_enc 8).
  - replace (a + 8 * Z.of_nat (S i)) with (a + 8 + 8 * Z.of_nat i) by lia. by apply IH.
Qed.

(** A store of a word into a row of words. *)
Lemma word_written m a ws i v : holds_at m a (words ws) -> (i < length ws)%nat -> holds_at (write m (a + 8 * Z.of_nat i) (enc 8 v)) a (words (<[i := v]> ws)).
Proof.
  revert a i. induction ws as [|w ws IH]; intros a [|i] H Hi; cbn [length] in Hi; try lia; unfold words in *; cbn [insert list_insert fmap list_fmap concat] in *; apply holds_at_app in H as [H1 H2]; rewrite len_enc8 in H2; apply holds_at_app; rewrite len_enc8.
  - rewrite Z.add_0_r. split; [apply write_holds|]. apply (holds_at_frame m); [done|]. intros z Hz. apply write_out. rewrite len_enc8. lia.
  - replace (a + 8 * Z.of_nat (S i)) with (a + 8 + 8 * Z.of_nat i) by lia. split; [|apply IH; [done|lia]]. apply write_after; [rewrite len_enc8; lia|done].
Qed.

Lemma len_words ws : len (words ws) = 8 * len ws.
Proof. induction ws as [|w ws IH]; [done|]. unfold words in *. cbn [fmap list_fmap concat]. rewrite len_app, len_enc8, IH, len_cons. lia. Qed.

Lemma zero_words n : replicate (8 * n) 0 = words (replicate n 0).
Proof. induction n as [|n IH]; [done|]. replace (8 * S n)%nat with (8 + 8 * n)%nat by lia. rewrite replicate_add, IH. reflexivity. Qed.

Section Blocks.
Context (m : mem) (b : srv_blocks) (Hb : blocks_ok m b).

Lemma area_mapped i x w : areas b !! i = Some x -> (forall z, is_Some (m !! z) -> is_Some (w !! z)) -> mapped w x.1 x.2.
Proof. intros Hi Hw z Hz. apply Hw. destruct Hb as [_ H]. rewrite Forall_lookup in H. destruct (H i x Hi) as [_ Hm]. by apply Hm. Qed.

Lemma area_address i x : areas b !! i = Some x -> 0 < x.1 < 2 ^ 64.
Proof. intros Hi. destruct Hb as [_ H]. rewrite Forall_lookup in H. by destruct (H i x Hi). Qed.

(** A store into one block keeps another. *)
Lemma other_block i j x y w a l c k : areas b !! i = Some x -> areas b !! j = Some y -> i <> j -> inside x a l -> inside y c k -> holds_at w a l -> holds_at (write w c k) a l.
Proof. intros Hi Hj Hn Ha Hc. apply (write_keeps x y); [by apply (bo_apart m b Hb i j)|done|done]. Qed.
End Blocks.

Lemma write_mapped (m : mem) a l z : is_Some (m !! z) -> is_Some (write m a l !! z).
Proof. intros H. apply (mapped_write m z 1 a l); [|lia]. intros x Hx. by replace x with z by lia. Qed.

Definition NULLS : list Z := replicate (Z.to_nat NR_SRV) 0.
Definition TABLE (argv : Z) : list Z := <[Z.to_nat IPC_VFS := argv]> NULLS.

Lemma len_replicate_z n (v : Z) : len (replicate n v) = Z.of_nat n.
Proof. unfold len. by rewrite length_replicate. Qed.

(** Stores that stay inside a block. *)
Ltac within := unfold inside, areas; cbn [fst snd]; rewrite ?len_words, ?len_enc8, ?len_replicate_z; unfold NR_SRV, SRV_ARG_SIZE, IPC_VFS in *; try (change (len NULLS) with 16); rewrite ?len_cons; try (change (len []) with 0); lia.

(** The memory after the function, one store after the other. *)
Definition srv_memory (m : mem) (b : srv_blocks) (t0 t1 t2 : list Z) : mem :=
  let m := write m (srv_argvs b) (words NULLS) in
  let m := write m (srv_envps b) (words NULLS) in
  let m := write m (b_argv b) (words [0; 0; 0; 0]) in
  let m := write m (b_argv b + 8 * Z.of_nat 0) (enc 8 (b_arg0 b)) in
  let m := write m (b_argv b + 8 * Z.of_nat 1) (enc 8 (b_arg1 b)) in
  let m := write m (b_argv b + 8 * Z.of_nat 2) (enc 8 (b_arg2 b)) in
  let m := write m (b_arg0 b) (t0 ++ [0]) in
  let m := write m (b_arg1 b) (t1 ++ [0]) in
  let m := write m (b_arg2 b) (t2 ++ [0]) in
  write m (srv_argvs b + 8 * Z.of_nat (Z.to_nat IPC_VFS)) (enc 8 (b_argv b)).

Section Contents.
Context (m : mem) (b : srv_blocks) (Hb : blocks_ok m b) (t0 t1 t2 : list Z).
Context (H0 : len (t0 ++ [0]) <= SRV_ARG_SIZE) (H1 : len (t1 ++ [0]) <= SRV_ARG_SIZE) (H2 : len (t2 ++ [0]) <= SRV_ARG_SIZE).

Ltac past i j := eapply (other_block m b Hb i j); [reflexivity|reflexivity|discriminate|within|within|].

Lemma srv_table : holds_at (srv_memory m b t0 t1 t2) (srv_argvs b) (words (TABLE (b_argv b))).
Proof.
  apply word_written; [|by apply Nat.ltb_lt]. past 0%nat 5%nat. past 0%nat 4%nat. past 0%nat 3%nat. do 4 past 0%nat 2%nat. past 0%nat 1%nat. apply write_holds.
Qed.

Lemma srv_envs : holds_at (srv_memory m b t0 t1 t2) (srv_envps b) (words NULLS).
Proof. past 1%nat 0%nat. past 1%nat 5%nat. past 1%nat 4%nat. past 1%nat 3%nat. do 4 past 1%nat 2%nat. apply write_holds. Qed.

Lemma srv_argv : holds_at (srv_memory m b t0 t1 t2) (b_argv b) (words [b_arg0 b; b_arg1 b; b_arg2 b; 0]).
Proof.
  past 2%nat 0%nat. past 2%nat 5%nat. past 2%nat 4%nat. past 2%nat 3%nat. apply (word_written _ _ [b_arg0 b; b_arg1 b; 0; 0] 2); [|cbn; lia].
  apply (word_written _ _ [b_arg0 b; 0; 0; 0] 1); [|cbn; lia]. apply (word_written _ _ [0; 0; 0; 0] 0); [|cbn; lia]. apply write_holds.
Qed.

Lemma srv_strings : holds_at (srv_memory m b t0 t1 t2) (b_arg0 b) (t0 ++ [0]) /\ holds_at (srv_memory m b t0 t1 t2) (b_arg1 b) (t1 ++ [0]) /\ holds_at (srv_memory m b t0 t1 t2) (b_arg2 b) (t2 ++ [0]).
Proof.
  split; [past 3%nat 0%nat; past 3%nat 5%nat; past 3%nat 4%nat; apply write_holds|]. split; [past 4%nat 0%nat; past 4%nat 5%nat; apply write_holds|]. past 5%nat 0%nat. apply write_holds.
Qed.

Lemma srv_rest z : Forall (fun x => outside_of x z) (areas b) -> srv_memory m b t0 t1 t2 !! z = m !! z.
Proof.
  intros Hz. rewrite Forall_lookup in Hz. unfold srv_memory. cbv zeta.
  assert (Hs : forall i y w c k, areas b !! i = Some y -> inside y c k -> write w c k !! z = w !! z) by (intros i y w c k Hi Hc; apply (write_outside y); [done|by apply (Hz i)]).
  rewrite (Hs 0%nat _ _ _ _ eq_refl), (Hs 5%nat _ _ _ _ eq_refl), (Hs 4%nat _ _ _ _ eq_refl), (Hs 3%nat _ _ _ _ eq_refl) by within.
  do 4 rewrite (Hs 2%nat _ _ _ _ eq_refl) by within. rewrite (Hs 1%nat _ _ _ _ eq_refl), (Hs 0%nat _ _ _ _ eq_refl) by within. done.
Qed.
End Contents.

Lemma init_srv_args_ok m b d p s : blocks_ok m b -> 0 <= d < 2 ^ 32 -> 0 <= p < 2 ^ 32 -> 0 <= s < 2 ^ 32 ->
  init_srv_args m b d p s = Some (srv_memory m b (fmt_bootdev ++ dec d) (fmt_part ++ dec p) (fmt_subpart ++ dec s)).
Proof.
  intros Hb Hd Hp Hs. unfold init_srv_args. assert (Hm : forall w i x a n, (forall z, is_Some (m !! z) -> is_Some (w !! z)) -> areas b !! i = Some x -> x.1 <= a -> a + n <= x.1 + x.2 -> mapped w a n).
  { intros w i x a n Hw Hi Ha Hn z Hz. apply (area_mapped m b Hb i x w Hi Hw). lia. }
  assert (Hz : forall w i a k n, (forall z, is_Some (m !! z) -> is_Some (w !! z)) -> areas b !! i = Some (a, k) -> k = 8 * Z.of_nat n -> (0 < n < 100)%nat -> memset w a 0 k = Some (write w a (words (replicate n 0)))).
  { intros w i a k n Hw Hi Hx Hn. rewrite memset_0 by (lia || by apply (area_mapped m b Hb i _ w Hi Hw)). rewrite Hx. replace (Z.to_nat (8 * Z.of_nat n)) with (8 * n)%nat by lia. by rewrite zero_words. }
  rewrite (Hz m 0%nat _ _ 16%nat ltac:(done) eq_refl) by (done || lia). some_bind. rewrite (Hz _ 1%nat _ _ 16%nat) by (done || lia || auto using write_mapped). some_bind.
  rewrite (Hz _ 2%nat _ _ 4%nat) by (done || lia || auto using write_mapped). some_bind.
  assert (Hst : forall w j v, (forall z, is_Some (m !! z) -> is_Some (w !! z)) -> 0 <= j <= 24 -> st64 w (b_argv b + j) v = Some (write w (b_argv b + j) (enc 8 v))).
  { intros w j v Hw Hj. apply st64_ok. apply (Hm w 2%nat _ _ _ Hw eq_refl); cbn; lia. }
  rewrite <- (Z.add_0_r (b_argv b)) at 2. rewrite (Hst _ 0) by (lia || auto using write_mapped). some_bind. rewrite (Hst _ 8) by (lia || auto using write_mapped). some_bind. rewrite (Hst _ 16) by (lia || auto 6 using write_mapped). some_bind.
  assert (Hsp : forall w i a pre v, (forall z, is_Some (m !! z) -> is_Some (w !! z)) -> areas b !! i = Some (a, SRV_ARG_SIZE) -> Forall (fun c => c <> 0x25) pre -> 0 <= v < 2 ^ 32 -> len pre + 11 <= SRV_ARG_SIZE ->
    sprintf_at w a (pre ++ percent_d) [v] = Some (write w a ((pre ++ dec v) ++ [0]))).
  { intros w i a pre v Hw Hi Hpre Hv Hl. apply sprintf_at_ok; try done. apply (area_mapped m b Hb i _ w Hi Hw). }
  assert (F : Forall (fun c => c <> 0x25) fmt_bootdev /\ Forall (fun c => c <> 0x25) fmt_part /\ Forall (fun c => c <> 0x25) fmt_subpart) by (split; [|split]; repeat (constructor; [done|]); constructor).
  destruct F as (F0 & F1 & F2).
  rewrite (Hsp _ 3%nat) by (done || auto 10 using write_mapped). some_bind. rewrite (Hsp _ 4%nat) by (done || auto 10 using write_mapped). some_bind. rewrite (Hsp _ 5%nat) by (done || auto 12 using write_mapped). some_bind.
  apply st64_ok. eapply (Hm _ 0%nat); [auto 14 using write_mapped|reflexivity|unfold IPC_VFS, NR_SRV; cbn [fst snd]; lia..].
Qed.

(** ** The file server finds the partition *)

Definition LIT_PART : list Z := [0x70; 0x61; 0x72; 0x74].
Definition LIT_EQ : list Z := [0x3d].

Lemma vfs_part_ok u lit eq argv ps d p s : args_at u argv ps (arg_texts d p s) -> cstr u lit LIT_PART -> cstr u eq LIT_EQ -> 0 <= p < 2 ^ 31 -> vfs_part u lit eq 3 argv = Some (Some p).
Proof.
  intros (Hps & _ & Hc) Hlit Heq Hp. unfold arg_texts in Hc. destruct ps as [|a0 [|a1 ps]]; [by inversion Hc|by apply Forall2_cons in Hc as [_ Hc]; inversion Hc|].
  apply Forall2_cons in Hc as [C0 Hc]. apply Forall2_cons in Hc as [C1 _]. destruct Hps as (P0 & _ & P1 & _). unfold vfs_part. change (Z.to_nat 3) with 3%nat. cbn [find_part].
  rewrite Z.add_0_r, P0. some_bind. destruct (strncmp_prefix u a0 lit _ LIT_PART C0 Hlit ltac:(done)) as (x & E & Hx). change (len LIT_PART) with 4 in E. rewrite E. some_bind.
  rewrite (proj2 (Z.eqb_neq x 0)) by (rewrite Hx; intros [k Hk]; discriminate Hk). change (argv + 8 * (0 + 1)) with (argv + 8). rewrite P1. some_bind.
  destruct (strncmp_prefix u a1 lit _ LIT_PART C1 Hlit ltac:(done)) as (y & E1 & Hy). change (len LIT_PART) with 4 in E1. rewrite E1. some_bind.
  rewrite (proj2 Hy) by (by eexists). cbn [Z.eqb]. rewrite (strstr_ok u a1 eq _ LIT_EQ C1 Heq) by done. some_bind. rewrite decide_False by done.
  assert (Ef : find_sub (fmt_part ++ dec p) LIT_EQ = Some 4%nat).
  { unfold fmt_part. cbn [app find_sub]. do 4 (rewrite decide_False by (intros [k Hk]; discriminate Hk)). rewrite decide_True by (by eexists). done. }
  rewrite Ef. destruct (dec_ok p ltac:(lia)) as (D1 & D2 & D3 & _). replace (a1 + Z.of_nat 4 + 1) with (a1 + 5) by lia.
  rewrite (atoi_ok u (a1 + 5) [] false (dec p)); [some_bind; by rewrite D3|constructor|done|done| |lia].
  cbn [app]. apply (cstr_app u fmt_part a1 (dec p)) in C1 as (_ & _ & C1). exact C1.
Qed.

Lemma free_args_ok m argv ps : forall i fuel, ptrs m (argv + 8 * i) ps -> ld64 m (argv + 8 * (i + len ps)) = Some 0 -> (length ps < fuel)%nat -> free_args fuel m argv i = Some ps.
Proof.
  induction ps as [|p ps IH]; intros i [|fuel] Hp Hz Hf; cbn [length] in Hf; try lia; cbn [free_args ptrs] in *.
  - change (len []) with 0 in Hz. rewrite Z.add_0_r in Hz. rewrite Hz. by some_bind.
  - destruct Hp as (H1 & H2 & H3). rewrite H1. some_bind. rewrite (proj2 (Z.eqb_neq p 0)) by done. rewrite len_cons in Hz.
    rewrite (IH (i + 1) fuel); [by some_bind| | |lia]; [by replace (argv + 8 * (i + 1)) with (argv + 8 * i + 8) by lia|by replace (i + 1 + len ps) with (i + (1 + len ps)) by lia].
Qed.

(** The boot device reaches the file server.  In separate blocks of memory the kernel
    builds a table with one entry, the arguments of the file server, and an empty table of
    environments, and changes no other byte; what it releases afterwards is every block
    once.  From any copy of the arguments the file server reads the partition that the
    kernel was started from, if its number is an [int]. *)
Theorem boot_partition_roundtrip (m : mem) (b : srv_blocks) (bootdev bootpart subpart : Z) :
  blocks_ok m b -> 0 <= bootdev < 2 ^ 32 -> 0 <= bootpart < 2 ^ 32 -> 0 <= subpart < 2 ^ 32 ->
  exists m', init_srv_args m b bootdev bootpart subpart = Some m' /\
    (forall pid, 0 <= pid < NR_SRV -> ld64 m' (srv_argvs b + 8 * pid) = Some (if pid =? IPC_VFS then b_argv b else NULL) /\ ld64 m' (srv_envps b + 8 * pid) = Some NULL) /\
    args m' (b_argv b) [b_arg0 b; b_arg1 b; b_arg2 b] (arg_texts bootdev bootpart subpart) /\
    (forall z, Forall (fun x => outside_of x z) (areas b) -> m' !! z = m !! z) /\
    free_srv_argv m' (srv_argvs b) (srv_envps b) = Some [b_arg0 b; b_arg1 b; b_arg2 b; b_argv b; srv_argvs b; srv_envps b] /\
    (forall u lit eq argv ps, args_at u argv ps (arg_texts bootdev bootpart subpart) -> cstr u lit LIT_PART -> cstr u eq LIT_EQ -> bootpart < 2 ^ 31 ->
      vfs_part u lit eq 3 argv = Some (Some bootpart)).
Proof.
  intros Hb Hd Hp Hs. rewrite init_srv_args_ok by done. eexists. split; [reflexivity|].
  assert (Ht : forall pre v, len pre + 11 <= SRV_ARG_SIZE -> 0 <= v < 2 ^ 32 -> len ((pre ++ dec v) ++ [0]) <= SRV_ARG_SIZE) by (intros pre v Hl Hv; destruct (dec_ok v Hv) as (_ & _ & _ & ?); rewrite !len_app; change (len [0]) with 1; lia).
  pose proof (Ht fmt_bootdev bootdev ltac:(done) Hd) as T0. pose proof (Ht fmt_part bootpart ltac:(done) Hp) as T1. pose proof (Ht fmt_subpart subpart ltac:(done) Hs) as T2. clear Ht.
  pose proof (srv_table m b Hb _ _ _ T0 T1 T2) as Mt. pose proof (srv_envs m b Hb _ _ _ T0 T1 T2) as Me. pose proof (srv_argv m b Hb _ _ _ T0 T1 T2) as Ma. pose proof (srv_strings m b Hb _ _ _ T0 T1 T2) as (M0 & M1 & M2).
  pose proof (srv_rest m b _ _ _ T0 T1 T2) as Mr. set (m' := srv_memory _ _ _ _ _) in *.
  pose proof (area_address m b Hb 2 _ eq_refl) as B2. pose proof (area_address m b Hb 3 _ eq_refl) as B3. pose proof (area_address m b Hb 4 _ eq_refl) as B4. pose proof (area_address m b Hb 5 _ eq_refl) as B5. cbn [fst] in B2, B3, B4, B5.
  assert (Wt : forall pid, 0 <= pid < NR_SRV -> ld64 m' (srv_argvs b + 8 * pid) = Some (if pid =? IPC_VFS then b_argv b else NULL) /\ ld64 m' (srv_envps b + 8 * pid) = Some NULL).
  { intros pid Hpid. unfold NR_SRV in Hpid. rewrite <- (Z2Nat.id pid) at 1 3 by lia. split.
    - apply (words_lookup _ _ _ _ _ Mt); [|case_if; unfold NULL; lia]. unfold TABLE, NULLS. case_if; zbool; [subst pid; done|].
      rewrite list_lookup_insert_ne by (unfold IPC_VFS in *; lia). apply lookup_replicate_2. unfold NR_SRV. lia.
    - apply (words_lookup _ _ _ _ _ Me); [|unfold NULL; lia]. apply lookup_replicate_2. unfold NR_SRV. lia. }
  assert (Aargs : args_at m' (b_argv b) [b_arg0 b; b_arg1 b; b_arg2 b] (arg_texts bootdev bootpart subpart)).
  { assert (Hw : forall i v, [b_arg0 b; b_arg1 b; b_arg2 b; 0] !! i = Some v -> 0 <= v < 2 ^ 64 -> ld64 m' (b_argv b + 8 * Z.of_nat i) = Some v) by (intros i v; by apply words_lookup).
    assert (Hc : forall a pre v, holds_at m' a ((pre ++ dec v) ++ [0]) -> Forall (fun c => 0 < c < 256) pre -> 0 <= v < 2 ^ 32 -> cstr m' a (pre ++ dec v)).
    { intros a pre v H Hpre Hv. rewrite <- (app_nil_r (pre ++ dec v)). apply cstr_app. apply holds_at_app in H as [H [H0 _]]. split; [done|]. split; [by apply text_chars|exact H0]. }
    split; [|split; [apply (Hw 3%nat); [done|lia]|]].
    - split; [rewrite <- (Z.add_0_r (b_argv b)); apply (Hw 0%nat); [done|lia]|]. split; [lia|]. split; [apply (Hw 1%nat); [done|lia]|]. split; [lia|]. split; [replace (b_argv b + 8 + 8) with (b_argv b + 8 * Z.of_nat 2) by lia; apply (Hw 2%nat); [done|lia]|]. split; [lia|done].
    - unfold arg_texts. repeat (constructor; [apply Hc; [done|repeat (constructor; [lia|]); constructor|done]|]). constructor. }
  split; [exact Wt|]. split; [right; split; [unfold NULL; lia|done]|]. split; [exact Mr|]. split; [|intros u lit eq argv ps X1 X2 X3 X4; apply (vfs_part_ok u lit eq argv ps bootdev bootpart subpart); first [assumption | lia]].
  unfold free_srv_argv. destruct (Wt IPC_VFS ltac:(unfold IPC_VFS, NR_SRV; lia)) as [-> _]. some_bind. change (IPC_VFS =? IPC_VFS) with true. cbv iota. destruct Aargs as (P1 & P2 & _).
  rewrite (free_args_ok m' (b_argv b) [b_arg0 b; b_arg1 b; b_arg2 b] 0); [by some_bind|by rewrite Z.add_0_r|done|]. pose proof (ptrs_mapped _ _ _ P1) as Hsz. apply (mapped_size 24) in Hsz. unfold fuel_of. cbn [length]. lia.
Qed.

(** ** Witness *)

Definition sample_blocks : srv_blocks := mk_blocks 0x1000 0x1080 0x1100 0x1140 0x1180 0x11c0.

Lemma boot_partition_roundtrip_witness : exists m', init_srv_args (write ∅ 0x1000 (replicate 512 7)) sample_blocks 128 1 0xffffffff = Some m' /\ ld64 m' (0x1000 + 8 * 2) = Some 0x1100.
Proof.
  destruct (boot_partition_roundtrip (write ∅ 0x1000 (replicate 512 7)) sample_blocks 128 1 0xffffffff) as (m' & E & H & _); try lia.
  - split.
    + intros i j x y Hi Hj Hne. do 6 (destruct i as [|i]; [vm_compute in Hi; injection Hi as <-; do 6 (destruct j as [|j]; [vm_compute in Hj; injection Hj as <-; first [congruence | unfold apart2; cbn; lia]|]); discriminate Hj|]). discriminate Hi.
    + repeat (constructor; [cbn [fst snd]; split; [cbn; lia|intros z Hz; rewrite write_lookup, len_replicate_z; rewrite (proj2 (Z.leb_le _ _)), (proj2 (Z.ltb_lt _ _)) by (cbn in Hz; unfold NR_SRV, SRV_ARG_SIZE in Hz; lia); exists 7; apply lookup_replicate_2; cbn in Hz; unfold NR_SRV, SRV_ARG_SIZE in Hz; lia]|]). constructor.
  - exists m'. split; [exact E|]. exact (proj1 (H 2 ltac:(unfold NR_SRV; lia))).
Defined.
