(* ===== verification/Malloc.v ===== *)
(** * The heap of a user program: [libc/malloc.c], [sbrk] of [libc/syscall.c]

    A descriptor [m_node] is its address with the block it describes; the three
    lists are the sequences of the descriptors linked in them.  The answer of the
    kernel to a new break is a parameter.  [sbrk] takes a [long], so that a size of
    [2^63] or more is a negative number for it. *)

From S2P Require Import Prelude.

Definition EACH_BRK : Z := 0x2000.
Definition NODE_INC_SIZE : Z := 1024.

(** [sizeof(m_node)]: two links, a pointer and a size. *)
Definition sizeof_m_node : Z := 32.

Record m_node := mk_node { addr : Z; ptr : Z; size : Z }.

Record heap := mk_heap {
  m_free_node : list Z;
  m_free : list m_node;
  m_busy : list m_node;
  _brk : Z }.

Definition set_nodes (h : heap) (l : list Z) : heap := mk_heap l (m_free h) (m_busy h) (_brk h).
Definition set_free (h : heap) (l : list m_node) : heap := mk_heap (m_free_node h) l (m_busy h) (_brk h).
Definition set_busy (h : heap) (l : list m_node) : heap := mk_heap (m_free_node h) (m_free h) l (_brk h).
Definition set_brk (h : heap) (v : Z) : heap := mk_heap (m_free_node h) (m_free h) (m_busy h) v.

Section Heap.
(** The result of the system call [brk]: 0 for success. *)
Variable brk : Z -> Z.

(** The old break, or NULL; the argument is a [long]. *)
Definition sbrk (h : heap) (n : Z) : Z * heap :=
  let old_brk := _brk h in
  let new_brk := u64 (old_brk + i64 n) in
  if old_brk =? new_brk then (old_brk, h)
  else if negb (brk new_brk =? 0) then (NULL, h)
  else (old_brk, set_brk h new_brk).

Definition new_nodes (a : Z) : list Z := (fun i => a + i * sizeof_m_node) <$> seqZ 0 NODE_INC_SIZE.

(** NULL when there is no memory for more descriptors. *)
Definition alloc_node (h : heap) : option (Z * heap) :=
  match m_free_node h with
  | a :: l => Some (a, set_nodes h l)
  | [] =>
      let '(a, h) := sbrk h (NODE_INC_SIZE * sizeof_m_node) in
      if a =? NULL then Some (NULL, h)
      else match m_free_node h ++ new_nodes a with
           | b :: l => Some (b, set_nodes h l)
           | [] => None
           end
  end.

Definition free_node (h : heap) (a : Z) : heap := set_nodes h (a :: m_free_node h).

Definition __malloc_init (h : heap) : option heap :=
  let h := mk_heap [] [] [] (_brk h) in
  let '(a, h) := sbrk h (NODE_INC_SIZE * sizeof_m_node) in
  if a =? NULL then Some h
  else
    let h := set_nodes h (m_free_node h ++ new_nodes a) in
    r ← alloc_node h;
    let '(n, h) := r in
    if n =? NULL then None
    else let '(p, h) := sbrk h EACH_BRK in Some (set_free h (mk_node n p EACH_BRK :: m_free h)).

(** The loop of [merge_free]: the free list with [node] in its place, and the
    descriptors given back. *)
Fixpoint merge_loop (node : m_node) (l : list m_node) (nodes : list Z) : list m_node * list Z :=
  match l with
  | [] => ([node], nodes)
  | entry :: l' =>
      if ptr entry + size entry =? ptr node then
        merge_loop (mk_node (addr node) (ptr entry) (size node + size entry)) l' (addr entry :: nodes)
      else if ptr node + size node =? ptr entry then
        merge_loop (mk_node (addr node) (ptr node) (size node + size entry)) l' (addr entry :: nodes)
      else if ptr node <? ptr entry then (node :: l, nodes)
      else let '(r, nodes) := merge_loop node l' nodes in (entry :: r, nodes)
  end.

Definition merge_free (h : heap) (node : m_node) : heap :=
  let '(l, nodes) := merge_loop node (m_free h) (m_free_node h) in
  mk_heap nodes l (m_busy h) (_brk h).

(** The first descriptor with a property, and the others. *)
Fixpoint take_first (f : m_node -> bool) (l : list m_node) : option (m_node * list m_node) :=
  match l with
  | [] => None
  | n :: l => if f n then Some (n, l) else r ← take_first f l; Some (r.1, n :: r.2)
  end.

Definition round_size (n : Z) : Z := Z.land (u64 (n + 0x7)) (u64 (Z.lnot 0x7)).

(** The block of [malloc] before it is cut: from the free list or from [sbrk];
    [inr] is a failure. *)
Definition find_block (h : heap) (sz : Z) : option ((m_node * heap) + heap) :=
  match take_first (fun n => sz <=? size n) (m_free h) with
  | Some (node, l) => Some (inl (node, set_free h l))
  | None =>
      r ← alloc_node h;
      let '(a, h) := r in
      if a =? NULL then None
      else
        let n := if EACH_BRK <? sz then sz else EACH_BRK in
        let '(p, h) := sbrk h n in
        Some (if p =? NULL then inr h else inl (mk_node a p n, h))
  end.

Definition malloc (h : heap) (n : Z) : option (Z * heap) :=
  let sz := round_size n in
  b ← find_block h sz;
  match b with
  | inr h => Some (NULL, h)
  | inl (node, h) =>
      if sz <? size node then
        r ← alloc_node h;
        let '(a, h) := r in
        if a =? NULL then Some (NULL, h)
        else
          let h := merge_free h (mk_node a (ptr node + sz) (size node - sz)) in
          Some (ptr node, set_busy h (m_busy h ++ [mk_node (addr node) (ptr node) sz]))
      else Some (ptr node, set_busy h (m_busy h ++ [node]))
  end.

Definition free (h : heap) (p : Z) : heap :=
  if p =? NULL then h
  else match take_first (fun n => ptr n =? p) (m_busy h) with
       | Some (node, l) => merge_free (set_busy h l) node
       | None => h
       end.

(** ** Invariant *)

(** How many of the regions (start and length) hold the byte [x]. *)
Definition ind (a n x : Z) : Z := if (a <=? x) && (x <? a + n) then 1 else 0.

Fixpoint cover (l : list (Z * Z)) (x : Z) : Z :=
  match l with [] => 0 | (a, n) :: l => ind a n x + cover l x end.

Definition node_regions (l : list Z) : list (Z * Z) := (fun a => (a, sizeof_m_node)) <$> l.
Definition blocks (l : list m_node) : list (Z * Z) := (fun n => (ptr n, size n)) <$> l.

(** Everything the allocator keeps: descriptors, in use or not, and blocks. *)
Definition regions (h : heap) : list (Z * Z) :=
  node_regions (m_free_node h ++ (addr <$> m_free h) ++ (addr <$> m_busy h)) ++ blocks (m_free h) ++ blocks (m_busy h).

(** Sorted, apart from each other and never adjacent. *)
Fixpoint chain (lo : Z) (l : list m_node) : Prop :=
  match l with [] => True | n :: l => lo < ptr n /\ 0 < size n /\ chain (ptr n + size n) l end.

(** The regions lie in the heap and do not overlap; the free list is coalesced. *)
Record heap_ok (lo : Z) (h : heap) : Prop := {
  hk_lo : 0 < lo <= _brk h /\ _brk h < 2 ^ 63;
  hk_cover : forall x, cover (regions h) x <= ind lo (_brk h - lo) x;
  hk_free : chain 0 (m_free h);
  hk_busy : Forall (fun n => 0 < size n) (m_busy h) }.

(** At most this much [malloc] asks for: a block and twice new descriptors. *)
Definition growth (sz : Z) : Z := 2 * (NODE_INC_SIZE * sizeof_m_node) + Z.max sz EACH_BRK.

(** ** Counting bytes *)

Lemma ind_range a n x : 0 <= ind a n x <= 1.
Proof. unfold ind. case_if; lia. Qed.

Lemma ind_in a n x : a <= x < a + n -> ind a n x = 1.
Proof. intros H. unfold ind. by rewrite (proj2 (Z.leb_le a x)), (proj2 (Z.ltb_lt x (a + n))) by lia. Qed.

Lemma ind_out a n x : x < a \/ a + n <= x -> ind a n x = 0.
Proof. intros H. unfold ind. destruct (_ && _) eqn:E; [|done]. apply andb_true_iff in E as [E1 E2]. zbool. lia. Qed.

Lemma ind_cases a n x : a <= x < a + n /\ ind a n x = 1 \/ ~ (a <= x < a + n) /\ ind a n x = 0.
Proof. destruct (decide (a <= x < a + n)) as [H|H]; [left; split; [done|by apply ind_in]|right; split; [done|apply ind_out; lia]]. Qed.

Lemma ind_split a n k x : 0 <= n -> 0 <= k -> ind a (n + k) x = ind a n x + ind (a + n) k x.
Proof.
  intros. destruct (ind_cases a (n + k) x) as [[? ->]|[? ->]], (ind_cases a n x) as [[? ->]|[? ->]], (ind_cases (a + n) k x) as [[? ->]|[? ->]]; lia.
Qed.

Lemma cover_app l k x : cover (l ++ k) x = cover l x + cover k x.
Proof. induction l as [|[a n] l IH]; cbn [cover app]; [lia|]. rewrite IH. lia. Qed.

Lemma cover_nonneg l x : 0 <= cover l x.
Proof. induction l as [|[a n] l IH]; cbn [cover]; [lia|]. pose proof (ind_range a n x). lia. Qed.

Lemma cover_elem l a n x : (a, n) ∈ l -> ind a n x <= cover l x.
Proof.
  induction l as [|[b k] l IH]; [by intros ?%elem_of_nil|]. intros [E|H]%elem_of_cons; cbn [cover].
  - injection E as -> ->. pose proof (cover_nonneg l x). lia.
  - specialize (IH H). pose proof (ind_range b k x). lia.
Qed.

#[export] Instance cover_perm : Proper ((≡ₚ) ==> eq ==> eq) cover.
Proof.
  intros l k H x ? <-. induction H as [|[a n] l k _ IH|[a n] [b m] l|l k m _ IH1 _ IH2]; cbn [cover]; lia.
Qed.

#[export] Instance node_regions_perm : Proper ((≡ₚ) ==> (≡ₚ)) node_regions.
Proof. intros l k H. by apply fmap_Permutation. Qed.

Lemma node_regions_app l k : node_regions (l ++ k) = node_regions l ++ node_regions k.
Proof. apply fmap_app. Qed.

Lemma blocks_app l k : blocks (l ++ k) = blocks l ++ blocks k.
Proof. apply fmap_app. Qed.

(** Regions that never count twice do not overlap. *)
Lemma cover_disjoint a n b k : (forall x, ind a n x + ind b k x <= 1) -> 0 < n -> 0 < k -> a + n <= b \/ b + k <= a.
Proof.
  intros H Hn Hk. specialize (H (Z.max a b)). destruct (ind_cases a n (Z.max a b)) as [[? E1]|[? E1]], (ind_cases b k (Z.max a b)) as [[? E2]|[? E2]]; lia.
Qed.

Lemma cover_within a n lo hi : (forall x, ind a n x <= ind lo (hi - lo) x) -> 0 < n -> lo <= a /\ a + n <= hi.
Proof.
  intros H Hn. pose proof (H a) as H1. pose proof (H (a + n - 1)) as H2. rewrite ind_in in H1, H2 by lia.
  destruct (ind_cases lo (hi - lo) a) as [[? E1]|[? E1]], (ind_cases lo (hi - lo) (a + n - 1)) as [[? E2]|[? E2]]; lia.
Qed.

(** The new descriptors fill the memory they come from. *)
Lemma cover_array a k x (n : nat) : 0 <= k -> cover (node_regions ((fun i => a + i * sizeof_m_node) <$> seqZ k (Z.of_nat n))) x = ind (a + k * sizeof_m_node) (Z.of_nat n * sizeof_m_node) x.
Proof.
  revert k. induction n as [|n IH]; intros k Hk; [cbn; by rewrite ind_out by lia|].
  rewrite seqZ_cons by lia. cbn [fmap list_fmap node_regions cover]. replace (Z.pred (Z.of_nat (S n))) with (Z.of_nat n) by lia.
  fold (node_regions ((fun i => a + i * sizeof_m_node) <$> seqZ (Z.succ k) (Z.of_nat n))). rewrite IH by lia.
  replace (Z.of_nat (S n) * sizeof_m_node) with (sizeof_m_node + Z.of_nat n * sizeof_m_node) by lia. rewrite ind_split by (unfold sizeof_m_node; lia).
  f_equal. f_equal; lia.
Qed.

(** ** [merge_free] *)

Lemma chain_weaken lo lo' l : chain lo l -> lo' <= lo -> chain lo' l.
Proof. destruct l as [|n l]; cbn [chain]; [done|]. intros (? & ? & ?) ?. repeat split; (done || lia). Qed.

Lemma chain_above lo l e : chain lo l -> e ∈ l -> lo < ptr e /\ 0 < size e.
Proof.
  revert lo. induction l as [|n l IH]; intros lo; [by intros _ ?%elem_of_nil|]. intros (H1 & H2 & H3) [->|H]%elem_of_cons; [done|].
  destruct (IH _ H3 H). lia.
Qed.

Definition apart (n e : m_node) : Prop := ptr e + size e <= ptr n \/ ptr n + size n <= ptr e.

Lemma merge_loop_ok l : forall node nodes lo l' nodes',
  chain lo l -> lo < ptr node -> 0 < size node -> (forall e, e ∈ l -> apart node e) ->
  merge_loop node l nodes = (l', nodes') ->
  chain lo l' /\ (forall x, cover (blocks l') x = ind (ptr node) (size node) x + cover (blocks l) x) /\
  nodes' ++ (addr <$> l') ≡ₚ addr node :: nodes ++ (addr <$> l).
Proof.
  induction l as [|e l IH]; intros node nodes lo l' nodes' Hc Hlo Hs Hap; cbn [merge_loop].
  { intros E. injection E as <- <-. cbn [chain]. split; [done|]. split; [by intros x|]. cbn [fmap list_fmap]. rewrite app_nil_r. apply Permutation_app_comm. }
  cbn [chain] in Hc. destruct Hc as (Hle & Hse & Hc). assert (He : apart node e) by (apply Hap; set_solver). unfold apart in He.
  assert (Hw : chain lo l) by (apply (chain_weaken (ptr e + size e)); [done|lia]).
  destruct (ptr e + size e =? ptr node) eqn:E1; [|destruct (ptr node + size node =? ptr e) eqn:E2; [|destruct (ptr node <? ptr e) eqn:E3]]; zbool.
  - intros Hrun. apply (IH _ _ lo) in Hrun as (H1 & H2 & H3);
      [|exact Hw|cbn; lia|cbn; lia|intros f Hf; pose proof (chain_above _ _ _ Hc Hf); destruct (Hap f ltac:(set_solver)); unfold apart; cbn; lia].
    split; [done|]. split; [|rewrite H3; cbn; solve_Permutation].
    intros x. rewrite H2. cbn [blocks fmap list_fmap cover addr ptr size]. rewrite (Z.add_comm (size node)), ind_split, E1 by lia. fold (blocks l). lia.
  - intros Hrun. apply (IH _ _ lo) in Hrun as (H1 & H2 & H3);
      [|exact Hw|cbn; lia|cbn; lia|intros f Hf; pose proof (chain_above _ _ _ Hc Hf); destruct (Hap f ltac:(set_solver)); unfold apart; cbn; lia].
    split; [done|]. split; [|rewrite H3; cbn; solve_Permutation].
    intros x. rewrite H2. cbn [blocks fmap list_fmap cover addr ptr size]. rewrite ind_split, E2 by lia. fold (blocks l). lia.
  - intros E. injection E as <- <-. cbn [chain]. split; [repeat split; (done || lia)|]. split; [done|]. cbn. solve_Permutation.
  - destruct (merge_loop node l nodes) as [r ns] eqn:Er. intros E. injection E as <- <-.
    destruct (IH node nodes (ptr e + size e) r ns Hc ltac:(lia) Hs ltac:(intros f Hf; apply Hap; set_solver) Er) as (H1 & H2 & H3).
    split; [done|]. split; [intros x; cbn [blocks fmap list_fmap cover]; fold (blocks r) (blocks l); rewrite H2; lia|].
    cbn [fmap list_fmap]. rewrite <- Permutation_middle, H3. solve_Permutation.
Qed.

(** The bytes of the parts of the heap. *)
Lemma cover_regions h x :
  cover (regions h) x = cover (node_regions (m_free_node h ++ (addr <$> m_free h))) x + cover (node_regions (addr <$> m_busy h)) x +
    cover (blocks (m_free h)) x + cover (blocks (m_busy h)) x.
Proof. unfold regions. rewrite !cover_app, !node_regions_app, !cover_app. lia. Qed.

Lemma chain_within lo h :
  0 < lo -> (forall x, cover (regions h) x <= ind lo (_brk h - lo) x) -> forall n, n ∈ m_free h ++ m_busy h -> 0 < size n -> lo <= ptr n /\ ptr n + size n <= _brk h.
Proof.
  intros Hlo H n Hn Hs. apply cover_within; [|done]. intros x. etrans; [|apply H]. apply cover_elem. unfold regions.
  apply elem_of_app. right. rewrite <- blocks_app. apply list_elem_of_fmap. by exists n.
Qed.

(** A descriptor and a block outside the lists go to the free list. *)
Lemma merge_free_ok lo h node :
  0 < lo <= _brk h /\ _brk h < 2 ^ 63 -> chain 0 (m_free h) -> Forall (fun n => 0 < size n) (m_busy h) -> 0 < size node ->
  (forall x, ind (addr node) sizeof_m_node x + ind (ptr node) (size node) x + cover (regions h) x <= ind lo (_brk h - lo) x) ->
  heap_ok lo (merge_free h node) /\ m_busy (merge_free h node) = m_busy h /\ _brk (merge_free h node) = _brk h /\
  forall x, cover (regions (merge_free h node)) x = ind (addr node) sizeof_m_node x + ind (ptr node) (size node) x + cover (regions h) x.
Proof.
  intros Hlo Hc Hb Hs Hcov. unfold merge_free. destruct (merge_loop node (m_free h) (m_free_node h)) as [l ns] eqn:E.
  assert (Hn : lo <= ptr node).
  { destruct (cover_within (ptr node) (size node) lo (_brk h)); [|done|done]. intros x. specialize (Hcov x).
    pose proof (ind_range (addr node) sizeof_m_node x). pose proof (cover_nonneg (regions h) x). lia. }
  apply (merge_loop_ok _ _ _ 0) in E as (H1 & H2 & H3); [|done|lia|done|].
  2: { intros e He. pose proof (chain_above _ _ _ Hc He). unfold apart. assert (Hd : ptr node + size node <= ptr e \/ ptr e + size e <= ptr node); [|lia].
    apply cover_disjoint; [|done|lia]. intros x. specialize (Hcov x). pose proof (ind_range lo (_brk h - lo) x). pose proof (ind_range (addr node) sizeof_m_node x).
    assert (Hi : ind (ptr e) (size e) x <= cover (regions h) x); [|lia]. apply cover_elem. unfold regions. apply elem_of_app. right.
    apply elem_of_app. left. apply list_elem_of_fmap. by exists e. }
  assert (Hall : forall x, cover (regions (mk_heap ns l (m_busy h) (_brk h))) x = ind (addr node) sizeof_m_node x + ind (ptr node) (size node) x + cover (regions h) x).
  { intros x. rewrite !cover_regions. cbn [m_free_node m_free m_busy]. rewrite H3, H2. cbn [node_regions fmap list_fmap cover].
    fold (node_regions (m_free_node h ++ (addr <$> m_free h))). lia. }
  split; [|done]. split; cbn [m_free m_busy _brk]; [done| |done|done]. intros x. rewrite Hall. apply Hcov.
Qed.

(** [sbrk] extends the heap. *)
Lemma new_break h n : 0 < n -> 0 < _brk h -> _brk h + n < 2 ^ 63 -> u64 (_brk h + i64 n) = _brk h + n /\ (_brk h =? u64 (_brk h + i64 n)) = false.
Proof. intros Hn Hb Hs. rewrite i64_small, u64_small by lia. split; [done|]. apply Z.eqb_neq. lia. Qed.

Lemma sbrk_ok h n p h' : 0 < n -> 0 < _brk h -> _brk h + n < 2 ^ 63 -> sbrk h n = (p, h') -> p <> NULL -> p = _brk h /\ h' = set_brk h (_brk h + n).
Proof.
  intros Hn Hb Hs. unfold sbrk. destruct (new_break h n Hn Hb Hs) as [E ->]. rewrite E. destruct (brk (_brk h + n) =? 0) eqn:Eb; cbn [negb]; intros E'; by injection E' as <- <-.
Qed.

Lemma sbrk_null h n h' : 0 < n -> 0 < _brk h -> _brk h + n < 2 ^ 63 -> sbrk h n = (NULL, h') -> h' = h /\ brk (_brk h + n) <> 0.
Proof.
  intros Hn Hb Hs. unfold sbrk. destruct (new_break h n Hn Hb Hs) as [E ->]. rewrite E. destruct (brk (_brk h + n) =? 0) eqn:Eb; cbn [negb]; intros E'.
  - injection E' as E' _. unfold NULL in E'. lia.
  - injection E' as <-. zbool. done.
Qed.

Lemma set_brk_regions h v : regions (set_brk h v) = regions h.
Proof. done. Qed.

Lemma ind_extend lo a b x : lo <= a <= b -> ind lo (b - lo) x = ind lo (a - lo) x + ind a (b - a) x.
Proof. intros. replace (b - lo) with ((a - lo) + (b - a)) by lia. rewrite ind_split by lia. by replace (lo + (a - lo)) with a by lia. Qed.

(** A descriptor is taken out of the heap, which may have grown. *)
Lemma alloc_node_ok lo h :
  heap_ok lo h -> _brk h + NODE_INC_SIZE * sizeof_m_node < 2 ^ 63 -> exists a h', alloc_node h = Some (a, h') /\ m_free h' = m_free h /\ m_busy h' = m_busy h /\ _brk h <= _brk h' < 2 ^ 63 /\ _brk h' <= _brk h + NODE_INC_SIZE * sizeof_m_node /\
    (a = NULL -> h' = h) /\
    (a <> NULL -> forall x, ind a sizeof_m_node x + cover (regions h') x = cover (regions h) x + ind (_brk h) (_brk h' - _brk h) x).
Proof.
  intros [Hlo Hcov _ _] Htop. unfold alloc_node. destruct (m_free_node h) as [|a l] eqn:En.
  - destruct (sbrk h (NODE_INC_SIZE * sizeof_m_node)) as [b h1] eqn:Es. destruct (b =? NULL) eqn:Eb; zbool.
    + subst b. apply sbrk_null in Es as [-> _]; [|done|lia|lia]. exists NULL, h. unfold NODE_INC_SIZE, sizeof_m_node. repeat split; (done || lia).
    + apply sbrk_ok in Es as (-> & ->); [|done|lia|lia|done]. cbn [set_brk m_free_node]. rewrite En. cbn [app].
      pose proof (fun x => cover_array (_brk h) 0 x 1024 ltac:(lia)) as Hnew. change (Z.of_nat 1024) with NODE_INC_SIZE in Hnew.
      fold (new_nodes (_brk h)) in Hnew. destruct (new_nodes (_brk h)) as [|a l] eqn:El.
      { specialize (Hnew (_brk h)). rewrite ind_in in Hnew by (unfold NODE_INC_SIZE, sizeof_m_node; lia). done. }
      exists a, (set_nodes (set_brk h (_brk h + NODE_INC_SIZE * sizeof_m_node)) l). split; [done|]. cbn [set_nodes set_brk m_free m_busy _brk].
      split; [done|]. split; [done|]. assert (0 < NODE_INC_SIZE * sizeof_m_node) by done. split; [lia|]. split; [lia|]. split.
      * intros ->. exfalso. specialize (Hnew 0). cbn [node_regions fmap list_fmap cover] in Hnew. fold (node_regions l) in Hnew.
        pose proof (cover_nonneg (node_regions l) 0). rewrite (ind_in NULL sizeof_m_node 0) in Hnew by (unfold NULL, sizeof_m_node; lia).
        rewrite ind_out in Hnew by lia. lia.
      * intros _ x. specialize (Hnew x). cbn [node_regions fmap list_fmap cover] in Hnew. fold (node_regions l) in Hnew.
        rewrite !cover_regions, !node_regions_app, !cover_app. cbn [set_nodes set_brk m_free_node m_free m_busy]. rewrite En.
        cbn [node_regions fmap list_fmap cover]. fold (node_regions l).
        replace (_brk h + NODE_INC_SIZE * sizeof_m_node - _brk h) with (NODE_INC_SIZE * sizeof_m_node) by lia.
        replace (_brk h + 0 * sizeof_m_node) with (_brk h) in Hnew by lia. lia.
  - exists a, (set_nodes h l). split; [done|]. cbn [set_nodes m_free m_busy _brk]. split; [done|]. split; [done|]. split; [lia|]. split; [unfold NODE_INC_SIZE, sizeof_m_node; lia|].
    assert (Hx : forall x, ind a sizeof_m_node x + cover (regions (set_nodes h l)) x = cover (regions h) x).
    { intros x. rewrite !cover_regions. cbn [set_nodes m_free_node m_free m_busy]. rewrite En. cbn [app node_regions fmap list_fmap cover]. fold (node_regions (l ++ (addr <$> m_free h))). lia. }
    split.
    + intros ->. exfalso. specialize (Hx 0). specialize (Hcov 0). pose proof (cover_nonneg (regions (set_nodes h l)) 0).
      rewrite (ind_in NULL sizeof_m_node 0) in Hx by (unfold NULL, sizeof_m_node; lia). rewrite (ind_out lo) in Hcov by lia. lia.
    + intros _ x. rewrite Hx. rewrite (ind_out (_brk h)) by lia. lia.
Qed.

Lemma take_first_spec f l n l' :
  take_first f l = Some (n, l') -> exists l1 l2, l = l1 ++ n :: l2 /\ l' = l1 ++ l2 /\ f n = true /\ Forall (fun e => f e = false) l1.
Proof.
  revert l'. induction l as [|e l IH]; intros l'; cbn [take_first]; [done|]. destruct (f e) eqn:E.
  - intros H. injection H as -> ->. exists [], l'. repeat split; [done|constructor].
  - destruct (take_first f l) as [[n1 r]|]; [|done]. some_bind. intros H. injection H as -> <-.
    destruct (IH r eq_refl) as (l1 & l2 & -> & -> & H1 & H2). exists (e :: l1), l2. repeat split; [done|by constructor].
Qed.

Lemma chain_remove lo l1 n l2 : chain lo (l1 ++ n :: l2) -> 0 < size n /\ chain lo (l1 ++ l2).
Proof.
  revert lo. induction l1 as [|e l1 IH]; intros lo; cbn [app chain].
  - intros (H1 & H2 & H3). split; [done|]. apply (chain_weaken _ _ _ H3). lia.
  - intros (H1 & H2 & H3). apply IH in H3 as [? ?]. done.
Qed.

Lemma regions_remove_free h l1 n l2 x :
  m_free h = l1 ++ n :: l2 -> cover (regions h) x = ind (addr n) sizeof_m_node x + ind (ptr n) (size n) x + cover (regions (set_free h (l1 ++ l2))) x.
Proof.
  intros E. rewrite !cover_regions. cbn [set_free m_free_node m_free m_busy]. rewrite E.
  rewrite !fmap_app, !blocks_app, !node_regions_app, !cover_app. cbn [fmap list_fmap blocks node_regions cover]. fold (blocks l2) (node_regions (addr <$> l2)). lia.
Qed.

Lemma regions_remove_busy h l1 n l2 x :
  m_busy h = l1 ++ n :: l2 -> cover (regions h) x = ind (addr n) sizeof_m_node x + ind (ptr n) (size n) x + cover (regions (set_busy h (l1 ++ l2))) x.
Proof.
  intros E. rewrite !cover_regions. cbn [set_busy m_free_node m_free m_busy]. rewrite E.
  rewrite !fmap_app, !blocks_app, !node_regions_app, !cover_app. cbn [fmap list_fmap blocks node_regions cover]. fold (blocks l2) (node_regions (addr <$> l2)). lia.
Qed.

(** A block out of the lists, in a heap that may have grown. *)
Definition out_block (lo : Z) (h : heap) (node : m_node) (h' : heap) : Prop :=
  0 < size node /\ chain 0 (m_free h') /\ m_busy h' = m_busy h /\ 0 < lo <= _brk h /\ _brk h <= _brk h' < 2 ^ 63 /\
  forall x, ind (addr node) sizeof_m_node x + ind (ptr node) (size node) x + cover (regions h') x =
    cover (regions h) x + ind (_brk h) (_brk h' - _brk h) x.

Lemma find_block_ok lo h sz r :
  heap_ok lo h -> 0 < sz -> _brk h + growth sz < 2 ^ 63 -> find_block h sz = Some r ->
  match r with
  | inl (node, h') => sz <= size node /\ out_block lo h node h' /\ _brk h' + NODE_INC_SIZE * sizeof_m_node <= _brk h + growth sz
  | inr h' => heap_ok lo h' /\ m_busy h' = m_busy h /\ exists a, _brk h < a <= _brk h + growth sz /\ brk a <> 0
  end.
Proof.
  intros H Hsz Htop. pose proof H as [Hlo Hcov Hfree Hbusy]. assert (Hk : 0 < NODE_INC_SIZE * sizeof_m_node) by done. assert (Hg : growth sz = 2 * (NODE_INC_SIZE * sizeof_m_node) + Z.max sz EACH_BRK) by done. unfold find_block. destruct (take_first _ (m_free h)) as [[node l]|] eqn:Et.
  - intros E. injection E as <-. apply take_first_spec in Et as (l1 & l2 & El & -> & Hn & _). zbool. split; [done|].
    rewrite El in Hfree. apply chain_remove in Hfree as [Hs Hfree]. split; [|cbn [set_free _brk]; unfold growth, NODE_INC_SIZE, sizeof_m_node, EACH_BRK; lia].
    repeat split; cbn [set_free m_free m_busy _brk]; [done|done|lia|lia|lia|lia|].
    intros x. rewrite (regions_remove_free h l1 node l2 x El), (ind_out (_brk h)) by lia. lia.
  - destruct (alloc_node_ok lo h H ltac:(lia)) as (a & h1 & -> & E1 & E2 & E3 & E5 & _ & E4). some_bind. cbv iota beta. destruct (a =? NULL) eqn:Ea; zbool; [done|].
    specialize (E4 Ea). set (n := if EACH_BRK <? sz then sz else EACH_BRK). assert (Hn : sz <= n /\ 0 < n /\ n = Z.max sz EACH_BRK) by (unfold n, EACH_BRK; case_if; zbool; lia).
    destruct (sbrk h1 n) as [p h2] eqn:Es. destruct (p =? NULL) eqn:Ep; zbool; intros E; injection E as <-.
    + subst p. apply sbrk_null in Es as [-> Hb]; [|lia|lia|lia]. split; [|split; [done|]].
      * split; [lia| |by rewrite E1|by rewrite E2]. intros x. specialize (E4 x). specialize (Hcov x). pose proof (ind_range a sizeof_m_node x).
        rewrite (ind_extend lo (_brk h) (_brk h1)) by lia. lia.
      * exists (_brk h1 + n). split; [unfold growth; lia|done].
    + apply sbrk_ok in Es as (-> & ->); [|lia|lia|lia|done]. split; [cbn; lia|]. split; [|cbn [set_brk _brk]; unfold growth; lia].
      repeat split; cbn [size ptr addr set_brk m_free m_busy _brk]; [lia|by rewrite E1|done|lia|lia|lia|lia|].
      intros x. rewrite set_brk_regions. specialize (E4 x). replace (_brk h1 + n - _brk h) with ((_brk h1 - _brk h) + n) by lia.
      rewrite (ind_split (_brk h)) by lia. replace (_brk h + (_brk h1 - _brk h)) with (_brk h1) by lia. lia.
Qed.

(** The rounding of [malloc]. *)
Lemma round_size_ok n : 0 < n <= 2 ^ 64 - 8 -> n <= round_size n < n + 8 /\ round_size n mod 8 = 0.
Proof.
  intros Hn. unfold round_size. rewrite u64_small by lia. change (u64 (Z.lnot 7)) with (2 ^ 64 - 2 ^ 3).
  rewrite land_high_mask by lia. change (2 ^ 3) with 8. pose proof (Z.mod_pos_bound (n + 7) 8 ltac:(lia)). pose proof (Z.div_mod (n + 7) 8 ltac:(lia)).
  split; [lia|]. replace (n + 7 - (n + 7) mod 8) with ((n + 7) / 8 * 8) by lia. apply Z.mod_mul. lia.
Qed.

(** What a call of [malloc] that returned a block did. *)
Definition malloc_post (lo : Z) (h : heap) (n p : Z) (h' : heap) : Prop :=
  exists node, m_busy h' = m_busy h ++ [node] /\ ptr node = p /\ size node = round_size n /\ lo <= p /\
    forall x, cover (regions h') x = cover (regions h) x + ind (_brk h) (_brk h' - _brk h) x.

Lemma out_block_within lo h node h' :
  heap_ok lo h -> out_block lo h node h' -> lo <= ptr node /\
  forall x, ind (addr node) sizeof_m_node x + ind (ptr node) (size node) x + cover (regions h') x <= ind lo (_brk h' - lo) x.
Proof.
  intros [Hlo Hcov _ _] (Hs & _ & _ & _ & Hb & Hc).
  assert (Hle : forall x, ind (addr node) sizeof_m_node x + ind (ptr node) (size node) x + cover (regions h') x <= ind lo (_brk h' - lo) x).
  { intros x. rewrite Hc, (ind_extend lo (_brk h) (_brk h')) by lia. specialize (Hcov x). lia. }
  split; [|done]. apply (cover_within (ptr node) (size node) lo (_brk h')); [|done]. intros x. specialize (Hle x).
  pose proof (ind_range (addr node) sizeof_m_node x). pose proof (cover_nonneg (regions h') x). lia.
Qed.

(** The block, whole, goes to the busy list. *)
Lemma to_busy_ok lo h node h' :
  heap_ok lo h -> out_block lo h node h' ->
  heap_ok lo (set_busy h' (m_busy h' ++ [node])) /\
  forall x, cover (regions (set_busy h' (m_busy h' ++ [node]))) x = cover (regions h) x + ind (_brk h) (_brk h' - _brk h) x.
Proof.
  intros H O. destruct (out_block_within lo h node h' H O) as [Hp Hle]. destruct O as (Hs & Hf & Hb & Hlo & Hbk & Hc).
  assert (E : forall x, cover (regions (set_busy h' (m_busy h' ++ [node]))) x = ind (addr node) sizeof_m_node x + ind (ptr node) (size node) x + cover (regions h') x).
  { intros x. rewrite (regions_remove_busy (set_busy h' (m_busy h' ++ [node])) (m_busy h') node [] x eq_refl), app_nil_r. by destruct h'. }
  split; [|intros x; rewrite E; apply Hc]. split; cbn [set_busy m_free m_busy _brk]; [lia|intros x; rewrite E; apply Hle|done|].
  rewrite Hb. apply Forall_app. split; [apply H|by constructor].
Qed.

(** Only a failure of [brk] leaves the allocator without a descriptor. *)
Lemma alloc_node_null lo h h' : heap_ok lo h -> _brk h + NODE_INC_SIZE * sizeof_m_node < 2 ^ 63 -> alloc_node h = Some (NULL, h') -> brk (_brk h + NODE_INC_SIZE * sizeof_m_node) <> 0.
Proof.
  intros H Htop E Hb. pose proof (hk_lo _ _ H). pose proof (hk_cover _ _ H 0) as Hc. rewrite (ind_out lo) in Hc by lia.
  revert E. unfold alloc_node. destruct (m_free_node h) as [|a l] eqn:En.
  - unfold sbrk. destruct (new_break h (NODE_INC_SIZE * sizeof_m_node) ltac:(done) ltac:(lia) Htop) as [Eb ->].
    rewrite Eb, Hb. cbn [Z.eqb negb]. rewrite (proj2 (Z.eqb_neq (_brk h) NULL)) by (unfold NULL; lia). cbn [set_brk m_free_node]. rewrite En. cbn [app].
    unfold new_nodes. rewrite seqZ_cons by done. cbn [fmap list_fmap]. intros E. injection E as E _. unfold NULL in E. lia.
  - intros E. injection E as -> _. revert Hc. rewrite cover_regions, En. cbn [app node_regions fmap list_fmap cover].
    fold (node_regions (l ++ (addr <$> m_free h))). rewrite (ind_in NULL sizeof_m_node 0) by (unfold NULL, sizeof_m_node; lia).
    pose proof (cover_nonneg (node_regions (l ++ (addr <$> m_free h))) 0). pose proof (cover_nonneg (node_regions (addr <$> m_busy h)) 0).
    pose proof (cover_nonneg (blocks (m_free h)) 0). pose proof (cover_nonneg (blocks (m_busy h)) 0). lia.
Qed.

(** A heap without one of its blocks. *)
Lemma out_block_heap lo h node h' : heap_ok lo h -> out_block lo h node h' -> heap_ok lo h'.
Proof.
  intros H O. destruct (out_block_within lo h node h' H O) as [Hp Hle]. destruct O as (Hs & Hf & Hb & Hlo & Hbk & Hc).
  split; [lia| |done|by rewrite Hb; apply (hk_busy _ _ H)]. intros x. specialize (Hle x).
  pose proof (ind_range (addr node) sizeof_m_node x). pose proof (ind_range (ptr node) (size node) x). lia.
Qed.

Lemma malloc_ok lo h n p h' :
  heap_ok lo h -> 0 < n <= 2 ^ 63 - 8 -> _brk h + growth (round_size n) < 2 ^ 63 -> malloc h n = Some (p, h') ->
  heap_ok lo h' /\ (p = NULL -> m_busy h' = m_busy h /\ exists a, _brk h < a <= _brk h + growth (round_size n) /\ brk a <> 0) /\ (p <> NULL -> malloc_post lo h n p h').
Proof.
  intros H Hn Htop. destruct (round_size_ok n ltac:(lia)) as [Hr _]. unfold malloc. destruct (find_block h (round_size n)) as [r|] eqn:Ef; [|done]. some_bind.
  apply (find_block_ok lo) in Ef; [|done|lia|done]. destruct r as [[node h1]|h1].
  2: { intros E. injection E as <- <-. destruct Ef as (H1 & H2 & H3). done. }
  destruct Ef as (Hsz & O & Hgr). destruct (out_block_within lo h node h1 H O) as [Hp Hle]. pose proof O as (Hs & Hf & Hb & Hlo & Hbk & Hc). assert (Hk : 0 < NODE_INC_SIZE * sizeof_m_node) by done.
  assert (Hnn : ptr node <> NULL) by (unfold NULL; lia). destruct (round_size n <? size node) eqn:El; zbool.
  2: { intros E. injection E as <- <-. destruct (to_busy_ok lo h node h1 H O) as [Hok Hcov]. split; [done|]. split; [done|]. intros _.
    exists node. split; [cbn [set_busy m_busy]; by rewrite Hb|]. split; [done|]. split; [lia|]. split; [done|exact Hcov]. }
  pose proof (out_block_heap lo h node h1 H O) as H1.
  destruct (alloc_node_ok lo h1 H1 ltac:(lia)) as (a & h2 & Ealloc & E1 & E2 & E3 & E5 & E0 & E4). rewrite Ealloc. some_bind. cbv iota beta. destruct (a =? NULL) eqn:Ea; zbool.
  { intros E. injection E as <- <-. subst a. specialize (E0 eq_refl). subst h2. split; [done|]. split; [|by intros []]. intros _. split; [done|]. exists (_brk h1 + NODE_INC_SIZE * sizeof_m_node). split; [lia|]. apply (alloc_node_null lo h1 h1 H1 ltac:(lia) Ealloc). }
  specialize (E4 Ea). set (rest := mk_node a (ptr node + round_size n) (size node - round_size n)). set (front := mk_node (addr node) (ptr node) (round_size n)).
  assert (Hsplit : forall x, ind (ptr node) (size node) x = ind (ptr front) (size front) x + ind (ptr rest) (size rest) x).
  { intros x. cbn [front rest ptr size]. rewrite <- ind_split by lia. f_equal. lia. }
  assert (Hall : forall x, ind (addr rest) sizeof_m_node x + ind (ptr rest) (size rest) x + (ind (addr front) sizeof_m_node x + ind (ptr front) (size front) x) + cover (regions h2) x
     = cover (regions h) x + ind (_brk h) (_brk h2 - _brk h) x).
  { intros x. specialize (Hc x). specialize (E4 x). rewrite Hsplit in Hc. rewrite (ind_extend (_brk h) (_brk h1) (_brk h2)) by lia. cbn [front rest addr] in *. lia. }
  assert (Hin : forall x, cover (regions h) x + ind (_brk h) (_brk h2 - _brk h) x <= ind lo (_brk h2 - lo) x).
  { intros x. rewrite (ind_extend lo (_brk h) (_brk h2)) by lia. pose proof (hk_cover _ _ H x). lia. }
  destruct (merge_free_ok lo h2 rest) as (Hm & Hmb & Hmk & Hmc); [lia|by rewrite E1|rewrite E2, Hb; apply (hk_busy _ _ H)|cbn; lia| |].
  { intros x. specialize (Hall x). specialize (Hin x). pose proof (ind_range (addr front) sizeof_m_node x). pose proof (ind_range (ptr front) (size front) x). lia. }
  intros E. injection E as <- <-. destruct (to_busy_ok lo h front (merge_free h2 rest)) as [Hok Hcov]; [done| |].
  { split; [cbn; lia|]. split; [apply Hm|]. split; [congruence|]. split; [lia|]. split; [lia|]. intros x. rewrite Hmc, Hmk, <- Hall. lia. }
  split; [done|]. split; [done|]. intros _. exists front. split; [cbn [set_busy m_busy]; by rewrite Hmb, E2, Hb|]. split; [done|]. split; [done|]. split; [done|exact Hcov].
Qed.

Lemma free_ok lo h p :
  heap_ok lo h -> heap_ok lo (free h p) /\ _brk (free h p) = _brk h /\ (forall x, cover (regions (free h p)) x = cover (regions h) x) /\
  (p = NULL \/ (forall n, n ∈ m_busy h -> ptr n <> p) -> free h p = h) /\
  (p <> NULL -> (exists n, n ∈ m_busy h /\ ptr n = p) ->
    exists l1 n l2, m_busy h = l1 ++ n :: l2 /\ ptr n = p /\ m_busy (free h p) = l1 ++ l2).
Proof.
  intros H. unfold free. destruct (p =? NULL) eqn:Ep; zbool; [do 4 (split; [done|]); by intros ?|].
  destruct (take_first (fun n => ptr n =? p) (m_busy h)) as [[node l]|] eqn:Et.
  - apply take_first_spec in Et as (l1 & l2 & El & -> & Hn & _). zbool. pose proof (hk_busy _ _ H) as Hb. rewrite El in Hb.
    apply Forall_app in Hb as [Hb1 Hb2]. apply Forall_cons in Hb2 as [Hs Hb2].
    destruct (merge_free_ok lo (set_busy h (l1 ++ l2)) node) as (Hm & Hmb & Hmk & Hmc); [apply (hk_lo _ _ H)|apply (hk_free _ _ H)|by apply Forall_app|done| |].
    { intros x. rewrite <- (regions_remove_busy h l1 node l2 x El). apply (hk_cover _ _ H). }
    split; [done|]. split; [done|]. split; [intros x; rewrite Hmc; symmetry; by apply regions_remove_busy|]. split.
    + intros [?|Hx]; [done|]. exfalso. apply (Hx node); [rewrite El; set_solver|done].
    + intros _ _. exists l1, node, l2. by rewrite Hmb.
  - split; [done|]. split; [done|]. split; [done|]. split; [done|]. intros _ (n & Hin & Hp). exfalso. revert Et Hin. clear -Hp.
    induction (m_busy h) as [|e l IH]; [by intros _ ?%elem_of_nil|]. cbn [take_first]. destruct (ptr e =? p) eqn:E; [done|].
    destruct (take_first _ l); [done|]. intros _ [->|Hin]%elem_of_cons; [zbool; done|by apply IH].
Qed.

(** With memory from the kernel no call fails. *)
Lemma alloc_node_some lo h : heap_ok lo h -> _brk h + NODE_INC_SIZE * sizeof_m_node < 2 ^ 63 -> brk (_brk h + NODE_INC_SIZE * sizeof_m_node) = 0 -> exists a h', alloc_node h = Some (a, h') /\ a <> NULL.
Proof.
  intros H Htop Hbrk. destruct (alloc_node_ok lo h H Htop) as (a & h' & E & _). exists a, h'. split; [done|]. intros ->. by apply (alloc_node_null lo h h' H Htop E).
Qed.

Lemma malloc_some lo h n : heap_ok lo h -> 0 < n <= 2 ^ 63 - 8 -> _brk h + growth (round_size n) < 2 ^ 63 -> (forall a, _brk h < a <= _brk h + growth (round_size n) -> brk a = 0) ->
  exists p h', malloc h n = Some (p, h') /\ p <> NULL.
Proof.
  intros H Hn Htop Hbrk. destruct (round_size_ok n ltac:(lia)) as [Hr _]. assert (Hk : 0 < NODE_INC_SIZE * sizeof_m_node) by done.
  assert (Hg : 2 * (NODE_INC_SIZE * sizeof_m_node) < growth (round_size n)) by (unfold growth, EACH_BRK; lia). assert (Hm : exists p h', malloc h n = Some (p, h')).
  { unfold malloc. assert (Hf : is_Some (find_block h (round_size n))).
    { unfold find_block. destruct (take_first _ _) as [[node l]|]; [by eexists|]. destruct (alloc_node_some lo h H) as (a & h' & -> & Ha); [lia|apply Hbrk; lia|]. some_bind. cbv iota beta.
      rewrite (proj2 (Z.eqb_neq a NULL) Ha). destruct (sbrk _ _). by eexists. }
    destruct Hf as [r Hf]. rewrite Hf. some_bind. apply (find_block_ok lo) in Hf; [|done|lia|done]. destruct r as [[node h1]|h1]; [|by eexists _, _].
    case_if; [|by eexists _, _]. destruct Hf as (Hsz & O & Hgr). pose proof (out_block_heap lo h node h1 H O) as H1. pose proof O as (_ & _ & _ & _ & Hbk & _).
    destruct (alloc_node_some lo h1 H1) as (a & h2 & -> & Ha); [lia|apply Hbrk; lia|]. some_bind. cbv iota beta. rewrite (proj2 (Z.eqb_neq a NULL) Ha). by eexists _, _. }
  destruct Hm as (p & h' & Hm). exists p, h'. split; [done|]. intros ->. destruct (malloc_ok lo h n NULL h' H Hn Htop Hm) as (_ & Hx & _).
  destruct (Hx eq_refl) as (_ & x & Hx1 & Hx2). by apply Hx2, Hbrk.
Qed.

Lemma malloc_init_ok h :
  0 < _brk h -> _brk h + growth 0 < 2 ^ 63 -> (forall a, _brk h < a <= _brk h + growth 0 -> brk a = 0) ->
  exists h', __malloc_init h = Some h' /\ heap_ok (_brk h) h' /\ m_busy h' = [] /\
    forall x, cover (regions h') x = ind (_brk h) (_brk h' - _brk h) x.
Proof.
  intros Hb Htop Hbrk. assert (Hg : growth 0 = 2 * (NODE_INC_SIZE * sizeof_m_node) + EACH_BRK) by done. assert (Hk : 0 < NODE_INC_SIZE * sizeof_m_node) by done. assert (He : 0 < EACH_BRK) by done.
  assert (Hb1 : brk (_brk h + NODE_INC_SIZE * sizeof_m_node) = 0) by (apply Hbrk; lia).
  assert (Hb2 : brk (_brk h + NODE_INC_SIZE * sizeof_m_node + EACH_BRK) = 0) by (apply Hbrk; lia).
  unfold __malloc_init, sbrk. cbn [_brk]. destruct (new_break h (NODE_INC_SIZE * sizeof_m_node) ltac:(done) ltac:(lia) ltac:(lia)) as [En Ef]. rewrite Ef, En, Hb1. clear En Ef.
  cbn [Z.eqb negb]. rewrite (proj2 (Z.eqb_neq (_brk h) NULL)) by (unfold NULL; lia). cbn [set_brk m_free_node app set_nodes m_free m_busy _brk].
  pose proof (fun x => cover_array (_brk h) 0 x 1024 ltac:(lia)) as Hnew. change (Z.of_nat 1024) with NODE_INC_SIZE in Hnew. fold (new_nodes (_brk h)) in Hnew.
  assert (El : exists l, new_nodes (_brk h) = _brk h :: l).
  { unfold new_nodes. rewrite seqZ_cons by done. eexists. cbn [fmap list_fmap]. f_equal. lia. }
  destruct El as [l El]. rewrite El in Hnew |- *. unfold alloc_node. cbn [m_free_node set_nodes m_free m_busy _brk]. some_bind. cbv iota beta.
  rewrite (proj2 (Z.eqb_neq (_brk h) NULL)) by (unfold NULL; lia). cbn [_brk set_nodes set_brk m_free_node m_free m_busy].
  destruct (new_break (mk_heap l [] [] (_brk h + NODE_INC_SIZE * sizeof_m_node)) EACH_BRK ltac:(done) ltac:(cbn [_brk]; lia) ltac:(cbn [_brk]; lia)) as [En Ef]. cbn [_brk] in En, Ef. rewrite Ef, En, Hb2.
  cbn [Z.eqb negb]. eexists. split; [reflexivity|]. unfold set_free, set_brk, set_nodes. cbn [m_free_node m_free m_busy _brk].
  set (k := NODE_INC_SIZE * sizeof_m_node) in *.
  assert (Hcov : forall x, cover (regions (mk_heap l [mk_node (_brk h) (_brk h + k) EACH_BRK] [] (_brk h + k + EACH_BRK))) x = ind (_brk h) (k + EACH_BRK) x).
  { intros x. rewrite cover_regions. cbn [m_free_node m_free m_busy fmap list_fmap addr ptr size blocks node_regions cover]. fold (node_regions (l ++ [_brk h])).
    rewrite node_regions_app, cover_app. specialize (Hnew x). cbn [node_regions fmap list_fmap cover] in Hnew |- *. fold (node_regions l) in Hnew |- *.
    rewrite ind_split by (unfold EACH_BRK; lia). replace (_brk h + 0 * sizeof_m_node) with (_brk h) in Hnew by lia. fold k in Hnew. lia. }
  assert (Hx : forall x, ind (_brk h) (_brk h + k + EACH_BRK - _brk h) x = ind (_brk h) (k + EACH_BRK) x) by (intros x; f_equal; lia).
  split; [|split; [done|intros x; by rewrite Hx]].
  split; cbn [m_free m_busy _brk chain ptr size]; [lia|intros x; by rewrite Hx, Hcov|repeat split; (done || lia)|constructor].
Qed.

(** Sizes that are negative as a [long] move the break down. *)
Lemma round_size_mod n : 0 <= n < 2 ^ 64 -> round_size n = u64 (n + 7) - u64 (n + 7) mod 8 /\ 0 <= round_size n < 2 ^ 64.
Proof.
  intros Hn. unfold round_size. change (u64 (Z.lnot 7)) with (2 ^ 64 - 2 ^ 3). assert (H : 0 <= u64 (n + 7) < 2 ^ 64) by (apply uwrap_range; lia).
  rewrite land_high_mask by lia. change (2 ^ 3) with 8. pose proof (Z.mod_pos_bound (u64 (n + 7)) 8 ltac:(lia)).
  pose proof (Z.mod_le (u64 (n + 7)) 8 ltac:(lia) ltac:(lia)). split; [done|lia].
Qed.

Lemma take_first_none f l : (forall n, n ∈ l -> f n = false) -> take_first f l = None.
Proof. induction l as [|e l IH]; intros H; cbn [take_first]; [done|]. rewrite (H e) by left. by rewrite IH by (intros n Hn; apply H; by right). Qed.

Lemma malloc_huge lo h n a l : heap_ok lo h -> m_free_node h = a :: l -> 2 ^ 63 - 8 < n <= 2 ^ 64 - 8 ->
  let nb := _brk h - (2 ^ 64 - round_size n) in 0 <= nb -> brk nb = 0 ->
  exists h', malloc h n = Some (_brk h, h') /\ _brk h' = nb /\ nb < _brk h /\ exists node, m_busy h' = m_busy h ++ [node] /\ ptr node = _brk h /\ size node = round_size n.
Proof.
  intros H En Hn nb Hnb Hb. destruct (round_size_ok n ltac:(lia)) as [Hr Hm8]. pose proof (hk_lo _ _ H) as Hlo. assert (H63 : 2 ^ 63 <= round_size n) by (apply Z.mod_divide in Hm8 as [j Hj]; lia).
  assert (Ha : a <> NULL).
  { intros ->. pose proof (hk_cover _ _ H 0) as Hc. rewrite (ind_out lo) in Hc by lia. revert Hc. rewrite cover_regions, En. cbn [app node_regions fmap list_fmap cover].
    fold (node_regions (l ++ (addr <$> m_free h))). rewrite (ind_in NULL sizeof_m_node 0) by (unfold NULL, sizeof_m_node; lia).
    pose proof (cover_nonneg (node_regions (l ++ (addr <$> m_free h))) 0). pose proof (cover_nonneg (node_regions (addr <$> m_busy h)) 0).
    pose proof (cover_nonneg (blocks (m_free h)) 0). pose proof (cover_nonneg (blocks (m_busy h)) 0). lia. }
  unfold malloc, find_block. rewrite take_first_none.
  2: { intros e He. apply Z.leb_gt. destruct (chain_above _ _ _ (hk_free _ _ H) He) as [_ Hs]. destruct (chain_within lo h ltac:(lia) (hk_cover _ _ H) e ltac:(set_solver) Hs). lia. }
  unfold alloc_node. rewrite En. some_bind. cbv iota beta. rewrite (proj2 (Z.eqb_neq a NULL) Ha). rewrite (proj2 (Z.ltb_lt EACH_BRK _)) by (unfold EACH_BRK; lia).
  unfold sbrk. cbn [set_nodes _brk]. assert (Ei : u64 (_brk h + i64 (round_size n)) = nb).
  { assert (E64 : i64 (round_size n) = round_size n - 2 ^ 64).
    { unfold i64, swrap. change (64 - 1) with 63. replace (round_size n + 2 ^ 63) with (round_size n - 2 ^ 63 + 1 * 2 ^ 64) by lia. rewrite Z.mod_add by lia. rewrite Z.mod_small by lia. lia. }
    rewrite E64. replace (_brk h + (round_size n - 2 ^ 64)) with nb by (unfold nb; lia). apply u64_small. unfold nb in *. lia. }
  rewrite Ei, Hb. rewrite (proj2 (Z.eqb_neq (_brk h) nb)) by (unfold nb; lia). cbn [Z.eqb negb]. rewrite (proj2 (Z.eqb_neq (_brk h) NULL)) by (unfold NULL; lia). some_bind. cbv iota beta. cbn [size].
  rewrite Z.ltb_irrefl. eexists. split; [done|]. cbn [set_busy set_brk set_nodes _brk m_busy]. split; [done|]. split; [unfold nb; lia|]. by eexists.
Qed.

(** A size that rounds to 0 gets a block of no bytes at the start of a free one. *)
Lemma malloc_zero lo h n a l e f : heap_ok lo h -> m_free_node h = a :: l -> m_free h = e :: f -> n = 0 \/ 2 ^ 64 - 8 < n < 2 ^ 64 ->
  exists h', malloc h n = Some (ptr e, h') /\ blocks (m_free h') = blocks (m_free h) /\ m_busy h' = m_busy h ++ [mk_node (addr e) (ptr e) 0].
Proof.
  intros H En Ef Hn. assert (Hz : round_size n = 0).
  { destruct (round_size_mod n ltac:(lia)) as [-> _]. assert (Hu : 0 <= u64 (n + 7) < 8).
    { unfold u64, uwrap. destruct Hn as [->|Hn]; [done|]. replace (n + 7) with (n + 7 - 2 ^ 64 + 1 * 2 ^ 64) by lia. rewrite Z.mod_add by lia. rewrite Z.mod_small; lia. }
    rewrite Z.mod_small by lia. lia. }
  assert (Ha : a <> NULL).
  { intros ->. pose proof (hk_lo _ _ H). pose proof (hk_cover _ _ H 0) as Hc. rewrite (ind_out lo) in Hc by lia. revert Hc. rewrite cover_regions, En. cbn [app node_regions fmap list_fmap cover].
    fold (node_regions (l ++ (addr <$> m_free h))). rewrite (ind_in NULL sizeof_m_node 0) by (unfold NULL, sizeof_m_node; lia).
    pose proof (cover_nonneg (node_regions (l ++ (addr <$> m_free h))) 0). pose proof (cover_nonneg (node_regions (addr <$> m_busy h)) 0).
    pose proof (cover_nonneg (blocks (m_free h)) 0). pose proof (cover_nonneg (blocks (m_busy h)) 0). lia. }
  pose proof (hk_free _ _ H) as Hc. rewrite Ef in Hc. destruct Hc as (C1 & C2 & C3).
  unfold malloc, find_block. rewrite Hz, Ef. cbn [take_first]. rewrite (proj2 (Z.leb_le 0 (size e))) by lia. some_bind. cbv iota beta. rewrite (proj2 (Z.ltb_lt 0 (size e))) by lia.
  unfold alloc_node. cbn [set_free m_free_node]. rewrite En. some_bind. cbv iota beta. rewrite (proj2 (Z.eqb_neq a NULL) Ha).
  eexists. split; [done|]. unfold merge_free. cbn [set_nodes m_free m_free_node m_busy _brk]. rewrite Z.add_0_r, Z.sub_0_r.
  assert (Em : merge_loop (mk_node a (ptr e) (size e)) f l = (mk_node a (ptr e) (size e) :: f, l)).
  { destruct f as [|g f]; [done|]. cbn [merge_loop ptr size addr]. destruct C3 as (D1 & D2 & _). rewrite (proj2 (Z.eqb_neq (ptr g + size g) (ptr e))), (proj2 (Z.eqb_neq (ptr e + size e) (ptr g))), (proj2 (Z.ltb_lt (ptr e) (ptr g))) by lia. done. }
  change (m_free (set_free h f)) with f. rewrite Em. cbn [set_busy m_free m_busy]. split; [done|]. done.
Qed.
End Heap.

(** ** Theorem *)

(** C33: the heap allocator keeps its descriptors and blocks apart: in a heap that is
    in order every byte belongs to at most one descriptor or block, and the free
    list is sorted with no two adjacent blocks.  [__malloc_init] builds such a heap.
    For sizes from 1 to [2^63] - 8 for which the heap would end below [2^63],
    [malloc] keeps it so and returns a block of at least the size asked for, a
    multiple of 8, that was in no other block, and then no byte is lost: the bytes of
    the heap and of the new memory are exactly those of the new heap.  It fails only
    when [brk] refuses a break it needs.  [free] gives the first busy block at the pointer back, merged
    with its neighbours, and ignores any other pointer.  For other sizes it is wrong: [sbrk]
    takes the size as a [long], so a size above that moves the break
    down and returns the old break as the block; and 0, or a size that overflows when it is rounded, gets
    the start of a free block without any byte of it. *)
Theorem malloc_free_correct brk lo h :
  heap_ok lo h ->
  (forall n p h', 0 < n <= 2 ^ 63 - 8 -> _brk h + growth (round_size n) < 2 ^ 63 -> malloc brk h n = Some (p, h') ->
    heap_ok lo h' /\ (p = NULL -> m_busy h' = m_busy h /\ exists a, _brk h < a <= _brk h + growth (round_size n) /\ brk a <> 0) /\
    (p <> NULL -> malloc_post lo h n p h' /\ n <= round_size n < n + 8 /\ round_size n mod 8 = 0)) /\
  (forall n, 0 < n <= 2 ^ 63 - 8 -> _brk h + growth (round_size n) < 2 ^ 63 -> (forall a, _brk h < a <= _brk h + growth (round_size n) -> brk a = 0) -> exists p h', malloc brk h n = Some (p, h') /\ p <> NULL) /\
  (forall p, heap_ok lo (free h p) /\ (forall x, cover (regions (free h p)) x = cover (regions h) x) /\
    (p = NULL \/ (forall n, n ∈ m_busy h -> ptr n <> p) -> free h p = h) /\
    (p <> NULL -> (exists n, n ∈ m_busy h /\ ptr n = p) ->
      exists l1 n l2, m_busy h = l1 ++ n :: l2 /\ ptr n = p /\ m_busy (free h p) = l1 ++ l2)) /\
  (forall h0, 0 < _brk h0 -> _brk h0 + growth 0 < 2 ^ 63 -> (forall a, _brk h0 < a <= _brk h0 + growth 0 -> brk a = 0) -> exists h1, __malloc_init brk h0 = Some h1 /\ heap_ok (_brk h0) h1) /\
  (forall n a l, m_free_node h = a :: l -> 2 ^ 63 - 8 < n <= 2 ^ 64 - 8 -> let nb := _brk h - (2 ^ 64 - round_size n) in 0 <= nb -> brk nb = 0 ->
    exists h', malloc brk h n = Some (_brk h, h') /\ _brk h' = nb /\ nb < _brk h /\ exists node, m_busy h' = m_busy h ++ [node] /\ ptr node = _brk h /\ size node = round_size n) /\
  (forall n a l e f, m_free_node h = a :: l -> m_free h = e :: f -> n = 0 \/ 2 ^ 64 - 8 < n < 2 ^ 64 ->
    exists h', malloc brk h n = Some (ptr e, h') /\ blocks (m_free h') = blocks (m_free h) /\ m_busy h' = m_busy h ++ [mk_node (addr e) (ptr e) 0]).
Proof.
  intros H. split; [|split; [|split; [|split; [|split]]]].
  - intros n p h' Hn Ht Hm. destruct (malloc_ok brk lo h n p h' H Hn Ht Hm) as (H1 & H2 & H3). split; [done|]. split; [done|].
    intros Hp. split; [by apply H3|apply round_size_ok; lia].
  - intros n Hn Ht Hb. by apply (malloc_some brk lo).
  - intros p. destruct (free_ok brk lo h p H) as (H1 & _ & H2 & H3 & H4). done.
  - intros h0 Hb Ht Hbrk. destruct (malloc_init_ok brk h0 Hb Ht Hbrk) as (h1 & E & Hok & _). by exists h1.
  - intros n a l. by apply (malloc_huge brk lo).
  - intros n a l e f. by apply (malloc_zero brk lo).
Qed.

(** A heap of one descriptor in use and one to spare. *)
Definition sample_heap : heap := mk_heap [0x1020] [mk_node 0x1000 0x2000 0x100] [] 0x3000.

Lemma sample_heap_ok : heap_ok 0x1000 sample_heap.
Proof.
  split; cbn [sample_heap m_free m_busy _brk chain ptr size]; [lia| |repeat split; lia|constructor].
  intros x. rewrite cover_regions. cbn [sample_heap m_free_node m_free m_busy fmap list_fmap app addr ptr size blocks node_regions cover].
  destruct (ind_cases 0x1020 sizeof_m_node x) as [[? ->]|[? ->]], (ind_cases 0x1000 sizeof_m_node x) as [[? ->]|[? ->]], (ind_cases 0x2000 0x100 x) as [[? ->]|[? ->]],
    (ind_cases 0x1000 (0x3000 - 0x1000) x) as [[? ->]|[? ->]]; unfold sizeof_m_node in *; lia.
Qed.

(** A kernel that grants 16 MiB. *)
Definition grants (a : Z) : Z := if a <? 2 ^ 24 then 0 else -1.

Lemma malloc_free_correct_witness :
  (exists h', malloc grants sample_heap 13 = Some (0x2000, h') /\ heap_ok 0x1000 h' /\ heap_ok 0x1000 (free h' 0x2000)) /\
  (exists h', malloc grants sample_heap (2 ^ 64 - 0x1000) = Some (0x3000, h') /\ _brk h' = 0x2000).
Proof.
  split.
  - destruct (malloc grants sample_heap 13) as [[p h']|] eqn:E; [|discriminate E]. assert (p = 0x2000) by (vm_compute in E; by injection E as <- _). subst p.
    destruct (proj1 (malloc_free_correct grants 0x1000 sample_heap sample_heap_ok) 13 0x2000 h' ltac:(lia) ltac:(reflexivity) E) as [H _].
    exists h'. split; [reflexivity|]. split; [exact H|]. apply (malloc_free_correct grants 0x1000 h' H).
  - destruct (malloc_free_correct grants 0x1000 sample_heap sample_heap_ok) as (_ & _ & _ & _ & H & _).
    destruct (H (2 ^ 64 - 0x1000) 0x1020 [] eq_refl ltac:(lia) ltac:(vm_compute; discriminate) ltac:(reflexivity)) as (h' & E & Hb & _). exists h'. split; [exact E|]. rewrite Hb. reflexivity.
Defined.
