(* ===== verification/Disk.v ===== *)
(** * The disk server: [srv/disk/disk.c]

    The driver runs against the class [AtaDevice] of what a processor can do to an
    ATA disk: write a register, read the status, move 256 words through the data
    port, wait for the interrupt.  [AtaLaws] states what the ATA standard promises
    about it; the driver's theorems are proved from the laws.  [BlockDevice] is what
    the server promises to a file system in turn, and [disk_block_device] the proof
    that it keeps the promise. *)

From S2P Require Import Prelude Bytes.

Definition PORT_DISK0_ERR_FEATURE : Z := 0x1f1.
Definition PORT_DISK0_SECTOR_CNT : Z := 0x1f2.
Definition PORT_DISK0_SECTOR_LOW : Z := 0x1f3.
Definition PORT_DISK0_SECTOR_MID : Z := 0x1f4.
Definition PORT_DISK0_SECTOR_HIGH : Z := 0x1f5.
Definition PORT_DISK0_DEVICE : Z := 0x1f6.
Definition PORT_DISK0_STATUS_CMD : Z := 0x1f7.
Definition PORT_DISK0_ALT_STA_CTL : Z := 0x3f6.
Definition DISK_STATUS_BUSY : Z := Z.shiftl 1 7.
Definition DISK_STATUS_READY : Z := Z.shiftl 1 6.
Definition DISK_STATUS_REQ : Z := Z.shiftl 1 3.
Definition DISK_STATUS_ERROR : Z := Z.shiftl 1 0.
Definition LBA28_READ_CMD : Z := 0x20.
Definition LBA28_WRITE_CMD : Z := 0x30.
Definition LBA48_READ_CMD : Z := 0x24.
Definition LBA48_WRITE_CMD : Z := 0x34.
Definition IDEN_CMD : Z := 0xEC.
Definition SECTOR_SIZE : Z := 512.
Definition ERROR : Z := -1.
Definition DONE : Z := 0.
Definition UNDONE : Z := 1.

(** ** The hardware *)

Class AtaDevice (D : Type) := {
  outb : Z -> Z -> D -> D;
  inb_status : D -> Z * D;
  innw : D -> list Z * D;
  outnw : list Z -> D -> D;
  intr : D -> D;
  poll_limit : nat }.

Inductive ata_mode := Idle | Reading (lba n : Z) | Writing (lba n : Z).

(** A sector after one of a transfer of [n]. *)
Definition next_mode (f : Z -> Z -> ata_mode) (lba n : Z) : ata_mode := if n =? 1 then Idle else f (lba + 1) (n - 1).

(** ** The driver *)

Section Driver.
Context {D : Type} `{AtaDevice D}.

(** [while (!test) nop();] on the status port *)
Fixpoint poll (fuel : nat) (test : Z -> bool) (d : D) : option D :=
  match fuel with
  | O => None
  | S fuel => let '(v, d) := inb_status d in if test v then Some d else poll fuel test d
  end.

Definition not_busy (v : Z) : bool := Z.land v DISK_STATUS_BUSY =? 0.
Definition has_bit (b v : Z) : bool := negb (Z.land v b =? 0).

(** The registers of a 28-bit and of a 48-bit command. *)
Definition program28 (nsect sector : Z) (d : D) : D :=
  let d := outb PORT_DISK0_DEVICE (u8 (Z.lor 0xe0 (Z.land (Z.shiftr sector 24) 0x0f))) d in
  let d := outb PORT_DISK0_ERR_FEATURE 0 d in
  let d := outb PORT_DISK0_SECTOR_CNT (u8 nsect) d in
  let d := outb PORT_DISK0_SECTOR_LOW (Z.land sector 0xff) d in
  let d := outb PORT_DISK0_SECTOR_MID (Z.land (Z.shiftr sector 8) 0xff) d in
  outb PORT_DISK0_SECTOR_HIGH (Z.land (Z.shiftr sector 16) 0xff) d.

Definition registers (c l m h : Z) (d : D) : D :=
  outb PORT_DISK0_SECTOR_HIGH h (outb PORT_DISK0_SECTOR_MID m (outb PORT_DISK0_SECTOR_LOW l
    (outb PORT_DISK0_SECTOR_CNT c (outb PORT_DISK0_ERR_FEATURE 0 d)))).

Definition program48 (nsect sector : Z) (d : D) : D :=
  let d := outb PORT_DISK0_DEVICE 0x40 d in
  let d := registers (Z.land (Z.shiftr nsect 8) 0xff) (Z.land (Z.shiftr sector 24) 0xff)
             (Z.land (Z.shiftr sector 32) 0xff) (Z.land (Z.shiftr sector 40) 0xff) d in
  registers (Z.land nsect 0xff) (Z.land sector 0xff) (Z.land (Z.shiftr sector 8) 0xff) (Z.land (Z.shiftr sector 16) 0xff) d.

(** [buf] is the first sector of a write. *)
Definition do_request (cmd nsect sector : Z) (buf : list Z) (d : D) : option (Z * D) :=
  d ← poll poll_limit not_busy d;
  if (cmd =? LBA28_WRITE_CMD) || (cmd =? LBA48_WRITE_CMD) then
    let d := (if cmd =? LBA28_WRITE_CMD then program28 else program48) nsect sector d in
    d ← poll poll_limit (has_bit DISK_STATUS_READY) d;
    let d := outb PORT_DISK0_STATUS_CMD cmd d in
    d ← poll poll_limit (has_bit DISK_STATUS_REQ) d;
    Some (0, outnw buf d)
  else if (cmd =? LBA28_READ_CMD) || (cmd =? LBA48_READ_CMD) || (cmd =? IDEN_CMD) then
    let d := (if cmd =? LBA48_READ_CMD then program48 else program28) nsect sector d in
    d ← poll poll_limit (has_bit DISK_STATUS_READY) d;
    Some (0, outb PORT_DISK0_STATUS_CMD cmd d)
  else Some (-1, d).

(** The static [request]: the destination of a read is [out], what a write has
    still to store [inp]; both stand for the memory at [request.buffer]. *)
Record request_t := mk_request { position : Z; rsize : Z; out : list Z; inp : list Z }.

Definition disk_read (r : request_t) (d : D) : Z * request_t * D :=
  let '(v, d) := inb_status d in
  if has_bit DISK_STATUS_ERROR v then (ERROR, r, d)
  else
    let '(buffer, d) := innw d in
    let offset := Z.land (position r) (SECTOR_SIZE - 1) in
    let copysz := if SECTOR_SIZE - offset <? rsize r then SECTOR_SIZE - offset else rsize r in
    let r := mk_request (position r + copysz) (rsize r - copysz) (out r ++ slice offset copysz buffer) (inp r) in
    (if rsize r =? 0 then DONE else UNDONE, r, d).

(** [memset] and [memcpy] of the sector buffer. *)
Definition padded_sector (l : list Z) (n : Z) : list Z := take (Z.to_nat n) l ++ replicate (Z.to_nat (SECTOR_SIZE - n)) 0.

Definition disk_write (r : request_t) (d : D) : option (Z * request_t * D) :=
  let '(v, d) := inb_status d in
  if has_bit DISK_STATUS_ERROR v then Some (ERROR, r, d)
  else if SECTOR_SIZE <? rsize r then
    let r := mk_request (position r) (rsize r - SECTOR_SIZE) (out r) (drop (Z.to_nat SECTOR_SIZE) (inp r)) in
    let copysz := if SECTOR_SIZE <? rsize r then SECTOR_SIZE else rsize r in
    d ← poll poll_limit (has_bit DISK_STATUS_REQ) d;
    Some (UNDONE, r, outnw (padded_sector (inp r) copysz) d)
  else Some (DONE, r, d).

(** [do { _recv(IPC_INTR); ... } while (retval == UNDONE)] *)
Fixpoint transfer_loop (fuel : nat) (write : bool) (r : request_t) (d : D) : option (Z * request_t * D) :=
  match fuel with
  | O => None
  | S fuel =>
      let d := intr d in
      s ← (if write then disk_write r d else Some (disk_read r d));
      let '(ret, r, d) := s in
      if ret =? UNDONE then transfer_loop fuel write r d else Some (ret, r, d)
  end.

(** [sector_per_drq] is the limit of [init_disk].  The result carries the bytes read. *)
Definition transfer (sector_per_drq pos : Z) (buf : list Z) (size : Z) (write : bool) (d : D) : option (Z * list Z * D) :=
  if write && negb (pos mod SECTOR_SIZE =? 0) then Some (ERROR, [], d)
  else
    let pos_base := u64 (lower_div pos SECTOR_SIZE * SECTOR_SIZE) in
    let pos_high := u64 (upper_div (u64 (pos + size)) SECTOR_SIZE * SECTOR_SIZE) in
    let nsect := u64 (pos_high - pos_base) / SECTOR_SIZE in
    if sector_per_drq <? nsect then Some (ERROR, [], d)
    else
      let sector := pos_base / SECTOR_SIZE in
      let r := mk_request pos size [] buf in
      s ← do_request (if write then LBA48_WRITE_CMD else LBA48_READ_CMD) (u16 nsect) sector (take (Z.to_nat SECTOR_SIZE) buf) d;
      t ← transfer_loop (S (Z.to_nat size)) write r s.2;
      let '(ret, r, d) := t in Some (ret, out r, d).

(** ** Identification and partitions *)

(** [disk_identify] into [buffer], which keeps its contents on an error. *)
Definition disk_identify (buffer : list Z) (d : D) : Z * list Z * D :=
  let '(v, d) := inb_status d in
  if has_bit DISK_STATUS_ERROR v then (DONE, buffer, d) else let '(b, d) := innw d in (DONE, b, d).

(** The result and [sector_per_drq]; [irq] is the answer to [register_irq]. *)
Definition init_disk (irq : Z) (buffer : list Z) (d : D) : option (Z * Z * D) :=
  let d := outb PORT_DISK0_ALT_STA_CTL 0 d in
  let d := registers 0 0 0 0 d in
  let d := outb PORT_DISK0_DEVICE 0xe0 d in
  if negb (irq =? 0) then Some (-1, 0, d)
  else
    s ← do_request IDEN_CMD 0 0 [] d;
    let '(_, b, d) := disk_identify buffer (intr s.2) in
    let sector_per_drq := le 2 118 b in
    if (Z.land (le 2 98 b) 0x0100 =? 0) || negb (Z.land (le 2 166 b) 0x0200 =? 0) then Some (-1, sector_per_drq, d)
    else Some (0, sector_per_drq, d).

Definition GPT_SIGNATURE : list Z := [0x45; 0x46; 0x49; 0x20; 0x50; 0x41; 0x52; 0x54].

(** The byte position of a partition of the GPT, -1 for a failure; [mem] says which
    of the two calls of [malloc] succeed. *)
Definition disk_part (mem : bool * bool) (limit part : Z) (d : D) : option (Z * D) :=
  if negb mem.1 then Some (-1, d) else
  t ← transfer limit SECTOR_SIZE [] SECTOR_SIZE false d;
  let '(ret, header, d) := t in
  if negb (ret =? DONE) then Some (-1, d)
  else if negb (bool_decide (slice 0 8 header = GPT_SIGNATURE)) then Some (-1, d)
  else if negb mem.2 then Some (-1, d)
  else
    let pentry := le 8 72 header in
    let pensz := le 4 84 header in
    let base := u64 (u64 (pentry + u32 (pensz * part) / SECTOR_SIZE) * SECTOR_SIZE) in
    let offset := u32 (pensz * part) mod SECTOR_SIZE in
    t ← transfer limit base [] (SECTOR_SIZE * 2) false d;
    let '(ret, buffer, d) := t in
    if negb (ret =? DONE) then Some (-1, d)
    else Some (i64 (le 8 (offset + 32) buffer * SECTOR_SIZE), d).

(** The requests of the message loop; the answer is [retval] and the bytes stored
    into the caller's buffer. *)
Inductive bdev_request := BdevTransfer (pos : Z) (buf : list Z) (size : Z) (write : bool) | BdevPart (part pos size : Z).

Definition handle (mem : bool * bool) (limit : Z) (q : bdev_request) (d : D) : option (Z * list Z * D) :=
  match q with
  | BdevTransfer pos buf size write => transfer limit pos buf size write d
  | BdevPart part pos size =>
      p ← disk_part mem limit part d;
      let part_base := u64 p.1 in
      (* [part_base] is unsigned: the test for a negative result never holds *)
      t ← transfer limit (u64 (part_base + pos)) [] size false p.2;
      let '(ret, l, d) := t in
      if negb (ret =? DONE) then Some (-1, l, d) else Some (i64 part_base, l, d)
  end.
End Driver.

(** ** What the ATA standard promises *)

(** [sector] is the contents of the disk, [mode] the transfer in progress, [lba_of]
    and [count_of] the 48-bit address and the count in the registers. *)
Class AtaLaws (D : Type) `{AtaDevice D} := {
  sector : D -> Z -> list Z;
  mode : D -> ata_mode;
  lba_of : D -> Z;
  count_of : D -> Z;
  al_len : forall d s, length (sector d s) = Z.to_nat SECTOR_SIZE;
  (* reading the status changes nothing, and this device reports no error *)
  al_status : forall d, let '(v, d') := inb_status d in
    sector d' = sector d /\ mode d' = mode d /\ lba_of d' = lba_of d /\ count_of d' = count_of d /\ Z.land v DISK_STATUS_ERROR = 0;
  (* it becomes ready when idle and asks for data while writing *)
  al_idle : forall d, mode d = Idle -> is_Some (poll poll_limit not_busy d) /\ is_Some (poll poll_limit (has_bit DISK_STATUS_READY) d);
  al_req : forall d l n, mode d = Writing l n -> is_Some (poll poll_limit (has_bit DISK_STATUS_REQ) d);
  (* two rounds of register writes give the high and the low bytes of a 48-bit command *)
  al_regs : forall d c1 l3 l4 l5 c0 l0 l1 l2, mode d = Idle ->
    let d' := registers c0 l0 l1 l2 (registers c1 l3 l4 l5 (outb PORT_DISK0_DEVICE 0x40 d)) in
    sector d' = sector d /\ mode d' = Idle /\ count_of d' = c0 + 2 ^ 8 * c1 /\
    lba_of d' = l0 + 2 ^ 8 * l1 + 2 ^ 16 * l2 + 2 ^ 24 * l3 + 2 ^ 32 * l4 + 2 ^ 40 * l5;
  al_read : forall d, mode d = Idle -> 0 < count_of d ->
    let d' := outb PORT_DISK0_STATUS_CMD LBA48_READ_CMD d in sector d' = sector d /\ mode d' = Reading (lba_of d) (count_of d);
  al_write : forall d, mode d = Idle -> 0 < count_of d ->
    let d' := outb PORT_DISK0_STATUS_CMD LBA48_WRITE_CMD d in sector d' = sector d /\ mode d' = Writing (lba_of d) (count_of d);
  al_intr : forall d, sector (intr d) = sector d /\ mode (intr d) = mode d;
  (* a sector through the data port *)
  al_innw : forall d l n, mode d = Reading l n -> 0 < n ->
    let '(b, d') := innw d in b = sector d l /\ sector d' = sector d /\ mode d' = next_mode Reading l n;
  al_outnw : forall d l n b, mode d = Writing l n -> 0 < n -> length b = Z.to_nat SECTOR_SIZE ->
    mode (outnw b d) = next_mode Writing l n /\
    forall s, sector (outnw b d) s = if s =? l then b else sector d s }.

(** ** What the disk server promises *)

(** The byte at a position of the disk. *)
Definition byte_at (sec : Z -> list Z) (x : Z) : Z := default 0 (sec (x / SECTOR_SIZE) !! Z.to_nat (x mod SECTOR_SIZE)).

Definition bytes_at (sec : Z -> list Z) (pos n : Z) : list Z := byte_at sec <$> seqZ pos n.

(** The sectors a request touches. *)
Definition nsectors (pos n : Z) : Z := upper_div (pos + n) SECTOR_SIZE - pos / SECTOR_SIZE.

(** A disk as a file system sees it: bytes by their position, read in ranges and
    written in whole sectors, at most [bd_max] sectors at a time. *)
Class BlockDevice (D : Type) := {
  bd_read : Z -> Z -> D -> option (Z * list Z * D);
  bd_write : Z -> list Z -> D -> option (Z * D);
  (* partition number, position and size; the answer starts with the partition's base *)
  bd_part : Z -> Z -> Z -> D -> option (Z * list Z * D);
  bd_base : D -> Z -> option Z;
  bd_ready : D -> Prop;
  bd_bytes : D -> Z -> Z;
  bd_max : Z;
  bd_read_ok : forall d pos n, bd_ready d -> 0 <= pos -> 0 < n -> pos + n < 2 ^ 57 -> nsectors pos n <= bd_max ->
    exists d', bd_read pos n d = Some (0, bd_bytes d <$> seqZ pos n, d') /\ bd_ready d' /\ forall x, 0 <= x -> bd_bytes d' x = bd_bytes d x;
  bd_write_ok : forall d pos b, bd_ready d -> 0 <= pos -> pos mod SECTOR_SIZE = 0 -> (0 < length b)%nat -> Z.of_nat (length b) mod SECTOR_SIZE = 0 ->
    pos + Z.of_nat (length b) < 2 ^ 57 -> nsectors pos (Z.of_nat (length b)) <= bd_max ->
    exists d', bd_write pos b d = Some (0, d') /\ bd_ready d' /\
      forall x, 0 <= x -> bd_bytes d' x = if (pos <=? x) && (x <? pos + Z.of_nat (length b)) then default 0 (b !! Z.to_nat (x - pos)) else bd_bytes d x;
  bd_part_ok : forall d part base pos n, bd_ready d -> bd_base d part = Some base -> 0 <= base -> 0 <= pos -> 0 < n -> base + pos + n < 2 ^ 57 ->
    nsectors (base + pos) n <= bd_max ->
    exists d', bd_part part pos n d = Some (base, bd_bytes d <$> seqZ (base + pos) n, d') /\ bd_ready d' /\ forall x, 0 <= x -> bd_bytes d' x = bd_bytes d x }.

(** ** Proofs *)

Section Proofs.
Context {D : Type} `{AtaLaws D}.

Lemma poll_keeps fuel test d d' : poll fuel test d = Some d' -> sector d' = sector d /\ mode d' = mode d /\ lba_of d' = lba_of d /\ count_of d' = count_of d.
Proof.
  revert d. induction fuel as [|fuel IH]; intros d; cbn [poll]; [done|]. pose proof (al_status d) as Hs. destruct (inb_status d) as [v d1].
  destruct Hs as (E1 & E2 & E3 & E4 & _). destruct (test v).
  - intros E. injection E as <-. done.
  - intros (-> & -> & -> & ->)%IH. done.
Qed.

(** Bytes of a number. *)
Lemma land_ff x k : 0 <= k -> Z.land (Z.shiftr x k) 0xff = (x / 2 ^ k) mod 2 ^ 8.
Proof. intros. rewrite Z.shiftr_div_pow2 by lia. change 0xff with (Z.ones 8). by rewrite Z.land_ones by lia. Qed.

Lemma split_byte x k : 0 <= k -> x / 2 ^ k = (x / 2 ^ k) mod 2 ^ 8 + 2 ^ 8 * (x / 2 ^ (k + 8)).
Proof.
  intros. rewrite Z.pow_add_r, <- Z.div_div by (try apply pow2_pos; lia). pose proof (Z.div_mod (x / 2 ^ k) (2 ^ 8) ltac:(lia)). lia.
Qed.

Lemma lba_bytes x : 0 <= x < 2 ^ 48 ->
  (x / 2 ^ 0) mod 2 ^ 8 + 2 ^ 8 * ((x / 2 ^ 8) mod 2 ^ 8) + 2 ^ 16 * ((x / 2 ^ 16) mod 2 ^ 8) + 2 ^ 24 * ((x / 2 ^ 24) mod 2 ^ 8) +
    2 ^ 32 * ((x / 2 ^ 32) mod 2 ^ 8) + 2 ^ 40 * ((x / 2 ^ 40) mod 2 ^ 8) = x.
Proof.
  intros Hx. pose proof (split_byte x 0 ltac:(lia)) as E0. pose proof (split_byte x 8 ltac:(lia)) as E1. pose proof (split_byte x 16 ltac:(lia)) as E2.
  pose proof (split_byte x 24 ltac:(lia)) as E3. pose proof (split_byte x 32 ltac:(lia)) as E4. pose proof (split_byte x 40 ltac:(lia)) as E5.
  assert (Ez : x / 2 ^ (40 + 8) = 0) by (apply Z.div_small; lia). rewrite Ez in E5.
  change (0 + 8) with 8 in E0. change (8 + 8) with 16 in E1. change (16 + 8) with 24 in E2. change (24 + 8) with 32 in E3. change (32 + 8) with 40 in E4.
  rewrite (Z.pow_0_r 2), Z.div_1_r in *.
  set (b0 := x mod 2 ^ 8) in *. set (b1 := (x / 2 ^ 8) mod 2 ^ 8) in *. set (b2 := (x / 2 ^ 16) mod 2 ^ 8) in *.
  set (b3 := (x / 2 ^ 24) mod 2 ^ 8) in *. set (b4 := (x / 2 ^ 32) mod 2 ^ 8) in *. set (b5 := (x / 2 ^ 40) mod 2 ^ 8) in *. lia.
Qed.

Lemma program48_ok d nsect s : mode d = Idle -> 0 <= nsect < 2 ^ 16 -> 0 <= s < 2 ^ 48 ->
  let d' := program48 nsect s d in sector d' = sector d /\ mode d' = Idle /\ count_of d' = nsect /\ lba_of d' = s.
Proof.
  intros Hm Hn Hs. unfold program48. cbv zeta.
  destruct (al_regs d (Z.land (Z.shiftr nsect 8) 0xff) (Z.land (Z.shiftr s 24) 0xff) (Z.land (Z.shiftr s 32) 0xff) (Z.land (Z.shiftr s 40) 0xff)
    (Z.land nsect 0xff) (Z.land s 0xff) (Z.land (Z.shiftr s 8) 0xff) (Z.land (Z.shiftr s 16) 0xff) Hm) as (-> & -> & -> & ->).
  split; [done|]. split; [done|]. rewrite !land_ff by lia. change (Z.land nsect 0xff) with (Z.land nsect (Z.ones 8)). change (Z.land s 0xff) with (Z.land s (Z.ones 8)).
  rewrite !Z.land_ones by lia. split.
  - rewrite (Z.mod_small (nsect / 2 ^ 8)); [pose proof (Z.div_mod nsect (2 ^ 8) ltac:(lia)); lia|].
    split; [apply Z.div_pos; lia|apply Z.div_lt_upper_bound; lia].
  - pose proof (lba_bytes s Hs) as E. rewrite (Z.pow_0_r 2), Z.div_1_r in E. exact E.
Qed.

(** A read or write command is under way. *)
Lemma read_request_ok d nsect s b : mode d = Idle -> 0 < nsect < 2 ^ 16 -> 0 <= s < 2 ^ 48 ->
  exists d', do_request LBA48_READ_CMD nsect s b d = Some (0, d') /\ sector d' = sector d /\ mode d' = Reading s nsect.
Proof.
  intros Hm Hn Hs. unfold do_request. destruct (proj1 (al_idle d Hm)) as [d1 E1]. rewrite E1. some_bind. apply poll_keeps in E1 as (S1 & M1 & _).
  cbn [Z.eqb Pos.eqb orb LBA48_READ_CMD LBA28_WRITE_CMD LBA48_WRITE_CMD LBA28_READ_CMD]. cbv iota.
  destruct (program48_ok d1 nsect s ltac:(congruence) ltac:(lia) Hs) as (S2 & M2 & C2 & L2).
  destruct (proj2 (al_idle _ M2)) as [d2 E2]. rewrite E2. some_bind. apply poll_keeps in E2 as (S3 & M3 & L3 & C3).
  destruct (al_read d2) as [S4 M4]; [congruence|lia|]. eexists. split; [reflexivity|]. rewrite S4, M4, L3, C3. split; [congruence|]. by rewrite L2, C2.
Qed.

Lemma write_request_ok d nsect s b : mode d = Idle -> 0 < nsect < 2 ^ 16 -> 0 <= s < 2 ^ 48 -> length b = Z.to_nat SECTOR_SIZE ->
  exists d', do_request LBA48_WRITE_CMD nsect s b d = Some (0, d') /\ (forall x, sector d' x = if x =? s then b else sector d x) /\ mode d' = next_mode Writing s nsect.
Proof.
  intros Hm Hn Hs Hb. unfold do_request. destruct (proj1 (al_idle d Hm)) as [d1 E1]. rewrite E1. some_bind. apply poll_keeps in E1 as (S1 & M1 & _).
  cbn [Z.eqb Pos.eqb orb LBA48_READ_CMD LBA28_WRITE_CMD LBA48_WRITE_CMD LBA28_READ_CMD]. cbv iota.
  destruct (program48_ok d1 nsect s ltac:(congruence) ltac:(lia) Hs) as (S2 & M2 & C2 & L2).
  destruct (proj2 (al_idle _ M2)) as [d2 E2]. rewrite E2. some_bind. apply poll_keeps in E2 as (S3 & M3 & L3 & C3).
  destruct (al_write d2) as [S4 M4]; [congruence|lia|]. rewrite L3, C3, L2, C2 in M4.
  destruct (al_req _ _ _ M4) as [d3 E3]. rewrite E3. some_bind. apply poll_keeps in E3 as (S5 & M5 & _).
  destruct (al_outnw d3 s nsect b) as [M6 S6]; [congruence|lia|done|]. eexists. split; [reflexivity|]. split; [|done].
  intros x. rewrite S6. destruct (x =? s); [done|]. congruence.
Qed.

Lemma bytes_at_lookup sec pos n i : (i < Z.to_nat n)%nat -> bytes_at sec pos n !! i = Some (byte_at sec (pos + Z.of_nat i)).
Proof. intros. unfold bytes_at. rewrite list_lookup_fmap, lookup_seqZ_lt by lia. done. Qed.

Lemma bytes_at_length sec pos n : length (bytes_at sec pos n) = Z.to_nat n.
Proof. unfold bytes_at. by rewrite length_fmap, length_seqZ. Qed.

Lemma bytes_at_app sec pos n k : 0 <= n -> 0 <= k -> bytes_at sec pos (n + k) = bytes_at sec pos n ++ bytes_at sec (pos + n) k.
Proof. intros. unfold bytes_at. by rewrite seqZ_app, fmap_app by lia. Qed.

Lemma byte_at_sector sec l off v : 0 <= off < SECTOR_SIZE -> sec l !! Z.to_nat off = Some v -> byte_at sec (l * SECTOR_SIZE + off) = v.
Proof.
  intros Ho Hv. unfold byte_at. rewrite (Z.add_comm (l * SECTOR_SIZE)), Z.div_add by done. rewrite Z.mod_add by done.
  rewrite Z.div_small, Z.mod_small by done. rewrite Z.add_0_l. by rewrite Hv.
Qed.

(** The part of a sector a read copies. *)
Lemma slice_bytes sec l off n : length (sec l) = Z.to_nat SECTOR_SIZE -> 0 <= off -> 0 <= n -> off + n <= SECTOR_SIZE ->
  slice off n (sec l) = bytes_at sec (l * SECTOR_SIZE + off) n.
Proof.
  intros Hl Ho Hn Hle. apply list_eq. intros i. destruct (decide (i < Z.to_nat n)%nat) as [Hi|Hi].
  - rewrite slice_lookup, bytes_at_lookup by (done || lia). destruct (lookup_lt_is_Some_2 (sec l) (Z.to_nat off + i)) as [v Hv]; [lia|]. rewrite Hv. f_equal. symmetry.
    rewrite <- Z.add_assoc. apply byte_at_sector; [lia|]. rewrite Z2Nat.inj_add, Nat2Z.id by lia. done.
  - rewrite !lookup_ge_None_2; [done|rewrite bytes_at_length; lia|rewrite slice_length by lia; lia].
Qed.

Lemma land_511 x : Z.land x (SECTOR_SIZE - 1) = x mod SECTOR_SIZE.
Proof. change (SECTOR_SIZE - 1) with (Z.ones 9). by rewrite Z.land_ones by lia. Qed.

(** One sector of a read. *)
Lemma disk_read_ok r d l n :
  mode d = Reading l n -> 0 < n -> 0 <= position r -> l = position r / SECTOR_SIZE -> 0 < rsize r ->
  let k := Z.min (SECTOR_SIZE - position r mod SECTOR_SIZE) (rsize r) in
  exists d', disk_read r d = (if rsize r - k =? 0 then DONE else UNDONE, mk_request (position r + k) (rsize r - k) (out r ++ bytes_at (sector d) (position r) k) (inp r), d') /\
    sector d' = sector d /\ mode d' = next_mode Reading l n.
Proof.
  intros Hm Hn Hp Hl Hs k. unfold disk_read. pose proof (al_status d) as Hst. destruct (inb_status d) as [v d1]. destruct Hst as (S1 & M1 & _ & _ & E).
  unfold has_bit. rewrite E. cbn [Z.eqb negb]. rewrite <- M1 in Hm. pose proof (al_innw d1 l n Hm Hn) as Hin. destruct (innw d1) as [b d2].
  destruct Hin as (-> & S2 & M2). rewrite land_511.
  pose proof (Z.mod_pos_bound (position r) SECTOR_SIZE ltac:(done)) as Hmod. assert (Hd : position r = l * SECTOR_SIZE + position r mod SECTOR_SIZE).
  { pose proof (Z.div_mod (position r) SECTOR_SIZE ltac:(done)). rewrite Hl. lia. }
  assert (Hk : (if SECTOR_SIZE - position r mod SECTOR_SIZE <? rsize r then SECTOR_SIZE - position r mod SECTOR_SIZE else rsize r) = k).
  { unfold k. case_if; lia. }
  rewrite Hk. exists d2. cbn [rsize]. rewrite S1, slice_bytes, <- Hd by (try apply al_len; lia). split; [done|]. split; [congruence|done].
Qed.

Lemma nsectors_last p n : 0 <= p -> 0 < n -> p mod SECTOR_SIZE + n <= SECTOR_SIZE -> nsectors p n = 1.
Proof.
  intros. unfold nsectors. pose proof (Z.div_mod p SECTOR_SIZE ltac:(done)). pose proof (Z.mod_pos_bound p SECTOR_SIZE ltac:(done)).
  pose proof (upper_div_spec (p + n) SECTOR_SIZE ltac:(done) ltac:(lia)). unfold SECTOR_SIZE in *. lia.
Qed.

Lemma nsectors_more p n : 0 <= p -> 0 < n -> SECTOR_SIZE < p mod SECTOR_SIZE + n ->
  let k := SECTOR_SIZE - p mod SECTOR_SIZE in
  (p + k) / SECTOR_SIZE = p / SECTOR_SIZE + 1 /\ nsectors (p + k) (n - k) = nsectors p n - 1 /\ 1 < nsectors p n.
Proof.
  intros Hp Hn Hlt k. assert (E : (p + k) / SECTOR_SIZE = p / SECTOR_SIZE + 1).
  { pose proof (Z.div_mod p SECTOR_SIZE ltac:(done)). replace (p + k) with ((p / SECTOR_SIZE + 1) * SECTOR_SIZE) by (unfold k; lia). by apply Z.div_mul. }
  split; [done|]. unfold nsectors. rewrite E. replace (p + k + (n - k)) with (p + n) by lia. split; [lia|].
  pose proof (Z.div_mod p SECTOR_SIZE ltac:(done)). pose proof (Z.mod_pos_bound p SECTOR_SIZE ltac:(done)).
  pose proof (upper_div_spec (p + n) SECTOR_SIZE ltac:(done) ltac:(lia)). unfold SECTOR_SIZE in *. lia.
Qed.

Lemma sector_loop_ok fuel : forall r d,
  (Z.to_nat (rsize r) < fuel)%nat -> 0 <= position r -> 0 < rsize r ->
  mode d = Reading (position r / SECTOR_SIZE) (nsectors (position r) (rsize r)) ->
  exists r' d', transfer_loop fuel false r d = Some (DONE, r', d') /\ out r' = out r ++ bytes_at (sector d) (position r) (rsize r) /\
    sector d' = sector d /\ mode d' = Idle.
Proof.
  induction fuel as [|fuel IH]; intros r d Hf Hp Hs Hm; [lia|]. cbn [transfer_loop]. destruct (al_intr d) as [S0 M0].
  pose proof (Z.mod_pos_bound (position r) SECTOR_SIZE ltac:(done)) as Hmod.
  destruct (decide (position r mod SECTOR_SIZE + rsize r <= SECTOR_SIZE)) as [Hle|Hgt].
  - rewrite (nsectors_last (position r) (rsize r)) in Hm by done. rewrite <- M0 in Hm.
    destruct (disk_read_ok r (intr d) _ 1 Hm ltac:(lia) Hp eq_refl Hs) as (d' & -> & S1 & M1). some_bind. cbv zeta iota.
    rewrite Z.min_r by lia. rewrite Z.sub_diag. cbn [Z.eqb]. change (DONE =? UNDONE) with false. cbv iota. eexists _, d'. split; [reflexivity|]. cbn [out].
    rewrite S0. split; [done|]. split; [congruence|done].
  - destruct (nsectors_more (position r) (rsize r) Hp Hs ltac:(lia)) as (El & En & Hn). rewrite <- M0 in Hm.
    destruct (disk_read_ok r (intr d) _ _ Hm ltac:(lia) Hp eq_refl Hs) as (d' & -> & S1 & M1). some_bind. cbv zeta iota.
    rewrite Z.min_l by lia. rewrite (proj2 (Z.eqb_neq (rsize r - (SECTOR_SIZE - position r mod SECTOR_SIZE)) 0)) by lia.
    change (UNDONE =? UNDONE) with true. cbv iota.
    destruct (IH (mk_request (position r + (SECTOR_SIZE - position r mod SECTOR_SIZE)) (rsize r - (SECTOR_SIZE - position r mod SECTOR_SIZE))
      (out r ++ bytes_at (sector (intr d)) (position r) (SECTOR_SIZE - position r mod SECTOR_SIZE)) (inp r)) d') as (r' & d2 & -> & Eo & S2 & M2);
      cbn [position rsize]; [lia|lia|lia| |].
    { rewrite M1. unfold next_mode. rewrite (proj2 (Z.eqb_neq (nsectors (position r) (rsize r)) 1)) by lia. by rewrite El, En. }
    eexists _, d2. split; [reflexivity|]. rewrite Eo. cbn [out position rsize]. rewrite S1, S0, <- app_assoc, <- bytes_at_app by lia.
    split; [f_equal; f_equal; lia|]. split; [congruence|done].
Qed.

Lemma padded_whole (l : list Z) : (Z.to_nat SECTOR_SIZE <= length l)%nat -> padded_sector l SECTOR_SIZE = slice 0 SECTOR_SIZE l.
Proof. intros. unfold padded_sector, slice. rewrite Z.sub_diag. cbn [Z.to_nat replicate]. by rewrite app_nil_r, drop_0. Qed.

Lemma slice_drop off n k (l : list Z) : 0 <= off -> 0 <= k -> slice off n (drop (Z.to_nat k) l) = slice (k + off) n l.
Proof. intros. unfold slice. rewrite drop_drop. do 2 f_equal. lia. Qed.

(** The rest of a write of [k + 1] sectors, of which the first is done. *)
Lemma write_loop_ok k : forall fuel r d l,
  (k < fuel)%nat -> rsize r = SECTOR_SIZE * (Z.of_nat k + 1) -> Z.of_nat (length (inp r)) = rsize r ->
  mode d = (if Z.of_nat k =? 0 then Idle else Writing l (Z.of_nat k)) ->
  exists r' d', transfer_loop fuel true r d = Some (DONE, r', d') /\ mode d' = Idle /\
    forall x, sector d' x = if (l <=? x) && (x <? l + Z.of_nat k) then slice (SECTOR_SIZE * (x - l + 1)) SECTOR_SIZE (inp r) else sector d x.
Proof.
  induction k as [|k IH]; intros [|fuel] r d l Hf Hs Hl Hm; try lia; cbn [transfer_loop]; destruct (al_intr d) as [S0 M0]; unfold disk_write;
    pose proof (al_status (intr d)) as Hst; destruct (inb_status (intr d)) as [v d1]; destruct Hst as (S1 & M1 & _ & _ & E); unfold has_bit at 1; rewrite E; cbn [Z.eqb negb].
  - rewrite (proj2 (Z.ltb_ge SECTOR_SIZE (rsize r))) by (unfold SECTOR_SIZE in *; lia). some_bind. change (DONE =? UNDONE) with false. cbv iota.
    eexists _, d1. split; [reflexivity|]. rewrite M1, M0. split; [done|]. intros x. rewrite S1, S0.
    destruct (_ && _) eqn:Ex; [apply andb_true_iff in Ex as [E1 E2]; zbool; lia|done].
  - rewrite (proj2 (Z.ltb_lt SECTOR_SIZE (rsize r))) by (unfold SECTOR_SIZE in *; lia). cbn [rsize inp].
    rewrite (proj2 (Z.eqb_neq (Z.of_nat (S k)) 0)) in Hm by lia. assert (Hm1 : mode d1 = Writing l (Z.of_nat (S k))) by congruence.
    destruct (al_req _ _ _ Hm1) as [d2 E2]. rewrite E2. some_bind. apply poll_keeps in E2 as (S2 & M2 & _).
    assert (Ec : (if SECTOR_SIZE <? rsize r - SECTOR_SIZE then SECTOR_SIZE else rsize r - SECTOR_SIZE) = SECTOR_SIZE) by (case_if; unfold SECTOR_SIZE in *; lia).
    rewrite Ec. change (UNDONE =? UNDONE) with true. cbv iota. set (rest := drop (Z.to_nat SECTOR_SIZE) (inp r)).
    assert (Hrest : Z.of_nat (length rest) = SECTOR_SIZE * (Z.of_nat k + 1)) by (unfold rest; rewrite length_drop; unfold SECTOR_SIZE in *; lia).
    assert (Hlen : (Z.to_nat SECTOR_SIZE <= length rest)%nat) by (unfold SECTOR_SIZE in *; lia).
    rewrite padded_whole by done.
    destruct (al_outnw d2 l (Z.of_nat (S k)) (slice 0 SECTOR_SIZE rest)) as [M3 S3]; [congruence|lia|rewrite slice_length by (unfold SECTOR_SIZE in *; lia); done|].
    destruct (IH fuel (mk_request (position r) (rsize r - SECTOR_SIZE) (out r) rest) (outnw (slice 0 SECTOR_SIZE rest) d2) (l + 1)) as (r' & d' & -> & M4 & S4);
      cbn [rsize inp]; [lia|unfold SECTOR_SIZE in *; lia|unfold SECTOR_SIZE in *; lia| |].
    { rewrite M3. unfold next_mode. replace (Z.of_nat (S k) =? 1) with (Z.of_nat k =? 0) by (destruct (Z.eqb_spec (Z.of_nat k) 0), (Z.eqb_spec (Z.of_nat (S k)) 1); lia).
      case_if; [done|]. f_equal; lia. }
    eexists _, d'. split; [reflexivity|]. split; [done|]. intros x. rewrite S4, S3. cbn [inp]. unfold rest. rewrite (slice_drop 0) by done.
    destruct (Z.eqb_spec x l) as [->|Hne].
    + rewrite (proj2 (Z.leb_gt (l + 1) l)) by lia. cbn [andb]. rewrite (proj2 (Z.leb_le l l)), (proj2 (Z.ltb_lt l (l + Z.of_nat (S k)))) by lia.
      cbn [andb]. f_equal. lia.
    + replace ((l + 1 <=? x) && (x <? l + 1 + Z.of_nat k)) with ((l <=? x) && (x <? l + Z.of_nat (S k))).
      2: { destruct (Z.leb_spec l x), (Z.leb_spec (l + 1) x), (Z.ltb_spec x (l + Z.of_nat (S k))), (Z.ltb_spec x (l + 1 + Z.of_nat k)); (done || lia). }
      destruct (_ && _) eqn:Ex; [apply andb_true_iff in Ex as [E3 E4]; zbool; rewrite slice_drop by (unfold SECTOR_SIZE; lia); f_equal; unfold SECTOR_SIZE; lia|]. congruence.
Qed.
Lemma transfer_loop_write_out fuel : forall r d ret r' d', transfer_loop fuel true r d = Some (ret, r', d') -> out r' = out r.
Proof.
  induction fuel as [|fuel IH]; intros r d ret r' d'; cbn [transfer_loop]; [done|]. unfold disk_write. destruct (inb_status (intr d)) as [v d1].
  destruct (has_bit DISK_STATUS_ERROR v); [|destruct (SECTOR_SIZE <? rsize r)].
  - some_bind. change (ERROR =? UNDONE) with false. cbv iota. by intros [= _ <- _].
  - cbn [rsize inp]. destruct (poll _ _ _) as [d2|]; [|done]. some_bind. change (UNDONE =? UNDONE) with true. cbv iota. by intros ->%IH.
  - some_bind. change (DONE =? UNDONE) with false. cbv iota. by intros [= _ <- _].
Qed.

(** *** Whole requests *)

Lemma transfer_geometry pos n : 0 <= pos -> 0 < n -> pos + n < 2 ^ 57 ->
  u64 (lower_div pos SECTOR_SIZE * SECTOR_SIZE) = pos / SECTOR_SIZE * SECTOR_SIZE /\
  u64 (u64 (upper_div (u64 (pos + n)) SECTOR_SIZE * SECTOR_SIZE) - pos / SECTOR_SIZE * SECTOR_SIZE) / SECTOR_SIZE = nsectors pos n /\
  0 < nsectors pos n /\ 0 <= pos / SECTOR_SIZE < 2 ^ 48.
Proof.
  intros Hp Hn Hlt. pose proof (upper_div_spec (pos + n) SECTOR_SIZE ltac:(done) ltac:(lia)) as Hu.
  pose proof (Z.div_mod pos SECTOR_SIZE ltac:(done)) as Hd. pose proof (Z.mod_pos_bound pos SECTOR_SIZE ltac:(done)) as Hm. unfold lower_div, nsectors.
  assert (E1 : u64 (pos / SECTOR_SIZE * SECTOR_SIZE) = pos / SECTOR_SIZE * SECTOR_SIZE) by (apply Z.mod_small; unfold SECTOR_SIZE in *; lia).
  rewrite E1. split; [done|]. assert (E2 : u64 (pos + n) = pos + n) by (apply Z.mod_small; lia). rewrite E2.
  assert (E3 : u64 (upper_div (pos + n) SECTOR_SIZE * SECTOR_SIZE) = upper_div (pos + n) SECTOR_SIZE * SECTOR_SIZE) by (apply Z.mod_small; unfold SECTOR_SIZE in *; lia).
  rewrite E3, <- Z.mul_sub_distr_r. split; [|unfold SECTOR_SIZE in *; lia].
  assert (E4 : u64 ((upper_div (pos + n) SECTOR_SIZE - pos / SECTOR_SIZE) * SECTOR_SIZE) = (upper_div (pos + n) SECTOR_SIZE - pos / SECTOR_SIZE) * SECTOR_SIZE)
    by (apply Z.mod_small; unfold SECTOR_SIZE in *; lia).
  rewrite E4. by apply Z.div_mul.
Qed.

Lemma transfer_read_ok limit pos n buf d :
  mode d = Idle -> 0 <= pos -> 0 < n -> pos + n < 2 ^ 57 -> nsectors pos n <= limit -> limit < 2 ^ 16 ->
  exists d', transfer limit pos buf n false d = Some (DONE, bytes_at (sector d) pos n, d') /\ sector d' = sector d /\ mode d' = Idle.
Proof.
  intros Hm Hp Hn Hlt Hl Hl16. destruct (transfer_geometry pos n Hp Hn Hlt) as (E1 & E2 & Hpos & Hs). unfold transfer. cbn [andb]. cbv zeta.
  rewrite E1, E2. rewrite (proj2 (Z.ltb_ge limit (nsectors pos n))) by lia. rewrite Z.div_mul by done.
  assert (Eu : u16 (nsectors pos n) = nsectors pos n) by (apply Z.mod_small; lia). rewrite Eu.
  destruct (read_request_ok d (nsectors pos n) (pos / SECTOR_SIZE) (take (Z.to_nat SECTOR_SIZE) buf)) as (d1 & -> & S1 & M1); [done|lia|done|]. some_bind. cbn [snd].
  destruct (sector_loop_ok (S (Z.to_nat n)) (mk_request pos n [] buf) d1) as (r' & d2 & -> & Eo & S2 & M2); cbn [rsize position]; [lia|done|done|done|].
  some_bind. cbv iota. exists d2. rewrite Eo. cbn [out app position rsize]. rewrite S1. split; [done|]. split; [congruence|done].
Qed.

Lemma nsectors_aligned pos k : 0 <= pos -> pos mod SECTOR_SIZE = 0 -> 0 <= k -> nsectors pos (SECTOR_SIZE * k) = k.
Proof.
  intros. unfold nsectors. pose proof (Z.div_mod pos SECTOR_SIZE ltac:(done)). unfold upper_div.
  replace (pos + SECTOR_SIZE * k) with ((pos / SECTOR_SIZE + k) * SECTOR_SIZE) by lia. rewrite Z.div_mul, Z.mod_mul by done. cbn. lia.
Qed.

Lemma transfer_write_ok limit pos k buf d :
  mode d = Idle -> 0 <= pos -> pos mod SECTOR_SIZE = 0 -> Z.of_nat (length buf) = SECTOR_SIZE * (Z.of_nat k + 1) ->
  pos + Z.of_nat (length buf) < 2 ^ 57 -> Z.of_nat k + 1 <= limit -> limit < 2 ^ 16 ->
  exists d', transfer limit pos buf (Z.of_nat (length buf)) true d = Some (DONE, [], d') /\ mode d' = Idle /\
    forall x, sector d' x = if (pos / SECTOR_SIZE <=? x) && (x <? pos / SECTOR_SIZE + Z.of_nat k + 1) then slice (SECTOR_SIZE * (x - pos / SECTOR_SIZE)) SECTOR_SIZE buf else sector d x.
Proof.
  intros Hm Hp Ha Hb Hlt Hl Hl16. destruct (transfer_geometry pos (Z.of_nat (length buf)) Hp ltac:(unfold SECTOR_SIZE in *; lia) Hlt) as (E1 & E2 & Hpos & Hs). unfold transfer.
  rewrite Ha. cbn [andb negb Z.eqb]. cbv zeta. rewrite E1, E2. rewrite Hb, nsectors_aligned by lia. rewrite (proj2 (Z.ltb_ge limit (Z.of_nat k + 1))) by lia. rewrite Z.div_mul by done.
  assert (Eu : u16 (Z.of_nat k + 1) = Z.of_nat k + 1) by (apply Z.mod_small; lia). rewrite Eu.
  destruct (write_request_ok d (Z.of_nat k + 1) (pos / SECTOR_SIZE) (take (Z.to_nat SECTOR_SIZE) buf)) as (d1 & -> & S1 & M1); [done|lia|done|rewrite length_take; unfold SECTOR_SIZE in *; lia|].
  some_bind. cbn [snd].
  destruct (write_loop_ok k (S (Z.to_nat (SECTOR_SIZE * (Z.of_nat k + 1)))) (mk_request pos (SECTOR_SIZE * (Z.of_nat k + 1)) [] buf) d1 (pos / SECTOR_SIZE + 1)) as (r' & d2 & Eq & M2 & S2);
    cbn [rsize inp]; [unfold SECTOR_SIZE; lia|done|done| |].
  { rewrite M1. unfold next_mode. replace (Z.of_nat k + 1 - 1) with (Z.of_nat k) by lia.
    destruct (Z.eqb_spec (Z.of_nat k + 1) 1), (Z.eqb_spec (Z.of_nat k) 0); done || lia. }
  rewrite Eq. some_bind. cbv iota. exists d2. pose proof (transfer_loop_write_out _ _ _ _ _ _ Eq) as ->. split; [done|]. split; [done|].
  intros x. rewrite S2, S1. cbn [inp]. destruct (Z.eqb_spec x (pos / SECTOR_SIZE)) as [->|Hne].
  - rewrite (proj2 (Z.leb_gt (pos / SECTOR_SIZE + 1) (pos / SECTOR_SIZE))), (proj2 (Z.leb_le (pos / SECTOR_SIZE) (pos / SECTOR_SIZE))) by lia.
    rewrite (proj2 (Z.ltb_lt (pos / SECTOR_SIZE) (pos / SECTOR_SIZE + Z.of_nat k + 1))) by lia. cbn [andb]. by rewrite Z.sub_diag.
  - destruct (Z.leb_spec (pos / SECTOR_SIZE) x), (Z.leb_spec (pos / SECTOR_SIZE + 1) x), (Z.ltb_spec x (pos / SECTOR_SIZE + Z.of_nat k + 1)), (Z.ltb_spec x (pos / SECTOR_SIZE + 1 + Z.of_nat k));
      cbn [andb]; try lia; try done. f_equal. lia.
Qed.
(** The bytes of the disk after a write. *)
Lemma write_bytes d d' pos k buf x :
  0 <= pos -> pos mod SECTOR_SIZE = 0 -> Z.of_nat (length buf) = SECTOR_SIZE * (Z.of_nat k + 1) ->
  (forall x, sector d' x = if (pos / SECTOR_SIZE <=? x) && (x <? pos / SECTOR_SIZE + Z.of_nat k + 1) then slice (SECTOR_SIZE * (x - pos / SECTOR_SIZE)) SECTOR_SIZE buf else sector d x) ->
  byte_at (sector d') x = if (pos <=? x) && (x <? pos + Z.of_nat (length buf)) then default 0 (buf !! Z.to_nat (x - pos)) else byte_at (sector d) x.
Proof.
  intros Hp Ha Hb HS. unfold byte_at. rewrite HS, Hb. pose proof (Z.div_mod pos SECTOR_SIZE ltac:(done)) as Hd. rewrite Ha, Z.add_0_r in Hd.
  pose proof (Z.div_mod x SECTOR_SIZE ltac:(done)) as Hx. pose proof (Z.mod_pos_bound x SECTOR_SIZE ltac:(done)) as Hm.
  destruct (Z.leb_spec (pos / SECTOR_SIZE) (x / SECTOR_SIZE)), (Z.ltb_spec (x / SECTOR_SIZE) (pos / SECTOR_SIZE + Z.of_nat k + 1)),
    (Z.leb_spec pos x), (Z.ltb_spec x (pos + SECTOR_SIZE * (Z.of_nat k + 1))); cbn [andb]; try done; try (unfold SECTOR_SIZE in *; lia).
  rewrite slice_lookup by (unfold SECTOR_SIZE in *; lia). f_equal. f_equal. unfold SECTOR_SIZE in *. lia.
Qed.

Definition disk_bd_write (limit pos : Z) (b : list Z) (d : D) : option (Z * D) :=
  t ← transfer limit pos b (Z.of_nat (length b)) true d; Some (t.1.1, t.2).

Lemma disk_bd_write_ok limit pos b d :
  limit < 2 ^ 16 -> mode d = Idle -> 0 <= pos -> pos mod SECTOR_SIZE = 0 -> (0 < length b)%nat -> Z.of_nat (length b) mod SECTOR_SIZE = 0 ->
  pos + Z.of_nat (length b) < 2 ^ 57 -> nsectors pos (Z.of_nat (length b)) <= limit ->
  exists d', transfer limit pos b (Z.of_nat (length b)) true d = Some (DONE, [], d') /\ mode d' = Idle /\
    forall x, byte_at (sector d') x = if (pos <=? x) && (x <? pos + Z.of_nat (length b)) then default 0 (b !! Z.to_nat (x - pos)) else byte_at (sector d) x.
Proof.
  intros Hl Hm Hp Ha Hne Hb Hlt Hn. set (k := Z.to_nat (Z.of_nat (length b) / SECTOR_SIZE - 1)).
  assert (Hk : Z.of_nat (length b) = SECTOR_SIZE * (Z.of_nat k + 1)).
  { pose proof (Z.div_mod (Z.of_nat (length b)) SECTOR_SIZE ltac:(done)). unfold k, SECTOR_SIZE in *. lia. }
  destruct (transfer_write_ok limit pos k b d) as (d' & E & M & HS); try done.
  { rewrite Hk, nsectors_aligned in Hn by lia. lia. }
  exists d'. split; [done|]. split; [done|]. intros x. by apply (write_bytes d d' pos k b x).
Qed.

(** *** Partitions *)

Lemma slice_bytes_at sec pos n off k : 0 <= off -> 0 <= k -> off + k <= n -> slice off k (bytes_at sec pos n) = bytes_at sec (pos + off) k.
Proof.
  intros. apply list_eq. intros i. destruct (decide (i < Z.to_nat k)%nat) as [Hi|Hi].
  - rewrite slice_lookup, !bytes_at_lookup by lia. do 2 f_equal. lia.
  - rewrite !lookup_ge_None_2; [done|rewrite bytes_at_length; lia|rewrite slice_length by (rewrite ?bytes_at_length; lia); lia].
Qed.

(** The fields of the GPT header, which is in sector 1, and of entry [part]. *)
Definition gpt_pentry (sec : Z -> list Z) : Z := le_val (bytes_at sec (SECTOR_SIZE + 72) 8).
Definition gpt_pensz (sec : Z -> list Z) : Z := le_val (bytes_at sec (SECTOR_SIZE + 84) 4).
Definition gpt_first_lba (sec : Z -> list Z) (part : Z) : Z :=
  le_val (bytes_at sec (gpt_pentry sec * SECTOR_SIZE + gpt_pensz sec * part + 32) 8).

Lemma disk_part_ok limit part d :
  mode d = Idle -> 3 <= limit < 2 ^ 16 -> bytes_at (sector d) SECTOR_SIZE 8 = GPT_SIGNATURE ->
  0 <= gpt_pentry (sector d) < 2 ^ 40 -> 0 <= gpt_pensz (sector d) * part < 2 ^ 32 ->
  exists d', disk_part (true, true) limit part d = Some (i64 (gpt_first_lba (sector d) part * SECTOR_SIZE), d') /\
    sector d' = sector d /\ mode d' = Idle.
Proof.
  intros Hm Hl Hsig Hpe Hpz. unfold disk_part. cbn [negb fst snd].
  assert (N1 : nsectors SECTOR_SIZE SECTOR_SIZE = 1) by done.
  destruct (transfer_read_ok limit SECTOR_SIZE SECTOR_SIZE [] d) as (d1 & -> & S1 & M1); try done; [lia|lia|]. some_bind. cbv iota.
  change (DONE =? DONE) with true. cbn [negb]. rewrite slice_bytes_at by (unfold SECTOR_SIZE; lia). rewrite Z.add_0_r, Hsig.
  rewrite bool_decide_true by done. cbn [negb]. unfold le. rewrite !slice_bytes_at by (unfold SECTOR_SIZE; lia).
  change (le_val (bytes_at (sector d) (SECTOR_SIZE + 72) 8)) with (gpt_pentry (sector d)).
  change (le_val (bytes_at (sector d) (SECTOR_SIZE + 84) 4)) with (gpt_pensz (sector d)).
  set (pe := gpt_pentry (sector d)) in *. set (o := gpt_pensz (sector d) * part) in *. cbv zeta.
  assert (Eo : u32 o = o) by (apply Z.mod_small; lia). rewrite Eo. pose proof (Z.div_mod o SECTOR_SIZE ltac:(done)) as Hd.
  pose proof (Z.mod_pos_bound o SECTOR_SIZE ltac:(done)) as Hmo.
  assert (E1 : u64 (pe + o / SECTOR_SIZE) = pe + o / SECTOR_SIZE) by (apply Z.mod_small; unfold SECTOR_SIZE in *; lia). rewrite E1.
  assert (E2 : u64 ((pe + o / SECTOR_SIZE) * SECTOR_SIZE) = (pe + o / SECTOR_SIZE) * SECTOR_SIZE) by (apply Z.mod_small; unfold SECTOR_SIZE in *; lia). rewrite E2.
  destruct (transfer_read_ok limit ((pe + o / SECTOR_SIZE) * SECTOR_SIZE) (SECTOR_SIZE * 2) [] d1) as (d2 & -> & S2 & M2); try done;
    [unfold SECTOR_SIZE in *; lia|unfold SECTOR_SIZE in *; lia|rewrite nsectors_aligned by (rewrite ?Z.mod_mul by done; unfold SECTOR_SIZE in *; lia); lia|lia|].
  some_bind. cbv iota. change (DONE =? DONE) with true. cbn [negb]. rewrite slice_bytes_at by (unfold SECTOR_SIZE in *; lia).
  eexists d2. split; [|split; [congruence|done]]. unfold gpt_first_lba. fold pe o. rewrite S1.
  replace ((pe + o / SECTOR_SIZE) * SECTOR_SIZE + (o mod SECTOR_SIZE + 32)) with (pe * SECTOR_SIZE + o + 32) by lia. done.
Qed.
Lemma handle_part_ok limit part pos n d :
  mode d = Idle -> 3 <= limit < 2 ^ 16 -> bytes_at (sector d) SECTOR_SIZE 8 = GPT_SIGNATURE ->
  0 <= gpt_pentry (sector d) < 2 ^ 40 -> 0 <= gpt_pensz (sector d) * part < 2 ^ 32 ->
  let base := gpt_first_lba (sector d) part * SECTOR_SIZE in
  0 <= base -> 0 <= pos -> 0 < n -> base + pos + n < 2 ^ 57 -> nsectors (base + pos) n <= limit ->
  exists d', handle (true, true) limit (BdevPart part pos n) d = Some (base, bytes_at (sector d) (base + pos) n, d') /\ sector d' = sector d /\ mode d' = Idle.
Proof.
  intros Hm Hl Hsig Hpe Hpz base Hb Hp Hn Hlt Hns. cbn [handle]. destruct (disk_part_ok limit part d) as (d1 & -> & S1 & M1); try done. some_bind. cbn [fst snd]. cbv zeta.
  fold base. assert (E : u64 (i64 base) = base).
  { unfold i64, swrap, u64, uwrap. rewrite (Z.mod_small (base + _)) by lia. rewrite Z.add_simpl_r. apply Z.mod_small. lia. }
  rewrite E. assert (E2 : u64 (base + pos) = base + pos) by (apply Z.mod_small; lia). rewrite E2.
  destruct (transfer_read_ok limit (base + pos) n [] d1) as (d2 & -> & S2 & M2); try done; [lia|lia|]. some_bind. cbv iota. change (DONE =? DONE) with true. cbn [negb].
  exists d2. rewrite S1. split; [|split; [congruence|done]]. do 3 f_equal. unfold i64, swrap. rewrite Z.mod_small by lia. lia.
Qed.

(** The partitions whose entry the driver can compute without overflow. *)
Definition part_base (limit : Z) (sec : Z -> list Z) (part : Z) : option Z :=
  if (3 <=? limit) && bool_decide (bytes_at sec SECTOR_SIZE 8 = GPT_SIGNATURE) && ((0 <=? gpt_pentry sec) && (gpt_pentry sec <? 2 ^ 40)) &&
     ((0 <=? gpt_pensz sec * part) && (gpt_pensz sec * part <? 2 ^ 32))
  then Some (gpt_first_lba sec part * SECTOR_SIZE) else None.

(** The disk server keeps the promise of a block device. *)
#[global, program] Instance disk_block_device (limit : Z) (Hl : limit < 2 ^ 16) : BlockDevice D := {
  bd_read pos n d := transfer limit pos [] n false d;
  bd_write pos b d := disk_bd_write limit pos b d;
  bd_part part pos n d := handle (true, true) limit (BdevPart part pos n) d;
  bd_base d part := part_base limit (sector d) part;
  bd_ready d := mode d = Idle;
  bd_bytes d x := byte_at (sector d) x;
  bd_max := limit }.
Next Obligation.
  intros limit Hl d pos n Hm Hp Hn Hlt Hs. destruct (transfer_read_ok limit pos n [] d) as (d' & E & S1 & M1); try done. exists d'. rewrite S1. done.
Qed.
Next Obligation.
  intros limit Hl d pos b Hm Hp Ha Hne Hb Hlt Hs. destruct (disk_bd_write_ok limit pos b d) as (d' & E & M & HS); try done. exists d'.
  unfold disk_bd_write. rewrite E. split; [done|]. split; [done|]. intros x _. apply HS.
Qed.
Next Obligation.
  intros limit Hl d part base pos n Hm Eb Hb Hp Hn Hlt Hs. revert Eb. unfold part_base. case_if; [|done]. intros [= <-].
  destruct (handle_part_ok limit part pos n d) as (d' & E' & S1 & M1); try done; try lia.
  { by eapply bool_decide_eq_true_1. }
  exists d'. rewrite S1. done.
Qed.

(** Refused requests leave the device alone. *)
Lemma transfer_refused limit pos n buf write d :
  0 <= pos -> 0 < n -> pos + n < 2 ^ 57 -> (write = true /\ pos mod SECTOR_SIZE <> 0) \/ limit < nsectors pos n ->
  transfer limit pos buf n write d = Some (ERROR, [], d).
Proof.
  intros Hp Hn Hlt Hbad. destruct (transfer_geometry pos n Hp Hn Hlt) as (E1 & E2 & _). unfold transfer. cbv zeta. rewrite E1, E2.
  destruct Hbad as [[-> Hz]|Hz].
  - rewrite (proj2 (Z.eqb_neq _ _) Hz). done.
  - rewrite (proj2 (Z.ltb_lt _ _) Hz). by destruct (write && _).
Qed.

(** C34: the disk server.  On an ATA device that keeps the standard's promises, a
    read request within the transfer limit returns exactly the bytes of the disk from
    the requested position, whatever its alignment, and leaves the disk as it was; a
    write of whole sectors stores exactly its bytes and nothing else; an unaligned write
    or a request over the limit is refused without touching the device; and a partition
    request finds the partition in the GPT and reads relative to its start. *)
Theorem disk_server_correct (limit : Z) (d : D) :
  mode d = Idle -> 3 <= limit < 2 ^ 16 ->
  (forall pos n buf, 0 <= pos -> 0 < n -> pos + n < 2 ^ 57 -> nsectors pos n <= limit ->
    exists d', handle (true, true) limit (BdevTransfer pos buf n false) d = Some (DONE, bytes_at (sector d) pos n, d') /\ sector d' = sector d /\ mode d' = Idle) /\
  (forall pos b, 0 <= pos -> pos mod SECTOR_SIZE = 0 -> (0 < length b)%nat -> Z.of_nat (length b) mod SECTOR_SIZE = 0 -> pos + Z.of_nat (length b) < 2 ^ 57 ->
    nsectors pos (Z.of_nat (length b)) <= limit ->
    exists d', handle (true, true) limit (BdevTransfer pos b (Z.of_nat (length b)) true) d = Some (DONE, [], d') /\ mode d' = Idle /\
      forall x, byte_at (sector d') x = if (pos <=? x) && (x <? pos + Z.of_nat (length b)) then default 0 (b !! Z.to_nat (x - pos)) else byte_at (sector d) x) /\
  (forall pos n buf write, 0 <= pos -> 0 < n -> pos + n < 2 ^ 57 -> (write = true /\ pos mod SECTOR_SIZE <> 0) \/ limit < nsectors pos n ->
    handle (true, true) limit (BdevTransfer pos buf n write) d = Some (ERROR, [], d)) /\
  (forall part pos n, bytes_at (sector d) SECTOR_SIZE 8 = GPT_SIGNATURE ->
    0 <= gpt_pentry (sector d) < 2 ^ 40 -> 0 <= gpt_pensz (sector d) * part < 2 ^ 32 ->
    let base := gpt_first_lba (sector d) part * SECTOR_SIZE in
    0 <= base -> 0 <= pos -> 0 < n -> base + pos + n < 2 ^ 57 -> nsectors (base + pos) n <= limit ->
    exists d', handle (true, true) limit (BdevPart part pos n) d = Some (base, bytes_at (sector d) (base + pos) n, d') /\ sector d' = sector d /\ mode d' = Idle).
Proof.
  intros Hm Hl. split; [|split; [|split]].
  - intros. apply transfer_read_ok; (done || lia).
  - intros. apply disk_bd_write_ok; (done || lia).
  - intros. by apply transfer_refused.
  - intros. by apply handle_part_ok.
Qed.
End Proofs.

(** ** A device that keeps the laws *)

(** Each register keeps its last two values. *)
Record sim := mk_sim { sim_sec : Z -> list Z; sim_mode : ata_mode; sim_cnt : Z * Z; sim_low : Z * Z; sim_mid : Z * Z; sim_high : Z * Z }.

Definition sector512 (l : list Z) : list Z := take (Z.to_nat SECTOR_SIZE) (l ++ replicate (Z.to_nat SECTOR_SIZE) 0).

Definition sim_lba (d : sim) : Z :=
  (sim_low d).1 + 2 ^ 8 * (sim_mid d).1 + 2 ^ 16 * (sim_high d).1 + 2 ^ 24 * (sim_low d).2 + 2 ^ 32 * (sim_mid d).2 + 2 ^ 40 * (sim_high d).2.
Definition sim_count (d : sim) : Z := (sim_cnt d).1 + 2 ^ 8 * (sim_cnt d).2.

Definition sim_with_mode (m : ata_mode) (d : sim) : sim := mk_sim (sim_sec d) m (sim_cnt d) (sim_low d) (sim_mid d) (sim_high d).

Definition sim_outb (p v : Z) (d : sim) : sim :=
  let '(mk_sim s m c l mi h) := d in
  if p =? PORT_DISK0_SECTOR_CNT then mk_sim s m (v, c.1) l mi h
  else if p =? PORT_DISK0_SECTOR_LOW then mk_sim s m c (v, l.1) mi h
  else if p =? PORT_DISK0_SECTOR_MID then mk_sim s m c l (v, mi.1) h
  else if p =? PORT_DISK0_SECTOR_HIGH then mk_sim s m c l mi (v, h.1)
  else if p =? PORT_DISK0_STATUS_CMD then
    sim_with_mode (if v =? LBA48_READ_CMD then Reading (sim_lba d) (sim_count d) else if v =? LBA48_WRITE_CMD then Writing (sim_lba d) (sim_count d) else m) d
  else d.

#[global] Instance sim_device : AtaDevice sim := {
  outb := sim_outb;
  inb_status d := (0x48, d);
  innw d := match sim_mode d with
    | Reading l n => (sector512 (sim_sec d l), sim_with_mode (next_mode Reading l n) d)
    | _ => ([], d)
    end;
  outnw b d := match sim_mode d with
    | Writing l n => mk_sim (fun s => if s =? l then b else sim_sec d s) (next_mode Writing l n) (sim_cnt d) (sim_low d) (sim_mid d) (sim_high d)
    | _ => d
    end;
  intr d := d;
  poll_limit := 1%nat }.

Lemma sector512_length l : length (sector512 l) = Z.to_nat SECTOR_SIZE.
Proof. unfold sector512. rewrite length_take, length_app, length_replicate. lia. Qed.

Lemma sector512_id l : length l = Z.to_nat SECTOR_SIZE -> sector512 l = l.
Proof. intros E. unfold sector512. rewrite <- E. apply take_app_length. Qed.

#[global, program] Instance sim_laws : AtaLaws sim := {
  sector d s := sector512 (sim_sec d s); mode := sim_mode; lba_of := sim_lba; count_of := sim_count }.
Next Obligation. intros. apply sector512_length. Qed.
Next Obligation. done. Qed.
Next Obligation. intros d Hd. split; by exists d. Qed.
Next Obligation. intros d l n Hd. by exists d. Qed.
Next Obligation. intros [s m c l mi h] c1 l3 l4 l5 c0 l0 l1 l2 Hm. done. Qed.
Next Obligation. intros [s m c l mi h] Hm Hc. done. Qed.
Next Obligation. intros [s m c l mi h] Hm Hc. done. Qed.
Next Obligation. done. Qed.
Next Obligation. intros d l n Hm Hn. cbn. rewrite Hm. done. Qed.
Next Obligation.
  intros d l n b Hm Hn Hb. cbn. rewrite Hm. split; [done|]. intros s. cbn. destruct (s =? l); [by apply sector512_id|done].
Qed.

(** A disk with a GPT whose entry 1 starts at sector 4. *)
Definition sim_gpt : sim :=
  mk_sim (fun s => if s =? 1 then GPT_SIGNATURE ++ replicate 64 0 ++ [2] ++ replicate 11 0 ++ [128]
                   else if s =? 2 then replicate 160 0 ++ [4]
                   else if s =? 4 then [7; 8; 9] else []) Idle (0, 0) (0, 0) (0, 0) (0, 0).

Lemma disk_server_correct_witness :
  mode sim_gpt = Idle /\ exists d', handle (true, true) 8 (BdevPart 1 0 600) sim_gpt = Some (2048, bytes_at (sector sim_gpt) 2048 600, d').
Proof.
  assert (Hm : mode sim_gpt = Idle) by done. split; [done|]. destruct (disk_server_correct 8 sim_gpt Hm ltac:(lia)) as (_ & _ & _ & Hp).
  destruct (Hp 1 0 600) as (d' & E & _); [vm_compute; done|vm_compute; done|vm_compute; done|vm_compute; done|done|done|vm_compute; done|vm_compute; done|].
  exists d'. exact E.
Defined.
