(* ===== verification/Ext2.v ===== *)
(** * The ext2 server: [srv/ext2/main.c], [srv/ext2/cache.c], [libc/fs.c]

    The server runs on the [BlockDevice] the disk server implements ([Disk.v]).  Its
    operations are computations of the monad [SO] on the state [st]: [None] is a loop
    that does not end or an access outside an object.  Blocks are lists of bytes;
    the structures of the file system are decoded from and encoded into them. *)

From S2P Require Import Prelude Bytes Disk.

Definition EXT2_SUPER_MAGIC : Z := 0xEF53.
Definition EXT2_ROOT_INO : Z := 2.
Definition EXT2_FT_DIR : Z := 2.
Definition NR_INODE_BLOCK : nat := 15.
Definition INDOE_HASH_MAP_SIZE : Z := 1024.
Definition SIZEOF_INODE : Z := 128.
Definition SIZEOF_GROUP_DESC : Z := 32.
Definition SIZEOF_LINKED_DIRECTORY : Z := 8.
Definition OFFSETOF_D_NAME : Z := 25.

(** ** Structures on the disk *)

Record group_desc := mk_gd { bg_block_bitmap : Z; bg_inode_bitmap : Z; bg_inode_table : Z }.

(** The fields the server uses, and its private ones. *)
Record super_block := mk_sb {
  s_blocks_count : Z; s_first_data_block : Z; s_log_block_size : Z; s_blocks_per_group : Z; s_inodes_per_group : Z; s_magic : Z; s_inode_size : Z;
  partition_offset : Z; block_size : Z; nr_group : Z; group_desc_table : list group_desc }.

Record inode := mk_inode {
  i_mode : Z; i_uid : Z; i_size : Z; i_atime : Z; i_ctime : Z; i_mtime : Z; i_dtime : Z; i_gid : Z; i_links_count : Z; i_blocks : Z; i_flags : Z;
  osd1 : Z; i_block : list Z; i_generation : Z; i_file_acl : Z; i_dir_acl : Z; i_faddr : Z; osd2 : list Z }.

(** A load and a store inside a block. *)
Definition rd (n off : Z) (buf : list Z) : option Z :=
  if (0 <=? off) && (off + n <=? Z.of_nat (length buf)) then Some (le n off buf) else None.

Definition wr_bytes (off : Z) (b buf : list Z) : option (list Z) :=
  if (0 <=? off) && (off + Z.of_nat (length b) <=? Z.of_nat (length buf)) then Some (splice off b buf) else None.

Definition wr (n off v : Z) (buf : list Z) : option (list Z) := wr_bytes off (enc (Z.to_nat n) v) buf.

Definition decode_super (l : list Z) : super_block :=
  mk_sb (le 4 4 l) (le 4 20 l) (le 4 24 l) (le 4 32 l) (le 4 40 l) (le 2 56 l) (le 2 88 l) 0 0 0 [].

Definition decode_gd (l : list Z) : group_desc := mk_gd (le 4 0 l) (le 4 4 l) (le 4 8 l).

Definition decode_inode (l : list Z) : inode :=
  mk_inode (le 2 0 l) (le 2 2 l) (le 4 4 l) (le 4 8 l) (le 4 12 l) (le 4 16 l) (le 4 20 l) (le 2 24 l) (le 2 26 l) (le 4 28 l) (le 4 32 l) (le 4 36 l)
    ((fun i => le 4 (40 + 4 * i) l) <$> seqZ 0 15) (le 4 100 l) (le 4 104 l) (le 4 108 l) (le 4 112 l) (slice 116 12 l).

Definition encode_inode (i : inode) : list Z :=
  enc 2 (i_mode i) ++ enc 2 (i_uid i) ++ enc 4 (i_size i) ++ enc 4 (i_atime i) ++ enc 4 (i_ctime i) ++ enc 4 (i_mtime i) ++ enc 4 (i_dtime i) ++
  enc 2 (i_gid i) ++ enc 2 (i_links_count i) ++ enc 4 (i_blocks i) ++ enc 4 (i_flags i) ++ enc 4 (osd1 i) ++ (i_block i ≫= enc 4) ++
  enc 4 (i_generation i) ++ enc 4 (i_file_acl i) ++ enc 4 (i_dir_acl i) ++ enc 4 (i_faddr i) ++ osd2 i.

Definition set_i_size (v : Z) (i : inode) : inode :=
  mk_inode (i_mode i) (i_uid i) v (i_atime i) (i_ctime i) (i_mtime i) (i_dtime i) (i_gid i) (i_links_count i) (i_blocks i) (i_flags i) (osd1 i) (i_block i) (i_generation i) (i_file_acl i) (i_dir_acl i) (i_faddr i) (osd2 i).
Definition set_i_block (n : nat) (no blocks : Z) (i : inode) : inode :=
  mk_inode (i_mode i) (i_uid i) (i_size i) (i_atime i) (i_ctime i) (i_mtime i) (i_dtime i) (i_gid i) (i_links_count i) blocks (i_flags i) (osd1 i) (<[n := no]> (i_block i)) (i_generation i) (i_file_acl i) (i_dir_acl i) (i_faddr i) (osd2 i).
Definition set_i_links_count (v : Z) (i : inode) : inode :=
  mk_inode (i_mode i) (i_uid i) (i_size i) (i_atime i) (i_ctime i) (i_mtime i) (i_dtime i) (i_gid i) v (i_blocks i) (i_flags i) (osd1 i) (i_block i) (i_generation i) (i_file_acl i) (i_dir_acl i) (i_faddr i) (osd2 i).

(** [memset(inode, 0, ...)], the mode and the owner. *)
Definition new_inode (mode uid gid : Z) : inode := mk_inode (u16 mode) uid 0 0 0 0 0 gid 0 0 0 0 (replicate 15 0) 0 0 0 0 (replicate 12 0).

(** ** The server's state *)

(** What [malloc] leaves in the memory it returns, by the number of the call. *)
Class Heap := {
  heap_bytes : nat -> Z -> list Z;
  heap_bytes_len : forall k n, 0 <= n -> length (heap_bytes k n) = Z.to_nat n }.

(** [inode_map] holds the lists of [__inode_hash_map], [buffers] the free list of
    [buffer_pool] with what the buffers contain. *)
Record st (D : Type) := mk_st {
  dev : D; super : option super_block; inode_map : gmap Z (list (Z * inode)); buffers : list (list Z); buffer_size : Z; mallocs : nat; array_ladder : list Z }.
Arguments mk_st {D}.
Arguments dev {D}.
Arguments super {D}.
Arguments inode_map {D}.
Arguments buffers {D}.
Arguments buffer_size {D}.
Arguments mallocs {D}.
Arguments array_ladder {D}.

Section State.
Context {D : Type}.
Definition set_dev (d : D) (s : st D) : st D := mk_st d (super s) (inode_map s) (buffers s) (buffer_size s) (mallocs s) (array_ladder s).
Definition set_super (b : super_block) (s : st D) : st D := mk_st (dev s) (Some b) (inode_map s) (buffers s) (buffer_size s) (mallocs s) (array_ladder s).
Definition set_inode_map (m : gmap Z (list (Z * inode))) (s : st D) : st D := mk_st (dev s) (super s) m (buffers s) (buffer_size s) (mallocs s) (array_ladder s).
Definition set_buffers (l : list (list Z)) (k : nat) (s : st D) : st D := mk_st (dev s) (super s) (inode_map s) l (buffer_size s) k (array_ladder s).
Definition set_buffer_size (n : Z) (s : st D) : st D := mk_st (dev s) (super s) (inode_map s) [] n (mallocs s) (array_ladder s).
Definition set_array_ladder (l : list Z) (s : st D) : st D := mk_st (dev s) (super s) (inode_map s) (buffers s) (buffer_size s) (mallocs s) l.
End State.

(** The computations of the server. *)
Abbreviation M D := (SO (st D)).

Section Ext2.
Context {D : Type} `{BlockDevice D} `{Heap}.

(** ** [cache.c] *)

Definition put_inode_map (ino : Z) (i : inode) : M D unit :=
  modify (fun s => let b := ino mod INDOE_HASH_MAP_SIZE in set_inode_map (<[b := (ino, i) :: default [] (inode_map s !! b)]> (inode_map s)) s).

Fixpoint find_ino (ino : Z) (l : list (Z * inode)) : option inode :=
  match l with
  | [] => None
  | (k, i) :: l => if k =? ino then Some i else find_ino ino l
  end.

Definition get_inode_map (ino : Z) : M D (option inode) :=
  gets (fun s => find_ino ino (default [] (inode_map s !! (ino mod INDOE_HASH_MAP_SIZE)))).

(** A store through the pointer a node of the map holds. *)
Fixpoint upd_ino (ino : Z) (f : inode -> inode) (l : list (Z * inode)) : list (Z * inode) :=
  match l with
  | [] => []
  | (k, i) :: l => if k =? ino then (k, f i) :: l else (k, i) :: upd_ino ino f l
  end.

Definition store_inode (ino : Z) (f : inode -> inode) : M D unit :=
  modify (fun s => let b := ino mod INDOE_HASH_MAP_SIZE in set_inode_map (<[b := upd_ino ino f (default [] (inode_map s !! b))]> (inode_map s)) s).

Definition init_inode_map : M D unit := modify (set_inode_map ∅).

Definition init_buffer_pool (n : Z) : M D unit := modify (set_buffer_size n).

Definition get_block_buffer : M D (list Z) := fun s =>
  match buffers s with
  | [] => Some (heap_bytes (mallocs s) (buffer_size s), set_buffers [] (S (mallocs s)) s)
  | b :: l => Some (b, set_buffers l (mallocs s) s)
  end.

Definition put_block_buffer (b : list Z) : M D unit := modify (fun s => set_buffers (b :: buffers s) (mallocs s) s).

(** ** Blocks and inodes *)

(** The contents of [buf] after [bdev_read] wrote into it. *)
Definition ext2_bdev_read (sb : super_block) (pos : Z) (buf : list Z) (size : Z) : M D (Z * list Z) := fun s =>
  match bd_read (u64 (partition_offset sb + pos)) size (dev s) with
  | Some (ret, l, d) => Some ((if ret =? 0 then 0 else -1, l ++ drop (length l) buf), set_dev d s)
  | None => None
  end.

Definition ext2_bdev_write (sb : super_block) (pos : Z) (buf : list Z) (size : Z) : M D Z := fun s =>
  match bd_write (u64 (partition_offset sb + pos)) (take (Z.to_nat size) buf) (dev s) with
  | Some (ret, d) => Some (if ret =? 0 then 0 else -1, set_dev d s)
  | None => None
  end.

Definition get_super_block : M D (option super_block) := gets super.

(** The block of the inode table and the byte in it that hold inode [ino]. *)
Definition inode_place (sb : super_block) (ino : Z) : M D (Z * Z) :=
  group ← cdiv (u32 (ino - 1)) (s_inodes_per_group sb);
  index ← cmod (u32 (ino - 1)) (s_inodes_per_group sb);
  inode_per_block ← cdiv (block_size sb) (s_inode_size sb);
  itable ← cdiv (i32 index) (i32 inode_per_block);
  itable_index ← cmod (i32 index) (i32 inode_per_block);
  gd ← (if i32 group <? 0 then lift None else lift (group_desc_table sb !! Z.to_nat (i32 group)));
  mret (u64 (u32 (bg_inode_table gd + itable) * block_size sb), s_inode_size sb * itable_index).

(** An inode of [SIZEOF_INODE] bytes is copied into a block of [s_inode_size] bytes. *)
Definition load_inode (sb : super_block) (off : Z) (buf : list Z) : option inode :=
  if (s_inode_size sb <? SIZEOF_INODE) || negb ((0 <=? off) && (off + SIZEOF_INODE <=? Z.of_nat (length buf))) then None
  else Some (decode_inode (slice off SIZEOF_INODE buf)).

Definition getinode (sb : super_block) (ino64 : Z) : M D inode :=
  let ino := u32 ino64 in
  cached ← get_inode_map ino;
  match cached with
  | Some i => mret i
  | None =>
      '(pos, off) ← inode_place sb ino;
      buffer ← get_block_buffer;
      '(_, buffer) ← ext2_bdev_read sb pos buffer (block_size sb);
      i ← lift (load_inode sb off buffer);
      put_inode_map ino i;;
      put_block_buffer buffer;;
      mret i
  end.

Definition putinode (sb : super_block) (ino64 : Z) : M D Z :=
  let ino := u32 ino64 in
  cached ← get_inode_map ino;
  match cached with
  | None => mret (-1)
  | Some i =>
      '(pos, off) ← inode_place sb ino;
      buffer ← get_block_buffer;
      '(_, buffer) ← ext2_bdev_read sb pos buffer (block_size sb);
      buffer ← lift (wr_bytes off (encode_inode i) buffer);
      ext2_bdev_write sb pos buffer (block_size sb);;
      put_block_buffer buffer;;
      mret 0
  end.

(** The loop of [ext2_mount] that fills [array_ladder]. *)
Fixpoint ladder (k i : nat) (len base : Z) : list Z :=
  match k with
  | O => []
  | S k => let len := if (12 <=? i)%nat then u32 (len * base) else len in len :: ladder k (S i) len base
  end.

Record dentry_info := mk_dentry { d_ino_no : Z; d_mode : Z; d_size : Z }.

(** The result is the return value and the fields stored into [dentry]. *)
Definition ext2_mount (part : Z) : M D (Z * option dentry_info) :=
  init_inode_map;;
  r ← (fun s => match bd_part part 1024 1024 (dev s) with Some (ret, l, d) => Some ((ret, l), set_dev d s) | None => None end);
  let '(offset, l) := r in
  if offset <? 0 then mret (-1, None)
  else
    let raw := decode_super l in
    if negb (s_magic raw =? EXT2_SUPER_MAGIC) then mret (-1, None)
    else
      let bs := u64 (i32 (Z.shiftl 1024 (s_log_block_size raw))) in
      groups ← cdiv (s_blocks_count raw) (s_blocks_per_group raw);
      let groups := i32 (groups + (if s_blocks_count raw mod s_blocks_per_group raw =? 0 then 0 else 1)) in
      let with_table t := mk_sb (s_blocks_count raw) (s_first_data_block raw) (s_log_block_size raw) (s_blocks_per_group raw) (s_inodes_per_group raw)
        (s_magic raw) (s_inode_size raw) offset bs groups t in
      init_buffer_pool bs;;
      let size := u64 (SIZEOF_GROUP_DESC * groups) in
      table ← (fun s => Some (heap_bytes (mallocs s) size, set_buffers (buffers s) (S (mallocs s)) s));
      r ← ext2_bdev_read (with_table []) (u64 (u32 (s_first_data_block raw + 1) * bs)) table size;
      let sb := with_table ((fun i => decode_gd (slice (SIZEOF_GROUP_DESC * i) SIZEOF_GROUP_DESC r.2)) <$> seqZ 0 groups) in
      modify (set_super sb);;
      i ← getinode sb EXT2_ROOT_INO;
      modify (set_array_ladder (ladder NR_INODE_BLOCK 0 1 (u32 (bs / 4))));;
      mret (0, Some (mk_dentry EXT2_ROOT_INO (i_mode i) (i_size i))).

(** The first slot of [i_block] that covers block [n], with its depth. *)
Fixpoint find_slot (l : list Z) (i : nat) (depth sum n : Z) : option (nat * Z) :=
  match l with
  | [] => None
  | len :: l =>
      let depth := if (12 <=? i)%nat then depth + 1 else depth in
      if (sum <=? n) && (n <? u32 (sum + len)) then Some (i, depth) else find_slot l (S i) depth (u32 (sum + len)) n
  end.

(** [while (depth-- && block)] *)
Fixpoint walk (depth : nat) (sb : super_block) (lad : list Z) (block reminder : Z) (buf : list Z) : M D (Z * list Z) :=
  match depth with
  | O => mret (block, buf)
  | S depth =>
      if block =? 0 then mret (block, buf)
      else
        '(_, buf) ← ext2_bdev_read sb (u64 (block * block_size sb)) buf (block_size sb);
        step ← lift (lad !! (12 + depth - 1)%nat);
        index ← cdiv reminder step;
        reminder ← cmod reminder step;
        block ← lift (rd 4 (4 * index) buf);
        walk depth sb lad block reminder buf
  end.

Definition get_block_no (sb : super_block) (i : inode) (n : Z) : M D Z :=
  lad ← gets array_ladder;
  match find_slot lad 0 0 0 n with
  | None => mret (-1)
  | Some (slot, depth) =>
      block ← lift (i_block i !! slot);
      buf ← get_block_buffer;
      '(block, buf) ← walk (Z.to_nat depth) sb lad block (u32 (n - 12)) buf;
      put_block_buffer buf;;
      mret block
  end.

(** [block] is unsigned: only 0 ends the file. *)
Definition getblock (sb : super_block) (n : Z) (i : inode) (data : list Z) : M D (Z * list Z) :=
  block ← get_block_no sb i n;
  let block := u64 block in
  if block =? 0 then mret (0, data)
  else
    '(_, data) ← ext2_bdev_read sb (u64 (block * block_size sb)) data (block_size sb);
    mret (1, data).

Definition setblock (sb : super_block) (ino n no : Z) : M D Z :=
  if 12 <=? n then mret (-1)
  else
    i ← getinode sb ino;
    old ← lift (i_block i !! Z.to_nat n);
    if negb (old =? 0) then mret (-1)
    else
      store_inode (u32 ino) (fun i => set_i_block (Z.to_nat n) no (u32 (i_blocks i + block_size sb / 512)) i);;
      mret 0.

(** ** Bitmaps *)

(** The first clear bit of a byte. *)
Fixpoint zero_bit (k : nat) (i val : Z) : option Z :=
  match k with
  | O => None
  | S k => if Z.land val (Z.shiftl 1 i) =? 0 then Some i else zero_bit k (i + 1) val
  end.

(** [j] and [k] of the first clear bit of a bitmap. *)
Fixpoint find_zero (j : Z) (l : list Z) : option (Z * Z) :=
  match l with
  | [] => None
  | v :: l => match zero_bit 8 0 v with Some k => Some (j, k) | None => find_zero (j + 1) l end
  end.

(** The loop over the groups; [field] selects which bitmap.  A full file system leaves
    the loop with [j] and [k] outside the bitmap. *)
Fixpoint scan_groups (check : bool) (field : group_desc -> Z) (sb : super_block) (i : Z) (gds : list group_desc) (buf : list Z) : M D (option (Z * Z * Z * Z) * list Z) :=
  match gds with
  | [] => lift None
  | gd :: gds =>
      let pos := u64 (field gd * block_size sb) in
      '(ret, buf) ← ext2_bdev_read sb pos buf (block_size sb);
      if check && (ret <? 0) then mret (None, buf)
      else
        match find_zero 0 (take (Z.to_nat (block_size sb)) buf) with
        | Some (j, k) => mret (Some (i, j, k, pos), buf)
        | None => scan_groups check field sb (i + 1) gds buf
        end
  end.

(** [alloc_block] and [alloc_inode] differ in the bitmap, the check of the read and the
    number they return. *)
Definition alloc_bit (check : bool) (field : group_desc -> Z) (number : Z -> Z -> Z -> Z) (sb : super_block) : M D Z :=
  buf ← get_block_buffer;
  '(found, buf) ← scan_groups check field sb 0 (take (Z.to_nat (nr_group sb)) (group_desc_table sb)) buf;
  match found with
  | None => put_block_buffer buf;; mret (-1)
  | Some (i, j, k, pos) =>
      v ← lift (rd 1 j buf);
      buf ← lift (wr_bytes j [Z.lor v (Z.shiftl 1 k)] buf);
      ret ← ext2_bdev_write sb pos buf (block_size sb);
      put_block_buffer buf;;
      mret (if ret <? 0 then -1 else number i j k)
  end.

Definition alloc_block (sb : super_block) : M D Z :=
  alloc_bit false bg_block_bitmap (fun i j k => i64 (i * block_size sb + j * 8 + k)) sb.

Definition alloc_inode (sb : super_block) : M D Z :=
  alloc_bit true bg_inode_bitmap (fun i j k => u32 (i * block_size sb + j * 8 + k + 1)) sb.

(** ** Directories *)

(** [!strncmp(name, dir->name, strlen(name))]; a length of 0 returns an uninitialised
    value. *)
Fixpoint same_name_loop (name : list Z) (off : Z) (buf : list Z) : option bool :=
  match name with
  | [] => Some true
  | c :: name => v ← rd 1 off buf; if v =? c then same_name_loop name (off + 1) buf else Some false
  end.

Definition same_name (name : list Z) (off : Z) (buf : list Z) : option bool :=
  match name with
  | [] => None
  | _ => same_name_loop name off buf
  end.

(** The entry at [off] has this name. *)
Definition entry_matches (name : list Z) (off : Z) (buf : list Z) : option bool :=
  l ← rd 1 (off + 6) buf;
  if l =? u32 (Z.of_nat (length name)) then same_name name (off + 8) buf else Some false.

(** [while (offset != sb->block_size)] of [ext2_lookup]: the inode of the entry. *)
Fixpoint dir_find (fuel : nat) (name : list Z) (bs off : Z) (buf : list Z) : option (option Z) :=
  match fuel with
  | O => None
  | S fuel =>
      if off =? bs then Some None
      else
        same ← entry_matches name off buf;
        if (same : bool) then ino ← rd 4 off buf; Some (Some ino)
        else reclen ← rd 2 (off + 4) buf; dir_find fuel name bs (off + reclen) buf
  end.

Fixpoint lookup_loop (fuel : nat) (name : list Z) (sb : super_block) (pinode : inode) (block : Z) (buf : list Z) : M D (option Z) :=
  match fuel with
  | O => lift None
  | S fuel =>
      '(r, buf) ← getblock sb block pinode buf;
      if r <=? 0 then mret None
      else
        found ← lift (dir_find (S (Z.to_nat (block_size sb))) name (block_size sb) 0 buf);
        match found with
        | Some ino => mret (Some ino)
        | None => lookup_loop fuel name sb pinode (u32 (block + 1)) buf
        end
  end.

(** The block buffer is not given back; [fuel] bounds the blocks read. *)
Definition ext2_lookup (fuel : nat) (filename : list Z) (pino : Z) : M D (Z * option dentry_info) :=
  sb ← get_super_block;
  sb ← lift sb;
  buffer ← get_block_buffer;
  pinode ← getinode sb pino;
  found ← lookup_loop fuel filename sb pinode 0 buffer;
  match found with
  | None => mret (-1, None)
  | Some ino => i ← getinode sb ino; mret (0, Some (mk_dentry ino (i_mode i) (i_size i)))
  end.

(** ** Files *)

(** The bytes copied to [buf] are added to [acc]. *)
Fixpoint ext2_read_loop (fuel : nat) (sb : super_block) (i : inode) (block offset size : Z) (acc buffer : list Z) : M D (list Z * list Z) :=
  match fuel with
  | O => lift None
  | S fuel =>
      if negb (0 <? size) then mret (acc, buffer)
      else
        '(r, buffer) ← getblock sb (u32 block) i buffer;
        if r <=? 0 then mret (acc, buffer)
        else
          let copysz := i64 (u64 (block_size sb - offset)) in
          let copysz := if size <? u64 copysz then i64 size else copysz in
          ext2_read_loop fuel sb i (u64 (block + 1)) 0 (u64 (size - copysz)) (acc ++ slice offset copysz buffer) buffer
  end.

(** The return value and the bytes stored from [buf]. *)
Definition ext2_read (ino pos size : Z) : M D (Z * list Z) :=
  sb ← get_super_block;
  sb ← lift sb;
  i ← getinode sb ino;
  if (pos <? 0) || (i_size i <=? pos) then mret (0, [])
  else
    let size := if i_size i <=? u64 (pos + size) then i_size i - pos else size in
    buffer ← get_block_buffer;
    block ← cdiv pos (block_size sb);
    offset ← cmod pos (block_size sb);
    '(l, buffer) ← ext2_read_loop (S (Z.to_nat size)) sb i block offset size [] buffer;
    put_block_buffer buffer;;
    mret (Z.of_nat (length l), l).

(** The inode a pointer obtained earlier points to. *)
Definition the_inode (ino : Z) : M D inode := i ← get_inode_map (u32 ino); lift i.

(** [while (inode->i_blocks < sblock)]; [n] does not change in the loop. *)
Fixpoint grow_loop (fuel : nat) (sb : super_block) (ino n sblock : Z) : M D Z :=
  match fuel with
  | O => lift None
  | S fuel =>
      i ← the_inode ino;
      if negb (i_blocks i <? u32 sblock) then mret 0
      else
        block ← alloc_block sb;
        if i32 block <? 0 then mret (-1)
        else
          r ← setblock sb ino (u32 n) (u32 (i32 block));
          if r <? 0 then mret (-1) else grow_loop fuel sb ino n sblock
  end.

(** Every round copies from the start of [buf].  The result is [count] or -1, and the
    buffer when it is still to be given back. *)
Fixpoint write_loop (fuel : nat) (sb : super_block) (ino : Z) (buf : list Z) (n offset count size : Z) (buffer : list Z) : M D (option (Z * list Z)) :=
  match fuel with
  | O => lift None
  | S fuel =>
      if negb (0 <? size) then mret (Some (count, buffer))
      else
        i ← the_inode ino;
        '(r, buffer) ← getblock sb (u32 n) i buffer;
        if r <=? 0 then mret None
        else
          let copysz := if u64 (block_size sb - offset) <? size then u64 (block_size sb - offset) else size in
          if Z.of_nat (length buf) <? copysz then lift None
          else
            buffer ← lift (wr_bytes offset (take (Z.to_nat copysz) buf) buffer);
            block ← get_block_no sb i (u32 n);
            if i32 block <=? 0 then mret None
            else
              w ← ext2_bdev_write sb (u64 (i32 block * block_size sb)) buffer (block_size sb);
              if w <? 0 then mret None
              else
                store_inode (u32 ino) (fun i => set_i_size (u32 (i_size i + copysz)) i);;
                write_loop fuel sb ino buf (i32 (n + 1)) 0 (u64 (count + copysz)) (u64 (size - copysz)) buffer
  end.

Definition ext2_write (ino : Z) (buf : list Z) (pos size : Z) : M D Z :=
  sb ← get_super_block;
  match sb with
  | None => mret (-1)
  | Some sb =>
      i ← getinode sb ino;
      if (pos <? 0) || (i_size i <? pos) then mret (-1)
      else
        let sblock := i32 (upper_div (u64 (pos + size)) 512) in
        n ← cdiv (i_blocks i) (block_size sb / 512);
        g ← grow_loop (S (Z.to_nat (u32 sblock))) sb ino (i32 n) sblock;
        if g <? 0 then mret (-1)
        else
          buffer ← get_block_buffer;
          n ← cdiv pos (block_size sb);
          offset ← cmod pos (block_size sb);
          r ← write_loop (S (Z.to_nat size)) sb ino buf (i32 n) offset 0 size buffer;
          match r with
          | None => mret (-1)
          | Some (count, buffer) => putinode sb ino;; mret count
          end
  end.

Definition ext2_create (pino : Z) (name : list Z) (mode : Z) : M D Z := mret (-1).

(** ** New directories *)

(** A field by field store of a directory entry. *)
Definition write_entry (off file_type ino : Z) (name : list Z) (rec_len : Z) (buf : list Z) : option (list Z) :=
  buf ← wr 1 (off + 7) file_type buf;
  buf ← wr 4 off ino buf;
  buf ← wr_bytes (off + 8) name buf;
  buf ← wr 1 (off + 6) (Z.of_nat (length name)) buf;
  wr 2 (off + 4) rec_len buf.

(** The size of an entry, aligned to 4 bytes. *)
Definition entry_size (name_len : Z) : Z := Z.land (SIZEOF_LINKED_DIRECTORY + name_len + 0x3) (u32 (-0x4)).

Definition init_newdir (sb : super_block) (pino mode : Z) : M D Z :=
  ino ← alloc_inode sb;
  if ino <? 0 then mret (-1)
  else
    getinode sb ino;;
    getinode sb pino;;
    store_inode (u32 ino) (fun _ => new_inode mode 0 0);;
    pinode ← the_inode pino;
    store_inode (u32 ino) (fun _ => new_inode mode (i_uid pinode) (i_gid pinode));;
    (* [block] is unsigned: a failure is not noticed *)
    block ← alloc_block sb;
    let block := u32 block in
    r ← setblock sb ino 0 block;
    if negb (r =? 0) then mret (-1)
    else
      store_inode (u32 ino) (fun i => set_i_links_count 1 (set_i_size (u32 (block_size sb)) i));;
      buffer ← get_block_buffer;
      let buffer := replicate (Z.to_nat (block_size sb)) 0 ++ drop (Z.to_nat (block_size sb)) buffer in
      let len := entry_size 1 in
      buffer ← lift (write_entry 0 EXT2_FT_DIR ino [46] len buffer);
      buffer ← lift (write_entry len EXT2_FT_DIR pino [46; 46] (block_size sb - len) buffer);
      ext2_bdev_write sb (u64 (block * block_size sb)) buffer (block_size sb);;
      putinode sb ino;;
      mret ino.

(** One block of the parent: whether the name exists, and otherwise the offset and the
    block of the last gap with room for the new entry. *)
Fixpoint mkdir_scan (fuel : nat) (name : list Z) (sb : super_block) (pinode : inode) (n off : Z) (room : option (Z * Z)) (buf : list Z) : M D (bool * option (Z * Z) * list Z) :=
  match fuel with
  | O => lift None
  | S fuel =>
      if off =? block_size sb then mret (false, room, buf)
      else
        same ← lift (entry_matches name off buf);
        if (same : bool) then mret (true, room, buf)
        else
          reclen ← lift (rd 2 (off + 4) buf);
          len ← lift (rd 1 (off + 6) buf);
          let dirsz := entry_size len in
          if SIZEOF_LINKED_DIRECTORY + u32 (Z.of_nat (length name)) <=? u32 (reclen - dirsz) then
            buf ← lift (wr 2 (off + dirsz + 4) (reclen - dirsz) buf);
            buf ← lift (wr 2 (off + 4) dirsz buf);
            block ← get_block_no sb pinode n;
            mkdir_scan fuel name sb pinode n (off + reclen) (Some (off + dirsz, u32 block)) buf
          else mkdir_scan fuel name sb pinode n (off + reclen) room buf
  end.

(** [while ((status = getblock(sb, n, pinode, buffer->buffer)) > 0)] *)
Fixpoint mkdir_blocks (fuel : nat) (name : list Z) (sb : super_block) (pino n : Z) (room : option (Z * Z)) (buf : list Z) : M D (bool * option (Z * Z) * Z * list Z) :=
  match fuel with
  | O => lift None
  | S fuel =>
      pinode ← the_inode pino;
      '(r, buf) ← getblock sb n pinode buf;
      if r <=? 0 then mret (false, room, n, buf)
      else
        x ← mkdir_scan (S (Z.to_nat (block_size sb))) name sb pinode n 0 room buf;
        let '(exists_, room, buf) := x in
        if (exists_ : bool) then mret (true, room, n, buf) else mkdir_blocks fuel name sb pino (u32 (n + 1)) room buf
  end.

(** The new entry at [off] of [block]. *)
Definition mkdir_finish (sb : super_block) (pino : Z) (name : list Z) (mode off block : Z) (buf : list Z) : M D Z :=
  buf ← lift (wr 1 (off + 7) EXT2_FT_DIR buf);
  buf ← lift (wr_bytes (off + 8) name buf);
  buf ← lift (wr 1 (off + 6) (Z.of_nat (length name)) buf);
  (* [ino] is unsigned: a failure is not noticed *)
  ino ← init_newdir sb pino mode;
  buf ← lift (wr 4 off (u32 ino) buf);
  ext2_bdev_write sb (u64 (block * block_size sb)) buf (block_size sb);;
  put_block_buffer buf;;
  mret 0.

Definition ext2_mkdir (fuel : nat) (pino : Z) (name : list Z) (mode : Z) : M D Z :=
  sb ← get_super_block;
  match sb with
  | None => mret (-1)
  | Some sb =>
      getinode sb pino;;
      buffer ← get_block_buffer;
      x ← mkdir_blocks fuel name sb pino 0 None buffer;
      match x with
      | (true, _, _, buf) => put_block_buffer buf;; mret (-1)
      | (false, Some (off, block), n, buf) => mkdir_finish sb pino name mode off block buf
      | (false, None, n, buf) =>
          block ← alloc_block sb;
          let block := u32 block in
          r ← setblock sb pino n block;
          if r <? 0 then put_block_buffer buf;; mret (-1)
          else
            putinode sb pino;;
            buf ← lift (wr 2 4 (block_size sb) buf);
            mkdir_finish sb pino name mode 0 block buf
      end
  end.
(** ** Status and directory listings *)

Record stat_t := mk_stat { st_mode : Z; st_ino : Z; st_size : Z; st_atime : Z; st_mtime : Z; st_ctime : Z }.

Definition ext2_stat (ino : Z) : M D (Z * option stat_t) :=
  sb ← get_super_block;
  sb ← lift sb;
  i ← getinode sb ino;
  mret (0, Some (mk_stat (i_mode i) (u32 ino) (i_size i) (i_atime i) (i_mtime i) (i_mtime i))).

(** The records stored one after the other at [dirp]; [d_name] up to its zero byte. *)
Record dirent := mk_dirent { d_ino : Z; d_off : Z; d_reclen : Z; d_type : Z; d_name : list Z }.

Fixpoint until_zero (l : list Z) : list Z :=
  match l with
  | [] => []
  | c :: l => if c =? 0 then [] else c :: until_zero l
  end.

(** The entries of one block: the new offset, [count] and [nbytes], and whether the
    caller's buffer is full. *)
Fixpoint getdents_block (fuel : nat) (bs block off count nbytes : Z) (acc : list dirent) (buf : list Z) : option (bool * Z * Z * Z * list dirent) :=
  match fuel with
  | O => None
  | S fuel =>
      if off =? bs then Some (false, off, count, nbytes, acc)
      else
        len ← rd 1 (off + 6) buf;
        let reclen' := OFFSETOF_D_NAME + len + 1 in
        if nbytes <? reclen' then Some (true, off, count, nbytes, acc)
        else
          ino ← rd 4 off buf;
          ty ← rd 1 (off + 7) buf;
          if Z.of_nat (length buf) <? off + 8 + len then None
          else
            reclen ← rd 2 (off + 4) buf;
            getdents_block fuel bs block (off + reclen) (count + reclen) (nbytes - reclen')
              (acc ++ [mk_dirent ino (i64 (block * bs + off)) reclen' ty (until_zero (slice (off + 8) len buf))]) buf
  end.

(** [offset] is not reset for the next block. *)
Fixpoint getdents_loop (fuel : nat) (sb : super_block) (i : inode) (block off count nbytes : Z) (acc : list dirent) (buf : list Z) : M D (Z * list dirent * list Z) :=
  match fuel with
  | O => lift None
  | S fuel =>
      '(r, buf) ← getblock sb (u32 block) i buf;
      if r <=? 0 then mret (count, acc, buf)
      else
        x ← lift (getdents_block (S (Z.to_nat (block_size sb))) (block_size sb) block off count nbytes acc buf);
        let '(full, off, count, nbytes, acc) := x in
        if (full : bool) then mret (count, acc, buf) else getdents_loop fuel sb i (u64 (block + 1)) off count nbytes acc buf
  end.

Definition ext2_getdents (fuel : nat) (ino pos nbytes : Z) : M D (Z * list dirent) :=
  sb ← get_super_block;
  sb ← lift sb;
  i ← getinode sb ino;
  buffer ← get_block_buffer;
  block ← cdiv (u64 pos) (block_size sb);
  offset ← cmod (u64 pos) (block_size sb);
  '(count, l, buffer) ← getdents_loop fuel sb i block offset 0 nbytes [] buffer;
  put_block_buffer buffer;;
  mret (i64 count, l).

(** ** [run_fs] *)

Inductive fs_request :=
| FsRead (ino offset size : Z)
| FsWrite (ino : Z) (buf : list Z) (offset size : Z)
| FsMkdir (ino : Z) (name : list Z) (mode : Z)
| FsLookup (filename : list Z) (pino : Z)
| FsStat (ino : Z)
| FsGetdents (ino offset nbytes : Z)
| FsMnt (part : Z)
| FsUnknown.

(** What the operation stored into the memory of the caller. *)
Inductive fs_answer := AData (l : list Z) | ADentry (d : option dentry_info) | AStat (s : option stat_t) | ADirents (l : list dirent) | ANothing.

Definition run_fs (fuel : nat) (q : fs_request) : M D (Z * fs_answer) :=
  match q with
  | FsRead ino offset size => '(r, l) ← ext2_read ino offset size; mret (i32 r, AData l)
  | FsWrite ino buf offset size => r ← ext2_write ino buf offset size; mret (i32 r, ANothing)
  | FsMkdir ino name mode => r ← ext2_mkdir fuel ino name mode; mret (i32 r, ANothing)
  | FsLookup filename pino => '(r, d) ← ext2_lookup fuel filename pino; mret (i32 r, ADentry d)
  | FsStat ino => '(r, x) ← ext2_stat ino; mret (i32 r, AStat x)
  | FsGetdents ino offset nbytes => '(r, l) ← ext2_getdents fuel ino offset nbytes; mret (i32 r, ADirents l)
  | FsMnt part => '(r, d) ← ext2_mount part; mret (i32 r, ADentry d)
  | FsUnknown => mret (-1, ANothing)
  end.
End Ext2.
