(* ===== verification/Ext2Format.v ===== *)
(** * The on-disk formats of ext2

    Little-endian numbers and the inode: encoding and decoding are inverse, so an inode
    the server stores is the inode it reads back. *)

From S2P Require Import Prelude Bytes Disk Ext2.

(** ** Inodes *)

Definition u16_ok (v : Z) : Prop := 0 <= v < 256 ^ 2.
Definition u32_ok (v : Z) : Prop := 0 <= v < 256 ^ 4.

(** Every field fits its C type. *)
Record inode_ok (i : inode) : Prop := {
  ok_u16 : Forall u16_ok [i_mode i; i_uid i; i_gid i; i_links_count i];
  ok_u32 : Forall u32_ok [i_size i; i_atime i; i_ctime i; i_mtime i; i_dtime i; i_blocks i; i_flags i; osd1 i; i_generation i; i_file_acl i; i_dir_acl i; i_faddr i];
  ok_block : Forall u32_ok (i_block i);
  ok_block_len : length (i_block i) = 15%nat;
  ok_osd2 : length (osd2 i) = 12%nat;
  ok_osd2_bytes : Forall (fun b => 0 <= b < 256) (osd2 i) }.

Ltac le_field :=
  repeat (first [rewrite (le_app_r _ _ 2) by (rewrite ?enc_length; (done || lia)) | rewrite (le_app_r _ _ 4) by (rewrite ?enc_length; (done || lia))]);
  match goal with
  | |- le ?n ?o (enc _ ?v ++ _) = ?v => change o with 0; apply (le_enc n v); [done|lia]
  end.

Lemma decode_encode_inode i : inode_ok i -> decode_inode (encode_inode i) = i.
Proof.
  intros [H16 H32 Hb Hl Ho _]. destruct i as [mode uid size at_ ct mt dt gid links blocks flags o1 blk gen fa da fad o2]. cbn in H16, H32, Hb, Hl, Ho.
  do 15 (destruct blk as [|? blk]; [done|]). destruct blk; [|done].
  repeat match goal with H : Forall _ (_ :: _) |- _ => apply Forall_cons_1 in H as [? H] end. unfold u16_ok, u32_ok in *.
  unfold encode_inode. cbn [i_mode i_uid i_size i_atime i_ctime i_mtime i_dtime i_gid i_links_count i_blocks i_flags osd1 i_block i_generation i_file_acl i_dir_acl i_faddr osd2 mbind list_bind].
  rewrite app_nil_r, <- !app_assoc. unfold decode_inode. f_equal; try le_field.
  - change (seqZ 0 15) with [0; 1; 2; 3; 4; 5; 6; 7; 8; 9; 10; 11; 12; 13; 14]. cbn [fmap list_fmap]. repeat (f_equal; try le_field).
  - unfold slice. repeat (rewrite drop_app_ge by (rewrite enc_length; lia); rewrite enc_length). cbn [Nat.sub Z.to_nat Pos.to_nat Pos.iter_op Nat.add]. rewrite drop_0. apply take_ge. lia.
Qed.

Lemma enc_le n off l : Forall (fun b => 0 <= b < 256) l -> 0 <= n -> 0 <= off -> off + n <= Z.of_nat (length l) -> enc (Z.to_nat n) (le n off l) = slice off n l.
Proof.
  intros Hl Hn Ho Hle. unfold le. rewrite <- (enc_le_val (slice off n l)) at 2; [by rewrite slice_length by lia|].
  by apply Forall_take, Forall_drop.
Qed.

Lemma slice_join a n b k (l : list Z) : 0 <= a -> 0 <= n -> 0 <= k -> b = a + n -> slice a n l ++ slice b k l = slice a (n + k) l.
Proof.
  intros Ha Hn Hk ->. unfold slice. rewrite (Z2Nat.inj_add n k) by lia. rewrite <- take_take_drop, drop_drop.
  do 3 f_equal. lia.
Qed.

Lemma slice_all (l : list Z) n : Z.of_nat (length l) = n -> slice 0 n l = l.
Proof. intros <-. unfold slice. rewrite drop_0, Nat2Z.id. apply firstn_all. Qed.

Lemma encode_decode_inode l : Forall (fun b => 0 <= b < 256) l -> length l = 128%nat -> encode_inode (decode_inode l) = l.
Proof.
  intros Hl Hn. unfold encode_inode, decode_inode.
  cbn [i_mode i_uid i_size i_atime i_ctime i_mtime i_dtime i_gid i_links_count i_blocks i_flags osd1 i_block i_generation i_file_acl i_dir_acl i_faddr osd2].
  change (seqZ 0 15) with [0; 1; 2; 3; 4; 5; 6; 7; 8; 9; 10; 11; 12; 13; 14]. cbn [fmap list_fmap mbind list_bind]. rewrite app_nil_r, <- !app_assoc.
  change (enc 2) with (enc (Z.to_nat 2)). change (enc 4) with (enc (Z.to_nat 4)). rewrite !enc_le by (done || lia).
  repeat (rewrite slice_join by (reflexivity || lia)). by apply slice_all; rewrite Hn.
Qed.

Lemma encode_inode_length i : inode_ok i -> length (encode_inode i) = 128%nat.
Proof.
  intros [_ _ _ Hl Ho _]. unfold encode_inode. rewrite !length_app, !enc_length, Ho. assert (E : length (i_block i ≫= enc 4) = (4 * length (i_block i))%nat).
  { clear. induction (i_block i) as [|b l IH]; [done|]. change ((b :: l) ≫= enc 4) with (enc 4 b ++ (l ≫= enc 4)). rewrite length_app, enc_length, IH. cbn [length]. lia. }
  rewrite E, Hl. done.
Qed.

Lemma encode_inode_bytes i : inode_ok i -> Forall (fun b => 0 <= b < 256) (encode_inode i).
Proof.
  intros [_ _ _ _ _ Ho]. unfold encode_inode. assert (E : Forall (fun b => 0 <= b < 256) (i_block i ≫= enc 4)).
  { clear. induction (i_block i) as [|b l IH]; [constructor|]. change ((b :: l) ≫= enc 4) with (enc 4 b ++ (l ≫= enc 4)). apply Forall_app_2; [apply enc_bytes|done]. }
  repeat first [apply Forall_app_2 | apply enc_bytes | done].
Qed.

(** A decoded inode fits its types. *)
Lemma decode_inode_ok l : Forall (fun b => 0 <= b < 256) l -> length l = 128%nat -> inode_ok (decode_inode l).
Proof.
  intros Hl Hn. assert (H2 : forall off, 0 <= off -> off + 2 <= 128 -> u16_ok (le 2 off l)).
  { intros off Ho Hle. pose proof (le_val_bounds (slice off 2 l) ltac:(by apply Forall_take, Forall_drop)) as Hb. rewrite slice_length in Hb by lia. exact Hb. }
  assert (H4 : forall off, 0 <= off -> off + 4 <= 128 -> u32_ok (le 4 off l)).
  { intros off Ho Hle. pose proof (le_val_bounds (slice off 4 l) ltac:(by apply Forall_take, Forall_drop)) as Hb. rewrite slice_length in Hb by lia. exact Hb. }
  split; cbn [decode_inode i_mode i_uid i_size i_atime i_ctime i_mtime i_dtime i_gid i_links_count i_blocks i_flags osd1 i_block i_generation i_file_acl i_dir_acl i_faddr osd2].
  - repeat constructor; apply H2; lia.
  - repeat constructor; apply H4; lia.
  - apply Forall_fmap, Forall_forall. intros k Hk%elem_of_seqZ. apply H4; lia.
  - done.
  - by rewrite slice_length by lia.
  - by apply Forall_take, Forall_drop.
Qed.

(** ** Stores into a block *)

Lemma wr_bytes_ok off b (buf : list Z) : 0 <= off -> off + Z.of_nat (length b) <= Z.of_nat (length buf) -> wr_bytes off b buf = Some (splice off b buf).
Proof. intros. unfold wr_bytes. by rewrite (proj2 (Z.leb_le 0 off)), (proj2 (Z.leb_le _ _)) by lia. Qed.
