(* ===== verification/Ext2Proofs.v ===== *)
(** * The ext2 server is correct

    Theorems about the operations of [Ext2.v].  A state is described by what it means:
    the bytes of the device and [inode_of], the inode a number stands for, which is the
    cached copy if there is one and the copy on the disk otherwise. *)

From S2P Require Import Prelude Bytes Disk Ext2 Ext2Format.

(** ** Good states *)

Lemma u32_id v : 0 <= v < 2 ^ 32 -> u32 v = v.
Proof. apply Z.mod_small. Qed.

(** ** Bitmaps *)

(** Bit [n] of a bitmap. *)
Definition bit (l : list Z) (n : Z) : bool := Z.testbit (default 255 (l !! Z.to_nat (n / 8))) (n mod 8).

Lemma land_bit_clear v i : 0 <= i -> (Z.land v (Z.shiftl 1 i) =? 0) = negb (Z.testbit v i).
Proof. intros. by rewrite <- land_bit, negb_involutive by done. Qed.

Lemma zero_bit_spec k : forall i v, 0 <= i ->
  match zero_bit k i v with
  | Some b => i <= b < i + Z.of_nat k /\ Z.testbit v b = false /\ forall c, i <= c < b -> Z.testbit v c = true
  | None => forall c, i <= c < i + Z.of_nat k -> Z.testbit v c = true
  end.
Proof.
  induction k as [|k IH]; intros i v Hi; cbn [zero_bit]; [intros c Hc; lia|]. rewrite land_bit_clear by done. destruct (Z.testbit v i) eqn:E; cbn [negb].
  - pose proof (IH (i + 1) v ltac:(lia)) as Hz. destruct (zero_bit k (i + 1) v) as [b|].
    + destruct Hz as (Hb & Hf & Ht). split; [lia|]. split; [done|]. intros c Hc. destruct (Z.eq_dec c i) as [->|]; [done|]. apply Ht. lia.
    + intros c Hc. destruct (Z.eq_dec c i) as [->|]; [done|]. apply Hz. lia.
  - split; [lia|]. split; [done|]. intros c Hc. lia.
Qed.

Lemma bit_split l j c : 0 <= j -> 0 <= c < 8 -> bit l (8 * j + c) = Z.testbit (default 255 (l !! Z.to_nat j)) c.
Proof.
  intros. unfold bit. rewrite (Z.mul_comm 8), (Z.add_comm (j * 8)). rewrite Z.div_add, Z.mod_add, Z.div_small, Z.mod_small by lia. by rewrite Z.add_0_l.
Qed.

Lemma bit_cons v l n : 8 <= n -> bit (v :: l) n = bit l (n - 8).
Proof.
  intros. unfold bit. replace n with (n - 8 + 1 * 8) at 1 2 by lia. rewrite Z.div_add, Z.mod_add by lia.
  assert (0 <= (n - 8) / 8) by (apply Z.div_pos; lia). replace (Z.to_nat ((n - 8) / 8 + 1)) with (S (Z.to_nat ((n - 8) / 8))) by lia. done.
Qed.

Lemma find_zero_spec l : forall j,
  match find_zero j l with
  | Some (j', k) => j <= j' < j + Z.of_nat (length l) /\ 0 <= k < 8 /\ bit l (8 * (j' - j) + k) = false /\ forall m, 0 <= m < 8 * (j' - j) + k -> bit l m = true
  | None => forall m, 0 <= m < 8 * Z.of_nat (length l) -> bit l m = true
  end.
Proof.
  induction l as [|v l IH]; intros j; cbn [find_zero length]; [intros m Hm; lia|].
  pose proof (zero_bit_spec 8 0 v ltac:(lia)) as Hz. assert (Hhead : forall c, 0 <= c < 8 -> bit (v :: l) c = Z.testbit v c).
  { intros c Hc. change c with (8 * 0 + c) at 1. by rewrite bit_split by lia. }
  destruct (zero_bit 8 0 v) as [b|].
  - destruct Hz as (Hb & Hf & Ht). split; [lia|]. split; [lia|]. replace (8 * (j - j) + b) with b by lia. rewrite Hhead by lia. split; [done|].
    intros m Hm. rewrite Hhead by lia. apply Ht. lia.
  - pose proof (IH (j + 1)) as HI. destruct (find_zero (j + 1) l) as [[j' k]|].
    + destruct HI as (Hj & Hk & Hf & Ht). split; [lia|]. split; [done|]. split.
      * rewrite bit_cons by lia. by replace (8 * (j' - j) + k - 8) with (8 * (j' - (j + 1)) + k) by lia.
      * intros m Hm. destruct (Z.ltb_spec m 8); [rewrite Hhead by lia; apply Hz; lia|]. rewrite bit_cons by lia. apply Ht. lia.
    + intros m Hm. destruct (Z.ltb_spec m 8); [rewrite Hhead by lia; apply Hz; lia|]. rewrite bit_cons by lia. apply HI. lia.
Qed.

(** ** Directory blocks *)

Lemma rd_ok n off (buf : list Z) : 0 <= off -> off + n <= Z.of_nat (length buf) -> rd n off buf = Some (le n off buf).
Proof. intros. unfold rd. by rewrite (proj2 (Z.leb_le 0 off)), (proj2 (Z.leb_le _ _)) by lia. Qed.

Lemma rd_Some n off (buf : list Z) v : rd n off buf = Some v -> 0 <= off /\ off + n <= Z.of_nat (length buf) /\ v = le n off buf.
Proof. unfold rd. case_if; [|done]. by intros [= <-]. Qed.

Lemma le1_lookup off (buf : list Z) v : 0 <= off -> buf !! Z.to_nat off = Some v -> le 1 off buf = v.
Proof.
  intros Ho Hv. unfold le, slice. change (Z.to_nat 1) with 1%nat. rewrite (drop_S buf v) by done. cbn [take]. unfold le_val. rewrite take_0. cbn [foldr]. lia.
Qed.

(** The entries of a block as inode and name, if every record lies in the block and the
    records fill it. *)
Fixpoint dir_entries (fuel : nat) (bs off : Z) (buf : list Z) : option (list (Z * list Z)) :=
  match fuel with
  | O => None
  | S fuel =>
      if off =? bs then Some []
      else
        len ← rd 1 (off + 6) buf;
        reclen ← rd 2 (off + 4) buf;
        ino ← rd 4 off buf;
        if Z.of_nat (length buf) <? off + 8 + len then None
        else rest ← dir_entries fuel bs (off + reclen) buf; Some ((ino, slice (off + 8) len buf) :: rest)
  end.

(** The inode of the first entry of a name. *)
Fixpoint assoc (name : list Z) (es : list (Z * list Z)) : option Z :=
  match es with
  | [] => None
  | (ino, n) :: es => if decide (n = name) then Some ino else assoc name es
  end.

Lemma assoc_app name es1 es2 : assoc name (es1 ++ es2) = match assoc name es1 with Some i => Some i | None => assoc name es2 end.
Proof. induction es1 as [|[i n] es1 IH]; [done|]. cbn [app assoc]. by destruct (decide (n = name)). Qed.

Lemma same_name_loop_ok name : forall off buf, 0 <= off -> off + Z.of_nat (length name) <= Z.of_nat (length buf) ->
  same_name_loop name off buf = Some (bool_decide (slice off (Z.of_nat (length name)) buf = name)).
Proof.
  induction name as [|c name IH]; intros off buf Ho Hle; cbn [same_name_loop length]; [done|]. cbn [length] in Hle. rewrite rd_ok by lia. some_bind.
  destruct (lookup_lt_is_Some_2 buf (Z.to_nat off) ltac:(lia)) as [v Hv]. rewrite (le1_lookup off buf v) by done.
  assert (Es : slice off (Z.of_nat (S (length name))) buf = v :: slice (off + 1) (Z.of_nat (length name)) buf).
  { unfold slice. rewrite (drop_S buf v) by done. rewrite !Nat2Z.id. cbn [take]. do 2 f_equal. f_equal. lia. }
  rewrite Es. destruct (Z.eqb_spec v c) as [->|Hne].
  - rewrite IH by lia. f_equal. apply bool_decide_ext. split; [by intros ->|by intros [= ->]].
  - rewrite bool_decide_false; [done|]. by intros [= ->].
Qed.

Lemma entry_matches_ok name off buf len :
  name <> [] -> Z.of_nat (length name) < 2 ^ 32 -> 0 <= off -> rd 1 (off + 6) buf = Some len -> 0 <= len -> off + 8 + len <= Z.of_nat (length buf) ->
  entry_matches name off buf = Some (bool_decide (slice (off + 8) len buf = name)).
Proof.
  intros Hne Hn Ho Hl H0 Hle. unfold entry_matches. rewrite Hl. some_bind. rewrite (u32_id (Z.of_nat (length name))) by lia. destruct (Z.eqb_spec len (Z.of_nat (length name))) as [->|Hd].
  - destruct name as [|c name]; [done|]. apply same_name_loop_ok; lia.
  - rewrite bool_decide_false; [done|]. intros E. apply Hd. rewrite <- E. rewrite slice_length by lia. lia.
Qed.

Lemma dir_find_ok fuel : forall name bs off buf es,
  name <> [] -> Z.of_nat (length name) < 2 ^ 32 -> Forall (fun v => 0 <= v < 256) buf -> dir_entries fuel bs off buf = Some es -> dir_find fuel name bs off buf = Some (assoc name es).
Proof.
  induction fuel as [|fuel IH]; intros name bs off buf es Hne Hn Hb; cbn [dir_entries dir_find]; [done|]. destruct (off =? bs); [by intros [= <-]|].
  destruct (rd 1 (off + 6) buf) as [len|] eqn:El; [|done]. destruct (rd 2 (off + 4) buf) as [reclen|] eqn:Er; [|done]. destruct (rd 4 off buf) as [ino|] eqn:Ei; [|done]. some_bind.
  case_if; [done|]. destruct (dir_entries fuel bs (off + reclen) buf) as [rest|] eqn:Ed; [|done]. some_bind. intros [= <-].
  pose proof (rd_Some _ _ _ _ Ei) as (Ho & _ & _). pose proof (rd_Some _ _ _ _ El) as (_ & _ & Hlen).
  assert (H0 : 0 <= len) by (rewrite Hlen; apply le_val_bounds; by apply Forall_take, Forall_drop).
  rewrite (entry_matches_ok name off buf len) by (done || lia). some_bind. cbn [assoc]. case_bool_decide as Hc; [by rewrite decide_True by done|].
  rewrite decide_False by done. by apply IH.
Qed.

Section Good.
Context {D : Type} `{BlockDevice D} `{Heap} (sb : super_block).
Local Abbreviation bs := (block_size sb).

(** A file system the driver can handle: sector-aligned blocks within the limit of the
    device, positions that do not overflow. *)
Record sb_ok : Prop := {
  so_bs : 512 <= bs <= 65536;
  so_align : bs mod SECTOR_SIZE = 0;
  so_max : bs / SECTOR_SIZE <= bd_max;
  so_off : 0 <= partition_offset sb < 2 ^ 50;
  so_off_align : partition_offset sb mod SECTOR_SIZE = 0;
  so_isz : SIZEOF_INODE <= s_inode_size sb <= bs;
  so_ipg : 0 < s_inodes_per_group sb < 2 ^ 31;
  so_table : Forall (fun gd => u32_ok (bg_block_bitmap gd) /\ u32_ok (bg_inode_bitmap gd) /\ 0 <= bg_inode_table gd < 2 ^ 31) (group_desc_table sb);
  so_groups : nr_group sb = Z.of_nat (length (group_desc_table sb)) /\ nr_group sb < 2 ^ 31 }.

Record good (s : st D) : Prop := {
  go_ready : bd_ready (dev s);
  go_bytes : forall x, 0 <= x -> 0 <= bd_bytes (dev s) x < 256;
  go_buffers : Forall (fun b => length b = Z.to_nat bs) (buffers s);
  go_size : buffer_size s = bs;
  go_super : super s = Some sb;
  go_ladder : array_ladder s = ladder NR_INODE_BLOCK 0 1 (bs / 4) }.

Definition same_disk (d d' : D) : Prop := forall x, 0 <= x -> bd_bytes d' x = bd_bytes d x.

Definition block_pos (b : Z) : Z := partition_offset sb + b * bs.
Definition block_bytes (d : D) (b : Z) : list Z := bd_bytes d <$> seqZ (block_pos b) bs.

Definition cached (s : st D) (ino : Z) : option inode := find_ino ino (default [] (inode_map s !! (ino mod INDOE_HASH_MAP_SIZE))).

(** Where the disk keeps inode [ino]. *)
Definition inode_block (ino : Z) : Z :=
  let ipb := bs / s_inode_size sb in
  bg_inode_table (default (mk_gd 0 0 0) (group_desc_table sb !! Z.to_nat ((ino - 1) / s_inodes_per_group sb))) + (ino - 1) mod s_inodes_per_group sb / ipb.
Definition inode_off (ino : Z) : Z := s_inode_size sb * ((ino - 1) mod s_inodes_per_group sb mod (bs / s_inode_size sb)).
Definition inode_pos (ino : Z) : Z := block_pos (inode_block ino) + inode_off ino.

Definition valid_ino (ino : Z) : Prop := 1 <= ino < 2 ^ 32 /\ (ino - 1) / s_inodes_per_group sb < nr_group sb.

Definition disk_inode (d : D) (ino : Z) : inode := decode_inode (bd_bytes d <$> seqZ (inode_pos ino) SIZEOF_INODE).

(** The inode a number stands for. *)
Definition inode_of (s : st D) (ino : Z) : inode := default (disk_inode (dev s) ino) (cached s ino).

(** What an operation that only reads leaves alone. *)
Definition frame (s s' : st D) : Prop :=
  good s' /\ same_disk (dev s) (dev s') /\ (forall ino i, cached s ino = Some i -> cached s' ino = Some i) /\
  forall ino, valid_ino ino -> inode_of s' ino = inode_of s ino.

Hypothesis Hsb : sb_ok.

Lemma frame_refl s : good s -> frame s s.
Proof. by intros. Qed.

Lemma frame_trans s1 s2 s3 : frame s1 s2 -> frame s2 s3 -> frame s1 s3.
Proof.
  intros (_ & D1 & C1 & I1) (G & D2 & C2 & I2). split; [done|]. split; [intros x Hx; rewrite D2 by done; by apply D1|]. split; [auto|].
  intros ino Hi. rewrite I2 by done. by apply I1.
Qed.

Lemma block_bounds b : 0 <= b < 2 ^ 32 -> 0 <= b * bs < 2 ^ 49.
Proof. intros. pose proof (so_bs Hsb). nia. Qed.

Lemma block_pos_nonneg b : 0 <= b -> 0 <= block_pos b.
Proof. intros. pose proof (so_bs Hsb). pose proof (so_off Hsb). unfold block_pos. nia. Qed.

Lemma block_pos_u64 b : 0 <= b < 2 ^ 32 -> u64 (partition_offset sb + u64 (b * bs)) = block_pos b.
Proof.
  intros Hb. pose proof (block_bounds b Hb). pose proof (so_off Hsb). unfold block_pos, u64, uwrap. rewrite (Z.mod_small (b * bs)) by lia. apply Z.mod_small. lia.
Qed.

Lemma block_pos_align b : block_pos b mod SECTOR_SIZE = 0.
Proof.
  unfold block_pos. rewrite Z.add_mod, Z.mul_mod, (so_off_align Hsb), (so_align Hsb), Z.mul_0_r by done. done.
Qed.

Lemma block_nsectors b : 0 <= b < 2 ^ 32 -> nsectors (block_pos b) bs <= bd_max.
Proof.
  intros. pose proof (so_max Hsb). pose proof (so_bs Hsb). pose proof (so_align Hsb).
  assert (E : bs = SECTOR_SIZE * (bs / SECTOR_SIZE)) by (pose proof (Z.div_mod bs SECTOR_SIZE ltac:(done)); lia). rewrite E at 1.
  rewrite nsectors_aligned; [done|apply block_pos_nonneg; lia|apply block_pos_align|apply Z.div_pos; (lia || done)].
Qed.

Lemma block_bytes_length d b : length (block_bytes d b) = Z.to_nat bs.
Proof. unfold block_bytes. by rewrite length_fmap, length_seqZ. Qed.

Lemma block_bytes_same d d' b : same_disk d d' -> 0 <= b -> block_bytes d' b = block_bytes d b.
Proof.
  intros HD Hb. unfold block_bytes. apply list_fmap_ext. intros k x Hx. apply HD. apply lookup_seqZ in Hx as [-> _]. pose proof (block_pos_nonneg b Hb). lia.
Qed.

Lemma block_bytes_range s b : good s -> 0 <= b -> Forall (fun v => 0 <= v < 256) (block_bytes (dev s) b).
Proof.
  intros G Hb. unfold block_bytes. apply Forall_fmap, Forall_forall. intros x Hx%elem_of_seqZ. apply (go_bytes s G). pose proof (block_pos_nonneg b Hb). lia.
Qed.

(** *** The device *)

Lemma disk_inode_same d d' ino : same_disk d d' -> 0 <= inode_pos ino -> disk_inode d' ino = disk_inode d ino.
Proof.
  intros HD Hp. unfold disk_inode. f_equal. apply list_fmap_ext. intros k x Hx. apply HD. apply lookup_seqZ in Hx as [-> _]. lia.
Qed.

Lemma inode_place_bounds ino : valid_ino ino -> 0 <= inode_block ino < 2 ^ 32 /\ 0 <= inode_off ino /\ inode_off ino + SIZEOF_INODE <= bs.
Proof.
  intros [Hi Hg]. pose proof (so_isz Hsb) as Hz. pose proof (so_ipg Hsb) as Hp. pose proof (so_bs Hsb) as Hbs. unfold SIZEOF_INODE in *.
  pose proof (Z.mod_pos_bound (ino - 1) (s_inodes_per_group sb) ltac:(lia)) as Hm. set (k := (ino - 1) mod s_inodes_per_group sb) in *.
  assert (Hipb : 1 <= bs / s_inode_size sb) by (apply Z.div_le_lower_bound; lia).
  pose proof (Z.mul_div_le bs (s_inode_size sb) ltac:(lia)) as Hle.
  pose proof (Z.mod_pos_bound k (bs / s_inode_size sb) ltac:(lia)) as Hkm.
  assert (Hkd : 0 <= k / (bs / s_inode_size sb) <= k) by (split; [apply Z.div_pos; lia|apply Z.div_le_upper_bound; nia]).
  split; [|unfold inode_off; fold k; nia]. unfold inode_block. fold k.
  pose proof (so_table Hsb) as Ht. rewrite Forall_forall in Ht. destruct (group_desc_table sb !! _) as [gd|] eqn:E; cbn [default].
  - destruct (Ht gd) as (_ & _ & Hgd); [by eapply list_elem_of_lookup_2|]. cbn. lia.
  - cbn. lia.
Qed.

Lemma inode_pos_nonneg ino : valid_ino ino -> 0 <= inode_pos ino.
Proof. intros Hv. destruct (inode_place_bounds ino Hv) as (Hb & Ho & _). pose proof (block_pos_nonneg (inode_block ino) ltac:(lia)). unfold inode_pos. lia. Qed.

(** A change of state that keeps the caches and the contents of the disk. *)
Lemma frame_dev s d' : good s -> bd_ready d' -> same_disk (dev s) d' -> frame s (set_dev d' s).
Proof.
  intros G R HD. split.
  - destruct G as [? Gb ? ? ? ?]. split; try done. cbn [dev set_dev]. intros x Hx. rewrite HD by done. by apply Gb.
  - split; [done|]. split; [done|]. intros ino Hv. unfold inode_of. cbn [dev set_dev]. rewrite (disk_inode_same (dev s) d'); [done|done|by apply inode_pos_nonneg].
Qed.

Lemma frame_buffers s l k : good s -> Forall (fun b => length b = Z.to_nat bs) l -> frame s (set_buffers l k s).
Proof. intros G Hl. split; [by destruct G; split|done]. Qed.

Lemma read_block s b buf : good s -> 0 <= b < 2 ^ 32 -> length buf = Z.to_nat bs ->
  exists s', ext2_bdev_read sb (u64 (b * bs)) buf bs s = Some ((0, block_bytes (dev s) b), s') /\ frame s s'.
Proof.
  intros G Hb Hl. unfold ext2_bdev_read. rewrite block_pos_u64 by done. pose proof (block_bounds b Hb). pose proof (so_off Hsb). pose proof (so_bs Hsb).
  destruct (bd_read_ok (dev s) (block_pos b) bs) as (d' & -> & R & HD); [apply G|apply block_pos_nonneg; lia|lia|unfold block_pos; lia|by apply block_nsectors|].
  change (0 =? 0) with true. cbv iota. change (bd_bytes (dev s) <$> seqZ (block_pos b) bs) with (block_bytes (dev s) b). rewrite drop_ge by (rewrite block_bytes_length; lia). rewrite app_nil_r.
  eexists. split; [reflexivity|]. by apply frame_dev.
Qed.

Lemma get_buffer s : good s -> exists b s', get_block_buffer s = Some (b, s') /\ frame s s' /\ length b = Z.to_nat bs.
Proof.
  intros G. pose proof (so_bs Hsb). unfold get_block_buffer. pose proof (go_buffers s G) as Hf. destruct (buffers s) as [|b l] eqn:E.
  - eexists _, _. split; [reflexivity|]. split; [by apply frame_buffers|]. rewrite (go_size s G). apply heap_bytes_len. lia.
  - eexists _, _. split; [reflexivity|]. apply Forall_cons_1 in Hf as [Hb Hf]. split; [by apply frame_buffers|done].
Qed.

Lemma put_buffer s b : good s -> length b = Z.to_nat bs -> exists s', put_block_buffer b s = Some (tt, s') /\ frame s s'.
Proof. intros G Hb. eexists. split; [reflexivity|]. apply frame_buffers; [done|]. constructor; [done|apply G]. Qed.

(** *** The cache *)

Lemma cached_put s ino i x : cached (set_inode_map (<[ino mod INDOE_HASH_MAP_SIZE := (ino, i) :: default [] (inode_map s !! (ino mod INDOE_HASH_MAP_SIZE))]> (inode_map s)) s) x =
  if x =? ino then Some i else cached s x.
Proof.
  unfold cached. cbn [inode_map set_inode_map]. destruct (Z.eqb_spec x ino) as [->|Hne].
  - rewrite lookup_insert_eq. cbn. by rewrite Z.eqb_refl.
  - destruct (decide (x mod INDOE_HASH_MAP_SIZE = ino mod INDOE_HASH_MAP_SIZE)) as [Em|Em].
    + rewrite Em, lookup_insert_eq. cbn. by rewrite (proj2 (Z.eqb_neq ino x)) by done.
    + by rewrite lookup_insert_ne by done.
Qed.

Lemma upd_ino_find ino f l x : find_ino x (upd_ino ino f l) = if x =? ino then f <$> find_ino x l else find_ino x l.
Proof.
  induction l as [|[k i] l IH]; cbn [upd_ino find_ino]; [by case_if|]. destruct (Z.eqb_spec k ino) as [->|Hk]; cbn [find_ino].
  - destruct (Z.eqb_spec ino x) as [->|Hx]; [by rewrite Z.eqb_refl|]. by rewrite (proj2 (Z.eqb_neq x ino)) by done.
  - destruct (Z.eqb_spec k x) as [->|Hx]; [|done]. by rewrite (proj2 (Z.eqb_neq x ino)) by done.
Qed.

Lemma cached_store s ino f x : cached (set_inode_map (<[ino mod INDOE_HASH_MAP_SIZE := upd_ino ino f (default [] (inode_map s !! (ino mod INDOE_HASH_MAP_SIZE)))]> (inode_map s)) s) x =
  if x =? ino then f <$> cached s x else cached s x.
Proof.
  unfold cached. cbn [inode_map set_inode_map]. destruct (decide (x mod INDOE_HASH_MAP_SIZE = ino mod INDOE_HASH_MAP_SIZE)) as [Em|Em].
  - rewrite Em, lookup_insert_eq. cbn [default]. apply upd_ino_find.
  - rewrite lookup_insert_ne by done. by rewrite (proj2 (Z.eqb_neq x ino)) by congruence.
Qed.

Lemma put_inode s ino : good s -> exists s', put_inode_map ino (inode_of s ino) s = Some (tt, s') /\ frame s s' /\ cached s' ino = Some (inode_of s ino).
Proof.
  intros G. eexists. split; [reflexivity|]. cbv zeta. split; [|by rewrite cached_put, Z.eqb_refl]. split; [by destruct G; split|]. split; [done|]. split.
  - intros x i Hx. rewrite cached_put. destruct (Z.eqb_spec x ino) as [->|]; [|done]. unfold inode_of. by rewrite Hx.
  - intros x _. unfold inode_of at 1. rewrite cached_put. destruct (Z.eqb_spec x ino) as [->|]; done.
Qed.

(** The place of an inode. *)
Lemma inode_place_ok (s : st D) ino : valid_ino ino -> inode_place sb ino s = Some ((u64 (inode_block ino * bs), inode_off ino), s).
Proof.
  intros Hv. pose proof Hv as [Hi Hg]. pose proof (so_isz Hsb) as Hz. pose proof (so_ipg Hsb) as Hp. pose proof (so_bs Hsb) as Hbs. unfold SIZEOF_INODE in *.
  destruct (so_groups Hsb) as [Hn Hn2].
  assert (E1 : u32 (ino - 1) = ino - 1) by (apply Z.mod_small; lia). unfold inode_place. rewrite E1.
  pose proof (Z.mod_pos_bound (ino - 1) (s_inodes_per_group sb) ltac:(lia)) as Hm. set (k := (ino - 1) mod s_inodes_per_group sb) in *.
  assert (Hipb : 1 <= bs / s_inode_size sb <= bs) by (split; [apply Z.div_le_lower_bound; lia|apply Z.div_le_upper_bound; nia]).
  assert (Hgr : 0 <= (ino - 1) / s_inodes_per_group sb) by (apply Z.div_pos; lia).
  mdiv. mdiv. fold k.
  mdiv.
  assert (E2 : i32 k = k) by (unfold i32, swrap; rewrite Z.mod_small; lia). rewrite E2.
  assert (E3 : i32 (bs / s_inode_size sb) = bs / s_inode_size sb) by (unfold i32, swrap; rewrite Z.mod_small; lia). rewrite E3.
  mdiv. mdiv.
  assert (E4 : i32 ((ino - 1) / s_inodes_per_group sb) = (ino - 1) / s_inodes_per_group sb) by (unfold i32, swrap; rewrite Z.mod_small; lia). rewrite E4.
  rewrite (proj2 (Z.ltb_ge _ 0)) by lia. destruct (lookup_lt_is_Some_2 (group_desc_table sb) (Z.to_nat ((ino - 1) / s_inodes_per_group sb)) ltac:(lia)) as [gd Egd].
  mnext (lift_Some _ _ s Egd). pose proof (inode_place_bounds ino Hv) as (Hb & _). revert Hb.
  unfold inode_block, inode_off. fold k. rewrite Egd. cbn [default]. unfold id. intros Hb. rewrite mret_eq.
  assert (E5 : u32 (bg_inode_table gd + k / (bs / s_inode_size sb)) = bg_inode_table gd + k / (bs / s_inode_size sb)) by (apply Z.mod_small; lia). by rewrite E5.
Qed.

(** The bytes of an inode in its block. *)
Lemma slice_inode d ino : valid_ino ino -> slice (inode_off ino) SIZEOF_INODE (block_bytes d (inode_block ino)) = bd_bytes d <$> seqZ (inode_pos ino) SIZEOF_INODE.
Proof.
  intros Hv. destruct (inode_place_bounds ino Hv) as (_ & Ho & Hle). unfold slice, block_bytes. rewrite <- fmap_drop, <- fmap_take. f_equal. apply list_eq. intros k.
  destruct (decide (k < Z.to_nat SIZEOF_INODE)%nat) as [Hk|Hk].
  - rewrite lookup_take_lt, lookup_drop by done. rewrite !lookup_seqZ_lt by (unfold SIZEOF_INODE in *; lia). f_equal. unfold inode_pos. lia.
  - rewrite !lookup_ge_None_2; [done|rewrite length_seqZ; lia|rewrite length_take; lia].
Qed.

Lemma load_inode_ok d ino : valid_ino ino -> load_inode sb (inode_off ino) (block_bytes d (inode_block ino)) = Some (disk_inode d ino).
Proof.
  intros Hv. destruct (inode_place_bounds ino Hv) as (_ & Ho & Hle). pose proof (so_isz Hsb). unfold load_inode. rewrite slice_inode by done.
  rewrite (proj2 (Z.ltb_ge _ _)) by lia. rewrite (proj2 (Z.leb_le 0 _)), (proj2 (Z.leb_le _ _)) by (rewrite ?block_bytes_length; lia). done.
Qed.

Lemma getinode_ok s ino : good s -> valid_ino ino ->
  exists s', getinode sb ino s = Some (inode_of s ino, s') /\ frame s s' /\ cached s' ino = Some (inode_of s ino).
Proof.
  intros G Hv. unfold getinode. rewrite u32_id by (destruct Hv; lia).
  rewrite (bind_Some (get_inode_map ino) _ s (cached s ino) s eq_refl). cbv beta. destruct (cached s ino) as [i|] eqn:Hc.
  { exists s. unfold inode_of. rewrite Hc. split; [done|]. split; [by apply frame_refl|done]. }
  mnext (inode_place_ok s ino Hv).
  destruct (get_buffer s G) as (b & s1 & E1 & F1 & Hb). mnext E1.
  destruct (inode_place_bounds ino Hv) as (Hbl & _). destruct (read_block s1 (inode_block ino) b (proj1 F1) Hbl Hb) as (s2 & E2 & F2).
  mnext E2. mnext (lift_Some _ _ s2 (load_inode_ok (dev s1) ino Hv)).
  assert (Ei : disk_inode (dev s1) ino = inode_of s ino).
  { unfold inode_of. rewrite Hc. cbn. apply disk_inode_same; [apply F1|by apply inode_pos_nonneg]. }
  assert (F : frame s s2) by (by eapply frame_trans). rewrite Ei, <- (proj2 (proj2 (proj2 F)) ino Hv).
  destruct (put_inode s2 ino (proj1 F)) as (s3 & E3 & F3 & C3). mnext E3.
  destruct (put_buffer s3 (block_bytes (dev s1) (inode_block ino)) (proj1 F3) (block_bytes_length _ _)) as (s4 & E4 & F4). mnext E4.
  exists s4. split; [done|]. split; [|by apply F4]. eapply frame_trans; [exact F|]. by eapply frame_trans.
Qed.

(** *** The blocks of a file *)

(** The block numbers one indirect block holds. *)
Definition base : Z := bs / 4.

(** Block [n] of a file, for the direct and the single indirect blocks. *)
Definition block_of (d : D) (i : inode) (n : Z) : Z :=
  if n <? 12 then default 0 (i_block i !! Z.to_nat n)
  else let b := default 0 (i_block i !! 12%nat) in if b =? 0 then 0 else le 4 (4 * (n - 12)) (block_bytes d b).

Definition blocks_ok (i : inode) : Prop := Forall u32_ok (i_block i) /\ length (i_block i) = 15%nat.

Lemma base_bounds : 128 <= base <= 16384 /\ bs = 4 * base.
Proof.
  pose proof (so_bs Hsb). pose proof (so_align Hsb) as Ha. unfold base. unfold SECTOR_SIZE in Ha.
  assert (E : bs = 128 * (bs / 512) * 4) by (pose proof (Z.div_mod bs 512 ltac:(lia)); lia).
  assert (E2 : bs / 4 = 128 * (bs / 512)) by (rewrite E at 1; by apply Z.div_mul). lia.
Qed.

Lemma block_lookup i n : blocks_ok i -> (n < 15)%nat -> exists b, i_block i !! n = Some b /\ u32_ok b.
Proof.
  intros [Hf Hl] Hn. destruct (lookup_lt_is_Some_2 (i_block i) n ltac:(lia)) as [b Hb]. exists b. split; [done|]. by eapply Forall_lookup_1 in Hf.
Qed.

Lemma find_slot_step len l k depth sum n : u32 (sum + len) <= n ->
  find_slot (len :: l) k depth sum n = find_slot l (S k) (if (12 <=? k)%nat then depth + 1 else depth) (u32 (sum + len)) n.
Proof. intros Hle. cbn [find_slot]. rewrite (proj2 (Z.ltb_ge n _)) by done. by rewrite andb_false_r. Qed.

Lemma find_slot_direct b n : 0 <= n < 12 -> find_slot (ladder NR_INODE_BLOCK 0 1 b) 0 0 0 n = Some (Z.to_nat n, 0).
Proof.
  intros Hn. assert (Hk : (Z.to_nat n < 12)%nat) by lia. rewrite <- (Z2Nat.id n) at 1 by lia. generalize dependent (Z.to_nat n). intros k Hk.
  do 12 (destruct k as [|k]; [reflexivity|]). lia.
Qed.

(** Past the twelve direct blocks. *)
Lemma find_slot_indirect b n : 12 <= n -> find_slot (ladder NR_INODE_BLOCK 0 1 b) 0 0 0 n = find_slot (ladder 3 12 1 b) 12 0 12 n.
Proof.
  intros Hn. change (ladder NR_INODE_BLOCK 0 1 b) with (1 :: 1 :: 1 :: 1 :: 1 :: 1 :: 1 :: 1 :: 1 :: 1 :: 1 :: 1 :: ladder 3 12 1 b).
  do 12 (rewrite find_slot_step by (match goal with |- ?x <= _ => let v := eval vm_compute in x in change x with v end; lia)). reflexivity.
Qed.

Lemma find_slot_single n : 12 <= n < 12 + base -> find_slot (ladder NR_INODE_BLOCK 0 1 base) 0 0 0 n = Some (12%nat, 1).
Proof.
  intros Hn. pose proof base_bounds. rewrite find_slot_indirect by lia. cbn [ladder find_slot Nat.leb]. rewrite Z.mul_1_l.
  rewrite (u32_id base) by lia. rewrite u32_id by lia. rewrite (proj2 (Z.leb_le 12 n)), (proj2 (Z.ltb_lt n _)) by lia. done.
Qed.

Lemma le4_range s b off : good s -> 0 <= b -> u32_ok (le 4 off (block_bytes (dev s) b)).
Proof.
  intros G Hb. unfold le. assert (Hf : Forall (fun v => 0 <= v < 256) (slice off 4 (block_bytes (dev s) b))) by (apply Forall_take, Forall_drop, block_bytes_range; done).
  pose proof (le_val_bounds _ Hf) as Hv. unfold u32_ok. split; [lia|]. eapply Z.lt_le_trans; [apply Hv|]. apply Z.pow_le_mono_r; [lia|]. unfold slice. rewrite length_take. lia.
Qed.

Lemma lad_11 b : ladder NR_INODE_BLOCK 0 1 b !! 11%nat = Some 1.
Proof. reflexivity. Qed.

(** One level of indirection. *)
Lemma walk_one s b r buf : good s -> u32_ok b -> 0 <= r < base -> length buf = Z.to_nat bs ->
  exists buf' s', walk 1 sb (array_ladder s) b r buf s = Some ((if b =? 0 then 0 else le 4 (4 * r) (block_bytes (dev s) b), buf'), s') /\ frame s s' /\ length buf' = Z.to_nat bs.
Proof.
  intros G Hb Hr Hl. pose proof base_bounds as [Hba Hbs]. cbn [walk]. destruct (Z.eqb_spec b 0) as [->|Hne].
  { exists buf, s. split; [done|]. split; [by apply frame_refl|done]. }
  destruct (read_block s b buf G) as (s1 & E1 & F1); [unfold u32_ok in Hb; lia|done|]. mnext E1.
  assert (El : array_ladder s !! (12 + 0 - 1)%nat = Some 1) by (rewrite (go_ladder s G); apply lad_11).
  mnext (lift_Some _ _ s1 El). mdiv. mdiv. rewrite Z.div_1_r.
  mnext (lift_Some _ _ s1 (rd_ok 4 (4 * r) (block_bytes (dev s) b) ltac:(lia) ltac:(rewrite block_bytes_length; lia))).
  eexists _, s1. split; [reflexivity|]. split; [done|]. apply block_bytes_length.
Qed.

Lemma get_block_no_ok s i n : good s -> blocks_ok i -> 0 <= n < 12 + base ->
  exists s', get_block_no sb i n s = Some (block_of (dev s) i n, s') /\ frame s s' /\ u32_ok (block_of (dev s) i n).
Proof.
  intros G Hi Hn. pose proof base_bounds as [Hba Hbs]. unfold get_block_no. mnext (eq_refl : gets array_ladder s = Some (array_ladder s, s)).
  assert (Ef : find_slot (array_ladder s) 0 0 0 n = find_slot (ladder NR_INODE_BLOCK 0 1 base) 0 0 0 n) by (by rewrite (go_ladder s G)). rewrite Ef. unfold block_of.
  destruct (Z.ltb_spec n 12) as [Hd|Hd].
  - rewrite find_slot_direct by lia. destruct (block_lookup i (Z.to_nat n) Hi ltac:(lia)) as (b & Eb & Hb). rewrite Eb. mnext (lift_Some _ _ s (eq_refl (Some b))).
    destruct (get_buffer s G) as (buf & s1 & E1 & F1 & Hl). mnext E1. cbn [walk Z.to_nat]. mnext (mret_eq (b, buf) s1).
    destruct (put_buffer s1 buf (proj1 F1) Hl) as (s2 & E2 & F2). mnext E2. exists s2. split; [done|]. split; [by eapply frame_trans|done].
  - rewrite find_slot_single by lia. destruct (block_lookup i 12 Hi ltac:(lia)) as (b & Eb & Hb). rewrite Eb. mnext (lift_Some _ _ s (eq_refl (Some b))).
    destruct (get_buffer s G) as (buf & s1 & E1 & F1 & Hl). mnext E1. rewrite u32_id by lia.
    replace (array_ladder s) with (array_ladder s1) by (rewrite (go_ladder s G); apply F1).
    destruct (walk_one s1 b (n - 12) buf (proj1 F1) Hb ltac:(lia) Hl) as (buf2 & s2 & E2 & F2 & Hl2). change (Z.to_nat 1) with 1%nat. mnext E2.
    destruct (put_buffer s2 buf2 (proj1 F2) Hl2) as (s3 & E3 & F3). mnext E3. exists s3. cbn [default id].
    rewrite (block_bytes_same (dev s) (dev s1) b) by (apply F1 || (unfold u32_ok in Hb; lia)). split; [done|]. split; [eapply frame_trans; [exact F1|by eapply frame_trans]|].
    case_if; [unfold u32_ok; lia|]. apply le4_range; [done|unfold u32_ok in Hb; lia].
Qed.

Lemma block_of_same d d' i n : blocks_ok i -> same_disk d d' -> block_of d' i n = block_of d i n.
Proof.
  intros Hi HD. unfold block_of. case_if; [done|]. destruct (block_lookup i 12 Hi ltac:(lia)) as (b & -> & Hb). cbn [default id]. case_if; [done|].
  by rewrite (block_bytes_same d d' b) by (done || (unfold u32_ok in Hb; lia)).
Qed.

Lemma getblock_ok s i n data : good s -> blocks_ok i -> 0 <= n < 12 + base -> length data = Z.to_nat bs ->
  exists s', getblock sb n i data s = Some (if block_of (dev s) i n =? 0 then (0, data) else (1, block_bytes (dev s) (block_of (dev s) i n)), s') /\ frame s s'.
Proof.
  intros G Hi Hn Hl. unfold getblock. destruct (get_block_no_ok s i n G Hi Hn) as (s1 & E1 & F1 & Hr). mnext E1. unfold u32_ok in Hr.
  assert (Eu : u64 (block_of (dev s) i n) = block_of (dev s) i n) by (apply Z.mod_small; lia). rewrite Eu. case_if; [by exists s1|].
  destruct (read_block s1 (block_of (dev s) i n) data (proj1 F1)) as (s2 & E2 & F2); [lia|done|]. mnext E2. exists s2.
  rewrite (block_bytes_same (dev s) (dev s1)) by (apply F1 || lia). split; [done|]. by eapply frame_trans.
Qed.

(** *** Reading *)

(** The byte of a file at [x], read from the disk directly. *)
Definition file_byte (d : D) (i : inode) (x : Z) : Z := bd_bytes d (block_pos (block_of d i (x / bs)) + x mod bs).
Definition file_bytes (d : D) (i : inode) (pos n : Z) : list Z := file_byte d i <$> seqZ pos n.

(** The bytes from [pos] on are in blocks the file has. *)
Definition mapped_file (d : D) (i : inode) (pos n : Z) : Prop :=
  forall x, pos <= x < pos + n -> x / bs < 12 + base /\ block_of d i (x / bs) <> 0.

Lemma file_bytes_same d d' i pos n : blocks_ok i -> same_disk d d' -> 0 <= pos -> (forall x, 0 <= x -> 0 <= block_of d i (x / bs)) -> file_bytes d' i pos n = file_bytes d i pos n.
Proof.
  intros Hi HD Hp Hb. pose proof (so_bs Hsb). unfold file_bytes. apply list_fmap_ext. intros k x Hx. apply lookup_seqZ in Hx as [-> _]. unfold file_byte.
  rewrite (block_of_same d d') by done. apply HD. pose proof (Hb (pos + Z.of_nat k) ltac:(lia)). pose proof (block_pos_nonneg _ H2). pose proof (Z.mod_pos_bound (pos + Z.of_nat k) bs ltac:(lia)). lia.
Qed.

Lemma block_of_range s i n : good s -> blocks_ok i -> 0 <= n -> u32_ok (block_of (dev s) i n).
Proof.
  intros G Hi Hn. unfold block_of. case_if.
  - destruct (block_lookup i (Z.to_nat n) Hi ltac:(lia)) as (b & -> & Hb). done.
  - destruct (block_lookup i 12 Hi ltac:(lia)) as (b & -> & Hb). cbn [default id]. case_if; [unfold u32_ok; lia|]. apply le4_range; [done|unfold u32_ok in Hb; lia].
Qed.

Lemma file_bytes_frame s s' i pos n : good s -> frame s s' -> blocks_ok i -> 0 <= pos -> file_bytes (dev s') i pos n = file_bytes (dev s) i pos n.
Proof.
  intros G F Hi Hp. pose proof (so_bs Hsb). apply file_bytes_same; [done|apply F|done|]. intros x Hx. eapply block_of_range; [done|done|]. apply Z.div_pos; lia.
Qed.

Lemma mapped_frame s s' i pos n : blocks_ok i -> frame s s' -> mapped_file (dev s) i pos n -> mapped_file (dev s') i pos n.
Proof. intros Hi F Hm x Hx. rewrite (block_of_same (dev s)) by (done || apply F). by apply Hm. Qed.

Lemma file_bytes_app d i pos n k : 0 <= n -> 0 <= k -> file_bytes d i pos (n + k) = file_bytes d i pos n ++ file_bytes d i (pos + n) k.
Proof. intros. unfold file_bytes. by rewrite seqZ_app, fmap_app by lia. Qed.

(** The part of a block the loop copies. *)
Lemma slice_file d i b off n : 0 <= b -> 0 <= off -> 0 <= n -> off + n <= bs -> slice off n (block_bytes d (block_of d i b)) = file_bytes d i (b * bs + off) n.
Proof.
  intros Hb Ho Hn Hle. pose proof (so_bs Hsb). apply list_eq. intros k. destruct (decide (k < Z.to_nat n)%nat) as [Hk|Hk].
  - rewrite slice_lookup by lia. unfold block_bytes, file_bytes, file_byte. rewrite !list_lookup_fmap, !lookup_seqZ_lt by lia. cbn. f_equal. f_equal.
    replace (b * bs + off + Z.of_nat k) with (off + Z.of_nat k + b * bs) by lia. rewrite Z.div_add, Z.mod_add, Z.div_small, Z.mod_small by lia. rewrite Z.add_0_l. lia.
  - rewrite !lookup_ge_None_2; [done|unfold file_bytes; rewrite length_fmap, length_seqZ; lia|rewrite slice_length by (rewrite ?block_bytes_length; lia); lia].
Qed.

Lemma ext2_read_loop_ok fuel : forall s i b off size acc buf,
  good s -> blocks_ok i -> 0 <= b -> 0 <= off < bs -> 0 <= size < 2 ^ 32 -> (Z.to_nat size < fuel)%nat -> length buf = Z.to_nat bs -> mapped_file (dev s) i (b * bs + off) size ->
  exists buf' s', ext2_read_loop fuel sb i b off size acc buf s = Some ((acc ++ file_bytes (dev s) i (b * bs + off) size, buf'), s') /\ frame s s' /\ length buf' = Z.to_nat bs.
Proof.
  induction fuel as [|fuel IH]; intros s i b off size acc buf G Hi Hb Ho Hs Hf Hl Hm; [lia|]. cbn [ext2_read_loop]. pose proof (so_bs Hsb) as Hbs. pose proof base_bounds as [Hba _].
  destruct (Z.ltb_spec 0 size) as [Hpos|Hz]; cbn [negb].
  2: { replace size with 0 by lia. exists buf, s. rewrite app_nil_r. split; [done|]. split; [by apply frame_refl|done]. }
  destruct (Hm (b * bs + off)) as [Hlt Hne]; [lia|]. rewrite Z.div_add_l, Z.div_small, Z.add_0_r in Hlt, Hne by lia. rewrite (u32_id b) by lia.
  destruct (getblock_ok s i b buf G Hi ltac:(lia) Hl) as (s1 & E1 & F1). rewrite (proj2 (Z.eqb_neq _ 0)) in E1 by done. mnext E1. change (1 <=? 0) with false. cbv iota zeta.
  assert (E3 : u64 (bs - off) = bs - off) by (apply Z.mod_small; lia). rewrite E3.
  assert (E2 : i64 (bs - off) = bs - off) by (unfold i64, swrap; rewrite Z.mod_small by lia; lia). rewrite E2, E3.
  assert (E4 : i64 size = size) by (unfold i64, swrap; rewrite Z.mod_small by lia; lia). rewrite E4.
  set (k := if size <? bs - off then size else bs - off). assert (Hk : k = Z.min size (bs - off)) by (unfold k; case_if; lia).
  rewrite slice_file by lia. assert (E5 : u64 (size - k) = size - k) by (apply Z.mod_small; lia). assert (E6 : u64 (b + 1) = b + 1) by (apply Z.mod_small; lia). rewrite E5, E6.
  assert (Em : mapped_file (dev s1) i ((b + 1) * bs + 0) (size - k)).
  { apply (mapped_frame s); [done|done|]. intros x Hx. apply Hm. destruct (Z.ltb_spec size (bs - off)); lia. }
  destruct (IH s1 i (b + 1) 0 (size - k) (acc ++ file_bytes (dev s) i (b * bs + off) k) (block_bytes (dev s) (block_of (dev s) i b))) as (buf2 & s2 & -> & F2 & Hl2);
    [apply F1|done|lia|lia|lia|lia|apply block_bytes_length|done|].
  exists buf2, s2. split; [|split; [by eapply frame_trans|done]]. do 3 f_equal. rewrite <- app_assoc. f_equal.
  replace size with (k + (size - k)) at 2 by lia. rewrite file_bytes_app by lia. f_equal. rewrite (file_bytes_frame s s1) by (done || lia).
  destruct (decide (size <= bs - off)); [replace (size - k) with 0 by lia; done|]. f_equal. lia.
Qed.

Lemma ext2_read_ok s ino pos size :
  good s -> valid_ino ino -> let i := inode_of s ino in blocks_ok i -> u32_ok (i_size i) -> 0 <= pos -> 0 <= size -> pos + size < 2 ^ 64 ->
  let n := Z.max 0 (Z.min size (i_size i - pos)) in mapped_file (dev s) i pos n ->
  exists s', ext2_read ino pos size s = Some ((n, file_bytes (dev s) i pos n), s') /\ frame s s'.
Proof.
  intros G Hv i Hi Hsz Hp Hs Hps n Hm. unfold ext2_read. unfold get_super_block. mnext (eq_refl : gets super s = Some (super s, s)). mnext (lift_Some _ _ s (go_super s G)).
  destruct (getinode_ok s ino G Hv) as (s1 & E1 & F1 & _). mnext E1. fold i. rewrite (proj2 (Z.ltb_ge pos 0)) by lia. cbn [orb]. pose proof (so_bs Hsb). unfold u32_ok in Hsz.
  destruct (Z.leb_spec (i_size i) pos) as [Hle|Hlt].
  { exists s1. replace n with 0 by lia. done. }
  assert (E2 : u64 (pos + size) = pos + size) by (apply Z.mod_small; lia). rewrite E2. cbv zeta.
  replace (if i_size i <=? pos + size then i_size i - pos else size) with n by (case_if; lia).
  destruct (get_buffer s1 (proj1 F1)) as (buf & s2 & E3 & F2 & Hl). mnext E3. mdiv. mdiv.
  assert (F12 : frame s s2) by (by eapply frame_trans). pose proof (Z.mod_pos_bound pos bs ltac:(lia)). pose proof (Z.div_mod pos bs ltac:(lia)) as Hd.
  assert (Ep : pos / bs * bs + pos mod bs = pos) by lia.
  destruct (ext2_read_loop_ok (S (Z.to_nat n)) s2 i (pos / bs) (pos mod bs) n [] buf) as (buf2 & s3 & E4 & F3 & Hl2); [apply F2|done|apply Z.div_pos; lia|done|lia|lia|done| |].
  { rewrite Ep. by apply (mapped_frame s). }
  mnext E4. destruct (put_buffer s3 buf2 (proj1 F3) Hl2) as (s4 & E5 & F4). mnext E5. exists s4. rewrite Ep. cbn [app]. rewrite (file_bytes_frame s s2) by done.
  split; [|eapply frame_trans; [exact F12|by eapply frame_trans]]. rewrite mret_eq. do 3 f_equal. unfold file_bytes. rewrite length_fmap, length_seqZ. lia.
Qed.

(** *** Writing blocks and inodes *)

(** The contents of the disk with [b] stored from [pos] on. *)
Definition stored (d d' : D) (pos : Z) (b : list Z) : Prop :=
  forall x, 0 <= x -> bd_bytes d' x = if (pos <=? x) && (x <? pos + Z.of_nat (length b)) then default 0 (b !! Z.to_nat (x - pos)) else bd_bytes d x.

(** Everything but the contents of the disk is as before. *)
Definition same_caches (s s' : st D) : Prop := good s' /\ forall ino, cached s' ino = cached s ino.

Lemma write_block s b buf : good s -> 0 <= b < 2 ^ 32 -> length buf = Z.to_nat bs -> Forall (fun v => 0 <= v < 256) buf ->
  exists s', ext2_bdev_write sb (u64 (b * bs)) buf bs s = Some (0, s') /\ stored (dev s) (dev s') (block_pos b) buf /\ same_caches s s'.
Proof.
  intros G Hb Hl Hr. unfold ext2_bdev_write. rewrite block_pos_u64 by done. pose proof (block_bounds b Hb). pose proof (so_off Hsb). pose proof (so_bs Hsb).
  rewrite take_ge by lia. assert (Hz : Z.of_nat (length buf) = bs) by lia.
  destruct (bd_write_ok (dev s) (block_pos b) buf) as (d' & -> & R & HD);
    [apply G|apply block_pos_nonneg; lia|apply block_pos_align|lia|rewrite Hz; apply Hsb|rewrite Hz; unfold block_pos; lia|rewrite Hz; by apply block_nsectors|].
  change (0 =? 0) with true. cbv iota. eexists. split; [reflexivity|]. cbn [dev set_dev]. split; [exact HD|]. split; [|done].
  destruct G as [? Gb ? ? ? ?]. split; try done. cbn [dev set_dev]. intros x Hx. rewrite HD by done. destruct (_ && _) eqn:E; [|by apply Gb].
  zbool. destruct (lookup_lt_is_Some_2 buf (Z.to_nat (x - block_pos b))) as [v Hv]; [lia|]. rewrite Hv. cbn. by eapply Forall_lookup_1 in Hr.
Qed.

(** A block read, changed in a part and written back changes that part of the disk. *)
Lemma stored_splice d d1 d' b off l : same_disk d d1 -> 0 <= b -> 0 <= off -> off + Z.of_nat (length l) <= bs -> stored d1 d' (block_pos b) (splice off l (block_bytes d b)) ->
  stored d d' (block_pos b + off) l.
Proof.
  intros HD Hb Ho Hle HS x Hx. rewrite HS by done. pose proof (so_bs Hsb). rewrite splice_length, block_bytes_length by (rewrite ?block_bytes_length; lia). rewrite Z2Nat.id by lia.
  destruct (Z.leb_spec (block_pos b) x), (Z.ltb_spec x (block_pos b + bs)), (Z.leb_spec (block_pos b + off) x), (Z.ltb_spec x (block_pos b + off + Z.of_nat (length l))); cbn [andb]; try lia; try by apply HD.
  all: rewrite splice_lookup by (rewrite ?block_bytes_length; lia); rewrite Z2Nat.id by lia.
  all: destruct (Z.leb_spec off (x - block_pos b)), (Z.ltb_spec (x - block_pos b) (off + Z.of_nat (length l))); cbn [andb]; try lia.
  1: f_equal; f_equal; lia.
  all: unfold block_bytes; rewrite list_lookup_fmap, lookup_seqZ_lt by lia; cbn; f_equal; lia.
Qed.

Lemma get_buffer_same s : good s -> exists b s', get_block_buffer s = Some (b, s') /\ same_caches s s' /\ dev s' = dev s /\ length b = Z.to_nat bs.
Proof.
  intros G. pose proof (so_bs Hsb). unfold get_block_buffer. pose proof (go_buffers s G) as Hf. destruct (buffers s) as [|b l] eqn:E.
  - eexists _, _. split; [reflexivity|]. split; [by split; [apply frame_buffers|]|]. split; [done|]. rewrite (go_size s G). apply heap_bytes_len. lia.
  - eexists _, _. split; [reflexivity|]. apply Forall_cons_1 in Hf as [Hb Hf]. by split; [split; [apply frame_buffers|]|].
Qed.

Lemma read_block_same s b buf : good s -> 0 <= b < 2 ^ 32 -> length buf = Z.to_nat bs ->
  exists s', ext2_bdev_read sb (u64 (b * bs)) buf bs s = Some ((0, block_bytes (dev s) b), s') /\ same_caches s s' /\ same_disk (dev s) (dev s').
Proof.
  intros G Hb Hl. destruct (read_block s b buf G Hb Hl) as (s' & E & F). exists s'. split; [done|]. split; [|apply F]. split; [apply F|].
  revert E. unfold ext2_bdev_read. destruct (bd_read _ _ _) as [[[r l] d]|]; [|done]. by intros [= _ _ <-].
Qed.

Lemma same_caches_trans s1 s2 s3 : same_caches s1 s2 -> same_caches s2 s3 -> same_caches s1 s3.
Proof. intros [_ C1] [G C2]. split; [done|]. intros ino. by rewrite C2. Qed.

Lemma disk_inode_stored d d' ino i : valid_ino ino -> inode_ok i -> stored d d' (inode_pos ino) (encode_inode i) -> disk_inode d' ino = i.
Proof.
  intros Hv Hi HS. rewrite <- (decode_encode_inode i Hi). unfold disk_inode. f_equal. pose proof (inode_pos_nonneg ino Hv). pose proof (encode_inode_length i Hi) as Hl.
  apply list_eq. intros k. destruct (decide (k < 128)%nat) as [Hk|Hk].
  - rewrite list_lookup_fmap, lookup_seqZ_lt by (unfold SIZEOF_INODE; lia). cbn. rewrite HS by lia. rewrite Hl, (proj2 (Z.leb_le _ _)), (proj2 (Z.ltb_lt _ _)) by lia. cbn [andb].
    replace (Z.to_nat (inode_pos ino + Z.of_nat k - inode_pos ino)) with k by lia. destruct (lookup_lt_is_Some_2 (encode_inode i) k ltac:(lia)) as [v Hv']. by rewrite Hv'.
  - rewrite !lookup_ge_None_2; [done|lia|rewrite length_fmap, length_seqZ; unfold SIZEOF_INODE; lia].
Qed.

Lemma putinode_ok s ino i : good s -> valid_ino ino -> cached s ino = Some i -> inode_ok i ->
  exists s', putinode sb ino s = Some (0, s') /\ same_caches s s' /\ stored (dev s) (dev s') (inode_pos ino) (encode_inode i) /\ disk_inode (dev s') ino = i.
Proof.
  intros G Hv Hc Hi. unfold putinode. rewrite u32_id by (destruct Hv; lia). mnext (eq_refl : get_inode_map ino s = Some (cached s ino, s)). rewrite Hc.
  mnext (inode_place_ok s ino Hv). destruct (inode_place_bounds ino Hv) as (Hb & Ho & Hle). unfold SIZEOF_INODE in Hle.
  destruct (get_buffer_same s G) as (buf & s1 & E1 & F1 & D1 & Hl). mnext E1.
  destruct (read_block_same s1 (inode_block ino) buf (proj1 F1) Hb Hl) as (s2 & E2 & F2 & D2). mnext E2. rewrite D1.
  pose proof (encode_inode_length i Hi) as He. pose proof (so_bs Hsb).
  mnext (lift_Some _ _ s2 (wr_bytes_ok (inode_off ino) (encode_inode i) (block_bytes (dev s) (inode_block ino)) ltac:(lia) ltac:(rewrite block_bytes_length; lia))).
  destruct (write_block s2 (inode_block ino) (splice (inode_off ino) (encode_inode i) (block_bytes (dev s) (inode_block ino))) (proj1 F2) Hb) as (s3 & E3 & S3 & F3).
  { rewrite splice_length; [apply block_bytes_length|lia|rewrite block_bytes_length; lia]. }
  { apply splice_bytes; [by apply encode_inode_bytes|]. apply block_bytes_range; [done|lia]. }
  mnext E3. unfold put_block_buffer, modify. erewrite bind_Some by reflexivity. cbv beta. rewrite mret_eq.
  assert (HS : stored (dev s) (dev s3) (inode_pos ino) (encode_inode i)).
  { unfold inode_pos. eapply (stored_splice (dev s) (dev s2)); [intros x Hx; rewrite D2 by done; by rewrite D1|lia|lia|lia|exact S3]. }
  eexists. split; [reflexivity|]. split; [|split; [exact HS|by eapply disk_inode_stored]].
  assert (F : same_caches s s3) by (eapply same_caches_trans; [exact F1|by eapply same_caches_trans]). destruct F as [G3 C3]. split; [|done].
  apply frame_buffers; [done|]. constructor; [|apply G3]. rewrite splice_length; [apply block_bytes_length|lia|rewrite block_bytes_length; lia].
Qed.

(** *** Allocation *)

Definition bitmap (d : D) (b : Z) : list Z := block_bytes d b.

Definition full (d : D) (b : Z) : Prop := forall m, 0 <= m < 8 * bs -> bit (bitmap d b) m = true.

(** The scan stops at the first clear bit of the first group that has one. *)
Lemma scan_groups_ok check field gds : forall i buf s,
  good s -> length buf = Z.to_nat bs -> Forall (fun gd => u32_ok (field gd)) gds ->
  (exists gd m, gd ∈ gds /\ 0 <= m < 8 * bs /\ bit (bitmap (dev s) (field gd)) m = false) ->
  exists g gd j k s', scan_groups check field sb i gds buf s = Some ((Some (i + Z.of_nat g, j, k, u64 (field gd * bs)), bitmap (dev s) (field gd)), s') /\
    gds !! g = Some gd /\ 0 <= j < bs /\ 0 <= k < 8 /\ bit (bitmap (dev s) (field gd)) (8 * j + k) = false /\
    (forall m, 0 <= m < 8 * j + k -> bit (bitmap (dev s) (field gd)) m = true) /\
    (forall g' gd', gds !! g' = Some gd' -> (g' < g)%nat -> full (dev s) (field gd')) /\ same_caches s s' /\ same_disk (dev s) (dev s').
Proof.
  induction gds as [|gd gds IH]; intros i buf s G Hl Hf (gd0 & m0 & Hin & Hm0 & Hc0); [by apply elem_of_nil in Hin|]. cbn [scan_groups]. pose proof (so_bs Hsb) as Hbs.
  apply Forall_cons_1 in Hf as [Hu Hf]. destruct (read_block_same s (field gd) buf G ltac:(exact Hu) Hl) as (s1 & E1 & F1 & D1). mnext E1.
  change (0 <? 0) with false. rewrite andb_false_r. rewrite take_ge by (rewrite block_bytes_length; lia). fold (bitmap (dev s) (field gd)).
  pose proof (find_zero_spec (bitmap (dev s) (field gd)) 0) as Hz. assert (Hlen : Z.of_nat (length (bitmap (dev s) (field gd))) = bs) by (unfold bitmap; rewrite block_bytes_length; lia).
  rewrite Hlen in Hz. destruct (find_zero 0 (bitmap (dev s) (field gd))) as [[j k]|].
  - destruct Hz as (Hj & Hk & Hf1 & Ht). rewrite Z.sub_0_r in Hf1, Ht. exists 0%nat, gd, j, k, s1. rewrite Z.add_0_r. split; [done|]. split; [done|]. split; [lia|]. split; [done|]. split; [done|]. split; [done|].
    split; [intros; lia|]. done.
  - assert (Hb : forall gd', u32_ok (field gd') -> bitmap (dev s1) (field gd') = bitmap (dev s) (field gd')).
    { intros gd' Hu'. unfold bitmap. apply block_bytes_same; [done|unfold u32_ok in Hu'; lia]. }
    destruct (IH (i + 1) (bitmap (dev s) (field gd)) s1) as (g & gd' & j & k & s2 & E2 & Hg & Hj & Hk & Hc & Ht & Hfull & F2 & D2); [apply F1|apply block_bytes_length|done| |].
    { apply elem_of_cons in Hin as [->|Hin]; [by rewrite Hz in Hc0 by done|]. exists gd0, m0. rewrite Hb by (rewrite Forall_forall in Hf; by apply Hf). done. }
    rewrite E2. assert (Hu' : u32_ok (field gd')) by (eapply Forall_lookup_1 in Hf; [|exact Hg]; done). rewrite Hb in Hc, Ht |- * by done.
    exists (S g), gd', j, k, s2. split; [by replace (i + Z.of_nat (S g)) with (i + 1 + Z.of_nat g) by lia|]. split; [done|]. split; [done|]. split; [done|]. split; [done|]. split; [done|]. split.
    + intros [|g'] gd2 Hg' Hlt; [injection Hg' as <-; exact Hz|]. cbn in Hg'. intros m Hm. rewrite <- Hb by (eapply Forall_lookup_1 in Hf; [|exact Hg']; done). by apply (Hfull g' gd2 Hg' ltac:(lia)).
    + split; [by eapply same_caches_trans|]. intros x Hx. rewrite D2 by done. by apply D1.
Qed.

(** [n] is the first clear bit of the first group [g] whose bitmap has one. *)
Definition first_clear (d : D) (field : group_desc -> Z) (g : nat) (gd : group_desc) (n : Z) : Prop :=
  group_desc_table sb !! g = Some gd /\ 0 <= n < 8 * bs /\ bit (bitmap d (field gd)) n = false /\
  (forall m, 0 <= m < n -> bit (bitmap d (field gd)) m = true) /\
  forall g' gd', group_desc_table sb !! g' = Some gd' -> (g' < g)%nat -> full d (field gd').

Definition some_clear (d : D) (field : group_desc -> Z) : Prop :=
  exists gd m, gd ∈ group_desc_table sb /\ 0 <= m < 8 * bs /\ bit (bitmap d (field gd)) m = false.

(** Only bit [n] of the bitmap in block [b] changes, from clear to set. *)
Definition bit_taken (d d' : D) (b n : Z) : Prop :=
  (forall x, 0 <= x -> x <> block_pos b + n / 8 -> bd_bytes d' x = bd_bytes d x) /\
  forall m, 0 <= m < 8 * bs -> bit (bitmap d' b) m = (m =? n) || bit (bitmap d b) m.

Lemma stored_block d d' b buf : 0 <= b -> length buf = Z.to_nat bs -> stored d d' (block_pos b) buf -> block_bytes d' b = buf.
Proof.
  intros Hb Hl HS. pose proof (so_bs Hsb). pose proof (block_pos_nonneg b Hb). apply list_eq. intros k. destruct (decide (k < Z.to_nat bs)%nat) as [Hk|Hk].
  - unfold block_bytes. rewrite list_lookup_fmap, lookup_seqZ_lt by lia. cbn. rewrite HS by lia. rewrite (proj2 (Z.leb_le _ _)), (proj2 (Z.ltb_lt _ _)) by lia. cbn [andb].
    replace (Z.to_nat (block_pos b + Z.of_nat k - block_pos b)) with k by lia. destruct (lookup_lt_is_Some_2 buf k ltac:(lia)) as [v Hv]. by rewrite Hv.
  - rewrite !lookup_ge_None_2; [done|lia|rewrite block_bytes_length; lia].
Qed.

(** Setting one bit of a bitmap. *)
Lemma bit_set (l : list Z) j k v m : 0 <= j < Z.of_nat (length l) -> 0 <= k < 8 -> 0 <= m -> l !! Z.to_nat j = Some v ->
  bit (splice j [Z.lor v (Z.shiftl 1 k)] l) m = (m =? 8 * j + k) || bit l m.
Proof.
  intros Hj Hk Hm Hv. unfold bit. pose proof (Z.div_mod m 8 ltac:(lia)) as Hd. pose proof (Z.mod_pos_bound m 8 ltac:(lia)) as Hmm. assert (Hq : 0 <= m / 8) by (apply Z.div_pos; lia).
  rewrite splice_lookup by (cbn [length]; lia). rewrite Z2Nat.id by lia. cbn [length]. destruct (Z.eq_dec (m / 8) j) as [Ej|Hne].
  - rewrite (proj2 (Z.leb_le _ _)), (proj2 (Z.ltb_lt _ _)) by lia. cbn [andb]. rewrite Ej, Z.sub_diag, Hv. change ([Z.lor v (Z.shiftl 1 k)] !! Z.to_nat 0) with (Some (Z.lor v (Z.shiftl 1 k))). cbn [default id]. rewrite Z.lor_spec, shiftl_1 by lia. rewrite orb_comm. f_equal.
    destruct (Z.eqb_spec m (8 * j + k)) as [->|Hn]; [|apply Z.pow2_bits_false; lia]. replace ((8 * j + k) mod 8) with k by lia. apply Z.pow2_bits_true. lia.
  - rewrite (proj2 (Z.eqb_neq m (8 * j + k))). 2: { intros ->. apply Hne. rewrite (Z.mul_comm 8), (Z.add_comm (j * 8)), Z.div_add, Z.div_small by lia. lia. }
    destruct (Z.leb_spec j (m / 8)), (Z.ltb_spec (m / 8) (j + Z.of_nat 1)); cbn [andb orb]; try lia; done.
Qed.

Lemma alloc_bit_ok check field number s :
  good s -> Forall (fun gd => u32_ok (field gd)) (group_desc_table sb) -> some_clear (dev s) field ->
  exists g gd n s', alloc_bit check field number sb s = Some (number (Z.of_nat g) (n / 8) (n mod 8), s') /\ first_clear (dev s) field g gd n /\
    bit_taken (dev s) (dev s') (field gd) n /\ same_caches s s'.
Proof.
  intros G Hf Hc. pose proof (so_bs Hsb) as Hbs. destruct (so_groups Hsb) as [Hn _]. unfold alloc_bit. destruct (get_buffer_same s G) as (buf & s1 & E1 & F1 & D1 & Hl). mnext E1.
  rewrite take_ge by lia. unfold some_clear in Hc. rewrite <- D1 in Hc.
  destruct (scan_groups_ok check field (group_desc_table sb) 0 buf s1 (proj1 F1) Hl Hf Hc) as (g & gd & j & k & s2 & E2 & Hg & Hj & Hk & Hcl & Hset & Hfull & F2 & D2). rewrite D1 in *.
  mnext E2. set (bm := bitmap (dev s) (field gd)) in *. assert (Hu : u32_ok (field gd)) by (eapply Forall_lookup_1 in Hf; [|exact Hg]; done). unfold u32_ok in Hu.
  assert (Hbm : Z.of_nat (length bm) = bs) by (unfold bm, bitmap; rewrite block_bytes_length; lia).
  destruct (lookup_lt_is_Some_2 bm (Z.to_nat j) ltac:(lia)) as [v Hv].
  assert (Hle : le 1 j bm = v).
  { unfold le, slice. change (Z.to_nat 1) with 1%nat. rewrite (drop_S bm v) by done. cbn [take]. unfold le_val. cbn [foldr]. rewrite take_0. cbn [foldr]. lia. }
  mnext (lift_Some _ _ s2 (rd_ok 1 j bm ltac:(lia) ltac:(lia))). rewrite Hle.
  mnext (lift_Some _ _ s2 (wr_bytes_ok j [Z.lor v (Z.shiftl 1 k)] bm ltac:(lia) ltac:(cbn [length]; lia))).
  assert (Hbytes : Forall (fun v => 0 <= v < 256) bm) by (apply block_bytes_range; [done|lia]).
  assert (Hv256 : 0 <= v < 256) by (by eapply Forall_lookup_1 in Hbytes).
  assert (Hlor : 0 <= Z.lor v (Z.shiftl 1 k) < 256).
  { rewrite shiftl_1 by lia. apply (lor_bound v (2 ^ k) 8); [lia|done|]. split; [apply Z.pow_nonneg; lia|apply Z.pow_lt_mono_r; lia]. }
  destruct (write_block s2 (field gd) (splice j [Z.lor v (Z.shiftl 1 k)] bm) (proj1 F2) ltac:(lia)) as (s3 & E3 & S3 & F3).
  { rewrite splice_length by (cbn [length]; lia). lia. }
  { apply splice_bytes; [constructor; [exact Hlor|constructor]|done]. }
  mnext E3. unfold put_block_buffer, modify. erewrite bind_Some by reflexivity. cbv beta. rewrite mret_eq. change (0 <? 0) with false. cbv iota.
  assert (En : (8 * j + k) / 8 = j /\ (8 * j + k) mod 8 = k).
  { rewrite (Z.mul_comm 8), (Z.add_comm (j * 8)), Z.div_add, Z.mod_add, Z.div_small, Z.mod_small by lia. lia. }
  exists g, gd, (8 * j + k). eexists. rewrite (proj1 En), (proj2 En), Z.add_0_l. split; [reflexivity|]. cbn [dev set_buffers]. split; [by split; [|split; [lia|]]|]. split.
  - assert (HD : same_disk (dev s) (dev s2)) by done. split.
    + intros x Hx Hne. rewrite (proj1 En) in Hne. rewrite (stored_splice (dev s) (dev s2) (dev s3) (field gd) j [Z.lor v (Z.shiftl 1 k)] HD ltac:(lia) ltac:(lia) ltac:(cbn [length]; lia) S3) by done.
      destruct (_ && _) eqn:Eb; [|done]. apply andb_true_iff in Eb as [Eb1 Eb2]. zbool. cbn [length] in Eb2. lia.
    + intros m Hm. unfold bitmap. rewrite (stored_block (dev s2) (dev s3) (field gd) (splice j [Z.lor v (Z.shiftl 1 k)] bm) ltac:(lia) ltac:(rewrite splice_length by (cbn [length]; lia); lia) S3).
      apply (bit_set bm); (done || lia).
  - assert (F : same_caches s s3) by (eapply same_caches_trans; [exact F1|by eapply same_caches_trans]). destruct F as [G3 C3]. split; [|done].
    apply frame_buffers; [done|]. constructor; [|apply G3]. rewrite splice_length by (cbn [length]; lia). lia.
Qed.

(** *** Directories *)

(** The blocks of a directory from block [n] on, with their entries. *)
Fixpoint dir_blocks (d : D) (i : inode) (n : Z) (ess : list (list (Z * list Z))) : Prop :=
  match ess with
  | [] => n < 12 + base /\ block_of d i n = 0
  | es :: ess => n < 12 + base /\ block_of d i n <> 0 /\ dir_entries (S (Z.to_nat bs)) bs 0 (block_bytes d (block_of d i n)) = Some es /\ dir_blocks d i (n + 1) ess
  end.

Lemma dir_blocks_frame s s' i : good s -> blocks_ok i -> frame s s' -> forall ess n, 0 <= n -> dir_blocks (dev s) i n ess -> dir_blocks (dev s') i n ess.
Proof.
  intros G Hi F. induction ess as [|es ess IH]; intros n Hn; cbn [dir_blocks]; rewrite (block_of_same (dev s) (dev s')) by (done || apply F); [done|]. intros (Hlt & Hne & Hes & Hrest).
  pose proof (block_of_range s i n G Hi Hn) as Hr. unfold u32_ok in Hr. rewrite (block_bytes_same (dev s) (dev s')) by (apply F || lia). repeat split; try done. apply IH; [lia|done].
Qed.

Lemma lookup_loop_ok name i : name <> [] -> Z.of_nat (length name) < 2 ^ 32 -> blocks_ok i -> forall fuel ess n buf s,
  good s -> 0 <= n -> length buf = Z.to_nat bs -> dir_blocks (dev s) i n ess -> (length ess < fuel)%nat ->
  exists s', lookup_loop fuel name sb i n buf s = Some (assoc name (concat ess), s') /\ frame s s'.
Proof.
  intros Hne Hlen Hi. pose proof base_bounds as [Hba _]. induction fuel as [|fuel IH]; intros ess n buf s G Hn Hl Hd Hf; [lia|]. cbn [lookup_loop].
  assert (Hnb : n < 12 + base) by (destruct ess; cbn [dir_blocks] in Hd; tauto).
  destruct (getblock_ok s i n buf G Hi ltac:(lia) Hl) as (s1 & E1 & F1). destruct ess as [|es ess]; cbn [dir_blocks] in Hd.
  - destruct Hd as [_ Hz]. rewrite Hz in E1. mnext E1. exists s1. done.
  - destruct Hd as (_ & Hnz & Hes & Hrest). rewrite (proj2 (Z.eqb_neq _ 0)) in E1 by done. mnext E1. change (1 <=? 0) with false. cbv iota.
    pose proof (block_of_range s i n G Hi Hn) as Hr. unfold u32_ok in Hr.
    rewrite (bind_Some _ _ _ _ _ (lift_Some _ _ s1 (dir_find_ok _ name _ _ _ es Hne Hlen (block_bytes_range s _ G (proj1 Hr)) Hes))). cbn [concat]. rewrite assoc_app.
    destruct (assoc name es) as [ino|]; [by exists s1|]. rewrite (u32_id (n + 1)) by lia.
    destruct (IH ess (n + 1) (block_bytes (dev s) (block_of (dev s) i n)) s1) as (s2 & E2 & F2); [apply F1|lia|apply block_bytes_length|apply (dir_blocks_frame s); (done || lia)|cbn in Hf; lia|].
    rewrite E2. exists s2. split; [done|]. by eapply frame_trans.
Qed.

(** The search of [ext2_lookup]; what is left is to load the inode that was found. *)
Lemma ext2_lookup_search fuel s name pino ess :
  good s -> valid_ino pino -> blocks_ok (inode_of s pino) -> name <> [] -> Z.of_nat (length name) < 2 ^ 32 ->
  dir_blocks (dev s) (inode_of s pino) 0 ess -> (length ess < fuel)%nat ->
  exists s', frame s s' /\ ext2_lookup fuel name pino s =
    match assoc name (concat ess) with
    | None => mret (-1, None)
    | Some ino => i ← getinode sb ino; mret (0, Some (mk_dentry ino (i_mode i) (i_size i)))
    end s'.
Proof.
  intros G Hv Hi Hne Hlen Hd Hf. destruct (get_buffer s G) as (buf & s1 & E1 & F1 & Hl). destruct (getinode_ok s1 pino (proj1 F1) Hv) as (s2 & E2 & F2 & _).
  assert (F12 : frame s s2) by (by eapply frame_trans). rewrite (proj2 (proj2 (proj2 F1)) pino Hv) in E2.
  destruct (lookup_loop_ok name (inode_of s pino) Hne Hlen Hi fuel ess 0 buf s2) as (s3 & E3 & F3); [apply F12|lia|done|by apply (dir_blocks_frame s)|done|].
  exists s3. split; [by eapply frame_trans|]. unfold ext2_lookup, get_super_block. mnext (eq_refl : gets super s = Some (super s, s)). mnext (lift_Some _ _ s (go_super s G)). mnext E1. mnext E2.
  rewrite (bind_Some _ _ _ _ _ E3). done.
Qed.

Lemma ext2_lookup_ok fuel s name pino ess :
  good s -> valid_ino pino -> blocks_ok (inode_of s pino) -> name <> [] -> Z.of_nat (length name) < 2 ^ 32 ->
  dir_blocks (dev s) (inode_of s pino) 0 ess -> (length ess < fuel)%nat ->
  match assoc name (concat ess) with
  | None => exists s', ext2_lookup fuel name pino s = Some ((-1, None), s') /\ frame s s'
  | Some ino => valid_ino ino ->
      exists s', ext2_lookup fuel name pino s = Some ((0, Some (mk_dentry ino (i_mode (inode_of s ino)) (i_size (inode_of s ino)))), s') /\ frame s s'
  end.
Proof.
  intros G Hv Hi Hne Hlen Hd Hf. destruct (ext2_lookup_search fuel s name pino ess G Hv Hi Hne Hlen Hd Hf) as (s1 & F1 & ->).
  destruct (assoc name (concat ess)) as [ino|]; [|by exists s1]. intros Hv2. destruct (getinode_ok s1 ino (proj1 F1) Hv2) as (s2 & E2 & F2 & _).
  mnext E2. rewrite mret_eq, (proj2 (proj2 (proj2 F1)) ino Hv2). exists s2. split; [done|]. by eapply frame_trans.
Qed.

(** *** Double indirect blocks *)

Lemma walk_two s b r buf : good s -> u32_ok b -> b <> 0 -> 0 <= r -> length buf = Z.to_nat bs ->
  exists s', frame s s' /\ walk 2 sb (array_ladder s) b r buf s =
    (block ← lift (rd 4 (4 * (r / base)) (block_bytes (dev s) b)); walk 1 sb (array_ladder s) block (r mod base) (block_bytes (dev s) b)) s'.
Proof.
  intros G Hu Hnz Hr Hl. pose proof base_bounds as [Hba Hbs]. destruct (read_block s b buf G) as (s1 & E1 & F1); [exact Hu|done|]. exists s1. split; [done|].
  change (walk 2) with (fun (sb : super_block) lad block reminder buf => if block =? 0 then mret (block, buf) else
        '(_, buf) ← ext2_bdev_read sb (u64 (block * block_size sb)) buf (block_size sb); step ← lift (lad !! (12 + 1 - 1)%nat); index ← cdiv reminder step; reminder ← cmod reminder step;
        block ← lift (rd 4 (4 * index) buf); walk 1 sb lad block reminder buf). cbv beta. rewrite (proj2 (Z.eqb_neq b 0)) by done. mnext E1.
  assert (El : array_ladder s !! (12 + 1 - 1)%nat = Some base).
  { rewrite (go_ladder s G). change ((12 + 1 - 1)%nat) with 12%nat. fold base. change (ladder NR_INODE_BLOCK 0 1 base !! 12%nat) with (Some (u32 (1 * base))). by rewrite Z.mul_1_l, u32_id by lia. }
  mnext (lift_Some _ _ s1 El). mdiv. mdiv. done.
Qed.

Lemma find_slot_double k : 0 <= k < base * base -> find_slot (ladder NR_INODE_BLOCK 0 1 base) 0 0 0 (12 + base + k) = Some (13%nat, 2).
Proof.
  intros Hk. pose proof base_bounds as [Hba _]. assert (Hsq : base * base <= 2 ^ 28) by nia. rewrite find_slot_indirect by lia. cbn [ladder Nat.leb]. rewrite Z.mul_1_l, (u32_id base) by lia.
  rewrite find_slot_step by (rewrite u32_id by lia; lia). cbn [Nat.leb]. rewrite (u32_id (12 + base)) by lia. cbn [find_slot Nat.leb]. rewrite !(u32_id (base * base)) by lia. rewrite u32_id by lia.
  rewrite (proj2 (Z.leb_le _ _)), (proj2 (Z.ltb_lt _ _)) by lia. done.
Qed.

(** For a block past the single indirect ones the first index is computed from the
    distance to block 12, which is one entry too far: entry [1 + k / base] of the first
    level is followed instead of entry [k / base], and the last ones lie outside the
    block. *)
Lemma double_indirect_off_by_one s i k b13 :
  good s -> blocks_ok i -> 0 <= k < base * base -> i_block i !! 13%nat = Some b13 -> b13 <> 0 ->
  (k / base < base - 1 ->
    exists s', get_block_no sb i (12 + base + k) s =
        Some (let b := le 4 (4 * (1 + k / base)) (block_bytes (dev s) b13) in if b =? 0 then 0 else le 4 (4 * (k mod base)) (block_bytes (dev s) b), s') /\ frame s s') /\
  (k / base = base - 1 -> get_block_no sb i (12 + base + k) s = None).
Proof.
  intros G Hi Hk Hb13 Hnz. pose proof base_bounds as [Hba Hbs]. assert (Hq : 0 <= k / base < base) by (split; [apply Z.div_pos; lia|apply Z.div_lt_upper_bound; lia]).
  assert (Hu : u32_ok b13) by (destruct Hi as [Hf _]; by eapply Forall_lookup_1 in Hf). assert (Hsq : base * base <= 2 ^ 28) by nia. unfold u32_ok in Hu.
  destruct (get_buffer s G) as (buf & s1 & E1 & F1 & Hl). destruct (walk_two s1 b13 (12 + base + k - 12) buf (proj1 F1) Hu Hnz ltac:(lia) Hl) as (s2 & F2 & E2).
  assert (Hd : (12 + base + k - 12) / base = 1 + k / base) by (replace (12 + base + k - 12) with (k + 1 * base) by lia; rewrite Z.div_add by lia; lia).
  assert (Hm : (12 + base + k - 12) mod base = k mod base) by (replace (12 + base + k - 12) with (k + 1 * base) by lia; by rewrite Z.mod_add by lia).
  rewrite Hd, Hm, (block_bytes_same (dev s) (dev s1)) in E2 by (apply F1 || lia).
  assert (Elad : array_ladder s = array_ladder s1) by (rewrite (go_ladder s G); symmetry; apply F1). pose proof (Z.mod_pos_bound k base ltac:(lia)) as Hkm.
  unfold get_block_no. mnext (eq_refl : gets array_ladder s = Some (array_ladder s, s)).
  assert (Ef : find_slot (array_ladder s) 0 0 0 (12 + base + k) = Some (13%nat, 2)) by (rewrite (go_ladder s G); by apply find_slot_double). rewrite Ef.
  mnext (lift_Some _ _ s Hb13). mnext E1. rewrite u32_id by lia. change (Z.to_nat 2) with 2%nat. rewrite Elad. split; intros Hc.
  - rewrite rd_ok in E2 by (rewrite ?block_bytes_length; lia). set (b := le 4 (4 * (1 + k / base)) (block_bytes (dev s) b13)) in *.
    assert (Hb : u32_ok b) by (apply le4_range; [done|lia]). rewrite (bind_Some _ _ _ _ _ (lift_Some (Some b) b s2 eq_refl)) in E2.
    replace (array_ladder s1) with (array_ladder s2) in E2 by (rewrite (go_ladder s1 (proj1 F1)); apply F2).
    destruct (walk_one s2 b (k mod base) (block_bytes (dev s) b13) (proj1 F2) Hb ltac:(lia) (block_bytes_length _ _)) as (buf3 & s3 & E3 & F3 & Hl3). rewrite E3 in E2.
    replace (array_ladder s2) with (array_ladder s1) in E2 by (rewrite (go_ladder s1 (proj1 F1)); symmetry; apply F2).
    mnext E2. destruct (put_buffer s3 buf3 (proj1 F3) Hl3) as (s4 & E4 & F4). mnext E4. exists s4. assert (F12 : frame s s2) by (by eapply frame_trans).
    rewrite (block_bytes_same (dev s) (dev s2)) by (apply F12 || (unfold u32_ok in Hb; lia)).
    split; [done|]. eapply frame_trans; [exact F12|by eapply frame_trans].
  - unfold rd in E2. rewrite (proj2 (Z.leb_gt (4 * (1 + k / base) + 4) (Z.of_nat (length (block_bytes (dev s) b13))))) in E2 by (rewrite block_bytes_length; lia). rewrite andb_false_r in E2. unfold mbind, SO_bind at 1 2. unfold mbind, SO_bind in E2. by rewrite E2.
Qed.

(** *** Writing into a block of a file *)

Lemma store_inode_ok s ino i f : good s -> cached s ino = Some i ->
  exists s', store_inode ino f s = Some (tt, s') /\ good s' /\ dev s' = dev s /\ cached s' ino = Some (f i) /\ forall x, x <> ino -> cached s' x = cached s x.
Proof.
  intros G Hc. eexists. split; [reflexivity|]. cbv zeta. split; [by destruct G; split|]. split; [done|]. rewrite cached_store, Z.eqb_refl, Hc. split; [done|].
  intros x Hx. by rewrite cached_store, (proj2 (Z.eqb_neq x ino)) by done.
Qed.

Lemma the_inode_ok s ino i : valid_ino ino -> cached s ino = Some i -> the_inode ino s = Some (i, s).
Proof. intros [Hv _] Hc. unfold the_inode. rewrite u32_id by lia. mnext (eq_refl : get_inode_map ino s = Some (cached s ino, s)). by rewrite Hc. Qed.

(** No block is added when the file already has the sectors. *)
Lemma grow_loop_enough fuel s ino i n sblock : valid_ino ino -> cached s ino = Some i -> 0 <= sblock < 2 ^ 32 -> sblock <= i_blocks i -> grow_loop (S fuel) sb ino n sblock s = Some (0, s).
Proof.
  intros Hv Hc Hs Hle. cbn [grow_loop]. mnext (the_inode_ok s ino i Hv Hc). rewrite u32_id by lia. by rewrite (proj2 (Z.ltb_ge _ _)) by lia.
Qed.

(** One round of the loop stores the data and adds its size to [i_size]. *)
Lemma write_loop_one fuel s ino i buf n off size buffer :
  good s -> valid_ino ino -> cached s ino = Some i -> blocks_ok i -> 0 <= n < 12 + base -> 0 < block_of (dev s) i n < 2 ^ 31 -> 0 <= off -> 0 < size -> off + size <= bs ->
  size <= Z.of_nat (length buf) -> Forall (fun v => 0 <= v < 256) buf -> length buffer = Z.to_nat bs ->
  exists s' buffer', write_loop (S (S fuel)) sb ino buf n off 0 size buffer s = Some (Some (size, buffer'), s') /\ good s' /\
    stored (dev s) (dev s') (block_pos (block_of (dev s) i n) + off) (take (Z.to_nat size) buf) /\ cached s' ino = Some (set_i_size (u32 (i_size i + size)) i) /\
    forall x j, x <> ino -> cached s x = Some j -> cached s' x = Some j.
Proof.
  intros G Hv Hc Hi Hn Hb Ho Hs Hle Hlen Hbytes Hl. pose proof (so_bs Hsb) as Hbs. pose proof base_bounds as [Hba _]. cbn [write_loop]. rewrite (proj2 (Z.ltb_lt 0 size)) by done. cbn [negb].
  mnext (the_inode_ok s ino i Hv Hc). rewrite (u32_id n) by lia. set (b := block_of (dev s) i n) in *.
  destruct (getblock_ok s i n buffer G Hi Hn Hl) as (s1 & E1 & F1). fold b in E1. rewrite (proj2 (Z.eqb_neq b 0)) in E1 by lia. mnext E1. change (1 <=? 0) with false. cbv iota zeta.
  assert (Eu : u64 (bs - off) = bs - off) by (apply Z.mod_small; lia). rewrite Eu.
  assert (Ek : (if bs - off <? size then bs - off else size) = size) by (case_if; lia). rewrite Ek, (proj2 (Z.ltb_ge _ _)) by lia.
  assert (Hlt : Z.of_nat (length (take (Z.to_nat size) buf)) = size) by (rewrite length_take; lia).
  mnext (lift_Some _ _ s1 (wr_bytes_ok off (take (Z.to_nat size) buf) (block_bytes (dev s) b) Ho ltac:(rewrite Hlt, block_bytes_length; lia))).
  destruct (get_block_no_ok s1 i n (proj1 F1) Hi Hn) as (s2 & E2 & F2 & _). rewrite (block_of_same (dev s) (dev s1)) in E2 by (done || apply F1). fold b in E2. mnext E2.
  assert (Ei : i32 b = b) by (unfold i32, swrap; rewrite Z.mod_small by lia; lia). rewrite Ei, (proj2 (Z.leb_gt b 0)) by lia. assert (F12 : frame s s2) by (by eapply frame_trans).
  set (buf2 := splice off (take (Z.to_nat size) buf) (block_bytes (dev s) b)). assert (Hl2 : length buf2 = Z.to_nat bs) by (unfold buf2; rewrite splice_length; rewrite ?block_bytes_length; lia).
  destruct (write_block s2 b buf2 (proj1 F12) ltac:(lia) Hl2) as (s3 & E3 & S3 & F3).
  { apply splice_bytes; [by apply Forall_take|]. apply block_bytes_range; [done|lia]. }
  mnext E3. change (0 <? 0) with false. cbv iota. assert (C3 : cached s3 ino = Some i) by (rewrite (proj2 F3); by apply F12).
  rewrite (u32_id ino) by (destruct Hv; lia). destruct (store_inode_ok s3 ino i (fun i => set_i_size (u32 (i_size i + size)) i) (proj1 F3) C3) as (s4 & E4 & G4 & D4 & C4 & O4). mnext E4.
  rewrite Z.sub_diag. change (u64 0) with 0. change (0 <? 0) with false. cbn [negb]. cbv iota. rewrite mret_eq, Z.add_0_l. assert (Es : u64 size = size) by (apply Z.mod_small; lia). rewrite Es.
  exists s4, buf2. split; [done|]. split; [done|]. rewrite D4. split; [|split; [done|]].
  - eapply (stored_splice (dev s) (dev s2)); [apply F12|lia|done|lia|exact S3].
  - intros x j Hx Hj. rewrite O4 by done. rewrite (proj2 F3). by apply F12.
Qed.

Lemma set_i_size_ok v i : inode_ok i -> 0 <= v < 2 ^ 32 -> inode_ok (set_i_size v i).
Proof.
  intros [H16 H32 Hb Hl Ho Hr] Hv. split; try done. cbn [set_i_size i_size i_atime i_ctime i_mtime i_dtime i_blocks i_flags osd1 i_generation i_file_acl i_dir_acl i_faddr].
  apply Forall_cons_1 in H32 as [_ H32]. by constructor.
Qed.

Lemma ext2_write_ok s ino buf pos size :
  good s -> valid_ino ino -> let i := inode_of s ino in let b := block_of (dev s) i (pos / bs) in inode_ok i ->
  0 <= pos <= i_size i -> 0 < size -> pos mod bs + size <= bs -> pos / bs < 12 + base -> 0 < b < 2 ^ 31 -> upper_div (pos + size) 512 <= i_blocks i ->
  size <= Z.of_nat (length buf) -> Forall (fun v => 0 <= v < 256) buf ->
  exists s' d, ext2_write ino buf pos size s = Some (size, s') /\ good s' /\ stored (dev s) d (block_pos b + pos mod bs) (take (Z.to_nat size) buf) /\
    let i' := set_i_size (u32 (i_size i + size)) i in
    stored d (dev s') (inode_pos ino) (encode_inode i') /\ inode_of s' ino = i' /\ disk_inode (dev s') ino = i'.
Proof.
  intros G Hv i b Hio Hp Hs Hle Hblk Hb Hup Hlen Hbytes. pose proof (so_bs Hsb) as Hbs. pose proof base_bounds as [Hba Hbe].
  assert (Hi : blocks_ok i) by (destruct Hio; by split). assert (Hdiv : 0 <= pos / bs) by (apply Z.div_pos; lia). pose proof (Z.mod_pos_bound pos bs ltac:(lia)) as Hm.
  assert (Hsz : 0 <= i_size i < 2 ^ 32) by (destruct Hio as [_ H32 _ _ _ _]; by apply Forall_cons_1 in H32 as [? _]).
  assert (Hblks : 0 <= i_blocks i < 2 ^ 32) by (destruct Hio as [_ H32 _ _ _ _]; by eapply (Forall_lookup_1 _ _ 5%nat) in H32; [|reflexivity]).
  unfold ext2_write, get_super_block. mnext (eq_refl : gets super s = Some (super s, s)). rewrite (go_super s G).
  destruct (getinode_ok s ino G Hv) as (s1 & E1 & F1 & C1). mnext E1. fold i in C1 |- *. rewrite (proj2 (Z.ltb_ge pos 0)), (proj2 (Z.ltb_ge _ pos)) by lia. cbn [orb].
  assert (Hd2 : pos < 65536 * (12 + base)) by (pose proof (Z.div_mod pos bs ltac:(lia)); nia).
  pose proof (upper_div_spec (pos + size) 512 ltac:(lia) ltac:(lia)) as Hud. assert (E2 : u64 (pos + size) = pos + size) by (apply Z.mod_small; lia). rewrite E2.
  assert (E3 : i32 (upper_div (pos + size) 512) = upper_div (pos + size) 512) by (unfold i32, swrap; rewrite Z.mod_small by lia; lia). rewrite E3. cbv zeta.
  assert (Hb5 : 0 < bs / 512) by (apply Z.div_str_pos; lia). mdiv. rewrite (u32_id (upper_div _ _)) by lia. mnext (grow_loop_enough (Z.to_nat (upper_div (pos + size) 512)) s1 ino i (i32 (i_blocks i / (bs / 512))) (upper_div (pos + size) 512) Hv C1 ltac:(lia) Hup).
  change (0 <? 0) with false. cbv iota. destruct (get_buffer s1 (proj1 F1)) as (buffer & s2 & E4 & F2 & Hl). mnext E4. mdiv. mdiv.
  assert (E5 : i32 (pos / bs) = pos / bs) by (unfold i32, swrap; rewrite Z.mod_small by lia; lia). rewrite E5. assert (F12 : frame s s2) by (by eapply frame_trans).
  assert (Ebo : block_of (dev s2) i (pos / bs) = b) by (apply block_of_same; [done|apply F12]).
  assert (Hfuel : exists f, S (Z.to_nat size) = S (S f)) by (exists (Z.to_nat size - 1)%nat; lia). destruct Hfuel as [f Hfuel]. rewrite Hfuel.
  destruct (write_loop_one f s2 ino i buf (pos / bs) (pos mod bs) size buffer) as (s3 & buf3 & E6 & G3 & S3 & C3 & _); try done; [apply F12|by apply F2|lia|lia|].
  rewrite Ebo in S3. mnext E6. destruct (putinode_ok s3 ino _ G3 Hv C3) as (s4 & E7 & F4 & S4 & D4); [apply set_i_size_ok; [done|apply Z.mod_pos_bound; lia]|]. mnext E7.
  exists s4, (dev s3). split; [done|]. split; [apply F4|]. split; [|split; [done|split; [|done]]].
  - intros x Hx. rewrite S3 by done. destruct (_ && _); [done|]. by apply F12.
  - unfold inode_of. rewrite (proj2 F4), C3. done.
Qed.

(** *** The theorems *)

Lemma good_cold s : good s -> good (set_inode_map ∅ s).
Proof. intros G. by destruct G; split. Qed.

Lemma cold_inode s ino : inode_of (set_inode_map ∅ s) ino = disk_inode (dev s) ino.
Proof. unfold inode_of, cached. cbn [inode_map set_inode_map]. by rewrite lookup_empty. Qed.

Lemma taken_twice d d' field gd n g2 gd2 n2 : bit_taken d d' (field gd) n -> first_clear d' field g2 gd2 n2 -> field gd2 = field gd -> n2 <> n.
Proof. intros [_ Hb] (_ & Hn2 & Hc & _) Ef ->. rewrite Ef, Hb, Z.eqb_refl in Hc by done. done. Qed.

Lemma tables_ok : Forall (fun gd => u32_ok (bg_block_bitmap gd)) (group_desc_table sb) /\ Forall (fun gd => u32_ok (bg_inode_bitmap gd)) (group_desc_table sb).
Proof. pose proof (so_table Hsb) as Ht. split; (eapply Forall_impl; [exact Ht|]); cbn; tauto. Qed.

(** C35: reading a file.  [ext2_read] of an inode whose requested bytes lie in direct or
    single indirect blocks returns the smaller of the size and what is left of the file,
    stores exactly the bytes the block map of the inode designates on the disk, whatever
    the position and the block boundaries crossed, always terminates, and changes neither
    the disk nor the inode any number stands for. *)
Theorem ext2_read_correct s ino pos size :
  good s -> valid_ino ino -> let i := inode_of s ino in blocks_ok i -> u32_ok (i_size i) -> 0 <= pos -> 0 <= size -> pos + size < 2 ^ 64 ->
  let n := Z.max 0 (Z.min size (i_size i - pos)) in mapped_file (dev s) i pos n ->
  exists s', ext2_read ino pos size s = Some ((n, file_bytes (dev s) i pos n), s') /\ frame s s'.
Proof. apply ext2_read_ok. Qed.

(** C36: inodes survive the disk.  Encoding and decoding are inverse; [putinode] writes
    the cached inode to its place in the inode table and changes no other byte, and a
    server with an empty cache reads the same inode back with [getinode]. *)
Theorem inode_store_roundtrip s ino i :
  good s -> valid_ino ino -> cached s ino = Some i -> inode_ok i ->
  decode_inode (encode_inode i) = i /\
  (forall l, Forall (fun b => 0 <= b < 256) l -> length l = 128%nat -> encode_inode (decode_inode l) = l /\ inode_ok (decode_inode l)) /\
  exists s', putinode sb ino s = Some (0, s') /\ stored (dev s) (dev s') (inode_pos ino) (encode_inode i) /\ (forall x, cached s' x = cached s x) /\
    exists s2, getinode sb ino (set_inode_map ∅ s') = Some (i, s2) /\ same_disk (dev s') (dev s2).
Proof.
  intros G Hv Hc Hi. split; [by apply decode_encode_inode|]. split; [intros l Hl Hn; split; [by apply encode_decode_inode|by apply decode_inode_ok]|].
  destruct (putinode_ok s ino i G Hv Hc Hi) as (s' & E & F & S & Hd). exists s'. split; [done|]. split; [done|]. split; [apply F|].
  destruct (getinode_ok (set_inode_map ∅ s') ino (good_cold s' (proj1 F)) Hv) as (s2 & E2 & F2 & _). exists s2. rewrite cold_inode, Hd in E2. split; [done|]. apply F2.
Qed.

(** C37: allocation.  When some group has a free block [alloc_block] finds the first
    clear bit of the first group that has one, sets that bit on the disk and nothing
    else, so that the bit is not found again, and returns the number of the bit plus the
    group times the block size; [alloc_inode] does the same on the inode bitmaps and
    counts from one.  In the first group the number is that of the bit. *)
Theorem alloc_correct s :
  good s ->
  (some_clear (dev s) bg_block_bitmap ->
    exists g gd n s', alloc_block sb s = Some (i64 (Z.of_nat g * bs + n), s') /\ first_clear (dev s) bg_block_bitmap g gd n /\
      bit_taken (dev s) (dev s') (bg_block_bitmap gd) n /\ same_caches s s' /\ (g = 0%nat -> i64 (Z.of_nat g * bs + n) = n) /\
      forall g2 gd2 n2, first_clear (dev s') bg_block_bitmap g2 gd2 n2 -> bg_block_bitmap gd2 = bg_block_bitmap gd -> n2 <> n) /\
  (some_clear (dev s) bg_inode_bitmap ->
    exists g gd n s', alloc_inode sb s = Some (u32 (Z.of_nat g * bs + n + 1), s') /\ first_clear (dev s) bg_inode_bitmap g gd n /\
      bit_taken (dev s) (dev s') (bg_inode_bitmap gd) n /\ same_caches s s' /\ (g = 0%nat -> u32 (Z.of_nat g * bs + n + 1) = n + 1) /\
      forall g2 gd2 n2, first_clear (dev s') bg_inode_bitmap g2 gd2 n2 -> bg_inode_bitmap gd2 = bg_inode_bitmap gd -> n2 <> n).
Proof.
  intros G. pose proof (so_bs Hsb). destruct tables_ok as [Ht1 Ht2]. split; intros Hc; [destruct (alloc_bit_ok false _ (fun i j k => i64 (i * bs + j * 8 + k)) s G Ht1 Hc) as (g & gd & n & s' & E & Hf & Hb & Hs)|
    destruct (alloc_bit_ok true _ (fun i j k => u32 (i * bs + j * 8 + k + 1)) s G Ht2 Hc) as (g & gd & n & s' & E & Hf & Hb & Hs)];
    exists g, gd, n, s'; pose proof (Z.div_mod n 8 ltac:(lia)); replace (Z.of_nat g * bs + n / 8 * 8 + n mod 8) with (Z.of_nat g * bs + n) in E by lia; (split; [exact E|]);
    (split; [done|]); (split; [done|]); (split; [done|]); destruct Hf as (_ & Hn & _); (split; [intros ->|intros g2 gd2 n2 Hf2 Ef2; by eapply taken_twice]).
  - unfold i64, swrap. rewrite Z.mod_small by lia. lia.
  - apply u32_id. lia.
Qed.

(** C38: looking a name up.  On a directory whose blocks are filled by well-formed
    records the search terminates and finds the inode of the first entry with the name
    over all blocks in order, or answers -1 when there is none; the dentry holds the mode
    and size of the inode found. *)
Theorem ext2_lookup_correct fuel s name pino ess :
  good s -> valid_ino pino -> blocks_ok (inode_of s pino) -> name <> [] -> Z.of_nat (length name) < 2 ^ 32 ->
  dir_blocks (dev s) (inode_of s pino) 0 ess -> (length ess < fuel)%nat ->
  match assoc name (concat ess) with
  | None => exists s', ext2_lookup fuel name pino s = Some ((-1, None), s') /\ frame s s'
  | Some ino => valid_ino ino ->
      exists s', ext2_lookup fuel name pino s = Some ((0, Some (mk_dentry ino (i_mode (inode_of s ino)) (i_size (inode_of s ino)))), s') /\ frame s s'
  end.
Proof. apply ext2_lookup_ok. Qed.

(** C39: writing into a block of a file.  A write that stays inside one block the file
    has stores exactly its bytes at their place and then the inode at its own, and
    returns its size; the size of the file grows by the bytes written even when they
    overwrite old ones. *)
Theorem ext2_write_in_block s ino buf pos size :
  good s -> valid_ino ino -> let i := inode_of s ino in let b := block_of (dev s) i (pos / bs) in inode_ok i ->
  0 <= pos <= i_size i -> 0 < size -> pos mod bs + size <= bs -> pos / bs < 12 + base -> 0 < b < 2 ^ 31 -> upper_div (pos + size) 512 <= i_blocks i ->
  size <= Z.of_nat (length buf) -> Forall (fun v => 0 <= v < 256) buf ->
  exists s' d, ext2_write ino buf pos size s = Some (size, s') /\ good s' /\ stored (dev s) d (block_pos b + pos mod bs) (take (Z.to_nat size) buf) /\
    let i' := set_i_size (u32 (i_size i + size)) i in
    stored d (dev s') (inode_pos ino) (encode_inode i') /\ inode_of s' ino = i' /\ disk_inode (dev s') ino = i'.
Proof. apply ext2_write_ok. Qed.
End Good.

(** ** A small file system *)

(** A disk in memory, given by the bytes it has at some positions. *)
Definition ram := Z -> Z.

Fixpoint ram_of (segs : list (Z * list Z)) : ram :=
  match segs with
  | [] => fun _ => 0
  | (p, l) :: segs => fun x => if (p <=? x) && (x <? p + Z.of_nat (length l)) then default 0 (l !! Z.to_nat (x - p)) else ram_of segs x
  end.

#[global, program] Instance ram_device : BlockDevice ram := {
  bd_read pos n d := Some (0, d <$> seqZ pos n, d);
  bd_write pos b d := Some (0, fun x => if (pos <=? x) && (x <? pos + Z.of_nat (length b)) then default 0 (b !! Z.to_nat (x - pos)) else d x);
  bd_part part pos n d := Some (0, d <$> seqZ pos n, d);
  bd_base d part := Some 0;
  bd_ready d := True;
  bd_bytes d := d;
  bd_max := 128 }.
Next Obligation. intros d pos n _ _ _ _ _. by exists d. Qed.
Next Obligation. intros d pos b _ _ _ _ _ _ _. eexists. by split; [reflexivity|]. Qed.
Next Obligation. intros d part base pos n _ [= <-] _ _ _ _ _. by exists d. Qed.

#[global, program] Instance zero_heap : Heap := { heap_bytes k n := replicate (Z.to_nat n) 0 }.
Next Obligation. intros k n _. apply length_replicate. Qed.

(** Blocks of 1024 bytes: the bitmaps in blocks 3 and 4, the inodes in block 5, the root
    directory in block 6 and the file "a" in block 7. *)
Definition ex_sb : super_block := mk_sb 64 0 0 8192 8 EXT2_SUPER_MAGIC 128 0 1024 1 [mk_gd 3 4 5].
Definition ex_root : inode := mk_inode 0x41ed 0 1024 0 0 0 0 0 2 2 0 0 (6 :: replicate 14 0) 0 0 0 0 (replicate 12 0).
Definition ex_file : inode := mk_inode 0x81a4 0 5 0 0 0 0 0 1 2 0 0 (7 :: replicate 14 0) 0 0 0 0 (replicate 12 0).
Definition ex_disk : ram := ram_of [
  (3072, [255]); (4096, [7]); (5248, encode_inode ex_root); (5376, encode_inode ex_file);
  (6144, enc 4 2 ++ enc 2 12 ++ [1; 2; 46; 0; 0; 0] ++ enc 4 3 ++ enc 2 1012 ++ [1; 1; 97]);
  (7168, [104; 101; 108; 108; 111])].
Definition ex_state : st ram := mk_st ex_disk (Some ex_sb) ∅ [] 1024 0 (ladder NR_INODE_BLOCK 0 1 256).

Lemma ex_sb_ok : sb_ok (D:=ram) ex_sb.
Proof. split; try done. repeat constructor; done. Qed.

Lemma ram_of_bytes segs x : Forall (fun q => Forall (fun v => 0 <= v < 256) q.2) segs -> 0 <= ram_of segs x < 256.
Proof.
  induction 1 as [|[p l] segs Hl Hs IH]; cbn [ram_of]; [lia|]. destruct (_ && _); [|done]. destruct (l !! _) as [v|] eqn:E; cbn; [|lia]. by eapply Forall_lookup_1 in Hl.
Qed.

Lemma ex_good : good ex_sb ex_state.
Proof.
  split; try done. intros x _. apply ram_of_bytes. repeat constructor; done.
Qed.

Lemma ex_file_inode : inode_of ex_sb ex_state 3 = ex_file.
Proof. vm_compute. reflexivity. Qed.

Lemma ex_root_inode : inode_of ex_sb ex_state 2 = ex_root.
Proof. vm_compute. reflexivity. Qed.

Lemma ex_file_ok : inode_ok ex_file.
Proof. split; try done; repeat constructor; done. Qed.

Lemma ex_root_blocks : blocks_ok ex_root.
Proof. split; [|done]. repeat constructor; done. Qed.

Lemma ext2_read_correct_witness : good ex_sb ex_state /\ exists s', ext2_read 3 1 100 ex_state = Some ((4, [101; 108; 108; 111]), s') /\ frame ex_sb ex_state s'.
Proof.
  split; [apply ex_good|]. pose proof ex_file_ok as Hok. assert (Hm : mapped_file ex_sb (dev ex_state) (inode_of ex_sb ex_state 3) 1 4).
  { intros x Hx. rewrite Z.div_small by (cbn; lia). rewrite ex_file_inode. vm_compute. done. }
  pose proof (ext2_read_correct ex_sb ex_sb_ok ex_state 3 1 100 ex_good) as Hr. cbv zeta in Hr. rewrite ex_file_inode in Hr, Hm.
  assert (En : Z.max 0 (Z.min 100 (i_size ex_file - 1)) = 4) by done. rewrite En in Hr.
  assert (Eb : file_bytes ex_sb (dev ex_state) ex_file 1 4 = [101; 108; 108; 111]) by (vm_compute; reflexivity). rewrite Eb in Hr.
  apply Hr; [done|by destruct Hok; split|by destruct Hok as [_ H32 _ _ _ _]; apply Forall_cons_1 in H32 as [? _]|lia|lia|lia|exact Hm].
Defined.

Lemma inode_store_roundtrip_witness : exists s' : st ram, putinode ex_sb 3 (set_inode_map {[3 := [(3, ex_file)]]} ex_state) = Some (0, s').
Proof.
  assert (G : good ex_sb (set_inode_map {[3 := [(3, ex_file)]]} ex_state)) by (pose proof ex_good as G; by destruct G; split).
  destruct (inode_store_roundtrip ex_sb ex_sb_ok _ 3 ex_file G) as (_ & _ & s' & E & _); [done|done|apply ex_file_ok|]. by exists s'.
Defined.

Lemma alloc_correct_witness : good ex_sb ex_state /\ exists g gd n s', alloc_block ex_sb ex_state = Some (i64 (Z.of_nat g * 1024 + n), s') /\ bit_taken ex_sb (dev ex_state) (dev s') (bg_block_bitmap gd) n.
Proof.
  split; [apply ex_good|]. destruct (alloc_correct ex_sb ex_sb_ok ex_state ex_good) as [Hb _]. destruct Hb as (g & gd & n & s' & E & _ & Ht & _).
  { exists (mk_gd 3 4 5), 8. split; [by constructor|]. split; [done|]. vm_compute. done. }
  exists g, gd, n, s'. done.
Defined.

Lemma ext2_lookup_correct_witness :
  good ex_sb ex_state /\ exists s', ext2_lookup 2 [97] 2 ex_state = Some ((0, Some (mk_dentry 3 0x81a4 5)), s') /\ frame ex_sb ex_state s'.
Proof.
  split; [apply ex_good|]. pose proof (ext2_lookup_correct ex_sb ex_sb_ok 2 ex_state [97] 2 [[(2, [46]); (3, [97])]] ex_good) as Hl.
  assert (E : assoc [97] (concat [[(2, [46]); (3, [97])]]) = Some 3) by (vm_compute; reflexivity). rewrite E, ex_root_inode, ex_file_inode in Hl.
  apply Hl; [done|apply ex_root_blocks|done|done| |cbn; lia|done].
  cbn [dir_blocks]. repeat split; vm_compute; (reflexivity || done).
Defined.

Lemma ext2_write_in_block_witness : good ex_sb ex_state /\ exists s', ext2_write 3 [72; 105] 1 2 ex_state = Some (2, s').
Proof.
  split; [apply ex_good|]. pose proof (ext2_write_in_block ex_sb ex_sb_ok ex_state 3 [72; 105] 1 2 ex_good) as Hw. cbv zeta in Hw. rewrite ex_file_inode in Hw.
  assert (Eb : block_of ex_sb (dev ex_state) ex_file (1 / block_size ex_sb) = 7) by (vm_compute; reflexivity). rewrite Eb in Hw.
  destruct Hw as (s' & d & E & _); [done|apply ex_file_ok|done|done|done|done|done|done|done|repeat constructor; done|]. by exists s'.
Defined.
