(* ===== verification/Vfs.v ===== *)
(** * The virtual file system server: [srv/vfs/vfs.c]

    The tree of directory entries, the table of open files of every process and the
    requests that use them.  The file systems and drivers are processes that answer
    requests ([FileServers]); [Ext2.run_fs] is one.  An open file belongs to one slot of
    one process, so the slots hold the files themselves; directory entries are shared
    and referred to by address. *)

From S2P Require Import Prelude Sched Ext2.

Definition NR_FILES : nat := 64.
Definition FILE_MAP_SIZE : Z := 1024.
Definition O_APPEND : Z := 1024.
Definition SEEK_SET : Z := 0.
Definition SEEK_CUR : Z := 1.
Definition SEEK_END : Z := 2.
Definition DE_NORMAL : Z := 1.
Definition DE_DEV : Z := 2.
Definition SIZEOF_F_NAME : Z := 128.
Definition SIZEOF_FILENAME : Z := 256.

(** [f_list] links an entry into [f_children] of its parent. *)
Record dentry := mk_de {
  f_fs_pid : Z; f_flags : Z; f_ino : Z; f_count : Z; f_size : Z; f_mode : Z; f_name : list Z; f_parent : Z; f_children : list Z }.

Record file := mk_file { fl_mode : Z; f_dentry : Z; f_pos : Z }.

Record proc_file := mk_pf { pf_pid : Z; filp : list (option file); cwd : Z }.

Record dev_file := mk_dev { dev_name : list Z; driver_pid : Z; dev_mode : Z }.

(** [dentries] is the memory the entries are in, [next_addr] the next address [malloc]
    returns for one, [servers] the other processes. *)
Record vfs (F : Type) := mk_vfs {
  dentries : gmap Z dentry; next_addr : Z; file_map : gmap Z (list proc_file); root_entry : Z; stdin : Z; stdout : Z; stderr : Z; mounts : list (Z * Z); servers : F }.
Arguments mk_vfs {F}.
Arguments dentries {F}.
Arguments next_addr {F}.
Arguments file_map {F}.
Arguments root_entry {F}.
Arguments stdin {F}.
Arguments stdout {F}.
Arguments stderr {F}.
Arguments mounts {F}.
Arguments servers {F}.

(** [_sendrecv] to a file system or driver: the status, [retval] and what the server
    stored; and [_kmap]. *)
Class FileServers (F : Type) := {
  sendrecv : Z -> fs_request -> F -> Z * Z * fs_answer * F;
  kmap : F -> Z }.

Definition set_count (n : Z) (e : dentry) : dentry := mk_de (f_fs_pid e) (f_flags e) (f_ino e) n (f_size e) (f_mode e) (f_name e) (f_parent e) (f_children e).
Definition set_children (l : list Z) (e : dentry) : dentry := mk_de (f_fs_pid e) (f_flags e) (f_ino e) (f_count e) (f_size e) (f_mode e) (f_name e) (f_parent e) l.
Definition set_pos (p : Z) (f : file) : file := mk_file (fl_mode f) (f_dentry f) p.
Definition set_filp (l : list (option file)) (p : proc_file) : proc_file := mk_pf (pf_pid p) l (cwd p).
Definition set_cwd (a : Z) (p : proc_file) : proc_file := mk_pf (pf_pid p) (filp p) a.

(** A hash chain: search, update of the first match, and [list_del] of it. *)
Fixpoint find_pf (pid : Z) (l : list proc_file) : option proc_file :=
  match l with
  | [] => None
  | p :: l => if pf_pid p =? pid then Some p else find_pf pid l
  end.

Fixpoint upd_pf (pid : Z) (f : proc_file -> proc_file) (l : list proc_file) : list proc_file :=
  match l with
  | [] => []
  | p :: l => if pf_pid p =? pid then f p :: l else p :: upd_pf pid f l
  end.

Fixpoint del_pf (pid : Z) (l : list proc_file) : list proc_file :=
  match l with
  | [] => []
  | p :: l => if pf_pid p =? pid then l else p :: del_pf pid l
  end.

(** [getfilename]: the name up to the next slash and the rest. *)
Fixpoint getfilename (path : list Z) : list Z * list Z :=
  match path with
  | [] => ([], [])
  | c :: path' => if c =? 47 then ([], path) else let '(n, r) := getfilename path' in (c :: n, r)
  end.

Section Vfs.
Context {F : Type} `{FileServers F}.
Abbreviation M := (SO (vfs F)).

Definition set_dentries (d : gmap Z dentry) (s : vfs F) : vfs F := mk_vfs d (next_addr s) (file_map s) (root_entry s) (stdin s) (stdout s) (stderr s) (mounts s) (servers s).
Definition set_file_map (m : gmap Z (list proc_file)) (s : vfs F) : vfs F := mk_vfs (dentries s) (next_addr s) m (root_entry s) (stdin s) (stdout s) (stderr s) (mounts s) (servers s).
Definition set_servers (x : F) (s : vfs F) : vfs F := mk_vfs (dentries s) (next_addr s) (file_map s) (root_entry s) (stdin s) (stdout s) (stderr s) (mounts s) x.

(** Accesses through a pointer to an entry. *)
Definition get_de (a : Z) : M dentry := fun s => match dentries s !! a with Some e => Some (e, s) | None => None end.
Definition upd_de (a : Z) (f : dentry -> dentry) : M unit := fun s => match dentries s !! a with Some e => Some (tt, set_dentries (<[a := f e]> (dentries s)) s) | None => None end.
Definition new_de (e : dentry) : M Z := fun s =>
  Some (next_addr s, mk_vfs (<[next_addr s := e]> (dentries s)) (next_addr s + 1) (file_map s) (root_entry s) (stdin s) (stdout s) (stderr s) (mounts s) (servers s)).
Definition count_up (a : Z) : M unit := upd_de a (fun e => set_count (i32 (f_count e + 1)) e).
Definition count_down (a : Z) : M unit := upd_de a (fun e => set_count (i32 (f_count e - 1)) e).

Definition call (pid : Z) (q : fs_request) : M (Z * Z * fs_answer) := fun s => let '(st, r, a, x) := sendrecv pid q (servers s) in Some ((st, r, a), set_servers x s).
Definition do_kmap : M Z := gets (fun s => kmap (servers s)).

(** ** Processes *)

(** The chain of a pid; a negative one indexes before the table. *)
Definition chain_of (pid : Z) : M (list proc_file) :=
  if pid <? 0 then lift None else gets (fun s => default [] (file_map s !! (pid mod FILE_MAP_SIZE))).

Definition set_chain (pid : Z) (l : list proc_file) : M unit := modify (fun s => set_file_map (<[pid mod FILE_MAP_SIZE := l]> (file_map s)) s).

Definition map_proc_file (pid : Z) : M (option proc_file) := l ← chain_of pid; mret (find_pf pid l).

Definition unmap_proc_file (pid : Z) : M Z :=
  p ← map_proc_file pid;
  match p with
  | None => mret 0
  | Some _ => l ← chain_of pid; set_chain pid (del_pf pid l);; mret 0
  end.

Definition append_proc_file (p : proc_file) : M Z :=
  l ← chain_of (pf_pid p);
  match find_pf (pf_pid p) l with
  | Some _ => mret (-1)
  | None => set_chain (pf_pid p) (l ++ [p]);; mret 0
  end.

(** A store into the [proc_file] of a process. *)
Definition upd_proc_file (pid : Z) (f : proc_file -> proc_file) : M unit := l ← chain_of pid; set_chain pid (upd_pf pid f l).

Definition make_filp (mode entry : Z) : M file := count_up entry;; mret (mk_file mode entry 0).

Definition free_filp (f : file) : M unit := count_down (f_dentry f).

(** A file for one of the standard entries. *)
Definition std_filp (entry : Z) : M file := e ← get_de entry; make_filp (f_mode e) entry.

Definition init_proc_file (pid : Z) : M proc_file :=
  root ← gets root_entry;
  count_up root;;
  a ← gets stdin; b ← gets stdout; c ← gets stderr;
  f0 ← std_filp a;
  f1 ← std_filp b;
  f2 ← std_filp c;
  mret (mk_pf pid (Some f0 :: Some f1 :: Some f2 :: replicate (NR_FILES - 3) None) root).

(** The [proc_file] of a process, made if it has none. *)
Definition get_proc_file (pid : Z) : M proc_file :=
  p ← map_proc_file pid;
  match p with
  | Some p => mret p
  | None => p ← init_proc_file pid; append_proc_file p;; mret p
  end.

Definition getfilp (pid fd : Z) : M (option file) :=
  p ← get_proc_file pid;
  if (0 <=? fd) && (fd <? Z.of_nat NR_FILES) then lift (filp p !! Z.to_nat fd) else mret None.

(** [filp->f_pos = pos] *)
Definition store_pos (pid fd pos : Z) : M unit :=
  upd_proc_file pid (fun p => set_filp (alter (fmap (set_pos pos)) (Z.to_nat fd) (filp p)) p).

(** ** Paths *)

Definition vfs_lookup_in_fs (parent : Z) (filename : list Z) : M Z :=
  pe ← get_de parent;
  k ← do_kmap;
  if negb (k =? 0) then mret 0
  else
    '(st, r, a) ← call (f_fs_pid pe) (FsLookup filename (f_ino pe));
    if negb (st =? 0) then mret 0
    else if negb (r =? 0) then mret 0
    else
      (* what the server did not store is left from [malloc] and overwritten here *)
      d ← (match a with ADentry (Some d) => mret d | _ => lift None end);
      if SIZEOF_F_NAME <=? Z.of_nat (length filename) then lift None
      else
        child ← new_de (mk_de (f_fs_pid pe) DE_NORMAL (d_ino_no d) 1 (d_size d) (d_mode d) filename parent []);
        upd_de parent (fun e => set_count (i32 (f_count e + 1)) (set_children (child :: f_children e) e));;
        mret child.

(** [list_for_each_entry] over the children of an entry. *)
Fixpoint find_child (filename : list Z) (l : list Z) : M (option Z) :=
  match l with
  | [] => mret None
  | a :: l => e ← get_de a; if bool_decide (f_name e = filename) then mret (Some a) else find_child filename l
  end.

(** A step consumes at least one character. *)
Fixpoint lookup_path (fuel : nat) (current : Z) (path : list Z) : M Z :=
  match fuel with
  | O => lift None
  | S fuel =>
      match path with
      | [] => mret current
      | _ =>
          let '(filename, rest) := getfilename path in
          if SIZEOF_FILENAME <=? Z.of_nat (length filename) then lift None
          else
            let rest := match rest with c :: r => if c =? 47 then r else rest | [] => [] end in
            if bool_decide (filename = [46; 46]) then e ← get_de current; lookup_path fuel (f_parent e) rest
            else if bool_decide (filename = [46]) then lookup_path fuel current rest
            else
              e ← get_de current;
              c ← find_child filename (f_children e);
              match c with
              | Some next => count_up next;; lookup_path fuel next rest
              | None =>
                  next ← vfs_lookup_in_fs current filename;
                  if next =? 0 then mret 0 else lookup_path fuel next rest
              end
      end
  end.

Definition vfs_lookup (cwd : Z) (path : list Z) : M Z :=
  root ← gets root_entry;
  match path with
  | c :: rest => if c =? 47 then lookup_path (S (length path)) root rest else lookup_path (S (length path)) cwd path
  | [] => mret cwd
  end.

(** ** Requests *)

Definition is_data (a : fs_answer) : list Z := match a with AData l => l | _ => [] end.

(** The common body of [vfs_read] and [vfs_write], which differ in the message they
    send. *)
Definition vfs_transfer (pid fd : Z) (q : dentry -> file -> fs_request) : M (Z * fs_answer) :=
  f ← getfilp pid fd;
  match f with
  | None => mret (-1, ANothing)
  | Some f =>
      k ← do_kmap;
      if negb (k =? 0) then mret (-1, ANothing)
      else
        e ← get_de (f_dentry f);
        '(st, r, a) ← call (f_fs_pid e) (q e f);
        if negb (st =? 0) then mret (-1, ANothing)
        else
          (if 0 <? r then store_pos pid fd (i64 (f_pos f + r)) else mret tt);;
          mret (i32 r, a)
  end.

Definition vfs_read (pid fd size : Z) : M (Z * list Z) :=
  '(r, a) ← vfs_transfer pid fd (fun e f => FsRead (f_ino e) (f_pos f) size); mret (r, is_data a).

Definition vfs_write (pid fd : Z) (buf : list Z) (size : Z) : M Z :=
  '(r, a) ← vfs_transfer pid fd (fun e f => FsWrite (f_ino e) buf (f_pos f) size); mret r.

(** The lowest free descriptor. *)
Fixpoint free_fd (fd : nat) (l : list (option file)) : option nat :=
  match l with
  | [] => None
  | None :: _ => Some fd
  | Some _ :: l => free_fd (S fd) l
  end.

Definition vfs_open (pid : Z) (path : list Z) (oflag : Z) : M Z :=
  p ← get_proc_file pid;
  entry ← vfs_lookup (cwd p) path;
  if entry =? 0 then mret (-1)
  else
    e ← get_de entry;
    f ← make_filp (f_mode e) entry;
    let f := if Z.land oflag O_APPEND =? 0 then f else set_pos (i64 (f_size e)) f in
    match free_fd 0 (filp p) with
    | Some fd => upd_proc_file pid (fun p => set_filp (<[fd := Some f]> (filp p)) p);; mret (Z.of_nat fd)
    | None => mret (-1)
    end.

Definition vfs_close (pid fd : Z) : M Z :=
  p ← map_proc_file pid;
  p ← lift p;
  slot ← (if fd <? 0 then lift None else lift (filp p !! Z.to_nat fd));
  match slot with
  | None => mret 0
  | Some f => free_filp f;; upd_proc_file pid (fun p => set_filp (<[Z.to_nat fd := None]> (filp p)) p);; mret 0
  end.

(** The new position of [vfs_lseek]. *)
Definition seek (pos size offset whence : Z) : option Z :=
  if whence =? SEEK_SET then if offset <? 0 then None else Some offset
  else if whence =? SEEK_CUR then if i64 (pos + offset) <? 0 then None else Some (i64 (pos + offset))
  else if whence =? SEEK_END then if i64 (i64 size + offset) <? 0 then None else Some (i64 (size + offset))
  else None.

Definition vfs_lseek (pid fd offset whence : Z) : M Z :=
  f ← getfilp pid fd;
  match f with
  | None => mret (-1)
  | Some f =>
      e ← get_de (f_dentry f);
      match seek (f_pos f) (f_size e) offset whence with
      | None => mret (-1)
      | Some pos => store_pos pid fd pos;; mret pos
      end
  end.

(** The path of an entry, written into a buffer of [size] bytes; the length of what was
    written, or -1.  The length of the parent's part is neither checked nor counted in
    the test of the size. *)
Fixpoint getcwdstr (fuel : nat) (entry size : Z) : M (Z * list Z) :=
  match fuel with
  | O => lift None
  | S fuel =>
      root ← gets root_entry;
      e ← get_de entry;
      let len := Z.of_nat (length (f_name e)) in
      if entry =? root then if size <? len + 1 then mret (-1, []) else mret (len, f_name e)
      else
        '(n, l) ← getcwdstr fuel (f_parent e) size;
        if size <? len + 2 then mret (-1, l)
        else if (n <? 0) || (size <? n + len + 2) then lift None
        else mret (n + len + 1, l ++ f_name e ++ [47])
  end.

Definition vfs_getcwd (fuel : nat) (pid size : Z) : M (Z * list Z) :=
  p ← map_proc_file pid;
  match p with
  | None => mret (-1, [])
  | Some p => '(n, l) ← getcwdstr fuel (cwd p) (i32 size); mret (if n <? 0 then -1 else 0, l)
  end.

Definition vfs_chdir (pid : Z) (path : list Z) : M Z :=
  p ← map_proc_file pid;
  match p with
  | None => mret (-1)
  | Some p =>
      newcwd ← vfs_lookup (cwd p) path;
      if newcwd =? 0 then mret (-1)
      else count_down (cwd p);; upd_proc_file pid (set_cwd newcwd);; mret 0
  end.

(** The result of the file system is not looked at. *)
Definition vfs_stat (pid : Z) (path : list Z) : M (Z * option stat_t) :=
  p ← map_proc_file pid;
  match p with
  | None => mret (-1, None)
  | Some p =>
      entry ← vfs_lookup (cwd p) path;
      if entry =? 0 then mret (-1, None)
      else
        e ← get_de entry;
        '(st, r, a) ← call (f_fs_pid e) (FsStat (f_ino e));
        mret (if st =? 0 then 0 else -1, match a with AStat x => x | _ => None end)
  end.

Definition vfs_getdents (pid fd nbytes : Z) : M (Z * list dirent) :=
  f ← getfilp pid fd;
  match f with
  | None => mret (-1, [])
  | Some f =>
      e ← get_de (f_dentry f);
      '(st, r, a) ← call (f_fs_pid e) (FsGetdents (f_ino e) (f_pos f) nbytes);
      if negb (st =? 0) || (r <? 0) then mret (-1, [])
      else store_pos pid fd (i64 (f_pos f + r));; mret (r, match a with ADirents l => l | _ => [] end)
  end.

Definition vfs_mkdir (pid : Z) (name : list Z) (mode : Z) : M Z :=
  p ← map_proc_file pid;
  match p with
  | None => mret (-1)
  | Some p =>
      e ← get_de (cwd p);
      '(st, r, a) ← call (f_fs_pid e) (FsMkdir (f_ino e) name mode);
      mret (if st =? 0 then i32 r else -1)
  end.

(** ** Fork, exec and exit *)

(** Copies of the open files, each with a reference. *)
Fixpoint fork_files (l : list (option file)) : M unit :=
  match l with
  | [] => mret tt
  | None :: l => fork_files l
  | Some f :: l => count_up (f_dentry f);; fork_files l
  end.

Definition vfs_forkfs (ppid pid : Z) : M Z :=
  p ← get_proc_file ppid;
  count_up (cwd p);;
  fork_files (filp p);;
  append_proc_file (mk_pf pid (filp p) (cwd p));;
  mret 0.

Fixpoint free_files (l : list (option file)) : M unit :=
  match l with
  | [] => mret tt
  | None :: l => free_files l
  | Some f :: l => free_filp f;; free_files l
  end.

Definition vfs_execfs (pid : Z) : M Z :=
  p ← map_proc_file pid;
  match p with
  | None => p ← init_proc_file pid; append_proc_file p;; mret 0
  | Some p =>
      free_files (filp p);;
      a ← gets stdin; b ← gets stdout; c ← gets stderr;
      f0 ← std_filp a;
      f1 ← std_filp b;
      f2 ← std_filp c;
      upd_proc_file pid (set_filp (Some f0 :: Some f1 :: Some f2 :: replicate (NR_FILES - 3) None));;
      mret 0
  end.

(** The reference to the working directory is kept. *)
Definition vfs_freefs (pid : Z) : M Z :=
  p ← map_proc_file pid;
  match p with
  | None => mret 0
  | Some p => free_files (filp p);; unmap_proc_file pid;; mret 0
  end.
(** ** Mounting *)

Definition set_root (a : Z) (s : vfs F) : vfs F := mk_vfs (dentries s) (next_addr s) (file_map s) a (stdin s) (stdout s) (stderr s) (mounts s) (servers s).

(** The result of the file system is not looked at: the fields it did not store are
    whatever [malloc] returned ([fresh]). *)
Definition mount_root (fresh : dentry_info) (fs_pid part : Z) : M Z :=
  let entry d := mk_de fs_pid DE_NORMAL (d_ino_no d) 1 (d_size d) (d_mode d) [47] in
  root ← gets next_addr;
  modify (set_root root);;
  k ← do_kmap;
  if negb (k =? 0) then mret (-1)
  else
    '(st, r, a) ← call fs_pid (FsMnt part);
    if negb (st =? 0) then mret (-1)
    else
      let d := match a with ADentry (Some d) => d | _ => fresh end in
      new_de (entry d root []);;
      modify (fun s => mk_vfs (dentries s) (next_addr s) (file_map s) (root_entry s) (stdin s) (stdout s) (stderr s) (mounts s ++ [(fs_pid, root)]) (servers s));;
      mret 0.

Definition dev_table : list dev_file :=
  [mk_dev [118; 105; 100; 101; 111] IPC_VIDEO 0x92; mk_dev [107; 101; 121; 98; 111; 97; 114; 100] IPC_KB 0x124].

Definition set_std (driver a : Z) (s : vfs F) : vfs F :=
  if driver =? IPC_VIDEO then mk_vfs (dentries s) (next_addr s) (file_map s) (root_entry s) (stdin s) a a (mounts s) (servers s)
  else if driver =? IPC_KB then mk_vfs (dentries s) (next_addr s) (file_map s) (root_entry s) a (stdout s) (stderr s) (mounts s) (servers s)
  else s.

(** The entries of the devices; their [f_parent] stays NULL. *)
Fixpoint mount_devs (i dev_dir : Z) (l : list dev_file) : M unit :=
  match l with
  | [] => mret tt
  | d :: l =>
      a ← new_de (mk_de (driver_pid d) DE_DEV i 1 0 (dev_mode d) (dev_name d) NULL []);
      upd_de dev_dir (fun e => set_count (i32 (f_count e + 1)) (set_children (f_children e ++ [a]) e));;
      modify (set_std (driver_pid d) a);;
      mount_devs (i + 1) dev_dir l
  end.

Definition mount_dev : M Z :=
  dev_dir ← new_de (mk_de IPC_KERNEL DE_DEV 0 0 0 0x1b6 [100; 101; 118] NULL []);
  root ← gets root_entry;
  upd_de root (fun e => set_count (i32 (f_count e + 1)) (set_children (f_children e ++ [dev_dir]) e));;
  mount_devs 0 dev_dir dev_table;;
  mret 0.

(** ** [do_process] *)

Inductive vfs_request :=
| VRead (fd size : Z)
| VWrite (fd : Z) (buf : list Z) (size : Z)
| VOpen (path : list Z) (oflag : Z)
| VClose (fd : Z)
| VLseek (fd offset whence : Z)
| VGetcwd (size : Z)
| VChdir (path : list Z)
| VStat (path : list Z)
| VGetdents (fd nbytes : Z)
| VMkdir (name : list Z) (mode : Z)
| VForkfs (child : Z)
| VExecfs
| VFreefs
| VUnknown.

(** [retval] of the answer and what was stored into the memory of the caller; [fuel]
    bounds the depth of the working directory. *)
Definition do_process (fuel : nat) (src : Z) (q : vfs_request) : M (Z * fs_answer) :=
  match q with
  | VRead fd size => '(r, l) ← vfs_read src fd size; mret (r, AData l)
  | VWrite fd buf size => r ← vfs_write src fd buf size; mret (r, ANothing)
  | VOpen path oflag => r ← vfs_open src path oflag; mret (r, ANothing)
  | VClose fd => r ← vfs_close src fd; mret (r, ANothing)
  | VLseek fd offset whence => r ← vfs_lseek src fd offset whence; mret (r, ANothing)
  | VGetcwd size => '(r, l) ← vfs_getcwd fuel src size; mret (r, AData l)
  | VChdir path => r ← vfs_chdir src path; mret (r, ANothing)
  | VStat path => '(r, x) ← vfs_stat src path; mret (r, AStat x)
  | VGetdents fd nbytes => '(r, l) ← vfs_getdents src fd nbytes; mret (r, ADirents l)
  | VMkdir name mode => r ← vfs_mkdir src name mode; mret (r, ANothing)
  | VForkfs child => r ← vfs_forkfs src child; mret (r, ANothing)
  | VExecfs => r ← vfs_execfs src; mret (r, ANothing)
  | VFreefs => r ← vfs_freefs src; mret (r, ANothing)
  | VUnknown => mret (-1, ANothing)
  end.
End Vfs.
