(* ===== verification/VfsProofs.v ===== *)
(** * The virtual file system server is correct

    The table of open files of a process changes only as its own requests say, and the
    requests of one process do not touch the table of another. *)

From S2P Require Import Prelude Sched Ext2 Vfs.

(** Take a computation apart: its first step with the result. *)
Tactic Notation "minv" hyp(H) "as" simple_intropattern(a) simple_intropattern(s) simple_intropattern(E) :=
  apply bind_inv in H as (a & s & E & H); cbv beta iota in H.

Section Proofs.
Context {F : Type} `{FileServers F}.

(** Two states of an entry: only the references and the children may differ. *)
Definition same_de (e e' : dentry) : Prop :=
  f_fs_pid e' = f_fs_pid e /\ f_ino e' = f_ino e /\ f_size e' = f_size e /\ f_mode e' = f_mode e /\ f_name e' = f_name e /\ f_parent e' = f_parent e.

Definition in_dom (d : gmap Z dentry) (a : Z) : Prop := is_Some (d !! a).

Definition pf_ok (d : gmap Z dentry) (p : proc_file) : Prop :=
  length (filp p) = NR_FILES /\ (forall fd f, filp p !! fd = Some (Some f) -> in_dom d (f_dentry f)) /\ in_dom d (cwd p).

(** Every pointer points to an entry, and a process has one table. *)
Record vfs_ok (s : vfs F) : Prop := {
  vo_nodup : forall b l, file_map s !! b = Some l -> NoDup (pf_pid <$> l);
  vo_files : forall b l p, file_map s !! b = Some l -> p ∈ l -> pf_ok (dentries s) p;
  vo_std : in_dom (dentries s) (root_entry s) /\ in_dom (dentries s) (stdin s) /\ in_dom (dentries s) (stdout s) /\ in_dom (dentries s) (stderr s);
  vo_fresh : forall a, in_dom (dentries s) a -> 0 < a < next_addr s;
  vo_next : 0 < next_addr s;
  vo_children : forall a e c, dentries s !! a = Some e -> c ∈ f_children e -> in_dom (dentries s) c;
  vo_parent : forall a e, dentries s !! a = Some e -> f_parent e = NULL \/ in_dom (dentries s) (f_parent e) }.

(** The first child with a name. *)
Fixpoint child_named (d : gmap Z dentry) (n : list Z) (l : list Z) : option Z :=
  match l with
  | [] => None
  | c :: l => if bool_decide (f_name <$> d !! c = Some n) then Some c else child_named d n l
  end.

(** Where a name leads from an entry of the tree. *)
Definition step_name (d : gmap Z dentry) (a : Z) (n : list Z) : option Z :=
  if bool_decide (n = [46]) then Some a
  else
    e ← d !! a;
    if bool_decide (n = [46; 46]) then Some (f_parent e) else child_named d n (f_children e).

Fixpoint leads (d : gmap Z dentry) (a : Z) (names : list (list Z)) : option Z :=
  match names with
  | [] => Some a
  | n :: names => b ← step_name d a n; leads d b names
  end.

(** An entry with what the file system answered for its name in its directory. *)
Definition from_fs (d : gmap Z dentry) (e : dentry) : Prop :=
  exists pe i x x', d !! f_parent e = Some pe /\ f_fs_pid e = f_fs_pid pe /\
    sendrecv (f_fs_pid pe) (FsLookup (f_name e) (f_ino pe)) x = (0, 0, ADentry (Some i), x') /\
    f_ino e = d_ino_no i /\ f_size e = d_size i /\ f_mode e = d_mode i.

(** The tree grows: no name changes its meaning, and new entries come from their file
    system. *)
Definition extends (d d' : gmap Z dentry) : Prop :=
  (forall a n b, step_name d a n = Some b -> step_name d' a n = Some b) /\
  (forall a e, d' !! a = Some e -> d !! a = None -> from_fs d' e).

(** A step that keeps the tables: entries are added, counted and linked. *)
Definition keeps (s s' : vfs F) : Prop :=
  vfs_ok s' /\ file_map s' = file_map s /\ root_entry s' = root_entry s /\ stdin s' = stdin s /\ stdout s' = stdout s /\ stderr s' = stderr s /\
  (forall a e, dentries s !! a = Some e -> exists e', dentries s' !! a = Some e' /\ same_de e e') /\ extends (dentries s) (dentries s').

Lemma extends_refl d : extends d d.
Proof. split; [done|]. intros a e He Hn. congruence. Qed.

Lemma extends_trans d1 d2 d3 : (forall a e, d2 !! a = Some e -> exists e', d3 !! a = Some e' /\ same_de e e') -> extends d1 d2 -> extends d2 d3 -> extends d1 d3.
Proof.
  intros D2 [S1 N1] [S2 N2]. split; [auto|]. intros a e3 He3 Hn. destruct (d2 !! a) as [e2|] eqn:He2; [|by eapply N2].
  destruct (N1 a e2 He2 Hn) as (pe & i & x & x' & P1 & P2 & P3 & P4 & P5 & P6). destruct (D2 a e2 He2) as (e3' & He3' & Se). rewrite He3 in He3'. injection He3' as <-.
  destruct (D2 _ pe P1) as (pe' & Hpe' & Sp). destruct Se as (E1 & E2 & E3 & E4 & E5 & E6), Sp as (Q1 & Q2 & _).
  exists pe', i, x, x'. rewrite E1, E2, E3, E4, E5, E6, Q1, Q2. done.
Qed.

Lemma keeps_refl s : vfs_ok s -> keeps s s.
Proof. intros Hs. split; [done|]. do 5 (split; [done|]). split; [|apply extends_refl]. intros a e He. by exists e. Qed.

Lemma same_de_trans e1 e2 e3 : same_de e1 e2 -> same_de e2 e3 -> same_de e1 e3.
Proof. unfold same_de. intuition congruence. Qed.

Lemma same_trans (d1 d2 d3 : gmap Z dentry) :
  (forall a e, d1 !! a = Some e -> exists e', d2 !! a = Some e' /\ same_de e e') -> (forall a e, d2 !! a = Some e -> exists e', d3 !! a = Some e' /\ same_de e e') ->
  forall a e, d1 !! a = Some e -> exists e', d3 !! a = Some e' /\ same_de e e'.
Proof. intros D1 D2 a e He. destruct (D1 a e He) as (e1 & He1 & S1). destruct (D2 a e1 He1) as (e2 & He2 & S2). exists e2. split; [done|]. by eapply same_de_trans. Qed.

Lemma keeps_trans s1 s2 s3 : keeps s1 s2 -> keeps s2 s3 -> keeps s1 s3.
Proof.
  intros (_ & M1 & R1 & A1 & B1 & C1 & D1 & X1) (O & M2 & R2 & A2 & B2 & C2 & D2 & X2). split; [done|]. do 5 (split; [congruence|]).
  split; [by eapply same_trans|by eapply extends_trans].
Qed.

Lemma keeps_dom s s' a : keeps s s' -> in_dom (dentries s) a -> in_dom (dentries s') a.
Proof. intros K [e He]. destruct K as (_ & _ & _ & _ & _ & _ & D & _). destruct (D a e He) as (e' & He' & _). by exists e'. Qed.

Lemma pf_ok_mono d d' p : (forall a, in_dom d a -> in_dom d' a) -> pf_ok d p -> pf_ok d' p.
Proof. intros Hd (Hl & Hf & Hc). split; [done|]. split; [|by apply Hd]. intros fd f Hfd. apply Hd. by eapply Hf. Qed.

Lemma child_named_same d d' n l : (forall c, c ∈ l -> f_name <$> d' !! c = f_name <$> d !! c) -> child_named d' n l = child_named d n l.
Proof.
  induction l as [|c l IH]; intros Hl; cbn [child_named]; [done|]. rewrite (Hl c) by left. case_bool_decide; [done|]. apply IH. intros x Hx. apply Hl. by right.
Qed.

Lemma child_named_elem d n l c : child_named d n l = Some c -> c ∈ l.
Proof. induction l as [|x l IH]; cbn [child_named]; [done|]. case_bool_decide; [intros [= ->]; by left|]. intros Hc. right. by apply IH. Qed.

(** A store to an entry that changes only its count and its children, of which a name
    keeps its first. *)
Lemma upd_de_ok s a f u s' :
  vfs_ok s -> (forall e, dentries s !! a = Some e -> same_de e (f e) /\ (forall c, c ∈ f_children (f e) -> in_dom (dentries s) c) /\
    forall n c, child_named (dentries s) n (f_children e) = Some c -> child_named (dentries s) n (f_children (f e)) = Some c) -> upd_de a f s = Some (u, s') ->
  keeps s s' /\ exists e, dentries s !! a = Some e /\ dentries s' = <[a := f e]> (dentries s).
Proof.
  intros Hs Hf. unfold upd_de. destruct (dentries s !! a) as [e|] eqn:Ea; [|done]. intros [= _ <-]. destruct (Hf e eq_refl) as (Hsame & Hch & Hnames).
  assert (Hd : forall x, in_dom (dentries s) x <-> in_dom (<[a := f e]> (dentries s)) x).
  { intros x. unfold in_dom. destruct (decide (x = a)) as [->|Hne]; [rewrite lookup_insert_eq, Ea|rewrite lookup_insert_ne by done]; [split; by eexists|done]. }
  split; [|by exists e]. destruct Hs as [O1 O2 O3 O4 O5 O6 O7]. split.
  - split; cbn [dentries file_map root_entry stdin stdout stderr next_addr set_dentries]; try done.
    + intros b l p Hb Hp. eapply pf_ok_mono; [intros x; apply Hd|by eapply O2].
    + rewrite <- !Hd. done.
    + intros x Hx. apply O4. by apply Hd.
    + intros x e' c Hx Hc. apply Hd. destruct (decide (x = a)) as [->|Hne]; [rewrite lookup_insert_eq in Hx; injection Hx as <-; by apply Hch|rewrite lookup_insert_ne in Hx by done; by eapply O6].
    + intros x e' Hx. destruct (decide (x = a)) as [->|Hne].
      * rewrite lookup_insert_eq in Hx. injection Hx as <-. replace (f_parent (f e)) with (f_parent e) by (symmetry; apply Hsame). destruct (O7 a e Ea) as [|Hp]; [by left|right; by apply Hd].
      * rewrite lookup_insert_ne in Hx by done. destruct (O7 x e' Hx) as [|Hp]; [by left|right; by apply Hd].
  - do 5 (split; [done|]). cbn [dentries set_dentries]. split.
    { intros x e' Hx. destruct (decide (x = a)) as [->|Hne].
      - rewrite lookup_insert_eq. exists (f e). split; [done|]. rewrite Ea in Hx. by injection Hx as <-.
      - rewrite lookup_insert_ne by done. by exists e'. }
    split; [|intros x e' Hx Hn; destruct (decide (x = a)) as [->|Hne]; [congruence|rewrite lookup_insert_ne in Hx by done; congruence]].
    assert (Hsn : forall n l, child_named (<[a := f e]> (dentries s)) n l = child_named (dentries s) n l).
    { intros n l. apply child_named_same. intros c _. destruct (decide (c = a)) as [->|Hne]; [|by rewrite lookup_insert_ne by done].
      rewrite lookup_insert_eq, Ea. cbn. f_equal. apply Hsame. }
    intros x n b. unfold step_name. case_bool_decide; [done|]. destruct (decide (x = a)) as [->|Hne]; [rewrite lookup_insert_eq, Ea|rewrite lookup_insert_ne by done].
    + cbn. replace (f_parent (f e)) with (f_parent e) by (symmetry; apply Hsame). case_bool_decide; [done|]. rewrite Hsn. apply Hnames.
    + destruct (dentries s !! x) as [e'|]; [|done]. cbn. case_bool_decide; [done|]. by rewrite Hsn.
Qed.

Lemma count_up_ok s a u s' : vfs_ok s -> count_up a s = Some (u, s') -> keeps s s' /\ in_dom (dentries s) a.
Proof.
  intros Hs E. destruct (upd_de_ok s a (fun e => set_count (i32 (f_count e + 1)) e) u s' Hs) as (K & e & He & _); [|exact E|split; [done|by exists e]].
  intros e He. split; [done|]. split; [|done]. intros c Hc. by eapply (vo_children s Hs).
Qed.

Lemma count_down_ok s a u s' : vfs_ok s -> count_down a s = Some (u, s') -> keeps s s'.
Proof.
  intros Hs E. destruct (upd_de_ok s a (fun e => set_count (i32 (f_count e - 1)) e) u s' Hs) as (K & _); [|exact E|done]. intros e He. split; [done|]. split; [|done]. intros c Hc. by eapply (vo_children s Hs).
Qed.

Lemma new_de_ok s e a s' : vfs_ok s -> f_children e = [] -> from_fs (dentries s) e -> new_de e s = Some (a, s') ->
  keeps s s' /\ dentries s' !! a = Some e /\ dentries s !! a = None /\ 0 < a /\ forall x e', dentries s !! x = Some e' -> dentries s' !! x = Some e'.
Proof.
  intros Hs Hc Hfs [= <- <-]. assert (Hp : f_parent e = NULL \/ in_dom (dentries s) (f_parent e)) by (destruct Hfs as (pe & _ & _ & _ & Hpe & _); right; by exists pe). cbn [dentries]. destruct Hs as [O1 O2 O3 O4 O5 O6 O7].
  assert (Hn : dentries s !! next_addr s = None) by (destruct (dentries s !! next_addr s) eqn:E; [|done]; pose proof (O4 (next_addr s) ltac:(by eexists)); lia).
  assert (Hlk : forall x e', dentries s !! x = Some e' -> <[next_addr s := e]> (dentries s) !! x = Some e') by (intros x e' Hx; rewrite lookup_insert_ne; [done|congruence]).
  assert (Hd : forall x, in_dom (dentries s) x -> in_dom (<[next_addr s := e]> (dentries s)) x) by (intros x [e' He']; exists e'; by apply Hlk).
  split; [|split; [by rewrite lookup_insert_eq|split; [done|done]]]. split.
  - split; cbn [dentries file_map root_entry stdin stdout stderr next_addr]; try done; try lia.
    + intros b l p Hb Hpl. eapply pf_ok_mono; [exact Hd|by eapply O2].
    + destruct O3 as (? & ? & ? & ?). auto.
    + intros x [e' Hx]. destruct (decide (x = next_addr s)) as [->|Hne]; [lia|]. rewrite lookup_insert_ne in Hx by done. pose proof (O4 x ltac:(by eexists)). lia.
    + intros x e' c Hx Hcc. apply Hd. destruct (decide (x = next_addr s)) as [->|Hne]; [rewrite lookup_insert_eq in Hx; injection Hx as <-; rewrite Hc in Hcc; by apply elem_of_nil in Hcc|].
      rewrite lookup_insert_ne in Hx by done. by eapply O6.
    + intros x e' Hx. destruct (decide (x = next_addr s)) as [->|Hne]; [rewrite lookup_insert_eq in Hx; injection Hx as <-; destruct Hp; auto|].
      rewrite lookup_insert_ne in Hx by done. destruct (O7 x e' Hx); auto.
  - do 5 (split; [done|]). cbn [dentries]. split; [intros x e' Hx; exists e'; split; [by apply Hlk|done]|]. split.
    + intros x n b. unfold step_name. case_bool_decide; [done|]. destruct (dentries s !! x) as [e'|] eqn:Hx; [|done]. rewrite (Hlk x e' Hx). cbn. case_bool_decide; [done|].
      rewrite (child_named_same (dentries s) (<[next_addr s := e]> (dentries s))); [done|]. intros c Hcc. destruct (O6 x e' c Hx Hcc) as [ec Hec]. by rewrite Hec, (Hlk c ec Hec).
    + intros x e' Hx Hno. destruct (decide (x = next_addr s)) as [->|Hne]; [|rewrite lookup_insert_ne in Hx by done; congruence].
      rewrite lookup_insert_eq in Hx. injection Hx as <-. destruct Hfs as (pe & i & y & y' & P1 & P). exists pe, i, y, y'. split; [by apply Hlk|done].
Qed.

Lemma call_ok s pid q r s' : vfs_ok s -> call pid q s = Some (r, s') -> keeps s s'.
Proof.
  intros Hs. unfold call. destruct (sendrecv pid q (servers s)) as [[[st r0] a] x]. intros [= _ <-]. split; [|do 5 (split; [done|]); split; [|apply extends_refl]; intros a0 e He; by exists e].
  destruct Hs. by split.
Qed.

Lemma call_inv s pid q st r a s' : call pid q s = Some ((st, r, a), s') -> exists x, sendrecv pid q (servers s) = (st, r, a, x) /\ s' = set_servers x s.
Proof. unfold call. destruct (sendrecv pid q (servers s)) as [[[st0 r0] a0] x]. intros [= <- <- <- <-]. by exists x. Qed.

Lemma get_de_inv (s : vfs F) a e s' : get_de a s = Some (e, s') -> s' = s /\ dentries s !! a = Some e.
Proof. unfold get_de. destruct (dentries s !! a); [|done]. by intros [= -> ->]. Qed.

(** *** Paths *)

(** A result of a search: nothing, or an entry. *)
Definition found (s : vfs F) (a : Z) : Prop := a = NULL \/ in_dom (dentries s) a.

Lemma found_keeps s s' a : keeps s s' -> found s a -> found s' a.
Proof. intros K [->|Ha]; [by left|right; by eapply keeps_dom]. Qed.

(** The file system does not give an entry for the name: [x'] are the servers after it
    was asked, or when it could not be asked. *)
Definition refused (x' : F) (e : dentry) (n : list Z) : Prop :=
  kmap x' <> 0 \/ exists x st r a, sendrecv (f_fs_pid e) (FsLookup n (f_ino e)) x = (st, r, a, x') /\ (st <> 0 \/ r <> 0).

Definition plain (n : list Z) : Prop := n <> [46; 46] /\ n <> [46].

Lemma step_plain d a e n : plain n -> d !! a = Some e -> step_name d a n = child_named d n (f_children e).
Proof. intros [H1 H2] He. unfold step_name. by rewrite He, !bool_decide_eq_false_2 by done. Qed.

(** A search in the file system finds a new child of the directory, or nothing. *)
Lemma lookup_in_fs_ok s parent filename a s' : vfs_ok s -> plain filename -> step_name (dentries s) parent filename = None -> vfs_lookup_in_fs parent filename s = Some (a, s') ->
  keeps s s' /\ exists pe, dentries s !! parent = Some pe /\
    ((a = NULL /\ dentries s' = dentries s /\ refused (servers s') pe filename) \/ (0 < a /\ in_dom (dentries s') a /\ step_name (dentries s') parent filename = Some a)).
Proof.
  intros Hs Hpl Hnone E. unfold vfs_lookup_in_fs in E. minv E as pe s1 Ep. apply get_de_inv in Ep as [-> Hpe]. rewrite (step_plain _ _ pe) in Hnone by done. minv E as k s1 Ek. injection Ek as <- <-.
  destruct (Z.eqb_spec (kmap (servers s)) 0) as [Ek|Ek]; cbn [negb] in E; [|injection E as <- <-; split; [by apply keeps_refl|]; exists pe; split; [done|]; left; split; [done|]; split; [done|]; by left].
  minv E as [[st r] ans] s1 Ec. pose proof (call_ok _ _ _ _ _ Hs Ec) as K1. apply call_inv in Ec as (x & Ec & ->).
  assert (Hno : st <> 0 \/ r <> 0 -> refused x pe filename) by (intros Hz; right; by exists (servers s), st, r, ans).
  destruct (Z.eqb_spec st 0) as [->|Hst]; cbn [negb] in E; [|injection E as <- <-; split; [done|]; exists pe; split; [done|]; left; auto].
  destruct (Z.eqb_spec r 0) as [->|Hr]; cbn [negb] in E; [|injection E as <- <-; split; [done|]; exists pe; split; [done|]; left; auto].
  minv E as d s2 Ed. assert (s2 = set_servers x s /\ ans = ADentry (Some d)) as [-> ->] by (destruct ans as [|[?|]| | |]; try done; by injection Ed as <- <-).
  destruct (SIZEOF_F_NAME <=? _); [done|]. minv E as child s2 En.
  destruct (new_de_ok (set_servers x s) (mk_de (f_fs_pid pe) DE_NORMAL (d_ino_no d) 1 (d_size d) (d_mode d) filename parent []) child s2) as (K2 & Hch & Hfr & Hpos & Hold); [apply K1|done| |done|].
  { exists pe, d, (servers s), x. done. }
  minv E as u s3 Eu. injection E as <- <-. assert (Hpe2 : dentries s2 !! parent = Some pe) by (by apply Hold).
  assert (Hnone2 : child_named (dentries s2) filename (f_children pe) = None).
  { rewrite (child_named_same (dentries s) (dentries s2)); [done|]. intros c Hc. destruct (vo_children s Hs _ _ _ Hpe Hc) as [ec Hec]. by rewrite Hec, (Hold c ec Hec). }
  destruct (upd_de_ok s2 parent (fun e => set_count (i32 (f_count e + 1)) (set_children (child :: f_children e) e)) u s3) as (K3 & pe' & Hpe' & D3); [apply K2| |exact Eu|].
  - intros e He. rewrite Hpe2 in He. injection He as <-. split; [done|]. cbn. split.
    + intros c [->|Hc]%elem_of_cons; [by eexists|]. by eapply (vo_children s2); [apply K2|..].
    + intros n c Hc. rewrite Hch. cbn. case_bool_decide as En'; [|done]. injection En' as <-. congruence.
  - split; [eapply keeps_trans; [exact K1|]; eapply keeps_trans; [exact K2|exact K3]|]. exists pe. split; [done|]. right. split; [done|]. split; [eapply keeps_dom; [exact K3|by eexists]|].
    rewrite Hpe2 in Hpe'. injection Hpe' as <-. erewrite step_plain; [|done|rewrite D3; apply lookup_insert_eq]. cbn [f_children set_count set_children child_named].
    rewrite bool_decide_eq_true_2; [done|]. rewrite D3. destruct (decide (child = parent)) as [->|Hne]; [|by rewrite lookup_insert_ne, Hch by done]. change (dentries s !! parent = None) in Hfr. congruence.
Qed.

Lemma find_child_ok filename : forall l (s : vfs F) c s', find_child filename l s = Some (c, s') -> s' = s /\ c = child_named (dentries s) filename l.
Proof.
  induction l as [|a l IH]; intros s c s' E; cbn [find_child child_named] in E |- *; [by injection E as <- <-|]. minv E as e s1 Ee. apply get_de_inv in Ee as [-> He]. rewrite He. cbn.
  case_bool_decide as En; [injection E as <- <-; split; [done|]; by rewrite bool_decide_eq_true_2 by congruence|]. rewrite bool_decide_eq_false_2 by congruence. by apply IH.
Qed.

(** The names of a path: the pieces between the slashes, the last only if not empty. *)
Fixpoint components (path : list Z) : list (list Z) :=
  match path with
  | [] => []
  | c :: path =>
      if c =? 47 then [] :: components path
      else match components path with [] => [[c]] | n :: names => (c :: n) :: names end
  end.

Definition skip_slash (rest : list Z) : list Z := match rest with c :: r => if c =? 47 then r else rest | [] => [] end.

Lemma components_step path : path <> [] -> components path = (getfilename path).1 :: components (skip_slash (getfilename path).2).
Proof.
  induction path as [|c path IH]; [done|]. intros _. cbn [components getfilename]. destruct (c =? 47) eqn:E; cbn [fst snd skip_slash]; [by rewrite E|].
  destruct path as [|c' path]; [done|]. rewrite (IH ltac:(done)). by destruct (getfilename (c' :: path)).
Qed.

(** A name on the way is neither in the tree nor in the file system. *)
Definition missing (s' : vfs F) (a : Z) (names : list (list Z)) : Prop :=
  let d := dentries s' in
  exists names1 n names2 b e, names = names1 ++ n :: names2 /\ leads d a names1 = Some b /\ d !! b = Some e /\ step_name d b n = None /\ refused (servers s') e n.

(** What a search from [a] along [names] ends in: an entry (or NULL), or nothing. *)
Definition walked (s' : vfs F) (a : Z) (names : list (list Z)) (r : Z) : Prop :=
  (leads (dentries s') a names = Some r /\ found s' r) \/ (r = NULL /\ missing s' a names).

Lemma walked_step (s s' : vfs F) a n b names r : extends (dentries s) (dentries s') -> step_name (dentries s) a n = Some b -> walked s' b names r -> walked s' a (n :: names) r.
Proof.
  intros [X _] Hst. assert (Hst' : step_name (dentries s') a n = Some b) by (by apply X). intros [[Hl Hf]|(-> & n1 & m & n2 & c & e & -> & H1 & H2)].
  - left. split; [|done]. cbn [leads]. by rewrite Hst'.
  - right. split; [done|]. exists (n :: n1), m, n2, c, e. split; [done|]. split; [|done]. cbn [leads]. by rewrite Hst'.
Qed.

Lemma lookup_path_ok fuel : forall current path s a s', vfs_ok s -> found s current -> lookup_path fuel current path s = Some (a, s') -> keeps s s' /\ walked s' current (components path) a.
Proof.
  induction fuel as [|fuel IH]; intros current path s a s' Hs Hf E; cbn [lookup_path] in E; [done|].
  destruct path as [|c0 path]; [injection E as <- <-; split; [by apply keeps_refl|by left]|]. rewrite (components_step (c0 :: path)) by done.
  destruct (getfilename (c0 :: path)) as [filename rest]. cbn [fst snd]. destruct (SIZEOF_FILENAME <=? _); [done|]. fold (skip_slash rest) in E. set (rest' := skip_slash rest) in *.
  case_bool_decide as E1.
  { minv E as e s1 Ee. apply get_de_inv in Ee as [-> He]. apply IH in E as [K W]; [|done|exact (vo_parent s Hs _ _ He)]. split; [done|].
    eapply walked_step; [apply K| |exact W]. subst filename. unfold step_name. by rewrite He. }
  case_bool_decide as E2.
  { apply IH in E as [K W]; [|done|done]. split; [done|]. eapply walked_step; [apply K| |exact W]. subst filename. unfold step_name. done. }
  assert (Hpl : plain filename) by done. minv E as e s1 Ee. apply get_de_inv in Ee as [-> He]. minv E as c s1 Ec. apply find_child_ok in Ec as [-> Hc].
  rewrite <- (step_plain (dentries s) current e filename Hpl He) in Hc. destruct c as [next|].
  - minv E as u s1 Eu. destruct (count_up_ok _ _ _ _ Hs Eu) as [K1 Hn]. destruct (IH next rest' s1 a s') as [K2 W]; [apply K1|right; by eapply keeps_dom|done|].
    assert (K : keeps s s') by (by eapply keeps_trans). split; [done|]. eapply walked_step; [apply K|by symmetry|done].
  - minv E as next s1 En. apply lookup_in_fs_ok in En as (K1 & pe & Hpe & Hn); [|done|done|done]. rewrite He in Hpe. injection Hpe as <-. destruct Hn as [(-> & D1 & Hr)|(Hpos & Hd & Hst)].
    + injection E as <- <-. split; [done|]. right. split; [done|]. exists [], filename, (components rest'), current, e. rewrite D1. done.
    + rewrite (proj2 (Z.eqb_neq next 0)) in E by lia. destruct (IH next rest' s1 a s') as [K2 W]; [apply K1|by right|done|]. split; [by eapply keeps_trans|].
      eapply walked_step; [apply K2|done|done].
Qed.

(** Where a search starts and the names it follows. *)
Definition start_of (s : vfs F) (cwd : Z) (path : list Z) : Z := match path with c :: _ => if c =? 47 then root_entry s else cwd | [] => cwd end.
Definition names_of (path : list Z) : list (list Z) := match path with c :: rest => if c =? 47 then components rest else components path | [] => [] end.

Lemma vfs_lookup_ok cwd path s a s' : vfs_ok s -> in_dom (dentries s) cwd -> vfs_lookup cwd path s = Some (a, s') -> keeps s s' /\ walked s' (start_of s cwd path) (names_of path) a.
Proof.
  intros Hs Hc E. unfold vfs_lookup in E. minv E as root s1 Er. injection Er as <- <-. destruct path as [|c rest]; [injection E as <- <-; split; [by apply keeps_refl|left; split; [done|by right]]|].
  cbn [start_of names_of]. destruct (c =? 47); (eapply lookup_path_ok; [done| |exact E]); right; [apply (vo_std s Hs)|done].
Qed.

(** *** Tables *)

(** The table of a process. *)
Definition table (s : vfs F) (pid : Z) : option proc_file := find_pf pid (default [] (file_map s !! (pid mod FILE_MAP_SIZE))).

Lemma find_pf_Some pid l p : find_pf pid l = Some p -> p ∈ l /\ pf_pid p = pid.
Proof.
  induction l as [|q l IH]; cbn [find_pf]; [done|]. destruct (Z.eqb_spec (pf_pid q) pid) as [E|E]; [intros [= <-]; split; [by left|done]|]. intros [Hp Hq]%IH. split; [by right|done].
Qed.

Lemma find_pf_None pid l : find_pf pid l = None <-> pid ∉ (pf_pid <$> l).
Proof.
  induction l as [|q l IH]; cbn [find_pf fmap list_fmap]; [split; [intros _; apply not_elem_of_nil|done]|]. rewrite not_elem_of_cons. destruct (Z.eqb_spec (pf_pid q) pid) as [E|E]; [|rewrite IH]; intuition congruence.
Qed.

Lemma table_ok s pid p : vfs_ok s -> table s pid = Some p -> pf_ok (dentries s) p /\ pf_pid p = pid.
Proof.
  intros Hs. unfold table. destruct (file_map s !! (pid mod FILE_MAP_SIZE)) as [l|] eqn:E; cbn [default]; [|done]. unfold id. intros [Hp Hq]%find_pf_Some. split; [by eapply (vo_files s Hs)|done].
Qed.

Lemma table_keeps s s' pid : keeps s s' -> table s' pid = table s pid.
Proof. intros (_ & M & _). unfold table. by rewrite M. Qed.

Lemma chain_of_inv pid (s : vfs F) l s' : chain_of pid s = Some (l, s') -> 0 <= pid /\ s' = s /\ l = default [] (file_map s !! (pid mod FILE_MAP_SIZE)).
Proof. unfold chain_of. destruct (Z.ltb_spec pid 0); [done|]. by intros [= <- <-]. Qed.

Lemma map_proc_file_inv pid (s : vfs F) p s' : map_proc_file pid s = Some (p, s') -> 0 <= pid /\ s' = s /\ p = table s pid.
Proof. intros E. unfold map_proc_file in E. minv E as l s1 El. apply chain_of_inv in El as (Hp & -> & ->). by injection E as <- <-. Qed.

(** A chain is replaced by one with valid tables. *)
Lemma set_chain_ok s pid l u s' :
  vfs_ok s -> NoDup (pf_pid <$> l) -> (forall p, p ∈ l -> pf_ok (dentries s) p) -> set_chain pid l s = Some (u, s') ->
  vfs_ok s' /\ dentries s' = dentries s /\ servers s' = servers s /\ forall x, table s' x = if decide (x mod FILE_MAP_SIZE = pid mod FILE_MAP_SIZE) then find_pf x l else table s x.
Proof.
  intros Hs Hn Hp [= <- <-]. split; [|split; [done|split; [done|]]].
  - destruct Hs as [O1 O2 O3 O4 O5 O6 O7]. split; cbn [dentries file_map root_entry stdin stdout stderr next_addr set_file_map]; try done.
    + intros b l' Hb. destruct (decide (b = pid mod FILE_MAP_SIZE)) as [->|Hne]; [rewrite lookup_insert_eq in Hb; by injection Hb as <-|rewrite lookup_insert_ne in Hb by done; by eapply O1].
    + intros b l' p Hb Hpl. destruct (decide (b = pid mod FILE_MAP_SIZE)) as [->|Hne]; [rewrite lookup_insert_eq in Hb; injection Hb as <-; by apply Hp|rewrite lookup_insert_ne in Hb by done; by eapply O2].
  - intros x. unfold table. cbn [file_map set_file_map]. destruct (decide _) as [->|Hne]; [by rewrite lookup_insert_eq|by rewrite lookup_insert_ne by done].
Qed.

Lemma upd_pf_find pid f l x : (forall p, pf_pid (f p) = pf_pid p) -> find_pf x (upd_pf pid f l) = if x =? pid then f <$> find_pf x l else find_pf x l.
Proof.
  intros Hf. induction l as [|p l IH]; cbn [upd_pf find_pf]; [by case_if|]. destruct (Z.eqb_spec (pf_pid p) pid) as [Ep|Ep]; cbn [find_pf]; rewrite ?Hf.
  - destruct (Z.eqb_spec (pf_pid p) x) as [Ex|Ex]; destruct (Z.eqb_spec x pid); (done || congruence).
  - destruct (Z.eqb_spec (pf_pid p) x) as [Ex|Ex]; [|done]. by rewrite (proj2 (Z.eqb_neq x pid)) by congruence.
Qed.

Lemma upd_pf_pids pid f l : (forall p, pf_pid (f p) = pf_pid p) -> pf_pid <$> upd_pf pid f l = pf_pid <$> l.
Proof. intros Hf. induction l as [|p l IH]; [done|]. cbn [upd_pf]. destruct (pf_pid p =? pid); cbn [fmap list_fmap]; [by rewrite Hf|by f_equal]. Qed.

Lemma elem_of_upd_pf pid f l p : p ∈ upd_pf pid f l -> p ∈ l \/ exists q, find_pf pid l = Some q /\ p = f q.
Proof.
  induction l as [|q l IH]; cbn [upd_pf find_pf]; [auto|]. destruct (Z.eqb_spec (pf_pid q) pid) as [E|E]; intros [->|Hp]%elem_of_cons; [right; by exists q|left; by right|left; by left|].
  destruct (IH Hp); [left; by right|by right].
Qed.

Lemma chain_nodup s pid : vfs_ok s -> NoDup (pf_pid <$> default [] (file_map s !! (pid mod FILE_MAP_SIZE))).
Proof. intros Hs. destruct (file_map s !! _) as [l|] eqn:E; [by eapply (vo_nodup s Hs)|constructor]. Qed.

Lemma chain_files s pid p : vfs_ok s -> p ∈ default [] (file_map s !! (pid mod FILE_MAP_SIZE)) -> pf_ok (dentries s) p.
Proof. intros Hs. destruct (file_map s !! _) as [l|] eqn:E; [by eapply (vo_files s Hs)|by intros ?%elem_of_nil]. Qed.

(** The tables after a change of the table of [pid] to [o]. *)
Definition tables (s s' : vfs F) (pid : Z) (o : option proc_file) : Prop := forall x, table s' x = if x =? pid then o else table s x.

Lemma upd_proc_file_ok s pid f u s' p :
  vfs_ok s -> (forall p, pf_pid (f p) = pf_pid p) -> table s pid = Some p -> pf_ok (dentries s) (f p) -> upd_proc_file pid f s = Some (u, s') ->
  vfs_ok s' /\ dentries s' = dentries s /\ servers s' = servers s /\ tables s s' pid (Some (f p)).
Proof.
  intros Hs Hf Ht Hok E. unfold upd_proc_file in E. minv E as l s1 El. apply chain_of_inv in El as (Hp & -> & ->). set (l := default [] (file_map s !! (pid mod FILE_MAP_SIZE))) in *.
  apply set_chain_ok in E as (O & D & V & T); [|done|rewrite upd_pf_pids by done; by apply chain_nodup|].
  - split; [done|]. split; [done|]. split; [done|]. intros x. rewrite T. destruct (Z.eqb_spec x pid) as [->|Hx].
    + rewrite decide_True, upd_pf_find, Z.eqb_refl by done. change (find_pf pid l) with (table s pid). by rewrite Ht.
    + destruct (decide _) as [Em|Em]; [|done]. rewrite upd_pf_find, (proj2 (Z.eqb_neq x pid)) by done. unfold table. by rewrite Em.
  - intros q [Hq|(q' & Hq & ->)]%elem_of_upd_pf; [by eapply chain_files|]. change (find_pf pid l) with (table s pid) in Hq. rewrite Ht in Hq. by injection Hq as <-.
Qed.

(** A step that may change tables. *)
Definition grows (s s' : vfs F) : Prop :=
  vfs_ok s' /\ root_entry s' = root_entry s /\ stdin s' = stdin s /\ stdout s' = stdout s /\ stderr s' = stderr s /\
  (forall a e, dentries s !! a = Some e -> exists e', dentries s' !! a = Some e' /\ same_de e e') /\ extends (dentries s) (dentries s').

Lemma keeps_grows s s' : keeps s s' -> grows s s'.
Proof. intros (O & _ & K). done. Qed.

Lemma grows_trans s1 s2 s3 : grows s1 s2 -> grows s2 s3 -> grows s1 s3.
Proof.
  intros (_ & R1 & A1 & B1 & C1 & D1 & X1) (O & R2 & A2 & B2 & C2 & D2 & X2). split; [done|]. do 4 (split; [congruence|]). split; [by eapply same_trans|by eapply extends_trans].
Qed.

Lemma grows_dom s s' a : grows s s' -> in_dom (dentries s) a -> in_dom (dentries s') a.
Proof. intros (_ & _ & _ & _ & _ & D & _) [e He]. destruct (D a e He) as (e' & He' & _). by exists e'. Qed.

Lemma same_de_refl e : same_de e e.
Proof. done. Qed.

(** [upd_proc_file] and the others change only tables. *)
Lemma upd_proc_file_grows s pid f u s' p :
  vfs_ok s -> (forall p, pf_pid (f p) = pf_pid p) -> table s pid = Some p -> pf_ok (dentries s) (f p) -> upd_proc_file pid f s = Some (u, s') ->
  grows s s' /\ tables s s' pid (Some (f p)).
Proof.
  intros Hs Hf Ht Hok E. pose proof E as E'. eapply upd_proc_file_ok in E as (O & D & V & T); try done. split; [|done]. split; [done|].
  unfold upd_proc_file in E'. minv E' as l s1 El. apply chain_of_inv in El as (_ & -> & _). injection E' as _ <-. do 4 (split; [done|]). split; [|apply extends_refl]. intros a e He. by exists e.
Qed.

Lemma append_ok s p r s' : vfs_ok s -> pf_ok (dentries s) p -> append_proc_file p s = Some (r, s') ->
  grows s s' /\ tables s s' (pf_pid p) (match table s (pf_pid p) with Some q => Some q | None => Some p end).
Proof.
  intros Hs Hok E. unfold append_proc_file in E. minv E as l s1 El. apply chain_of_inv in El as (Hp & -> & ->). set (l := default [] (file_map s !! (pf_pid p mod FILE_MAP_SIZE))) in *.
  change (find_pf (pf_pid p) l) with (table s (pf_pid p)) in E. destruct (table s (pf_pid p)) as [q|] eqn:Eq.
  - injection E as <- <-. split; [by apply keeps_grows, keeps_refl|]. intros x. destruct (Z.eqb_spec x (pf_pid p)) as [->|]; [done|done].
  - minv E as u s1 Eu. injection E as <- <-. pose proof Eu as Eu'. assert (Hn : pf_pid p ∉ (pf_pid <$> l)) by (by apply find_pf_None).
    apply set_chain_ok in Eu as (O & D & V & T); [|done| |].
    + split.
      * split; [done|]. injection Eu' as _ <-. do 4 (split; [done|]). split; [|apply extends_refl]. intros a e He. by exists e.
      * intros x. rewrite T. assert (Hfa : find_pf x (l ++ [p]) = match find_pf x l with Some q => Some q | None => if pf_pid p =? x then Some p else None end).
        { clear. induction l as [|q l IH]; cbn [app find_pf]; [done|]. by destruct (pf_pid q =? x). }
        destruct (Z.eqb_spec x (pf_pid p)) as [->|Hx].
        -- rewrite decide_True, Hfa, Z.eqb_refl by done. change (find_pf (pf_pid p) l) with (table s (pf_pid p)). by rewrite Eq.
        -- destruct (decide _) as [Em|Em]; [|done]. rewrite Hfa, (proj2 (Z.eqb_neq (pf_pid p) x)) by done. unfold table. rewrite Em. fold l. by destruct (find_pf x l).
    + rewrite fmap_app. apply NoDup_app. split; [by apply chain_nodup|]. split; [|apply NoDup_singleton]. intros x Hx ->%list_elem_of_singleton. done.
    + intros q [Hq| ->%list_elem_of_singleton]%elem_of_app; [by eapply chain_files|done].
Qed.

Lemma del_pf_pids pid l x : x ∈ (pf_pid <$> del_pf pid l) -> x ∈ (pf_pid <$> l).
Proof.
  induction l as [|p l IH]; cbn [del_pf]; [done|]. destruct (pf_pid p =? pid); cbn [fmap list_fmap]; [by right|]. intros [->|Hx]%elem_of_cons; [by left|right; by apply IH].
Qed.

Lemma del_pf_ok pid l : NoDup (pf_pid <$> l) -> NoDup (pf_pid <$> del_pf pid l) /\ (forall p, p ∈ del_pf pid l -> p ∈ l) /\ forall x, find_pf x (del_pf pid l) = if x =? pid then None else find_pf x l.
Proof.
  induction l as [|p l IH]; cbn [del_pf find_pf fmap list_fmap]; intros Hn; [split; [done|split; [done|]]; intros x; by case_if|]. apply NoDup_cons in Hn as [Hp Hn].
  destruct (IH Hn) as (H1 & H2 & H3). destruct (Z.eqb_spec (pf_pid p) pid) as [Ep|Ep].
  - split; [done|]. split; [by right|]. intros x. destruct (Z.eqb_spec x pid) as [->|Hx]; [apply find_pf_None; by rewrite <- Ep|]. by rewrite (proj2 (Z.eqb_neq (pf_pid p) x)) by congruence.
  - split; [|split].
    + apply NoDup_cons. split; [|done]. intros Hin. apply Hp. by eapply del_pf_pids.
    + intros q [->|Hq]%elem_of_cons; [by left|right; auto].
    + intros x. cbn [find_pf]. rewrite H3. destruct (Z.eqb_spec (pf_pid p) x) as [Ex|Ex]; [|done]. by rewrite (proj2 (Z.eqb_neq x pid)) by congruence.
Qed.

Lemma unmap_ok s pid r s' : vfs_ok s -> unmap_proc_file pid s = Some (r, s') -> grows s s' /\ tables s s' pid None.
Proof.
  intros Hs E. unfold unmap_proc_file in E. minv E as p s1 Ep. apply map_proc_file_inv in Ep as (Hp & -> & ->). destruct (table s pid) as [p|] eqn:Et.
  - minv E as l s1 El. apply chain_of_inv in El as (_ & -> & ->). set (l := default [] (file_map s !! (pid mod FILE_MAP_SIZE))) in *. minv E as u s1 Eu. injection E as <- <-. pose proof Eu as Eu'.
    destruct (del_pf_ok pid l (chain_nodup s pid Hs)) as (H1 & H2 & H3). apply set_chain_ok in Eu as (O & D & V & T); [|done|done|intros q Hq; by eapply chain_files, H2].
    split; [split; [done|]; injection Eu' as _ <-; do 4 (split; [done|]); split; [|apply extends_refl]; intros a e He; by exists e|]. intros x. rewrite T, H3. destruct (Z.eqb_spec x pid) as [->|Hx]; [by rewrite decide_True by done|].
    destruct (decide _) as [Em|Em]; [|done]. unfold table. by rewrite Em.
  - injection E as <- <-. split; [by apply keeps_grows, keeps_refl|]. intros x. by destruct (Z.eqb_spec x pid) as [->|].
Qed.

(** *** The standard files *)

Definition mode_of (s : vfs F) (a : Z) : Z := from_option f_mode 0 (dentries s !! a).
Definition std_file (s : vfs F) (a : Z) : option file := Some (mk_file (mode_of s a) a 0).
Definition fresh_slots (s : vfs F) : list (option file) := std_file s (stdin s) :: std_file s (stdout s) :: std_file s (stderr s) :: replicate (NR_FILES - 3) None.

(** The table of a process, which is made when it has none. *)
Definition own (s : vfs F) (pid : Z) : proc_file := default (mk_pf pid (fresh_slots s) (root_entry s)) (table s pid).

Lemma std_filp_ok s a f s' : vfs_ok s -> std_filp a s = Some (f, s') -> keeps s s' /\ f = mk_file (mode_of s a) a 0.
Proof.
  intros Hs E. unfold std_filp in E. minv E as e s1 Ee. apply get_de_inv in Ee as [-> He]. unfold make_filp in E. minv E as u s1 Eu. injection E as <- <-.
  destruct (count_up_ok _ _ _ _ Hs Eu) as [K _]. split; [done|]. unfold mode_of. by rewrite He.
Qed.

Lemma mode_keeps s s' a : keeps s s' -> in_dom (dentries s) a -> mode_of s' a = mode_of s a.
Proof.
  intros K [e He]. destruct K as (_ & _ & _ & _ & _ & _ & D & _). destruct (D a e He) as (e' & He' & S). unfold mode_of. rewrite He, He'. cbn. apply S.
Qed.

(** The three files a new or executed process gets. *)
Lemma std_three s u0 u1 u2 s1 s2 s3 : vfs_ok s ->
  std_filp (stdin s) s = Some (u0, s1) -> std_filp (stdout s) s1 = Some (u1, s2) -> std_filp (stderr s) s2 = Some (u2, s3) ->
  keeps s s3 /\ Some u0 :: Some u1 :: Some u2 :: replicate (NR_FILES - 3) None = fresh_slots s.
Proof.
  intros Hs E0 E1 E2. destruct (vo_std s Hs) as (_ & D0 & D1 & D2). apply std_filp_ok in E0 as [K0 ->]; [|done]. apply std_filp_ok in E1 as [K1 ->]; [|apply K0].
  assert (K01 : keeps s s2) by (by eapply keeps_trans). apply std_filp_ok in E2 as [K2 ->]; [|apply K1]. split; [by eapply keeps_trans|].
  unfold fresh_slots, std_file. by rewrite (mode_keeps s s1), (mode_keeps s s2) by done.
Qed.

Lemma fresh_ok s pid : vfs_ok s -> pf_ok (dentries s) (mk_pf pid (fresh_slots s) (root_entry s)).
Proof.
  intros Hs. destruct (vo_std s Hs) as (D & D0 & D1 & D2). split; [done|]. split; [|done]. cbn [filp]. intros [|[|[|fd]]] f Hf; try (injection Hf as <-; done).
  change (replicate (NR_FILES - 3) None !! fd = Some (Some f)) in Hf. apply lookup_replicate in Hf as [Hf _]. done.
Qed.

Lemma fresh_slots_keeps s s' : vfs_ok s -> keeps s s' -> fresh_slots s' = fresh_slots s.
Proof.
  intros Hs K. destruct (vo_std s Hs) as (_ & D0 & D1 & D2). pose proof K as (_ & _ & _ & E0 & E1 & E2 & _). unfold fresh_slots, std_file. rewrite E0, E1, E2. by rewrite !(mode_keeps s s') by done.
Qed.

Lemma init_ok s pid p s' : vfs_ok s -> init_proc_file pid s = Some (p, s') -> keeps s s' /\ p = mk_pf pid (fresh_slots s) (root_entry s).
Proof.
  intros Hs E. unfold init_proc_file in E. minv E as root s1 Er. injection Er as <- <-. minv E as u s1 Eu. destruct (count_up_ok _ _ _ _ Hs Eu) as [K1 _].
  minv E as a s2 Ea. injection Ea as <- <-. minv E as b s2 Eb. injection Eb as <- <-. minv E as c s2 Ec. injection Ec as <- <-.
  minv E as f0 s2 E0. minv E as f1 s3 E1. minv E as f2 s4 E2. destruct (std_three s1 f0 f1 f2 s2 s3 s4 (proj1 K1) E0 E1 E2) as [K2 E3]. rewrite E3, (fresh_slots_keeps s s1) in E by done.
  injection E as <- <-. split; [by eapply keeps_trans|done].
Qed.

Lemma get_proc_file_ok s pid p s' : vfs_ok s -> get_proc_file pid s = Some (p, s') ->
  grows s s' /\ p = own s pid /\ tables s s' pid (Some p) /\ pf_ok (dentries s') p /\ 0 <= pid.
Proof.
  intros Hs E. unfold get_proc_file in E. minv E as q s1 Eq. apply map_proc_file_inv in Eq as (Hp & -> & ->). unfold own. destruct (table s pid) as [q|] eqn:Et.
  - injection E as <- <-. split; [by apply keeps_grows, keeps_refl|]. split; [done|]. split; [|split; [by eapply table_ok|done]]. intros x. destruct (Z.eqb_spec x pid) as [->|]; done.
  - minv E as q s1 Ei. apply init_ok in Ei as [K1 ->]; [|done]. minv E as r s2 Ea. injection E as <- <-.
    assert (Hok : pf_ok (dentries s1) (mk_pf pid (fresh_slots s) (root_entry s))) by (eapply pf_ok_mono; [intros a; by eapply keeps_dom|by apply fresh_ok]).
    apply append_ok in Ea as [G T]; [|apply K1|done]. cbn [pf_pid] in T. split; [eapply grows_trans; [by apply keeps_grows|exact G]|]. split; [done|]. split; [|split; [|done]].
    + intros x. rewrite T, (table_keeps s s1) by done. rewrite Et. destruct (x =? pid); [done|by apply table_keeps].
    + eapply pf_ok_mono; [|exact Hok]. intros a. by eapply grows_dom.
Qed.

(** *** Requests *)

Lemma tables_trans s1 s2 s3 pid o o' : tables s1 s2 pid o -> tables s2 s3 pid o' -> tables s1 s3 pid o'.
Proof. intros T1 T2 x. rewrite T2. destruct (Z.eqb_spec x pid) as [->|Hx]; [done|]. rewrite T1. by rewrite (proj2 (Z.eqb_neq x pid)). Qed.

Lemma tables_keeps s s' pid : keeps s s' -> tables s s' pid (table s pid).
Proof. intros K x. destruct (Z.eqb_spec x pid) as [->|]; by apply table_keeps. Qed.

Lemma tables_at s s' pid o : tables s s' pid o -> table s' pid = o.
Proof. intros T. by rewrite T, Z.eqb_refl. Qed.

Lemma tables_keeps_r s1 s2 s3 pid o : tables s1 s2 pid o -> keeps s2 s3 -> tables s1 s3 pid o.
Proof. intros T K. eapply tables_trans; [exact T|]. rewrite <- (tables_at _ _ _ _ T). by apply tables_keeps. Qed.

(** The table with the position of a descriptor changed. *)
Definition moved (p : proc_file) (fd pos : Z) : proc_file := set_filp (alter (fmap (set_pos pos)) (Z.to_nat fd) (filp p)) p.

Lemma moved_ok d p fd pos : pf_ok d p -> pf_ok d (moved p fd pos).
Proof.
  intros (Hl & Hf & Hc). split; [cbn; by rewrite length_alter|]. split; [|done]. cbn [moved set_filp filp]. intros i f Hi.
  destruct (decide (i = Z.to_nat fd)) as [->|Hne]; [|rewrite list_lookup_alter_ne in Hi by done; by eapply Hf].
  rewrite list_lookup_alter_eq in Hi. apply fmap_Some in Hi as (o & Eo & Ef). destruct o as [g|]; [|done]. cbn in Ef. injection Ef as ->. cbn. by eapply Hf.
Qed.

Lemma store_pos_ok s pid fd pos u s' p : vfs_ok s -> table s pid = Some p -> store_pos pid fd pos s = Some (u, s') -> grows s s' /\ tables s s' pid (Some (moved p fd pos)).
Proof.
  intros Hs Ht E. unfold store_pos in E. eapply upd_proc_file_grows in E as [G T]; [by split|done|done|exact Ht|]. apply moved_ok. by apply (table_ok s pid p Hs).
Qed.

(** The open file of a descriptor; none for a number outside the table. *)
Definition slot (p : proc_file) (fd : Z) : option file :=
  if (0 <=? fd) && (fd <? Z.of_nat NR_FILES) then mjoin (filp p !! Z.to_nat fd) else None.

Lemma own_ok s pid : vfs_ok s -> pf_ok (dentries s) (own s pid).
Proof. intros Hs. unfold own. destruct (table s pid) as [p|] eqn:Et; [by eapply table_ok|by apply fresh_ok]. Qed.

Lemma slot_entry s pid fd f : vfs_ok s -> slot (own s pid) fd = Some f -> exists e, dentries s !! f_dentry f = Some e.
Proof.
  intros Hs. unfold slot. destruct (_ && _); [|done]. destruct (own_ok s pid Hs) as (_ & Hf & _). destruct (filp (own s pid) !! Z.to_nat fd) as [[g|]|] eqn:E; try done.
  intros [= <-]. by eapply Hf.
Qed.

(** Making the table of a process asks no server. *)
Lemma upd_de_servers (s : vfs F) a f u s' : upd_de a f s = Some (u, s') -> servers s' = servers s.
Proof. unfold upd_de. destruct (dentries s !! a); [|done]. by intros [= _ <-]. Qed.

Lemma std_filp_servers (s : vfs F) a f s' : std_filp a s = Some (f, s') -> servers s' = servers s.
Proof. intros E. unfold std_filp, make_filp in E. minv E as e s1 Ee. apply get_de_inv in Ee as [-> _]. minv E as u s1 Eu. apply upd_de_servers in Eu. by injection E as _ <-. Qed.

Lemma get_proc_file_servers s pid p s' : vfs_ok s -> get_proc_file pid s = Some (p, s') -> servers s' = servers s.
Proof.
  intros Hs E. unfold get_proc_file in E. minv E as q s1 Eq. apply map_proc_file_inv in Eq as (_ & -> & ->). destruct (table s pid) as [q|]; [by injection E as _ <-|].
  minv E as q s1 Ei. pose proof Ei as Ei'. apply init_ok in Ei' as [_ ->]; [|done]. unfold init_proc_file in Ei. minv Ei as root s2 Er. injection Er as <- <-. minv Ei as u s2 Eu. apply upd_de_servers in Eu.
  minv Ei as a s3 Ea. injection Ea as <- <-. minv Ei as b s3 Eb. injection Eb as <- <-. minv Ei as c s3 Ec. injection Ec as <- <-.
  minv Ei as f0 s3 E0. minv Ei as f1 s4 E1. minv Ei as f2 s5 E2. injection Ei as _ _ _ <-. apply std_filp_servers in E0, E1, E2.
  minv E as r s6 Er. injection E as _ <-. unfold append_proc_file in Er. minv Er as l s7 El. apply chain_of_inv in El as (_ & -> & ->). destruct (find_pf _ _); [injection Er as _ <-; congruence|].
  minv Er as w s7 Ew. injection Ew as _ <-. injection Er as _ <-. cbn [servers set_file_map]. congruence.
Qed.

Lemma getfilp_ok s pid fd o s' : vfs_ok s -> getfilp pid fd s = Some (o, s') ->
  grows s s' /\ tables s s' pid (Some (own s pid)) /\ o = slot (own s pid) fd /\ servers s' = servers s.
Proof.
  intros Hs E. unfold getfilp in E. minv E as p s1 Ep. pose proof (get_proc_file_servers _ _ _ _ Hs Ep) as V. apply get_proc_file_ok in Ep as (G & -> & T & Hok & Hp); [|done]. unfold slot. destruct (_ && _).
  - destruct (filp (own s pid) !! Z.to_nat fd) as [o'|] eqn:Eo; [|done]. injection E as <- <-. done.
  - injection E as <- <-. done.
Qed.

Lemma grows_entry s s' a e e' : grows s s' -> dentries s !! a = Some e -> dentries s' !! a = Some e' -> same_de e e'.
Proof. intros (_ & _ & _ & _ & _ & D & _) He He'. destruct (D a e He) as (e1 & He1 & S). by rewrite He' in He1; injection He1 as <-. Qed.

(** A transfer: the server of the file is asked once, for the bytes at the position.
    The position moves by what it transferred, and stays where it is otherwise. *)
Definition transfer_spec (s s' : vfs F) (pid fd : Z) (q : dentry -> file -> fs_request) (r : Z * fs_answer) : Prop :=
  let p := own s pid in
  match slot p fd with
  | None => r = (-1, ANothing) /\ tables s s' pid (Some p)
  | Some f =>
      exists e, dentries s !! f_dentry f = Some e /\
      if kmap (servers s) =? 0 then
        let '(st, n, a, _) := sendrecv (f_fs_pid e) (q e f) (servers s) in
        if st =? 0 then r = (i32 n, a) /\ tables s s' pid (Some (if 0 <? n then moved p fd (i64 (f_pos f + n)) else p))
        else r = (-1, ANothing) /\ tables s s' pid (Some p)
      else r = (-1, ANothing) /\ tables s s' pid (Some p)
  end.

Lemma vfs_transfer_ok s pid fd q r s' : vfs_ok s -> (forall e e' f, same_de e e' -> q e' f = q e f) -> vfs_transfer pid fd q s = Some (r, s') ->
  grows s s' /\ transfer_spec s s' pid fd q r.
Proof.
  intros Hs Hq E. unfold vfs_transfer in E. unfold transfer_spec. minv E as o s1 Eo. apply getfilp_ok in Eo as (G1 & T1 & -> & V1); [|done].
  destruct (slot (own s pid) fd) as [f|] eqn:Ef; [|by injection E as <- <-]. destruct (slot_entry _ _ _ _ Hs Ef) as [e He].
  minv E as k s2 Ek. injection Ek as <- <-. rewrite V1 in E. destruct (kmap (servers s) =? 0) eqn:Ek; cbn [negb] in E; [|injection E as <- <-; split; [done|]; exists e; done].
  minv E as e1 s2 Ee. apply get_de_inv in Ee as [-> He1]. pose proof (grows_entry _ _ _ _ _ G1 He He1) as Se. rewrite (Hq e e1 f Se) in E. destruct Se as (Sp & _). rewrite Sp in E.
  minv E as [[st n] a] s2 Ec. pose proof (call_ok _ _ _ _ _ (proj1 G1) Ec) as K2. apply call_inv in Ec as (x & Ec & ->). rewrite V1 in Ec.
  assert (T2 : tables s (set_servers x s1) pid (Some (own s pid))) by (by eapply tables_keeps_r). assert (G2 : grows s (set_servers x s1)) by (eapply grows_trans; [exact G1|by apply keeps_grows]).
  destruct (st =? 0) eqn:Est; cbn [negb] in E; [|injection E as <- <-; split; [done|]; exists e; split; [done|]; rewrite Ec; by rewrite Est].
  minv E as u s3 Eu. injection E as <- <-. destruct (0 <? n) eqn:En.
  - eapply store_pos_ok in Eu as [G3 T3]; [|apply G2|by eapply tables_at]. split; [by eapply grows_trans|]. exists e. split; [done|]. rewrite Ec, Est, En. split; [done|by eapply tables_trans].
  - injection Eu as _ <-. split; [done|]. exists e. split; [done|]. rewrite Ec, Est, En. done.
Qed.

(** What [whence] counts from. *)
Definition seek_base (f : file) (e : dentry) (whence : Z) : option Z :=
  if whence =? SEEK_SET then Some 0 else if whence =? SEEK_CUR then Some (f_pos f) else if whence =? SEEK_END then Some (f_size e) else None.

(** A seek: the position becomes the sum, if it is not negative.  Numbers of 64 bits
    are assumed not to overflow. *)
Definition seek_spec (s s' : vfs F) (pid fd offset whence r : Z) : Prop :=
  let p := own s pid in
  match slot p fd with
  | None => r = -1 /\ tables s s' pid (Some p)
  | Some f =>
      exists e, dentries s !! f_dentry f = Some e /\
      match seek_base f e whence with
      | None => r = -1 /\ tables s s' pid (Some p)
      | Some b => 0 <= b < 2 ^ 63 -> - 2 ^ 63 <= b + offset < 2 ^ 63 ->
          if b + offset <? 0 then r = -1 /\ tables s s' pid (Some p) else r = b + offset /\ tables s s' pid (Some (moved p fd (b + offset)))
      end
  end.

Lemma seek_base_ok f e e' offset whence : f_size e' = f_size e ->
  match seek_base f e whence with
  | None => seek (f_pos f) (f_size e') offset whence = None
  | Some b => 0 <= b < 2 ^ 63 -> - 2 ^ 63 <= b + offset < 2 ^ 63 -> seek (f_pos f) (f_size e') offset whence = if b + offset <? 0 then None else Some (b + offset)
  end.
Proof.
  intros ->. unfold seek_base, seek. destruct (whence =? SEEK_SET); [done|]. destruct (whence =? SEEK_CUR).
  - intros Hb Hs. by rewrite i64_small by lia.
  - destruct (whence =? SEEK_END); [|done]. intros Hb Hs. by rewrite (i64_small (f_size e)), i64_small by lia.
Qed.

Lemma vfs_lseek_ok s pid fd offset whence r s' : vfs_ok s -> vfs_lseek pid fd offset whence s = Some (r, s') ->
  grows s s' /\ seek_spec s s' pid fd offset whence r /\ exists p', tables s s' pid (Some p').
Proof.
  intros Hs E. unfold vfs_lseek in E. unfold seek_spec. minv E as o s1 Eo. apply getfilp_ok in Eo as (G1 & T1 & -> & V1); [|done].
  destruct (slot (own s pid) fd) as [f|] eqn:Ef; [|injection E as <- <-; by eauto]. destruct (slot_entry _ _ _ _ Hs Ef) as [e He].
  minv E as e1 s2 Ee. apply get_de_inv in Ee as [-> He1]. destruct (grows_entry _ _ _ _ _ G1 He He1) as (_ & _ & Sz & _). pose proof (seek_base_ok f e e1 offset whence Sz) as Hb.
  destruct (seek (f_pos f) (f_size e1) offset whence) as [pos|] eqn:Es.
  - minv E as u s2 Eu. injection E as <- <-. eapply store_pos_ok in Eu as [G2 T2]; [|apply G1|by eapply tables_at]. pose proof (tables_trans _ _ _ _ _ _ T1 T2) as T. split; [by eapply grows_trans|]. split; [|by eauto].
    exists e. split; [done|]. destruct (seek_base f e whence) as [b|]; [|done]. intros B1 B2. specialize (Hb B1 B2). destruct (b + offset <? 0); [done|]. by injection Hb as ->.
  - injection E as <- <-. split; [done|]. split; [|by eauto]. exists e. split; [done|]. destruct (seek_base f e whence) as [b|]; [|done]. intros B1 B2. specialize (Hb B1 B2). by destruct (b + offset <? 0).
Qed.

(** Reading a directory: the position moves by what the server says, in its own units. *)
Definition getdents_spec (s s' : vfs F) (pid fd nbytes : Z) (r : Z * list dirent) : Prop :=
  let p := own s pid in
  match slot p fd with
  | None => r = (-1, []) /\ tables s s' pid (Some p)
  | Some f =>
      exists e, dentries s !! f_dentry f = Some e /\
      let '(st, n, a, _) := sendrecv (f_fs_pid e) (FsGetdents (f_ino e) (f_pos f) nbytes) (servers s) in
      if (st =? 0) && (0 <=? n) then r = (n, match a with ADirents l => l | _ => [] end) /\ tables s s' pid (Some (moved p fd (i64 (f_pos f + n))))
      else r = (-1, []) /\ tables s s' pid (Some p)
  end.

Lemma vfs_getdents_ok s pid fd nbytes r s' : vfs_ok s -> vfs_getdents pid fd nbytes s = Some (r, s') -> grows s s' /\ getdents_spec s s' pid fd nbytes r.
Proof.
  intros Hs E. unfold vfs_getdents in E. unfold getdents_spec. minv E as o s1 Eo. apply getfilp_ok in Eo as (G1 & T1 & -> & V1); [|done].
  destruct (slot (own s pid) fd) as [f|] eqn:Ef; [|by injection E as <- <-]. destruct (slot_entry _ _ _ _ Hs Ef) as [e He].
  minv E as e1 s2 Ee. apply get_de_inv in Ee as [-> He1]. destruct (grows_entry _ _ _ _ _ G1 He He1) as (Sp & Si & _). rewrite Sp, Si in E.
  minv E as [[st n] a] s2 Ec. pose proof (call_ok _ _ _ _ _ (proj1 G1) Ec) as K2. apply call_inv in Ec as (x & Ec & ->). rewrite V1 in Ec.
  assert (T2 : tables s (set_servers x s1) pid (Some (own s pid))) by (by eapply tables_keeps_r). assert (G2 : grows s (set_servers x s1)) by (eapply grows_trans; [exact G1|by apply keeps_grows]).
  assert (Eb : negb (st =? 0) || (n <? 0) = negb ((st =? 0) && (0 <=? n))) by (rewrite Z.ltb_antisym; by destruct (st =? 0)). rewrite Eb in E. destruct ((st =? 0) && (0 <=? n)) eqn:En; cbn [negb] in E.
  - minv E as u s3 Eu. injection E as <- <-. eapply store_pos_ok in Eu as [G3 T3]; [|apply G2|by eapply tables_at]. split; [by eapply grows_trans|]. exists e. split; [done|]. rewrite Ec, En. split; [done|by eapply tables_trans].
  - injection E as <- <-. split; [done|]. exists e. split; [done|]. by rewrite Ec, En.
Qed.

(** Requests about a path. *)
Lemma insert_slot_ok d p fd o : pf_ok d p -> (forall f, o = Some f -> in_dom d (f_dentry f)) -> pf_ok d (set_filp (<[fd := o]> (filp p)) p).
Proof.
  intros (Hl & Hf & Hc) Ho. split; [cbn; by rewrite length_insert|]. split; [|done]. cbn [set_filp filp]. intros i f Hi.
  apply list_lookup_insert_Some in Hi as [(<- & Ef & _)|(_ & Hi)]; [by apply Ho|by eapply Hf].
Qed.

(** No descriptor is free. *)
Lemma free_fd_lowest l : forall n, match free_fd n l with
  | Some fd => exists k, fd = (n + k)%nat /\ l !! k = Some None /\ forall i, (i < k)%nat -> exists f, l !! i = Some (Some f)
  | None => forall i o, l !! i = Some o -> exists f, o = Some f
  end.
Proof.
  induction l as [|[f|] l IH]; intros n; cbn [free_fd]; [done| |].
  - specialize (IH (S n)). destruct (free_fd (S n) l) as [fd|].
    + destruct IH as (k & -> & Hk & Hlow). exists (S k). split; [lia|]. split; [done|]. intros [|i] Hi; [by exists f|]. apply Hlow. lia.
    + intros [|i] o; [intros [= <-]; by eauto|]. apply IH.
  - exists 0%nat. split; [lia|]. split; [done|]. intros i Hi. lia.
Qed.

(** A search for a path: the entry the path leads to in the tree, or why there is none. *)
Definition located (s s' : vfs F) (cwd : Z) (path : list Z) (o : option Z) : Prop :=
  match o with
  | Some a => a <> NULL /\ leads (dentries s') (start_of s cwd path) (names_of path) = Some a
  | None => leads (dentries s') (start_of s cwd path) (names_of path) = Some NULL \/ missing s' (start_of s cwd path) (names_of path)
  end.

Lemma walked_located s s' cwd path a : walked s' (start_of s cwd path) (names_of path) a -> located s s' cwd path (if a =? NULL then None else Some a).
Proof.
  intros [[Hl Hf]|[-> Hm]]; [|right; done]. destruct (Z.eqb_spec a NULL) as [->|Hne]; [by left|done].
Qed.

(** The entries and the names of a path stay when only references change. *)
Lemma located_keeps s s1 s2 cwd path a : keeps s1 s2 -> located s s1 cwd path (Some a) -> located s s2 cwd path (Some a).
Proof.
  intros (_ & _ & _ & _ & _ & _ & _ & X & _) [Hne Hl]. split; [done|]. revert Hl. generalize (start_of s cwd path). induction (names_of path) as [|n names IH]; intros b; cbn [leads]; [done|].
  destruct (step_name (dentries s1) b n) as [c|] eqn:E; [|done]. rewrite (X _ _ _ E). apply IH.
Qed.

(** [open]: the lowest free descriptor gets the file of the path, at its start or at its
    end. *)
Definition open_spec (s s' : vfs F) (pid : Z) (path : list Z) (oflag r : Z) : Prop :=
  let p := own s pid in
  (exists a e fd, located s s' (cwd p) path (Some a) /\ dentries s' !! a = Some e /\ r = Z.of_nat fd /\
    filp p !! fd = Some None /\ (forall i, (i < fd)%nat -> exists f, filp p !! i = Some (Some f)) /\
    tables s s' pid (Some (set_filp (<[fd := Some (mk_file (f_mode e) a (if Z.land oflag O_APPEND =? 0 then 0 else i64 (f_size e)))]> (filp p)) p))) \/
  (r = -1 /\ tables s s' pid (Some p) /\ (located s s' (cwd p) path None \/ forall i o, filp p !! i = Some o -> exists f, o = Some f)).

Lemma start_grows s s1 cwd path : root_entry s1 = root_entry s -> start_of s1 cwd path = start_of s cwd path.
Proof. intros E. destruct path as [|c l]; [done|]. cbn [start_of]. by rewrite E. Qed.

Lemma vfs_open_ok s pid path oflag r s' : vfs_ok s -> vfs_open pid path oflag s = Some (r, s') -> grows s s' /\ open_spec s s' pid path oflag r.
Proof.
  intros Hs E. unfold vfs_open in E. minv E as p s1 Ep. apply get_proc_file_ok in Ep as (G1 & -> & T1 & Hok & _); [|done]. minv E as entry s2 El.
  apply vfs_lookup_ok in El as [K2 W]; [|apply G1|apply Hok]. rewrite (start_grows s s1) in W by apply G1. pose proof (walked_located s s2 _ _ _ W) as L.
  assert (G2 : grows s s2) by (eapply grows_trans; [exact G1|by apply keeps_grows]). assert (T2 : tables s s2 pid (Some (own s pid))) by (by eapply tables_keeps_r).
  change (entry =? NULL) with (entry =? 0) in L. destruct (entry =? 0); [injection E as <- <-; split; [done|]; right; split; [done|]; by split; [|left]|]. minv E as e s3 Ee. apply get_de_inv in Ee as [-> He].
  unfold make_filp in E. minv E as f0 s3 Ef. minv Ef as u s4 Eu. injection Ef as <- <-. destruct (count_up_ok _ _ _ _ (proj1 G2) Eu) as [K4 Hd].
  assert (G4 : grows s s4) by (eapply grows_trans; [exact G2|by apply keeps_grows]). assert (T4 : tables s s4 pid (Some (own s pid))) by (by eapply tables_keeps_r).
  pose proof (located_keeps _ _ _ _ _ _ K4 L) as L4. destruct K4 as (_ & _ & _ & _ & _ & _ & D4 & _). destruct (D4 _ _ He) as (e4 & He4 & (_ & _ & Sz & Sm & _)).
  set (f := if Z.land oflag O_APPEND =? 0 then mk_file (f_mode e) entry 0 else set_pos (i64 (f_size e)) (mk_file (f_mode e) entry 0)) in E. pose proof (free_fd_lowest (filp (own s pid)) 0) as Hfd.
  destruct (free_fd 0 (filp (own s pid))) as [fd|]; [|injection E as <- <-; split; [done|]; right; split; [done|]; by split; [|right]].
  minv E as u' s5 Eu'. injection E as <- <-. pose proof (tables_at _ _ _ _ T4) as Ht. destruct (table_ok s4 pid _ (proj1 G4) Ht) as [Hok4 _]. destruct Hfd as (k & -> & Hfd).
  pose proof Eu' as Eu2. eapply upd_proc_file_ok in Eu2 as (_ & D5 & _); [|apply G4|done|exact Ht|].
  2: { apply insert_slot_ok; [done|]. intros f' [= <-]. assert (f_dentry f = entry) as -> by (unfold f; by case_if). by eexists. }
  eapply upd_proc_file_grows in Eu' as [G5 T5]; [|apply G4|done|exact Ht|].
  - split; [by eapply grows_trans|]. left. exists entry, e4, (0 + k)%nat. rewrite D5. split; [destruct L4 as [L41 L42]; split; [done|by rewrite D5]|]. split; [done|]. split; [done|]. split; [apply Hfd|]. split; [apply Hfd|].
    replace (mk_file (f_mode e4) entry (if Z.land oflag O_APPEND =? 0 then 0 else i64 (f_size e4))) with f by (unfold f; rewrite Sm, Sz; by case_if). by eapply tables_trans.
  - apply insert_slot_ok; [done|]. intros f' [= <-]. assert (f_dentry f = entry) as -> by (unfold f; by case_if). by eexists.
Qed.

Lemma vfs_close_ok s pid fd r s' : vfs_ok s -> vfs_close pid fd s = Some (r, s') ->
  grows s s' /\ r = 0 /\ exists p, table s pid = Some p /\ 0 <= fd < Z.of_nat NR_FILES /\ tables s s' pid (Some (set_filp (<[Z.to_nat fd := None]> (filp p)) p)).
Proof.
  intros Hs E. unfold vfs_close in E. minv E as o s1 Eo. apply map_proc_file_inv in Eo as (_ & -> & ->). minv E as p s1 Ep. unfold lift in Ep. destruct (table s pid) as [p'|] eqn:Et; [|done].
  injection Ep as -> <-. minv E as slot s1 Es. destruct (Z.ltb_spec fd 0) as [|Hfd]; [done|]. unfold lift in Es. destruct (filp p !! Z.to_nat fd) as [slot'|] eqn:El; [|done]. injection Es as -> <-.
  assert (Hr : 0 <= fd < Z.of_nat NR_FILES) by (destruct (table_ok s pid p Hs Et) as [(Hl & _) _]; apply lookup_lt_Some in El; lia). destruct slot as [f|].
  - minv E as u s1 Eu. apply count_down_ok in Eu as K1; [|done]. minv E as u' s2 Eu'. injection E as <- <-. destruct (table_ok s pid p Hs Et) as [Hok _].
    eapply upd_proc_file_grows in Eu' as [G2 T2]; [|apply K1|done|rewrite (table_keeps s) by done; exact Et|].
    + split; [eapply grows_trans; [by apply keeps_grows|exact G2]|]. split; [done|]. exists p. split; [done|]. split; [done|]. eapply tables_trans; [by apply tables_keeps|done].
    + apply insert_slot_ok; [|done]. eapply pf_ok_mono; [intros a; by eapply keeps_dom|done].
  - injection E as <- <-. split; [by apply keeps_grows, keeps_refl|]. split; [done|]. exists p. split; [done|]. split; [done|]. rewrite list_insert_id by done. assert (Ep : set_filp (filp p) p = p) by (by destruct p). rewrite Ep, <- Et. by apply tables_keeps, keeps_refl.
Qed.

(** [chdir]: the entry of the path becomes the working directory, whether it is a
    directory or not. *)
Definition chdir_spec (s s' : vfs F) (pid : Z) (path : list Z) (r : Z) : Prop :=
  match table s pid with
  | None => r = -1 /\ tables s s' pid None
  | Some p =>
      (exists a, located s s' (cwd p) path (Some a) /\ r = 0 /\ tables s s' pid (Some (set_cwd a p))) \/
      (located s s' (cwd p) path None /\ r = -1 /\ tables s s' pid (Some p))
  end.

Lemma vfs_chdir_ok s pid path r s' : vfs_ok s -> vfs_chdir pid path s = Some (r, s') -> grows s s' /\ chdir_spec s s' pid path r.
Proof.
  intros Hs E. unfold vfs_chdir in E. unfold chdir_spec. minv E as o s1 Eo. apply map_proc_file_inv in Eo as (_ & -> & ->). destruct (table s pid) as [p|] eqn:Et.
  - destruct (table_ok s pid p Hs Et) as [Hok _]. minv E as a s1 El. apply vfs_lookup_ok in El as [K1 W]; [|done|apply Hok]. pose proof (walked_located s s1 _ _ _ W) as L.
    change (a =? NULL) with (a =? 0) in L. destruct (a =? 0) eqn:Ea; zbool.
    + injection E as <- <-. split; [by apply keeps_grows|]. right. split; [done|]. split; [done|]. rewrite <- Et. by apply tables_keeps.
    + minv E as u s2 Eu. apply count_down_ok in Eu as K2; [|apply K1]. minv E as u' s3 Eu'. injection E as <- <-. assert (K : keeps s s2) by (by eapply keeps_trans).
      assert (Hd : in_dom (dentries s1) a) by (destruct W as [[_ [Hn|Hd]]|[Hn _]]; [by destruct Ea|done|by destruct Ea]).
      assert (Hok2 : pf_ok (dentries s2) (set_cwd a p)).
      { destruct Hok as (Hl & Hfi & _). split; [done|]. split; [intros fd f Hfd; eapply keeps_dom; [exact K|by eapply Hfi]|]. cbn. by eapply keeps_dom; [exact K2|]. }
      pose proof Eu' as Eu2. eapply upd_proc_file_ok in Eu2 as (_ & D3 & _); [|apply K|done|rewrite (table_keeps s) by done; exact Et|done].
      eapply upd_proc_file_grows in Eu' as [G3 T3]; [|apply K|done|rewrite (table_keeps s) by done; exact Et|done].
      split; [eapply grows_trans; [by apply keeps_grows|exact G3]|]. left. exists a. split; [|split; [done|eapply tables_trans; [by apply tables_keeps|done]]].
      destruct (located_keeps _ _ _ _ _ _ K2 L) as [L1 L2]. split; [done|by rewrite D3].
  - injection E as <- <-. split; [by apply keeps_grows, keeps_refl|]. split; [done|]. rewrite <- Et. by apply tables_keeps, keeps_refl.
Qed.

Lemma vfs_stat_ok s pid path r s' : vfs_ok s -> vfs_stat pid path s = Some (r, s') -> keeps s s'.
Proof.
  intros Hs E. unfold vfs_stat in E. minv E as o s1 Eo. apply map_proc_file_inv in Eo as (_ & -> & ->). destruct (table s pid) as [p|] eqn:Et; [|injection E as <- <-; by apply keeps_refl].
  destruct (table_ok s pid p Hs Et) as [Hok _]. minv E as a s1 El. apply vfs_lookup_ok in El as [K1 Hf]; [|done|apply Hok]. destruct (a =? 0); [by injection E as <- <-|].
  minv E as e s2 Ee. apply get_de_inv in Ee as [-> _]. minv E as [[st r0] x] s2 Ec. apply call_ok in Ec; [|apply K1]. injection E as <- <-. by eapply keeps_trans.
Qed.

Lemma vfs_mkdir_ok s pid name mode r s' : vfs_ok s -> vfs_mkdir pid name mode s = Some (r, s') -> keeps s s'.
Proof.
  intros Hs E. unfold vfs_mkdir in E. minv E as o s1 Eo. apply map_proc_file_inv in Eo as (_ & -> & ->). destruct (table s pid) as [p|]; [|injection E as <- <-; by apply keeps_refl].
  minv E as e s2 Ee. apply get_de_inv in Ee as [-> _]. minv E as [[st r0] x] s2 Ec. apply call_ok in Ec; [|done]. by injection E as <- <-.
Qed.

Lemma getcwdstr_ok fuel : forall a size (s : vfs F) r s', getcwdstr fuel a size s = Some (r, s') -> s' = s.
Proof.
  induction fuel as [|fuel IH]; intros a size s r s' E; cbn [getcwdstr] in E; [done|]. minv E as root s1 Er. injection Er as <- <-. minv E as e s1 Ee. apply get_de_inv in Ee as [-> _].
  destruct (a =? root_entry s); [case_match; by injection E|]. minv E as [n l] s1 En. apply IH in En as ->. destruct (size <? _); [by injection E|]. destruct (_ || _); [done|by injection E].
Qed.

Lemma vfs_getcwd_ok fuel (s : vfs F) pid size r s' : vfs_getcwd fuel pid size s = Some (r, s') -> s' = s.
Proof.
  intros E. unfold vfs_getcwd in E. minv E as o s1 Eo. apply map_proc_file_inv in Eo as (_ & -> & ->). destruct (table s pid) as [p|]; [|by injection E].
  minv E as [n l] s1 En. apply getcwdstr_ok in En as ->. by injection E.
Qed.

(** *** Fork, exec and exit *)

Lemma fork_files_ok l : forall s u s', vfs_ok s -> fork_files l s = Some (u, s') -> keeps s s'.
Proof.
  induction l as [|[f|] l IH]; intros s u s' Hs E; cbn [fork_files] in E; [injection E as _ <-; by apply keeps_refl| |by eapply IH].
  minv E as v s1 Ev. destruct (count_up_ok _ _ _ _ Hs Ev) as [K1 _]. eapply keeps_trans; [exact K1|]. eapply IH; [apply K1|exact E].
Qed.

Lemma free_files_ok l : forall s u s', vfs_ok s -> free_files l s = Some (u, s') -> keeps s s'.
Proof.
  induction l as [|[f|] l IH]; intros s u s' Hs E; cbn [free_files] in E; [injection E as _ <-; by apply keeps_refl| |by eapply IH].
  minv E as v s1 Ev. apply count_down_ok in Ev as K1; [|done]. eapply keeps_trans; [exact K1|]. eapply IH; [apply K1|exact E].
Qed.

Lemma vfs_forkfs_ok s ppid child r s' : vfs_ok s -> vfs_forkfs ppid child s = Some (r, s') ->
  grows s s' /\ r = 0 /\ forall x, table s' x =
    if x =? ppid then Some (own s ppid)
    else if x =? child then match table s child with Some q => Some q | None => Some (mk_pf child (filp (own s ppid)) (cwd (own s ppid))) end
    else table s x.
Proof.
  intros Hs E. unfold vfs_forkfs in E. minv E as p s1 Ep. apply get_proc_file_ok in Ep as (G1 & -> & T1 & Hok & _); [|done]. minv E as u s2 Eu. destruct (count_up_ok _ _ _ _ (proj1 G1) Eu) as [K2 _].
  minv E as u' s3 Eu'. apply fork_files_ok in Eu' as K3; [|apply K2]. assert (K : keeps s1 s3) by (by eapply keeps_trans). minv E as r0 s4 Ea. injection E as <- <-.
  apply append_ok in Ea as [G4 T4]; [|apply K|].
  - split; [eapply grows_trans; [exact G1|]; eapply grows_trans; [by apply keeps_grows|done]|]. split; [done|]. cbn [pf_pid] in T4. intros x. rewrite T4. rewrite !(table_keeps s1 s3) by done. rewrite !T1.
    destruct (Z.eqb_spec x child) as [->|Hx]; [|done]. by destruct (Z.eqb_spec child ppid) as [->|].
  - destruct Hok as (Hl & Hf & Hc). split; [done|]. split; [intros fd f Hfd; eapply keeps_dom; [exact K|by eapply Hf]|by eapply keeps_dom].
Qed.

Lemma vfs_execfs_ok s pid r s' : vfs_ok s -> vfs_execfs pid s = Some (r, s') ->
  grows s s' /\ r = 0 /\ tables s s' pid (Some (mk_pf pid (fresh_slots s) (cwd (own s pid)))).
Proof.
  intros Hs E. unfold vfs_execfs in E. minv E as o s1 Eo. apply map_proc_file_inv in Eo as (_ & -> & ->). unfold own. destruct (table s pid) as [p|] eqn:Et; cbn [default].
  - minv E as u s1 Eu. apply free_files_ok in Eu as K1; [|done]. minv E as a s2 Ea. injection Ea as <- <-. minv E as b s2 Eb. injection Eb as <- <-. minv E as c s2 Ec. injection Ec as <- <-.
    minv E as f0 s2 E0. minv E as f1 s3 E1. minv E as f2 s4 E2. destruct (std_three s1 f0 f1 f2 s2 s3 s4 (proj1 K1) E0 E1 E2) as [K2 E3]. rewrite E3, (fresh_slots_keeps s s1) in E by done.
    assert (K : keeps s s4) by (by eapply keeps_trans). minv E as u' s5 Eu'. injection E as <- <-. destruct (table_ok s pid p Hs Et) as [(_ & _ & Hc) Hpid].
    eapply upd_proc_file_grows in Eu' as [G5 T5]; [|apply K|done|rewrite (table_keeps s) by done; exact Et|].
    + split; [eapply grows_trans; [by apply keeps_grows|exact G5]|]. split; [done|]. unfold id. cbn [set_filp] in T5. unfold set_filp in T5. rewrite Hpid in T5. eapply tables_trans; [by apply tables_keeps|done].
    + eapply (pf_ok_mono (dentries s)); [intros a; by eapply keeps_dom|]. destruct (fresh_ok s pid Hs) as (Hl & Hf & _). done.
  - minv E as p s1 Ei. apply init_ok in Ei as [K1 ->]; [|done]. minv E as r0 s2 Ea. injection E as <- <-.
    assert (Hok : pf_ok (dentries s1) (mk_pf pid (fresh_slots s) (root_entry s))) by (eapply pf_ok_mono; [intros a; by eapply keeps_dom|by apply fresh_ok]).
    apply append_ok in Ea as [G T]; [|apply K1|done]. cbn [pf_pid] in T. split; [eapply grows_trans; [by apply keeps_grows|exact G]|]. split; [done|].
    intros x. rewrite T, (table_keeps s s1) by done. rewrite Et. destruct (x =? pid); [done|by apply table_keeps].
Qed.

Lemma vfs_freefs_ok s pid r s' : vfs_ok s -> vfs_freefs pid s = Some (r, s') -> grows s s' /\ r = 0 /\ tables s s' pid None.
Proof.
  intros Hs E. unfold vfs_freefs in E. minv E as o s1 Eo. apply map_proc_file_inv in Eo as (_ & -> & ->). destruct (table s pid) as [p|] eqn:Et.
  - minv E as u s1 Eu. apply free_files_ok in Eu as K1; [|done]. minv E as r0 s2 Er. injection E as <- <-. apply unmap_ok in Er as [G2 T2]; [|apply K1].
    split; [eapply grows_trans; [by apply keeps_grows|exact G2]|]. split; [done|]. eapply tables_trans; [by apply tables_keeps|done].
  - injection E as <- <-. split; [by apply keeps_grows, keeps_refl|]. split; [done|]. rewrite <- Et. by apply tables_keeps, keeps_refl.
Qed.

(** ** The specification of the tables *)

(** What a request of [pid] with the answer [r] does to its table and to the others. *)
Definition request_spec (s s' : vfs F) (pid : Z) (q : vfs_request) (r : Z * fs_answer) : Prop :=
  let p := own s pid in
  match q with
  | VRead fd size => exists a, transfer_spec s s' pid fd (fun e f => FsRead (f_ino e) (f_pos f) size) (r.1, a) /\ r.2 = AData (is_data a)
  | VWrite fd buf size => exists a, transfer_spec s s' pid fd (fun e f => FsWrite (f_ino e) buf (f_pos f) size) (r.1, a)
  | VGetdents fd nbytes => exists l, getdents_spec s s' pid fd nbytes (r.1, l) /\ r.2 = ADirents l
  | VLseek fd offset whence => seek_spec s s' pid fd offset whence r.1
  | VOpen path oflag => open_spec s s' pid path oflag r.1
  | VClose fd => r.1 = 0 /\ table s pid = Some p /\ 0 <= fd < Z.of_nat NR_FILES /\ tables s s' pid (Some (set_filp (<[Z.to_nat fd := None]> (filp p)) p))
  | VChdir path => chdir_spec s s' pid path r.1
  | VForkfs child => r.1 = 0 /\ forall x, table s' x =
      if x =? pid then Some p
      else if x =? child then match table s child with Some o => Some o | None => Some (mk_pf child (filp p) (cwd p)) end
      else table s x
  | VExecfs => r.1 = 0 /\ tables s s' pid (Some (mk_pf pid (fresh_slots s) (cwd p)))
  | VFreefs => r.1 = 0 /\ tables s s' pid None
  | VGetcwd _ | VStat _ | VMkdir _ _ | VUnknown => tables s s' pid (table s pid)
  end.

(** The tables of the other processes stay. *)
Definition others_keep (s s' : vfs F) (pid : Z) (q : vfs_request) : Prop := forall x, x <> pid -> q <> VForkfs x -> table s' x = table s x.

Lemma tables_others s s' pid o q : tables s s' pid o -> others_keep s s' pid q.
Proof. intros T x Hx _. rewrite T. by rewrite (proj2 (Z.eqb_neq x pid)). Qed.

Lemma transfer_others s s' pid fd q r k : transfer_spec s s' pid fd q r -> others_keep s s' pid k.
Proof.
  unfold transfer_spec. destruct (slot _ _); [|intros [_ T]; by eapply tables_others]. intros (e & _ & T). destruct (_ =? 0); [|destruct T as [_ T]; by eapply tables_others].
  destruct (sendrecv _ _ _) as [[[st n] a] x]. destruct (st =? 0); destruct T as [_ T]; by eapply tables_others.
Qed.

Lemma getdents_others s s' pid fd n r k : getdents_spec s s' pid fd n r -> others_keep s s' pid k.
Proof.
  unfold getdents_spec. destruct (slot _ _); [|intros [_ T]; by eapply tables_others]. intros (e & _ & T).
  destruct (sendrecv _ _ _) as [[[st m] a] x]. destruct (_ && _); destruct T as [_ T]; by eapply tables_others.
Qed.

Lemma do_process_ok fuel s pid q r s' : vfs_ok s -> do_process fuel pid q s = Some (r, s') -> grows s s' /\ request_spec s s' pid q r /\ others_keep s s' pid q.
Proof.
  intros Hs E. destruct q; cbn [do_process request_spec] in E |- *.
  - minv E as x s1 Ex. unfold vfs_read in Ex. minv Ex as y s2 Ey. destruct y as [r0 a], x as [r1 l]. injection Ex as <- <- <-. injection E as <- <-. apply vfs_transfer_ok in Ey as [G T]; [|done|intros e e' f S; f_equal; apply S].
    split; [done|]. split; [by exists a|by eapply transfer_others].
  - minv E as x s1 Ex. unfold vfs_write in Ex. minv Ex as y s2 Ey. destruct y as [r0 a]. injection Ex as <- <-. injection E as <- <-. apply vfs_transfer_ok in Ey as [G T]; [|done|intros e e' f S; f_equal; apply S].
    split; [done|]. split; [by exists a|by eapply transfer_others].
  - minv E as x s1 Ex. injection E as <- <-. apply vfs_open_ok in Ex as [G O]; [|done]. split; [done|]. split; [done|]. destruct O as [(a & e & fd & _ & _ & _ & _ & _ & T)|(_ & T & _)]; by eapply tables_others.
  - minv E as x s1 Ex. injection E as <- <-. apply vfs_close_ok in Ex as (G & -> & p & Ht & Hfd & T); [|done]. split; [done|]. unfold own. rewrite Ht. split; [done|by eapply tables_others].
  - minv E as x s1 Ex. injection E as <- <-. apply vfs_lseek_ok in Ex as (G & S & p' & T); [|done]. split; [done|]. split; [done|by eapply tables_others].
  - minv E as x s1 Ex. destruct x. injection E as <- <-. apply vfs_getcwd_ok in Ex as ->. split; [by apply keeps_grows, keeps_refl|]. split; [by apply tables_keeps, keeps_refl|done].
  - minv E as x s1 Ex. injection E as <- <-. apply vfs_chdir_ok in Ex as [G C]; [|done]. split; [done|]. split; [done|]. unfold chdir_spec in C.
    destruct (table s pid); [|destruct C as [_ T]; by eapply tables_others]. destruct C as [(a & _ & _ & T)|(_ & _ & T)]; by eapply tables_others.
  - minv E as x s1 Ex. destruct x. injection E as <- <-. apply vfs_stat_ok in Ex; [|done]. split; [by apply keeps_grows|]. split; [by apply tables_keeps|by eapply tables_others, tables_keeps].
  - minv E as x s1 Ex. destruct x as [n l]. injection E as <- <-. apply vfs_getdents_ok in Ex as [G D]; [|done]. split; [done|]. split; [by exists l|by eapply getdents_others].
  - minv E as x s1 Ex. injection E as <- <-. apply vfs_mkdir_ok in Ex; [|done]. split; [by apply keeps_grows|]. split; [by apply tables_keeps|by eapply tables_others, tables_keeps].
  - minv E as x s1 Ex. injection E as <- <-. apply vfs_forkfs_ok in Ex as (G & -> & T); [|done]. split; [done|]. split; [done|]. intros y Hy Hq. rewrite T, (proj2 (Z.eqb_neq y pid)) by done.
    rewrite (proj2 (Z.eqb_neq y child)); [done|]. by intros ->.
  - minv E as x s1 Ex. injection E as <- <-. apply vfs_execfs_ok in Ex as (G & -> & T); [|done]. split; [done|]. split; [done|by eapply tables_others].
  - minv E as x s1 Ex. injection E as <- <-. apply vfs_freefs_ok in Ex as (G & -> & T); [|done]. split; [done|]. split; [done|by eapply tables_others].
  - injection E as <- <-. split; [by apply keeps_grows, keeps_refl|]. split; [by apply tables_keeps, keeps_refl|done].
Qed.

(** ** Requests are answered *)

Lemma upd_de_total s a f : in_dom (dentries s) a -> is_Some (@upd_de F a f s).
Proof. intros [e He]. unfold upd_de. rewrite He. by eexists. Qed.

Lemma get_de_total s a : in_dom (dentries s) a -> is_Some (@get_de F a s).
Proof. intros [e He]. unfold get_de. rewrite He. by eexists. Qed.

Lemma std_filp_total s a : in_dom (dentries s) a -> is_Some (@std_filp F a s).
Proof.
  intros Ha. unfold std_filp. apply bind_total; [by apply get_de_total|]. intros e s1 [-> He]%get_de_inv. unfold make_filp. apply bind_total; [by apply upd_de_total|]. intros u s2 _. by eexists.
Qed.

(** The rest of a program after the three standard files. *)
Lemma std_three_total {A} s (k : file -> file -> file -> SO (vfs F) A) : vfs_ok s ->
  (forall f0 f1 f2 s', keeps s s' -> is_Some (k f0 f1 f2 s')) ->
  is_Some ((f0 ← std_filp (stdin s); f1 ← std_filp (stdout s); f2 ← std_filp (stderr s); k f0 f1 f2) s).
Proof.
  intros Hs Hk. destruct (vo_std s Hs) as (_ & D0 & D1 & D2). apply bind_total; [by apply std_filp_total|]. intros f0 s1 E0. apply std_filp_ok in E0 as [K0 _]; [|done].
  apply bind_total; [apply std_filp_total; by eapply keeps_dom|]. intros f1 s2 E1. apply std_filp_ok in E1 as [K1 _]; [|apply K0]. assert (K01 : keeps s s2) by (by eapply keeps_trans).
  apply bind_total; [apply std_filp_total; by eapply keeps_dom|]. intros f2 s3 E2. apply std_filp_ok in E2 as [K2 _]; [|apply K1]. apply Hk. by eapply keeps_trans.
Qed.

Lemma init_total s pid : vfs_ok s -> is_Some (@init_proc_file F pid s).
Proof.
  intros Hs. unfold init_proc_file. apply bind_total; [by eexists|]. intros root s1 [= <- <-]. apply bind_total; [apply upd_de_total, (vo_std s Hs)|]. intros u s1 Eu. destruct (count_up_ok _ _ _ _ Hs Eu) as [K1 _].
  apply bind_total; [by eexists|]. intros a s2 [= <- <-]. apply bind_total; [by eexists|]. intros b s2 [= <- <-]. apply bind_total; [by eexists|]. intros c s2 [= <- <-].
  apply std_three_total; [apply K1|]. intros f0 f1 f2 s' _. by eexists.
Qed.

Lemma chain_of_total (s : vfs F) pid : 0 <= pid -> is_Some (chain_of pid s).
Proof. intros. unfold chain_of. rewrite (proj2 (Z.ltb_ge pid 0)) by done. by eexists. Qed.

Lemma map_proc_file_total (s : vfs F) pid : 0 <= pid -> is_Some (map_proc_file pid s).
Proof. intros. unfold map_proc_file. apply bind_total; [by apply chain_of_total|]. intros l s1 _. by eexists. Qed.

Lemma append_total (s : vfs F) p : 0 <= pf_pid p -> is_Some (append_proc_file p s).
Proof. intros. unfold append_proc_file. apply bind_total; [by apply chain_of_total|]. intros l s1 _. destruct (find_pf _ l); [by eexists|]. apply bind_total; by eexists. Qed.

Lemma upd_proc_file_total (s : vfs F) pid f : 0 <= pid -> is_Some (upd_proc_file pid f s).
Proof. intros. unfold upd_proc_file. apply bind_total; [by apply chain_of_total|]. intros l s1 _. by eexists. Qed.

Lemma get_proc_file_total s pid : vfs_ok s -> 0 <= pid -> is_Some (@get_proc_file F pid s).
Proof.
  intros Hs Hp. unfold get_proc_file. apply bind_total; [by apply map_proc_file_total|]. intros o s1 (_ & -> & ->)%map_proc_file_inv. destruct (table s pid); [by eexists|].
  apply bind_total; [by apply init_total|]. intros p s1 Ei. apply init_ok in Ei as [K ->]; [|done]. apply bind_total; [by apply append_total|]. intros r s2 _. by eexists.
Qed.

(** A found descriptor refers to an entry. *)
Lemma getfilp_then {A} s pid fd (k : option file -> SO (vfs F) A) : vfs_ok s -> 0 <= pid ->
  (forall o s', grows s s' -> (forall f, o = Some f -> in_dom (dentries s') (f_dentry f)) -> is_Some (k o s')) -> is_Some ((o ← getfilp pid fd; k o) s).
Proof.
  intros Hs Hp Hk. apply bind_total.
  - unfold getfilp. apply bind_total; [by apply get_proc_file_total|]. intros p s1 Ep. apply get_proc_file_ok in Ep as (_ & _ & _ & Hok & _); [|done]. destruct (_ && _) eqn:Eb; [|by eexists].
    apply andb_true_iff in Eb as [B1 B2]. zbool. destruct Hok as (Hl & _). destruct (lookup_lt_is_Some_2 (filp p) (Z.to_nat fd) ltac:(lia)) as [o Ho]. rewrite Ho. by eexists.
  - intros o s' Eo. pose proof Eo as Eo'. apply getfilp_ok in Eo' as (G & T & -> & _); [|done]. apply Hk; [done|]. intros f Ef. destruct (slot_entry _ _ _ _ Hs Ef) as [e He]. eapply grows_dom; [exact G|by exists e].
Qed.

Lemma store_pos_total (s : vfs F) pid fd pos : 0 <= pid -> is_Some (store_pos pid fd pos s).
Proof. intros. by apply upd_proc_file_total. Qed.

Lemma vfs_transfer_total s pid fd q : vfs_ok s -> 0 <= pid -> is_Some (vfs_transfer pid fd q s).
Proof.
  intros Hs Hp. unfold vfs_transfer. apply getfilp_then; [done|done|]. intros o s1 G Hf. destruct o as [f|]; [|by eexists]. apply bind_total; [by eexists|]. intros k s2 [= <- <-].
  destruct (negb _); [by eexists|]. apply bind_total; [by apply get_de_total, Hf|]. intros e s2 [-> _]%get_de_inv.
  apply bind_total; [unfold call; destruct (sendrecv _ _ _) as [[[? ?] ?] ?]; by eexists|]. intros [[st r] a] s2 _. destruct (negb _); [by eexists|].
  apply bind_total; [destruct (0 <? r); [by apply store_pos_total|by eexists]|]. intros u s3 _. by eexists.
Qed.

Lemma fork_files_total l : forall s, vfs_ok s -> (forall f, Some f ∈ l -> in_dom (dentries s) (f_dentry f)) -> is_Some (@fork_files F l s).
Proof.
  induction l as [|[f|] l IH]; intros s Hs Hl; cbn [fork_files]; [by eexists| |apply IH; [done|]; intros f Hf; apply Hl; by right].
  apply bind_total; [apply upd_de_total, Hl; by left|]. intros u s1 Eu. destruct (count_up_ok _ _ _ _ Hs Eu) as [K1 _]. apply IH; [apply K1|]. intros f' Hf'. eapply keeps_dom; [exact K1|]. apply Hl. by right.
Qed.

Lemma free_files_total l : forall s, vfs_ok s -> (forall f, Some f ∈ l -> in_dom (dentries s) (f_dentry f)) -> is_Some (@free_files F l s).
Proof.
  induction l as [|[f|] l IH]; intros s Hs Hl; cbn [free_files]; [by eexists| |apply IH; [done|]; intros f Hf; apply Hl; by right].
  apply bind_total; [apply upd_de_total, Hl; by left|]. intros u s1 Eu. apply count_down_ok in Eu as K1; [|done]. apply IH; [apply K1|]. intros f' Hf'. eapply keeps_dom; [exact K1|]. apply Hl. by right.
Qed.

Lemma pf_ok_elem d p f : pf_ok d p -> Some f ∈ filp p -> in_dom d (f_dentry f).
Proof. intros (_ & Hf & _) [i Hi]%list_elem_of_lookup_1. by eapply Hf. Qed.

(** *** Searches *)

(** A file system that finds a name stores its entry. *)
Definition lawful : Prop := forall pid n ino x a x', sendrecv pid (FsLookup n ino) x = (0, 0, a, x') -> exists d, a = ADentry (Some d).

(** A name that fits [f_name] and does not lead to a parent, which may be NULL. *)
Definition good_name (n : list Z) : Prop := n <> [46; 46] /\ Z.of_nat (length n) < SIZEOF_F_NAME.

Lemma getfilename_length path : (length (getfilename path).2 <= length path)%nat.
Proof. induction path as [|c path IH]; cbn [getfilename]; [done|]. destruct (c =? 47); [done|]. destruct (getfilename path). cbn in *. lia. Qed.

Lemma rest_shorter path : path <> [] -> (length (skip_slash (getfilename path).2) < length path)%nat.
Proof.
  destruct path as [|c path]; [done|]. intros _. cbn [getfilename]. destruct (c =? 47) eqn:E; [cbn [snd skip_slash]; rewrite E; cbn; lia|].
  pose proof (getfilename_length path) as Hl. destruct (getfilename path) as [n r]. cbn [snd] in *. destruct r as [|x r]; cbn [skip_slash length] in *; [lia|]. destruct (x =? 47); cbn [length]; lia.
Qed.

Lemma find_child_total n l (s : vfs F) : (forall c, c ∈ l -> in_dom (dentries s) c) -> is_Some (find_child n l s).
Proof.
  induction l as [|c l IH]; intros Hl; cbn [find_child]; [by eexists|]. apply bind_total; [apply get_de_total, Hl; by left|]. intros e s1 [-> _]%get_de_inv. case_bool_decide; [by eexists|].
  apply IH. intros x Hx. apply Hl. by right.
Qed.

Lemma lookup_in_fs_total s parent n : lawful -> vfs_ok s -> in_dom (dentries s) parent -> Z.of_nat (length n) < SIZEOF_F_NAME -> is_Some (vfs_lookup_in_fs parent n s).
Proof.
  intros Hlaw Hs Hd Hn. unfold vfs_lookup_in_fs. apply bind_total; [by apply get_de_total|]. intros pe s1 [-> Hpe]%get_de_inv. apply bind_total; [by eexists|]. intros k s1 [= <- <-].
  destruct (negb _); [by eexists|]. apply bind_total; [unfold call; destruct (sendrecv _ _ _) as [[[? ?] ?] ?]; by eexists|]. intros [[st r] a] s1 (x & Ec & ->)%call_inv.
  destruct (Z.eqb_spec st 0) as [->|]; cbn [negb]; [|by eexists]. destruct (Z.eqb_spec r 0) as [->|]; cbn [negb]; [|by eexists]. destruct (Hlaw _ _ _ _ _ _ Ec) as [d ->].
  apply bind_total; [by eexists|]. intros d' s1 [= <- <-]. rewrite (proj2 (Z.leb_gt SIZEOF_F_NAME _) Hn). apply bind_total; [by eexists|]. intros c s1 [= <- <-].
  apply bind_total; [|intros u s1 _; by eexists]. apply upd_de_total. cbn [dentries set_servers]. unfold in_dom. destruct (decide (parent = next_addr s)) as [->|Hne]; [rewrite lookup_insert_eq; by eexists|by rewrite lookup_insert_ne].
Qed.

Lemma lookup_path_total fuel : forall current path s, lawful -> vfs_ok s -> in_dom (dentries s) current -> Forall good_name (components path) -> (length path < fuel)%nat -> is_Some (lookup_path fuel current path s).
Proof.
  induction fuel as [|fuel IH]; intros current path s Hlaw Hs Hd Hg Hl; [lia|]. cbn [lookup_path]. destruct path as [|c0 path]; [by eexists|].
  rewrite (components_step (c0 :: path)) in Hg by done. pose proof (rest_shorter (c0 :: path) ltac:(done)) as Hr. destruct (getfilename (c0 :: path)) as [n rest]. cbn [fst snd] in Hg, Hr.
  apply Forall_cons in Hg as [[Hup Hlen] Hg]. rewrite (proj2 (Z.leb_gt SIZEOF_FILENAME _)) by (unfold SIZEOF_F_NAME, SIZEOF_FILENAME in *; lia). fold (skip_slash rest).
  rewrite bool_decide_eq_false_2 by done. case_bool_decide as Edot; [apply IH; try done; cbn [length] in Hl, Hr; lia|]. assert (Hpl : plain n) by done.
  apply bind_total; [by apply get_de_total|]. intros e s1 [-> He]%get_de_inv. apply bind_total; [apply find_child_total; intros c Hc; by eapply (vo_children s Hs)|].
  intros c s1 [-> Hc]%find_child_ok. destruct c as [next|].
  - symmetry in Hc. apply child_named_elem in Hc. apply bind_total; [apply upd_de_total; by eapply (vo_children s Hs)|]. intros u s1 Eu. destruct (count_up_ok _ _ _ _ Hs Eu) as [K1 Hn].
    apply IH; [done|apply K1|by eapply keeps_dom|done|cbn [length] in Hl, Hr; lia].
  - apply bind_total; [by apply lookup_in_fs_total|]. intros next s1 En. apply lookup_in_fs_ok in En as (K1 & pe & _ & Hn); [|done|done|by rewrite (step_plain _ _ e)]. destruct (Z.eqb_spec next 0) as [->|Hne]; [by eexists|].
    destruct Hn as [(-> & _)|(_ & Hn & _)]; [done|]. apply IH; [done|apply K1|done|done|cbn [length] in Hl, Hr; lia].
Qed.

Lemma vfs_lookup_total s cwd path : lawful -> vfs_ok s -> in_dom (dentries s) cwd -> Forall good_name (names_of path) -> is_Some (vfs_lookup cwd path s).
Proof.
  intros Hlaw Hs Hd Hg. unfold vfs_lookup. apply bind_total; [by eexists|]. intros root s1 [= <- <-]. destruct path as [|c rest]; [by eexists|]. cbn [names_of] in Hg.
  destruct (c =? 47); (apply lookup_path_total; [done|done| |done|cbn [length]; lia]); [apply (vo_std s Hs)|done].
Qed.

(** The requests that return: those on descriptors and about the life of a process, but
    [close], which does not check its descriptor, only for one of the table of a known
    process, and those on paths if the names are good. *)
Definition answered (s : vfs F) (pid : Z) (q : vfs_request) : Prop :=
  match q with
  | VRead _ _ | VWrite _ _ _ | VLseek _ _ _ | VGetdents _ _ | VMkdir _ _ | VExecfs | VFreefs | VUnknown => True
  | VClose fd => is_Some (table s pid) /\ 0 <= fd < Z.of_nat NR_FILES
  | VOpen path _ | VChdir path | VStat path => lawful /\ Forall good_name (names_of path)
  | VForkfs child => 0 <= child
  | VGetcwd _ => False
  end.

(** [close] of anything else reads outside the table, or through a NULL pointer. *)
Lemma close_undefined (s : vfs F) pid fd : vfs_ok s -> ~ answered s pid (VClose fd) -> vfs_close pid fd s = None.
Proof.
  intros Hs Hn. destruct (vfs_close pid fd s) as [[r s']|] eqn:E; [|done]. destruct Hn. apply vfs_close_ok in E as (_ & _ & p & Ht & Hfd & _); [|done]. split; [by exists p|done].
Qed.

Lemma do_process_total fuel s pid q : vfs_ok s -> 0 <= pid -> answered s pid q -> is_Some (do_process fuel pid q s).
Proof.
  intros Hs Hp Hq. destruct q; cbn [do_process answered] in *; try done; try by eexists.
  - apply bind_total; [|intros [r l] s1 _; by eexists]. unfold vfs_read. apply bind_total; [by apply vfs_transfer_total|]. intros [r a] s1 _. by eexists.
  - apply bind_total; [|intros r s1 _; by eexists]. unfold vfs_write. apply bind_total; [by apply vfs_transfer_total|]. intros [r a] s1 _. by eexists.
  - apply bind_total; [|intros r s1 _; by eexists]. unfold vfs_open. apply bind_total; [by apply get_proc_file_total|]. intros p s1 Ep. apply get_proc_file_ok in Ep as (G1 & _ & _ & Hok & _); [|done].
    destruct Hq as [Hlaw Hg]. apply bind_total; [apply vfs_lookup_total; [done|apply G1|apply Hok|done]|]. intros a s2 El. apply vfs_lookup_ok in El as [K2 W]; [|apply G1|apply Hok].
    destruct (Z.eqb_spec a 0) as [->|Hne]; [by eexists|]. assert (Hd : in_dom (dentries s2) a) by (by destruct W as [[_ [Hn|Hd]]|[Hn _]]).
    apply bind_total; [by apply get_de_total|]. intros e s3 [-> He]%get_de_inv. apply bind_total; [unfold make_filp; apply bind_total; [by apply upd_de_total|intros u s4 _; by eexists]|]. intros f s4 _.
    destruct (free_fd _ _); [|by eexists]. apply bind_total; [by apply upd_proc_file_total|]. intros u s5 _. by eexists.
  - apply bind_total; [|intros r s1 _; by eexists]. destruct Hq as [[p Et] Hfd]. unfold vfs_close. apply bind_total; [by apply map_proc_file_total|]. intros o s1 (_ & -> & ->)%map_proc_file_inv. rewrite Et.
    apply bind_total; [by eexists|]. intros p' s1 [= <- <-]. destruct (table_ok s pid p Hs Et) as [Hok _]. rewrite (proj2 (Z.ltb_ge fd 0)) by lia.
    destruct (lookup_lt_is_Some_2 (filp p) (Z.to_nat fd)) as [o Ho]; [destruct Hok as (Hl & _); lia|]. rewrite Ho. apply bind_total; [by eexists|]. intros o' s1 [= <- <-]. destruct o as [f|]; [|by eexists].
    apply bind_total; [apply upd_de_total; by eapply Hok|]. intros u s1 _. apply bind_total; [by apply upd_proc_file_total|]. intros u' s2 _. by eexists.
  - apply bind_total; [|intros r s1 _; by eexists]. unfold vfs_lseek. apply getfilp_then; [done|done|]. intros o s1 G Hf. destruct o as [f|]; [|by eexists].
    apply bind_total; [by apply get_de_total, Hf|]. intros e s2 _. destruct (seek _ _ _ _); [|by eexists]. apply bind_total; [by apply store_pos_total|]. intros u s3 _. by eexists.
  - apply bind_total; [|intros r s1 _; by eexists]. destruct Hq as [Hlaw Hg]. unfold vfs_chdir. apply bind_total; [by apply map_proc_file_total|]. intros o s1 (_ & -> & ->)%map_proc_file_inv.
    destruct (table s pid) as [p|] eqn:Et; [|by eexists]. destruct (table_ok s pid p Hs Et) as [(_ & _ & Hc) _]. apply bind_total; [by apply vfs_lookup_total|]. intros a s1 El. apply vfs_lookup_ok in El as [K1 _]; [|done|done].
    destruct (a =? 0); [by eexists|]. apply bind_total; [apply upd_de_total; by eapply keeps_dom|]. intros u s2 _. apply bind_total; [by apply upd_proc_file_total|]. intros u' s3 _. by eexists.
  - apply bind_total; [|intros [r l] s1 _; by eexists]. destruct Hq as [Hlaw Hg]. unfold vfs_stat. apply bind_total; [by apply map_proc_file_total|]. intros o s1 (_ & -> & ->)%map_proc_file_inv.
    destruct (table s pid) as [p|] eqn:Et; [|by eexists]. destruct (table_ok s pid p Hs Et) as [(_ & _ & Hc) _]. apply bind_total; [by apply vfs_lookup_total|]. intros a s1 El. apply vfs_lookup_ok in El as [K1 W]; [|done|done].
    destruct (Z.eqb_spec a 0) as [->|Hne]; [by eexists|]. assert (Hd : in_dom (dentries s1) a) by (by destruct W as [[_ [Hn|Hd]]|[Hn _]]).
    apply bind_total; [by apply get_de_total|]. intros e s2 _. apply bind_total; [unfold call; destruct (sendrecv _ _ _) as [[[? ?] ?] ?]; by eexists|]. intros [[st r] x] s3 _. by eexists.
  - apply bind_total; [|intros [r l] s1 _; by eexists]. unfold vfs_getdents. apply getfilp_then; [done|done|]. intros o s1 G Hf. destruct o as [f|]; [|by eexists].
    apply bind_total; [by apply get_de_total, Hf|]. intros e s2 _. apply bind_total; [unfold call; destruct (sendrecv _ _ _) as [[[? ?] ?] ?]; by eexists|]. intros [[st r] a] s3 _.
    destruct (_ || _); [by eexists|]. apply bind_total; [by apply store_pos_total|]. intros u s4 _. by eexists.
  - apply bind_total; [|intros r s1 _; by eexists]. unfold vfs_mkdir. apply bind_total; [by apply map_proc_file_total|]. intros o s1 (_ & -> & ->)%map_proc_file_inv.
    destruct (table s pid) as [p|] eqn:Et; [|by eexists]. destruct (table_ok s pid p Hs Et) as [(_ & _ & Hc) _]. apply bind_total; [by apply get_de_total|]. intros e s2 _.
    apply bind_total; [unfold call; destruct (sendrecv _ _ _) as [[[? ?] ?] ?]; by eexists|]. intros [[st r] a] s3 _. by eexists.
  - apply bind_total; [|intros r s1 _; by eexists]. unfold vfs_forkfs. apply bind_total; [by apply get_proc_file_total|]. intros p s1 Ep. apply get_proc_file_ok in Ep as (G1 & _ & _ & Hok & _); [|done].
    apply bind_total; [apply upd_de_total, Hok|]. intros u s2 Eu. destruct (count_up_ok _ _ _ _ (proj1 G1) Eu) as [K2 _].
    apply bind_total; [apply fork_files_total; [apply K2|]; intros f Hf; eapply keeps_dom; [exact K2|by eapply pf_ok_elem]|]. intros u' s3 _. apply bind_total; [by apply append_total|]. intros r s4 _. by eexists.
  - apply bind_total; [|intros r s1 _; by eexists]. unfold vfs_execfs. apply bind_total; [by apply map_proc_file_total|]. intros o s1 (_ & -> & ->)%map_proc_file_inv.
    destruct (table s pid) as [p|] eqn:Et.
    + destruct (table_ok s pid p Hs Et) as [Hok _]. apply bind_total; [apply free_files_total; [done|]; intros f Hf; by eapply pf_ok_elem|]. intros u s1 Eu. apply free_files_ok in Eu as K1; [|done].
      apply bind_total; [by eexists|]. intros a s2 [= <- <-]. apply bind_total; [by eexists|]. intros b s2 [= <- <-]. apply bind_total; [by eexists|]. intros c s2 [= <- <-].
      apply std_three_total; [apply K1|]. intros f0 f1 f2 s' _. apply bind_total; [by apply upd_proc_file_total|]. intros u' s2 _. by eexists.
    + apply bind_total; [by apply init_total|]. intros p s1 Ei. apply init_ok in Ei as [K ->]; [|done]. apply bind_total; [by apply append_total|]. intros r s2 _. by eexists.
  - apply bind_total; [|intros r s1 _; by eexists]. unfold vfs_freefs. apply bind_total; [by apply map_proc_file_total|]. intros o s1 (_ & -> & ->)%map_proc_file_inv.
    destruct (table s pid) as [p|] eqn:Et; [|by eexists]. destruct (table_ok s pid p Hs Et) as [Hok _]. apply bind_total; [apply free_files_total; [done|]; intros f Hf; by eapply pf_ok_elem|]. intros u s1 Eu.
    apply bind_total; [|intros r s2 _; by eexists]. unfold unmap_proc_file. apply bind_total; [by apply map_proc_file_total|]. intros o s2 _. destruct o; [|by eexists].
    apply bind_total; [by apply chain_of_total|]. intros l s3 _. apply bind_total; by eexists.
Qed.

End Proofs.

(** ** The state after booting *)

(** A file system that answers every request with three bytes. *)
#[global] Instance three_bytes : FileServers unit := { sendrecv pid q u := (0, 3, AData [1; 2; 3], u); kmap u := 0 }.

Definition empty_vfs : vfs unit := mk_vfs ∅ 1 ∅ 0 0 0 0 [] tt.

Definition boot_dentries : gmap Z dentry :=
  <[1 := mk_de IPC_EXT2 DE_NORMAL 2 2 1024 0x41ed [47] 1 [2]]> (<[2 := mk_de IPC_KERNEL DE_DEV 0 2 0 0x1b6 [100; 101; 118] NULL [3; 4]]>
  (<[3 := mk_de IPC_VIDEO DE_DEV 0 1 0 0x92 [118; 105; 100; 101; 111] NULL []]> (<[4 := mk_de IPC_KB DE_DEV 1 1 0 0x124 [107; 101; 121; 98; 111; 97; 114; 100] NULL []]> ∅))).

Definition boot_vfs : vfs unit := mk_vfs boot_dentries 5 ∅ 1 4 3 3 [(IPC_EXT2, 1)] tt.

(** It is what [main] builds. *)
Example boot_vfs_mounted : (mount_root (mk_dentry 2 0x41ed 1024) IPC_EXT2 1;; mount_dev) empty_vfs = Some (0, boot_vfs).
Proof. vm_compute. reflexivity. Qed.

Lemma boot_lookup a e : boot_dentries !! a = Some e ->
  (a = 1 /\ f_parent e = 1 /\ f_children e = [2]) \/ (a = 2 /\ f_parent e = NULL /\ f_children e = [3; 4]) \/ ((a = 3 \/ a = 4) /\ f_parent e = NULL /\ f_children e = []).
Proof.
  unfold boot_dentries. intros Ha. do 4 (apply lookup_insert_Some in Ha as [[<- <-]|[_ Ha]]; [cbn; tauto|]). by rewrite lookup_empty in Ha.
Qed.

Lemma boot_dom a : 1 <= a <= 4 -> in_dom boot_dentries a.
Proof. intros Ha. assert (Hc : a = 1 \/ a = 2 \/ a = 3 \/ a = 4) by lia. destruct_or! Hc; subst a; by eexists. Qed.

Lemma boot_vfs_ok : vfs_ok boot_vfs.
Proof.
  split; cbn [boot_vfs dentries file_map root_entry stdin stdout stderr next_addr]; try (intros b l Hb; by rewrite lookup_empty in Hb).
  - intros b l p Hb. by rewrite lookup_empty in Hb.
  - repeat split; apply boot_dom; lia.
  - intros a [e He]. apply boot_lookup in He. intuition lia.
  - lia.
  - intros a e c He Hc. apply boot_dom. apply boot_lookup in He as [(_ & _ & Ec)|[(_ & _ & Ec)|(_ & _ & Ec)]]; rewrite Ec in Hc; set_unfold in Hc; intuition lia.
  - intros a e He. apply boot_lookup in He as [(_ & -> & _)|[(_ & -> & _)|(_ & -> & _)]]; [right; apply boot_dom; lia|by left|by left].
Qed.

