(* ===== verification/FileCalls.v ===== *)
(** * A call of the C library from end to end

    The system of a process: the wrappers of [Syscalls], the kernel of [KernelMsg], which
    maps the memory of the caller, and the virtual file system server of [Vfs], which
    reads and writes that memory at the kernel's addresses.  The theorem follows a call
    through all of them to the address space of the caller. *)

From S2P Require Import Prelude Bytes Buddy PageIface Sched Ipc Irq Ext2 Vfs VfsProofs PageTable CString Words Fork ForkProofs UserMem KernelMsg MsgFormat Syscalls.

(** ** Bytes at kernel addresses

    Memory is made of words of eight bytes, as in [PageTable]. *)

Definition kbyte (w : gmap Z Z) (x : Z) : option Z := enc 8 (PageTable.rd w (x - x mod 8)) !! Z.to_nat (x mod 8).
Definition kstore (w : gmap Z Z) (x b : Z) : gmap Z Z :=
  <[x - x mod 8 := le_val (<[Z.to_nat (x mod 8) := b]> (enc 8 (PageTable.rd w (x - x mod 8))))]> w.

Fixpoint kload (n : nat) (w : gmap Z Z) (x : Z) : option (list Z) :=
  match n with
  | O => Some []
  | S n => b ← kbyte w x; l ← kload n w (x + 1); Some (b :: l)
  end.

Fixpoint kfill (w : gmap Z Z) (x : Z) (l : list Z) : gmap Z Z :=
  match l with [] => w | b :: l => kfill (kstore w x b) (x + 1) l end.

(** A string; [n] bounds its length. *)
Fixpoint kstr (n : nat) (w : gmap Z Z) (x : Z) : option (list Z) :=
  match n with
  | O => None
  | S n => b ← kbyte w x; if b =? 0 then Some [] else l ← kstr n w (x + 1); Some (b :: l)
  end.

Section Delivery.
Context {P : Type} `{!PageAllocator P}.
Implicit Types (st : pt_state P) (own : gmap Z Z) (role : gmap Z (list Z)) (m : gmap Z Z).

(** The bytes from [y] on are at the kernel addresses from [k] on. *)
Definition placed role (y n k : Z) : Prop :=
  0 <= y /\ y + n <= 2 ^ 47 /\ forall x, y <= x < y + n -> exists f, role !! f = Some (path_of x) /\ f + x mod PAGE_SIZE = k + (x - y).

Lemma placed_tail role y n k : 0 <= n -> placed role y (1 + n) k -> (exists f, role !! f = Some (path_of y) /\ k = f + y mod PAGE_SIZE) /\ 0 <= y < 2 ^ 47 /\ placed role (y + 1) n (k + 1).
Proof.
  intros Hn (H0 & H1 & H2). split; [destruct (H2 y ltac:(lia)) as (f & Hf & E); exists f; split; [done|lia]|]. split; [lia|]. split; [lia|]. split; [lia|].
  intros x Hx. destruct (H2 x ltac:(lia)) as (f & Hf & E). exists f. split; [done|lia].
Qed.

(** The frames of the pages from [y] on follow each other. *)
Definition neighbours role (y n : Z) : Prop :=
  forall x f f', y <= x -> x + 1 < y + n -> (x + 1) mod PAGE_SIZE = 0 -> role !! f = Some (path_of x) -> role !! f' = Some (path_of (x + 1)) -> f' = f + PAGE_SIZE.

Lemma next_byte x : 0 <= x -> (x + 1) mod PAGE_SIZE <> 0 -> (x + 1) mod PAGE_SIZE = x mod PAGE_SIZE + 1 /\ path_of (x + 1) = path_of x.
Proof.
  intros H0 Hne. pose proof (Z.mod_pos_bound x PAGE_SIZE ltac:(done)) as Hb. pose proof (Z.div_mod x PAGE_SIZE ltac:(done)) as Hd.
  assert (E : (x + 1) mod PAGE_SIZE = x mod PAGE_SIZE + 1).
  { rewrite Hd at 1. rewrite <- Z.add_assoc, Z.add_comm, Z.mul_comm, Z.mod_add by done. apply Z.mod_small. destruct (decide (x mod PAGE_SIZE + 1 = PAGE_SIZE)) as [E|]; [|lia].
    destruct Hne. replace (x + 1) with (PAGE_SIZE * (x / PAGE_SIZE) + PAGE_SIZE) by lia. replace (PAGE_SIZE * (x / PAGE_SIZE) + PAGE_SIZE) with ((x / PAGE_SIZE + 1) * PAGE_SIZE) by lia. by apply Z.mod_mul. }
  split; [done|]. apply path_of_page; [lia|lia|]. unfold page_start. lia.
Qed.

Lemma last_byte x : (x + 1) mod PAGE_SIZE = 0 -> x mod PAGE_SIZE = PAGE_SIZE - 1.
Proof.
  intros He. unfold PAGE_SIZE in *. pose proof (Z.div_mod x 4096 ltac:(lia)). pose proof (Z.div_mod (x + 1) 4096 ltac:(lia)). pose proof (Z.mod_pos_bound x 4096 ltac:(lia)). lia.
Qed.

Lemma one_page_neighbours role y n : 0 <= y -> y mod PAGE_SIZE + n <= PAGE_SIZE -> neighbours role y n.
Proof.
  intros H0 H1 x f f' Hy Hx He. exfalso. apply last_byte in He. pose proof (Z.div_mod x PAGE_SIZE ltac:(done)). pose proof (Z.div_mod y PAGE_SIZE ltac:(done)). pose proof (Z.mod_pos_bound y PAGE_SIZE ltac:(done)).
  unfold PAGE_SIZE in *. assert (x / 4096 = y / 4096); [|lia]. assert (Hx' : x < 4096 * (y / 4096) + 4096) by lia. symmetry. apply (Z.div_unique x 4096 (y / 4096) (x - 4096 * (y / 4096))); lia.
Qed.

Lemma neighbours_placed role y n f : 0 <= y -> y + n <= 2 ^ 47 -> (forall x, y <= x < y + n -> exists g, role !! g = Some (path_of x)) -> neighbours role y n -> role !! f = Some (path_of y) ->
  placed role y n (f + y mod PAGE_SIZE).
Proof.
  intros H0 H1 Hm Hn Hf. split; [done|]. split; [done|]. intros x Hx. replace x with (y + Z.of_nat (Z.to_nat (x - y))) in Hx |- * by lia. revert Hx. generalize (Z.to_nat (x - y)). clear x.
  intros i. induction i as [|i IH]; intros Hx; [exists f; rewrite Z.add_0_r in *; split; [done|lia]|]. destruct IH as (g & Hg & E); [lia|]. set (x := y + Z.of_nat i) in *. replace (y + Z.of_nat (S i)) with (x + 1) in * by lia.
  destruct (decide ((x + 1) mod PAGE_SIZE = 0)) as [He|He].
  - destruct (Hm (x + 1) ltac:(lia)) as [g' Hg']. exists g'. split; [done|]. rewrite (Hn x g g' ltac:(lia) ltac:(lia) He Hg Hg'), He. apply last_byte in He. lia.
  - destruct (next_byte x ltac:(lia) He) as [Em Ep]. exists g. rewrite Em, Ep. split; [done|lia].
Qed.

(** Stores at other addresses. *)
Lemma kbyte_kstore_ne w x b y : 0 <= b < 256 -> y <> x -> kbyte (kstore w x b) y = kbyte w y.
Proof.
  intros Hb Hne. unfold kbyte, kstore, PageTable.rd. destruct (decide (y - y mod 8 = x - x mod 8)) as [E|E]; [|by rewrite lookup_insert_ne by congruence].
  rewrite E, lookup_insert_eq. cbn [from_option default]. set (l := enc 8 (default 0 (w !! (x - x mod 8)))). assert (Hl : length (<[Z.to_nat (x mod 8) := b]> l) = 8%nat) by (by rewrite length_insert; apply enc_length).
  assert (El : enc 8 (le_val (<[Z.to_nat (x mod 8) := b]> l)) = <[Z.to_nat (x mod 8) := b]> l).
  { replace 8%nat with (length (<[Z.to_nat (x mod 8) := b]> l)) at 1. apply enc_le_val. apply Forall_insert; [apply enc_bytes|done]. }
  unfold id. rewrite El. apply list_lookup_insert_ne.
  pose proof (Z.mod_pos_bound x 8 ltac:(lia)). pose proof (Z.mod_pos_bound y 8 ltac:(lia)). lia.
Qed.

Lemma kbyte_kfill_out l : forall w x y, Forall (fun b => 0 <= b < 256) l -> y < x \/ x + len l <= y -> kbyte (kfill w x l) y = kbyte w y.
Proof.
  induction l as [|b l IH]; intros w x y Hl Hy; cbn [kfill]; [done|]. rewrite len_cons in Hy. pose proof (len_nonneg l). apply Forall_cons in Hl as [Hb Hl]. rewrite IH by (done || lia). apply kbyte_kstore_ne; [done|lia].
Qed.

Lemma kernel_byte st own root role y f : pt_inv st own root role -> 0 <= y < 2 ^ 47 -> role !! f = Some (path_of y) ->
  ubyte (pt_mem st) root y = kbyte (pt_mem st) (f + y mod PAGE_SIZE) /\
  forall b, ustore (pt_mem st) root y b = Some (kstore (pt_mem st) (f + y mod PAGE_SIZE) b).
Proof.
  intros H Hy Hf. destruct (translate_word st own root role y f H Hy Hf) as (a & Et & Ew & E8 & Hi). unfold ubyte, ustore, kbyte, kstore.
  pose proof (role_block _ _ _ _ _ _ H Hf) as Hb. apply kernel_page in Hb as (_ & Hal & _). unfold PAGE_SIZE in *. pose proof (Z.mod_pos_bound y 4096 ltac:(lia)).
  assert (E : (f + y mod 4096) mod 8 = y mod 8).
  { apply Z.mod_divide in Hal as [k ->]; [|lia]. replace (k * 4096) with (k * 512 * 8) by lia. rewrite Z.add_comm, Z.mod_add by lia. apply (mod_pow2_mod y 3 12); lia. }
  assert (Ex : f + y mod 4096 - y mod 8 = f + 8 * (y mod 4096 / 8)).
  { pose proof (Z.div_mod (y mod 4096) 8 ltac:(lia)). assert (y mod 4096 mod 8 = y mod 8) by (apply (mod_pow2_mod y 3 12); lia). lia. }
  split; [|intros b]; rewrite Et; some_bind; rewrite Ew, E8, E, Ex; done.
Qed.

(** What a server stores at the kernel's address of a buffer arrives in the buffer. *)
Lemma kfill_delivers l : forall st own root role m y k, represents_space st own root role m -> placed role y (len l) k -> Forall (fun b => 0 <= b < 256) l -> mapped m y (len l) ->
  represents_space (with_words st (kfill (pt_mem st) k l)) own root role (CString.write m y l).
Proof.
  induction l as [|b l IH]; intros st own root role m y k Hrep Hin Hl Hm; cbn [kfill CString.write].
  - by destruct st.
  - rewrite len_cons in *. pose proof (len_nonneg l). apply Forall_cons in Hl as [Hb Hl]. destruct (mapped_tail m y (len l) Hm ltac:(lia)) as [Hs Hm'].
    destruct (placed_tail role y (len l) k ltac:(lia) Hin) as ((f & Hf & ->) & Hy & Hin').
    destruct (store_refines st own root role m y b Hrep Hy Hb Hs) as (w & Ew & Hr'). rewrite (proj2 (kernel_byte st own root role y f (rs_inv _ _ _ _ _ Hrep) Hy Hf) b) in Ew. injection Ew as <-.
    exact (IH _ own root role _ (y + 1) _ Hr' Hin' Hl ltac:(by apply mapped_insert)).
Qed.

Lemma kload_sees l : forall st own root role m y k, represents_space st own root role m -> placed role y (len l) k -> holds_at m y l -> kload (length l) (pt_mem st) k = Some l.
Proof.
  induction l as [|b l IH]; intros st own root role m y k Hrep Hin Hh; cbn [kload length]; [done|]. rewrite len_cons in *. pose proof (len_nonneg l). destruct Hh as [Hb Hh].
  destruct (placed_tail role y (len l) k ltac:(lia) Hin) as ((f & Hf & ->) & Hy & Hin').
  rewrite <- (proj1 (kernel_byte st own root role y f (rs_inv _ _ _ _ _ Hrep) Hy Hf)), <- (rs_bytes _ _ _ _ _ Hrep y Hy), Hb. some_bind. rewrite (IH st own root role m (y + 1) _ Hrep Hin' Hh). by some_bind.
Qed.

Lemma kstr_sees l : forall st own root role m y k n, represents_space st own root role m -> placed role y (len l + 1) k -> cstr m y l -> (length l < n)%nat -> kstr n (pt_mem st) k = Some l.
Proof.
  induction l as [|b l IH]; intros st own root role m y k [|n] Hrep Hin Hh Hn; try lia; cbn [kstr length] in *.
  - destruct (placed_tail role y 0 k ltac:(lia) Hin) as ((f & Hf & ->) & Hy & _). rewrite <- (proj1 (kernel_byte st own root role y f (rs_inv _ _ _ _ _ Hrep) Hy Hf)), <- (rs_bytes _ _ _ _ _ Hrep y Hy).
    cbn [cstr] in Hh. rewrite Hh. by some_bind.
  - pose proof (len_nonneg l). rewrite len_cons, <- Z.add_assoc in Hin. destruct (placed_tail role y (len l + 1) k ltac:(lia) Hin) as ((f & Hf & ->) & Hy & Hin').
    rewrite <- (proj1 (kernel_byte st own root role y f (rs_inv _ _ _ _ _ Hrep) Hy Hf)), <- (rs_bytes _ _ _ _ _ Hrep y Hy).
    destruct Hh as (Hb & Hr & Hh). rewrite Hb. some_bind. rewrite (proj2 (Z.eqb_neq b 0)) by lia. rewrite (IH st own root role m (y + 1) _ n Hrep Hin' Hh ltac:(lia)). by some_bind.
Qed.
End Delivery.

(** ** The system *)

Section FileCalls.
Context {P D F : Type} `{!PageAllocator P, !ApicHardware D, !FileServers F}.
(** [fuel] bounds the depth of a working directory. *)
Context (fuel : nat).

Record system := mk_system { sy_kernel : kernel P D; sy_cur : Z; sy_vfs : vfs F }.

Definition words (s : system) : gmap Z Z := pt_mem (k_pt (k_state (sy_kernel s))).
Definition set_words (k : kernel P D) (w : gmap Z Z) : kernel P D :=
  let s := k_state k in mk_kernel (set_pt s (with_words (k_pt s) w)) (k_irqs k).

(** The request that the file server finds behind the pointers of a message; strings of
    a page and more are not looked at. *)
Definition vfs_request_of (w : gmap Z Z) (b : msg_body) : option vfs_request :=
  match b with
  | m_read fd _ size => Some (VRead fd size)
  | m_write fd buf size => l ← kload (Z.to_nat size) w buf; Some (VWrite fd l size)
  | m_open path oflag _ => s ← kstr (Z.to_nat PAGE_SIZE) w path; Some (VOpen s oflag)
  | m_close fd => Some (VClose fd)
  | m_lseek fd offset whence => Some (VLseek fd offset whence)
  | m_chdir path => s ← kstr (Z.to_nat PAGE_SIZE) w path; Some (VChdir s)
  | m_stat path _ => s ← kstr (Z.to_nat PAGE_SIZE) w path; Some (VStat s)
  | m_mkdir name mode => s ← kstr (Z.to_nat PAGE_SIZE) w name; Some (VMkdir s mode)
  | _ => None
  end.

(** [struct stat]. *)
Definition encode_stat (s : stat_t) : list Z :=
  enc 4 (st_mode s) ++ enc 4 (st_ino s) ++ enc 8 (st_size s) ++ enc 8 (st_atime s) ++ enc 8 (st_mtime s) ++ enc 8 (st_ctime s).

(** What the servers store through the pointers of the request. *)
Definition store_answer (w : gmap Z Z) (b : msg_body) (a : fs_answer) : gmap Z Z :=
  match b, a with
  | m_read _ buf _, AData l => kfill w buf l
  | m_stat _ buf, AStat (Some s) => kfill w buf (encode_stat s)
  | _, _ => w
  end.

Definition system_answer (who type : Z) (b : msg_body) : SO system (Z * Z * msg_body) := fun s =>
  if (who =? IPC_KERNEL) || (who =? IPC_MM) then
    o ← kernel_request (sy_kernel s) (sy_cur s) who (mk_message 0 type b);
    match o with
    | Answer (Some r) m k => Some (0, r, body m, mk_system k (sy_cur s) (sy_vfs s))
    | Refuse k => Some (-1, 0, b, mk_system k (sy_cur s) (sy_vfs s))
    | _ => None
    end
  else if who =? IPC_VFS then
    c ← procs (k_tab (k_state (sy_kernel s))) !! sy_cur s;
    q ← vfs_request_of (words s) b;
    x ← do_process fuel (pid c) q (sy_vfs s);
    let '(r, a, v) := x in
    Some (0, r, b, mk_system (set_words (sy_kernel s) (store_answer (words s) b a)) (sy_cur s) v)
  else None.

#[local] Instance system_typed : TypedSystem system := {| answer := system_answer |}.

Lemma kernel_request_inv (k : kernel P D) cur who m o : kernel_request k cur who m = Some o ->
  exists c, procs (k_tab (k_state k)) !! cur = Some c /\
    if who =? IPC_KERNEL then process_kernel_message k cur (mk_message (pid c) (mtype m) (body m)) = Some o
    else if who =? IPC_MM then process_mm_message k cur (mk_message (pid c) (mtype m) (body m)) = Some o else False.
Proof.
  unfold kernel_request, pre_syscall. destruct (procs (k_tab (k_state k)) !! cur) as [c|]; [|done]. some_bind. intros E. exists c. split; [done|].
  revert E. some_bind. destruct (who =? IPC_KERNEL); [done|]. by destruct (who =? IPC_MM).
Qed.

#[local] Instance system_laws : TypedLaws system.
Proof.
  split.
  - intros a1 a2 a3 s r b s' E. cbn [answer system_typed] in E. unfold system_answer in E. change ((IPC_MM =? IPC_KERNEL) || (IPC_MM =? IPC_MM)) with true in E. cbv iota in E.
    destruct (kernel_request _ _ _ _) as [o|] eqn:Ek; [|done]. apply kernel_request_inv in Ek as (c & Hc & Ek). change (IPC_MM =? IPC_KERNEL) with false in Ek. change (IPC_MM =? IPC_MM) with true in Ek. cbv iota in Ek.
    unfold process_mm_message in Ek. rewrite Hc in Ek. cbn in Ek. injection Ek as <-. cbn in E. injection E as _ <- _. eauto.
  - intros x s r b s' E. cbn [answer system_typed] in E. unfold system_answer in E. change ((IPC_KERNEL =? IPC_KERNEL) || (IPC_KERNEL =? IPC_MM)) with true in E. cbv iota in E.
    destruct (kernel_request _ _ _ _) as [o|] eqn:Ek; [|done]. apply kernel_request_inv in Ek as (c & Hc & Ek). change (IPC_KERNEL =? IPC_KERNEL) with true in Ek. cbv iota in Ek.
    unfold process_kernel_message in Ek. cbn [mtype] in Ek. change (MSG_WAIT =? MSG_IRQ) with false in Ek. change (MSG_WAIT =? MSG_GETPID) with false in Ek. change (MSG_WAIT =? MSG_EXIT) with false in Ek. change (MSG_WAIT =? MSG_WAIT) with true in Ek. cbv iota in Ek.
    destruct (wait_begin _ _) as [w|]; [|done]. destruct w; cbn in Ek; injection Ek as <-; cbn in E; try done. injection E as _ <- _. eauto.
Qed.

(** ** One call *)

Section Call.
Context (s : system) (c : proc_t) (own : gmap Z Z) (role : gmap Z (list Z)) (m : gmap Z Z).
Hypothesis Hc : procs (k_tab (k_state (sy_kernel s))) !! sy_cur s = Some c.
Hypothesis Hrep : represents_space (k_pt (k_state (sy_kernel s))) own (pgd (mm c)) role m.

(** The system after a call: the file server in its state [v], the address space [m']. *)
Definition after (s' : system) (v : vfs F) (m' : gmap Z Z) : Prop :=
  sy_vfs s' = v /\ sy_cur s' = sy_cur s /\ k_tab (k_state (sy_kernel s')) = k_tab (k_state (sy_kernel s)) /\
  represents_space (k_pt (k_state (sy_kernel s'))) own (pgd (mm c)) role m'.

(** The frame of a byte of the caller. *)
Lemma frame_of y : 0 <= y < 2 ^ 47 -> is_Some (m !! y) -> exists f, role !! f = Some (path_of y) /\ 0 <= f + y mod PAGE_SIZE < 2 ^ 64.
Proof.
  intros Hy Hm. destruct (proj1 (space_mapped _ _ _ _ _ y Hrep Hy) Hm) as [f Hf]. exists f. split; [done|].
  pose proof (role_block _ _ _ _ _ _ (rs_inv _ _ _ _ _ Hrep) Hf) as Hb. apply kernel_page in Hb as (H1 & _ & H2). pose proof (Z.mod_pos_bound y PAGE_SIZE ltac:(done)).
  unfold PAGE_SIZE, KERNEL_OFFSET in *. lia.
Qed.

Lemma kmap_call p q f g : 0 < p < 2 ^ 47 -> role !! f = Some (path_of p) -> 0 <= q < 2 ^ 47 -> (q <> 0 -> role !! g = Some (path_of q)) ->
  typed_call IPC_MM MSG_KMAP (m_kmap p q 0) s = Some (0, m_kmap (f + p mod PAGE_SIZE) (if q =? 0 then 0 else g + q mod PAGE_SIZE) 0, s).
Proof.
  intros Hp Hf Hq Hg. unfold typed_call, mbind, SO_bind. cbn [answer system_typed]. unfold system_answer. change ((IPC_MM =? IPC_KERNEL) || (IPC_MM =? IPC_MM)) with true. cbv iota.
  unfold kernel_request, pre_syscall. rewrite Hc. some_bind. change (IPC_MM =? IPC_KERNEL) with false. change (IPC_MM =? IPC_MM) with true. cbv iota.
  unfold process_mm_message. rewrite Hc. some_bind. cbn [mtype]. change (MSG_KMAP =? MSG_BRK) with false. change (MSG_KMAP =? MSG_FORK) with false. change (MSG_KMAP =? MSG_EXECVE) with false. change (MSG_KMAP =? MSG_KMAP) with true. cbv iota.
  unfold ipc_kmap. cbn [body]. some_bind. pose proof (rs_inv _ _ _ _ _ Hrep) as Hpt. rewrite (proj2 (Z.eqb_neq p 0)), (kmap_walk _ _ _ _ p f Hpt) by (done || lia).
  assert (Eq : (if q =? 0 then q else PageTable.kmap (pt_mem (k_pt (k_state (sy_kernel s)))) (pgd (mm c)) q) = if q =? 0 then 0 else g + q mod PAGE_SIZE).
  { destruct (q =? 0) eqn:E; zbool; [done|]. apply (kmap_walk _ _ _ _ q g Hpt); [lia|auto]. }
  rewrite Eq. destruct s. done.
Qed.

(** A request to the file server. *)
Lemma vfs_ask type b q r a v : vfs_request_of (words s) b = Some q -> do_process fuel (pid c) q (sy_vfs s) = Some ((r, a), v) ->
  ask IPC_VFS type b s = Some (i32 r, mk_system (set_words (sy_kernel s) (store_answer (words s) b a)) (sy_cur s) v).
Proof.
  intros Eq Ed. unfold ask, typed_call, mbind, SO_bind. cbn [answer system_typed]. unfold system_answer. change ((IPC_VFS =? IPC_KERNEL) || (IPC_VFS =? IPC_MM)) with false. change (IPC_VFS =? IPC_VFS) with true. cbv iota.
  rewrite Hc. some_bind. rewrite Eq. some_bind. rewrite Ed. by some_bind.
Qed.

Lemma after_same v : after (mk_system (set_words (sy_kernel s) (words s)) (sy_cur s) v) v m.
Proof. split; [done|]. split; [done|]. split; [done|]. unfold set_words, words. cbn. by destruct (k_pt (k_state (sy_kernel s))). Qed.

Lemma with_ptr_user p f fail g : 0 < p < 2 ^ 47 -> role !! f = Some (path_of p) -> 0 <= f + p mod PAGE_SIZE < 2 ^ 64 -> with_ptr fail p g s = g (f + p mod PAGE_SIZE) s.
Proof.
  intros Hp Hf Hr. unfold with_ptr, mbind, SO_bind. rewrite (kmap_call p 0 f 0 Hp Hf ltac:(lia) ltac:(done)). cbn [negb Z.eqb]. by rewrite u64_small by lia.
Qed.

(** The whole buffer follows its first byte in the kernel. *)
Definition whole (y n : Z) : Prop := y + n <= 2 ^ 47 /\ neighbours role y n.

Lemma whole_placed y n f : 0 <= y -> whole y n -> mapped m y n -> role !! f = Some (path_of y) -> placed role y n (f + y mod PAGE_SIZE).
Proof.
  intros H0 [H1 Hn] Hm Hf. apply neighbours_placed; [done|done| |done|done]. intros x Hx. apply (space_mapped _ _ _ _ _ x Hrep ltac:(lia)). by apply Hm.
Qed.

(** A call with a pointer that leaves the memory alone. *)
Lemma ptr_call p mk type q r a v : 0 < p < 2 ^ 47 -> is_Some (m !! p) ->
  (forall f, role !! f = Some (path_of p) -> vfs_request_of (words s) (mk (f + p mod PAGE_SIZE)) = Some q /\ store_answer (words s) (mk (f + p mod PAGE_SIZE)) a = words s) ->
  do_process fuel (pid c) q (sy_vfs s) = Some ((r, a), v) ->
  exists s', with_ptr (-1) p (fun x => ask IPC_VFS type (mk x)) s = Some (i32 r, s') /\ after s' v m.
Proof.
  intros Hy Hm Hq Ed. destruct (frame_of p ltac:(lia) Hm) as (f & Hf & Hr).
  destruct (Hq f Hf) as [E1 E2]. eexists. split; [rewrite (with_ptr_user p f) by done; rewrite (vfs_ask type _ q r a v E1 Ed), E2; reflexivity|apply after_same].
Qed.

Lemma holds_mapped l : forall y, holds_at m y l -> mapped m y (len l).
Proof.
  induction l as [|b l IH]; intros y Hh x Hx; [unfold len in Hx; cbn in Hx; lia|]. rewrite len_cons in Hx. destruct Hh as [Hb Hh]. destruct (decide (x = y)) as [->|]; [by eexists|]. apply (IH (y + 1) Hh). lia.
Qed.

(** A string of the caller as the file server reads it. *)
Lemma string_at p l f : 0 < p -> whole p (len l + 1) -> len l < PAGE_SIZE -> cstr m p l -> role !! f = Some (path_of p) ->
  kstr (Z.to_nat PAGE_SIZE) (words s) (f + p mod PAGE_SIZE) = Some l.
Proof.
  intros Hp Hw Hl Hs Hf. apply (kstr_sees l _ own (pgd (mm c)) role m p); [done| |done|unfold len in Hl; lia]. apply whole_placed; [lia|done| |done].
  apply cstr_holds, holds_mapped in Hs. unfold len in *. by rewrite length_app, Nat2Z.inj_add in Hs.
Qed.

Lemma path_call p l mk type q r a v : 0 < p -> whole p (len l + 1) -> len l < PAGE_SIZE -> cstr m p l ->
  (forall x, kstr (Z.to_nat PAGE_SIZE) (words s) x = Some l -> vfs_request_of (words s) (mk x) = Some q /\ store_answer (words s) (mk x) a = words s) ->
  do_process fuel (pid c) q (sy_vfs s) = Some ((r, a), v) ->
  exists s', with_ptr (-1) p (fun x => ask IPC_VFS type (mk x)) s = Some (i32 r, s') /\ after s' v m.
Proof.
  intros Hp Hw Hl Hs Hq Ed. pose proof (len_nonneg l). pose proof Hw as [Hw1 _]. apply (ptr_call p mk type q r a v); [lia| | |done].
  - destruct l; cbn [cstr] in Hs; [|destruct Hs as [Hs _]]; by eexists.
  - intros f Hf. by apply Hq, string_at.
Qed.

(** [read] stores at the kernel addresses that follow the first byte of the buffer, and
    [write] reads there. *)
Lemma read_call m0 fd buf n f r l v : SIZEOF_MESSAGE <= len m0 -> i32 fd = fd -> u64 n = n -> 0 < buf < 2 ^ 47 -> role !! f = Some (path_of buf) ->
  do_process fuel (pid c) (VRead fd n) (sy_vfs s) = Some ((r, AData l), v) ->
  read m0 fd buf n s = Some (i32 r, mk_system (set_words (sy_kernel s) (kfill (words s) (f + buf mod PAGE_SIZE) l)) (sy_cur s) v).
Proof.
  intros Hm0 Hfd Hn Hb Hf Ed. rewrite (read_typed m0 s Hm0 fd buf n Hfd) by (done || (apply u64_small; lia)).
  rewrite (with_ptr_user buf f) by (done || (pose proof (role_block _ _ _ _ _ _ (rs_inv _ _ _ _ _ Hrep) Hf) as Hk; apply kernel_page in Hk as (? & _ & ?); pose proof (Z.mod_pos_bound buf PAGE_SIZE ltac:(done)); unfold PAGE_SIZE, KERNEL_OFFSET in *; lia)).
  by rewrite (vfs_ask _ _ (VRead fd n) r (AData l) v).
Qed.

Lemma write_call m0 fd buf n f r a l v : SIZEOF_MESSAGE <= len m0 -> i32 fd = fd -> u64 n = n -> 0 < buf < 2 ^ 47 -> role !! f = Some (path_of buf) ->
  kload (Z.to_nat n) (words s) (f + buf mod PAGE_SIZE) = Some l -> do_process fuel (pid c) (VWrite fd l n) (sy_vfs s) = Some ((r, a), v) ->
  exists s', write m0 fd buf n s = Some (i32 r, s') /\ after s' v m.
Proof.
  intros Hm0 Hfd Hn Hb Hf El Ed. rewrite (write_typed m0 s Hm0 fd buf n Hfd) by (done || (apply u64_small; lia)).
  rewrite (with_ptr_user buf f) by (done || (pose proof (role_block _ _ _ _ _ _ (rs_inv _ _ _ _ _ Hrep) Hf) as Hk; apply kernel_page in Hk as (? & _ & ?); pose proof (Z.mod_pos_bound buf PAGE_SIZE ltac:(done)); unfold PAGE_SIZE, KERNEL_OFFSET in *; lia)).
  eexists. split; [apply (vfs_ask _ _ (VWrite fd l n)); [cbn [vfs_request_of]; rewrite El; by some_bind|exact Ed]|]. destruct a; apply after_same.
Qed.
End Call.

(** ** The property *)

(** Two frames that are not neighbours: a byte of the second page is not among the first
    page's bytes and those that follow them. *)
Lemma second_page st own root role buf x n f f' : pt_inv st own root role -> 0 <= buf -> n <= PAGE_SIZE -> buf < x < buf + n -> x mod PAGE_SIZE < buf mod PAGE_SIZE ->
  role !! f = Some (path_of buf) -> role !! f' = Some (path_of x) -> f' <> f + PAGE_SIZE ->
  f' + x mod PAGE_SIZE < f + buf mod PAGE_SIZE \/ f + buf mod PAGE_SIZE + n <= f' + x mod PAGE_SIZE.
Proof.
  intros Hpt H0 Hn Hx Hm Hf Hf' Hne. pose proof (role_block _ _ _ _ _ _ Hpt Hf) as Hb. pose proof (role_block _ _ _ _ _ _ Hpt Hf') as Hb'.
  apply kernel_page in Hb as (_ & Hb & _), Hb' as (_ & Hb' & _). unfold PAGE_SIZE in *. pose proof (Z.mod_pos_bound buf 4096 ltac:(lia)). pose proof (Z.mod_pos_bound x 4096 ltac:(lia)).
  assert (f' <> f).
  { intros ->. rewrite Hf in Hf'. assert (E : path_of buf = path_of x) by congruence. apply path_of_page in E; [|lia|lia]. unfold page_start, PAGE_SIZE in E. lia. }
  apply Z.mod_divide in Hb as [i ->], Hb' as [j ->]; try lia.
Qed.

(** C5: a call on files from end to end.  For a process whose page tables implement the
    address space [m], a buffer or string in one page, or in pages whose frames follow
    each other, is what the file server sees and fills.  [read] returns what the server answers and the address space then holds the
    bytes of the file in the buffer and is otherwise unchanged; [write] hands over exactly
    the bytes of the buffer, [open], [chdir] and [mkdir] exactly the string, of less than a page; [close] and
    [lseek] pass their numbers.  A server that keeps its invariant always answers [read].
    The kernel maps the first byte only.  So if the frame of the second page is not the
    neighbour of the first, no byte that [read] was to put into the second page arrives there,
    and [write] hands over the bytes that follow the frame of the first page, whatever they are. *)
Theorem file_calls_correct (s : system) (c : proc_t) (own : gmap Z Z) (role : gmap Z (list Z)) (m : gmap Z Z) (m0 : list Z) (fd buf n : Z) :
  procs (k_tab (k_state (sy_kernel s))) !! sy_cur s = Some c -> represents_space (k_pt (k_state (sy_kernel s))) own (pgd (mm c)) role m -> SIZEOF_MESSAGE <= len m0 -> i32 fd = fd -> 0 < buf ->
  let served q r a v := do_process fuel (pid c) q (sy_vfs s) = Some ((r, a), v) in
  let done run r v m' := exists s', run s = Some (i32 r, s') /\ after s c own role s' v m' in
  (0 < n -> whole role buf n -> mapped m buf n -> vfs_ok (sy_vfs s) -> 0 <= pid c ->
    exists r l v, served (VRead fd n) r (AData l) v /\ (len l <= n -> Forall (fun b => 0 <= b < 256) l -> done (read m0 fd buf n) r v (CString.write m buf l))) /\
  (forall l r a v, 0 < len l -> whole role buf (len l) -> holds_at m buf l -> served (VWrite fd l (len l)) r a v -> done (write m0 fd buf (len l)) r v m) /\
  (forall path oflag mode r a v, whole role buf (len path + 1) -> len path < PAGE_SIZE -> cstr m buf path -> i32 oflag = oflag -> u32 mode = mode ->
    (served (VOpen path oflag) r a v -> done (open m0 buf oflag mode) r v m) /\
    (served (VChdir path) r a v -> done (chdir m0 buf) r v m) /\ (served (VMkdir path mode) r a v -> done (mkdir m0 buf mode) r v m)) /\
  (forall offset whence r a v, i64 offset = offset -> i32 whence = whence ->
    (served (VClose fd) r a v -> done (close m0 fd) r v m) /\ (served (VLseek fd offset whence) r a v -> done (lseek m0 fd offset whence) r v m)) /\
  (buf mod PAGE_SIZE + n <= PAGE_SIZE -> neighbours role buf n) /\
  (forall f, 0 < n <= PAGE_SIZE -> buf + n <= 2 ^ 47 -> role !! f = Some (path_of buf) ->
    (forall x f' r l v, buf < x < buf + n -> x mod PAGE_SIZE < buf mod PAGE_SIZE -> role !! f' = Some (path_of x) -> f' <> f + PAGE_SIZE ->
      served (VRead fd n) r (AData l) v -> len l <= n -> Forall (fun b => 0 <= b < 256) l ->
      exists s', read m0 fd buf n s = Some (i32 r, s') /\ kbyte (words s') (f' + x mod PAGE_SIZE) = kbyte (words s) (f' + x mod PAGE_SIZE)) /\
    (forall l r a v, kload (Z.to_nat n) (words s) (f + buf mod PAGE_SIZE) = Some l -> served (VWrite fd l n) r a v -> done (write m0 fd buf n) r v m)).
Proof.
  intros Hc Hrep Hm0 Hfd Hbuf served done'. split; [|split; [|split; [|split; [|split]]]].
  - intros Hn Hw Hma Hv Hpid. destruct (do_process_total fuel (sy_vfs s) (pid c) (VRead fd n) Hv Hpid I) as [[[r a] v] Ed].
    assert (Ha : exists l, a = AData l) by (cbn [do_process] in Ed; apply bind_inv in Ed as ([r' l] & s1 & _ & E); injection E as _ <- _; by eexists). destruct Ha as [l ->].
    exists r, l, v. split; [done|]. intros Hl Hb. pose proof Hw as [Hw1 _].
    destruct (frame_of s c own role m Hrep buf ltac:(lia) ltac:(apply Hma; lia)) as (f & Hf & Hr). unfold done'.
    rewrite (read_call s c own role m Hc Hrep m0 fd buf n f r l v) by (done || lia || (apply u64_small; lia)). eexists. split; [done|]. split; [done|]. split; [done|]. split; [done|].
    destruct (whole_placed s c own role m Hrep buf n f ltac:(lia) Hw Hma Hf) as (P1 & P2 & P3).
    apply (kfill_delivers l _ own _ role m buf); [done| |done|intros x Hx; apply Hma; lia]. split; [done|]. split; [lia|]. intros x Hx. apply P3. lia.
  - intros l r a v Hl Hw Hh Ed. pose proof Hw as [Hw1 _]. pose proof (holds_mapped m l buf Hh) as Hma. destruct (frame_of s c own role m Hrep buf ltac:(lia) ltac:(apply Hma; lia)) as (f & Hf & Hr).
    apply (write_call s c own role m Hc Hrep m0 fd buf (len l) f r a l v); try (done || lia || (apply u64_small; lia)). unfold len at 1. rewrite Nat2Z.id.
    apply (kload_sees l _ own (pgd (mm c)) role m buf); [done| |done]. by apply (whole_placed s c own role m Hrep); [lia|..].
  - intros path oflag mode r a v Hw Hl Hs Ho Hmo. pose proof (len_nonneg path). pose proof Hw as [Hw1 _]. assert (Hu : u64 buf = buf) by (apply u64_small; lia). unfold done'. split; [|split]; intros Ed.
    + rewrite (open_typed m0 s Hm0 buf oflag mode Hu Ho Hmo). apply (path_call s c own role m Hc Hrep buf path (fun x => m_open x oflag (if Z.land oflag O_CREAT =? 0 then get CUint 28 m0 else mode)) MSG_OPEN (VOpen path oflag) r a v); try done. intros x E. split; [cbn; by rewrite E|by destruct a].
    + rewrite (chdir_typed m0 s Hm0 buf Hu). apply (path_call s c own role m Hc Hrep buf path m_chdir MSG_CHDIR (VChdir path) r a v); try done. intros x E. split; [cbn; by rewrite E|by destruct a].
    + rewrite (mkdir_typed m0 s Hm0 buf mode Hu Hmo). apply (path_call s c own role m Hc Hrep buf path (fun x => m_mkdir x mode) MSG_MKDIR (VMkdir path mode) r a v); try done. intros x E. split; [cbn; by rewrite E|by destruct a].
  - intros offset whence r a v Ho Hw. unfold done'. split; intros Ed.
    + rewrite (close_typed m0 s Hm0 fd Hfd). eexists. split; [by apply (vfs_ask s c Hc _ _ (VClose fd))|]. destruct a; by apply after_same.
    + rewrite (lseek_typed m0 s Hm0 fd offset whence Hfd Ho Hw). eexists. split; [by apply (vfs_ask s c Hc _ _ (VLseek fd offset whence))|]. destruct a; by apply after_same.
  - intros Hp. apply one_page_neighbours; [lia|done].
  - intros f Hn Htop Hf. split.
    + intros x f' r l v Hx Hm Hf' Hne Ed Hl Hb. rewrite (read_call s c own role m Hc Hrep m0 fd buf n f r l v) by (done || lia || (apply u64_small; unfold PAGE_SIZE in *; lia)). eexists. split; [done|].
      unfold words, set_words. cbn. apply kbyte_kfill_out; [done|].
      destruct (second_page _ _ _ _ buf x n f f' (rs_inv _ _ _ _ _ Hrep) ltac:(lia) ltac:(lia) Hx Hm Hf Hf' Hne); lia.
    + intros l r a v El Ed. apply (write_call s c own role m Hc Hrep m0 fd buf n f r a l v); try (done || lia || (apply u64_small; unfold PAGE_SIZE in *; lia)).
Qed.
End FileCalls.

Arguments system P D F : clear implicits.

(** ** Witness: a process reads three bytes of its standard input *)

#[local] Existing Instance fork_pages32.
#[local] Existing Instance map_hardware.
#[local] Existing Instance map_laws.

Definition reader_system (st : pt_state mm_state) : system mm_state _ unit :=
  mk_system (mk_kernel (mk_ks st tab32 ∅ 128) (ioapic_init 0 (cold 15)).2) proc32 boot_vfs.

Lemma file_calls_correct_witness : exists st own role s', let s := reader_system st in
  represents_space st own root32 role (u_map ∅ 0x400000) /\
  @Syscalls.read _ (@message_system _ (system_typed 1)) (replicate 56 0) 0 0x400100 3 s = Some (3, s') /\
  represents_space (k_pt (k_state (sy_kernel s'))) own root32 role (CString.write (u_map ∅ 0x400000) 0x400100 [1; 2; 3]).
Proof.
  destruct (map_refines empty32 _ root32 _ ∅ 0x400000 empty_space32) as (page & st & own & role & _ & H & _); [lia|enough32|].
  destruct (proj1 (file_calls_correct 1 (reader_system st) cur32 own role (u_map ∅ 0x400000) (replicate 56 0) 0 0x400100 3 ltac:(apply lookup_insert_eq) H ltac:(discriminate) eq_refl ltac:(done)))
    as (r & l & v & Ed & Hd); [done|split; [done|by apply one_page_neighbours]| |exact boot_vfs_ok|discriminate|].
  { intros x Hx. rewrite u_map_lookup by done. rewrite lookup_empty, decide_True; [by eexists|]. assert (Hx' : x = 0x400100 \/ x = 0x400101 \/ x = 0x400102) by lia. by destruct Hx' as [->|[->| ->]]. }
  assert (E : (r, l) = (3, [1; 2; 3])).
  { change (do_process 1 7 (VRead 0 3) boot_vfs = Some (r, AData l, v)) in Ed. vm_compute in Ed. injection Ed as <- <- _. reflexivity. }
  injection E as -> ->. destruct Hd as (s' & E & _ & _ & _ & HR); [done|by repeat constructor|]. exists st, own, role, s'. split; [exact H|]. split; [exact E|exact HR].
Defined.
