(* ===== verification/Shell.v ===== *)
(** * The shell: [shell/main.c] and [shell/builtin.c]

    The shell keeps its strings in memory, which is that of [CString]: the line it reads,
    the path it builds and the environment it was given.  What it does to the rest of the
    world are the calls of the class [Unix]: the characters it reads and writes, [stat],
    [chdir], [getcwd] and the calls that start a program. *)

From S2P Require Import Prelude Bytes Vsprintf CString.

#[local] Notation "'mem'" := (gmap Z Z).

(** The calls, each with its result: [u_read] of one character from the terminal with the
    character, [u_stat] with [st_mode], [u_read_file] with the bytes, [u_alloc] ([malloc]) with the address,
    [u_free] ([free]), [u_getcwd] with the path, [u_wait] with the status;
    [u_execve] has a result only if it fails. *)
Class Unix (U : Type) := {
  u_read : U -> Z * Z * U;
  u_write : Z -> list Z -> U -> U;
  u_stat : list Z -> U -> Z * Z * U;
  u_chdir : list Z -> U -> Z * U;
  u_open : list Z -> Z -> U -> Z * U;
  u_read_file : Z -> Z -> U -> Z * list Z * U;
  u_close : Z -> U -> U;
  u_alloc : Z -> U -> Z * U;
  u_free : Z -> U -> U;
  u_getcwd : U -> option (list Z) * U;
  u_fork : U -> Z * U;
  u_execve : list Z -> list (list Z) -> U -> option Z * U;
  u_wait : U -> Z * Z * U }.

Section Shell.
Context {U : Type} `{!Unix U}.

Record shell := mk_shell { s_mem : mem; s_world : U }.
#[local] Notation M := (SO shell).

Definition world {A} (f : U -> A * U) : M A := fun s => let '(a, u) := f (s_world s) in Some (a, mk_shell (s_mem s) u).
Definition memory {A} (f : mem -> option (A * mem)) : M A := fun s => x ← f (s_mem s); Some (x.1, mk_shell x.2 (s_world s)).
Definition load (a : Z) : M Z := memory (fun m => v ← m !! a; Some (v, m)).
Definition store (a v : Z) : M unit := memory (fun m => m ← store_byte m a v; Some (tt, m)).
Definition print (fd : Z) (l : list Z) : M unit := fun s => Some (tt, mk_shell (s_mem s) (u_write fd l (s_world s))).
(** A loop over a string ends inside the memory. *)
Definition with_fuel {A} (f : nat -> M A) : M A := fun s => f (fuel_of (s_mem s)) s.
(** The string at an address. *)
Fixpoint str_loop (fuel : nat) (m : mem) (a : Z) : option (list Z) :=
  match fuel with
  | O => None
  | S fuel => v ← m !! a; if v =? 0 then Some [] else l ← str_loop fuel m (a + 1); Some (v :: l)
  end.
Definition string_at (a : Z) : M (list Z) := memory (fun m => l ← str_loop (fuel_of m) m a; Some (l, m)).

(** ** [getline] *)

Definition TAB : Z := 0x09.
Definition BS : Z := 0x08.
Definition NL : Z := 0x0a.

(** A turn of the loop reads a character. *)
Fixpoint getline_loop (fuel : nat) (buf len : Z) : M Z :=
  match fuel with
  | O => lift None
  | S fuel =>
      '(n, c) ← world u_read;
      if negb (n =? 1) then mret len
      else
        len ← (if c =? TAB then mret len
               else if c =? BS then if 0 <? len then print 1 [c];; mret (len - 1) else mret len
               else store (buf + len) c;; print 1 [c];; mret (len + 1));
        if negb (c =? NL) then getline_loop fuel buf len else mret len
  end.

Definition getline (fuel : nat) (buf : Z) : M Z := len ← getline_loop fuel buf 0; store (buf + len) 0;; mret len.

(** ** [parse_cmd] *)

(** [argv] is an array of pointers; a store behind its end is undefined. *)
Definition set_arg (argv : list Z) (i p : Z) : option (list Z) := if (0 <=? i) && (i <? Z.of_nat (length argv)) then Some (<[Z.to_nat i := p]> argv) else None.

Fixpoint parse_loop (n : nat) (p : Z) (next : bool) (argc : Z) (argv : list Z) : M (Z * list Z) :=
  match n with
  | O => mret (argc, argv)
  | S n =>
      c ← load p;
      if isspace (i8 c) then store p 0;; parse_loop n (p + 1) true argc argv
      else if next then argv ← lift (set_arg argv argc p); parse_loop n (p + 1) false (argc + 1) argv
      else parse_loop n (p + 1) false argc argv
  end.

Definition parse_cmd (buf length : Z) (argv : list Z) : M (Z * list Z) :=
  if length =? 0 then mret (0, argv) else parse_loop (Z.to_nat length) buf true 0 argv.

(** ** The search of a command *)

Inductive builtin := Cls | Pwd | Cd.

(** [cmdtab], its names as addresses; the loop ends at the entry without a function. *)
Fixpoint match_builtin (cmdtab : list (Z * builtin)) (cmd : Z) : M (option builtin) :=
  match cmdtab with
  | [] => mret None
  | (name, f) :: tab =>
      r ← memory (fun m => r ← strcmp m cmd name; Some (r, m));
      if r =? 0 then mret (Some f) else match_builtin tab cmd
  end.

Definition strncmp_at (a b n : Z) : M Z := memory (fun m => r ← strncmp m a b n; Some (r, m)).
Definition strcpy_at (dest src : Z) : M unit := memory (fun m => m ← strcpy m dest src; Some (tt, m)).
Definition strcat_at (dest src : Z) : M unit := memory (fun m => x ← strcat m dest src; Some (tt, x.2)).

(** The first variable that starts with [PATH=]. *)
Fixpoint find_path (lit : Z) (envp : list Z) : M Z :=
  match envp with
  | [] => mret NULL
  | e :: envp => r ← strncmp_at lit e 5; if r =? 0 then mret e else find_path lit envp
  end.

Definition COLON : Z := 0x3a.

Fixpoint skip_dir (fuel : nat) (p : Z) : M Z :=
  match fuel with
  | O => lift None
  | S fuel => c ← load p; if negb (c =? 0) && negb (c =? COLON) then skip_dir fuel (p + 1) else mret p
  end.

Fixpoint split_path (fuel : nat) (p i : Z) (envpath : list Z) : M (list Z) :=
  match fuel with
  | O => lift None
  | S fuel =>
      c ← load p;
      if c =? 0 then mret envpath
      else
        envpath ← lift (set_arg envpath i p);
        p ← with_fuel (fun n => skip_dir n p);
        c ← load p;
        if negb (c =? 0) then store p 0;; split_path fuel (p + 1) (i + 1) envpath else split_path fuel p (i + 1) envpath
  end.

Definition NR_PATH : nat := 16.

(** The result and [envpath]; [lit] is the string PATH=. *)
Definition setup_envpath (lit : Z) (envp : list Z) : M (Z * list Z) :=
  let envpath := replicate NR_PATH NULL in
  path ← find_path lit envp;
  if path =? 0 then mret (-1, envpath)
  else envpath ← with_fuel (fun n => split_path n (path + 5) 0 envpath); mret (0, envpath).

Definition S_IXUSR : Z := 0x40.
Definition S_IFDIR : Z := 0x4000.

(** [envpath] is read up to a NULL; behind its end the read is undefined. *)
Fixpoint try_paths (pathbuf slash cmd : Z) (envpath : list Z) : M Z :=
  match envpath with
  | [] => lift None
  | d :: envpath =>
      if d =? 0 then mret NULL
      else
        strcpy_at pathbuf d;;
        strcat_at pathbuf slash;;
        strcat_at pathbuf cmd;;
        name ← string_at pathbuf;
        '(r, mode) ← world (u_stat name);
        if (r =? 0) && negb (Z.land mode S_IXUSR =? 0) then mret pathbuf else try_paths pathbuf slash cmd envpath
  end.

(** [dot] and [slash] are the strings of one character. *)
Definition find_command (pathbuf dot slash cmd : Z) (envpath : list Z) : M Z :=
  a ← strncmp_at dot cmd 1;
  b ← (if a =? 0 then mret 0 else strncmp_at slash cmd 1);
  if b =? 0 then strcpy_at pathbuf cmd;; mret pathbuf else try_paths pathbuf slash cmd envpath.

(** ** Running a command *)

(** The shell goes on with a value, or this process has become another program. *)
Inductive ran := Returned (v : Z) | Replaced (path : list Z) (argv : list (list Z)).

Fixpoint wait_loop (fuel : nat) (pid : Z) : M Z :=
  match fuel with
  | O => lift None
  | S fuel => '(r, status) ← world u_wait; if r =? pid then mret status else wait_loop fuel pid
  end.

(** The arguments up to the NULL. *)
Fixpoint arg_strings (argv : list Z) : M (list (list Z)) :=
  match argv with
  | [] => lift None
  | a :: argv => if a =? 0 then mret [] else l ← string_at a; ls ← arg_strings argv; mret (l :: ls)
  end.

Definition text_not_exec : list Z := [0x65; 0x78; 0x65; 0x63; 0x3a; 0x20; 0x6e; 0x6f; 0x74; 0x20; 0x61; 0x6e; 0x20; 0x65; 0x78; 0x65; 0x63; 0x75; 0x74; 0x61; 0x62; 0x6c; 0x65; 0x20; 0x66; 0x69; 0x6c; 0x65; 0x0a].
Definition text_fork_failed : list Z := [0x66; 0x6f; 0x72; 0x6b; 0x20; 0x66; 0x61; 0x69; 0x6c; 0x65; 0x64; 0x0a].

Definition do_exec (fuel : nat) (path : Z) (argv : list Z) : M ran :=
  name ← string_at path;
  '(r, mode) ← world (u_stat name);
  if negb (r =? 0) || (Z.land mode S_IXUSR =? 0) then print 1 text_not_exec;; mret (Returned 1)
  else if negb (Z.land mode S_IFDIR =? 0) then r ← world (u_chdir name); mret (Returned r)
  else
    pid ← world u_fork;
    child ← (if pid =? 0 then args ← arg_strings argv; r ← world (u_execve name args); mret (match r with None => Some args | Some _ => None end) else mret None);
    match child with
    | Some args => mret (Replaced name args)
    | None => if pid <? 0 then print 1 text_fork_failed;; mret (Returned 1) else status ← wait_loop fuel pid; mret (Returned status)
    end.

(** ** [builtin.c] *)

Definition cls : M Z := print 1 [0x0c];; mret 0.

Definition text_pwd_alloc : list Z := [0x3c; 0x33; 0x3e; 0x70; 0x61; 0x6e; 0x69; 0x63; 0x28; 0x62; 0x75; 0x69; 0x6c; 0x74; 0x69; 0x6e; 0x2e; 0x63; 0x2c; 0x32; 0x35; 0x29; 0x3a; 0x20; 0x62; 0x75; 0x66; 0x66; 0x65; 0x72; 0x20; 0x61; 0x6c; 0x6c; 0x6f; 0x63; 0x20; 0x66; 0x61; 0x69; 0x6c; 0x65; 0x64; 0x0a].
Definition text_pwd_error : list Z := [0x3c; 0x33; 0x3e; 0x70; 0x61; 0x6e; 0x69; 0x63; 0x28; 0x62; 0x75; 0x69; 0x6c; 0x74; 0x69; 0x6e; 0x2e; 0x63; 0x2c; 0x33; 0x32; 0x29; 0x3a; 0x20; 0x70; 0x77; 0x64; 0x20; 0x67; 0x65; 0x74; 0x20; 0x61; 0x6e; 0x20; 0x65; 0x72; 0x72; 0x6f; 0x72; 0x0a].

(** [panic] shows its text on the kernel's console, descriptor 0 here, and returns.
    [getcwd] returns the buffer or NULL, and that is freed: after a failure the buffer
    stays allocated. *)
Definition pwd : M Z :=
  buf ← world (u_alloc 512);
  if buf =? 0 then print 0 text_pwd_alloc;; mret 1
  else
    p ← world u_getcwd;
    match p with
    | Some l => print 1 (l ++ [NL]);; world (fun u => (tt, u_free buf u));; mret 0
    | None => print 0 text_pwd_error;; world (fun u => (tt, u_free NULL u));; mret 1
    end.

Definition text_usage_cd : list Z := [0x55; 0x73; 0x61; 0x67; 0x65; 0x3a; 0x20; 0x63; 0x64; 0x20; 0x3c; 0x64; 0x69; 0x72; 0x6e; 0x61; 0x6d; 0x65; 0x3e; 0x0a].
Definition text_no_dir : list Z := [0x4e; 0x6f; 0x20; 0x73; 0x75; 0x63; 0x68; 0x20; 0x64; 0x69; 0x72; 0x65; 0x63; 0x74; 0x6f; 0x72; 0x79; 0x3a; 0x20].

Definition cd (argc : Z) (argv : list Z) : M Z :=
  if negb (argc =? 2) then print 2 text_usage_cd;; mret (-1)
  else
    a ← lift (argv !! 1%nat);
    name ← string_at a;
    '(r, mode) ← world (u_stat name);
    if negb (r =? 0) || (Z.land mode S_IFDIR =? 0) then print 1 (text_no_dir ++ name ++ [NL]);; mret (-1)
    else world (u_chdir name).

Definition run_builtin (f : builtin) (argc : Z) (argv : list Z) : M Z := match f with Cls => cls | Pwd => pwd | Cd => cd argc argv end.

(** ** [main] *)

Definition O_RDONLY : Z := 0.
Definition path_welcome : list Z := [0x2f; 0x65; 0x74; 0x63; 0x2f; 0x77; 0x65; 0x6c; 0x63; 0x6f; 0x6d; 0x65].

(** A failed [read] makes [write] send all memory behind the buffer. *)
Fixpoint copy_loop (fuel : nat) (fd : Z) : M unit :=
  match fuel with
  | O => lift None
  | S fuel =>
      '(n, l) ← world (u_read_file fd 512);
      if n =? 0 then mret tt else if n <? 0 then lift None else print 1 (take (Z.to_nat n) l);; copy_loop fuel fd
  end.

Definition welcome (fuel : nat) : M unit :=
  cls;;
  fd ← world (u_open path_welcome O_RDONLY);
  if fd <? 0 then mret tt else copy_loop fuel fd;; world (fun u => (tt, u_close fd u)).

(** Where the shell keeps its strings. *)
Record places_t := mk_places { buffer : Z; pathbuf : Z; str_dot : Z; str_slash : Z; cmdtab : list (Z * builtin) }.

Definition NR_ARGS : nat := 32.
Definition text_prompt : list Z := [0x23; 0x20].
Definition text_not_found : list Z := [0x63; 0x6f; 0x6d; 0x6d; 0x61; 0x6e; 0x64; 0x20; 0x6e; 0x6f; 0x74; 0x20; 0x66; 0x6f; 0x75; 0x6e; 0x64; 0x0a].

(** One turn of the loop: the value of [cmdretval] if a command was run. *)
Definition main_turn (fuel : nat) (pl : places_t) (envpath : list Z) : M (option ran) :=
  print 1 text_prompt;;
  len ← getline fuel (buffer pl);
  '(cargc, cargv) ← parse_cmd (buffer pl) len (replicate NR_ARGS NULL);
  if cargc =? 0 then mret None
  else
    cmd ← lift (head cargv);
    f ← match_builtin (cmdtab pl) cmd;
    match f with
    | Some f => r ← run_builtin f cargc cargv; mret (Some (Returned r))
    | None =>
        path ← find_command (pathbuf pl) (str_dot pl) (str_slash pl) cmd envpath;
        if negb (path =? 0) then r ← do_exec fuel path cargv; mret (Some r)
        else print 1 text_not_found;; mret None
    end.
End Shell.
Arguments shell U : clear implicits.
