(* ===== verification/ShellProofs.v ===== *)
(** * The shell is correct

    What the shell reads is the line as the user edited it, its words are the words of the
    line, and the command it runs is the one that the first word names. *)

From S2P Require Import Prelude Bytes Vsprintf CString Words Shell.

Section Proofs.
Context {U : Type} `{!Unix U}.
Implicit Types (m : gmap Z Z) (u : U) (l : list Z).

(** ** Single steps *)

Lemma mret_bind {A B} (a : A) (k : A -> SO (shell U) B) s : ((mret a : SO (shell U) A) ≫= k) s = k a s.
Proof. done. Qed.

Lemma run_world {A B} (f : U -> A * U) (k : A -> SO (shell U) B) m u a u' : f u = (a, u') -> (world f ≫= k) (mk_shell m u) = k a (mk_shell m u').
Proof. intros E. unfold mbind, SO_bind, world. cbn [s_world s_mem]. by rewrite E. Qed.

Lemma run_load {B} a v (k : Z -> SO (shell U) B) m u : m !! a = Some v -> (load a ≫= k) (mk_shell m u) = k v (mk_shell m u).
Proof. intros E. unfold mbind at 1, SO_bind, load, memory. cbn [s_mem]. rewrite E. by some_bind. Qed.

Lemma run_store {B} a v (k : unit -> SO (shell U) B) m u : is_Some (m !! a) -> (store a v ≫= k) (mk_shell m u) = k tt (mk_shell (<[a := v]> m) u).
Proof. intros E. unfold mbind at 1, SO_bind, store, memory. cbn [s_mem]. rewrite store_ok by done. by some_bind. Qed.

Lemma store_faults {B} a v (k : unit -> SO (shell U) B) m u : m !! a = None -> (store a v ≫= k) (mk_shell m u) = None.
Proof. intros E. unfold mbind at 1, SO_bind, store, memory, store_byte. cbn [s_mem]. by rewrite E. Qed.

Lemma run_print {B} fd t (k : unit -> SO (shell U) B) m u : (print fd t ≫= k) (mk_shell m u) = k tt (mk_shell m (u_write fd t u)).
Proof. done. Qed.

Lemma run_string {B} a l (k : list Z -> SO (shell U) B) m u : cstr m a l -> (string_at a ≫= k) (mk_shell m u) = k l (mk_shell m u).
Proof.
  intros Hc. unfold mbind at 1, SO_bind, string_at, memory. cbn [s_mem]. pose proof (cstr_fuel_of _ _ _ Hc) as Hf. revert Hf. generalize (fuel_of m). intros n Hn.
  assert (E : str_loop n m a = Some l); [|rewrite E; by some_bind]. revert a n Hc Hn. induction l as [|c l IH]; intros a [|n] Hc Hn; try lia; cbn [cstr str_loop length] in *.
  - rewrite Hc. by some_bind.
  - destruct Hc as (Hc & Hr & Ht). rewrite Hc. some_bind. rewrite (proj2 (Z.eqb_neq c 0)) by lia. rewrite (IH (a + 1) n Ht ltac:(lia)). by some_bind.
Qed.

(** ** The line *)

(** The line after a key, and what is echoed. *)
Definition edit (l : list Z) (c : Z) : list Z := if c =? TAB then l else if c =? BS then take (length l - 1) l else l ++ [c].
Definition echo (l : list Z) (c : Z) (u : U) : U := if (c =? TAB) || ((c =? BS) && (len l =? 0)) then u else u_write 1 [c] u.

(** The terminal delivers the keys one by one, with the echo in between. *)
Fixpoint delivers (keys l : list Z) (u u' : U) : Prop :=
  match keys with
  | [] => u = u'
  | c :: keys => exists u1, u_read u = (1, c, u1) /\ delivers keys (edit l c) (echo l c u1) u'
  end.

(** The lengths the line takes on. *)
Fixpoint lengths (l keys : list Z) : list Z := match keys with [] => [] | c :: keys => len (edit l c) :: lengths (edit l c) keys end.

Definition LINE_SIZE : Z := 512.

Lemma len_take n l : len (take n l) = Z.min (Z.of_nat n) (len l).
Proof. unfold len. rewrite length_take. lia. Qed.

Lemma edit_len l c : c <> TAB -> c <> BS -> len (edit l c) = len l + 1.
Proof. intros H1 H2. unfold edit. rewrite (proj2 (Z.eqb_neq c TAB)), (proj2 (Z.eqb_neq c BS)) by done. rewrite len_app. done. Qed.

Lemma holds_at_take m a l n : holds_at m a l -> holds_at m a (take n l).
Proof. intros H. rewrite <- (take_drop n l) in H. by apply holds_at_app in H as [H _]. Qed.

(** One key: the store, if any, is inside the buffer exactly if the line is shorter than
    it. *)
Lemma key_ok {B} buf l c m u (k : Z -> SO (shell U) B) : mapped m buf LINE_SIZE -> len l <= LINE_SIZE -> holds_at m buf l ->
  let run := (if c =? TAB then mret (len l)
              else if c =? BS then if 0 <? len l then print 1 [c];; mret (len l - 1) else mret (len l)
              else store (buf + len l) c;; print 1 [c];; mret (len l + 1)) ≫= k in
  if len (edit l c) <=? LINE_SIZE then
    exists m', run (mk_shell m u) = k (len (edit l c)) (mk_shell m' (echo l c u)) /\ holds_at m' buf (edit l c) /\ (forall x, x < buf \/ buf + LINE_SIZE <= x -> m' !! x = m !! x) /\ mapped m' buf LINE_SIZE
  else m !! (buf + LINE_SIZE) = None -> run (mk_shell m u) = None.
Proof.
  intros Hm Hl Hh run. pose proof (len_nonneg l). unfold run, edit, echo. destruct (c =? TAB) eqn:Et; [|destruct (c =? BS) eqn:Eb]; cbn [orb andb].
  - rewrite (proj2 (Z.leb_le _ _)) by done. exists m. by split.
  - rewrite len_take. rewrite (proj2 (Z.leb_le _ _)) by lia. exists m. split; [|split; [by apply holds_at_take|done]].
    destruct (0 <? len l) eqn:E0, (len l =? 0) eqn:E1; zbool; try lia.
    + change ((print 1 [c];; mret (len l - 1)) ≫= k) with (print 1 [c] ≫= fun _ => mret (len l - 1) ≫= k). unfold mbind, SO_bind, print, mret, SO_ret. cbn [s_mem s_world]. f_equal. unfold len in *. lia.
    + unfold mbind, SO_bind, mret, SO_ret. f_equal. unfold len in *. lia.
  - rewrite len_app. change (len [c]) with 1. destruct (len l + 1 <=? LINE_SIZE) eqn:E; zbool.
    + assert (Hs : is_Some (m !! (buf + len l))) by (apply Hm; lia). exists (<[buf + len l := c]> m). split; [|split; [|split]].
      * unfold mbind at 1 2, SO_bind, store, memory. cbn [s_mem s_world]. rewrite store_ok by done. by some_bind.
      * apply holds_at_app. split; [apply (holds_at_frame m); [done|]; intros x Hx; rewrite lookup_insert_ne by lia; done|]. split; [apply lookup_insert_eq|done].
      * intros x Hx. apply lookup_insert_ne. lia.
      * by apply mapped_insert.
    + intros Hn. assert (El : len l = LINE_SIZE) by lia. rewrite El. unfold mbind, SO_bind, store, memory, store_byte. cbn [s_mem s_world]. by rewrite Hn.
Qed.

Definition line (keys : list Z) : list Z := foldl edit [] keys.

(** What a line leaves behind: the memory outside the buffer, and the buffer itself. *)
Definition in_buffer (buf : Z) (m m' : gmap Z Z) : Prop := (forall x, x < buf \/ buf + LINE_SIZE <= x -> m' !! x = m !! x) /\ mapped m' buf LINE_SIZE.

Lemma in_buffer_trans buf m1 m2 m3 : in_buffer buf m1 m2 -> in_buffer buf m2 m3 -> in_buffer buf m1 m3.
Proof. intros [F1 _] [F2 M2]. split; [|done]. intros x Hx. by rewrite F2, F1. Qed.

Lemma edit_nl l : edit l NL = l ++ [NL].
Proof. done. Qed.

Lemma getline_loop_ok buf ks : forall fuel l m u u', NL ∉ ks -> (length ks < fuel)%nat -> mapped m buf LINE_SIZE -> len l <= LINE_SIZE -> holds_at m buf l ->
  delivers (ks ++ [NL]) l u u' ->
  if forallb (fun n => n <=? LINE_SIZE) (lengths l (ks ++ [NL])) then
    exists m', getline_loop fuel buf (len l) (mk_shell m u) = Some (len (foldl edit l (ks ++ [NL])), mk_shell m' u') /\ holds_at m' buf (foldl edit l (ks ++ [NL])) /\ in_buffer buf m m'
  else m !! (buf + LINE_SIZE) = None -> getline_loop fuel buf (len l) (mk_shell m u) = None.
Proof.
  induction ks as [|c ks IH]; intros [|fuel] l m u u' Hni Hf Hm Hl Hh Hd; try (cbn in Hf; lia); cbn [app length delivers foldl lengths forallb getline_loop] in *; destruct Hd as (u1 & Er & Hd).
  all: rewrite (run_world _ _ m u (1, _) u1 Er); change (negb (1 =? 1)) with false; cbv iota.
  - cbn in Hd. subst u'. pose proof (key_ok buf l NL m u1 (fun n => if negb (NL =? NL) then getline_loop fuel buf n else mret n) Hm Hl Hh) as Hk. cbv zeta in Hk.
    rewrite andb_true_r. destruct (len (edit l NL) <=? LINE_SIZE); [|exact Hk]. destruct Hk as (m' & E & H1 & H2 & H3). exists m'. split; [exact E|]. split; [done|by split].
  - apply not_elem_of_cons in Hni as [Hc Hni]. pose proof (key_ok buf l c m u1 (fun n => if negb (c =? NL) then getline_loop fuel buf n else mret n) Hm Hl Hh) as Hk. cbv zeta in Hk.
    destruct (len (edit l c) <=? LINE_SIZE) eqn:El; cbn [andb]; [|exact Hk]. destruct Hk as (m1 & E & H1 & H2 & H3). zbool.
    assert (Ec : negb (c =? NL) = true) by (apply negb_true_iff, Z.eqb_neq; congruence).
    pose proof (IH fuel (edit l c) m1 _ u' Hni ltac:(lia) H3 El H1 Hd) as Hi. destruct (forallb _ _).
    + destruct Hi as (m' & E' & Hh' & Hb). exists m'. split; [etransitivity; [exact E|]; cbv beta; rewrite Ec; exact E'|]. split; [done|]. apply (in_buffer_trans buf m m1); [by split|done].
    + intros Hn. etransitivity; [exact E|]. cbv beta. rewrite Ec. apply Hi. rewrite H2 by lia. exact Hn.
Qed.

(** The keys fit: the line never grows past the buffer and ends before its last byte. *)
Definition keys_fit (keys : list Z) : bool := forallb (fun n => n <=? LINE_SIZE) (lengths [] keys) && (len (line keys) <? LINE_SIZE).

Lemma getline_ok buf ks fuel m u u' : NL ∉ ks -> (length ks < fuel)%nat -> mapped m buf LINE_SIZE -> delivers (ks ++ [NL]) [] u u' ->
  let l := line (ks ++ [NL]) in
  if keys_fit (ks ++ [NL]) then exists m', getline fuel buf (mk_shell m u) = Some (len l, mk_shell m' u') /\ holds_at m' buf (l ++ [0]) /\ in_buffer buf m m'
  else m !! (buf + LINE_SIZE) = None -> getline fuel buf (mk_shell m u) = None.
Proof.
  intros Hni Hf Hm Hd l. pose proof (getline_loop_ok buf ks fuel [] m u u' Hni Hf Hm ltac:(done) I Hd) as H. unfold keys_fit. change (len []) with 0 in H. unfold getline.
  destruct (forallb _ _); cbn [andb]; [|intros Hn; unfold mbind at 1, SO_bind; by rewrite H]. destruct H as (m1 & E & H1 & H2 & H3). fold (line (ks ++ [NL])) in E, H1. fold l in E, H1. fold l.
  rewrite (bind_Some _ _ _ _ _ E). pose proof (len_nonneg l). destruct (len l <? LINE_SIZE) eqn:El; zbool.
  - exists (<[buf + len l := 0]> m1). split; [rewrite run_store by (apply H3; lia); done|]. split.
    + apply holds_at_app. split; [|split; [apply lookup_insert_eq|done]]. apply (holds_at_frame m1); [done|]. intros x Hx. rewrite lookup_insert_ne by lia. done.
    + split; [|by apply mapped_insert]. intros x Hx. rewrite lookup_insert_ne by lia. by apply H2.
  - intros Hn. assert (Hle : len l <= LINE_SIZE).
    { destruct (decide (len l = LINE_SIZE)) as [->|]; [lia|]. exfalso. assert (Hout : m1 !! (buf + LINE_SIZE) = None) by (rewrite H2 by lia; done).
      pose proof (holds_at_lookup l m1 buf (Z.to_nat LINE_SIZE)) as Hx. destruct (lookup_lt_is_Some_2 l (Z.to_nat LINE_SIZE)) as [v Hv]; [unfold len, LINE_SIZE in *; lia|].
      specialize (Hx v H1 Hv). rewrite Z2Nat.id in Hx by done. congruence. }
    apply store_faults. replace (len l) with LINE_SIZE by lia. rewrite H2 by lia. done.
Qed.

(** ** The words of a line *)

Definition space (c : Z) : bool := isspace (i8 c).

(** The parts of a line between separators. *)
Definition pieces (sep : Z -> bool) (l : list Z) : list (list Z) :=
  foldr (fun c ws => if sep c then [] :: ws else match ws with w :: ws => (c :: w) :: ws | [] => [[c]] end) [[]] l.

Definition words (l : list Z) : list (list Z) := filter (fun w => w <> []) (pieces space l).

(** Where the words start, and the line with its spaces cut out. *)
Fixpoint starts (next : bool) (p : Z) (l : list Z) : list Z :=
  match l with
  | [] => []
  | c :: l => if space c then starts true (p + 1) l else if next then p :: starts false (p + 1) l else starts false (p + 1) l
  end.
Definition blank (l : list Z) : list Z := map (fun c => if space c then 0 else c) l.

Lemma pieces_cons sep l : exists w ws, pieces sep l = w :: ws.
Proof. induction l as [|c l (w & ws & IH)]; cbn [pieces foldr]; [by eexists _, _|]. fold (pieces sep l). rewrite IH. destruct (sep c); by eexists _, _. Qed.

Lemma splice_cons n p ps (argv : list Z) : 0 <= n < Z.of_nat (length argv) -> splice n (p :: ps) argv = splice (n + 1) ps (<[Z.to_nat n := p]> argv).
Proof.
  intros Hn. unfold splice. replace (Z.to_nat (n + 1)) with (S (Z.to_nat n)) by lia. rewrite (take_S_r _ _ p) by (apply list_lookup_insert_eq; lia).
  rewrite take_insert_ge by lia. rewrite <- app_assoc. cbn [app length]. do 3 f_equal. rewrite drop_insert_lt by lia. f_equal. lia.
Qed.

Lemma splice_nil n (argv : list Z) : splice n [] argv = argv.
Proof. unfold splice. cbn. rewrite Nat.add_0_r. apply take_drop. Qed.

Lemma parse_loop_ok l : forall p next argc argv m u, holds_at m p l -> 0 <= argc <= Z.of_nat (length argv) ->
  let ps := starts next p l in
  parse_loop (length l) p next argc argv (mk_shell m u) =
  if argc + len ps <=? Z.of_nat (length argv) then Some (argc + len ps, splice argc ps argv, mk_shell (write m p (blank l)) u) else None.
Proof.
  induction l as [|c l IH]; intros p next argc argv m u Hh Ha ps; cbn [holds_at length parse_loop blank map write] in *.
  - unfold ps. cbn [starts]. change (len []) with 0. rewrite (proj2 (Z.leb_le _ _)) by lia. rewrite splice_nil, Z.add_0_r. done.
  - destruct Hh as [Hc Hh]. rewrite (run_load p c) by done. fold (space c). unfold ps. cbn [starts]. fold (blank l).
    assert (Hh' : forall v, holds_at (<[p := v]> m) (p + 1) l) by (intros v; apply (holds_at_frame m); [done|]; intros x Hx; apply lookup_insert_ne; lia).
    destruct (space c); [rewrite run_store by (by eexists); by apply IH|]. rewrite (insert_id m p c Hc). destruct next; [|by apply IH].
    rewrite len_cons. pose proof (len_nonneg (starts false (p + 1) l)). unfold set_arg. rewrite (proj2 (Z.leb_le 0 argc)) by lia. cbn [andb].
    destruct (argc <? Z.of_nat (length argv)) eqn:E; zbool.
    + change ((lift (Some (<[Z.to_nat argc := p]> argv)) ≫= ?k) ?s) with (k (<[Z.to_nat argc := p]> argv) s). cbv beta. rewrite IH by (try done; rewrite length_insert; lia).
      rewrite length_insert, Z.add_assoc, splice_cons by lia. done.
    + rewrite (proj2 (Z.leb_gt _ _)) by lia. done.
Qed.

Lemma words_at m l : forall p, holds_at m p (blank l ++ [0]) -> Forall (fun c => 0 < c < 256) l ->
  forall w ws, pieces space l = w :: ws ->
  cstr m p w /\ Forall2 (cstr m) (starts false p l) (filter (fun w => w <> []) ws) /\ Forall2 (cstr m) (starts true p l) (filter (fun w => w <> []) (w :: ws)).
Proof.
  induction l as [|c l IH]; intros p Hh Hl w ws E; cbn [blank map app holds_at starts] in *.
  - injection E as <- <-. destruct Hh as [Hh _]. split; [done|]. split; [constructor|]. rewrite filter_cons_False by (intros Hx; by apply Hx). constructor.
  - destruct Hh as [Hc Hh]. apply Forall_cons in Hl as [Hr Hl]. cbn [pieces foldr] in E. fold (pieces space l) in E. destruct (pieces_cons space l) as (w' & ws' & E'). rewrite E' in E.
    destruct (IH (p + 1) Hh Hl w' ws' E') as (I1 & I2 & I3). destruct (space c) eqn:Es; injection E as <- <-.
    + split; [done|]. split; [done|]. rewrite (filter_cons_False _ [] (w' :: ws')) by (intros Hx; by apply Hx). done.
    + split; [by cbn [cstr]|]. split; [done|]. rewrite filter_cons_True by done. constructor; [by cbn [cstr]|done].
Qed.

Lemma parse_cmd_ok buf l m u : holds_at m buf (l ++ [0]) -> Forall (fun c => 0 < c < 256) l -> (length (words l) <= NR_ARGS)%nat ->
  exists argv m', parse_cmd buf (len l) (replicate NR_ARGS NULL) (mk_shell m u) = Some (Z.of_nat (length (words l)), argv, mk_shell m' u) /\
    take (length (words l)) argv = starts true buf l /\ drop (length (words l)) argv = replicate (NR_ARGS - length (words l)) NULL /\ Forall2 (cstr m') (starts true buf l) (words l) /\
    (forall x, x < buf \/ buf + len l <= x -> m' !! x = m !! x) /\ m' = write m buf (blank l).
Proof.
  intros Hh Hl Hn. pose proof (proj1 (proj1 (holds_at_app l m buf [0]) Hh)) as Hh1. pose proof (proj2 (proj1 (holds_at_app l m buf [0]) Hh)) as [Hz _].
  assert (Lb : len (blank l) = len l) by (unfold len, blank; by rewrite length_map).
  assert (Hw : Forall2 (cstr (write m buf (blank l))) (starts true buf l) (words l)).
  { destruct (pieces_cons space l) as (w & ws & E). unfold words. rewrite E. apply (words_at _ l); [|done..]. apply holds_at_app. split; [apply write_holds|]. split; [|done]. rewrite Lb, write_out by lia. done. }
  pose proof (Forall2_length _ _ _ Hw) as Ew. exists (splice 0 (starts true buf l) (replicate NR_ARGS NULL)), (write m buf (blank l)). split.
  - unfold parse_cmd. destruct (len l =? 0) eqn:E0; zbool.
    + destruct l; [|rewrite len_cons in E0; pose proof (len_nonneg l); lia]. done.
    + unfold len at 1. rewrite Nat2Z.id, parse_loop_ok by (done || lia). rewrite length_replicate, Z.add_0_l. unfold len. rewrite Ew, (proj2 (Z.leb_le _ _)) by lia. done.
  - change (splice 0 (starts true buf l) (replicate NR_ARGS NULL)) with (starts true buf l ++ drop (length (starts true buf l)) (replicate NR_ARGS NULL)). rewrite <- Ew.
    split; [by rewrite take_app_length|]. split; [rewrite drop_app_length; by rewrite drop_replicate|].
    split; [done|]. split; [intros x Hx; apply write_out; lia|done].
Qed.

(** ** Names *)

Fixpoint find_name (w : list Z) (tab : list (list Z * builtin)) : option builtin :=
  match tab with
  | [] => None
  | (name, f) :: tab => if decide (w = name) then Some f else find_name w tab
  end.

(** The addresses of a table hold its names. *)
Definition table_at m (tab : list (Z * builtin)) (names : list (list Z * builtin)) : Prop := Forall2 (fun e n => cstr m e.1 n.1 /\ e.2 = n.2) tab names.

Lemma match_builtin_ok m u cmd w tab names : cstr m cmd w -> table_at m tab names -> match_builtin tab cmd (mk_shell m u) = Some (find_name w names, mk_shell m u).
Proof.
  intros Hw Ht. induction Ht as [|[a f] [n g] tab names [Hn E] Ht IH]; cbn [match_builtin find_name fst snd] in *; [done|]. subst g.
  unfold mbind at 1, SO_bind, memory. cbn [s_mem]. rewrite (strcmp_ok m cmd a w n Hw Hn). some_bind. cbn [fst snd]. destruct (lex w n =? 0) eqn:E; zbool.
  - apply lex_eq in E. by rewrite decide_True.
  - rewrite decide_False; [exact IH|]. intros ->. apply E. by apply lex_eq.
Qed.

Lemma strncmp_loop_sym n : forall m a b r, strncmp_loop n m b a (option_map Z.opp r) = option_map (option_map Z.opp) (strncmp_loop n m a b r).
Proof.
  induction n as [|n IH]; intros m a b r; cbn [strncmp_loop]; [done|]. destruct (m !! a) as [x|], (m !! b) as [y|]; try done. some_bind.
  destruct (i8 x - i8 y =? 0) eqn:E; destruct (i8 y - i8 x =? 0) eqn:E2; zbool; try lia; cbn [negb].
  - rewrite <- (IH m (a + 1) (b + 1) (Some (i8 x - i8 y))). cbn [option_map]. f_equal. f_equal. lia.
  - cbn [option_map]. do 2 f_equal. lia.
Qed.

(** [strncmp] with a literal first. *)
Lemma strncmp_literal m a b l1 l2 : cstr m a l1 -> cstr m b l2 -> l1 <> [] -> exists d, strncmp m a b (len l1) = Some d /\ (d = 0 <-> l1 `prefix_of` l2).
Proof.
  intros H1 H2 Hn. destruct (strncmp_prefix m b a l2 l1 H2 H1 Hn) as (d & E & Hd). exists (- d). split; [|rewrite <- Hd; lia]. unfold strncmp in *.
  pose proof (strncmp_loop_sym (Z.to_nat (len l1)) m b a None) as Es. cbn [option_map] in Es. rewrite Es. destruct (strncmp_loop _ _ _ _ _) as [[x|]|]; cbn in *; try done. by injection E as ->.
Qed.

Lemma run_strncmp m u a b l1 l2 : cstr m a l1 -> cstr m b l2 -> l1 <> [] ->
  exists d, strncmp_at a b (len l1) (mk_shell m u) = Some (d, mk_shell m u) /\ (d = 0 <-> l1 `prefix_of` l2).
Proof.
  intros H1 H2 Hn. destruct (strncmp_literal m a b l1 l2 H1 H2 Hn) as (d & E & Hd). exists d. split; [|done]. unfold strncmp_at, memory. cbn [s_mem]. rewrite E. by some_bind.
Qed.

(** ** The directories of [PATH] *)

Definition colon (c : Z) : bool := c =? COLON.

(** The parts between colons, without an empty one at the end. *)
Definition dirs (v : list Z) : list (list Z) := let ps := pieces colon v in if decide (last ps = Some []) then take (length ps - 1) ps else ps.

Lemma pieces_piece sep w : Forall (fun c => sep c = false) w -> pieces sep w = [w] /\ forall c v, sep c = true -> pieces sep (w ++ c :: v) = w :: pieces sep v.
Proof.
  induction 1 as [|c w Hc Hw [IH1 IH2]]; [split; [done|]; intros c v Hc; cbn [pieces foldr app]; by rewrite Hc|].
  split; [cbn [pieces foldr]; fold (pieces sep w); by rewrite IH1, Hc|]. intros c' v Hc'. cbn [pieces foldr app]. fold (pieces sep (w ++ c' :: v)). by rewrite (IH2 c' v Hc'), Hc.
Qed.

Lemma dirs_piece w : Forall (fun c => colon c = false) w -> dirs w = (if decide (w = []) then [] else [w]) /\ forall v, dirs (w ++ COLON :: v) = w :: dirs v.
Proof.
  intros Hw. destruct (pieces_piece colon w Hw) as [E1 E2]. unfold dirs. split.
  - rewrite E1. cbn [last length Nat.sub take]. destruct (decide (w = [])) as [->|Hn]; [done|]. by rewrite decide_False by congruence.
  - intros v. rewrite (E2 COLON v eq_refl). destruct (pieces_cons colon v) as (x & xs & E). rewrite E. cbn [last]. change (last (w :: x :: xs)) with (last (x :: xs)).
    case_decide; [|done]. cbn [length Nat.sub]. by rewrite Nat.sub_0_r.
Qed.

(** A value splits at its first colon. *)
Lemma first_colon v : exists w, Forall (fun c => colon c = false) w /\ (v = w \/ exists v', v = w ++ COLON :: v').
Proof.
  induction v as [|c v (w & Hw & IH)]; [exists []; split; [constructor|by left]|]. destruct (colon c) eqn:E.
  - unfold colon in E. zbool. subst c. exists []. split; [constructor|]. right. by exists v.
  - exists (c :: w). split; [by constructor|]. destruct IH as [->|[v' ->]]; [by left|right; by exists v'].
Qed.

Lemma holds_cstr_end m l : forall a, holds_at m a l -> Forall (fun c => 0 < c < 256) l -> m !! (a + len l) = Some 0 -> cstr m a l.
Proof. intros a H1 H2 H3. rewrite <- (app_nil_r l). by apply cstr_app. Qed.

Lemma skip_dir_ok m u w : forall n p l, (length w < n)%nat -> cstr m p (w ++ l) -> Forall (fun c => colon c = false) w -> (l = [] \/ head l = Some COLON) ->
  skip_dir n p (mk_shell m u) = Some (p + len w, mk_shell m u).
Proof.
  induction w as [|c w IH]; intros [|n] p l Hn Hc Hw Hl; cbn [length] in Hn; try lia; cbn [skip_dir app] in *.
  - destruct (cstr_head m p l Hc) as (v & Hv & Ev & _). rewrite (run_load p v) by done. assert (E : negb (v =? 0) && negb (v =? COLON) = false) by (destruct Hl as [->|Hl]; [by rewrite Ev|rewrite Hl in Ev; by rewrite Ev]).
    rewrite E. unfold mret, SO_ret. do 2 f_equal. unfold len. cbn. lia.
  - cbn [cstr] in Hc. destruct Hc as (Hc & Hr & Ht). apply Forall_cons in Hw as [Hcc Hw]. rewrite (run_load p c) by done. unfold colon in Hcc. rewrite Hcc, (proj2 (Z.eqb_neq c 0)) by lia. cbn [negb andb].
    rewrite (IH n (p + 1) l) by (done || lia). rewrite len_cons. do 2 f_equal. lia.
Qed.

Lemma Forall2_cstr_frame m m' ps ws : Forall2 (cstr m) ps ws -> (forall p w, p ∈ ps -> w ∈ ws -> cstr m p w -> cstr m' p w) -> Forall2 (cstr m') ps ws.
Proof.
  induction 1 as [|p w ps ws Hc Hf IH]; intros H; constructor; [apply H; [left|left|done]|]. apply IH. intros p' w' Hp Hw. apply H; by right.
Qed.

Lemma cstr_bytes m l : forall a, cstr m a l -> Forall (fun c => 0 < c < 256) l.
Proof. induction l as [|c l IH]; intros a H; constructor; destruct H as (_ & H1 & H2); [done|by apply (IH (a + 1))]. Qed.

Lemma run_with_fuel {A B} (f : nat -> SO (shell U) A) (k : A -> SO (shell U) B) m u a s : f (fuel_of m) (mk_shell m u) = Some (a, s) -> (with_fuel f ≫= k) (mk_shell m u) = k a s.
Proof. intros E. unfold mbind, SO_bind, with_fuel. cbn [s_mem]. by rewrite E. Qed.

Lemma split_path_ok n : forall m u p v i envpath, (length v < n)%nat -> cstr m p v -> 0 < p -> 0 <= i -> i + Z.of_nat (length (dirs v)) <= Z.of_nat (length envpath) ->
  exists ps m', split_path n p i envpath (mk_shell m u) = Some (splice i ps envpath, mk_shell m' u) /\ Forall2 (cstr m') ps (dirs v) /\ Forall (fun q => p <= q <= p + len v) ps /\
    (forall x, x < p \/ p + len v <= x -> m' !! x = m !! x).
Proof.
  induction n as [|n IH]; intros m u p v i envpath Hn Hc Hp Hi Hl; [lia|]. cbn [split_path].
  destruct (first_colon v) as (w & Hw & Hv). destruct (dirs_piece w Hw) as [D1 D2].
  destruct v as [|c v0] eqn:Ev.
  { cbn [cstr] in Hc. rewrite (run_load p 0) by done. cbn. exists [], m. rewrite splice_nil. split; [done|]. split; [constructor|]. by split. }
  rewrite <- Ev in *. assert (Hc0 : m !! p = Some c /\ c <> 0) by (rewrite Ev in Hc; destruct Hc as (? & ? & _); split; [done|lia]). destruct Hc0 as [Hc0 Hz].
  rewrite (run_load p c) by done. rewrite (proj2 (Z.eqb_neq c 0)) by done. pose proof (len_nonneg w) as Hwn.
  assert (Hset : forall k : nat, i + Z.of_nat (S k) <= Z.of_nat (length envpath) -> set_arg envpath i p = Some (<[Z.to_nat i := p]> envpath)).
  { intros k Hle. unfold set_arg. by rewrite (proj2 (Z.leb_le 0 i)), (proj2 (Z.ltb_lt _ _)) by lia. }
  destruct Hv as [->|[v' ->]].
  - assert (Hwne : w <> []) by (rewrite Ev; done). assert (Ed : dirs w = [w]) by (rewrite D1; by rewrite decide_False). rewrite Ed in *. cbn [length] in Hl.
    rewrite (Hset 0%nat) by lia. change ((lift (Some ?x) ≫= ?k) ?s) with (k x s). cbv beta.
    rewrite (run_with_fuel _ _ m u _ _ (skip_dir_ok m u w (fuel_of m) p [] (cstr_fuel_of _ _ _ Hc) ltac:(by rewrite app_nil_r) Hw ltac:(by left))).
    assert (He : m !! (p + len w) = Some 0) by (rewrite <- (app_nil_r w) in Hc; apply cstr_app in Hc as (_ & _ & Hc); exact Hc).
    rewrite (run_load _ 0) by done. cbn [Z.eqb negb]. destruct n as [|n]; [destruct w; cbn in Hn; [done|lia]|]. cbn [split_path]. rewrite (run_load _ 0) by done. cbn [Z.eqb].
    exists [p], m. rewrite splice_cons, splice_nil by lia. split; [done|]. split; [by repeat constructor|]. split; [repeat constructor; lia|done].
  - rewrite D2 in *. cbn [length] in Hl. rewrite (Hset _ Hl). change ((lift (Some ?x) ≫= ?k) ?s) with (k x s). cbv beta.
    assert (Hwf : (length w < fuel_of m)%nat) by (pose proof (cstr_fuel_of _ _ _ Hc) as Hf; rewrite length_app in Hf; lia).
    rewrite (run_with_fuel _ _ m u _ _ (skip_dir_ok m u w (fuel_of m) p (COLON :: v') Hwf Hc Hw ltac:(by right))).
    apply cstr_app in Hc as (Hh & Hb & Hc). cbn [cstr] in Hc. destruct Hc as (Hco & _ & Hc). rewrite (run_load _ COLON) by done. change (negb (COLON =? 0)) with true. cbv iota.
    rewrite run_store by (by eexists). rewrite length_app in Hn. cbn [length] in Hn. set (m1 := <[p + len w := 0]> m).
    assert (Hc1 : cstr m1 (p + len w + 1) v') by (apply (cstr_frame m); [done|]; intros x Hx; apply lookup_insert_ne; lia).
    destruct (IH m1 u (p + len w + 1) v' (i + 1) (<[Z.to_nat i := p]> envpath)) as (ps & m' & E & H1 & H2 & H3); [lia|done|lia|lia|rewrite length_insert; lia|].
    exists (p :: ps), m'. rewrite len_app, len_cons. split; [rewrite E, <- splice_cons by lia; done|]. split; [|split].
    + constructor; [|done]. apply (cstr_frame m1); [|intros x Hx; apply H3; lia]. apply holds_cstr_end; [|done|apply lookup_insert_eq]. apply (holds_at_frame m); [done|]. intros x Hx. apply lookup_insert_ne. lia.
    + constructor; [pose proof (len_nonneg v'); lia|]. eapply Forall_impl; [exact H2|]. intros q Hq. cbv beta in Hq. lia.
    + intros x Hx. pose proof (len_nonneg v'). rewrite H3 by lia. apply lookup_insert_ne. lia.
Qed.

Definition PATH_EQ : list Z := [0x50; 0x41; 0x54; 0x48; 0x3d].

(** The value of the first variable [PATH]. *)
Fixpoint path_value (env : list (list Z)) : option (list Z) :=
  match env with
  | [] => None
  | e :: env => if decide (PATH_EQ `prefix_of` e) then Some (drop 5 e) else path_value env
  end.

Lemma find_path_ok m u lit envp env : cstr m lit PATH_EQ -> Forall2 (cstr m) envp env -> Forall (fun p => 0 < p) envp ->
  exists p, find_path lit envp (mk_shell m u) = Some (p, mk_shell m u) /\
    match path_value env with Some v => 0 < p /\ (exists e, p ∈ envp /\ cstr m p e /\ e = PATH_EQ ++ v) | None => p = 0 end.
Proof.
  intros Hl He. induction He as [|a e envp env Hc He IH]; intros Hp; cbn [find_path path_value]; [by exists 0|]. apply Forall_cons in Hp as [Ha Hp].
  destruct (run_strncmp m u lit a PATH_EQ e Hl Hc ltac:(done)) as (d & E & Hd). change (len PATH_EQ) with 5 in E. mnext E. clear E.
  case_decide as Hx.
  - rewrite (proj2 (Z.eqb_eq d 0)) by (by apply Hd). exists a. split; [done|]. split; [done|]. exists e. split; [left|]. split; [done|]. destruct Hx as [v ->]. done.
  - rewrite (proj2 (Z.eqb_neq d 0)) by (by rewrite Hd). destruct (IH Hp) as (p & E & Hv). exists p. split; [done|]. destruct (path_value env); [|done]. destruct Hv as (H0 & e' & Hin & H1). split; [done|]. exists e'. split; [by right|done].
Qed.

(** [setup_envpath]: the directories of [PATH], in order. *)
Lemma setup_envpath_ok m u lit envp env : cstr m lit PATH_EQ -> Forall2 (cstr m) envp env -> Forall (fun p => 0 < p) envp ->
  match path_value env with
  | None => setup_envpath lit envp (mk_shell m u) = Some (-1, replicate NR_PATH NULL, mk_shell m u)
  | Some v => (length (dirs v) <= NR_PATH)%nat ->
      exists ps m' p, setup_envpath lit envp (mk_shell m u) = Some (0, ps ++ replicate (NR_PATH - length (dirs v)) NULL, mk_shell m' u) /\
        Forall2 (cstr m') ps (dirs v) /\ Forall (fun q => p + 5 <= q <= p + 5 + len v) ps /\ 0 < p /\ p ∈ envp /\ cstr m p (PATH_EQ ++ v) /\ (forall x, x < p + 5 \/ p + 5 + len v <= x -> m' !! x = m !! x)
  end.
Proof.
  intros Hl He Hp. destruct (find_path_ok m u lit envp env Hl He Hp) as (p & E & Hv). unfold setup_envpath. cbv zeta. rewrite (bind_Some _ _ _ _ _ E). destruct (path_value env) as [v|].
  - destruct Hv as (H0 & e & Hin & Hc & ->). intros Hn. rewrite (proj2 (Z.eqb_neq p 0)) by lia. pose proof Hc as Hc'. apply cstr_app in Hc' as (_ & _ & Hc'). change (len PATH_EQ) with 5 in Hc'.
    destruct (split_path_ok (fuel_of m) m u (p + 5) v 0 (replicate NR_PATH NULL) (cstr_fuel_of _ _ _ Hc') Hc' ltac:(lia) ltac:(lia)) as (ps & m' & Es & H1 & H2 & H3); [rewrite length_replicate; lia|].
    exists ps, m', p. rewrite (run_with_fuel _ _ m u _ _ Es). split; [|by (split; [done|]; split; [done|]; split; [lia|]; split)]. pose proof (Forall2_length _ _ _ H1) as Eq. unfold mret, SO_ret. do 2 f_equal. f_equal.
    change (splice 0 ps (replicate NR_PATH NULL)) with (ps ++ drop (length ps) (replicate NR_PATH NULL)). by rewrite drop_replicate, Eq.
  - by rewrite Hv.
Qed.

(** ** The search for a command *)

(** The string at [p] lies outside the buffer at [b]. *)
Definition apart (b p : Z) (l : list Z) : Prop := p + len l < b \/ b + LINE_SIZE <= p.

Lemma apart_cstr b m m' p l : in_buffer b m m' -> apart b p l -> cstr m p l -> cstr m' p l.
Proof. intros [F _] Ha Hc. apply (cstr_frame m); [done|]. intros x Hx. apply F. unfold apart in Ha. lia. Qed.

Lemma apart_table b m m' tab names : in_buffer b m m' -> Forall2 (fun e n => apart b e.1 n.1) tab names -> table_at m tab names -> table_at m' tab names.
Proof.
  intros Hb Ha Ht. revert Ha. induction Ht as [|e n tab names [H1 H2] Ht IH]; intros Ha; [constructor|]. apply Forall2_cons in Ha as [Ha Hr]. constructor; [|by apply IH]. split; [by apply (apart_cstr b m)|done].
Qed.

Lemma write_in_buffer b m a l : mapped m b LINE_SIZE -> b <= a -> a + len l <= b + LINE_SIZE -> in_buffer b m (write m a l).
Proof. intros Hm H1 H2. split; [intros x Hx; apply write_out; lia|by apply mapped_write]. Qed.

Lemma run_strcpy {B} b src l (k : unit -> SO (shell U) B) m u : cstr m src l -> mapped m b LINE_SIZE -> len l < LINE_SIZE -> apart b src l ->
  (strcpy_at b src ≫= k) (mk_shell m u) = k tt (mk_shell (write m b (l ++ [0])) u).
Proof.
  intros Hc Hm Hl Ha. unfold mbind at 1, SO_bind, strcpy_at, memory. cbn [s_mem]. rewrite (strcpy_ok m b src l); [by some_bind|done|intros x Hx; apply Hm; lia|].
  unfold disjoint_from, apart in *. lia.
Qed.

Lemma run_strcat {B} b src l1 l2 (k : unit -> SO (shell U) B) m u : cstr m b l1 -> cstr m src l2 -> mapped m b LINE_SIZE -> len l1 + len l2 < LINE_SIZE -> apart b src l2 ->
  (strcat_at b src ≫= k) (mk_shell m u) = k tt (mk_shell (write m (b + len l1) (l2 ++ [0])) u).
Proof.
  intros H1 H2 Hm Hl Ha. pose proof (len_nonneg l1). pose proof (len_nonneg l2). unfold mbind at 1, SO_bind, strcat_at, memory. cbn [s_mem].
  rewrite (strcat_ok m b src l1 l2); [by some_bind|done|done|intros x Hx; apply Hm; lia|]. unfold disjoint_from, apart in *. lia.
Qed.

Definition SLASH : Z := 0x2f.
Definition DOT : Z := 0x2e.

Lemma build_path b d slash cmd dl w m u : cstr m d dl -> cstr m slash [SLASH] -> cstr m cmd w -> apart b d dl -> apart b slash [SLASH] -> apart b cmd w ->
  mapped m b LINE_SIZE -> len dl + len w + 2 <= LINE_SIZE ->
  exists m', (forall B (k : unit -> SO (shell U) B), (strcpy_at b d ≫= fun _ => strcat_at b slash ≫= fun _ => strcat_at b cmd ≫= k) (mk_shell m u) = k tt (mk_shell m' u)) /\
    cstr m' b (dl ++ SLASH :: w) /\ in_buffer b m m'.
Proof.
  intros Hd Hs Hw Ad As Aw Hm Hl. pose proof (len_nonneg dl). pose proof (len_nonneg w). assert (L1 : forall x, len [x] = 1) by done.
  set (m1 := write m b (dl ++ [0])). assert (B1 : in_buffer b m m1) by (apply write_in_buffer; [done|lia|rewrite len_app, L1; lia]).
  assert (C1 : cstr m1 b dl) by (apply write_cstr; by apply (cstr_bytes m dl d)).
  pose proof (apart_cstr b m m1 slash _ B1 As Hs) as Hs1. set (m2 := write m1 (b + len dl) ([SLASH] ++ [0])).
  assert (B2 : in_buffer b m1 m2) by (apply write_in_buffer; [apply B1|lia|rewrite len_app, !L1; lia]). assert (C2 : cstr m2 b (dl ++ [SLASH])) by (by apply (cstr_app_write m1 b dl slash)).
  pose proof (in_buffer_trans b m m1 m2 B1 B2) as B12. pose proof (apart_cstr b m m2 cmd w B12 Aw Hw) as Hw2.
  exists (write m2 (b + len (dl ++ [SLASH])) (w ++ [0])). split; [|split].
  - intros B k. rewrite (run_strcpy b d dl) by (done || lia). fold m1. rewrite (run_strcat b slash dl [SLASH]) by (done || apply B1 || (rewrite L1; lia)). fold m2.
    by rewrite (run_strcat b cmd (dl ++ [SLASH]) w) by (done || apply B2 || (rewrite len_app, L1; lia)).
  - replace (dl ++ SLASH :: w) with ((dl ++ [SLASH]) ++ w) by (by rewrite <- app_assoc). by apply (cstr_app_write m2 b _ cmd).
  - apply (in_buffer_trans b m m2); [done|]. apply write_in_buffer; [apply B2|rewrite len_app, L1; lia|rewrite !len_app, !L1; lia].
Qed.

Lemma apart_strings b m m' ps ds : in_buffer b m m' -> Forall2 (apart b) ps ds -> Forall2 (cstr m) ps ds -> Forall2 (cstr m') ps ds.
Proof. intros Hb Ha Hc. revert Ha. induction Hc as [|p d ps ds H1 Hc IH]; intros Ha; [constructor|]. apply Forall2_cons in Ha as [Ha Hr]. constructor; [by apply (apart_cstr b m)|by apply IH]. Qed.

(** The first directory that has an executable of the name; each is asked about. *)
Fixpoint search (ds : list (list Z)) (w : list Z) (u : U) : option (list Z) * U :=
  match ds with
  | [] => (None, u)
  | d :: ds =>
      let '(r, mode, u) := u_stat (d ++ SLASH :: w) u in
      if (r =? 0) && negb (Z.land mode S_IXUSR =? 0) then (Some (d ++ SLASH :: w), u) else search ds w u
  end.

Definition found (b : Z) m (m' : gmap Z Z) (o : option (list Z)) (p : Z) : Prop :=
  in_buffer b m m' /\ match o with Some path => p = b /\ cstr m' b path | None => p = NULL end.

Lemma try_paths_ok b slash cmd w rest ps ds : forall m u, Forall2 (cstr m) ps ds -> Forall2 (apart b) ps ds -> Forall (fun p => 0 < p) ps -> Forall (fun d => len d + len w + 2 <= LINE_SIZE) ds ->
  cstr m slash [SLASH] -> cstr m cmd w -> apart b slash [SLASH] -> apart b cmd w -> mapped m b LINE_SIZE -> 0 < b ->
  exists p m', try_paths b slash cmd (ps ++ NULL :: rest) (mk_shell m u) = Some (p, mk_shell m' (search ds w u).2) /\ found b m m' (search ds w u).1 p.
Proof.
  revert ds. induction ps as [|p ps IH]; intros ds m u Hc Ha Hp Hl Hs Hw As Aw Hm Hb.
  - apply Forall2_nil_inv_l in Hc as ->. cbn. exists NULL, m. split; [done|]. by split.
  - apply Forall2_cons_inv_l in Hc as (d & ds' & Hd & Hc & ->). apply Forall2_cons in Ha as [Ad Ha]. apply Forall_cons in Hp as [Hp0 Hp]. apply Forall_cons in Hl as [Hl0 Hl].
    cbn [app try_paths search]. rewrite (proj2 (Z.eqb_neq p 0)) by lia.
    destruct (build_path b p slash cmd d w m u Hd Hs Hw Ad As Aw Hm Hl0) as (m1 & E1 & C1 & B1). rewrite E1. clear E1. rewrite (run_string b _ _ m1 u C1).
    destruct (u_stat (d ++ SLASH :: w) u) as [[r mode] u1] eqn:Eu. rewrite (run_world (u_stat (d ++ SLASH :: w)) _ m1 u (r, mode) u1 Eu). cbv beta iota.
    destruct ((r =? 0) && negb (Z.land mode S_IXUSR =? 0)); [exists b, m1; split; [done|]; by split|].
    destruct (IH ds' m1 u1) as (q & m' & E & [B2 F]); try done; [by apply (apart_strings b m)|by apply (apart_cstr b m)|by apply (apart_cstr b m)|apply B1|].
    exists q, m'. split; [exact E|]. split; [by apply (in_buffer_trans b m m1)|done].
Qed.

(** A name with a dot or a slash in front is a path. *)
Definition is_path (w : list Z) : bool := match w with c :: _ => (c =? DOT) || (c =? SLASH) | [] => false end.
Definition resolve (ds : list (list Z)) (w : list Z) (u : U) : option (list Z) * U := if is_path w then (Some w, u) else search ds w u.

Lemma find_command_ok b dot slash cmd w rest ps ds m u : Forall2 (cstr m) ps ds -> Forall2 (apart b) ps ds -> Forall (fun p => 0 < p) ps -> Forall (fun d => len d + len w + 2 <= LINE_SIZE) ds ->
  cstr m dot [DOT] -> cstr m slash [SLASH] -> cstr m cmd w -> apart b slash [SLASH] -> apart b cmd w -> mapped m b LINE_SIZE -> 0 < b -> len w < LINE_SIZE ->
  exists p m', find_command b dot slash cmd (ps ++ NULL :: rest) (mk_shell m u) = Some (p, mk_shell m' (resolve ds w u).2) /\ found b m m' (resolve ds w u).1 p.
Proof.
  intros Hc Ha Hp Hl Hd Hs Hw As Aw Hm Hb Hlw. unfold find_command.
  assert (Hpre : forall c, [c] `prefix_of` w <-> exists t, w = c :: t) by (intros c; split; [intros [t ->]; by exists t|intros [t ->]; by exists t]).
  destruct (run_strncmp m u dot cmd [DOT] w Hd Hw ltac:(done)) as (x & E & Hx). change (len [DOT]) with 1 in E. mnext E. clear E. rewrite Hpre in Hx.
  assert (Hcopy : exists p m', (strcpy_at b cmd;; mret b) (mk_shell m u) = Some (p, mk_shell m' u) /\ found b m m' (Some w) p).
  { exists b, (write m b (w ++ [0])). split; [by rewrite (run_strcpy b cmd w)|]. pose proof (len_nonneg w). split; [apply write_in_buffer; [done|lia|rewrite len_app; change (len [0]) with 1; lia]|]. split; [done|]. apply write_cstr. by apply (cstr_bytes m w cmd). }
  destruct (x =? 0) eqn:Ex; zbool.
  - destruct (proj1 Hx Ex) as [t Et]. assert (Er : resolve ds w u = (Some w, u)) by (unfold resolve; by rewrite Et). rewrite Er. exact Hcopy.
  - destruct (run_strncmp m u slash cmd [SLASH] w Hs Hw ltac:(done)) as (y & E & Hy). change (len [SLASH]) with 1 in E. mnext E. clear E. rewrite Hpre in Hy. destruct (y =? 0) eqn:Ey; zbool.
    + destruct (proj1 Hy Ey) as [t Et]. assert (Er : resolve ds w u = (Some w, u)) by (unfold resolve; by rewrite Et). rewrite Er. exact Hcopy.
    + assert (Er : resolve ds w u = search ds w u).
      { unfold resolve, is_path. destruct w as [|c t]; [done|]. destruct (c =? DOT) eqn:E1; zbool; [exfalso; apply Ex, Hx; exists t; by subst|]. destruct (c =? SLASH) eqn:E2; zbool; [exfalso; apply Ey, Hy; exists t; by subst|done]. }
      rewrite Er. by apply try_paths_ok.
Qed.

(** ** A turn of the shell *)

(** The strings of the shell lie outside of its two buffers. *)
Definition kept (pl : places_t) (p : Z) (l : list Z) : Prop := apart (buffer pl) p l /\ apart (pathbuf pl) p l.

Record ready (pl : places_t) m (ps : list Z) (ds : list (list Z)) (names : list (list Z * builtin)) : Prop := {
  re_buffer : mapped m (buffer pl) LINE_SIZE;
  re_pathbuf : mapped m (pathbuf pl) LINE_SIZE;
  re_apart : 0 < buffer pl /\ 0 < pathbuf pl /\ (buffer pl + LINE_SIZE <= pathbuf pl \/ pathbuf pl + LINE_SIZE <= buffer pl);
  re_dot : cstr m (str_dot pl) [DOT] /\ kept pl (str_dot pl) [DOT];
  re_slash : cstr m (str_slash pl) [SLASH] /\ kept pl (str_slash pl) [SLASH];
  re_names : table_at m (cmdtab pl) names /\ Forall2 (fun e n => kept pl e.1 n.1) (cmdtab pl) names;
  re_dirs : Forall2 (cstr m) ps ds /\ Forall2 (kept pl) ps ds /\ Forall (fun p => 0 < p) ps }.

(** A memory that differs in one of the buffers only. *)
Lemma ready_buffer pl m m' ps ds names b : b = buffer pl \/ b = pathbuf pl -> in_buffer b m m' -> ready pl m ps ds names -> ready pl m' ps ds names.
Proof.
  intros Hb Hin [R1 R2 R3 [R4 R4'] [R5 R5'] [R6 R6'] (R7 & R7' & R7'')]. pose proof Hin as [F M].
  assert (K : forall p l, kept pl p l -> apart b p l) by (intros p l [K1 K2]; by destruct Hb as [-> | ->]).
  assert (Hmap : forall c, c = buffer pl \/ c = pathbuf pl -> mapped m c LINE_SIZE -> mapped m' c LINE_SIZE).
  { intros c Hc Hm. destruct (decide (c = b)) as [->|Hne]; [done|]. intros x Hx. rewrite F; [by apply Hm|]. destruct Hb as [-> | ->], Hc as [-> | ->]; try done; lia. }
  split; [apply Hmap; auto|apply Hmap; auto|done|split; [apply (apart_cstr b m); auto|done]|split; [apply (apart_cstr b m); auto|done]|split; [|done]|split; [|done]].
  - apply (apart_table b m); [done| |done]. eapply Forall2_impl; [exact R6'|]. intros e n. apply K.
  - apply (apart_strings b m); [done| |done]. eapply Forall2_impl; [exact R7'|]. intros q d. apply K.
Qed.

Lemma cstr_before m l : forall q z, cstr m q l -> m !! z = Some 0 -> q <= z -> q + len l <= z.
Proof.
  induction l as [|c l IH]; intros q z Hc Hz Hq; [unfold len; cbn; lia|]. destruct Hc as (Hc & Hr & Ht). rewrite len_cons. destruct (decide (q = z)) as [->|]; [rewrite Hc in Hz; injection Hz; lia|].
  specialize (IH (q + 1) z Ht Hz ltac:(lia)). lia.
Qed.

Lemma starts_ge l : forall next p, Forall (fun q => p <= q <= p + len l) (starts next p l).
Proof.
  induction l as [|c l IH]; intros next p; cbn [starts]; [constructor|]. rewrite len_cons. pose proof (len_nonneg l).
  assert (H' : forall b, Forall (fun q => p <= q <= p + (1 + len l)) (starts b (p + 1) l)) by (intros b; eapply Forall_impl; [apply (IH b (p + 1))|]; intros q Hq; cbv beta in Hq; lia).
  destruct (space c); [apply H'|]. destruct next; [constructor; [lia|apply H']|apply H'].
Qed.

Lemma line_bytes keys : Forall (fun c => 0 < c < 256) keys -> Forall (fun c => 0 < c < 256) (line keys).
Proof.
  unfold line. assert (G : forall l, Forall (fun c => 0 < c < 256) l -> Forall (fun c => 0 < c < 256) keys -> Forall (fun c => 0 < c < 256) (foldl edit l keys)); [|by apply G].
  induction keys as [|c keys IH]; intros l Hl Hk; cbn [foldl]; [done|]. apply Forall_cons in Hk as [Hc Hk]. apply IH; [|done]. unfold edit.
  destruct (c =? TAB); [done|]. destruct (c =? BS); [by apply Forall_take|]. apply Forall_app_2; [done|by constructor].
Qed.

(** The line is read and cut into words. *)
Lemma read_words pl m u u' ps ds names ks fuel : ready pl m ps ds names -> NL ∉ ks -> Forall (fun c => 0 < c < 256) ks -> (length ks < fuel)%nat -> keys_fit (ks ++ [NL]) = true ->
  delivers (ks ++ [NL]) [] u u' -> let ws := words (line (ks ++ [NL])) in (length ws <= NR_ARGS)%nat ->
  exists argv m1, (len ← getline fuel (buffer pl); parse_cmd (buffer pl) len (replicate NR_ARGS NULL)) (mk_shell m u) = Some (Z.of_nat (length ws), argv, mk_shell m1 u') /\
    ready pl m1 ps ds names /\ Forall2 (cstr m1) (take (length ws) argv) ws /\ drop (length ws) argv = replicate (NR_ARGS - length ws) NULL /\
    Forall2 (fun p w => 0 < p /\ apart (pathbuf pl) p w /\ len w < LINE_SIZE) (take (length ws) argv) ws.
Proof.
  intros R Hni Hb Hf Hk Hd ws Hn. pose proof (getline_ok (buffer pl) ks fuel m u u' Hni Hf (re_buffer _ _ _ _ _ R) Hd) as G. rewrite Hk in G. destruct G as (m0 & E & Hh & B0).
  set (l := line (ks ++ [NL])) in *. assert (Hl : len l < LINE_SIZE) by (unfold keys_fit in Hk; zbool; done). pose proof (len_nonneg l).
  assert (Hlb : Forall (fun c => 0 < c < 256) l) by (apply line_bytes, Forall_app_2; [done|by repeat constructor]).
  destruct (parse_cmd_ok (buffer pl) l m0 u' Hh Hlb Hn) as (argv & m1 & E1 & Ht & Hdr & Hw & Hfr & Em). exists argv, m1.
  assert (B1 : in_buffer (buffer pl) m0 m1) by (rewrite Em; apply write_in_buffer; [apply B0|lia|unfold len, blank in *; rewrite length_map; lia]).
  split; [by rewrite (bind_Some _ _ _ _ _ E)|]. split; [apply (ready_buffer pl m0 m1 _ _ _ (buffer pl)); auto; by apply (ready_buffer pl m m0 _ _ _ (buffer pl)); auto|].
  unfold ws. rewrite Ht. split; [done|]. split; [done|]. assert (Hz : m1 !! (buffer pl + len l) = Some 0) by (rewrite Hfr by lia; apply holds_at_app in Hh as [_ [Hh _]]; done).
  pose proof (starts_ge l true (buffer pl)) as Hs. destruct (re_apart _ _ _ _ _ R) as (P1 & P2 & P3). clear Ht Hdr E1. revert Hs. clear - Hw Hz Hl P1 P2 P3. induction Hw as [|q w qs vs Hq Hw IH]; intros Hs; [constructor|].
  apply Forall_cons in Hs as [Hs0 Hs]. constructor; [|by apply IH]. pose proof (cstr_before m1 w q _ Hq Hz ltac:(lia)). unfold apart. lia.
Qed.

(** ** Running *)

(** [wait] returns these children one after the other. *)
Fixpoint waits (ps : list Z) u (u' : U) : Prop :=
  match ps with
  | [] => u = u'
  | p :: ps => exists status u1, u_wait u = (p, status, u1) /\ waits ps u1 u'
  end.

Lemma wait_loop_ok m pid others : forall fuel u u1 status u2, waits others u u1 -> Forall (fun p => p <> pid) others -> u_wait u1 = (pid, status, u2) -> (length others < fuel)%nat ->
  wait_loop fuel pid (mk_shell m u) = Some (status, mk_shell m u2).
Proof.
  induction others as [|p others IH]; intros [|fuel] u u1 status u2 Hw Ho E Hf; cbn [length] in Hf; try lia; cbn [wait_loop waits] in *.
  - subst u1. rewrite (run_world u_wait _ m u (pid, status) u2 E). cbv beta iota. by rewrite Z.eqb_refl.
  - destruct Hw as (st & v & Ev & Hw). apply Forall_cons in Ho as [Hp Ho]. rewrite (run_world u_wait _ m u (p, st) v Ev). cbv beta iota. rewrite (proj2 (Z.eqb_neq p pid)) by done. by apply (IH fuel v u1 status u2); [..|lia].
Qed.

Lemma wait_loop_forever m pid : (forall v : U, (u_wait v).1.1 <> pid) -> forall fuel u, wait_loop fuel pid (mk_shell m u) = None.
Proof.
  intros H fuel. induction fuel as [|fuel IH]; intros u; [done|]. cbn [wait_loop]. destruct (u_wait u) as [[r st] u1] eqn:E. rewrite (run_world u_wait _ m u (r, st) u1 E). cbv beta iota.
  rewrite (proj2 (Z.eqb_neq r pid)); [apply IH|]. specialize (H u). by rewrite E in H.
Qed.

Lemma arg_strings_ok m u ws : forall argv, Forall2 (cstr m) (take (length ws) argv) ws -> Forall (fun p => 0 < p) (take (length ws) argv) -> head (drop (length ws) argv) = Some NULL ->
  arg_strings argv (mk_shell m u) = Some (ws, mk_shell m u).
Proof.
  induction ws as [|w ws IH]; intros [|a argv] Hc Hp Hn; cbn [length take drop head] in *; try discriminate; [by injection Hn as ->|]. apply Forall2_cons in Hc as [Hw Hc]. apply Forall_cons in Hp as [Ha Hp].
  cbn [arg_strings]. rewrite (proj2 (Z.eqb_neq a 0)) by lia. rewrite (run_string a w) by done. by rewrite (bind_Some _ _ _ _ _ (IH argv Hc Hp Hn)).
Qed.

(** Without a NULL behind the arguments the array is read past its end. *)
Lemma arg_strings_open m u ws : forall argv, Forall2 (cstr m) argv ws -> Forall (fun p => 0 < p) argv -> arg_strings argv (mk_shell m u) = None.
Proof.
  induction ws as [|w ws IH]; intros argv Hc Hp; [by apply Forall2_nil_inv_r in Hc as ->|]. destruct argv as [|a argv]; [done|]. apply Forall2_cons in Hc as [Hw Hc]. apply Forall_cons in Hp as [Ha Hp].
  cbn [arg_strings]. rewrite (proj2 (Z.eqb_neq a 0)) by lia. rewrite (run_string a w) by done. unfold mbind, SO_bind. by rewrite IH.
Qed.

(** What a built-in command does: the result, and the calls it makes. *)
Definition builtin_effect (f : builtin) (ws : list (list Z)) u : Z * U :=
  match f with
  | Cls => (0, u_write 1 [0x0c] u)
  | Pwd =>
      let '(buf, u1) := u_alloc 512 u in
      if buf =? 0 then (1, u_write 0 text_pwd_alloc u1)
      else match u_getcwd u1 with
           | (Some path, u2) => (0, u_free buf (u_write 1 (path ++ [NL]) u2))
           | (None, u2) => (1, u_free NULL (u_write 0 text_pwd_error u2))
           end
  | Cd =>
      match ws with
      | [_; d] =>
          let '(r, mode, u1) := u_stat d u in
          if (r =? 0) && negb (Z.land mode S_IFDIR =? 0) then u_chdir d u1 else (-1, u_write 1 (text_no_dir ++ d ++ [NL]) u1)
      | _ => (-1, u_write 2 text_usage_cd u)
      end
  end.

Lemma world_inv {A} (f : U -> A * U) m u : world f (mk_shell m u) = Some ((f u).1, mk_shell m (f u).2).
Proof. unfold world. cbn [s_world s_mem]. by destruct (f u). Qed.

Lemma run_builtin_ok f ws argv m u : ws <> [] -> Forall2 (cstr m) (take (length ws) argv) ws ->
  run_builtin f (Z.of_nat (length ws)) argv (mk_shell m u) = Some ((builtin_effect f ws u).1, mk_shell m (builtin_effect f ws u).2).
Proof.
  intros Hne Hw. destruct f; cbn [run_builtin builtin_effect]; [done| |].
  - unfold pwd. destruct (u_alloc 512 u) as [buf u1] eqn:Ea. rewrite (run_world (u_alloc 512) _ m u buf u1 Ea). destruct (buf =? 0); [done|].
    destruct (u_getcwd u1) as [o u2] eqn:Eg. rewrite (run_world u_getcwd _ m u1 o u2 Eg). by destruct o.
  - unfold cd. destruct ws as [|w [|d [|x ws]]]; [done|done| |].
    + cbn [length]. change (negb (Z.of_nat 2 =? 2)) with false. cbv iota. cbn [length take] in Hw. destruct argv as [|a [|b argv]]; cbn [take] in Hw; try (by inversion Hw as [|? ? ? ? _ Hx]; inversion Hx).
      apply Forall2_cons in Hw as [_ Hw]. apply Forall2_cons in Hw as [Hd _]. change ((lift ((a :: b :: argv) !! 1%nat) ≫= ?k) ?s) with (k b s). cbv beta. rewrite (run_string b d) by done.
      destruct (u_stat d u) as [[r mode] u1] eqn:Es. rewrite (run_world (u_stat d) _ m u (r, mode) u1 Es). cbv beta iota.
      destruct (r =? 0), (Z.land mode S_IFDIR =? 0); cbn [negb orb andb]; try done. apply world_inv.
    + cbn [length]. rewrite (proj2 (Z.eqb_neq _ 2)) by lia. done.
Qed.

(** What running a program does: the result and the calls.  A file that [stat] refuses or
    that is not executable is reported, a directory becomes the working directory, a
    failed [fork] is reported.  Otherwise the child becomes the program with the words
    as its arguments, and the shell waits until [wait] returns that child, whatever
    other children end before, and has its status.  A child whose [execve] fails does not
    end: it goes on as a shell that waits for a process 0; and 32 words leave no place for the NULL
    behind the arguments. *)
Definition executes (fuel : nat) (name : list Z) (ws : list (list Z)) m u (o : option (ran * shell U)) : Prop :=
  let '(r, mode, u1) := u_stat name u in
  if negb (r =? 0) || (Z.land mode S_IXUSR =? 0) then o = Some (Returned 1, mk_shell m (u_write 1 text_not_exec u1))
  else if negb (Z.land mode S_IFDIR =? 0) then o = Some (Returned (u_chdir name u1).1, mk_shell m (u_chdir name u1).2)
  else
    let '(pid, u2) := u_fork u1 in
    (pid < 0 -> o = Some (Returned 1, mk_shell m (u_write 1 text_fork_failed u2))) /\
    (0 < pid -> forall others status u3 u4, waits others u2 u3 -> Forall (fun p => p <> pid) others -> u_wait u3 = (pid, status, u4) -> (length others < fuel)%nat -> o = Some (Returned status, mk_shell m u4)) /\
    (pid = 0 -> (length ws < NR_ARGS)%nat -> forall u3, u_execve name ws u2 = (None, u3) -> o = Some (Replaced name ws, mk_shell m u3)) /\
    (pid = 0 -> (length ws < NR_ARGS)%nat -> forall e u3, u_execve name ws u2 = (Some e, u3) -> (forall v, (u_wait v).1.1 <> 0) -> o = None) /\
    (pid = 0 -> length ws = NR_ARGS -> o = None).

Lemma do_exec_ok (fuel : nat) (path : Z) (argv : list Z) (name : list Z) (ws : list (list Z)) m u :
  cstr m path name -> Forall2 (cstr m) (take (length ws) argv) ws -> Forall (fun p => 0 < p) (take (length ws) argv) -> drop (length ws) argv = replicate (NR_ARGS - length ws) NULL ->
  executes fuel name ws m u (do_exec fuel path argv (mk_shell m u)).
Proof.
  intros Hc Hw Hp Hn. unfold executes, do_exec. rewrite (run_string path name) by done. destruct (u_stat name u) as [[r mode] u1] eqn:Es. rewrite (run_world (u_stat name) _ m u (r, mode) u1 Es). cbv beta iota.
  destruct (negb (r =? 0) || (Z.land mode S_IXUSR =? 0)); [done|]. destruct (negb (Z.land mode S_IFDIR =? 0)).
  { by rewrite (run_world (u_chdir name) _ m u1 (u_chdir name u1).1 (u_chdir name u1).2) by (by destruct (u_chdir name u1)). }
  destruct (u_fork u1) as [pid u2] eqn:Ef. rewrite (run_world u_fork _ m u1 pid u2 Ef). cbv beta.
  assert (Eargs : (length ws < NR_ARGS)%nat -> forall B (k : list (list Z) -> SO (shell U) B), (arg_strings argv ≫= k) (mk_shell m u2) = k ws (mk_shell m u2)).
  { intros Hl B k. assert (Hh : head (drop (length ws) argv) = Some NULL) by (rewrite Hn; destruct (NR_ARGS - length ws)%nat eqn:E; [lia|done]). by rewrite (bind_Some _ _ _ _ _ (arg_strings_ok m u2 ws argv Hw Hp Hh)). }
  split; [|split; [|split; [|split]]].
  - intros Hpid. rewrite (proj2 (Z.eqb_neq pid 0)) by lia. rewrite mret_bind. by rewrite (proj2 (Z.ltb_lt pid 0)).
  - intros Hpid others status u3 u4 Hws Ho Ew Hfu. rewrite (proj2 (Z.eqb_neq pid 0)) by lia. rewrite mret_bind. rewrite (proj2 (Z.ltb_ge pid 0)) by lia.
    by rewrite (bind_Some _ _ _ _ _ (wait_loop_ok m pid others fuel u2 u3 status u4 Hws Ho Ew Hfu)).
  - intros -> Hl u3 Ee. cbn [Z.eqb]. apply bind_Some with (a := Some ws) (s' := mk_shell m u3). rewrite (Eargs Hl). by rewrite (run_world (u_execve name ws) _ m u2 None u3 Ee).
  - intros -> Hl e u3 Ee Hnever. cbn [Z.eqb]. erewrite (bind_Some _ _ _ None (mk_shell m u3)); [|rewrite (Eargs Hl); by rewrite (run_world (u_execve name ws) _ m u2 (Some e) u3 Ee)].
    change (0 <? 0) with false. cbv iota. unfold mbind, SO_bind. by rewrite wait_loop_forever.
  - intros -> Hl. cbn [Z.eqb]. rewrite Hl, Nat.sub_diag in Hn. assert (Et : take (length ws) argv = argv) by (rewrite <- (take_drop (length ws) argv) at 2; rewrite Hl, Hn; by rewrite app_nil_r).
    rewrite Et in Hw, Hp. unfold mbind, SO_bind. by rewrite (arg_strings_open m u2 ws argv Hw Hp).
Qed.

(** ** The properties *)

(** C28: reading a line stays inside its buffer exactly as long as the line does.  When
    the line the user edits never grows past 512 characters and ends with fewer, the
    result is its length, the buffer holds it with a final zero byte and no other byte of
    memory changes; with nothing mapped behind the buffer, any other input makes the shell
    fault, since [getline] has no test. *)
Theorem getline_bounds (buf : Z) (ks : list Z) (fuel : nat) m u u' :
  NL ∉ ks -> (length ks < fuel)%nat -> mapped m buf LINE_SIZE -> m !! (buf + LINE_SIZE) = None -> delivers (ks ++ [NL]) [] u u' ->
  let l := line (ks ++ [NL]) in
  (keys_fit (ks ++ [NL]) = true -> exists m', getline fuel buf (mk_shell m u) = Some (len l, mk_shell m' u') /\ holds_at m' buf (l ++ [0]) /\ in_buffer buf m m') /\
  (keys_fit (ks ++ [NL]) = false -> getline fuel buf (mk_shell m u) = None).
Proof.
  intros Hni Hf Hm Hn Hd l. pose proof (getline_ok buf ks fuel m u u' Hni Hf Hm Hd) as H. split; intros E; rewrite E in H; [done|by apply H].
Qed.

(** C32: a turn of the shell does what its line says, for a line of fewer than 512
    characters (and never longer while it is edited) with at most 32 words, and with directories in
    [PATH] that leave room for the first word in the 512 bytes of a path.  The words of the line are what
    stands between its spaces; an empty line does nothing.  The name of a built-in
    command runs it: [cls] writes a form feed, [pwd] writes the working directory and
    frees its buffer or reports a failure, [cd] changes to the directory that is its only argument, or
    reports its usage or that there is no such directory.  Another name is looked up, as a path if it starts
    with a dot or a slash and in the directories of [PATH] in turn otherwise; if nothing is found a message says so.  What is found
    is executed: a file that [stat] refuses or that is not executable is
    reported, a directory becomes the working directory; otherwise the shell forks, the
    child becomes the program with the words as its arguments, and the
    shell waits until [wait] returns that child, whatever other children end before, and has its
    status.  A child whose [execve] fails does not end, but waits for a process 0 for ever, and
    with 32 words the arguments of the child have no end. *)
Theorem shell_turn_correct (pl : places_t) (ps rest : list Z) (ds : list (list Z)) (names : list (list Z * builtin)) (ks : list Z) (fuel : nat) m u u' :
  ready pl m ps ds names -> NL ∉ ks -> Forall (fun c => 0 < c < 256) ks -> (length ks < fuel)%nat -> keys_fit (ks ++ [NL]) = true -> delivers (ks ++ [NL]) [] (u_write 1 text_prompt u) u' ->
  let ws := words (line (ks ++ [NL])) in (length ws <= NR_ARGS)%nat -> Forall (fun d => len d + len (default [] (head ws)) + 2 <= LINE_SIZE) ds ->
  let turn := main_turn fuel pl (ps ++ NULL :: rest) (mk_shell m u) in
  exists m', ready pl m' ps ds names /\
  match ws with
  | [] => turn = Some (None, mk_shell m' u')
  | w :: _ =>
      match find_name w names with
      | Some f => let '(r, u2) := builtin_effect f ws u' in turn = Some (Some (Returned r), mk_shell m' u2)
      | None =>
          match resolve ds w u' with
          | (None, u2) => turn = Some (None, mk_shell m' (u_write 1 text_not_found u2))
          | (Some path, u2) => exists o, executes fuel path ws m' u2 o /\ turn = x ← o; Some (Some x.1, x.2)
          end
      end
  end.
Proof.
  intros R Hni Hb Hf Hk Hd ws Hn Hds turn. destruct (read_words pl m (u_write 1 text_prompt u) u' ps ds names ks fuel R Hni Hb Hf Hk Hd Hn) as (argv & m1 & E & R1 & Hw & Hdr & Ha). fold ws in E, Hw, Hdr, Ha.
  assert (Eb : forall B (k : Z * list Z -> SO (shell U) B), (len ← getline fuel (buffer pl); x ← parse_cmd (buffer pl) len (replicate NR_ARGS NULL); k x) (mk_shell m (u_write 1 text_prompt u)) =
    k (Z.of_nat (length ws), argv) (mk_shell m1 u')).
  { intros B k. apply bind_inv in E as (n & s1 & E1 & E2). rewrite (bind_Some _ _ _ _ _ E1). by rewrite (bind_Some _ _ _ _ _ E2). }
  unfold turn, main_turn. rewrite run_print. rewrite (Eb _ (fun '(cargc, cargv) => _)). cbv beta iota. clear Eb E turn. destruct ws as [|w wt] eqn:Ews; [by exists m1|]. cbn [head default] in Hds. rewrite <- Ews in *.
  assert (Hlen : (0 < length ws)%nat) by (rewrite Ews; cbn; lia). rewrite (proj2 (Z.eqb_neq _ 0)) by lia.
  destruct argv as [|cmd argv]; [rewrite take_nil in Hw; apply Forall2_nil_inv_l in Hw; congruence|]. pose proof Hw as Hw'. pose proof Ha as Ha'. rewrite Ews in Hw', Ha'. cbn [length take] in Hw', Ha'.
  apply Forall2_cons in Hw' as [Hw0 _]. apply Forall2_cons in Ha' as [(A0 & A1 & A2) _].
  cbn [head]. change ((lift (Some cmd) ≫= ?k) ?s) with (k cmd s). cbv beta. rewrite (bind_Some _ _ _ _ _ (match_builtin_ok m1 u' cmd w (cmdtab pl) names Hw0 (proj1 (re_names _ _ _ _ _ R1)))).
  destruct (find_name w names) as [f|].
  { exists m1. split; [done|]. rewrite (bind_Some _ _ _ _ _ (run_builtin_ok f ws (cmd :: argv) m1 u' ltac:(congruence) Hw)). by destruct (builtin_effect f ws u'). }
  destruct (re_dirs _ _ _ _ _ R1) as (D1 & D2 & D3). destruct (re_slash _ _ _ _ _ R1) as [S1 [_ S2]]. destruct (re_dot _ _ _ _ _ R1) as [T1 _]. destruct (re_apart _ _ _ _ _ R1) as (P1 & P2 & P3).
  destruct (find_command_ok (pathbuf pl) (str_dot pl) (str_slash pl) cmd w rest ps ds m1 u') as (p & m2 & Ef & B2 & Hp); try done; [eapply Forall2_impl; [exact D2|]; by intros q d [_ ?]|apply R1|].
  rewrite (bind_Some _ _ _ _ _ Ef). pose proof (ready_buffer pl m1 m2 ps ds names (pathbuf pl) (or_intror eq_refl) B2 R1) as R2. exists m2. split; [done|]. destruct (resolve ds w u') as [[path|] u2]; cbn [fst snd] in *; [|by subst p].
  destruct Hp as [-> Hp]. rewrite (proj2 (Z.eqb_neq _ 0)) by lia. cbn [negb]. exists (do_exec fuel (pathbuf pl) (cmd :: argv) (mk_shell m2 u2)). split; [|unfold mbind at 1, SO_bind; by destruct (do_exec _ _ _ _) as [[? ?]|]].
  apply do_exec_ok; [done| | |done].
  - apply (apart_strings (pathbuf pl) m1); [done| |done]. eapply Forall2_impl; [exact Ha|]. by intros q d (_ & ? & _).
  - clear - Ha. induction Ha as [|q d qs vs (H & _) _ IH]; by constructor.
Qed.
End Proofs.

(** ** Witnesses: a terminal with keys to come and what was written, on a system whose only
    program is [/bin/ls] *)

Definition bin_ls : list Z := [0x2f; 0x62; 0x69; 0x6e; 0x2f; 0x6c; 0x73].

#[local] Instance script : Unix (list Z * list (list Z)) := {|
  u_read '(ks, o) := match ks with k :: ks => (1, k, (ks, o)) | [] => (0, 0, (ks, o)) end;
  u_write _ l '(ks, o) := (ks, o ++ [l]);
  u_stat name u := if decide (name = bin_ls) then (0, 0x8040, u) else (-1, 0, u);
  u_chdir _ u := (0, u);
  u_open _ _ u := (-1, u);
  u_read_file _ _ u := (0, [], u);
  u_close _ u := u;
  u_alloc _ u := (0x4000, u);
  u_free _ u := u;
  u_getcwd u := (Some [0x2f], u);
  u_fork u := (5, u);
  u_execve _ _ u := (None, u);
  u_wait u := (5, 3, u) |}.

Lemma mapped_replicate m a v n : mapped (write m a (replicate n v)) a (Z.of_nat n).
Proof.
  intros x Hx. rewrite write_lookup. unfold len. rewrite length_replicate, (proj2 (Z.leb_le _ _)), (proj2 (Z.ltb_lt _ _)) by lia. cbn [andb].
  exists v. apply lookup_replicate_2. lia.
Qed.

Definition keys_ls : list Z := [0x6c; 0x78; 0x08; 0x73; 0x20; 0x61].

Lemma getline_bounds_witness : exists m', getline 10 0x1000 (mk_shell (write ∅ 0x1000 (replicate 512 0)) (keys_ls ++ [NL], [])) =
    Some (5, mk_shell m' ([], [[0x6c]; [0x78]; [0x08]; [0x73]; [0x20]; [0x61]; [0x0a]])) /\ holds_at m' 0x1000 [0x6c; 0x73; 0x20; 0x61; 0x0a; 0].
Proof.
  destruct (proj1 (getline_bounds 0x1000 keys_ls 10 (write ∅ 0x1000 (replicate 512 0)) (keys_ls ++ [NL], []) ([], [[0x6c]; [0x78]; [0x08]; [0x73]; [0x20]; [0x61]; [0x0a]])
    ltac:(vm_compute; set_solver) ltac:(vm_compute; lia) (mapped_replicate _ _ _ 512) eq_refl ltac:(repeat (eexists; split; [reflexivity|]); reflexivity)) eq_refl) as (m' & E & H & _).
  exists m'. split; [exact E|exact H].
Defined.

Definition sh_places : places_t := mk_places 0x1000 0x2000 0x3000 0x3010 [(0x3020, Cls); (0x3030, Pwd); (0x3040, Cd)].
Definition sh_names : list (list Z * builtin) := [([0x63; 0x6c; 0x73], Cls); ([0x70; 0x77; 0x64], Pwd); ([0x63; 0x64], Cd)].
Definition sh_strings : gmap Z Z :=
  write (write (write (write (write (write ∅ 0x3000 [DOT; 0]) 0x3010 [SLASH; 0]) 0x3020 [0x63; 0x6c; 0x73; 0]) 0x3030 [0x70; 0x77; 0x64; 0]) 0x3040 [0x63; 0x64; 0]) 0x3050 [0x2f; 0x62; 0x69; 0x6e; 0].
Definition sh_memory : gmap Z Z := write (write sh_strings 0x1000 (replicate 512 0)) 0x2000 (replicate 512 0).

Lemma sh_ready : ready sh_places sh_memory [0x3050] [[0x2f; 0x62; 0x69; 0x6e]] sh_names.
Proof.
  assert (K : forall p l, 0x3000 <= p -> kept sh_places p l) by (intros p l Hp; split; right; cbn; unfold LINE_SIZE; lia).
  assert (C : forall a l, cstr sh_strings a l -> 0x3000 <= a -> cstr sh_memory a l).
  { intros a l Hc Ha. apply (cstr_frame sh_strings); [done|]. intros x Hx. unfold sh_memory. rewrite !write_out by (unfold len; rewrite length_replicate; lia). done. }
  split.
  - apply mapped_write, (mapped_replicate _ _ _ 512).
  - apply (mapped_replicate _ _ _ 512).
  - split; [done|]. split; [done|]. left. done.
  - split; [apply C; [by vm_compute|done]|by apply K].
  - split; [apply C; [by vm_compute|done]|by apply K].
  - split; [unfold table_at|]; (repeat apply Forall2_cons_2); try apply Forall2_nil_2; try (apply K; done); (split; [apply C; [by vm_compute|done]|done]).
  - split; [apply Forall2_cons_2; [|apply Forall2_nil_2]; apply C; [by vm_compute|done]|]. split; [apply Forall2_cons_2; [by apply K|apply Forall2_nil_2]|by repeat constructor].
Qed.

Lemma shell_turn_correct_witness : exists m', let u2 := ([], [text_prompt; [0x6c]; [0x78]; [0x08]; [0x73]; [0x20]; [0x61]; [0x0a]]) in
  main_turn 10 sh_places [0x3050; NULL] (mk_shell sh_memory (keys_ls ++ [NL], [])) = Some (Some (Returned 3), mk_shell m' u2).
Proof.
  destruct (shell_turn_correct sh_places [0x3050] [] _ sh_names keys_ls 10 sh_memory (keys_ls ++ [NL], []) ([], [text_prompt; [0x6c]; [0x78]; [0x08]; [0x73]; [0x20]; [0x61]; [0x0a]]) sh_ready
    ltac:(vm_compute; set_solver) ltac:(by repeat constructor) ltac:(vm_compute; lia) eq_refl ltac:(repeat (eexists; split; [reflexivity|]); reflexivity) ltac:(vm_compute; lia) ltac:(by repeat constructor))
    as (m' & _ & H).
  change (words (line (keys_ls ++ [NL]))) with [[0x6c; 0x73]; [0x61]] in H. cbv beta iota in H. change (find_name [0x6c; 0x73] sh_names) with (@None builtin) in H. cbv iota in H.
  change (resolve [[0x2f; 0x62; 0x69; 0x6e]] [0x6c; 0x73] ?u) with (Some bin_ls, u) in H. cbv iota in H. destruct H as (o & Ho & E). exists m'. etransitivity; [exact E|].
  unfold executes in Ho. change (u_stat bin_ls ?u) with (0, 0x8040, u) in Ho. cbv beta iota in Ho. change (negb (0 =? 0) || (Z.land 0x8040 S_IXUSR =? 0)) with false in Ho. change (negb (Z.land 0x8040 S_IFDIR =? 0)) with false in Ho. cbv iota in Ho.
  destruct Ho as (_ & Ho & _). rewrite (Ho ltac:(done) [] 3 _ _ eq_refl ltac:(constructor) eq_refl ltac:(vm_compute; lia)). reflexivity.
Defined.
