(* ===== verification/Programs.v ===== *)
(** * The small programs: [libc/stdio.c], [libc/dirent.c], [bin] and [srv/init/main.c]

    The programs run on the memory of [CString] and on the calls of [Unix], as the shell
    does, and on the further calls of the class [Directories].  A string literal is given
    by its address in that memory. *)

From S2P Require Import Prelude Bytes Vsprintf CString Words Shell.

(** [u_getdents] answers the result and the bytes stored behind [dirp]; [u_execve_env] has a result only if it fails. *)
Class Directories (U : Type) := {
  u_getdents : Z -> Z -> U -> Z * list Z * U;
  u_mkdir : list Z -> Z -> U -> Z * U;
  u_execve_env : list Z -> list (list Z) -> list (list Z) -> U -> option Z * U }.

Section Programs.
Context {U : Type} `{!Unix U} `{!Directories U}.
#[local] Notation M := (SO (shell U)).

Definition strcmp_at (a b : Z) : M Z := memory (fun m => r ← strcmp m a b; Some (r, m)).

(** ** [stdio.c] *)

Definition PRINTF_BUF : Z := 1024.

(** The text in the static buffer; a longer one is stored behind its end. *)
Definition format_buf (fmt args : list Z) : M (Z * gmap Z Z) :=
  x ← memory (fun m => r ← libc_vsnprintf (str_loop (fuel_of m) m) PRINTF_BUF fmt args; Some (r, m));
  if (0 <=? x.1) && (x.1 <? PRINTF_BUF) then mret x else lift None.

(** No program looks at the result, which is that of [write]. *)
Definition printf (fmt args : list Z) : M unit := '(len, buf) ← format_buf fmt args; print 1 (bytes buf 0 len).

Definition perror (s : Z) : M unit := l ← string_at s; print 2 l.

(** [_debug] shows the text up to its zero byte on the console of the kernel, descriptor 0
    here. *)
Definition debug (fmt args : list Z) : M Z :=
  '(len, buf) ← format_buf fmt args;
  l ← lift (str_loop (S (Z.to_nat len)) buf 0);
  print 0 l;; mret len.

(** ** [assert.c] *)

Definition PANIC_BUF : Z := 128.
Definition fmt_panic : list Z := [0x3c; 0x33; 0x3e; 0x70; 0x61; 0x6e; 0x69; 0x63; 0x28; 0x25; 0x73; 0x2c; 0x25; 0x64; 0x29; 0x3a; 0x20; 0x25; 0x73].
Definition fmt_assert : list Z := [0x3c; 0x33; 0x3e; 0x61; 0x73; 0x73; 0x65; 0x72; 0x74; 0x28; 0x25; 0x73; 0x29; 0x20; 0x2d; 0x3e; 0x20; 0x25; 0x73; 0x3a; 0x25; 0x64; 0x0a].

(** The message is formatted into the array at [buf]; both functions return. *)
Definition __panic (buf : Z) (fmt : list Z) (file line : Z) (args : list Z) : M unit :=
  '(len, b) ← memory (fun m => r ← vsprintf isdigit (str_loop (fuel_of m) m) fmt args; Some (r, m));
  if (0 <=? len) && (len <? PANIC_BUF) then
    memory (fun m => m ← store_bytes m buf (bytes b 0 (len + 1)); Some (tt, m));;
    debug fmt_panic [file; line; buf];; mret tt
  else lift None.

Definition __assert (exp file line : Z) : M unit := debug fmt_assert [exp; file; line];; mret tt.

(** ** [dirent.c] *)

Definition DIR_DATA_SIZE : Z := 4096.
Definition SIZEOF_DIR : Z := 32.

(** The places of the fields of [struct dirent]. *)
Definition D_INO : Z := 0.
Definition D_OFF : Z := 8.
Definition D_RECLEN : Z := 16.
Definition D_TYPE : Z := 24.
Definition D_NAME : Z := 25.

Record DIR := mk_DIR { __fd : Z; __data : Z; __size : Z; __entry : Z }.

Definition free (p : Z) : M unit := world (fun u => (tt, u_free p u)).
Definition load64 (a : Z) : M Z := memory (fun m => v ← ld64 m a; Some (v, m)).

(** The address of the structure and its contents. *)
Definition opendir (pathname : Z) : M (option (Z * DIR)) :=
  name ← string_at pathname;
  fd ← world (u_open name O_RDONLY);
  if fd <? 0 then mret None
  else
    dp ← world (u_alloc SIZEOF_DIR);
    if dp =? 0 then mret None
    else
      data ← world (u_alloc DIR_DATA_SIZE);
      if data =? 0 then free dp;; mret None
      else mret (Some (dp, mk_DIR fd data DIR_DATA_SIZE 0)).

(** [getdents] into the cleared buffer; the contents of [__entry] if there was something. *)
Definition refill (d : DIR) : M (option Z) :=
  memory (fun m => m ← memset m (__data d) 0 DIR_DATA_SIZE; Some (tt, m));;
  '(n, l) ← world (u_getdents (__fd d) (u64 (__size d - 16)));
  memory (fun m => m ← store_bytes m (__data d) l; Some (tt, m));;
  mret (if n <=? 0 then None else Some (__data d)).

(** The address of the record, or NULL, and the structure. *)
Definition readdir (d : DIR) : M (Z * DIR) :=
  more ← (if __entry d =? 0 then mret true else ino ← load64 (__entry d + D_INO); mret (ino =? 0));
  e ← (if (more : bool) then refill d else mret (Some (__entry d)));
  match e with
  | None => mret (NULL, d)
  | Some e => reclen ← load64 (e + D_RECLEN); mret (e, mk_DIR (__fd d) (__data d) (__size d) (u64 (e + reclen)))
  end.

Definition closedir (dp : Z) (d : DIR) : M Z := free (__data d);; free dp;; mret 0.

(** ** [bin/ls.c] *)

Definition fmt_name : list Z := [0x25; 0x73; 0x20].
Definition fmt_line : list Z := [0x25; 0x73; 0x0a].
Definition fmt_colon : list Z := [0x25; 0x73; 0x3a; 0x0a].
Definition fmt_nl : list Z := [0x0a].
Definition fmt_no_dir : list Z := [0x6c; 0x73; 0x3a; 0x20; 0x6e; 0x6f; 0x20; 0x73; 0x75; 0x63; 0x68; 0x20; 0x64; 0x69; 0x72; 0x65; 0x63; 0x74; 0x6f; 0x72; 0x79; 0x20; 0x27; 0x25; 0x73; 0x27; 0x0a].

(** A turn of the loop shows a record; [dot] and [dotdot] are the strings of one and two
    dots. *)
Fixpoint ls_loop (fuel : nat) (dot dotdot : Z) (d : DIR) : M DIR :=
  match fuel with
  | O => lift None
  | S fuel =>
      '(dirp, d) ← readdir d;
      if dirp =? 0 then mret d
      else
        a ← strcmp_at dot (dirp + D_NAME);
        b ← (if a =? 0 then mret 0 else strcmp_at dotdot (dirp + D_NAME));
        (if b =? 0 then mret tt else printf fmt_name [dirp + D_NAME]);;
        ls_loop fuel dot dotdot d
  end.

Definition ls (fuel : nat) (dot dotdot path : Z) : M Z :=
  o ← opendir path;
  match o with
  | None => mret (-1)
  | Some (dp, d) => d ← ls_loop fuel dot dotdot d; printf fmt_nl [];; closedir dp d;; mret 0
  end.

(** The arguments behind the first; [argc > 2] shows the names. *)
Fixpoint ls_args (fuel : nat) (dot dotdot : Z) (several : bool) (args : list Z) : M Z :=
  match args with
  | [] => mret 0
  | a :: args =>
      (if several then printf fmt_colon [a] else mret tt);;
      r ← ls fuel dot dotdot a;
      if r <? 0 then printf fmt_no_dir [a];; mret (-1) else ls_args fuel dot dotdot several args
  end.

(** [argc == 2 && !strcmp(argv[1], "--help")]. *)
Definition asks_help (help : Z) (argv : list Z) : M bool :=
  match argv with
  | [_; a] => r ← strcmp_at a help; mret (r =? 0)
  | _ => mret false
  end.

Definition ls_main (fuel : nat) (dot dotdot help usage : Z) (argv : list Z) : M Z :=
  h ← asks_help help argv;
  if (h : bool) then printf fmt_line [usage];; mret 0
  else if Z.of_nat (length argv) =? 1 then ls fuel dot dotdot dot
  else ls_args fuel dot dotdot (2 <? Z.of_nat (length argv)) (tail argv).

(** ** [bin/cat.c] *)

Definition S_IFREG : Z := 0x8000.
Definition CAT_BUF : Z := 512.
Definition fmt_cat_stat : list Z := [0x63; 0x61; 0x74; 0x3a; 0x20; 0x73; 0x74; 0x61; 0x74; 0x20; 0x25; 0x73; 0x20; 0x66; 0x61; 0x69; 0x6c; 0x65; 0x64; 0x0a].
Definition fmt_cat_file : list Z := [0x63; 0x61; 0x74; 0x3a; 0x20; 0x25; 0x73; 0x20; 0x69; 0x73; 0x20; 0x6e; 0x6f; 0x74; 0x20; 0x61; 0x20; 0x66; 0x69; 0x6c; 0x65; 0x0a].
Definition fmt_cat_open : list Z := [0x63; 0x61; 0x74; 0x3a; 0x20; 0x6f; 0x70; 0x65; 0x6e; 0x20; 0x66; 0x69; 0x6c; 0x65; 0x20; 0x25; 0x73; 0x20; 0x66; 0x61; 0x69; 0x6c; 0x65; 0x64; 0x0a].

Fixpoint cat_loop (fuel : nat) (fd : Z) : M unit :=
  match fuel with
  | O => lift None
  | S fuel =>
      '(n, l) ← world (u_read_file fd CAT_BUF);
      if 0 <? n then print 1 (take (Z.to_nat n) l);; cat_loop fuel fd else mret tt
  end.

(** After a failed [open] the program goes on with the negative descriptor. *)
Fixpoint cat_args (fuel : nat) (args : list Z) : M Z :=
  match args with
  | [] => mret 0
  | a :: args =>
      name ← string_at a;
      '(r, mode) ← world (u_stat name);
      if r <? 0 then printf fmt_cat_stat [a];; mret (-1)
      else if Z.land mode S_IFREG =? 0 then printf fmt_cat_file [a];; mret (-1)
      else
        fd ← world (u_open name O_RDONLY);
        (if fd <? 0 then printf fmt_cat_open [a] else mret tt);;
        cat_loop fuel fd;;
        world (fun u => (tt, u_close fd u));;
        cat_args fuel args
  end.

Definition cat_main (fuel : nat) (help usage : Z) (argv : list Z) : M Z :=
  h ← asks_help help argv;
  if (Z.of_nat (length argv) <? 2) || h then printf fmt_line [usage];; mret (-1)
  else cat_args fuel (tail argv).

(** ** [bin/mkdir.c] *)

(** Whether there is a slash among the first [n] characters. *)
Fixpoint has_slash (n : nat) (p : Z) : M bool :=
  match n with
  | O => mret false
  | S n => c ← load p; if c =? 0x2f then mret true else has_slash n (p + 1)
  end.

Definition mkdir_main (help usage multi exists_ : Z) (argv : list Z) : M Z :=
  a ← (match argv with [_; a] => r ← strcmp_at a help; mret (if r =? 0 then None else Some a) | _ => mret None end);
  match a with
  | None => printf fmt_line [usage];; mret 0
  | Some a =>
      len ← memory (fun m => n ← strlen m a; Some (n, m));
      s ← has_slash (Z.to_nat (i32 len)) a;
      if (s : bool) then perror multi;; mret (-1)
      else
        name ← string_at a;
        '(r, _) ← world (u_stat name);
        if r =? 0 then perror exists_;; mret (-1)
        else r ← world (u_mkdir name (Z.lor S_IFDIR 0x1fd)); mret (if r <? 0 then -1 else 0)
  end.

(** ** [bin/a.c] and [bin/hello.c] *)

Definition O_APPEND : Z := 0x400.

(** Nothing bounds the line. *)
Fixpoint a_getline_loop (fuel : nat) (buf len : Z) : M Z :=
  match fuel with
  | O => lift None
  | S fuel =>
      '(n, c) ← world u_read;
      if negb (n =? 1) then mret len
      else store (buf + len) c;; print 1 [c];; if negb (c =? NL) then a_getline_loop fuel buf (len + 1) else mret (len + 1)
  end.

Definition a_getline (fuel : nat) (buf : Z) : M Z := len ← a_getline_loop fuel buf 0; store (buf + len) 0;; mret len.

Fixpoint a_loop (fuel : nat) (buffer fd : Z) : M unit :=
  match fuel with
  | O => lift None
  | S n =>
      len ← a_getline fuel buffer;
      c ← load buffer;
      if negb (len =? 0) && negb (c =? NL) then
        l ← memory (fun m => l ← load_bytes (Z.to_nat len) m buffer; Some (l, m));
        print fd l;; a_loop n buffer fd
      else mret tt
  end.

(** The value of [main] or of [exit]. *)
Definition a_main (fuel : nat) (buffer path failed : Z) : M Z :=
  name ← string_at path;
  fd ← world (u_open name O_APPEND);
  if fd <? 0 then perror failed;; mret (-1)
  else a_loop fuel buffer fd;; world (fun u => (tt, u_close fd u));; mret 0.

Definition fmt_hello : list Z := [0x48; 0x65; 0x6c; 0x6c; 0x6f; 0x20; 0x57; 0x6f; 0x72; 0x6c; 0x64; 0x0a].
Definition hello_main : M Z := printf fmt_hello [];; mret 0.

(** ** [srv/init/main.c] *)

(** Where the first program ends up: it has become the shell, it has ended, it collects
    children for ever, or it does nothing for ever. *)
Inductive init_end := IReplaced (path : list Z) (argv envp : list (list Z)) | IExit (status : Z) | IWaits | IStopped.

Definition bin_sh : list Z := [0x2f; 0x62; 0x69; 0x6e; 0x2f; 0x73; 0x68].
Definition env_path : list Z := [0x50; 0x41; 0x54; 0x48; 0x3d; 0x2f; 0x62; 0x69; 0x6e; 0x3a; 0x2f; 0x75; 0x73; 0x72; 0x2f; 0x62; 0x69; 0x6e].
(** What [panic] shows. *)
Definition text_execve : list Z := [0x3c; 0x33; 0x3e; 0x70; 0x61; 0x6e; 0x69; 0x63; 0x28; 0x6d; 0x61; 0x69; 0x6e; 0x2e; 0x63; 0x2c; 0x32; 0x34; 0x29; 0x3a; 0x20; 0x65; 0x78; 0x65; 0x63; 0x76; 0x65; 0x20; 0x2f; 0x62; 0x69; 0x6e; 0x2f; 0x73; 0x68; 0x20; 0x66; 0x61; 0x69; 0x6c; 0x65; 0x64; 0x0a].
Definition text_init : list Z := [0x69; 0x6e; 0x69; 0x74; 0x20; 0x66; 0x61; 0x69; 0x6c; 0x65; 0x64; 0x0a].

Definition init_main : M init_end :=
  pid ← world u_fork;
  if pid =? 0 then
    r ← world (u_execve_env bin_sh [bin_sh] [env_path]);
    match r with
    | None => mret (IReplaced bin_sh [bin_sh] [env_path])
    | Some _ => print 0 text_execve;; mret (IExit (-1))
    end
  else if pid =? -1 then print 2 text_init;; mret IStopped
  else mret IWaits.

(** [while (1) wait(NULL)]: the children collected by [n] turns. *)
Fixpoint init_waits (n : nat) : M (list Z) :=
  match n with
  | O => mret []
  | S n => '(pid, _) ← world u_wait; l ← init_waits n; mret (pid :: l)
  end.
End Programs.
