(* ===== verification/ProgramsProofs.v ===== *)
(** * Directories are listed completely

    [readdir] walks over the records of a batch until it meets a zero where the next
    record would be, and then asks for the next batch.  The bytes that [getdents] may not
    fill keep that zero. *)

From S2P Require Import Prelude Bytes Vsprintf CString Words Disk Ext2 Shell ShellProofs Programs.

(** ** The records in the buffer *)

Definition record_bytes (r : dirent) : list Z := enc 8 (d_ino r) ++ enc 8 (d_off r) ++ enc 8 (d_reclen r) ++ d_type r :: d_name r ++ [0].
Definition records (b : list dirent) : list Z := concat (record_bytes <$> b).

Definition record_ok (r : dirent) : Prop :=
  0 <= d_ino r < 2 ^ 64 /\ d_reclen r = OFFSETOF_D_NAME + len (d_name r) + 1 /\ Forall (fun c => 0 < c < 256) (d_name r) /\ len (d_name r) < 256.

Definition batch_ok (b : list dirent) : Prop := b <> [] /\ Forall record_ok b /\ len (records b) <= DIR_DATA_SIZE - 16.

Lemma len_record r : record_ok r -> len (record_bytes r) = d_reclen r.
Proof. intros (_ & -> & _). unfold record_bytes. rewrite !len_app, len_cons, len_app, !len_enc8. unfold OFFSETOF_D_NAME, len at 2. cbn [length]. lia. Qed.

Lemma reclen_bounds r : record_ok r -> 26 <= d_reclen r < 282.
Proof. intros (_ & -> & _ & H). pose proof (len_nonneg (d_name r)). unfold OFFSETOF_D_NAME. lia. Qed.

Lemma records_cons r b : records (r :: b) = record_bytes r ++ records b.
Proof. done. Qed.

Lemma record_at m e r : holds_at m e (record_bytes r) -> record_ok r ->
  ld64 m (e + D_INO) = Some (d_ino r) /\ ld64 m (e + D_RECLEN) = Some (d_reclen r) /\ cstr m (e + D_NAME) (d_name r).
Proof.
  intros H Hr. pose proof (reclen_bounds r Hr). destruct Hr as (Hi & _ & Hn & _). unfold record_bytes in H. rewrite !holds_at_app, !len_enc8 in H. cbn [holds_at] in H.
  destruct H as (H1 & _ & H3 & _ & H4). unfold D_INO, D_RECLEN, D_NAME. replace (e + 16) with (e + 8 + 8) by lia. replace (e + 25) with (e + 8 + 8 + 8 + 1) by lia. rewrite Z.add_0_r.
  split; [by apply (ld_enc 8)|]. split; [apply (ld_enc 8); [done|lia]|].
  apply holds_at_app in H4 as [H4 [H5 _]]. by apply holds_cstr_end.
Qed.

Lemma zeros_at m e k : holds_at m e (replicate k 0) -> (8 <= k)%nat -> ld64 m e = Some 0.
Proof.
  intros H Hk. apply (ld_enc 8); [|lia]. replace k with (8 + (k - 8))%nat in H by lia. rewrite replicate_add, holds_at_app in H. apply H.
Qed.

(** ** What [readdir] hands out *)

(** A record without an inode ends the batch, unless it is the first. *)
Fixpoint live (b : list dirent) : list dirent :=
  match b with
  | [] => []
  | r :: b => if d_ino r =? 0 then [] else r :: live b
  end.
Definition visible (b : list dirent) : list dirent := match b with [] => [] | r :: b => r :: live b end.

Section Listing.
Context {U : Type} `{!Unix U} `{!Directories U}.
Implicit Types (m : gmap Z Z) (u : U) (l : list Z) (d : DIR).

Definition dir_ok m d : Prop := 0 < __data d /\ __data d + DIR_DATA_SIZE < 2 ^ 64 /\ __size d = DIR_DATA_SIZE /\ mapped m (__data d) DIR_DATA_SIZE.
Definition moved d (e : Z) : DIR := mk_DIR (__fd d) (__data d) (__size d) e.
(** Nothing is left of the last batch. *)
Definition dry m d : Prop := __entry d = 0 \/ (__entry d <> 0 /\ ld64 m (__entry d) = Some 0).
Definition filled m d (b : list dirent) : gmap Z Z := write (write m (__data d) (replicate (Z.to_nat DIR_DATA_SIZE) 0)) (__data d) (records b).

Lemma len_replicate n (v : Z) : len (replicate n v) = Z.of_nat n.
Proof. unfold len. by rewrite length_replicate. Qed.

Lemma filled_mapped m d b : dir_ok m d -> dir_ok (filled m d b) d.
Proof. intros (H1 & H2 & H3 & H4). repeat split; try done. unfold filled. by do 2 apply mapped_write. Qed.

Lemma filled_out m d b x : len (records b) <= DIR_DATA_SIZE -> x < __data d \/ __data d + DIR_DATA_SIZE <= x -> filled m d b !! x = m !! x.
Proof. intros Hl Hx. unfold filled. rewrite !write_out; [done| |]; rewrite ?len_replicate; unfold DIR_DATA_SIZE in *; lia. Qed.

Lemma filled_holds m d b : len (records b) <= DIR_DATA_SIZE - 16 -> holds_at (filled m d b) (__data d) (records b ++ replicate 16 0).
Proof.
  intros Hl. apply holds_at_app. split; [apply write_holds|]. unfold filled. set (n := len (records b)) in *. pose proof (len_nonneg (records b)).
  apply (holds_at_frame (write m (__data d) (replicate (Z.to_nat DIR_DATA_SIZE) 0))).
  - replace (Z.to_nat DIR_DATA_SIZE) with (Z.to_nat n + (16 + (Z.to_nat DIR_DATA_SIZE - 16 - Z.to_nat n)))%nat by (unfold DIR_DATA_SIZE in *; lia).
    pose proof (write_holds (replicate (Z.to_nat n + (16 + (Z.to_nat DIR_DATA_SIZE - 16 - Z.to_nat n))) 0) m (__data d)) as H'.
    revert H'. rewrite !replicate_add. rewrite !holds_at_app, !len_replicate. rewrite Z2Nat.id by lia. tauto.
  - intros x Hx. apply write_out. lia.
Qed.

Lemma run_ld64 {B} a v (k : Z -> SO (shell U) B) m u : ld64 m a = Some v -> (load64 a ≫= k) (mk_shell m u) = k v (mk_shell m u).
Proof. intros E. unfold mbind at 1, SO_bind, load64, memory. cbn [s_mem]. rewrite E. by some_bind. Qed.

Lemma readdir_next d m u r : 0 < __entry d -> __entry d + d_reclen r < 2 ^ 64 -> holds_at m (__entry d) (record_bytes r) -> record_ok r -> d_ino r <> 0 ->
  readdir d (mk_shell m u) = Some ((__entry d, moved d (__entry d + d_reclen r)), mk_shell m u).
Proof.
  intros He Hb Hm Hr Hi. destruct (record_at m _ r Hm Hr) as (H1 & H2 & _). pose proof (reclen_bounds r Hr). unfold readdir.
  rewrite (proj2 (Z.eqb_neq (__entry d) 0)) by lia. erewrite bind_Some; [|by rewrite (run_ld64 _ _ _ _ _ H1)]. cbv beta. rewrite (proj2 (Z.eqb_neq (d_ino r) 0)) by done.
  rewrite mret_bind. rewrite (run_ld64 _ _ _ _ _ H2). unfold moved. rewrite u64_small by lia. done.
Qed.

Lemma refill_ok d m u n b u1 : dir_ok m d -> len (records b) <= DIR_DATA_SIZE - 16 -> u_getdents (__fd d) (DIR_DATA_SIZE - 16) u = (n, records b, u1) ->
  refill d (mk_shell m u) = Some (if n <=? 0 then None else Some (__data d), mk_shell (filled m d b) u1).
Proof.
  intros (H1 & H2 & H3 & H4) Hl Hg. unfold refill. unfold mbind at 1, SO_bind at 1, memory at 1. cbn [s_mem s_world]. rewrite memset_0 by (done || unfold DIR_DATA_SIZE; lia). some_bind. cbn [fst snd].
  rewrite H3, (u64_small (DIR_DATA_SIZE - 16)) by (unfold DIR_DATA_SIZE; lia). rewrite (run_world _ _ _ _ _ _ Hg). unfold mbind at 1, SO_bind at 1, memory at 1. cbn [s_mem s_world].
  rewrite store_bytes_ok; [some_bind; done|]. apply mapped_write. intros x Hx. apply H4. unfold DIR_DATA_SIZE in *. lia.
Qed.

Lemma readdir_dry d m u {A} (k : option Z -> SO (shell U) A) : dry m d ->
  (more ← (if __entry d =? 0 then mret true else ino ← load64 (__entry d + D_INO); mret (ino =? 0)); e ← (if (more : bool) then refill d else mret (Some (__entry d))); k e) (mk_shell m u) =
  (refill d ≫= k) (mk_shell m u).
Proof.
  intros [->|[Hn H0]]; [done|]. rewrite (proj2 (Z.eqb_neq (__entry d) 0)) by done. erewrite bind_Some; [|rewrite (run_ld64 _ 0); [reflexivity|unfold D_INO; by rewrite Z.add_0_r]]. done.
Qed.

Lemma readdir_fill d m u n r b u1 : dry m d -> dir_ok m d -> batch_ok (r :: b) -> u_getdents (__fd d) (DIR_DATA_SIZE - 16) u = (n, records (r :: b), u1) -> 0 < n ->
  readdir d (mk_shell m u) = Some ((__data d, moved d (__data d + d_reclen r)), mk_shell (filled m d (r :: b)) u1).
Proof.
  intros Hd Hok (_ & Hr & Hl) Hg Hn. unfold readdir. rewrite readdir_dry by done. erewrite bind_Some; [|by eapply refill_ok]. rewrite (proj2 (Z.leb_gt n 0)) by done.
  apply Forall_cons in Hr as [Hr _]. pose proof (filled_holds m d (r :: b) Hl) as Hh. rewrite records_cons, <- app_assoc, holds_at_app in Hh. destruct Hh as [Hh _].
  destruct (record_at _ _ r Hh Hr) as (_ & H2 & _). rewrite (run_ld64 _ _ _ _ _ H2). pose proof (reclen_bounds r Hr). destruct Hok as (P1 & P2 & _). unfold moved. unfold DIR_DATA_SIZE in *. rewrite u64_small by lia. done.
Qed.

Lemma readdir_end d m u n u1 : dry m d -> dir_ok m d -> u_getdents (__fd d) (DIR_DATA_SIZE - 16) u = (n, [], u1) -> n <= 0 ->
  readdir d (mk_shell m u) = Some ((NULL, d), mk_shell (filled m d []) u1).
Proof.
  intros Hd Hok Hg Hn. unfold readdir. rewrite readdir_dry by done. erewrite bind_Some; [|eapply (refill_ok d m u n []); [done|done|done]]. by rewrite (proj2 (Z.leb_le n 0)) by done.
Qed.

(** ** [printf] *)

Lemma bytes_holds b l : holds b l -> bytes b 0 (Z.of_nat (length l)) = l.
Proof.
  intros (H & _). apply list_eq. intros i. unfold bytes. rewrite list_lookup_fmap. destruct (decide (i < length l)%nat) as [Hi|Hi].
  - rewrite lookup_seqZ_lt by lia. cbn [fmap option_fmap option_map]. rewrite !Z.add_0_l, H by done. destruct (lookup_lt_is_Some_2 l i Hi) as [v ->]. done.
  - rewrite lookup_seqZ_ge by lia. cbn. symmetry. apply lookup_ge_None_2. lia.
Qed.

Lemma str_loop_ok m l : forall a, cstr m a l -> str_loop (fuel_of m) m a = Some l.
Proof.
  intros a Hc. pose proof (cstr_fuel_of _ _ _ Hc) as Hf. revert a Hc Hf. generalize (fuel_of m). induction l as [|c l IH]; intros [|n] a Hc Hf; try lia; cbn [cstr str_loop length] in *.
  - rewrite Hc. by some_bind.
  - destruct Hc as (Hc & Hr & Ht). rewrite Hc. some_bind. rewrite (proj2 (Z.eqb_neq c 0)) by lia. rewrite (IH n (a + 1) Ht ltac:(lia)). by some_bind.
Qed.

Lemma printf_ok fmt args l m u : render isdigit (str_loop (fuel_of m) m) (S (length fmt)) fmt args = Some l -> len l < PRINTF_BUF ->
  printf fmt args (mk_shell m u) = Some (tt, mk_shell m (u_write 1 l u)).
Proof.
  intros Hr Hl. unfold PRINTF_BUF in Hl. unfold printf. destruct (vsnprintf_ok isdigit _ PRINTF_BUF fmt args l Hr) as (b & E & Hb); [unfold PRINTF_BUF, INT_MAX, len in *; lia|].
  assert (Hf : format_buf fmt args (mk_shell m u) = Some ((len l, b), mk_shell m u)).
  { unfold format_buf. unfold mbind at 1, SO_bind at 1, memory. cbn [s_mem s_world]. unfold libc_vsnprintf. rewrite E. some_bind. cbn [fst snd]. pose proof (len_nonneg l).
    by rewrite (proj2 (Z.leb_le 0 (Z.of_nat (length l)))), (proj2 (Z.ltb_lt _ PRINTF_BUF)) by (unfold PRINTF_BUF, len in *; lia). }
  mnext Hf. unfold print. cbn [s_mem s_world]. unfold len. by rewrite bytes_holds.
Qed.

(** A format of one string and a text without directives. *)
Lemma render_string strs a s post : strs (u64 a) = Some s -> Forall (fun c => c <> 0x25) post ->
  render isdigit strs (S (S (S (length post)))) (0x25 :: 0x73 :: post) [a] = Some (s ++ post).
Proof.
  intros Hs Hp. assert (Ht : forall n, (length post <= n)%nat -> render isdigit strs n post [] = Some post).
  { clear Hs. induction Hp as [|c post Hc Hp IH]; intros [|n] Hn; cbn [length] in *; try lia; cbn [render]; try done. rewrite (proj2 (Z.eqb_neq c 0x25)) by done. rewrite IH by lia. by some_bind. }
  change (render isdigit strs (S (S (S (length post)))) (0x25 :: 0x73 :: post) [a]) with
    (r ← (s ← strs (u64 a); Some (padded false 0x20 0 s, post, @nil Z)); let '(t, fmt, args) := r in l ← render isdigit strs (S (S (length post))) fmt args; Some (t ++ l)).
  rewrite Hs. run_bind. rewrite Ht by lia. run_bind. by rewrite padded_wide by lia.
Qed.

Lemma printf_string post a s m u : cstr m a s -> 0 <= a < 2 ^ 64 -> len s + len post < PRINTF_BUF -> Forall (fun c => c <> 0x25) post ->
  printf (0x25 :: 0x73 :: post) [a] (mk_shell m u) = Some (tt, mk_shell m (u_write 1 (s ++ post) u)).
Proof. intros Hs Ha Hl Hp. apply printf_ok; [|by rewrite len_app]. apply render_string; [rewrite u64_small by done; by apply str_loop_ok|done]. Qed.

(** ** [ls] *)

Definition DOT : list Z := [0x2e].
Definition DOTDOT : list Z := [0x2e; 0x2e].
Definition SPACE : Z := 0x20.

(** The names that are shown, in order. *)
Definition say (u : U) (r : dirent) : U := if bool_decide (d_name r = DOT) || bool_decide (d_name r = DOTDOT) then u else u_write 1 (d_name r ++ [SPACE]) u.

Lemma run_strcmp {B} a b l1 l2 (k : Z -> SO (shell U) B) m u : cstr m a l1 -> cstr m b l2 -> (strcmp_at a b ≫= k) (mk_shell m u) = k (lex l1 l2) (mk_shell m u).
Proof. intros H1 H2. unfold mbind at 1, SO_bind, strcmp_at, memory. cbn [s_mem]. rewrite (strcmp_ok _ _ _ _ _ H1 H2). by some_bind. Qed.

Lemma lex_case l1 l2 : (lex l1 l2 =? 0) = bool_decide (l2 = l1).
Proof. destruct (lex l1 l2 =? 0) eqn:E; zbool; symmetry; [apply bool_decide_eq_true|apply bool_decide_eq_false]; rewrite lex_eq in E; congruence. Qed.

Lemma ls_turn fuel dot dotdot d d' e r s m u : readdir d s = Some ((e, d'), mk_shell m u) -> 0 < e < 2 ^ 64 - 25 -> cstr m (e + D_NAME) (d_name r) -> len (d_name r) < 256 ->
  cstr m dot DOT -> cstr m dotdot DOTDOT -> ls_loop (S fuel) dot dotdot d s = ls_loop fuel dot dotdot d' (mk_shell m (say u r)).
Proof.
  intros E He Hn Hl H1 H2. cbn [ls_loop]. mnext E. rewrite (proj2 (Z.eqb_neq e 0)) by lia. rewrite (run_strcmp _ _ _ _ _ _ _ H1 Hn), lex_case. unfold say.
  destruct (bool_decide (d_name r = DOT)); cbn [orb]; [done|]. rewrite (run_strcmp _ _ _ _ _ _ _ H2 Hn), lex_case.
  destruct (bool_decide (d_name r = DOTDOT)); [done|]. unfold fmt_name. erewrite bind_Some; [|apply printf_string; [done|unfold D_NAME; lia|unfold PRINTF_BUF, len in *; cbn [length] in *; lia|]]; [done|].
  by constructor.
Qed.

(** The rest of a batch. *)
Lemma ls_batch dot dotdot m b : forall d u fuel, 0 < __entry d -> __entry d + len (records b) < 2 ^ 64 -> Forall record_ok b ->
  holds_at m (__entry d) (records b ++ replicate 16 0) -> cstr m dot DOT -> cstr m dotdot DOTDOT ->
  exists e, dry m (moved d e) /\ ls_loop (length (live b) + fuel) dot dotdot d (mk_shell m u) = ls_loop fuel dot dotdot (moved d e) (mk_shell m (foldl say u (live b))).
Proof.
  induction b as [|r b IH]; intros d u fuel He Hb Hr Hm H1 H2; cbn [live].
  - exists (__entry d). destruct d as [fd data sz e0]. cbn [moved __entry __fd __data __size] in *. split; [|done]. right. split; [cbn; lia|]. cbn [__entry moved]. eapply zeros_at; [exact Hm|lia].
  - apply Forall_cons in Hr as [Hr Hrs]. rewrite records_cons, <- app_assoc, holds_at_app, len_record in Hm by done. destruct Hm as [Hm1 Hm2]. rewrite records_cons, len_app, len_record in Hb by done.
    pose proof (reclen_bounds r Hr). pose proof (len_nonneg (records b)). destruct (record_at m _ r Hm1 Hr) as (Hi & _ & Hn). destruct (d_ino r =? 0) eqn:E0; zbool.
    + exists (__entry d). destruct d as [fd data sz e0]. cbn [moved __entry __fd __data __size] in *. split; [|done]. right. split; [cbn; lia|]. cbn [__entry]. unfold D_INO in Hi. rewrite Z.add_0_r, E0 in Hi. exact Hi.
    + destruct (IH (moved d (__entry d + d_reclen r)) (say u r) fuel) as (e & Hdry & E); cbn [moved __entry]; try (done || lia).
      exists e. split; [done|]. cbn [length Nat.add]. rewrite (ls_turn _ _ _ d (moved d (__entry d + d_reclen r)) (__entry d) r _ m u); try done; [apply readdir_next; try done; lia|lia|apply Hr].
Qed.

(** The server delivers the batches, with what the program shows in between. *)
Fixpoint delivers_dir (fd : Z) (bs : list (list dirent)) (u u' : U) : Prop :=
  match bs with
  | [] => exists n, u_getdents fd (DIR_DATA_SIZE - 16) u = (n, [], u') /\ n <= 0
  | b :: bs => exists n u1, u_getdents fd (DIR_DATA_SIZE - 16) u = (n, records b, u1) /\ 0 < n /\ batch_ok b /\ delivers_dir fd bs (foldl say u1 (visible b)) u'
  end.

Definition beside d (a : Z) (l : list Z) : Prop := a + len l < __data d \/ __data d + DIR_DATA_SIZE <= a.
Definition only_data d m m' : Prop := forall x, x < __data d \/ __data d + DIR_DATA_SIZE <= x -> m' !! x = m !! x.

Lemma beside_cstr d m m' a l : only_data d m m' -> beside d a l -> cstr m a l -> cstr m' a l.
Proof. intros H Hb Hc. apply (cstr_frame m); [done|]. intros x Hx. apply H. unfold beside in Hb. lia. Qed.

Lemma ls_loop_ok dot dotdot bs : forall d m u u' fuel, dry m d -> dir_ok m d -> delivers_dir (__fd d) bs u u' -> cstr m dot DOT -> cstr m dotdot DOTDOT -> beside d dot DOT -> beside d dotdot DOTDOT ->
  (length (concat (visible <$> bs)) < fuel)%nat ->
  exists m' e, ls_loop fuel dot dotdot d (mk_shell m u) = Some (moved d e, mk_shell m' u') /\ only_data d m m'.
Proof.
  induction bs as [|b bs IH]; intros d m u u' [|fuel] Hd Hok Hdel H1 H2 B1 B2 Hf; try (cbn [fmap list_fmap concat length] in Hf; lia); cbn [delivers_dir] in Hdel.
  - destruct Hdel as (n & Hg & Hn). exists (filled m d []), (__entry d). cbn [ls_loop]. mnext (readdir_end d m u n u' Hd Hok Hg Hn). split; [by destruct d|]. intros x Hx. by apply filled_out.
  - destruct Hdel as (n & u1 & Hg & Hn & Hb & Hdel). destruct b as [|r b]; [by destruct Hb|]. pose proof Hb as (_ & Hr & Hl). assert (Hod : only_data d m (filled m d (r :: b))) by (intros x Hx; apply filled_out; [unfold DIR_DATA_SIZE in *; lia|done]).
    pose proof (filled_holds m d (r :: b) Hl) as Hh. set (m1 := filled m d (r :: b)) in *. assert (C1 : cstr m1 dot DOT) by (by eapply beside_cstr). assert (C2 : cstr m1 dotdot DOTDOT) by (by eapply beside_cstr).
    apply Forall_cons in Hr as [Hr Hrs]. rewrite records_cons, <- app_assoc, holds_at_app, len_record in Hh by done. destruct Hh as [Hh1 Hh2]. rewrite records_cons, len_app, len_record in Hl by done.
    pose proof (reclen_bounds r Hr). pose proof (len_nonneg (records b)). destruct (record_at m1 _ r Hh1 Hr) as (_ & _ & Hname). destruct Hok as (P1 & P2 & P3 & P4).
    rewrite (ls_turn _ _ _ d (moved d (__data d + d_reclen r)) (__data d) r _ m1 u1); try done; [|by eapply readdir_fill|unfold DIR_DATA_SIZE in *; lia|apply Hr].
    cbn [fmap list_fmap concat visible] in Hf. rewrite length_app in Hf. cbn [length] in Hf.
    destruct (ls_batch dot dotdot m1 b (moved d (__data d + d_reclen r)) (say u1 r) (fuel - length (live b))) as (e & Hdry & E); cbn [moved __entry]; try done; [lia|unfold DIR_DATA_SIZE in *; lia|].
    replace (length (live b) + (fuel - length (live b)))%nat with fuel in E by lia. rewrite E.
    destruct (IH (moved d e) m1 (foldl say (say u1 r) (live b)) u' (fuel - length (live b))%nat) as (m' & e' & E' & Ho); cbn [moved __fd]; try done; [change (dir_ok m1 d); by apply filled_mapped|lia|].
    exists m', e'. split; [exact E'|]. intros x Hx. rewrite (Ho x Hx). by apply Hod.
Qed.

Lemma opendir_ok path name fd m u u1 dp data u2 u3 : cstr m path name -> u_open name O_RDONLY u = (fd, u1) -> 0 <= fd -> u_alloc SIZEOF_DIR u1 = (dp, u2) -> dp <> 0 ->
  u_alloc DIR_DATA_SIZE u2 = (data, u3) -> opendir path (mk_shell m u) = Some (if data =? 0 then (None, mk_shell m (u_free dp u3)) else (Some (dp, mk_DIR fd data DIR_DATA_SIZE 0), mk_shell m u3)).
Proof.
  intros Hp Ho Hf Ha Hd Hb. unfold opendir. rewrite (run_string _ _ _ _ _ Hp), (run_world _ _ _ _ _ _ Ho). rewrite (proj2 (Z.ltb_ge fd 0)) by done. rewrite (run_world _ _ _ _ _ _ Ha).
  rewrite (proj2 (Z.eqb_neq dp 0)) by done. rewrite (run_world _ _ _ _ _ _ Hb). by case_if.
Qed.
End Listing.

(** ** The batches of the ext2 server *)

Definition total (l : list dirent) : Z := foldr (fun r n => d_reclen r + n) 0 l.

Lemma total_snoc l r : total (l ++ [r]) = total l + d_reclen r.
Proof. unfold total. rewrite foldr_app. cbn [foldr]. induction l as [|x l IH]; cbn [foldr]; [lia|]. rewrite IH. lia. Qed.

Lemma len_records b : Forall record_ok b -> len (records b) = total b.
Proof. induction 1 as [|r b Hr _ IH]; [done|]. rewrite records_cons, len_app, len_record, IH by done. done. Qed.

Lemma getdents_block_fits fuel : forall bs block off count nbytes acc buf full off' count' nbytes' acc',
  0 <= nbytes -> getdents_block fuel bs block off count nbytes acc buf = Some (full, off', count', nbytes', acc') -> 0 <= nbytes' /\ nbytes' + total acc' = nbytes + total acc.
Proof.
  induction fuel as [|fuel IH]; intros bs block off count nbytes acc buf full off' count' nbytes' acc' Hn E; [done|]. cbn [getdents_block] in E. case_in E; [injection E as <- <- <- <- <-; lia|].
  apply option.bind_Some in E as (n & _ & E). case_in E; [injection E as <- <- <- <- <-; lia|]. zbool. apply option.bind_Some in E as (ino & _ & E). apply option.bind_Some in E as (ty & _ & E). case_in E; [done|]. apply option.bind_Some in E as (rl & _ & E).
  apply IH in E; [|lia]. rewrite total_snoc in E. cbn [d_reclen] in E. lia.
Qed.

Section Batches.
Context {D : Type} `{!BlockDevice D} `{!Heap}.

Lemma getdents_loop_fits fuel : forall sb i block off count nbytes acc buf s count' acc' buf' s', 0 <= nbytes ->
  getdents_loop fuel sb i block off count nbytes acc buf s = Some ((count', acc', buf'), s') -> total acc' <= nbytes + total acc.
Proof.
  induction fuel as [|fuel IH]; intros sb i block off count nbytes acc buf s count' acc' buf' s' Hn E; [done|]. cbn [getdents_loop] in E. apply bind_inv in E as ([r b] & s1 & _ & E). case_in E; [injection E as <- <- <- <-; lia|].
  apply bind_inv in E as ([[[[full o] c] n] a] & s2 & Eb & E). unfold lift in Eb. destruct (getdents_block _ _ _ _ _ _ _ _) as [x|] eqn:Ex; [|done]. injection Eb as -> ->. apply getdents_block_fits in Ex as [H1 H2]; [|done].
  case_in E; [injection E as <- <- <- <-; lia|]. apply IH in E; [|done]. lia.
Qed.

(** The records of [ext2_getdents] fit into the bytes it was given, so that those
    [readdir] keeps back stay zero. *)
Lemma ext2_batch_ok fuel ino pos s r l s' : ext2_getdents fuel ino pos (DIR_DATA_SIZE - 16) s = Some ((r, l), s') -> l <> [] -> Forall record_ok l -> batch_ok l.
Proof.
  intros E Hl Hr. split; [done|]. split; [done|]. rewrite len_records by done. unfold ext2_getdents in E.
  do 6 apply bind_inv in E as (? & ? & _ & E). apply bind_inv in E as ([[c l'] b] & s1 & El & E). apply bind_inv in E as (? & ? & _ & E). injection E as _ <- _.
  apply getdents_loop_fits in El; [|done]. cbn [total foldr] in El. lia.
Qed.
End Batches.

Section Theorem_.
Context {U : Type} `{!Unix U} `{!Directories U}.

(** C26: [ls] shows a directory completely.  If the directory cannot be opened it answers
    -1 and shows nothing.  Otherwise it ends and has shown, in order and each with a space
    behind it, the names of the records of all batches that the file server delivers,
    without the two for the directory and its parent, and then a newline; it returns 0 and
    gives its memory back, and outside of the buffer of the records memory is as before.
    Within a batch, a record without an inode that is not the first hides those behind
    it.  Batches need to leave 16 bytes of the buffer free. *)
Theorem ls_lists_directory (fuel : nat) (dot dotdot path : Z) (name : list Z) (fd dp data : Z) (bs : list (list dirent)) (m : gmap Z Z) (u u1 u2 u3 u4 : U) :
  cstr m path name -> u_open name O_RDONLY u = (fd, u1) ->
  (fd < 0 -> ls fuel dot dotdot path (mk_shell m u) = Some (-1, mk_shell m u1)) /\
  (0 <= fd -> u_alloc SIZEOF_DIR u1 = (dp, u2) -> u_alloc DIR_DATA_SIZE u2 = (data, u3) -> dp <> 0 ->
   let d := mk_DIR fd data DIR_DATA_SIZE 0 in
   dir_ok m d -> cstr m dot DOT -> cstr m dotdot DOTDOT -> beside d dot DOT -> beside d dotdot DOTDOT ->
   delivers_dir fd bs u3 u4 -> (length (concat (visible <$> bs)) < fuel)%nat ->
   exists m', ls fuel dot dotdot path (mk_shell m u) = Some (0, mk_shell m' (u_free dp (u_free data (u_write 1 [NL] u4)))) /\ only_data d m m').
Proof.
  intros Hp Ho. split.
  - intros Hf. unfold ls. assert (E : opendir path (mk_shell m u) = Some (None, mk_shell m u1)); [|by mnext E].
    unfold opendir. rewrite (run_string _ _ _ _ _ Hp), (run_world _ _ _ _ _ _ Ho). by rewrite (proj2 (Z.ltb_lt fd 0)).
  - intros Hf Ha Hb Hd d Hok H1 H2 B1 B2 Hdel Hfu. destruct (ls_loop_ok dot dotdot bs d m u3 u4 fuel) as (m' & e & E & Hod); try done; [by left|].
    exists m'. split; [|done]. unfold ls. pose proof (opendir_ok path name fd m u u1 dp data u2 u3 Hp Ho Hf Ha Hd Hb) as Eo.
    rewrite (proj2 (Z.eqb_neq data 0)) in Eo by (destruct Hok as [Hok _]; cbn in Hok; lia). mnext Eo. mnext E.
    erewrite bind_Some; [|apply (printf_ok fmt_nl [] [NL]); done]. done.
Qed.
End Theorem_.

(** ** Witness: a directory of two batches *)

Definition entry_of (ino : Z) (nm : list Z) : dirent := mk_dirent ino 0 (OFFSETOF_D_NAME + len nm + 1) 1 nm.
Definition batch_of (k : Z) : list dirent := if k =? 0 then [entry_of 2 DOT; entry_of 2 DOTDOT; entry_of 11 [0x61]] else [entry_of 12 [0x62; 0x63]; entry_of 0 [0x78]; entry_of 13 [0x79]].

#[local] Instance disk_script : Unix (list Z * list (list Z)) := {|
  u_read u := (0, 0, u);
  u_write _ l '(ks, o) := (ks, o ++ [l]);
  u_stat _ u := (-1, 0, u);
  u_chdir _ u := (0, u);
  u_open _ _ u := (3, u);
  u_read_file _ _ u := (0, [], u);
  u_close _ u := u;
  u_alloc n u := (if n =? DIR_DATA_SIZE then 0x2000 else 0x1000, u);
  u_free _ u := u;
  u_getcwd u := (None, u);
  u_fork u := (5, u);
  u_execve _ _ u := (None, u);
  u_wait u := (5, 3, u) |}.

#[local] Instance dir_script : Directories (list Z * list (list Z)) := {|
  u_getdents _ _ '(ks, o) := match ks with k :: ks => (1024, records (batch_of k), (ks, o)) | [] => (0, [], (ks, o)) end;
  u_mkdir _ _ u := (0, u);
  u_execve_env _ _ _ u := (None, u) |}.

Definition ls_memory : gmap Z Z := write (write ∅ 0x2000 (replicate 4096 7)) 0x100 [0x2e; 0; 0x2e; 0x2e; 0].

Lemma batch_of_ok k : batch_ok (batch_of k).
Proof.
  assert (Hr : forall ino nm, 0 <= ino < 2 ^ 64 -> Forall (fun c => 0 < c < 256) nm -> len nm < 256 -> record_ok (entry_of ino nm)) by (intros; split; [assumption|split; [reflexivity|split; assumption]]).
  unfold batch_of. destruct (k =? 0); (split; [done|split; [|vm_compute; discriminate]]);
    repeat (constructor; [apply Hr; [lia|repeat (constructor; [lia|]); constructor|vm_compute; reflexivity]|]); constructor.
Qed.

Lemma ls_lists_directory_witness : exists m', ls 5 0x100 0x102 0x100 (mk_shell ls_memory ([0; 1], [])) = Some (0, mk_shell m' ([], [[0x61; 0x20]; [0x62; 0x63; 0x20]; [0x0a]])).
Proof.
  destruct (ls_lists_directory 5 0x100 0x102 0x100 DOT 3 0x1000 0x2000 [batch_of 0; batch_of 1] ls_memory ([0; 1], []) ([0; 1], []) ([0; 1], []) ([0; 1], []) ([], [[0x61; 0x20]; [0x62; 0x63; 0x20]])) as [_ H].
  - repeat split; vm_compute; reflexivity.
  - reflexivity.
  - specialize (H ltac:(lia) eq_refl eq_refl ltac:(lia)). destruct H as (m' & E & _).
    + split; [cbn; lia|]. split; [reflexivity|]. split; [reflexivity|]. unfold ls_memory. apply mapped_write. apply (mapped_replicate ∅ 0x2000 7 4096).
    + repeat split; vm_compute; reflexivity.
    + repeat split; vm_compute; reflexivity.
    + left. reflexivity.
    + left. reflexivity.
    + eexists _, _. split; [reflexivity|]. split; [lia|]. split; [apply batch_of_ok|].
      eexists _, _. split; [reflexivity|]. split; [lia|]. split; [apply batch_of_ok|]. exists 0. split; [vm_compute; reflexivity|lia].
    + apply Nat.ltb_lt. vm_compute. reflexivity.
    + exists m'. exact E.
Defined.
